(* ===== verification/_CoqProject ===== *)
-Q . S2P
Prelude.v
Utf8.v
CdrCore.v
CdrReader.v
CdrWriter.v
CdrCodec.v
PointCloud.v
CdrTheorems.v
ProtocolError.v
Cbor.v
Extension.v
ControlSchema.v
Control.v
Frame.v
Bootstrap.v
Accept.v
Session.v
SessionProofs.v
Budgets.v
Policy.v
AuditLog.v
AuditProofs.v
AuditTheorems.v
Ops.v
Transports.v
Backend.v
Typesupport.v
Rcl.v
AdapterAbi.v
RosWorker.v
RosProofs.v
RosSafety.v
RosService.v
Builders.v
BuilderProofs.v
Auth.v
Connection.v
ConnectionSpec.v
RosTheorems.v
RclBackend.v
ConnectionProofs.v
ConnectionTheorems.v
Generated.v
HostReader.v
HostValue.v
HostTheorems.v
Registry.v
RegistryTheorems.v
EngineTypes.v
Batch.v
BatchProofs.v
Sdk.v
SdkProofs.v
Engine.v
EngineCodecs.v
EngineSpec.v
EngineMessages.v
EngineProofs.v
EngineSlab.v
EngineBehaviour.v
System.v
EngineTheorems.v
HostAbi.v
BatchTheorems.v
