(* ===== verification/Prelude.v ===== *)
(** * rclweb: a Rocq model of the Rust core

    rclweb connects browser code to ROS 2.  Its Rust core is three crates' worth
    of logic: the wire protocol R2WP with its codecs and its session state machine
    ([src/rclweb/src/]), the client engine that runs in the browser as WASM and
    speaks with its TypeScript host through flat batches ([rclweb/src/engine/],
    [rclweb/src/host/]), and the gateway [rclwebd] that ends a connection on the
    ROS side ([src/rclwebd/src/]).  This library models that logic and proves what
    makes it correct; paths below are relative to [src/].

    ** How the parts interact

    Bytes from a transport are parsed as bootstrap records or frames
    ([Bootstrap], [Frame], with [Extension] areas and [Cbor] payloads whose control
    messages [Control] validates against [ControlSchema]).  What is parsed drives a
    [Session], the same code on both ends.  On the client the session sits inside an
    [Engine]: [poll] takes host events and gives messages to send, events for the
    application, and leases on retained buffers; [HostAbi] and [Batch] carry a poll
    across the WASM boundary, [Sdk] is the TypeScript reader of the result.  On the
    gateway it sits inside a [Connection], which answers by the policy of [Policy],
    authenticates by [Auth], builds its messages with [Builders], queues samples in
    [Budgets], writes audit records with [AuditLog] and talks to ROS through the trait
    of [Backend].  Its implementation [RclBackend] sends commands to the attachment
    thread [RosWorker], which owns the entities of the C client library ([Rcl]) and
    finds message types in shared libraries ([Typesupport]).  Messages of the application travel as CDR ([CdrReader],
    [CdrWriter], [PointCloud], [Generated]) and, between engine and host, in the
    layout of [HostValue]; [Registry] says which types exist.  [System] composes an
    engine and a connection.

    ** Files

    - [Prelude]: the target ([usize] at 32 or 64 bits), machine integers, bytes,
      outcomes (a value, an error, a panic), fields in either byte order, and the
      automation.  [Utf8]: Rust text.
    - CDR, [rclweb/src/cdr/]: [CdrCore] (faults, limits, alignment), [CdrReader],
      [CdrWriter], [CdrCodec] (the round trip contract of a write and a read),
      [PointCloud], [CdrTheorems].
    - Protocol, [rclweb/src/protocol/]: [ProtocolError], [Cbor], [Extension],
      [ControlSchema] and [Control], [Frame], [Bootstrap]; the encoders of
      [encode.rs] sit with what they encode; [Accept] builds accepted messages.
    - Session, [rclweb/src/session/]: [Session]; [SessionProofs] has the transition
      relation it implements and the properties of runs.
    - Gateway, [rclwebd/src/]: [Budgets] ([budgets.rs]), [Policy] ([config.rs],
      [qos.rs], [acl.rs], the negotiation of [control.rs]), [AuditLog], [AuditProofs],
      [AuditTheorems] ([audit.rs]), [Ops] ([ops.rs], the session endpoints,
      [local_dev_tls.rs]), [Transports] (the transports of [ws.rs] and [wt.rs]),
      [Backend] ([backend.rs]), [Builders],
      [BuilderProofs] ([control.rs]), [Auth] ([auth.rs]), [Connection],
      [ConnectionSpec], [ConnectionProofs], [ConnectionTheorems] ([connection.rs],
      [telemetry.rs]).
    - ROS attachment, [rclwebd/src/ros/] and [adapter/mod.rs]: [Typesupport]
      ([typesupport.rs]), [Rcl] ([rcl.rs]), [AdapterAbi] ([adapter/mod.rs] and the
      probe), [RosWorker] and [RclBackend] ([backend.rs]); [RosProofs] has what is
      relied on of the client library, [RosSafety] the worker's invariant,
      [RosService] that every step keeps it, [RosTheorems] what the worker promises.
    - Types, [rclweb/src/types/]: [Generated] ([generated/]), [HostReader],
      [HostValue], [HostTheorems] ([host_value.rs]), [Registry],
      [RegistryTheorems] ([registry.rs], [key.rs], [limits.rs], [error.rs], and the
      embedded metadata as data).
    - Client engine, [rclweb/src/engine/]: [EngineTypes] ([types.rs],
      [control.rs]), [Engine] ([mod.rs]), [EngineSpec] (contracts, invariant),
      [EngineCodecs], [EngineMessages], [EngineProofs], [EngineSlab] (leases),
      [EngineBehaviour], [EngineTheorems].
    - Host boundary, [rclweb/src/host/]: [Batch], [BatchProofs], [BatchTheorems]
      ([batch.rs]), [HostAbi] ([abi.rs]), [Sdk], [SdkProofs] (the function
      [decodePollResult] of [typescript/src/wasm/abi.ts]).
    - [System]: both ends together.

    State corresponds to state: a Rust struct is a Record with its fields, an enum
    an Inductive with its variants, a method a function from the state to an
    [outcome] and the new state.  Names are the source's.  A [HashMap] or
    [BTreeMap] is a [gmap], a [Vec<u8>] and a [String] the list of their bytes, a
    float its IEEE 754 bit pattern, an integer a [Z] with the wrapping, checked or
    saturating operation the source uses written out.  Where debug and release
    builds differ (overflow, [debug_assert]) the build is a parameter ([Build],
    [EngineBuild]) and a theorem names the build it holds for.

    ** What the theorems show

    - Codecs: what is written is read back (CDR fields in any sequence, PointCloud2,
      CBOR, frames, poll batches, host values), and what is accepted is exactly what
      a specification without reference to the code describes (control messages,
      bootstrap records, frames by the sixteen receiver rules, CBOR by its
      deterministic encoding).  No input makes a decoder panic on the targets named;
      a fault leaves reader and writer as they were.
    - Session: the handlers implement the transition relation [event_accepts]; every
      reachable state is well formed; phases and channels only move forward; data
      needs an open channel; channel numbers are not reused.
    - Client engine: a poll always answers; what it sends is what its session
      recorded; leases stay inside retained buffers and every buffer comes back;
      heartbeats keep their schedule; what cannot be accepted closes the engine.
      Across the ABI the same poll is what the SDK decodes.
    - Gateway: a turn of the select loop keeps the invariant that ties session,
      channels, queue and backend; a run ends with everything torn down in a release
      build; samples are published under their sequence rules; the policy denies by
      default; every message it builds is accepted by its receiver.
    - Operations: the session gauge counts the running sessions and a drain only winds
      down; messages framed on a WebTransport stream are read back whole; certificates
      are never advertised stale.
    - Audit: the files stay one verifiable chain through rotations, restarts and
      failures that leave no torn line; equal digests mean equal records.
    - ROS attachment: whatever commands come and however its calls nest, the worker
      never panics, answers every command once and in kind, and ends with every
      entity finalized once; the backend handle keeps the promises the gateway's
      theorems assume, for type names the thread can look up; the typesupport cache
      never changes an answer.
    - Together: a published text reaches ROS as its CDR, a ROS sample reaches the
      lease of the application.
    - Examples and lemmas named in the findings show behaviours worth knowing, such
      as the sequence of a second service call or a failed rotation.

    ** Fuel and bounds

    Recursion that is not structural runs on fuel, and running out is a panic, so a
    theorem that excludes panics shows the fuel to be enough.  [Cbor.DECODE_FUEL] is
    17, above the nesting bound 16; the loop of an extension area takes at most one
    turn per four bytes; [Control.SCHEMA_FUEL] is the height of the tallest schema;
    loops over input take the length of the input, the rotation scan of the audit
    files its own limit 128.  [RosWorker.drain] takes one unit for every command there
    will be, a loop of takes one more than the library has to give, and a call one
    turn for every nanosecond of its timeout, since every turn waits.

    ** Parameters

    What is not under [src/] is an argument with its documented behaviour as laws:
    the ROS backend ([RosBackend], [RosBackendLaws]), the JWT library ([Auth]), JSON
    and SHA-256 ([AuditLog]), the dynamic linker ([Linker]), the C client library with
    its clock and memory ([RclLibrary], [RclLaws]), clocks, random session ids, the linear memory of the WASM
    instance with its view addresses and element sizes ([HostAbi], [Batch]), and the
    browser's decoding of invalid UTF-8 ([Sdk]).  Every class has a concrete instance
    on which the witnesses run.

    The order in which a [HashMap] yields its entries is unspecified in Rust; the
    model uses the order of [gmap] at the teardown of a connection, in
    [sweep_released] and in the pumps of the attachment thread, and the theorems about them do not depend on it.

    ** Not modelled

    - The sockets, streams and tasks of [ws.rs], [wt.rs] and [main.rs], the JSON and
      Prometheus texts of [ops.rs], keys and signing in [local_dev_tls.rs], and the
      reading of environment variables in [config.rs], [auth.rs] and [audit.rs]: input
      and output around the modelled functions.
    - Of [rclwebd/src/ros/]: the generated bindings, the start-up and shutdown of the
      context, the node and the guard condition, the copying of graph names, and the
      variants of calls and waits nothing uses.  The C structures are their handles,
      so aliasing inside [unsafe] blocks is not seen: a library is a value, not a
      pointer into the list of libraries.  Commands of other connections and the bound
      of the command channel are the arrivals of the worker; the contract of [Backend]
      is shown for [RclBackend] as one connection uses it, and only for type names
      without a NUL byte that an error message can hold, since the code keeps it for
      no others.
    - Allocation (apart from the capacity requests that can panic), threads and
      the order of memory accesses; the [Display] texts of errors.
    - The TypeScript packages beyond [decodePollResult]; fixture generators and
      tests.  The audit line of [acl.rs] and [auth.rs] and their JSON documents. *)

From Stdlib Require Export ZArith Lia.
From Stdlib Require String Ascii.
From stdpp Require Export base list numbers option strings.
#[global] Open Scope Z_scope.
#[global] Set Default Proof Using "Type".

(** ** The compilation target

    The crate is built for the browser (wasm32, 32-bit [usize]) and for the
    gateway (64-bit [usize]); every definition that mentions [usize] takes the
    target as a type-class argument, so a theorem holds for both builds. *)

Inductive target := Wasm32 | Native64.
Class Target := the_target : target.

Definition usize_bits `{Target} : Z :=
  match the_target with Wasm32 => 32 | Native64 => 64 end.
Definition usize_max `{Target} : Z :=
  match the_target with Wasm32 => 4294967295 | Native64 => 18446744073709551615 end.
Definition isize_max `{Target} : Z :=
  match the_target with Wasm32 => 2147483647 | Native64 => 9223372036854775807 end.

Definition u16_max : Z := 65535.
Definition u32_max : Z := 4294967295.
Definition u64_max : Z := 18446744073709551615.

(** Wrapping [+] and [-] on [usize] (release builds wrap). *)
Definition usize_add `{Target} (a b : Z) : Z := (a + b) mod (usize_max + 1).
Definition usize_sub `{Target} (a b : Z) : Z := (a - b) mod (usize_max + 1).
Definition usize_mul `{Target} (a b : Z) : Z := (a * b) mod (usize_max + 1).

(** [checked_add], [checked_mul] and [try_from]. *)
Definition checked_add (max a b : Z) : option Z :=
  if a + b <=? max then Some (a + b) else None.
Definition checked_mul (max a b : Z) : option Z :=
  if a * b <=? max then Some (a * b) else None.
Definition try_from (max v : Z) : option Z :=
  if (0 <=? v) && (v <=? max) then Some v else None.

(** [as u8 / u16 / u32 / u64] and [as i8 / ... / i64]. *)
Definition as_unsigned (w v : Z) : Z := v mod 2 ^ w.
Definition as_signed (w v : Z) : Z :=
  let u := v mod 2 ^ w in if u <? 2 ^ (w - 1) then u else u - 2 ^ w.

Definition is_unsigned (w v : Z) : Prop := 0 <= v < 2 ^ w.
Definition is_signed (w v : Z) : Prop := - 2 ^ (w - 1) <= v < 2 ^ (w - 1).

(** ** Results

    [Err] is the code's error value; [Panic] is a Rust panic (an index or a
    slice out of range, [unwrap]/[expect] on the wrong variant). *)

Inductive outcome (E A : Type) : Type :=
| Ok (a : A)
| Err (e : E)
| Panic.
Arguments Ok {E A} _.
Arguments Err {E A} _.
Arguments Panic {E A}.

Definition obind {E A B} (m : outcome E A) (k : A -> outcome E B) : outcome E B :=
  match m with Ok a => k a | Err e => Err e | Panic => Panic end.

Definition omap {E A B} (f : A -> B) (m : outcome E A) : outcome E B :=
  match m with Ok a => Ok (f a) | Err e => Err e | Panic => Panic end.

(** [map_err]. *)
Definition map_err {E F A} (f : E -> F) (m : outcome E A) : outcome F A :=
  match m with Ok a => Ok a | Err e => Err (f e) | Panic => Panic end.

(** [ok_or]. *)
Definition ok_or {E A} (o : option A) (e : E) : outcome E A :=
  match o with Some a => Ok a | None => Err e end.

Definition is_panic {E A} (m : outcome E A) : bool :=
  match m with Panic => true | _ => false end.
Definition is_ok {E A} (m : outcome E A) : bool :=
  match m with Ok _ => true | _ => false end.

(** A method of a mutable receiver: the state is returned on every exit, so a
    model says what an error leaves behind. *)
Definition SM (S E A : Type) : Type := S -> outcome E A * S.

Definition ret {S E A} (a : A) : SM S E A := fun s => (Ok a, s).
Definition throw {S E A} (e : E) : SM S E A := fun s => (Err e, s).
Definition gets {S E A} (f : S -> A) : SM S E A := fun s => (Ok (f s), s).
Definition modify {S E} (f : S -> S) : SM S E unit := fun s => (Ok tt, f s).
Definition lift {S E A} (m : outcome E A) : SM S E A := fun s => (m, s).
Definition bind {S E A B} (m : SM S E A) (k : A -> SM S E B) : SM S E B :=
  fun s =>
    match m s with
    | (Ok a, s') => k a s'
    | (Err e, s') => (Err e, s')
    | (Panic, s') => (Panic, s')
    end.

Declare Scope rust_scope.
Delimit Scope rust_scope with rust.
Notation "x <-- m ;; k" := (obind m (fun x => k))
  (at level 100, m at next level, right associativity) : rust_scope.
Notation "m ;;? k" := (obind m (fun _ => k))
  (at level 100, right associativity) : rust_scope.
Notation "x <~ m ;; k" := (bind m (fun x => k))
  (at level 100, m at next level, right associativity) : rust_scope.
Notation "m ;;~ k" := (bind m (fun _ => k))
  (at level 100, right associativity) : rust_scope.
#[global] Open Scope rust_scope.

(** [if c { return Err(e) }]. *)
Definition guard {E} (c : bool) (e : E) : outcome E unit :=
  if c then Ok tt else Err e.

(** ** Bytes *)

Abbreviation bytes := (list Z).

Definition is_byte (b : Z) : Prop := 0 <= b < 256.
Definition bytes_ok (bs : bytes) : Prop := Forall is_byte bs.

(** [.len()]. *)
Definition blen {A} (l : list A) : Z := Z.of_nat (length l).

(** What Rust guarantees of a byte slice in memory. *)
Definition rust_slice `{Target} (bs : bytes) : Prop :=
  bytes_ok bs /\ blen bs <= isize_max.

(** [&v[i]] and [&v[i..j]]; both panic out of range. *)
Definition index {E A} (l : list A) (i : Z) : outcome E A :=
  if 0 <=? i then
    match l !! Z.to_nat i with Some a => Ok a | None => Panic end
  else Panic.

Definition sub_list {A} (l : list A) (i n : Z) : list A :=
  take (Z.to_nat n) (drop (Z.to_nat i) l).

Definition slice {E A} (l : list A) (i j : Z) : outcome E (list A) :=
  if (0 <=? i) && (i <=? j) && (j <=? blen l)
  then Ok (sub_list l i (j - i)) else Panic.

(** [.get(i)]. *)
Definition get {A} (l : list A) (i : Z) : option A :=
  if 0 <=? i then l !! Z.to_nat i else None.

(** [to_le_bytes], [to_be_bytes], [from_le_bytes], [from_be_bytes]. *)
Fixpoint to_le (n : nat) (v : Z) : bytes :=
  match n with O => [] | S n' => (v mod 256) :: to_le n' (v / 256) end.
Definition to_be (n : nat) (v : Z) : bytes := rev (to_le n v).
Fixpoint of_le (bs : bytes) : Z :=
  match bs with [] => 0 | b :: bs' => b + 256 * of_le bs' end.
Definition of_be (bs : bytes) : Z := of_le (rev bs).

(** [[0; n]]. *)
Definition zeros (n : Z) : bytes := replicate (Z.to_nat n) 0.

(** ** Text

    A Rust [String] is the list of its UTF-8 bytes; ASCII literals of the
    source are written as Rocq strings. *)
Definition lit (s : string) : bytes :=
  (fix go s := match s with
               | String.EmptyString => []
               | String.String a s' => Z.of_nat (Ascii.nat_of_ascii a) :: go s'
               end) s.

(** ** Lemmas on machine integers *)

Section Machine.
Context `{Target}.

Lemma usize_max_cases : usize_max = u32_max \/ usize_max = u64_max.
Proof. unfold usize_max; destruct the_target; auto. Qed.

Lemma usize_max_ge : u32_max <= usize_max.
Proof. unfold usize_max, u32_max; destruct the_target; lia. Qed.

Lemma isize_max_ge : 2147483647 <= isize_max.
Proof. unfold isize_max; destruct the_target; lia. Qed.

Lemma isize_le_usize : 2 * isize_max + 1 = usize_max.
Proof. unfold usize_max, isize_max; destruct the_target; lia. Qed.

Lemma usize_add_small a b : 0 <= a + b <= usize_max -> usize_add a b = a + b.
Proof. intros. unfold usize_add. rewrite Z.mod_small; lia. Qed.

Lemma usize_sub_small a b : 0 <= a - b <= usize_max -> usize_sub a b = a - b.
Proof. intros. unfold usize_sub. rewrite Z.mod_small; lia. Qed.

Lemma usize_mul_small a b : 0 <= a * b <= usize_max -> usize_mul a b = a * b.
Proof. intros. unfold usize_mul. rewrite Z.mod_small; lia. Qed.

End Machine.

Lemma checked_add_some max a b : a + b <= max -> checked_add max a b = Some (a + b).
Proof. intros. unfold checked_add. destruct (Z.leb_spec (a + b) max); [done | lia]. Qed.

Lemma checked_add_none max a b : max < a + b -> checked_add max a b = None.
Proof. intros. unfold checked_add. destruct (Z.leb_spec (a + b) max); [lia | done]. Qed.

Lemma checked_mul_some max a b : a * b <= max -> checked_mul max a b = Some (a * b).
Proof. intros. unfold checked_mul. destruct (Z.leb_spec (a * b) max); [done | lia]. Qed.

Lemma try_from_some max v : 0 <= v <= max -> try_from max v = Some v.
Proof.
  intros. unfold try_from. destruct (Z.leb_spec 0 v), (Z.leb_spec v max); simpl; done || lia.
Qed.

Lemma try_from_none max v : max < v -> try_from max v = None.
Proof.
  intros. unfold try_from. destruct (Z.leb_spec v max); [lia | by rewrite andb_false_r].
Qed.

Lemma try_from_inv max v x : try_from max v = Some x -> x = v /\ 0 <= v <= max.
Proof.
  unfold try_from.
  destruct (Z.leb_spec 0 v), (Z.leb_spec v max); simpl; intros; simplify_eq; lia.
Qed.

Lemma as_unsigned_small w v : is_unsigned w v -> as_unsigned w v = v.
Proof. intros. unfold as_unsigned. by rewrite Z.mod_small. Qed.

Lemma as_unsigned_range w v : 0 <= w -> is_unsigned w (as_unsigned w v).
Proof. intros. apply Z.mod_pos_bound. lia. Qed.

Lemma pow2_half w : 1 <= w -> 2 ^ w = 2 * 2 ^ (w - 1).
Proof.
  intros. replace w with (Z.succ (w - 1)) at 1 by lia. rewrite Z.pow_succ_r; lia.
Qed.

(** Casting to the unsigned type of the same width and back is the identity. *)
Lemma as_signed_unsigned w v : 1 <= w -> is_signed w v -> as_signed w (as_unsigned w v) = v.
Proof.
  intros Hw [Hl Hu]. unfold as_signed, as_unsigned.
  pose proof (pow2_half w Hw). rewrite Z.mod_mod by lia.
  destruct (Z.ltb_spec (v mod 2 ^ w) (2 ^ (w - 1))) as [Hlt | Hge].
  - destruct (Z.le_gt_cases 0 v); [rewrite Z.mod_small in *; lia |].
    rewrite <- (Z.mod_unique v (2 ^ w) (-1) (v + 2 ^ w)) in Hlt; lia.
  - destruct (Z.le_gt_cases 0 v); [rewrite Z.mod_small in *; lia |].
    rewrite <- (Z.mod_unique v (2 ^ w) (-1) (v + 2 ^ w)); lia.
Qed.

Lemma as_unsigned_signed w v :
  1 <= w -> is_unsigned w v -> as_unsigned w (as_signed w v) = v.
Proof.
  intros Hw Hv. unfold as_signed, as_unsigned. rewrite (Z.mod_small v) by done.
  pose proof (pow2_half w Hw). unfold is_unsigned in Hv.
  destruct (Z.ltb_spec v (2 ^ (w - 1))); [by rewrite Z.mod_small |].
  symmetry. apply (Z.mod_unique _ _ (-1)); lia.
Qed.

Lemma as_signed_range w v : 1 <= w -> is_signed w (as_signed w v).
Proof.
  intros Hw. unfold as_signed, is_signed. pose proof (pow2_half w Hw).
  pose proof (Z.mod_pos_bound v (2 ^ w)).
  destruct (Z.ltb_spec (v mod 2 ^ w) (2 ^ (w - 1))); lia.
Qed.

(** ** Lemmas on byte lists *)

Section Lists.
Context {A : Type}.
Implicit Types l k : list A.

Lemma blen_nonneg l : 0 <= blen l.
Proof. unfold blen. lia. Qed.

Lemma blen_app l k : blen (l ++ k) = blen l + blen k.
Proof. unfold blen. rewrite length_app. lia. Qed.

Lemma blen_cons x l : blen (x :: l) = 1 + blen l.
Proof. unfold blen. simpl. lia. Qed.

Lemma blen_nil : blen (@nil A) = 0.
Proof. done. Qed.

Lemma blen_single (x : A) : blen [x] = 1.
Proof. done. Qed.

Lemma blen_0 l : blen l = 0 -> l = [].
Proof. destruct l; [done | rewrite blen_cons; pose proof (blen_nonneg l); lia]. Qed.

Lemma blen_map {B} (f : A -> B) l : blen (map f l) = blen l.
Proof. unfold blen. by rewrite length_map. Qed.

Lemma blen_rev l : blen (rev l) = blen l.
Proof. unfold blen. by rewrite length_rev. Qed.

Lemma blen_sub_list l i n :
  0 <= i -> 0 <= n -> i + n <= blen l -> blen (sub_list l i n) = n.
Proof.
  unfold blen, sub_list. intros. rewrite length_take, length_drop. lia.
Qed.

Lemma sub_list_app_r l k i n :
  blen l <= i -> sub_list (l ++ k) i n = sub_list k (i - blen l) n.
Proof.
  unfold sub_list, blen. intros. f_equal. rewrite drop_app_ge by lia. f_equal. lia.
Qed.

Lemma sub_list_app_l l k i n :
  0 <= i -> 0 <= n -> i + n <= blen l -> sub_list (l ++ k) i n = sub_list l i n.
Proof.
  unfold sub_list, blen. intros. rewrite drop_app_le by lia.
  rewrite take_app_le; [done |]. rewrite length_drop. lia.
Qed.

Lemma sub_list_head l k : sub_list (l ++ k) 0 (blen l) = l.
Proof.
  unfold sub_list, blen. rewrite Nat2Z.id. change (Z.to_nat 0) with 0%nat.
  rewrite drop_0. apply take_app_length.
Qed.

Lemma sub_list_mid l1 l2 l3 n :
  n = blen l2 -> sub_list (l1 ++ l2 ++ l3) (blen l1) n = l2.
Proof.
  intros ->. rewrite sub_list_app_r by lia.
  replace (blen l1 - blen l1) with 0 by lia. apply sub_list_head.
Qed.

Lemma sub_list_all l n : blen l = n -> sub_list l 0 n = l.
Proof. intros <-. rewrite <- (app_nil_r l) at 1. apply sub_list_head. Qed.

Lemma sub_list_split l i n m :
  0 <= i -> 0 <= n -> 0 <= m ->
  sub_list l i (n + m) = sub_list l i n ++ sub_list l (i + n) m.
Proof.
  intros. unfold sub_list. rewrite !Z2Nat.inj_add by lia. rewrite <- drop_drop.
  generalize (drop (Z.to_nat i) l), (Z.to_nat m). clear.
  induction (Z.to_nat n) as [|p IH]; intros [|x k] q; simpl;
    rewrite ?take_nil; f_equal; auto.
Qed.

Lemma sub_list_app_inv l (x y : list A) o :
  0 <= o -> o + blen (x ++ y) <= blen l -> sub_list l o (blen (x ++ y)) = x ++ y ->
  sub_list l o (blen x) = x /\ sub_list l (o + blen x) (blen y) = y.
Proof.
  pose proof (blen_nonneg x). pose proof (blen_nonneg y). rewrite blen_app. intros ? Hle E.
  rewrite sub_list_split in E by lia. apply app_inj_1 in E; [done |].
  assert (blen (sub_list l o (blen x)) = blen x) as Hl by (apply blen_sub_list; lia).
  unfold blen in *. lia.
Qed.

Lemma slice_ok {E} l i j :
  0 <= i <= j -> j <= blen l -> slice (E := E) l i j = Ok (sub_list l i (j - i)).
Proof.
  intros. unfold slice.
  destruct (Z.leb_spec 0 i), (Z.leb_spec i j), (Z.leb_spec j (blen l)); simpl; done || lia.
Qed.

Lemma index_ok {E} l i d :
  0 <= i < blen l -> index (E := E) l i = Ok (nth (Z.to_nat i) l d).
Proof.
  intros. unfold index, blen in *. destruct (Z.leb_spec 0 i); [| lia].
  destruct (lookup_lt_is_Some_2 l (Z.to_nat i)) as [x Hx]; [lia |].
  rewrite Hx. f_equal. symmetry. by apply nth_lookup_Some.
Qed.

Lemma index_app_mid {E} l x k i : i = blen l -> index (E := E) (l ++ x :: k) i = Ok x.
Proof.
  intros ->. unfold index, blen. rewrite Nat2Z.id.
  destruct (Z.leb_spec 0 (Z.of_nat (length l))); [| lia].
  by rewrite list_lookup_middle.
Qed.

Lemma index_sub_list {E} l i n j :
  0 <= i -> 0 <= j < n -> index (E := E) (sub_list l i n) j = index l (i + j).
Proof.
  intros. unfold index, sub_list.
  destruct (Z.leb_spec 0 j), (Z.leb_spec 0 (i + j)); try lia.
  rewrite lookup_take_lt, lookup_drop by lia.
  by replace (Z.to_nat i + Z.to_nat j)%nat with (Z.to_nat (i + j)) by lia.
Qed.

Lemma index_lookup {E} l i x : index (E := E) l i = Ok x -> l !! Z.to_nat i = Some x.
Proof. unfold index. repeat case_match; naive_solver. Qed.

End Lists.

Lemma forallb_Forall {A} (f : A -> bool) l :
  forallb f l = true <-> Forall (fun x => f x = true) l.
Proof.
  induction l as [|x l IH]; cbn [forallb]; [by split |].
  by rewrite andb_true_iff, Forall_cons, IH.
Qed.

Lemma bytes_ok_app l k : bytes_ok (l ++ k) <-> bytes_ok l /\ bytes_ok k.
Proof. apply Forall_app. Qed.

Lemma bytes_ok_cons b l : bytes_ok (b :: l) <-> is_byte b /\ bytes_ok l.
Proof. apply Forall_cons. Qed.

Lemma bytes_ok_nil : bytes_ok [].
Proof. constructor. Qed.

(** Byte lists are checked by computation. *)
Lemma bytes_ok_check l : forallb (fun x => (0 <=? x) && (x <? 256)) l = true -> bytes_ok l.
Proof.
  intros Hl. apply forallb_Forall in Hl. eapply Forall_impl; [exact Hl |]. intros x Hx.
  cbv beta in Hx. unfold is_byte. lia.
Qed.

Lemma bytes_ok_sub_list l i n : bytes_ok l -> bytes_ok (sub_list l i n).
Proof. intros. by apply Forall_take, Forall_drop. Qed.

Lemma bytes_ok_rev l : bytes_ok l -> bytes_ok (rev l).
Proof. intros. unfold bytes_ok. by apply Forall_rev. Qed.

Lemma index_is_byte {E} l i b : bytes_ok l -> index (E := E) l i = Ok b -> is_byte b.
Proof. intros Hl Hb. apply index_lookup in Hb. by eapply Forall_lookup_1. Qed.

Lemma blen_zeros n : 0 <= n -> blen (zeros n) = n.
Proof. intros. unfold blen, zeros. rewrite length_replicate. lia. Qed.

Lemma bytes_ok_zeros n : bytes_ok (zeros n).
Proof. apply Forall_replicate. unfold is_byte. lia. Qed.

(** Fixed-width integers. *)

Lemma blen_to_le n v : blen (to_le n v) = Z.of_nat n.
Proof.
  revert v. induction n as [|n IH]; intros; simpl; [done |].
  rewrite blen_cons, IH. lia.
Qed.

Lemma blen_to_be n v : blen (to_be n v) = Z.of_nat n.
Proof. unfold to_be. by rewrite blen_rev, blen_to_le. Qed.

Lemma bytes_ok_to_le n v : bytes_ok (to_le n v).
Proof.
  revert v. induction n as [|n IH]; intros; simpl; constructor; [| apply IH].
  unfold is_byte. pose proof (Z.mod_pos_bound v 256). lia.
Qed.

Lemma bytes_ok_to_be n v : bytes_ok (to_be n v).
Proof. apply bytes_ok_rev, bytes_ok_to_le. Qed.

Lemma of_le_bound l : bytes_ok l -> 0 <= of_le l < 256 ^ blen l.
Proof.
  induction 1 as [|b l Hb Hl IH]; [vm_compute; by split |].
  rewrite blen_cons, Z.pow_add_r by (pose proof (blen_nonneg l); lia).
  unfold is_byte in Hb. simpl of_le. lia.
Qed.

Lemma of_be_bound l : bytes_ok l -> 0 <= of_be l < 256 ^ blen l.
Proof. intros. unfold of_be. rewrite <- blen_rev. by apply of_le_bound, bytes_ok_rev. Qed.

Lemma of_le_to_le n v : 0 <= v < 256 ^ Z.of_nat n -> of_le (to_le n v) = v.
Proof.
  revert v. induction n as [|n IH]; intros v Hv; simpl.
  - change (256 ^ Z.of_nat 0) with 1 in Hv. lia.
  - rewrite Nat2Z.inj_succ, Z.pow_succ_r in Hv by lia.
    rewrite IH by (split; [apply Z.div_pos; lia | apply Z.div_lt_upper_bound; lia]).
    pose proof (Z.div_mod v 256). lia.
Qed.

Lemma to_le_of_le l : bytes_ok l -> to_le (length l) (of_le l) = l.
Proof.
  induction 1 as [|b l Hb Hl IH]; [done |]. unfold is_byte in Hb. cbn [length to_le of_le].
  rewrite Z.mul_comm, Z.mod_add, Z.div_add, Z.mod_small, (Z.div_small b), Z.add_0_l by lia.
  by rewrite IH.
Qed.

Lemma of_be_to_be n v : 0 <= v < 256 ^ Z.of_nat n -> of_be (to_be n v) = v.
Proof. intros. unfold of_be, to_be. rewrite rev_involutive. by apply of_le_to_le. Qed.

Lemma to_be_of_be l : bytes_ok l -> to_be (length l) (of_be l) = l.
Proof.
  intros Hl. unfold of_be, to_be. rewrite <- (length_rev l), to_le_of_le by (by apply bytes_ok_rev).
  apply rev_involutive.
Qed.

Lemma obind_assoc {E A B C} (m : outcome E A) (f : A -> outcome E B) (g : B -> outcome E C) :
  obind (obind m f) g = obind m (fun a => obind (f a) g).
Proof. by destruct m. Qed.

(** ** Automation *)

(** Evaluate the integer comparisons of the goal that [lia] decides. *)
Ltac zcmp :=
  repeat match goal with
  | |- context [?a <=? ?b] =>
      first [ rewrite (proj2 (Z.leb_le a b)) by lia
            | rewrite (proj2 (Z.leb_gt a b)) by lia ]
  | |- context [?a <? ?b] =>
      first [ rewrite (proj2 (Z.ltb_lt a b)) by lia
            | rewrite (proj2 (Z.ltb_ge a b)) by lia ]
  | |- context [?a =? ?b] =>
      first [ rewrite (proj2 (Z.eqb_eq a b)) by lia
            | rewrite (proj2 (Z.eqb_neq a b)) by lia ]
  end; cbn [andb orb negb].

(** Split on the comparisons of the goal, innermost first. *)
Ltac zcase :=
  match goal with
  | |- context [?a <=? ?b] => destruct (Z.leb_spec a b)
  | |- context [?a <? ?b] => destruct (Z.ltb_spec a b)
  | |- context [?a =? ?b] => destruct (Z.eqb_spec a b)
  end; cbn [andb orb negb].

(** ** Reasoning about state transformers

    [wp m Q X s]: from [s], [m] does not panic, a success satisfies [Q] and an
    error satisfies [X] (both of the value and of the state left behind). *)

Definition wp {S E A} (m : SM S E A) (Q : A -> S -> Prop) (X : E -> S -> Prop) (s : S)
    : Prop :=
  match m s with
  | (Ok a, s') => Q a s'
  | (Err e, s') => X e s'
  | (Panic, _) => False
  end.

Section Wp.
Context {S E : Type}.

Lemma wp_bind {A B} (m : SM S E A) (k : A -> SM S E B) Q X s :
  wp m (fun a s' => wp (k a) Q X s') X s -> wp (bind m k) Q X s.
Proof. unfold wp, bind. destruct (m s) as [[a | e |] s']; auto. Qed.

Lemma wp_bind_inv {A B} (m : SM S E A) (k : A -> SM S E B) Q X s :
  wp (bind m k) Q X s -> wp m (fun a s' => wp (k a) Q X s') X s.
Proof. unfold wp, bind. destruct (m s) as [[a | e |] s']; auto. Qed.

Lemma wp_ret {A} (a : A) (Q : A -> S -> Prop) (X : E -> S -> Prop) s :
  Q a s -> wp (ret a) Q X s.
Proof. done. Qed.

Lemma wp_throw {A} (e : E) (Q : A -> S -> Prop) (X : E -> S -> Prop) s :
  X e s -> wp (throw e) Q X s.
Proof. done. Qed.

Lemma wp_gets {A} (f : S -> A) (Q : A -> S -> Prop) (X : E -> S -> Prop) s :
  Q (f s) s -> wp (gets f) Q X s.
Proof. done. Qed.

Lemma wp_modify (f : S -> S) (Q : unit -> S -> Prop) (X : E -> S -> Prop) s :
  Q tt (f s) -> wp (modify f) Q X s.
Proof. done. Qed.

Lemma wp_lift_ok {A} (m : outcome E A) a (Q : A -> S -> Prop) (X : E -> S -> Prop) s :
  m = Ok a -> Q a s -> wp (lift m) Q X s.
Proof. intros ->. done. Qed.

Lemma wp_mono {A} (m : SM S E A) (Q Q' : A -> S -> Prop) (X X' : E -> S -> Prop) s :
  wp m Q X s -> (forall a s', Q a s' -> Q' a s') -> (forall e s', X e s' -> X' e s') ->
  wp m Q' X' s.
Proof. unfold wp. destruct (m s) as [[a | e |] s']; auto. Qed.

Lemma wp_ok {A} (m : SM S E A) Q X s a s' : m s = (Ok a, s') -> wp m Q X s -> Q a s'.
Proof. unfold wp. by intros ->. Qed.

Lemma wp_err {A} (m : SM S E A) Q X s e s' : m s = (Err e, s') -> wp m Q X s -> X e s'.
Proof. unfold wp. by intros ->. Qed.

Lemma wp_no_panic {A} (m : SM S E A) Q X s : wp m Q X s -> is_panic (fst (m s)) = false.
Proof. unfold wp. destruct (m s) as [[a | e |] s']; done. Qed.

(** A computation that cannot fail returns. *)
Lemma wp_total {A} (m : SM S E A) (Q : A -> S -> Prop) s :
  wp m Q (fun _ _ => False) s -> exists a s', m s = (Ok a, s') /\ Q a s'.
Proof. unfold wp. destruct (m s) as [[a | e |] s']; naive_solver. Qed.

End Wp.

(** One step of symbolic execution. *)
Ltac wp_step :=
  lazymatch goal with
  | |- wp (bind _ _) _ _ _ => apply wp_bind
  | |- wp (ret _) _ _ _ => apply wp_ret
  | |- wp (throw _) _ _ _ => apply wp_throw
  | |- wp (gets _) _ _ _ => apply wp_gets
  | |- wp (modify _) _ _ _ => apply wp_modify
  end; cbv beta.

(** Remove the wrap-around of [usize] arithmetic that [lia] shows in range. *)
Ltac usz :=
  repeat match goal with
  | |- context [usize_add ?a ?b] => rewrite (usize_add_small a b) by lia
  | |- context [usize_sub ?a ?b] => rewrite (usize_sub_small a b) by lia
  | |- context [usize_mul ?a ?b] => rewrite (usize_mul_small a b) by lia
  end.
