(* ===== verification/Utf8.v ===== *)
(** * UTF-8

    Rust's [String], [str::from_utf8], [String::push] and [str::chars] as the
    language defines them: a string is its list of bytes, a [char] a Unicode
    scalar value.  [utf8_decode] is the strict decoder (overlong forms,
    surrogates and values above U+10FFFF are rejected); [utf8_encode] is its
    inverse on scalar values. *)

From S2P Require Import Prelude.

Definition is_scalar (c : Z) : bool :=
  (0 <=? c) && (c <=? 0x10FFFF) && negb ((0xD800 <=? c) && (c <=? 0xDFFF)).

Definition cont_byte (b : Z) : bool := (0x80 <=? b) && (b <=? 0xBF).

Definition utf8_char (c : Z) : bytes :=
  if c <? 0x80 then [c]
  else if c <? 0x800 then [0xC0 + c / 64; 0x80 + c mod 64]
  else if c <? 0x10000 then
    [0xE0 + c / 4096; 0x80 + (c / 64) mod 64; 0x80 + c mod 64]
  else
    [0xF0 + c / 262144; 0x80 + (c / 4096) mod 64; 0x80 + (c / 64) mod 64; 0x80 + c mod 64].

Definition utf8_encode (cs : list Z) : bytes := concat (map utf8_char cs).

Fixpoint utf8_decode (bs : bytes) : option (list Z) :=
  match bs with
  | [] => Some []
  | b0 :: t0 =>
      if (0 <=? b0) && (b0 <? 0x80) then
        match utf8_decode t0 with Some cs => Some (b0 :: cs) | None => None end
      else if (0xC2 <=? b0) && (b0 <=? 0xDF) then
        match t0 with
        | b1 :: t1 =>
            if cont_byte b1 then
              match utf8_decode t1 with
              | Some cs => Some ((b0 - 0xC0) * 64 + (b1 - 0x80) :: cs)
              | None => None
              end
            else None
        | [] => None
        end
      else if (0xE0 <=? b0) && (b0 <=? 0xEF) then
        match t0 with
        | b1 :: b2 :: t2 =>
            let c := (b0 - 0xE0) * 4096 + (b1 - 0x80) * 64 + (b2 - 0x80) in
            if cont_byte b1 && cont_byte b2 && (0x800 <=? c) && is_scalar c then
              match utf8_decode t2 with Some cs => Some (c :: cs) | None => None end
            else None
        | _ => None
        end
      else if (0xF0 <=? b0) && (b0 <=? 0xF4) then
        match t0 with
        | b1 :: b2 :: b3 :: t3 =>
            let c := (b0 - 0xF0) * 262144 + (b1 - 0x80) * 4096
                     + (b2 - 0x80) * 64 + (b3 - 0x80) in
            if cont_byte b1 && cont_byte b2 && cont_byte b3
               && (0x10000 <=? c) && is_scalar c then
              match utf8_decode t3 with Some cs => Some (c :: cs) | None => None end
            else None
        | _ => None
        end
      else None
  end.

Definition utf8_valid (bs : bytes) : bool :=
  match utf8_decode bs with Some _ => true | None => false end.

(** [str::chars] of a valid string. *)
Definition chars (bs : bytes) : list Z :=
  match utf8_decode bs with Some cs => cs | None => [] end.

Lemma is_scalar_spec c :
  is_scalar c = true <-> 0 <= c <= 0xD7FF \/ 0xE000 <= c <= 0x10FFFF.
Proof. unfold is_scalar. lia. Qed.

(** A scalar value is determined by its 6-bit digits. *)
Lemma digits_64 c : c = c / 64 * 64 + c mod 64 /\ 0 <= c mod 64 < 64.
Proof. pose proof (Z.div_mod c 64). pose proof (Z.mod_pos_bound c 64). lia. Qed.

Lemma utf8_decode_char c bs cs :
  is_scalar c = true -> utf8_decode bs = Some cs ->
  utf8_decode (utf8_char c ++ bs) = Some (c :: cs).
Proof.
  intros Hc Hbs. apply is_scalar_spec in Hc as Hr. unfold utf8_char.
  assert (c / 4096 = c / 64 / 64) as -> by (rewrite Z.div_div; [done | lia | lia]).
  assert (c / 262144 = c / 64 / 64 / 64) as -> by (rewrite !Z.div_div; [done | lia ..]).
  destruct (digits_64 c) as [E0 L0]. destruct (digits_64 (c / 64)) as [E1 L1].
  destruct (digits_64 (c / 64 / 64)) as [E2 L2].
  set (q := c / 64) in *. set (q2 := q / 64) in *. set (q3 := q2 / 64) in *.
  set (r := c mod 64) in *. set (r1 := q mod 64) in *. set (r2 := q2 mod 64) in *.
  clearbody q q2 q3 r r1 r2.
  destruct (Z.ltb_spec c 0x80).
  { cbn [app utf8_decode]. zcmp. by rewrite Hbs. }
  destruct (Z.ltb_spec c 0x800).
  { cbn [app utf8_decode]. unfold cont_byte. zcmp. rewrite Hbs. do 2 f_equal. lia. }
  destruct (Z.ltb_spec c 0x10000).
  { cbn [app utf8_decode]. unfold cont_byte. zcmp.
    replace ((0xE0 + q2 - 0xE0) * 4096 + (0x80 + r1 - 0x80) * 64 + (0x80 + r - 0x80))
      with c by lia.
    zcmp. rewrite Hc, Hbs. done. }
  cbn [app utf8_decode]. unfold cont_byte. zcmp.
  replace ((0xF0 + q3 - 0xF0) * 262144 + (0x80 + r2 - 0x80) * 4096
           + (0x80 + r1 - 0x80) * 64 + (0x80 + r - 0x80)) with c by lia.
  zcmp. rewrite Hc, Hbs. done.
Qed.

Lemma utf8_decode_encode cs :
  Forall (fun c => is_scalar c = true) cs -> utf8_decode (utf8_encode cs) = Some cs.
Proof.
  induction 1 as [|c cs Hc Hcs IH]; [done |]. by apply utf8_decode_char.
Qed.

(** The three multi-byte shapes are the digits of the scalar they denote. *)
Lemma utf8_char_2 b0 b1 :
  0xC2 <= b0 <= 0xDF -> 0x80 <= b1 <= 0xBF ->
  utf8_char ((b0 - 0xC0) * 64 + (b1 - 0x80)) = [b0; b1].
Proof.
  intros. unfold utf8_char. zcmp.
  rewrite <- (Z.div_unique_pos _ 64 (b0 - 0xC0) (b1 - 0x80)),
    <- (Z.mod_unique_pos _ 64 (b0 - 0xC0) (b1 - 0x80)) by lia.
  repeat (f_equal; try lia).
Qed.

Lemma utf8_char_3 b0 b1 b2 c :
  0xE0 <= b0 <= 0xEF -> 0x80 <= b1 <= 0xBF -> 0x80 <= b2 <= 0xBF ->
  c = (b0 - 0xE0) * 4096 + (b1 - 0x80) * 64 + (b2 - 0x80) -> 0x800 <= c ->
  utf8_char c = [b0; b1; b2].
Proof.
  intros ??? Hc ?. unfold utf8_char.
  assert (c / 4096 = c / 64 / 64) as -> by (rewrite Z.div_div; [done | lia | lia]).
  assert (Hq : c / 64 = (b0 - 0xE0) * 64 + (b1 - 0x80)).
  { symmetry. apply (Z.div_unique_pos _ _ _ (b2 - 0x80)); lia. }
  assert (Hr : c mod 64 = b2 - 0x80).
  { symmetry. apply (Z.mod_unique_pos _ _ ((b0 - 0xE0) * 64 + (b1 - 0x80))); lia. }
  zcmp. rewrite Hr, Hq, <- (Z.div_unique_pos _ 64 (b0 - 0xE0) (b1 - 0x80)),
    <- (Z.mod_unique_pos _ 64 (b0 - 0xE0) (b1 - 0x80)) by lia.
  repeat (f_equal; try lia).
Qed.

Lemma utf8_char_4 b0 b1 b2 b3 c :
  0xF0 <= b0 <= 0xF4 -> 0x80 <= b1 <= 0xBF -> 0x80 <= b2 <= 0xBF -> 0x80 <= b3 <= 0xBF ->
  c = (b0 - 0xF0) * 262144 + (b1 - 0x80) * 4096 + (b2 - 0x80) * 64 + (b3 - 0x80) ->
  0x10000 <= c ->
  utf8_char c = [b0; b1; b2; b3].
Proof.
  intros ???? Hc ?. unfold utf8_char.
  assert (c / 4096 = c / 64 / 64) as -> by (rewrite Z.div_div; [done | lia | lia]).
  assert (c / 262144 = c / 64 / 64 / 64) as -> by (rewrite !Z.div_div; [done | lia ..]).
  assert (Hr : c mod 64 = b3 - 0x80).
  { symmetry. apply (Z.mod_unique_pos _ _
      ((b0 - 0xF0) * 4096 + (b1 - 0x80) * 64 + (b2 - 0x80))); lia. }
  assert (Hq : c / 64 = (b0 - 0xF0) * 4096 + (b1 - 0x80) * 64 + (b2 - 0x80)).
  { symmetry. apply (Z.div_unique_pos _ _ _ (b3 - 0x80)); lia. }
  assert (Hr1 : (c / 64) mod 64 = b2 - 0x80).
  { symmetry. apply (Z.mod_unique_pos _ _ ((b0 - 0xF0) * 64 + (b1 - 0x80))); lia. }
  assert (Hq1 : c / 64 / 64 = (b0 - 0xF0) * 64 + (b1 - 0x80)).
  { symmetry. apply (Z.div_unique_pos _ _ _ (b2 - 0x80)); lia. }
  zcmp. rewrite Hr, Hr1, Hq1, <- (Z.div_unique_pos _ 64 (b0 - 0xF0) (b1 - 0x80)),
    <- (Z.mod_unique_pos _ 64 (b0 - 0xF0) (b1 - 0x80)) by lia.
  repeat (f_equal; try lia).
Qed.

Lemma utf8_decode_inv bs cs :
  utf8_decode bs = Some cs ->
  Forall (fun c => is_scalar c = true) cs /\ utf8_encode cs = bs.
Proof.
  remember (length bs) as n eqn:Hn. assert (length bs <= n)%nat as Hle by lia. clear Hn.
  revert bs cs Hle.
  induction n as [|n IH]; intros [|b0 t0] cs Hle; cbn [length] in Hle;
    try (intros [= <-]; split; [constructor | done]); [lia |].
  cbn [utf8_decode]. unfold cont_byte.
  destruct ((0 <=? b0) && (b0 <? 0x80)) eqn:E1.
  { case_match eqn:Hd; intros [= <-]. apply IH in Hd as [Hf He]; [| lia].
    split; [constructor; [apply is_scalar_spec; lia | done] |].
    unfold utf8_encode. cbn [map concat]. unfold utf8_char at 1. zcmp.
    fold (utf8_encode l). by rewrite He. }
  destruct ((0xC2 <=? b0) && (b0 <=? 0xDF)) eqn:E2.
  { destruct t0 as [|b1 t1]; [done |]. cbn [length] in Hle.
    case_match eqn:Hb; [| done]. case_match eqn:Hd; intros [= <-].
    apply IH in Hd as [Hf He]; [| lia].
    split; [constructor; [apply is_scalar_spec; lia | done] |].
    unfold utf8_encode. cbn [map concat]. rewrite utf8_char_2 by lia.
    fold (utf8_encode l). by rewrite He. }
  destruct ((0xE0 <=? b0) && (b0 <=? 0xEF)) eqn:E3.
  { destruct t0 as [|b1 [|b2 t2]]; [done.. |]. cbn [length] in Hle.
    case_match eqn:Hb; [| done]. case_match eqn:Hd; intros [= <-].
    apply IH in Hd as [Hf He]; [| lia].
    rewrite !andb_true_iff in Hb. destruct Hb as [[[Hb1 Hb2] Hge] Hs].
    split; [by constructor |].
    unfold utf8_encode. cbn [map concat]. rewrite (utf8_char_3 b0 b1 b2) by lia.
    fold (utf8_encode l). by rewrite He. }
  destruct ((0xF0 <=? b0) && (b0 <=? 0xF4)) eqn:E4; [| done].
  destruct t0 as [|b1 [|b2 [|b3 t3]]]; [done.. |]. cbn [length] in Hle.
  case_match eqn:Hb; [| done]. case_match eqn:Hd; intros [= <-].
  apply IH in Hd as [Hf He]; [| lia].
  rewrite !andb_true_iff in Hb. destruct Hb as [[[[Hb1 Hb2] Hb3] Hge] Hs].
  split; [by constructor |].
  unfold utf8_encode. cbn [map concat]. rewrite (utf8_char_4 b0 b1 b2 b3) by lia.
  fold (utf8_encode l). by rewrite He.
Qed.

Lemma utf8_char_length c : (1 <= length (utf8_char c) <= 4)%nat.
Proof. unfold utf8_char. repeat case_match; simpl; lia. Qed.

Lemma utf8_encode_length cs :
  (length cs <= length (utf8_encode cs) <= 4 * length cs)%nat.
Proof.
  unfold utf8_encode. induction cs as [|c cs IH]; simpl; [lia |].
  rewrite length_app. pose proof (utf8_char_length c). lia.
Qed.

Lemma utf8_char_bytes c : is_scalar c = true -> bytes_ok (utf8_char c).
Proof.
  intros Hc%is_scalar_spec. unfold utf8_char.
  assert (forall a, 0 <= a mod 64 < 64) by (intros; apply Z.mod_pos_bound; lia).
  pose proof (Z.div_mod c 64). pose proof (Z.div_mod c 4096). pose proof (Z.div_mod c 262144).
  pose proof (Z.mod_pos_bound c 4096). pose proof (Z.mod_pos_bound c 262144).
  pose proof (H c). pose proof (H (c / 64)). pose proof (H (c / 4096)).
  repeat zcase; repeat constructor; unfold is_byte; lia.
Qed.

Lemma utf8_encode_bytes cs :
  Forall (fun c => is_scalar c = true) cs -> bytes_ok (utf8_encode cs).
Proof.
  induction 1; [constructor |]. unfold utf8_encode. cbn [map concat].
  apply bytes_ok_app. split; [by apply utf8_char_bytes | done].
Qed.

Lemma utf8_valid_bytes bs : utf8_valid bs = true -> bytes_ok bs.
Proof.
  unfold utf8_valid. case_match eqn:E; [intros _ | done].
  apply utf8_decode_inv in E as [? <-]. by apply utf8_encode_bytes.
Qed.

Lemma utf8_valid_chars bs : utf8_valid bs = true -> utf8_encode (chars bs) = bs.
Proof. unfold utf8_valid, chars. case_match eqn:E; [intros _ | done]. by apply utf8_decode_inv. Qed.

Lemma chars_scalar bs : Forall (fun c => is_scalar c = true) (chars bs).
Proof. unfold chars. case_match eqn:E; [exact (proj1 (utf8_decode_inv _ _ E)) | constructor]. Qed.

(** Valid texts concatenate. *)
Lemma utf8_valid_app a b : utf8_valid a = true -> utf8_valid b = true -> utf8_valid (a ++ b) = true.
Proof.
  intros Ha%utf8_valid_chars Hb%utf8_valid_chars. unfold utf8_valid. rewrite <- Ha, <- Hb. unfold utf8_encode.
  rewrite <- concat_app, <- map_app. change (concat (map utf8_char (chars a ++ chars b))) with (utf8_encode (chars a ++ chars b)).
  rewrite utf8_decode_encode; [done |]. apply Forall_app. split; apply chars_scalar.
Qed.
