(* ===== verification/CdrCore.v ===== *)
(** * CDR faults, limits and alignment

    [rclweb/src/cdr/error.rs] and [rclweb/src/cdr/limits.rs]: the stable fault
    taxonomy, the resource ceilings with their validation, the byte order of a
    stream, and the padding rule of CDR1 (alignment is relative to absolute
    offset 4). *)

From S2P Require Import Prelude.

(** ** Faults *)

Module CdrError.

Inductive CdrErrorCode :=
| InvalidEncapsulation
| UnsupportedRepresentation
| InvalidLimits
| Truncated
| InvalidBoolean
| InvalidUtf8
| InvalidWstringScalar
| MissingStringTerminator
| BoundsExceeded
| LengthOverflow
| AlignmentOverflow
| TrailingData.

#[export] Instance CdrErrorCode_eq_dec : EqDecision CdrErrorCode.
Proof. solve_decision. Defined.

Definition as_str (c : CdrErrorCode) : bytes :=
  match c with
  | InvalidEncapsulation => lit "invalid_encapsulation"
  | UnsupportedRepresentation => lit "unsupported_representation"
  | InvalidLimits => lit "invalid_limits"
  | Truncated => lit "truncated"
  | InvalidBoolean => lit "invalid_boolean"
  | InvalidUtf8 => lit "invalid_utf8"
  | InvalidWstringScalar => lit "invalid_wstring_scalar"
  | MissingStringTerminator => lit "missing_string_terminator"
  | BoundsExceeded => lit "bounds_exceeded"
  | LengthOverflow => lit "length_overflow"
  | AlignmentOverflow => lit "alignment_overflow"
  | TrailingData => lit "trailing_data"
  end.

Record t := new { code : CdrErrorCode; offset : Z; needed : Z; remaining : Z }.

#[export] Instance t_eq_dec : EqDecision t.
Proof. solve_decision. Defined.

Definition invalid_encapsulation (offset needed remaining : Z) : t :=
  new InvalidEncapsulation offset needed remaining.
Definition unsupported_representation (offset remaining : Z) : t :=
  new UnsupportedRepresentation offset 0 remaining.
Definition invalid_limits (needed remaining : Z) : t :=
  new InvalidLimits 0 needed remaining.
Definition truncated (offset needed remaining : Z) : t :=
  new Truncated offset needed remaining.
Definition invalid_boolean (offset remaining : Z) : t :=
  new InvalidBoolean offset 1 remaining.
Definition invalid_utf8 (offset needed remaining : Z) : t :=
  new InvalidUtf8 offset needed remaining.
Definition missing_string_terminator (offset needed remaining : Z) : t :=
  new MissingStringTerminator offset needed remaining.
Definition invalid_wstring_scalar (offset remaining : Z) : t :=
  new InvalidWstringScalar offset 4 remaining.
Definition bounds_exceeded (offset needed remaining : Z) : t :=
  new BoundsExceeded offset needed remaining.
Definition length_overflow (offset needed remaining : Z) : t :=
  new LengthOverflow offset needed remaining.
Definition alignment_overflow (offset needed remaining : Z) : t :=
  new AlignmentOverflow offset needed remaining.
Definition trailing_data (offset remaining : Z) : t :=
  new TrailingData offset 0 remaining.

(** A size that does not fit the host's [usize] is reported as 0. *)
Definition size_field_u64 `{Target} (v : Z) : Z :=
  match try_from usize_max v with None => 0 | Some _ => v end.

End CdrError.


(** ** Limits *)

Definition DEFAULT_MAX_STREAM_BYTES : Z := 67108864.
Definition DEFAULT_MAX_NESTING_DEPTH : Z := 64.
Definition DEFAULT_MAX_TEMPORARY_ALLOCATION : Z := 67108864.
Definition MIN_MAX_STREAM_BYTES : Z := 4.
Definition MIN_MAX_NESTING_DEPTH : Z := 1.
Definition BODY_ORIGIN : Z := 4.
Definition HEADER_LENGTH : Z := 4.
Definition REPRESENTATION_CDR_LE : Z := 1.
Definition REPRESENTATION_CDR_BE : Z := 0.

Inductive CdrEndian := Big | Little.

#[export] Instance CdrEndian_eq_dec : EqDecision CdrEndian.
Proof. solve_decision. Defined.

Definition is_little (e : CdrEndian) : bool :=
  match e with Little => true | Big => false end.

Definition endian_representation (e : CdrEndian) : Z :=
  match e with Little => REPRESENTATION_CDR_LE | Big => REPRESENTATION_CDR_BE end.

Record CdrLimits := {
  max_stream_bytes : Z;
  max_nesting_depth : Z;
  max_temporary_allocation : Z
}.

Definition limits_defaults : CdrLimits := {|
  max_stream_bytes := DEFAULT_MAX_STREAM_BYTES;
  max_nesting_depth := DEFAULT_MAX_NESTING_DEPTH;
  max_temporary_allocation := DEFAULT_MAX_TEMPORARY_ALLOCATION
|}.

Definition limits_validate (l : CdrLimits) : outcome CdrError.t unit :=
  if (max_stream_bytes l <? MIN_MAX_STREAM_BYTES)
     || (DEFAULT_MAX_STREAM_BYTES <? max_stream_bytes l) then
    Err (CdrError.invalid_limits (max_stream_bytes l) DEFAULT_MAX_STREAM_BYTES)
  else if (max_nesting_depth l <? MIN_MAX_NESTING_DEPTH)
     || (DEFAULT_MAX_NESTING_DEPTH <? max_nesting_depth l) then
    Err (CdrError.invalid_limits (max_nesting_depth l) DEFAULT_MAX_NESTING_DEPTH)
  else if max_stream_bytes l <? max_temporary_allocation l then
    Err (CdrError.invalid_limits (max_temporary_allocation l) (max_stream_bytes l))
  else Ok tt.

Definition limits_new (stream depth temp : Z) : outcome CdrError.t CdrLimits :=
  let limits := {| max_stream_bytes := stream; max_nesting_depth := depth;
                   max_temporary_allocation := temp |} in
  limits_validate limits ;;? Ok limits.

(** The limits a reader or writer can hold. *)
Definition limits_ok (l : CdrLimits) : Prop :=
  4 <= max_stream_bytes l <= 67108864 /\
  1 <= max_nesting_depth l <= 64 /\
  0 <= max_temporary_allocation l <= max_stream_bytes l.

(** ** Alignment and capacity *)

Section Sizes.
Context `{Target}.

Definition padding_for (offset align : Z) : Z :=
  if align <=? 1 then 0
  else
    let body_rel := usize_sub offset BODY_ORIGIN in
    let rem := body_rel mod align in
    if rem =? 0 then 0 else usize_sub align rem.

Definition writer_capacity (l : CdrLimits) : Z :=
  Z.min (max_stream_bytes l) (max_temporary_allocation l).

Definition checked_add_usize (a b : Z) : option Z := checked_add usize_max a b.

Definition type_bound_ceiling (bound : option Z) : option Z :=
  match bound with Some b => try_from usize_max b | None => None end.

End Sizes.

(** ** Lemmas *)

(** The smallest multiple-of-[align] step: what padding must be. *)
Definition pad_to (body_rel align : Z) : Z := (- body_rel) mod align.

Lemma limits_validate_ok l :
  0 <= max_temporary_allocation l -> limits_validate l = Ok tt -> limits_ok l.
Proof.
  unfold limits_validate, limits_ok, MIN_MAX_STREAM_BYTES, DEFAULT_MAX_STREAM_BYTES,
    MIN_MAX_NESTING_DEPTH, DEFAULT_MAX_NESTING_DEPTH.
  intros Ht Hl. repeat case_match; try done. lia.
Qed.

Lemma limits_ok_validate l : limits_ok l -> limits_validate l = Ok tt.
Proof.
  unfold limits_validate, limits_ok, MIN_MAX_STREAM_BYTES, DEFAULT_MAX_STREAM_BYTES,
    MIN_MAX_NESTING_DEPTH, DEFAULT_MAX_NESTING_DEPTH.
  intros Hl. zcmp. done.
Qed.

Lemma limits_defaults_ok : limits_ok limits_defaults.
Proof. unfold limits_ok. simpl. unfold DEFAULT_MAX_STREAM_BYTES, DEFAULT_MAX_NESTING_DEPTH,
  DEFAULT_MAX_TEMPORARY_ALLOCATION. lia. Qed.

Section Padding.
Context `{Target}.

Lemma padding_for_1 offset : padding_for offset 1 = 0.
Proof. done. Qed.

Lemma padding_for_spec offset align :
  4 <= offset <= u32_max -> 1 <= align <= 8 ->
  padding_for offset align = pad_to (offset - 4) align.
Proof.
  intros Ho Ha. unfold padding_for, pad_to, BODY_ORIGIN. pose proof usize_max_ge.
  destruct (Z.leb_spec align 1).
  { replace align with 1 by lia. by rewrite Z.mod_1_r. }
  rewrite usize_sub_small by (unfold u32_max in *; lia).
  pose proof (Z.mod_pos_bound (offset - 4) align).
  destruct (Z.eqb_spec ((offset - 4) mod align) 0) as [E | E].
  - by rewrite Z.mod_opp_l_z by lia.
  - rewrite usize_sub_small by (unfold u32_max in *; lia). by rewrite Z.mod_opp_l_nz by lia.
Qed.

Lemma padding_for_bound offset align :
  4 <= offset <= u32_max -> 1 <= align <= 8 -> 0 <= padding_for offset align < align.
Proof.
  intros. rewrite padding_for_spec by done. unfold pad_to. apply Z.mod_pos_bound. lia.
Qed.

(** Padding lands on the next aligned offset. *)
Lemma padding_for_aligned offset align :
  4 <= offset <= u32_max -> 1 <= align <= 8 ->
  (offset + padding_for offset align - 4) mod align = 0.
Proof.
  intros. rewrite padding_for_spec by done. unfold pad_to.
  replace (offset + - (offset - 4) mod align - 4)
    with ((offset - 4) + (- (offset - 4)) mod align) by lia.
  rewrite Z.add_mod_idemp_r, Z.add_opp_diag_r, Z.mod_0_l by lia. done.
Qed.

Lemma checked_add_usize_some a b :
  a + b <= u32_max -> checked_add_usize a b = Some (a + b).
Proof. intros. apply checked_add_some. pose proof usize_max_ge. lia. Qed.

Lemma try_from_usize_some v : 0 <= v <= u32_max -> try_from usize_max v = Some v.
Proof. intros. apply try_from_some. pose proof usize_max_ge. lia. Qed.

Lemma size_field_u64_small v : 0 <= v <= u32_max -> CdrError.size_field_u64 v = v.
Proof. intros. unfold CdrError.size_field_u64. by rewrite try_from_usize_some. Qed.

End Padding.
