(* ===== verification/CdrReader.v ===== *)
(** * The bounded CDR1 reader

    [rclweb/src/cdr/reader.rs].  A reader is the borrowed input, the absolute
    cursor, the limits and the captured header; a method is a state
    transformer over it.  Every field read checks alignment, bounds and value
    before it moves the cursor, and puts the cursor back on a fault. *)

From S2P Require Import Prelude Utf8 CdrCore.

Record CdrHeader := {
  representation : Z;
  options : Z;
  header_endian : CdrEndian
}.

(** The depth token [CdrNesting] is its depth. *)
Definition CdrNesting : Type := Z.
Definition nesting_root : CdrNesting := 0.

Record CdrReader := mk_reader {
  bytes_of : bytes;
  offset : Z;
  limits : CdrLimits;
  header : CdrHeader
}.

Definition set_offset (o : Z) (r : CdrReader) : CdrReader :=
  mk_reader (bytes_of r) o (limits r) (header r).

Definition is_accepted_wstring_scalar (slot : Z) : bool :=
  (slot <=? 0xD7FF) || ((0xE000 <=? slot) && (slot <=? 0x10FFFF)).

Section Reader.
Context `{Target}.

Abbreviation R := (SM CdrReader CdrError.t).

Definition open (bs : bytes) (l : CdrLimits) : outcome CdrError.t CdrReader :=
  limits_validate l ;;?
  let len := blen bs in
  if max_stream_bytes l <? len then
    Err (CdrError.bounds_exceeded 0 len (max_stream_bytes l))
  else if len <? HEADER_LENGTH then
    Err (CdrError.invalid_encapsulation 0 HEADER_LENGTH len)
  else
    b0 <-- index bs 0 ;; b1 <-- index bs 1 ;;
    b2 <-- index bs 2 ;; b3 <-- index bs 3 ;;
    let repr := of_be [b0; b1] in
    let opts := of_be [b2; b3] in
    let mk e := Ok (mk_reader bs BODY_ORIGIN l
                      {| representation := repr; options := opts; header_endian := e |}) in
    if repr =? REPRESENTATION_CDR_LE then mk Little
    else if repr =? REPRESENTATION_CDR_BE then mk Big
    else Err (CdrError.unsupported_representation 0 len).

Definition open_default (bs : bytes) : outcome CdrError.t CdrReader :=
  open bs limits_defaults.

Definition remaining (r : CdrReader) : Z := usize_sub (blen (bytes_of r)) (offset r).

Definition little_endian (r : CdrReader) : bool := is_little (header_endian (header r)).

(** The stream's byte order applied to a span. *)
Definition of_stream (r : CdrReader) (bs : bytes) : Z :=
  if little_endian r then of_le bs else of_be bs.

Definition enter_nested (parent : CdrNesting) : R CdrNesting := fun r =>
  let next := usize_add parent 1 in
  let max_d := max_nesting_depth (limits r) in
  if max_d <? next then (Err (CdrError.bounds_exceeded (offset r) next max_d), r)
  else (Ok next, r).

Definition preflight (field_start align size : Z) : R Z := fun r =>
  let pad := padding_for field_start align in
  let rem := usize_sub (blen (bytes_of r)) field_start in
  let fault e := (Err e, set_offset field_start r) in
  match checked_add_usize pad size with
  | None => fault (CdrError.length_overflow field_start 0 rem)
  | Some needed =>
      if (0 <? pad) && (rem <? pad) then fault (CdrError.alignment_overflow field_start pad rem)
      else if rem <? needed then fault (CdrError.truncated field_start needed rem)
      else (Ok pad, r)
  end.

Definition align_to (align size : Z) : R unit :=
  field_start <~ gets offset ;;
  pad <~ preflight field_start align size ;;
  modify (set_offset (usize_add field_start pad)).

Definition read_u32_at (pos : Z) : R Z := fun r =>
  (b <-- slice (bytes_of r) pos (usize_add pos 4) ;; Ok (of_stream r b), r).

(** A fixed-width field: align, take the span in stream order, advance. *)
Definition read_span (n : Z) : R Z :=
  align_to n n ;;~
  r <~ gets id ;;
  b <~ lift (slice (bytes_of r) (offset r) (usize_add (offset r) n)) ;;
  let value := of_stream r b in
  modify (fun r => set_offset (usize_add (offset r) n) r) ;;~
  ret value.

Definition read_u8 : R Z :=
  align_to 1 1 ;;~
  r <~ gets id ;;
  b <~ lift (index (bytes_of r) (offset r)) ;;
  modify (fun r => set_offset (usize_add (offset r) 1) r) ;;~
  ret b.

Definition read_u16 : R Z := read_span 2.

Definition read_u32 : R Z :=
  align_to 4 4 ;;~
  pos <~ gets offset ;;
  value <~ read_u32_at pos ;;
  modify (fun r => set_offset (usize_add (offset r) 4) r) ;;~
  ret value.

Definition read_u64 : R Z := read_span 8.

Definition read_bool : R bool :=
  r <~ gets id ;;
  let field_start := offset r in
  let rem := remaining r in
  b <~ read_u8 ;;
  if b =? 0 then ret false
  else if b =? 1 then ret true
  else
    modify (set_offset field_start) ;;~
    throw (CdrError.invalid_boolean field_start rem).

Definition read_i8 : R Z := v <~ read_u8 ;; ret (as_signed 8 v).
Definition read_i16 : R Z := v <~ read_u16 ;; ret (as_signed 16 v).
Definition read_i32 : R Z := v <~ read_u32 ;; ret (as_signed 32 v).
Definition read_i64 : R Z := v <~ read_u64 ;; ret (as_signed 64 v).

(** Floats are their bit patterns ([from_bits]). *)
Definition read_f32 : R Z := read_u32.
Definition read_f64 : R Z := read_u64.
Definition read_char8 : R Z := read_u8.
Definition read_char16 : R Z := read_u16.

Definition read_bytes (n : Z) : R bytes := fun r =>
  let field_start := offset r in
  match align_to 1 n r with
  | (Err e, r') => (Err e, set_offset field_start r')
  | (Panic, r') => (Panic, r')
  | (Ok _, r') =>
      let start := offset r' in
      let e := usize_add start n in
      (slice (bytes_of r') start e, set_offset e r')
  end.

Definition multiply_length (count element_size field_start rem : Z) : outcome CdrError.t Z :=
  if element_size =? 0 then Ok 0
  else
    match checked_mul u64_max count element_size with
    | None => Err (CdrError.length_overflow field_start 0 rem)
    | Some bytes_u => ok_or (try_from usize_max bytes_u)
                        (CdrError.length_overflow field_start 0 rem)
    end.

Definition checked_span_length (r : CdrReader) (count element_size : Z)
    : outcome CdrError.t Z :=
  let field_start := offset r in
  let rem := remaining r in
  let max_stream := max_stream_bytes (limits r) in
  n <-- multiply_length count element_size field_start rem ;;
  if max_stream <? n then Err (CdrError.length_overflow field_start n max_stream)
  else if rem <? n then Err (CdrError.truncated field_start n rem)
  else Ok n.

Definition checked_alloc_length (r : CdrReader) (count element_size : Z)
    : outcome CdrError.t Z :=
  let field_start := offset r in
  let rem := remaining r in
  let capacity := max_temporary_allocation (limits r) in
  n <-- multiply_length count element_size field_start rem ;;
  if capacity <? n then Err (CdrError.bounds_exceeded field_start n capacity)
  else Ok n.

Definition ensure_complete (r : CdrReader) : outcome CdrError.t unit :=
  let rem := remaining r in
  if 0 <? rem then Err (CdrError.trailing_data (offset r) rem) else Ok tt.

Definition ensure_complete_with_zero_tail (expected_tail_bytes : Z) : R unit := fun r =>
  let cursor := offset r in
  let rem := remaining r in
  let max_stream := max_stream_bytes (limits r) in
  if max_stream <? expected_tail_bytes then
    (Err (CdrError.bounds_exceeded cursor expected_tail_bytes max_stream), r)
  else if rem =? 0 then (Ok tt, r)
  else if negb (rem =? expected_tail_bytes) then
    (Err (CdrError.trailing_data cursor rem), r)
  else
    match slice (bytes_of r) cursor (usize_add cursor rem) with
    | Panic => (Panic, r)
    | Err e => (Err e, r)
    | Ok span =>
        if existsb (fun b => negb (b =? 0)) span then
          (Err (CdrError.trailing_data cursor rem), r)
        else (Ok tt, set_offset (usize_add cursor rem) r)
    end.

(** [self.offset = field_start; return Err(e)]. *)
Definition fault_at {A} (field_start : Z) (e : CdrError.t) : R A :=
  modify (set_offset field_start) ;;~ throw e.

(** The type-bound check [if let Some(bound) = max && v > bound]. *)
Definition check_bound (field_start v : Z) (bound : option Z) : R unit :=
  match bound with
  | Some bound =>
      if bound <? v then
        fault_at field_start
          (CdrError.bounds_exceeded field_start (CdrError.size_field_u64 v)
             (CdrError.size_field_u64 bound))
      else ret tt
  | None => ret tt
  end.

(** [let Some(x) = o else { fault }]. *)
Definition or_fault {A} (field_start : Z) (o : option A) (e : CdrError.t) : R A :=
  match o with Some a => ret a | None => fault_at field_start e end.

Definition fault_if (c : bool) (field_start : Z) (e : CdrError.t) : R unit :=
  if c then fault_at field_start e else ret tt.

Definition read_string (max_bytes : option Z) : R bytes :=
  r <~ gets id ;;
  let field_start := offset r in
  let rem_at_start := remaining r in
  let max_stream := max_stream_bytes (limits r) in
  let overflow := CdrError.length_overflow field_start 0 rem_at_start in
  pad <~ preflight field_start 4 4 ;;
  let len_pos := usize_add field_start pad in
  len_u <~ read_u32_at len_pos ;;
  fault_if (len_u =? 0) field_start
    (CdrError.missing_string_terminator field_start 1 rem_at_start) ;;~
  let payload_u := len_u - 1 in
  check_bound field_start payload_u max_bytes ;;~
  len_i <~ or_fault field_start (try_from usize_max len_u) overflow ;;
  let payload_i := usize_sub len_i 1 in
  fault_if (max_stream <? len_i) field_start
    (CdrError.length_overflow field_start len_i max_stream) ;;~
  header_and_pad <~ or_fault field_start (checked_add_usize pad 4) overflow ;;
  total_needed <~ or_fault field_start (checked_add_usize header_and_pad len_i) overflow ;;
  fault_if (rem_at_start <? total_needed) field_start
    (CdrError.truncated field_start total_needed rem_at_start) ;;~
  worst_u <~ or_fault field_start (checked_mul u64_max payload_u 2) overflow ;;
  worst_i <~ or_fault field_start (try_from usize_max worst_u) overflow ;;
  let temp_cap := max_temporary_allocation (limits r) in
  fault_if (temp_cap <? worst_i) field_start
    (CdrError.bounds_exceeded field_start worst_i temp_cap) ;;~
  let data_start := usize_add len_pos 4 in
  let data_end := usize_add data_start len_i in
  span <~ lift (slice (bytes_of r) data_start data_end) ;;
  last <~ lift (index span (usize_sub len_i 1)) ;;
  fault_if (negb (last =? 0)) field_start
    (CdrError.missing_string_terminator field_start len_i rem_at_start) ;;~
  payload <~ lift (slice span 0 payload_i) ;;
  if utf8_valid payload then
    modify (set_offset data_end) ;;~ ret payload
  else fault_at field_start (CdrError.invalid_utf8 field_start len_i rem_at_start).

(** The slot loop of [read_wstring]; [out] is the string built so far. *)
Fixpoint read_slots (n : nat) (k data_start field_start rem_at_start : Z) (out : bytes)
    : R bytes :=
  match n with
  | O => ret out
  | S n' =>
      slot <~ read_u32_at (usize_add data_start (usize_mul k 4)) ;;
      fault_if (negb (is_accepted_wstring_scalar slot)) field_start
        (CdrError.invalid_wstring_scalar field_start rem_at_start) ;;~
      c <~ lift (if is_scalar slot then Ok slot else Panic) ;;
      read_slots n' (k + 1) data_start field_start rem_at_start (out ++ utf8_char c)
  end.

Definition read_wstring (max_scalars : option Z) : R bytes :=
  r <~ gets id ;;
  let field_start := offset r in
  let rem_at_start := remaining r in
  let max_stream := max_stream_bytes (limits r) in
  let overflow := CdrError.length_overflow field_start 0 rem_at_start in
  pad <~ preflight field_start 4 4 ;;
  let count_pos := usize_add field_start pad in
  count_u <~ read_u32_at count_pos ;;
  check_bound field_start count_u max_scalars ;;~
  count_i <~ or_fault field_start (try_from usize_max count_u) overflow ;;
  payload_u64 <~ or_fault field_start (checked_mul u64_max count_u 4) overflow ;;
  payload_i <~ or_fault field_start (try_from usize_max payload_u64) overflow ;;
  fault_if (max_stream <? payload_i) field_start
    (CdrError.length_overflow field_start payload_i max_stream) ;;~
  header_and_pad <~ or_fault field_start (checked_add_usize pad 4) overflow ;;
  total_needed <~ or_fault field_start (checked_add_usize header_and_pad payload_i) overflow ;;
  fault_if (rem_at_start <? total_needed) field_start
    (CdrError.truncated field_start total_needed rem_at_start) ;;~
  let temp_cap := max_temporary_allocation (limits r) in
  fault_if (temp_cap <? payload_i) field_start
    (CdrError.bounds_exceeded field_start payload_i temp_cap) ;;~
  let data_start := usize_add count_pos 4 in
  out <~ read_slots (Z.to_nat count_i) 0 data_start field_start rem_at_start [] ;;
  modify (set_offset (usize_add data_start payload_i)) ;;~
  ret out.

(** The absolute element ceiling shared by the two sequence readers:
    [u32::try_from(max_stream).unwrap_or(u32::MAX)]. *)
Definition max_stream_u (r : CdrReader) : Z :=
  match try_from u32_max (max_stream_bytes (limits r)) with
  | Some m => m
  | None => u32_max
  end.

Definition read_sequence_length (max_elements : option Z) : R Z :=
  r <~ gets id ;;
  let field_start := offset r in
  let max_stream := max_stream_bytes (limits r) in
  pad <~ preflight field_start 4 4 ;;
  let count_pos := usize_add field_start pad in
  count_u <~ read_u32_at count_pos ;;
  check_bound field_start count_u max_elements ;;~
  fault_if (max_stream_u r <? count_u) field_start
    (CdrError.bounds_exceeded field_start (CdrError.size_field_u64 count_u) max_stream) ;;~
  modify (set_offset (usize_add count_pos 4)) ;;~
  ret count_u.

Definition read_byte_sequence (max_elements : option Z) : R bytes :=
  r <~ gets id ;;
  let field_start := offset r in
  let rem_at_start := remaining r in
  let max_stream := max_stream_bytes (limits r) in
  let overflow := CdrError.length_overflow field_start 0 rem_at_start in
  pad <~ preflight field_start 4 4 ;;
  let count_pos := usize_add field_start pad in
  count_u <~ read_u32_at count_pos ;;
  check_bound field_start count_u max_elements ;;~
  fault_if (max_stream_u r <? count_u) field_start
    (CdrError.bounds_exceeded field_start (CdrError.size_field_u64 count_u) max_stream) ;;~
  let count_i := count_u in
  header_and_pad <~ or_fault field_start (checked_add_usize pad 4) overflow ;;
  total_needed <~ or_fault field_start (checked_add_usize header_and_pad count_i) overflow ;;
  fault_if (rem_at_start <? total_needed) field_start
    (CdrError.truncated field_start total_needed rem_at_start) ;;~
  let data_start := usize_add count_pos 4 in
  let data_end := usize_add data_start count_i in
  modify (set_offset data_end) ;;~
  lift (slice (bytes_of r) data_start data_end).

End Reader.

(** ** Correctness

    A reader is well formed when its limits are validated and its cursor is in
    the body of a stream that fits them; [open] establishes it. *)

Section Correct.
Context `{Target}.
Implicit Types r : CdrReader.

Definition reader_wf (r : CdrReader) : Prop :=
  limits_ok (limits r) /\ bytes_ok (bytes_of r) /\
  4 <= offset r <= blen (bytes_of r) /\
  blen (bytes_of r) <= max_stream_bytes (limits r).

(** What a field reader promises: it succeeds exactly when some value [P]
    describes is in the stream, moving the cursor and nothing else; otherwise it
    reports a fault at the field start and leaves the reader as it was. *)
Definition field_spec {A} (m : SM CdrReader CdrError.t A) (r : CdrReader)
    (P : A -> Z -> Prop) : Prop :=
  wp m
    (fun a r' => P a (offset r') /\ r' = set_offset (offset r') r)
    (fun e r' => r' = r /\ CdrError.offset e = offset r /\ forall a o, ~ P a o)
    r.

(** Where an [n]-byte field of alignment [align] begins. *)
Definition field_start_of (r : CdrReader) (align : Z) : Z :=
  offset r + padding_for (offset r) align.

(** The span of an aligned [n]-byte field ending at [o]. *)
Definition span_at (r : CdrReader) (align n : Z) (s : bytes) (o : Z) : Prop :=
  s = sub_list (bytes_of r) (field_start_of r align) n /\
  o = field_start_of r align + n /\ o <= blen (bytes_of r).

Definition uint_at (r : CdrReader) (n : Z) (v o : Z) : Prop :=
  exists s, span_at r n n s o /\ v = of_stream r s.

Lemma set_offset_same r : set_offset (offset r) r = r.
Proof. by destruct r. Qed.

Lemma set_offset_twice r a b : set_offset a (set_offset b r) = set_offset a r.
Proof. done. Qed.

Lemma reader_wf_small r :
  reader_wf r -> 4 <= offset r <= blen (bytes_of r) /\ blen (bytes_of r) <= 67108864.
Proof. unfold reader_wf, limits_ok. lia. Qed.

Lemma reader_wf_stream r :
  reader_wf r ->
  blen (bytes_of r) <= max_stream_bytes (limits r) <= 67108864 /\
  0 <= max_temporary_allocation (limits r) <= 67108864.
Proof. unfold reader_wf, limits_ok. lia. Qed.

Lemma remaining_wf r : reader_wf r -> remaining r = blen (bytes_of r) - offset r.
Proof.
  intros Hr%reader_wf_small. unfold remaining. apply usize_sub_small.
  pose proof usize_max_ge. unfold u32_max in *. lia.
Qed.

Lemma padding_wf r align :
  reader_wf r -> 1 <= align <= 8 -> 0 <= padding_for (offset r) align < align.
Proof. intros Hr%reader_wf_small ?. apply padding_for_bound; unfold u32_max; lia. Qed.

Lemma reader_wf_advance r o :
  reader_wf r -> offset r <= o <= blen (bytes_of r) -> reader_wf (set_offset o r).
Proof. unfold reader_wf. simpl. intuition lia. Qed.

Lemma wp_fault_at {A} fs e (Q : A -> CdrReader -> Prop) (X : CdrError.t -> CdrReader -> Prop) r :
  X e (set_offset fs r) -> wp (fault_at fs e) Q X r.
Proof. done. Qed.

Lemma wp_fault_if c fs e (Q : unit -> CdrReader -> Prop) (X : CdrError.t -> CdrReader -> Prop) r :
  (c = true -> X e (set_offset fs r)) -> (c = false -> Q tt r) ->
  wp (fault_if c fs e) Q X r.
Proof. unfold fault_if. destruct c; intros H1 H2; [by apply H1 | by apply H2]. Qed.

Lemma wp_or_fault_some {A} fs (o : option A) a e Q X r :
  o = Some a -> Q a r -> wp (or_fault fs o e) Q X r.
Proof. intros ->. done. Qed.

(** The type bound of a field is met. *)
Definition bound_ok (bound : option Z) (v : Z) : Prop :=
  match bound with Some b => v <= b | None => True end.

Lemma wp_check_bound fs v b Q (X : CdrError.t -> CdrReader -> Prop) r :
  (forall e, CdrError.offset e = fs -> CdrError.code e = CdrError.BoundsExceeded ->
     ~ bound_ok b v -> X e (set_offset fs r)) ->
  (bound_ok b v -> Q tt r) ->
  wp (check_bound fs v b) Q X r.
Proof.
  unfold check_bound. destruct b as [b |]; simpl; intros H1 H2; [| by apply H2].
  destruct (Z.ltb_spec b v); [apply H1; [done | done | lia] | apply H2; lia].
Qed.

(** [preflight] at the cursor, on both targets: exact faults, nothing moved. *)
Lemma preflight_wf r align size :
  reader_wf r -> 1 <= align <= 8 -> 0 <= size <= 67108864 ->
  let pad := padding_for (offset r) align in
  let rem := blen (bytes_of r) - offset r in
  preflight (offset r) align size r =
    (if rem <? pad then Err (CdrError.alignment_overflow (offset r) pad rem)
     else if rem <? pad + size then Err (CdrError.truncated (offset r) (pad + size) rem)
     else Ok pad, r).
Proof.
  intros Hr Ha Hs pad rem. pose proof (padding_wf r align Hr Ha) as Hp.
  pose proof (remaining_wf r Hr) as Hrem. unfold remaining in Hrem.
  apply reader_wf_small in Hr. unfold preflight. rewrite Hrem.
  rewrite checked_add_usize_some by (unfold u32_max; lia). fold pad rem.
  rewrite set_offset_same.
  destruct (Z.ltb_spec rem pad).
  - zcmp. done.
  - rewrite andb_false_r. by destruct (Z.ltb_spec rem (pad + size)).
Qed.

Lemma wp_preflight r align size (Q : Z -> CdrReader -> Prop) (X : CdrError.t -> CdrReader -> Prop) :
  reader_wf r -> 1 <= align <= 8 -> 0 <= size <= 67108864 ->
  (forall e, CdrError.offset e = offset r ->
     blen (bytes_of r) < field_start_of r align + size -> X e r) ->
  (field_start_of r align + size <= blen (bytes_of r) -> Q (padding_for (offset r) align) r) ->
  wp (preflight (offset r) align size) Q X r.
Proof.
  intros Hr Ha Hs HX HQ. unfold wp. rewrite preflight_wf by done.
  unfold field_start_of in *.
  repeat zcase; [apply HX; [done | lia] .. | apply HQ; lia].
Qed.

Lemma wp_align_to r align size (Q : unit -> CdrReader -> Prop) (X : CdrError.t -> CdrReader -> Prop) :
  reader_wf r -> 1 <= align <= 8 -> 0 <= size <= 67108864 ->
  (forall e, CdrError.offset e = offset r ->
     blen (bytes_of r) < field_start_of r align + size -> X e r) ->
  (field_start_of r align + size <= blen (bytes_of r) ->
     Q tt (set_offset (field_start_of r align) r)) ->
  wp (align_to align size) Q X r.
Proof.
  intros Hr Ha Hs HX HQ. unfold align_to. do 2 wp_step. wp_step.
  apply wp_preflight; [done.. |]. intros Hle. wp_step.
  pose proof (padding_wf r align Hr Ha). apply reader_wf_small in Hr.
  rewrite usize_add_small; [by apply HQ |]. pose proof usize_max_ge. unfold u32_max in *. lia.
Qed.

Lemma wp_read_u32_at r pos (Q : Z -> CdrReader -> Prop) (X : CdrError.t -> CdrReader -> Prop) :
  0 <= pos -> pos + 4 <= blen (bytes_of r) -> blen (bytes_of r) <= 67108864 ->
  Q (of_stream r (sub_list (bytes_of r) pos 4)) r ->
  wp (read_u32_at pos) Q X r.
Proof.
  intros Hp Hle Hb HQ. unfold wp, read_u32_at. pose proof usize_max_ge. unfold u32_max in *.
  rewrite usize_add_small by lia. rewrite slice_ok by lia. simpl.
  by replace (pos + 4 - pos) with 4 by lia.
Qed.

Lemma field_spec_iff {A} (m : SM CdrReader CdrError.t A) r (P P' : A -> Z -> Prop) :
  (forall a o, P a o <-> P' a o) -> field_spec m r P -> field_spec m r P'.
Proof.
  intros HP Hm. eapply wp_mono; [exact Hm | |]; simpl.
  - intros a r' [H1 H2]. split; [by apply HP | done].
  - intros e r' (H1 & H2 & H3). split_and!; [done.. |]. intros a o Ha. by apply (H3 a o), HP.
Qed.

(** Post-processing a field's value ([as i32], [from_bits], ...). *)
Lemma field_spec_map {A B} (f : A -> B) (m : SM CdrReader CdrError.t A) r P :
  field_spec m r P ->
  field_spec (a <~ m ;; ret (f a)) r (fun b o => exists a, P a o /\ b = f a).
Proof.
  intros Hm. apply wp_bind. eapply wp_mono; [exact Hm | |]; simpl.
  - intros a r' [H1 H2]. apply wp_ret. eauto.
  - intros e r' (H1 & H2 & H3). split_and!; [done.. |].
    intros b o (a & Ha & _). by apply (H3 a o).
Qed.

Lemma read_span_spec r n :
  reader_wf r -> 1 <= n <= 8 -> field_spec (read_span n) r (uint_at r n).
Proof.
  intros Hr Hn. unfold field_spec, read_span. pose proof (padding_wf r n Hr Hn).
  pose proof (reader_wf_small r Hr). pose proof usize_max_ge. unfold u32_max in *.
  wp_step. apply wp_align_to; [done | lia | lia | |]; unfold field_start_of in *.
  - intros e He Hlt. split_and!; [done.. |].
    intros a o (s & (_ & Ho & Hle) & _). unfold field_start_of in *. lia.
  - intros Hle. do 3 wp_step. eapply wp_lift_ok; simpl.
    { rewrite usize_add_small by lia. apply slice_ok; lia. }
    do 3 wp_step. simpl. rewrite usize_add_small by lia. split; [| done].
    eexists. split; [split_and!; [done.. |] |]; unfold field_start_of; [lia |].
    f_equal. f_equal. lia.
Qed.

Lemma read_u8_spec r : reader_wf r -> field_spec read_u8 r (uint_at r 1).
Proof.
  intros Hr. unfold field_spec, read_u8.
  pose proof (reader_wf_small r Hr). pose proof usize_max_ge. unfold u32_max in *.
  wp_step. apply wp_align_to; [done | lia | lia | |].
  - intros e He Hlt. split_and!; [done.. |].
    intros a o (s & (_ & Ho & Hle) & _). lia.
  - unfold field_start_of. rewrite padding_for_1, Z.add_0_r. intros Hle.
    do 3 wp_step. eapply wp_lift_ok; simpl.
    { apply (index_ok _ _ 0). lia. }
    do 3 wp_step. simpl. rewrite usize_add_small by lia. split; [| done].
    exists [nth (Z.to_nat (offset r)) (bytes_of r) 0].
    unfold span_at, field_start_of. rewrite padding_for_1, Z.add_0_r. split_and!; [| done | lia |].
    + unfold sub_list. destruct (lookup_lt_is_Some_2 (bytes_of r) (Z.to_nat (offset r))) as [x Hx].
      { unfold blen in *. lia. }
      rewrite (nth_lookup_Some _ _ _ _ Hx), (drop_S _ _ _ Hx). done.
    + unfold of_stream, of_be. cbn. case_match; lia.
Qed.

Lemma read_u16_spec r : reader_wf r -> field_spec read_u16 r (uint_at r 2).
Proof. intros. apply read_span_spec; [done | lia]. Qed.

Lemma read_u64_spec r : reader_wf r -> field_spec read_u64 r (uint_at r 8).
Proof. intros. apply read_span_spec; [done | lia]. Qed.

Lemma read_u32_spec r : reader_wf r -> field_spec read_u32 r (uint_at r 4).
Proof.
  intros Hr. unfold field_spec, read_u32. pose proof (padding_wf r 4 Hr ltac:(lia)).
  pose proof (reader_wf_small r Hr). pose proof usize_max_ge. unfold u32_max in *.
  wp_step. apply wp_align_to; [done | lia | lia | |].
  - intros e He Hlt. split_and!; [done.. |].
    intros a o (s & (_ & Ho & Hle) & _). lia.
  - intros Hle. unfold field_start_of in *. do 3 wp_step.
    apply wp_read_u32_at; simpl; [lia.. |].
    do 3 wp_step. simpl. rewrite usize_add_small by lia. split; [| done].
    eexists. by split; [split_and!; [done.. | unfold field_start_of; lia] |].
Qed.

(** The prefix the strings and sequences share: an aligned [u32] length. *)
Lemma wp_length_prefix {B} (k : Z -> Z -> SM CdrReader CdrError.t B) r Q (X : CdrError.t -> CdrReader -> Prop) :
  reader_wf r ->
  (forall e, CdrError.offset e = offset r -> (forall v o, ~ uint_at r 4 v o) -> X e r) ->
  (forall v, uint_at r 4 v (field_start_of r 4 + 4) ->
     field_start_of r 4 + 4 <= blen (bytes_of r) ->
     0 <= v <= u32_max ->
     wp (k (padding_for (offset r) 4) v) Q X r) ->
  wp (pad <~ preflight (offset r) 4 4 ;;
      v <~ read_u32_at (usize_add (offset r) pad) ;; k pad v) Q X r.
Proof.
  intros Hr HX HQ. pose proof (padding_wf r 4 Hr ltac:(lia)).
  pose proof (reader_wf_small r Hr). pose proof usize_max_ge.
  wp_step. apply wp_preflight; [done | lia | lia | |].
  - intros e He Hlt. apply HX; [done |]. intros v o (s & (_ & Ho & Hle) & _). lia.
  - intros Hle. wp_step. unfold field_start_of, u32_max in *.
    rewrite usize_add_small by lia. apply wp_read_u32_at; [lia.. |].
    apply HQ; [| lia |].
    + eexists. split; [split_and!; [done.. | unfold field_start_of; lia] | done].
    + destruct Hr as (_ & Hb & _).
      set (s := sub_list _ _ _).
      assert (Hs : bytes_ok s) by by apply bytes_ok_sub_list.
      assert (Hl : blen s = 4) by (apply blen_sub_list; lia).
      pose proof (of_le_bound s Hs). pose proof (of_be_bound s Hs). rewrite Hl in *.
      unfold of_stream. case_match; lia.
Qed.

Lemma uint_at_fun r n v v' o o' : uint_at r n v o -> uint_at r n v' o' -> v = v' /\ o = o'.
Proof. intros (s & (-> & -> & _) & ->) (s' & (-> & -> & _) & ->). done. Qed.

Lemma uint_at_end r n v o : uint_at r n v o -> o = field_start_of r n + n.
Proof. intros (s & (_ & -> & _) & _). done. Qed.

(** The wire shapes of the variable-length fields. *)
Definition string_at (r : CdrReader) (mb : option Z) (s : bytes) (o : Z) : Prop :=
  exists len o1, uint_at r 4 len o1 /\ 1 <= len /\ bound_ok mb (len - 1) /\
    2 * (len - 1) <= max_temporary_allocation (limits r) /\
    o = o1 + len /\ o <= blen (bytes_of r) /\
    sub_list (bytes_of r) o1 len = s ++ [0] /\ utf8_valid s = true.

Definition slots_at (r : CdrReader) (o : Z) (n : Z) : list Z :=
  map (fun k => of_stream r (sub_list (bytes_of r) (o + 4 * k) 4)) (seqZ 0 n).

Definition wstring_at (r : CdrReader) (mb : option Z) (s : bytes) (o : Z) : Prop :=
  exists n o1, uint_at r 4 n o1 /\ bound_ok mb n /\
    4 * n <= max_temporary_allocation (limits r) /\
    o = o1 + 4 * n /\ o <= blen (bytes_of r) /\
    Forall (fun c => is_scalar c = true) (slots_at r o1 n) /\
    s = utf8_encode (slots_at r o1 n).

Definition sequence_length_at (r : CdrReader) (mb : option Z) (n o : Z) : Prop :=
  uint_at r 4 n o /\ bound_ok mb n /\ n <= max_stream_bytes (limits r).

Definition byte_sequence_at (r : CdrReader) (mb : option Z) (s : bytes) (o : Z) : Prop :=
  exists n o1, uint_at r 4 n o1 /\ bound_ok mb n /\ o = o1 + n /\
    o <= blen (bytes_of r) /\ s = sub_list (bytes_of r) o1 n.

(** Close the fault branches of a field: the reader is unchanged and the wire
    shape is contradicted by the condition that raised the fault. *)
Ltac field_fault Hv :=
  simpl; rewrite ?set_offset_same; split_and!; [done | by simpl |];
  let a := fresh "a" in let o := fresh "o" in
  intros a o (len' & o1' & Hv' & Hrest);
  destruct (uint_at_fun _ _ _ _ _ _ Hv Hv') as [<- <-];
  unfold bound_ok in *; intuition lia.

Lemma read_bool_spec r :
  reader_wf r ->
  field_spec read_bool r (fun b o => exists v, uint_at r 1 v o /\
                                     (v = 0 /\ b = false \/ v = 1 /\ b = true)).
Proof.
  intros Hr. unfold field_spec, read_bool. do 3 wp_step.
  eapply wp_mono; [apply read_u8_spec; done | |]; simpl.
  - intros v r' [Hv Hr'].
    destruct (Z.eqb_spec v 0) as [-> |].
    { apply wp_ret. split; [| done]. eauto. }
    destruct (Z.eqb_spec v 1) as [-> |].
    { apply wp_ret. split; [| done]. eauto. }
    do 2 wp_step. apply wp_throw. rewrite Hr', set_offset_twice, set_offset_same.
    split_and!; [done | done |]. intros a o (v' & Hv' & Hd).
    destruct (uint_at_fun _ _ _ _ _ _ Hv Hv'). intuition lia.
  - intros e r' (-> & He & Hno). split_and!; [done.. |].
    intros a o (v & Hv & _). by apply (Hno v o).
Qed.

Lemma sub_list_snoc (l : bytes) i n x k :
  0 <= i -> 1 <= n -> i + n <= blen l -> sub_list l i n = k ++ [x] ->
  index (E := CdrError.t) (sub_list l i n) (n - 1) = Ok x /\
  sub_list (sub_list l i n) 0 (n - 1) = k.
Proof.
  intros ??? E. rewrite E. assert (blen k = n - 1) as Hk.
  { pose proof (blen_sub_list l i n) as Hl. rewrite E, blen_app in Hl.
    change (blen [x]) with 1 in Hl. lia. }
  split; [by apply index_app_mid |]. rewrite <- Hk. apply sub_list_head.
Qed.

Lemma sub_list_last (l : bytes) i n :
  0 <= i -> 1 <= n -> i + n <= blen l ->
  exists k x, sub_list l i n = k ++ [x].
Proof.
  intros. pose proof (blen_sub_list l i n ltac:(lia) ltac:(lia) ltac:(lia)) as Hl.
  destruct (sub_list l i n) as [|x k _] using rev_ind; [rewrite blen_nil in Hl; lia | eauto].
Qed.

Lemma read_string_spec r mb :
  reader_wf r -> field_spec (read_string mb) r (string_at r mb).
Proof.
  intros Hr. unfold field_spec, read_string. pose proof (padding_wf r 4 Hr ltac:(lia)) as Hp.
  pose proof (reader_wf_small r Hr) as Hs. pose proof usize_max_ge as Hu. unfold u32_max in Hu.
  do 2 wp_step. cbv zeta. change (id r) with r. rewrite (remaining_wf r Hr).
  pose proof (reader_wf_stream r Hr) as Hm.
  apply wp_length_prefix; [done | |].
  { intros e He Hno. split_and!; [done.. |]. intros a o (v & o1 & Hv & _). by apply (Hno v o1). }
  intros v Hv Hle Hb. unfold u32_max in Hb. unfold field_start_of in *.
  wp_step. apply wp_fault_if; intros C1; [field_fault Hv |].
  wp_step. apply wp_check_bound; [intros e He _ C2; field_fault Hv | intros C2].
  wp_step. eapply wp_or_fault_some; [apply try_from_some; lia |]. wp_step. apply wp_fault_if; intros C3; [field_fault Hv |].
  wp_step. eapply wp_or_fault_some; [apply checked_add_usize_some; unfold u32_max; lia |].
  wp_step. eapply wp_or_fault_some; [apply checked_add_usize_some; unfold u32_max; lia |].
  wp_step. apply wp_fault_if; intros C4; [field_fault Hv |].
  wp_step. eapply wp_or_fault_some; [apply checked_mul_some; unfold u64_max; lia |].
  wp_step. eapply wp_or_fault_some; [apply try_from_some; lia |]. wp_step. apply wp_fault_if; intros C5; [field_fault Hv |].
  wp_step. usz.
  remember (offset r + padding_for (offset r) 4 + 4) as o1 eqn:Ho1.
  eapply wp_lift_ok; [apply slice_ok; lia |]. replace (o1 + v - o1) with v by lia.
  destruct (sub_list_last (bytes_of r) o1 v) as (k & x & E); [lia.. |].
  destruct (sub_list_snoc (bytes_of r) o1 v x k) as [Hx Hk]; [lia.. | exact E |].
  wp_step. eapply wp_lift_ok; [exact Hx |].
  assert (forall a o, string_at r mb a o -> a = k /\ x = 0 /\ utf8_valid a = true) as Hwire.
  { intros a o (len' & o1' & Hv' & _ & _ & _ & _ & _ & Ek & Hu8).
    destruct (uint_at_fun _ _ _ _ _ _ Hv Hv') as [<- <-]. rewrite E in Ek.
    apply app_inj_tail in Ek as [-> ->]. done. }
  wp_step. apply wp_fault_if; intros C6.
  { simpl. rewrite set_offset_same. split_and!; [done.. |].
    intros a o (_ & -> & _)%Hwire. done. }
  wp_step. eapply wp_lift_ok.
  { apply slice_ok; [lia |]. rewrite blen_sub_list; lia. }
  rewrite Z.sub_0_r, Hk. destruct (utf8_valid k) eqn:Hk8.
  - do 2 wp_step. apply wp_ret. simpl. split; [| done]. exists v, o1.
    destruct (Z.eqb_spec x 0) as [-> |]; [| done]. split_and!; [done | lia | done | lia.. | done | done].
  - apply wp_fault_at. simpl. rewrite set_offset_same. split_and!; [done.. |].
    intros a o (-> & _ & Hv8)%Hwire. congruence.
Qed.

Lemma is_accepted_is_scalar slot :
  0 <= slot -> is_accepted_wstring_scalar slot = is_scalar slot.
Proof. intros. unfold is_accepted_wstring_scalar, is_scalar. lia. Qed.

Lemma of_stream_bound r s : bytes_ok s -> 0 <= of_stream r s < 256 ^ blen s.
Proof. intros. unfold of_stream. case_match; [by apply of_le_bound | by apply of_be_bound]. Qed.

Lemma slots_at_cons r o k n :
  0 <= n ->
  map (fun k => of_stream r (sub_list (bytes_of r) (o + 4 * k) 4)) (seqZ k (Z.succ n)) =
  of_stream r (sub_list (bytes_of r) (o + 4 * k) 4)
  :: map (fun k => of_stream r (sub_list (bytes_of r) (o + 4 * k) 4)) (seqZ (Z.succ k) n).
Proof. intros. rewrite seqZ_cons by lia. simpl. by rewrite Z.pred_succ. Qed.

(** The slot loop reads exactly the accepted slots, or stops at the first bad one. *)
Lemma read_slots_spec r n k o fs rem out
    (Q : bytes -> CdrReader -> Prop) (X : CdrError.t -> CdrReader -> Prop) :
  let slots := map (fun k => of_stream r (sub_list (bytes_of r) (o + 4 * k) 4))
                 (seqZ k (Z.of_nat n)) in
  bytes_ok (bytes_of r) -> blen (bytes_of r) <= 67108864 ->
  0 <= o -> 0 <= k -> o + 4 * (k + Z.of_nat n) <= blen (bytes_of r) ->
  (Forall (fun c => is_scalar c = true) slots -> Q (out ++ utf8_encode slots) r) ->
  (~ Forall (fun c => is_scalar c = true) slots ->
     X (CdrError.invalid_wstring_scalar fs rem) (set_offset fs r)) ->
  wp (read_slots n k o fs rem out) Q X r.
Proof.
  revert k out. induction n as [|n IH]; intros k out slots Hb Hl Ho Hk Hle HQ HX.
  { apply wp_ret. specialize (HQ ltac:(constructor)). unfold slots in HQ. simpl in HQ.
    by rewrite app_nil_r in HQ. }
  unfold slots in *. clear slots. rewrite Nat2Z.inj_succ, slots_at_cons in HQ, HX by lia.
  cbn [read_slots]. pose proof usize_max_ge as Hu. unfold u32_max in Hu.
  wp_step. usz. rewrite (Z.mul_comm k 4). apply wp_read_u32_at; [lia.. |].
  assert (0 <= of_stream r (sub_list (bytes_of r) (o + 4 * k) 4)) as H0
    by (apply of_stream_bound, bytes_ok_sub_list, Hb).
  set (c := of_stream r _) in *. rewrite is_accepted_is_scalar by done.
  wp_step. apply wp_fault_if; intros Hc.
  { apply HX. intros Hf%Forall_cons. destruct Hf as [Hc' _]. rewrite Hc' in Hc. done. }
  destruct (is_scalar c) eqn:Hsc; [| done].
  wp_step. eapply wp_lift_ok; [done |].
  apply IH; [done | done | done | lia | lia | |].
  - intros Hf. change (k + 1) with (Z.succ k) in *.
    replace ((out ++ utf8_char c) ++ _) with (out ++ utf8_encode (c ::
       map (fun k => of_stream r (sub_list (bytes_of r) (o + 4 * k) 4))
         (seqZ (Z.succ k) (Z.of_nat n)))).
    + apply HQ. by constructor.
    + unfold utf8_encode. simpl. by rewrite <- app_assoc.
  - intros Hf. apply HX. intros [_ Hf']%Forall_cons. by apply Hf.
Qed.

Lemma read_wstring_spec r mb :
  reader_wf r -> field_spec (read_wstring mb) r (wstring_at r mb).
Proof.
  intros Hr. unfold field_spec, read_wstring. pose proof (padding_wf r 4 Hr ltac:(lia)) as Hp.
  pose proof (reader_wf_small r Hr) as Hs. pose proof usize_max_ge as Hu. unfold u32_max in Hu.
  do 2 wp_step. cbv zeta. change (id r) with r. rewrite (remaining_wf r Hr).
  pose proof (reader_wf_stream r Hr) as Hm.
  apply wp_length_prefix; [done | |].
  { intros e He Hno. split_and!; [done.. |]. intros a o (v & o1 & Hv & _). by apply (Hno v o1). }
  intros v Hv Hle Hb. unfold u32_max in Hb. unfold field_start_of in *.
  wp_step. apply wp_check_bound; [intros e He _ C2; field_fault Hv | intros C2].
  wp_step. eapply wp_or_fault_some; [apply try_from_some; lia |].
  wp_step. eapply wp_or_fault_some; [apply checked_mul_some; unfold u64_max; lia |].
  destruct (Z.le_gt_cases (v * 4) usize_max) as [Hv4 | Hv4]; cycle 1.
  { wp_step. unfold or_fault. rewrite try_from_none by lia. apply wp_fault_at.
    field_fault Hv. }
  wp_step. eapply wp_or_fault_some; [apply try_from_some; lia |].
  wp_step. apply wp_fault_if; intros C3; [field_fault Hv |].
  wp_step. eapply wp_or_fault_some; [apply checked_add_usize_some; unfold u32_max; lia |].
  wp_step. eapply wp_or_fault_some; [apply checked_add_usize_some; unfold u32_max; lia |].
  wp_step. apply wp_fault_if; intros C4; [field_fault Hv |].
  wp_step. apply wp_fault_if; intros C5; [field_fault Hv |].
  wp_step. usz. remember (offset r + padding_for (offset r) 4 + 4) as o1 eqn:Ho1.
  apply read_slots_spec; rewrite ?Z2Nat.id by lia; [apply Hr | lia.. | |].
  - intros Hf. do 2 wp_step. apply wp_ret. simpl. split; [| done].
    exists v, o1. split_and!; [done | done | lia | lia | lia | done | done].
  - intros Hf. rewrite set_offset_same. split_and!; [done.. |].
    intros a o (n & o1' & Hv' & _ & _ & _ & _ & Hf' & _).
    destruct (uint_at_fun _ _ _ _ _ _ Hv Hv') as [<- <-]. by apply Hf.
Qed.

Lemma max_stream_u_wf r : reader_wf r -> max_stream_u r = max_stream_bytes (limits r).
Proof.
  intros (Hl & _). unfold limits_ok in Hl. unfold max_stream_u.
  by rewrite try_from_some by (unfold u32_max; lia).
Qed.

Lemma read_sequence_length_spec r mb :
  reader_wf r -> field_spec (read_sequence_length mb) r (sequence_length_at r mb).
Proof.
  intros Hr. unfold field_spec, read_sequence_length.
  pose proof (padding_wf r 4 Hr ltac:(lia)) as Hp.
  pose proof (reader_wf_small r Hr) as Hs. pose proof usize_max_ge as Hu. unfold u32_max in Hu.
  do 2 wp_step. cbv zeta. change (id r) with r.
  rewrite (max_stream_u_wf r Hr). pose proof (reader_wf_stream r Hr) as Hm.
  apply wp_length_prefix; [done | |].
  { intros e He Hno. split_and!; [done.. |]. intros a o (Hv & _). by apply (Hno a o). }
  intros v Hv Hle Hb. unfold field_start_of in *.
  assert (forall a o, sequence_length_at r mb a o -> a = v /\ bound_ok mb v /\
            v <= max_stream_bytes (limits r)) as Hwire.
  { intros a o (Hv' & ?). by destruct (uint_at_fun _ _ _ _ _ _ Hv Hv') as [<- <-]. }
  wp_step. apply wp_check_bound.
  { intros e He _ C2. rewrite set_offset_same. split_and!; [done.. |].
    intros a o (_ & Hbo & _)%Hwire. done. }
  intros C2. wp_step. apply wp_fault_if; intros C3.
  { rewrite set_offset_same. split_and!; [done.. |]. intros a o (_ & _ & Hlim)%Hwire. lia. }
  do 2 wp_step. apply wp_ret. simpl. split; [| done]. usz.
  split_and!; [done | done | lia].
Qed.

Lemma read_byte_sequence_spec r mb :
  reader_wf r -> field_spec (read_byte_sequence mb) r (byte_sequence_at r mb).
Proof.
  intros Hr. unfold field_spec, read_byte_sequence.
  pose proof (padding_wf r 4 Hr ltac:(lia)) as Hp.
  pose proof (reader_wf_small r Hr) as Hs. pose proof usize_max_ge as Hu. unfold u32_max in Hu.
  do 2 wp_step. cbv zeta. change (id r) with r. rewrite (remaining_wf r Hr).
  rewrite (max_stream_u_wf r Hr). pose proof (reader_wf_stream r Hr) as Hm.
  apply wp_length_prefix; [done | |].
  { intros e He Hno. split_and!; [done.. |]. intros a o (v & o1 & Hv & _). by apply (Hno v o1). }
  intros v Hv Hle Hb. unfold u32_max in Hb. unfold field_start_of in *.
  wp_step. apply wp_check_bound; [intros e He _ C2; field_fault Hv | intros C2].
  wp_step. apply wp_fault_if; intros C3; [field_fault Hv |].
  wp_step. eapply wp_or_fault_some; [apply checked_add_usize_some; unfold u32_max; lia |].
  wp_step. eapply wp_or_fault_some; [apply checked_add_usize_some; unfold u32_max; lia |].
  wp_step. apply wp_fault_if; intros C4; [field_fault Hv |].
  do 2 wp_step. usz. remember (offset r + padding_for (offset r) 4 + 4) as o1 eqn:Ho1.
  eapply wp_lift_ok; [apply slice_ok; lia |]. replace (o1 + v - o1) with v by lia.
  simpl. split; [| done]. exists v, o1. split_and!; [done | done | lia | lia | done].
Qed.

Lemma read_bytes_spec r n :
  reader_wf r -> 0 <= n <= 67108864 ->
  field_spec (read_bytes n) r (fun s o =>
    s = sub_list (bytes_of r) (offset r) n /\ o = offset r + n /\ o <= blen (bytes_of r)).
Proof.
  intros Hr Hn. pose proof (reader_wf_small r Hr) as Hs.
  pose proof usize_max_ge as Hu. unfold u32_max in Hu.
  assert (Ha : wp (align_to 1 n)
    (fun _ r' => r' = r /\ offset r + n <= blen (bytes_of r))
    (fun e r' => r' = r /\ CdrError.offset e = offset r /\ blen (bytes_of r) < offset r + n) r).
  { apply wp_align_to; [done | lia | lia | |]; unfold field_start_of;
      rewrite padding_for_1, Z.add_0_r; [done |]. by rewrite set_offset_same. }
  unfold field_spec, wp, read_bytes in *.
  destruct (align_to 1 n r) as [[[] | e |] r']; [| | done].
  - destruct Ha as [-> Hle]. rewrite usize_add_small, slice_ok by lia. simpl.
    split; [| done]. split_and!; [f_equal; lia | done | lia].
  - destruct Ha as (-> & He & Hlt). rewrite set_offset_same. split_and!; [done.. |].
    intros a o (_ & -> & Hle). lia.
Qed.

(** [open] accepts exactly the buffers with valid limits, a length within them
    and one of the two CDR1 representation identifiers. *)
Definition encapsulation (bs : bytes) : option CdrEndian :=
  match bs with
  | 0 :: 1 :: _ :: _ :: _ => Some Little
  | 0 :: 0 :: _ :: _ :: _ => Some Big
  | _ => None
  end.

Lemma open_spec bs l :
  limits_ok l -> bytes_ok bs ->
  match open bs l with
  | Ok r => encapsulation bs = Some (header_endian (header r)) /\
            blen bs <= max_stream_bytes l /\
            bytes_of r = bs /\ offset r = 4 /\ limits r = l /\ reader_wf r
  | Err e => (encapsulation bs = None \/ max_stream_bytes l < blen bs) /\ CdrError.offset e = 0
  | Panic => False
  end.
Proof.
  intros Hl Hb. unfold open. rewrite limits_ok_validate by done. cbn [obind].
  destruct (Z.ltb_spec (max_stream_bytes l) (blen bs)); [by auto |].
  destruct (Z.ltb_spec (blen bs) HEADER_LENGTH) as [Hs | Hs]; unfold HEADER_LENGTH in Hs.
  { split; [| done]. left. unfold blen in Hs.
    destruct bs as [|? [|? [|? [|? ?]]]]; simpl in *; try lia; repeat case_match; done. }
  destruct bs as [|b0 [|b1 [|b2 [|b3 t]]]]; try (exfalso; unfold blen in Hs; simpl in Hs; lia).
  rewrite !bytes_ok_cons in Hb. destruct Hb as (Hb0 & Hb1 & Hb2 & Hb3 & Ht). unfold is_byte in *.
  unfold index. simpl. change (Z.to_nat 1) with 1%nat. change (Z.to_nat 2) with 2%nat.
  change (Z.to_nat 3) with 3%nat. simpl. unfold of_be. cbn [rev app of_le].
  unfold REPRESENTATION_CDR_LE, REPRESENTATION_CDR_BE.
  assert (Hwf : forall e o ro, blen (b0 :: b1 :: b2 :: b3 :: t) <= max_stream_bytes l ->
    reader_wf (mk_reader (b0 :: b1 :: b2 :: b3 :: t) BODY_ORIGIN l
      {| representation := ro; options := o; header_endian := e |})).
  { intros. unfold reader_wf. simpl. unfold BODY_ORIGIN. split_and!; [done | | lia | | done].
    - by repeat (apply bytes_ok_cons; split).
    - rewrite !blen_cons in *. pose proof (blen_nonneg t). lia. }
  destruct (Z.eqb_spec (b1 + 256 * (b0 + 256 * 0)) 1).
  { assert (b0 = 0) as -> by lia. assert (b1 = 1) as -> by lia.
    split_and!; [done | lia | done.. | apply Hwf; lia]. }
  destruct (Z.eqb_spec (b1 + 256 * (b0 + 256 * 0)) 0).
  { assert (b0 = 0) as -> by lia. assert (b1 = 0) as -> by lia.
    split_and!; [done | lia | done.. | apply Hwf; lia]. }
  split; [| done]. left. simpl. repeat case_match; try done; lia.
Qed.

End Correct.
