(* ===== verification/CdrWriter.v ===== *)
(** * The bounded CDR1 writer

    [rclweb/src/cdr/writer.rs].  A writer is its buffer (starting with the
    four-byte encapsulation header), the logical capacity, the limits and the
    byte order.  A field write checks the padded size against the capacity
    before it touches the buffer. *)

From S2P Require Import Prelude Utf8 CdrCore.
From S2P Require CdrReader.

Record CdrWriter := mk_writer {
  buf : bytes;
  capacity : Z;
  wlimits : CdrLimits;
  wendian : CdrEndian;
  wrepresentation : Z;
  woptions : Z
}.

Definition set_buf (b : bytes) (w : CdrWriter) : CdrWriter :=
  mk_writer b (capacity w) (wlimits w) (wendian w) (wrepresentation w) (woptions w).

Section Writer.
Context `{Target}.

Abbreviation W := (SM CdrWriter CdrError.t).

Definition new (endian : CdrEndian) (l : CdrLimits) : outcome CdrError.t CdrWriter :=
  limits_validate l ;;?
  let capacity := writer_capacity l in
  if capacity <? HEADER_LENGTH then
    Err (CdrError.bounds_exceeded 0 HEADER_LENGTH (max_temporary_allocation l))
  else
    let buf := if is_little endian then [0; 1; 0; 0] else [0; 0; 0; 0] in
    Ok (mk_writer buf capacity l endian (endian_representation endian) 0).

Definition new_default (endian : CdrEndian) : outcome CdrError.t CdrWriter :=
  new endian limits_defaults.

Definition position (w : CdrWriter) : Z := blen (buf w).
Definition remaining_capacity (w : CdrWriter) : Z := usize_sub (capacity w) (blen (buf w)).
Definition little_endian (w : CdrWriter) : bool := is_little (wendian w).
Definition into_bytes (w : CdrWriter) : bytes := buf w.

Definition enter_nested (parent : CdrReader.CdrNesting) : W CdrReader.CdrNesting := fun w =>
  let next := usize_add parent 1 in
  let max_d := max_nesting_depth (wlimits w) in
  if max_d <? next then (Err (CdrError.bounds_exceeded (position w) next max_d), w)
  else (Ok next, w).

Definition align_and_reserve (align size : Z) : W unit := fun w =>
  let field_start := blen (buf w) in
  let pad := padding_for field_start align in
  let rem_cap := remaining_capacity w in
  match checked_add_usize pad size with
  | None => (Err (CdrError.length_overflow field_start 0 rem_cap), w)
  | Some needed =>
      match checked_add_usize field_start needed with
      | None => (Err (CdrError.length_overflow field_start 0 rem_cap), w)
      | Some e =>
          if capacity w <? e then
            (Err (CdrError.bounds_exceeded field_start needed rem_cap), w)
          else (Ok tt, set_buf (buf w ++ zeros pad) w)
      end
  end.

(** [self.buf.extend_from_slice(data)]. *)
Definition extend (data : bytes) : W unit :=
  modify (fun w => set_buf (buf w ++ data) w).

(** An [n]-byte integer in the stream's byte order. *)
Definition to_stream (w : CdrWriter) (n : nat) (v : Z) : bytes :=
  if little_endian w then to_le n v else to_be n v.

Definition write_u32_raw (value : Z) : W unit :=
  w <~ gets id ;; extend (to_stream w 4 value).

Definition write_span (n : nat) (value : Z) : W unit :=
  align_and_reserve (Z.of_nat n) (Z.of_nat n) ;;~
  w <~ gets id ;;
  extend (to_stream w n value).

Definition write_u8 (value : Z) : W unit := align_and_reserve 1 1 ;;~ extend [value].
Definition write_u16 (value : Z) : W unit := write_span 2 value.
Definition write_u32 (value : Z) : W unit := align_and_reserve 4 4 ;;~ write_u32_raw value.
Definition write_u64 (value : Z) : W unit := write_span 8 value.
Definition write_bool (value : bool) : W unit := write_u8 (if value then 1 else 0).
Definition write_i8 (value : Z) : W unit := write_u8 (as_unsigned 8 value).
Definition write_i16 (value : Z) : W unit := write_u16 (as_unsigned 16 value).
Definition write_i32 (value : Z) : W unit := write_u32 (as_unsigned 32 value).
Definition write_i64 (value : Z) : W unit := write_u64 (as_unsigned 64 value).
Definition write_f32 (value : Z) : W unit := write_u32 value.
Definition write_f64 (value : Z) : W unit := write_u64 value.
Definition write_char8 (value : Z) : W unit := write_u8 value.
Definition write_char16 (value : Z) : W unit := write_u16 value.

Definition write_bytes (data : bytes) : W unit :=
  align_and_reserve 1 (blen data) ;;~ extend data.

(** [isize] results: -1 when not even an empty field fits. *)
Definition max_payload_for_writer (field_start rem_cap : Z) : Z :=
  let pad := padding_for field_start 4 in
  if rem_cap <? pad then -1
  else
    let body_space := usize_sub rem_cap pad in
    if body_space <? 5 then -1
    else as_signed usize_bits (usize_sub body_space 5).

Definition capacity_bounds_error (field_start rem_cap pad min_payload : Z) : CdrError.t :=
  let overflow := CdrError.length_overflow field_start 0 rem_cap in
  match checked_add_usize min_payload 1 with
  | None => overflow
  | Some wire =>
      match checked_add_usize 4 wire with
      | None => overflow
      | Some body =>
          match checked_add_usize pad body with
          | None => overflow
          | Some needed => CdrError.bounds_exceeded field_start needed rem_cap
          end
      end
  end.

Definition max_scalars_for_writer (field_start rem_cap : Z) : Z :=
  let pad := padding_for field_start 4 in
  if rem_cap <? pad then -1
  else
    let body_space := usize_sub rem_cap pad in
    if body_space <? 4 then -1
    else as_signed usize_bits (usize_sub body_space 4 / 4).

Definition wstring_capacity_bounds_error (field_start rem_cap pad min_scalars : Z)
    : CdrError.t :=
  let overflow := CdrError.length_overflow field_start 0 rem_cap in
  match checked_mul usize_max min_scalars 4 with
  | None => overflow
  | Some payload =>
      match checked_add_usize 4 payload with
      | None => overflow
      | Some body =>
          match checked_add_usize pad body with
          | None => overflow
          | Some needed => CdrError.bounds_exceeded field_start needed rem_cap
          end
      end
  end.

Definition write_string (value : bytes) (max_bytes : option Z) : W unit := fun w =>
  let field_start := blen (buf w) in
  let rem_cap := remaining_capacity w in
  let pad := padding_for field_start 4 in
  let payload_len := blen value in
  let overflow := CdrError.length_overflow field_start 0 rem_cap in
  let over_bound :=
    match type_bound_ceiling max_bytes with
    | Some bound => if bound <? payload_len then Some bound else None
    | None => None
    end in
  match over_bound with
  | Some bound => (Err (CdrError.bounds_exceeded field_start payload_len bound), w)
  | None =>
      let cap_max := max_payload_for_writer field_start rem_cap in
      let cap_u := as_unsigned usize_bits cap_max in
      if (cap_max <? 0) && (0 <? payload_len) then
        (Err (capacity_bounds_error field_start rem_cap pad 1), w)
      else if negb (cap_max <? 0) && (cap_u <? payload_len) then
        (Err (capacity_bounds_error field_start rem_cap pad (usize_add cap_u 1)), w)
      else
        (wire_len <~ lift (ok_or (checked_add_usize payload_len 1) overflow) ;;
         body_size <~ lift (ok_or (checked_add_usize 4 wire_len) overflow) ;;
         align_and_reserve 4 body_size ;;~
         wire_u <~ lift (ok_or (try_from u32_max wire_len) overflow) ;;
         write_u32_raw wire_u ;;~
         extend value ;;~
         extend [0]) w
  end.

(** The counting loop of [write_wstring]. *)
Fixpoint count_scalars (cs : list Z) (count : Z) (type_max : option Z)
    (cap_max field_start rem_cap pad : Z) : outcome CdrError.t Z :=
  match cs with
  | [] => Ok count
  | slot :: cs' =>
      if negb (CdrReader.is_accepted_wstring_scalar slot) then
        Err (CdrError.invalid_wstring_scalar field_start rem_cap)
      else
        let next_count := usize_add count 1 in
        let over :=
          match type_max with
          | Some t => if t <? next_count then Some t else None
          | None => None
          end in
        match over with
        | Some t => Err (CdrError.bounds_exceeded field_start next_count t)
        | None =>
            let cap_u := as_unsigned usize_bits cap_max in
            if (cap_max <? 0) || (cap_u <? next_count) then
              let min_n := if cap_max <? 0 then 1 else usize_add cap_u 1 in
              Err (wstring_capacity_bounds_error field_start rem_cap pad min_n)
            else count_scalars cs' next_count type_max cap_max field_start rem_cap pad
        end
  end.

(** [for ch in value.chars() { self.write_u32_raw(u32::from(ch)) }]. *)
Fixpoint write_slots (cs : list Z) : W unit :=
  match cs with
  | [] => ret tt
  | c :: cs' => write_u32_raw c ;;~ write_slots cs'
  end.

Definition write_wstring (value : bytes) (max_scalars : option Z) : W unit := fun w =>
  let field_start := blen (buf w) in
  let rem_cap := remaining_capacity w in
  let pad := padding_for field_start 4 in
  let type_max := type_bound_ceiling max_scalars in
  let cap_max := max_scalars_for_writer field_start rem_cap in
  let overflow := CdrError.length_overflow field_start 0 rem_cap in
  (count <~ lift (count_scalars (chars value) 0 type_max cap_max field_start rem_cap pad) ;;
   payload <~ lift (ok_or (checked_mul usize_max count 4) overflow) ;;
   body_size <~ lift (ok_or (checked_add_usize 4 payload) overflow) ;;
   align_and_reserve 4 body_size ;;~
   count_u <~ lift (ok_or (try_from u32_max count) overflow) ;;
   write_u32_raw count_u ;;~
   write_slots (chars value)) w.

Definition write_sequence_length (len : Z) (max_elements : option Z) : W unit := fun w =>
  let field_start := blen (buf w) in
  let max_stream := max_stream_bytes (wlimits w) in
  let over_bound :=
    match max_elements with
    | Some bound => if bound <? len then Some bound else None
    | None => None
    end in
  match over_bound with
  | Some bound => (Err (CdrError.bounds_exceeded field_start len bound), w)
  | None =>
      if max_stream <? len then (Err (CdrError.bounds_exceeded field_start len max_stream), w)
      else (align_and_reserve 4 4 ;;~ write_u32_raw len) w
  end.

Definition write_byte_sequence (value : bytes) (max_elements : option Z) : W unit := fun w =>
  let field_start := blen (buf w) in
  let rem_cap := remaining_capacity w in
  let n := blen value in
  let overflow := CdrError.length_overflow field_start 0 rem_cap in
  let max_stream := max_stream_bytes (wlimits w) in
  let over_bound :=
    match max_elements with
    | Some bound => if bound <? n then Some bound else None
    | None => None
    end in
  match over_bound with
  | Some bound => (Err (CdrError.bounds_exceeded field_start n bound), w)
  | None =>
      if max_stream <? n then (Err (CdrError.bounds_exceeded field_start n max_stream), w)
      else
        (body_size <~ lift (ok_or (checked_add_usize 4 n) overflow) ;;
         align_and_reserve 4 body_size ;;~
         n_u <~ lift (ok_or (try_from u32_max n) overflow) ;;
         write_u32_raw n_u ;;~
         extend value) w
  end.

End Writer.

(** ** Correctness *)

Section Correct.
Context `{Target}.
Implicit Types w : CdrWriter.

Definition writer_wf (w : CdrWriter) : Prop :=
  limits_ok (wlimits w) /\ capacity w = writer_capacity (wlimits w) /\
  bytes_ok (buf w) /\ 4 <= blen (buf w) <= capacity w.

(** What a field writer promises: when the value is acceptable and the padded
    field fits the capacity, zero padding and the field are appended; otherwise
    a fault at the field start, with the writer as it was. *)
Definition put_spec (m : SM CdrWriter CdrError.t unit) (w : CdrWriter)
    (ok : Prop) (align : Z) (body : bytes) : Prop :=
  let pad := padding_for (blen (buf w)) align in
  wp m
    (fun _ w' => ok /\ w' = set_buf (buf w ++ zeros pad ++ body) w /\
                 blen (buf w) + pad + blen body <= capacity w)
    (fun e w' => w' = w /\ CdrError.offset e = blen (buf w) /\
                 ~ (ok /\ blen (buf w) + pad + blen body <= capacity w))
    w.

Lemma writer_wf_small w :
  writer_wf w -> 4 <= blen (buf w) <= capacity w /\ capacity w <= 67108864 /\
                 capacity w <= max_stream_bytes (wlimits w) <= 67108864.
Proof. unfold writer_wf, limits_ok, writer_capacity. intuition lia. Qed.

Lemma remaining_capacity_wf w :
  writer_wf w -> remaining_capacity w = capacity w - blen (buf w).
Proof.
  intros Hw%writer_wf_small. unfold remaining_capacity.
  pose proof usize_max_ge as Hu. unfold u32_max in Hu. apply usize_sub_small. lia.
Qed.

Lemma wpadding_wf w align :
  writer_wf w -> 1 <= align <= 8 -> 0 <= padding_for (blen (buf w)) align < align.
Proof. intros Hw%writer_wf_small ?. apply padding_for_bound; unfold u32_max; lia. Qed.

Lemma wp_align_and_reserve w align size
    (Q : unit -> CdrWriter -> Prop) (X : CdrError.t -> CdrWriter -> Prop) :
  writer_wf w -> 1 <= align <= 8 -> 0 <= size ->
  let pad := padding_for (blen (buf w)) align in
  (forall e, CdrError.offset e = blen (buf w) -> capacity w < blen (buf w) + pad + size -> X e w) ->
  (blen (buf w) + pad + size <= capacity w -> Q tt (set_buf (buf w ++ zeros pad) w)) ->
  wp (align_and_reserve align size) Q X w.
Proof.
  intros Hw Ha Hs pad HX HQ. pose proof (wpadding_wf w align Hw Ha) as Hp. fold pad in Hp.
  apply writer_wf_small in Hw as Hl. unfold wp, align_and_reserve. fold pad.
  pose proof usize_max_ge as Hu. unfold u32_max in Hu.
  destruct (Z.le_gt_cases (pad + size) usize_max) as [H1 | H1].
  2: { unfold checked_add_usize. rewrite checked_add_none by lia. apply HX; [done | lia]. }
  unfold checked_add_usize. rewrite checked_add_some by lia.
  destruct (Z.le_gt_cases (blen (buf w) + (pad + size)) usize_max) as [H2 | H2].
  2: { rewrite checked_add_none by lia. apply HX; [done | lia]. }
  rewrite checked_add_some by lia.
  destruct (Z.ltb_spec (capacity w) (blen (buf w) + (pad + size))).
  - apply HX; [done | lia].
  - apply HQ. lia.
Qed.

Lemma set_buf_twice w b b' : set_buf b (set_buf b' w) = set_buf b w.
Proof. done. Qed.

Lemma write_span_spec w n v :
  writer_wf w -> (1 <= n <= 8)%nat ->
  put_spec (write_span n v) w True (Z.of_nat n) (to_stream w n v).
Proof.
  intros Hw Hn. unfold put_spec, write_span.
  assert (blen (to_stream w n v) = Z.of_nat n) as Hlen.
  { unfold to_stream. case_match; [apply blen_to_le | apply blen_to_be]. }
  rewrite Hlen. wp_step. apply wp_align_and_reserve; [done | lia | lia | |].
  - intros e He Hlt. split_and!; [done.. |]. intros [_ Hle]. lia.
  - intros Hle. do 2 wp_step. unfold extend. wp_step. simpl.
    rewrite <- app_assoc. done.
Qed.

Lemma write_u8_spec w v : writer_wf w -> put_spec (write_u8 v) w True 1 [v].
Proof.
  intros Hw. unfold put_spec, write_u8. wp_step.
  apply wp_align_and_reserve; [done | lia | lia | |]; change (blen [v]) with 1.
  - intros e He Hlt. split_and!; [done.. |]. intros [_ Hle]. lia.
  - intros Hle. unfold extend. wp_step. simpl. by rewrite <- app_assoc.
Qed.

Lemma write_u32_is_span v : write_u32 v = write_span 4 v.
Proof. done. Qed.

Lemma write_u32_spec w v :
  writer_wf w -> put_spec (write_u32 v) w True 4 (to_stream w 4 v).
Proof. intros. rewrite write_u32_is_span. apply (write_span_spec w 4); [done | lia]. Qed.

Lemma blen_to_stream w n v : blen (to_stream w n v) = Z.of_nat n.
Proof. unfold to_stream. case_match; [apply blen_to_le | apply blen_to_be]. Qed.

Lemma write_bytes_spec w data : writer_wf w -> put_spec (write_bytes data) w True 1 data.
Proof.
  intros Hw. unfold put_spec, write_bytes. pose proof (blen_nonneg data). wp_step.
  apply wp_align_and_reserve; [done | lia | lia | |].
  - intros e He Hlt. split_and!; [done.. |]. intros [_ Hle]. lia.
  - intros Hle. unfold extend. wp_step. simpl. by rewrite <- app_assoc.
Qed.

(** A bound is a [u32]. *)
Definition bound_u32 (b : option Z) : Prop :=
  match b with Some b => 0 <= b <= u32_max | None => True end.

Lemma type_bound_ceiling_id b : bound_u32 b -> type_bound_ceiling b = b.
Proof. destruct b; simpl; intros; [by rewrite try_from_usize_some | done]. Qed.

Lemma over_bound_spec (b : option Z) v :
  match b with Some t => if t <? v then Some t else None | None => None end = None
  <-> CdrReader.bound_ok b v.
Proof. destruct b as [t |]; simpl; [| done]. case_match; split; intros; try done; lia. Qed.

(** The length-prefixed fields share their tail: a reserved [u32] count, the
    count, the payload. *)
Lemma wp_put_counted w count (body : bytes) (payload : SM CdrWriter CdrError.t unit) ok overflow :
  writer_wf w -> ok -> 0 <= count <= u32_max ->
  (forall w', wendian w' = wendian w ->
     payload w' = (Ok tt, set_buf (buf w' ++ body) w')) ->
  put_spec
    (align_and_reserve 4 (4 + blen body) ;;~
     c <~ lift (ok_or (try_from u32_max count) overflow) ;;
     write_u32_raw c ;;~ payload)
    w ok 4 (to_stream w 4 count ++ body).
Proof.
  intros Hw Hok Hc Hp. unfold put_spec. rewrite blen_app, blen_to_stream. pose proof (blen_nonneg body).
  wp_step. apply wp_align_and_reserve; [done | lia | lia | |].
  - intros e He Hlt. split_and!; [done.. |]. intros [_ Hle]. lia.
  - intros Hle. wp_step. eapply wp_lift_ok; [by rewrite try_from_some |].
    unfold write_u32_raw, extend. do 4 wp_step. unfold wp. rewrite Hp by done. simpl.
    split_and!; [done | | lia]. unfold set_buf. simpl. by rewrite <- !app_assoc.
Qed.

Lemma isize_cast_small v :
  0 <= v <= 67108864 -> as_signed usize_bits v = v /\ as_unsigned usize_bits v = v.
Proof.
  intros Hv. unfold as_signed, as_unsigned, usize_bits. destruct the_target.
  - change (2 ^ 32) with 4294967296. change (2 ^ (32 - 1)) with 2147483648.
    rewrite Z.mod_small by lia. zcmp. done.
  - change (2 ^ 64) with 18446744073709551616. change (2 ^ (64 - 1)) with 9223372036854775808.
    rewrite Z.mod_small by lia. zcmp. done.
Qed.

(** The payload ceiling of a string field is exact. *)
Lemma max_payload_for_writer_spec w :
  writer_wf w ->
  let pad := padding_for (blen (buf w)) 4 in
  let rem := capacity w - blen (buf w) in
  let m := max_payload_for_writer (blen (buf w)) rem in
  (m = -1 /\ rem < pad + 5) \/ (m = rem - pad - 5 /\ 0 <= m <= 67108864).
Proof.
  intros Hw pad rem m. pose proof (wpadding_wf w 4 Hw ltac:(lia)) as Hp. fold pad in Hp.
  apply writer_wf_small in Hw as Hl. pose proof usize_max_ge as Hu. unfold u32_max in Hu.
  unfold m, max_payload_for_writer. fold pad. subst rem.
  destruct (Z.ltb_spec (capacity w - blen (buf w)) pad); [left; lia |]. usz.
  destruct (Z.ltb_spec (capacity w - blen (buf w) - pad) 5); [left; lia |]. usz.
  right. destruct (isize_cast_small (capacity w - blen (buf w) - pad - 5)) as [E _]; lia.
Qed.

Lemma max_scalars_for_writer_spec w :
  writer_wf w ->
  let pad := padding_for (blen (buf w)) 4 in
  let rem := capacity w - blen (buf w) in
  let m := max_scalars_for_writer (blen (buf w)) rem in
  (m = -1 /\ rem < pad + 4) \/
  (0 <= m <= 67108864 /\ pad + 4 <= rem /\ forall n, n <= m <-> 4 * n <= rem - pad - 4).
Proof.
  intros Hw pad rem m. pose proof (wpadding_wf w 4 Hw ltac:(lia)) as Hp. fold pad in Hp.
  apply writer_wf_small in Hw as Hl. pose proof usize_max_ge as Hu. unfold u32_max in Hu.
  unfold m, max_scalars_for_writer. fold pad. subst rem.
  destruct (Z.ltb_spec (capacity w - blen (buf w)) pad); [left; lia |]. usz.
  destruct (Z.ltb_spec (capacity w - blen (buf w) - pad) 4); [left; lia |]. usz.
  right. remember (capacity w - blen (buf w) - pad - 4) as k eqn:Hk.
  pose proof (Z.div_mod k 4 ltac:(lia)). pose proof (Z.mod_pos_bound k 4 ltac:(lia)).
  destruct (isize_cast_small (k / 4)) as [E _]; [lia |].
  rewrite E. split_and!; [lia.. | intros n; lia].
Qed.

Lemma capacity_bounds_error_offset fs rem pad n :
  CdrError.offset (capacity_bounds_error fs rem pad n) = fs.
Proof. unfold capacity_bounds_error. by repeat case_match. Qed.

Lemma wstring_capacity_bounds_error_offset fs rem pad n :
  CdrError.offset (wstring_capacity_bounds_error fs rem pad n) = fs.
Proof. unfold wstring_capacity_bounds_error. by repeat case_match. Qed.

Definition string_body (w : CdrWriter) (value : bytes) : bytes :=
  to_stream w 4 (blen value + 1) ++ value ++ [0].

Lemma blen_string_body w value : blen (string_body w value) = 5 + blen value.
Proof. unfold string_body. rewrite !blen_app, blen_to_stream. change (blen [0]) with 1. lia. Qed.

Lemma wp_string_tail w value ok overflow :
  writer_wf w -> ok -> blen value <= 67108864 ->
  wp (wire_len <~ lift (ok_or (checked_add_usize (blen value) 1) overflow) ;;
      body_size <~ lift (ok_or (checked_add_usize 4 wire_len) overflow) ;;
      align_and_reserve 4 body_size ;;~
      wire_u <~ lift (ok_or (try_from u32_max wire_len) overflow) ;;
      write_u32_raw wire_u ;;~
      extend value ;;~
      extend [0])
    (fun _ w' => ok /\
       w' = set_buf (buf w ++ zeros (padding_for (blen (buf w)) 4) ++ string_body w value) w /\
       blen (buf w) + padding_for (blen (buf w)) 4 + (5 + blen value) <= capacity w)
    (fun e w' => w' = w /\ CdrError.offset e = blen (buf w) /\
       ~ (ok /\ blen (buf w) + padding_for (blen (buf w)) 4 + (5 + blen value) <= capacity w))
    w.
Proof.
  intros Hw Hok Hv. pose proof (blen_nonneg value).
  do 2 (wp_step; eapply wp_lift_ok;
        [rewrite checked_add_usize_some by (unfold u32_max; lia); reflexivity |]).
  pose proof (wp_put_counted w (blen value + 1) (value ++ [0])
    (extend value ;;~ extend [0]) ok overflow Hw Hok) as Hc.
  unfold put_spec in Hc. rewrite !blen_app, blen_to_stream in Hc.
  change (blen [0]) with 1 in Hc. fold (string_body w value) in Hc.
  replace (5 + blen value) with (Z.of_nat 4 + (blen value + 1)) by lia.
  apply Hc; [unfold u32_max; lia |].
  intros w' _. unfold extend, bind, modify, set_buf. simpl. by rewrite <- app_assoc.
Qed.

Lemma write_string_spec w value mb :
  writer_wf w -> bound_u32 mb ->
  put_spec (write_string value mb) w (CdrReader.bound_ok mb (blen value)) 4
    (string_body w value).
Proof.
  intros Hw Hb. unfold put_spec. rewrite blen_string_body.
  pose proof (blen_nonneg value) as Hv. pose proof (wpadding_wf w 4 Hw ltac:(lia)) as Hp.
  apply writer_wf_small in Hw as Hl. pose proof usize_max_ge as Hu. unfold u32_max in Hu.
  unfold wp, write_string. rewrite type_bound_ceiling_id, remaining_capacity_wf by done.
  pose proof (over_bound_spec mb (blen value)) as Hob.
  destruct (match mb with Some t => if t <? blen value then Some t else None | None => None end)
    as [t |].
  { split_and!; [done.. |]. intros [Hc _]. by apply Hob in Hc. }
  destruct Hob as [Hob _]. specialize (Hob eq_refl).
  destruct (max_payload_for_writer_spec w Hw) as [[Hm Hfit] | [Hm Hm']].
  - rewrite Hm. destruct (Z.ltb_spec 0 (blen value)); simpl.
    { rewrite capacity_bounds_error_offset. split_and!; [done.. |]. lia. }
    apply wp_string_tail; [done | done | lia].
  - rewrite Hm. destruct (isize_cast_small _ Hm') as [_ Hcast]. rewrite Hm in Hcast.
    rewrite Hcast. zcmp. rewrite Hm in Hm'.
    destruct (Z.ltb_spec (capacity w - blen (buf w) - padding_for (blen (buf w)) 4 - 5) (blen value)).
    { rewrite capacity_bounds_error_offset. split_and!; [done.. |]. lia. }
    apply wp_string_tail; [done | done | lia].
Qed.

(** The counting loop either counts every scalar or stops at the bound or at
    the capacity; it never rejects a Rust [char]. *)
Lemma count_scalars_spec w cs count tm cap_max pad :
  writer_wf w -> Forall (fun c => is_scalar c = true) cs -> 0 <= count -> count <= 67108864 ->
  pad = padding_for (blen (buf w)) 4 ->
  cap_max = max_scalars_for_writer (blen (buf w)) (capacity w - blen (buf w)) ->
  let rem := capacity w - blen (buf w) in
  let n := count + blen cs in
  match count_scalars cs count tm cap_max (blen (buf w)) rem pad with
  | Ok c => c = n /\ (cs = [] \/ CdrReader.bound_ok tm n /\ n <= cap_max)
  | Err e => CdrError.offset e = blen (buf w) /\
             ~ (CdrReader.bound_ok tm n /\ pad + 4 + 4 * n <= rem)
  | Panic => False
  end.
Proof.
  intros Hw Hcs H0 Hc Hpad Hcap rem n. unfold n. clear n.
  pose proof (max_scalars_for_writer_spec w Hw) as Hm. simpl in Hm. fold rem in Hcap, Hm.
  rewrite <- Hcap, <- Hpad in Hm. clear Hpad Hcap.
  pose proof usize_max_ge as Hu. unfold u32_max in Hu.
  revert count H0 Hc. induction Hcs as [|c cs Hsc Hcs IH]; intros count H0 Hc.
  { cbn [count_scalars]. rewrite blen_nil, Z.add_0_r. auto. }
  cbn [count_scalars]. rewrite blen_cons. pose proof (blen_nonneg cs).
  rewrite CdrReader.is_accepted_is_scalar by (apply is_scalar_spec in Hsc; lia). rewrite Hsc.
  cbn [negb]. usz. pose proof (over_bound_spec tm (count + 1)) as Hob.
  destruct (match tm with Some t => if t <? count + 1 then Some t else None | None => None end)
    as [t |].
  { split; [done |]. intros [Hbo _].
    assert (CdrReader.bound_ok tm (count + 1)) as Hbo' by (destruct tm; simpl in *; lia || done).
    by apply Hob in Hbo'. }
  destruct Hob as [Hob _]. specialize (Hob eq_refl).
  destruct Hm as [[Hm Hfit] | (Hm & Hfit & Hiff)].
  { rewrite Hm. simpl. rewrite wstring_capacity_bounds_error_offset. split; [done | lia]. }
  destruct (isize_cast_small _ Hm) as [_ ->]. zcmp.
  destruct (Z.ltb_spec cap_max (count + 1)).
  { rewrite wstring_capacity_bounds_error_offset. split; [done |]. intros [_ Hle].
    specialize (Hiff (count + (1 + blen cs))). lia. }
  specialize (IH (count + 1) ltac:(lia) ltac:(lia)).
  replace (count + (1 + blen cs)) with (count + 1 + blen cs) by lia.
  destruct (count_scalars _ _ _ _ _ _ _) as [c' | e |]; [| done | done].
  destruct IH as [-> Hd]. split; [done |]. right.
  destruct Hd as [-> | Hd]; [| done]. rewrite blen_nil, Z.add_0_r. lia || (split; [done | lia]).
Qed.

Definition wstring_body (w : CdrWriter) (value : bytes) : bytes :=
  to_stream w 4 (blen (chars value)) ++ concat (map (to_stream w 4) (chars value)).

Lemma blen_slots w cs : blen (concat (map (to_stream w 4) cs)) = 4 * blen cs.
Proof.
  induction cs as [|c cs IH]; [done |]. cbn [map concat].
  rewrite blen_app, blen_to_stream, blen_cons, IH. lia.
Qed.

Lemma write_slots_run cs w :
  write_slots cs w = (Ok tt, set_buf (buf w ++ concat (map (to_stream w 4) cs)) w).
Proof.
  revert w. induction cs as [|c cs IH]; intros w; cbn [write_slots map concat].
  { rewrite app_nil_r. by destruct w. }
  unfold write_u32_raw, extend, bind, gets, modify. rewrite IH. simpl.
  by rewrite <- app_assoc.
Qed.

Lemma write_wstring_spec w value mb :
  writer_wf w -> bound_u32 mb ->
  put_spec (write_wstring value mb) w
    (CdrReader.bound_ok mb (blen (chars value)) ) 4 (wstring_body w value).
Proof.
  intros Hw Hb. unfold put_spec, wstring_body. rewrite blen_app, blen_slots, blen_to_stream.
  set (n := blen (chars value)). pose proof (blen_nonneg (chars value)) as Hn. fold n in Hn.
  pose proof (wpadding_wf w 4 Hw ltac:(lia)) as Hp.
  apply writer_wf_small in Hw as Hl. pose proof usize_max_ge as Hu. unfold u32_max in Hu.
  unfold wp, write_wstring. rewrite type_bound_ceiling_id, remaining_capacity_wf by done.
  unfold bind at 1, lift at 1.
  pose proof (count_scalars_spec w (chars value) 0 mb _ _ Hw (chars_scalar value)
    ltac:(lia) ltac:(lia) eq_refl eq_refl) as Hcs. simpl in Hcs. fold n in Hcs.
  destruct (count_scalars _ _ _ _ _ _ _) as [c | e |]; [| | done].
  2: { destruct Hcs as [He Hno]. split_and!; [done.. |]. rewrite Z.add_0_l in Hno.
       intros [Hbo Hle]. apply Hno. split; [done | lia]. }
  destruct Hcs as [-> Hd]. rewrite Z.add_0_l in *.
  assert (Hbn : CdrReader.bound_ok mb n /\ n <= 67108864).
  { destruct Hd as [Hnil | [Hbo Hle]].
    - subst n. rewrite Hnil, blen_nil. split; [| lia]. destruct mb; simpl in *; lia || done.
    - split; [done |]. destruct (max_scalars_for_writer_spec w Hw) as [? | ?]; lia. }
  destruct Hbn as [Hbo Hn'].
  unfold checked_mul, checked_add_usize. zcmp. unfold ok_or, lift, bind at 1.
  rewrite checked_add_some by lia. unfold bind at 1.
  pose proof (wp_put_counted w n (concat (map (to_stream w 4) (chars value)))
    (write_slots (chars value)) (CdrReader.bound_ok mb n)
    (CdrError.length_overflow (blen (buf w)) 0 (capacity w - blen (buf w))) Hw Hbo) as Hc.
  unfold put_spec in Hc. rewrite blen_app, blen_to_stream, blen_slots in Hc. fold n in Hc.
  rewrite (Z.mul_comm n 4). apply Hc; [unfold u32_max; lia |].
  intros w' Hend. rewrite write_slots_run. unfold to_stream, little_endian. by rewrite Hend.
Qed.

Lemma write_sequence_length_spec w len mb :
  writer_wf w ->
  put_spec (write_sequence_length len mb) w
    (CdrReader.bound_ok mb len /\ len <= max_stream_bytes (wlimits w)) 4 (to_stream w 4 len).
Proof.
  intros Hw. unfold put_spec, wp, write_sequence_length.
  pose proof (over_bound_spec mb len) as Hob.
  destruct (match mb with Some t => if t <? len then Some t else None | None => None end)
    as [t |].
  { split_and!; [done.. |]. intros [[Hc _] _]. by apply Hob in Hc. }
  destruct Hob as [Hob _]. specialize (Hob eq_refl).
  destruct (Z.ltb_spec (max_stream_bytes (wlimits w)) len).
  { split_and!; [done.. |]. intros [[_ Hc] _]. lia. }
  pose proof (write_u32_spec w len Hw) as Hs. unfold put_spec, wp, write_u32 in Hs.
  destruct (bind _ _ w) as [[[] | e |] w']; [| | done].
  - destruct Hs as (_ & -> & Hle). done.
  - destruct Hs as (-> & He & Hno). split_and!; [done.. |]. intros [_ Hle]. by apply Hno.
Qed.

Lemma write_byte_sequence_spec w value mb :
  writer_wf w ->
  put_spec (write_byte_sequence value mb) w (CdrReader.bound_ok mb (blen value)) 4
    (to_stream w 4 (blen value) ++ value).
Proof.
  intros Hw. unfold put_spec, wp, write_byte_sequence.
  pose proof (blen_nonneg value) as Hv. apply writer_wf_small in Hw as Hl.
  pose proof (wpadding_wf w 4 Hw ltac:(lia)) as Hp.
  pose proof (over_bound_spec mb (blen value)) as Hob.
  destruct (match mb with Some t => if t <? blen value then Some t else None | None => None end)
    as [t |].
  { split_and!; [done.. |]. intros [Hc _]. by apply Hob in Hc. }
  destruct Hob as [Hob _]. specialize (Hob eq_refl).
  destruct (Z.ltb_spec (max_stream_bytes (wlimits w)) (blen value)).
  { split_and!; [done.. |]. rewrite blen_app, blen_to_stream. intros [_ Hc]. lia. }
  rewrite checked_add_usize_some by (unfold u32_max; lia).
  apply wp_put_counted; [done | done | unfold u32_max; lia |]. done.
Qed.

(** [new] yields a well-formed writer holding the canonical header. *)
Lemma new_wf e l w :
  limits_ok l -> new e l = Ok w ->
  writer_wf w /\ wendian w = e /\ wlimits w = l /\ blen (buf w) = 4 /\
  CdrReader.encapsulation (buf w) = Some e.
Proof.
  intros Hl. unfold new. rewrite limits_ok_validate by done. cbn [obind].
  destruct (Z.ltb_spec (writer_capacity l) HEADER_LENGTH) as [Hc | Hc]; [done |].
  intros [= <-]. unfold HEADER_LENGTH in Hc. simpl.
  assert (Hb : forall b : bool, bytes_ok (if b then [0; 1; 0; 0] else [0; 0; 0; 0]) /\
    blen (if b then [0; 1; 0; 0] else [0; 0; 0; 0]) = 4).
  { intros b. split; [| by destruct b].
    destruct b; repeat (apply bytes_ok_cons; split; [unfold is_byte; lia |]); constructor. }
  destruct (Hb (is_little e)) as [Hbo Hbl].
  split_and!; [| done | done | done | by destruct e].
  unfold writer_wf. simpl. split_and!; [done.. | lia | lia].
Qed.

Lemma new_default_ok e : exists w, new_default e = Ok w.
Proof. by eexists. Qed.

End Correct.
