(* ===== verification/CdrCodec.v ===== *)
(** * Round trips of CDR fields

    The contract between [CdrWriter] and [CdrReader]: what one writes at a
    position, the other reads back from that position, byte order and padding
    included, whatever follows in the stream.  [round_trip] states it for one
    write and one read; the lemmas give it for every field type and close it
    under sequencing, so that a codec written field by field inherits it. *)

From S2P Require Import Prelude Utf8 CdrCore.
From S2P Require CdrReader CdrWriter.
Import CdrWriter CdrReader.

Section RoundTrip.
Context `{Target}.

(** [w'] is [w] with more bytes. *)
Definition extends (w w' : CdrWriter) : Prop :=
  writer_wf w' /\ exists s, w' = set_buf (buf w ++ s) w.

(** [r] reads, in [w]'s byte order, a stream that begins with what [w'] wrote,
    and stands where [w] stood. *)
Definition reads_from (w w' : CdrWriter) (r : CdrReader) : Prop :=
  reader_wf r /\ header_endian (header r) = wendian w /\
  offset r = blen (buf w) /\ exists tail, bytes_of r = buf w' ++ tail.

(** [L] is what the reader's limits must admit. *)
Definition round_trip {A} (L : CdrLimits -> Prop) (put : SM CdrWriter CdrError.t unit)
    (get : SM CdrReader CdrError.t A) (a : A) : Prop :=
  forall w, writer_wf w ->
    wp put
      (fun _ w' => extends w w' /\
         forall r, L (limits r) -> reads_from w w' r ->
           get r = (Ok a, set_offset (blen (buf w')) r))
      (fun _ _ => True) w.

Lemma extends_refl w : writer_wf w -> extends w w.
Proof. intros. split; [done |]. exists []. rewrite app_nil_r. by destruct w. Qed.

Lemma extends_trans w1 w2 w3 : extends w1 w2 -> extends w2 w3 -> extends w1 w3.
Proof.
  intros [H1 [s1 ->]] [H2 [s2 ->]]. split; [done |]. exists (s1 ++ s2). simpl.
  unfold set_buf. simpl. by rewrite app_assoc.
Qed.

Lemma reads_from_first w1 w2 w3 r :
  extends w2 w3 -> reads_from w1 w3 r -> reads_from w1 w2 r.
Proof.
  intros [_ [s ->]] (Hr & He & Ho & tail & Hb). split_and!; [done.. |].
  exists (s ++ tail). simpl in Hb. by rewrite Hb, <- app_assoc.
Qed.

Lemma reads_from_rest w1 w2 w3 r :
  extends w1 w2 -> extends w2 w3 -> reads_from w1 w3 r ->
  reads_from w2 w3 (set_offset (blen (buf w2)) r).
Proof.
  intros [_ [s ->]] [_ [s' ->]] (Hr & He & Ho & tail & Hb). simpl in *.
  split_and!; [| done | done | by exists tail].
  apply reader_wf_advance; [done |]. rewrite Ho, Hb, !blen_app.
  pose proof (blen_nonneg s). pose proof (blen_nonneg s'). pose proof (blen_nonneg tail). lia.
Qed.

Lemma round_trip_ret {A} L (a : A) : round_trip L (ret tt) (ret a) a.
Proof.
  intros w Hw. apply wp_ret. split; [by apply extends_refl |].
  intros r _ (_ & _ & Ho & _). unfold ret. by rewrite <- Ho, set_offset_same.
Qed.

(** Writing one after the other is reading one after the other. *)
Lemma round_trip_bind {A B} (L1 L2 : CdrLimits -> Prop) m1 m2
    (g1 : SM CdrReader CdrError.t A) (k : A -> SM CdrReader CdrError.t B) a b :
  round_trip L1 m1 g1 a -> round_trip L2 m2 (k a) b ->
  round_trip (fun l => L1 l /\ L2 l) (m1 ;;~ m2) (bind g1 k) b.
Proof.
  intros H1 H2 w Hw. apply wp_bind. eapply wp_mono; [by apply H1 | | done].
  intros [] w1 [He1 Hr1]. eapply wp_mono; [apply H2, He1 | | done].
  intros [] w2 [He2 Hr2]. split; [by eapply extends_trans |].
  intros r [HL1 HL2] Hrf. unfold bind.
  rewrite Hr1; [| done | by eapply reads_from_first].
  rewrite Hr2; [| done | by eapply reads_from_rest]. done.
Qed.

Lemma round_trip_weaken {A} (L L' : CdrLimits -> Prop) m (g : SM CdrReader CdrError.t A) a :
  (forall l, limits_ok l -> L' l -> L l) -> round_trip L m g a -> round_trip L' m g a.
Proof.
  intros HL Hm w Hw. eapply wp_mono; [by apply Hm | | done].
  intros [] w' [He Hr]. split; [done |]. intros r Hl Hrf. apply Hr; [| done].
  apply HL; [apply Hrf | done].
Qed.

(** Reading with a conversion of the value written. *)
Lemma round_trip_map {A B} L m (g : SM CdrReader CdrError.t A) (f : A -> B) a :
  round_trip L m g a -> round_trip L m (x <~ g ;; ret (f x)) (f a).
Proof.
  intros Hm w Hw. eapply wp_mono; [by apply Hm | | done].
  intros [] w' [He Hr]. split; [done |]. intros r Hl Hrf.
  unfold bind, ret. by rewrite Hr.
Qed.

(** ** Field level

    A field writer and a field reader round trip when the written body
    satisfies the reader's wire shape. *)
Lemma round_trip_field {A} (L : CdrLimits -> Prop) m (g : SM CdrReader CdrError.t A) a
    (ok : CdrWriter -> Prop) align (body : CdrWriter -> bytes) (P : CdrReader -> A -> Z -> Prop) :
  1 <= align <= 8 ->
  (forall w, writer_wf w -> put_spec m w (ok w) align (body w)) ->
  (forall r, reader_wf r -> field_spec g r (P r)) ->
  (forall w, bytes_ok (body w)) ->
  (forall r a a' o o', P r a o -> P r a' o' -> a = a' /\ o = o') ->
  (forall w r o, writer_wf w -> reader_wf r -> ok w -> L (limits r) ->
     header_endian (header r) = wendian w ->
     o = field_start_of r align -> 4 <= o -> o + blen (body w) <= blen (bytes_of r) ->
     sub_list (bytes_of r) o (blen (body w)) = body w ->
     P r a (o + blen (body w))) ->
  round_trip L m g a.
Proof.
  intros Hal Hput Hget Hbok Hfun Hwire w Hw.
  pose proof (wpadding_wf w align Hw Hal) as Hp.
  pose proof (writer_wf_small w Hw) as Hs.
  eapply wp_mono; [by apply Hput | | done]. intros [] w' (Hok & -> & Hle).
  set (pad := padding_for (blen (buf w)) align) in *. split.
  { destruct Hw as (Hl & Hc & Hb & Hn). split; [| by eexists].
    unfold writer_wf. simpl. split_and!; [done | done | | |].
    - rewrite !bytes_ok_app. split_and!; [done | apply bytes_ok_zeros | apply Hbok].
    - rewrite !blen_app. pose proof (blen_nonneg (zeros pad)). pose proof (blen_nonneg (body w)). lia.
    - rewrite !blen_app, blen_zeros by lia. lia. }
  intros r HL (Hr & He & Ho & tail & Hb). simpl in Hb.
  set (o := blen (buf w) + pad).
  assert (Hfs : field_start_of r align = o) by (unfold field_start_of; by rewrite Ho).
  assert (Hbl : blen (bytes_of r) = o + blen (body w) + blen tail).
  { rewrite Hb, !blen_app, blen_zeros by lia. lia. }
  pose proof (blen_nonneg tail). pose proof (blen_nonneg (body w)).
  assert (HP : P r a (o + blen (body w))).
  { apply Hwire; [done.. | lia | lia |]. rewrite Hb.
    rewrite <- !app_assoc, (app_assoc (buf w)).
    assert (o = blen (buf w ++ zeros pad)) as -> by (rewrite blen_app, blen_zeros; lia).
    by apply sub_list_mid. }
  pose proof (Hget r Hr) as Hg. unfold field_spec, wp in Hg.
  destruct (g r) as [[a' | e |] r']; [| by destruct Hg as (_ & _ & Hno); apply Hno in HP | done].
  destruct Hg as [Ha' Hr']. destruct (Hfun _ _ _ _ _ HP Ha') as [-> Ho'].
  rewrite Hr', <- Ho'. do 2 f_equal.
  simpl. rewrite !blen_app, blen_zeros by lia. lia.
Qed.

(** Reading the bytes of an integer in the same byte order gives it back. *)
Lemma of_stream_to_stream r w n v :
  header_endian (header r) = wendian w -> 0 <= v < 256 ^ Z.of_nat n ->
  of_stream r (to_stream w n v) = v.
Proof.
  intros He Hv. unfold of_stream, to_stream, CdrReader.little_endian, CdrWriter.little_endian.
  rewrite He. case_match; [by apply of_le_to_le | by apply of_be_to_be].
Qed.

Lemma bytes_ok_to_stream w n v : bytes_ok (to_stream w n v).
Proof. unfold to_stream. case_match; [apply bytes_ok_to_le | apply bytes_ok_to_be]. Qed.

Lemma round_trip_span n (m : SM CdrWriter CdrError.t unit) (g : SM CdrReader CdrError.t Z) v :
  (1 <= n <= 8)%nat -> 0 <= v < 256 ^ Z.of_nat n ->
  (forall w, writer_wf w -> put_spec m w True (Z.of_nat n) (to_stream w n v)) ->
  (forall r, reader_wf r -> field_spec g r (uint_at r (Z.of_nat n))) ->
  round_trip (fun _ => True) m g v.
Proof.
  intros Hn Hv Hput Hget.
  apply (round_trip_field _ _ _ _ (fun _ => True) (Z.of_nat n) (fun w => to_stream w n v)
           (fun r => uint_at r (Z.of_nat n))); [lia | done | done | | |].
  - intros. apply bytes_ok_to_stream.
  - intros r a a' o o'. apply uint_at_fun.
  - intros w r o _ _ _ _ He -> _ Hle Hs. rewrite blen_to_stream in *.
    exists (to_stream w n v). split; [by split_and! |]. by rewrite of_stream_to_stream.
Qed.

Lemma round_trip_u8 v : is_unsigned 8 v -> round_trip (fun _ => True) (write_u8 v) read_u8 v.
Proof.
  intros Hv. apply (round_trip_span 1); [lia | done | | intros; by apply read_u8_spec].
  intros w Hw. replace (to_stream w 1 v) with [v]; [by apply write_u8_spec |].
  unfold to_stream, to_be. unfold is_unsigned in Hv. change (2 ^ 8) with 256 in Hv.
  case_match; cbn; by rewrite Z.mod_small.
Qed.

Lemma round_trip_u16 v : is_unsigned 16 v -> round_trip (fun _ => True) (write_u16 v) read_u16 v.
Proof.
  intros Hv. apply (round_trip_span 2); [lia | done | | intros; by apply read_u16_spec].
  intros w Hw. apply (write_span_spec w 2); [done | lia].
Qed.

Lemma round_trip_u32 v : is_unsigned 32 v -> round_trip (fun _ => True) (write_u32 v) read_u32 v.
Proof.
  intros Hv. apply (round_trip_span 4); [lia | done | | intros; by apply read_u32_spec].
  intros w Hw. by apply write_u32_spec.
Qed.

Lemma round_trip_u64 v : is_unsigned 64 v -> round_trip (fun _ => True) (write_u64 v) read_u64 v.
Proof.
  intros Hv. apply (round_trip_span 8); [lia | done | | intros; by apply read_u64_spec].
  intros w Hw. apply (write_span_spec w 8); [done | lia].
Qed.

Lemma round_trip_bool b : round_trip (fun _ => True) (write_bool b) read_bool b.
Proof.
  apply (round_trip_field _ _ _ _ (fun _ => True) 1 (fun w => [if b then 1 else 0])
    (fun r b o => exists v, uint_at r 1 v o /\ (v = 0 /\ b = false \/ v = 1 /\ b = true)));
    [lia | | intros; by apply read_bool_spec | | |].
  - intros w Hw. by apply write_u8_spec.
  - intros w. apply bytes_ok_cons. split; [unfold is_byte; destruct b; lia | constructor].
  - intros r a a' o o' (v & Hv & Hb) (v' & Hv' & Hb').
    destruct (uint_at_fun _ _ _ _ _ _ Hv Hv') as [<- <-]. split; [| done].
    destruct Hb as [[? ->] | [? ->]], Hb' as [[? ->] | [? ->]]; done || lia.
  - intros w r o _ _ _ _ _ -> _ Hle Hs. change (blen [_]) with 1 in *.
    exists (if b then 1 else 0). split; [| destruct b; auto].
    exists [if b then 1 else 0]. split; [by split_and! |]. unfold of_stream, of_be.
    destruct b; cbn; by case_match.
Qed.

(** Signed integers travel as their two's complement. *)
Lemma round_trip_signed w v m (g : SM CdrReader CdrError.t Z) :
  1 <= w -> is_signed w v ->
  round_trip (fun _ => True) m g (as_unsigned w v) ->
  round_trip (fun _ => True) m (x <~ g ;; ret (as_signed w x)) v.
Proof.
  intros Hw Hv Hm. rewrite <- (as_signed_unsigned w v Hw Hv). by apply round_trip_map.
Qed.

Lemma round_trip_i8 v : is_signed 8 v -> round_trip (fun _ => True) (write_i8 v) read_i8 v.
Proof. intros. apply round_trip_signed, round_trip_u8, as_unsigned_range; done. Qed.

Lemma round_trip_i16 v : is_signed 16 v -> round_trip (fun _ => True) (write_i16 v) read_i16 v.
Proof. intros. apply round_trip_signed, round_trip_u16, as_unsigned_range; done. Qed.

Lemma round_trip_i32 v : is_signed 32 v -> round_trip (fun _ => True) (write_i32 v) read_i32 v.
Proof. intros. apply round_trip_signed, round_trip_u32, as_unsigned_range; done. Qed.

Lemma round_trip_i64 v : is_signed 64 v -> round_trip (fun _ => True) (write_i64 v) read_i64 v.
Proof. intros. apply round_trip_signed, round_trip_u64, as_unsigned_range; done. Qed.

Lemma string_at_fun r mb a a' o o' :
  string_at r mb a o -> string_at r mb a' o' -> a = a' /\ o = o'.
Proof.
  intros (n & o1 & Hn & _ & _ & _ & -> & _ & Ha & _) (n' & o1' & Hn' & _ & _ & _ & -> & _ & Ha' & _).
  destruct (uint_at_fun _ _ _ _ _ _ Hn Hn') as [<- <-]. rewrite Ha in Ha'.
  by apply app_inj_tail in Ha' as [<- _].
Qed.

(** The length word at the head of a counted field. *)
Lemma uint_at_head w r v (rest : bytes) :
  header_endian (header r) = wendian w -> 0 <= v < 256 ^ 4 ->
  4 <= field_start_of r 4 ->
  field_start_of r 4 + blen (to_stream w 4 v ++ rest) <= blen (bytes_of r) ->
  sub_list (bytes_of r) (field_start_of r 4) (blen (to_stream w 4 v ++ rest))
    = to_stream w 4 v ++ rest ->
  uint_at r 4 v (field_start_of r 4 + 4) /\
  sub_list (bytes_of r) (field_start_of r 4 + 4) (blen rest) = rest.
Proof.
  intros He Hv H4 Hle Hs. apply sub_list_app_inv in Hs as [Hs1 Hs2]; [| lia | done].
  rewrite blen_app in Hle. rewrite blen_to_stream in *. pose proof (blen_nonneg rest).
  split; [| done]. exists (to_stream w 4 v). split; [split_and!; [done | done | lia] |].
  by rewrite of_stream_to_stream.
Qed.

Lemma round_trip_string s mb :
  utf8_valid s = true -> bound_u32 mb ->
  round_trip (fun l => 2 * blen s <= max_temporary_allocation l)
    (write_string s mb) (read_string mb) s.
Proof.
  intros Hs Hb.
  apply (round_trip_field _ _ _ _ (fun _ => bound_ok mb (blen s)) 4 (fun w => string_body w s)
    (fun r => string_at r mb)); [lia | | intros; by apply read_string_spec | | |].
  - intros w Hw. by apply write_string_spec.
  - intros w. unfold string_body. rewrite !bytes_ok_app. split_and!;
      [apply bytes_ok_to_stream | by apply utf8_valid_bytes | by repeat constructor].
  - intros r a a' o o'. apply string_at_fun.
  - intros w r o Hw Hr Hok HL He -> H4 Hle Hsub. pose proof (blen_nonneg s).
    pose proof (reader_wf_small r Hr). rewrite blen_string_body in Hle.
    apply uint_at_head in Hsub as [Hn Hrest];
      [| done | lia | done | fold (string_body w s); rewrite blen_string_body; lia].
    exists (blen s + 1), (field_start_of r 4 + 4). rewrite blen_string_body.
    replace (blen s + 1 - 1) with (blen s) by lia.
    rewrite blen_app in Hrest. change (blen [0]) with 1 in Hrest.
    split_and!; [done | lia | done | lia | lia | lia | done | done].
Qed.

Lemma round_trip_sequence_length n mb :
  is_unsigned 32 n -> 
  round_trip (fun l => n <= max_stream_bytes l)
    (write_sequence_length n mb) (read_sequence_length mb) n.
Proof.
  intros Hn.
  apply (round_trip_field _ _ _ _ (fun w => bound_ok mb n /\ n <= max_stream_bytes (wlimits w)) 4
    (fun w => to_stream w 4 n) (fun r => sequence_length_at r mb));
    [lia | | intros; by apply read_sequence_length_spec | | |].
  - intros w Hw. by apply write_sequence_length_spec.
  - intros. apply bytes_ok_to_stream.
  - intros r a a' o o' [Ha _] [Ha' _]. by apply (uint_at_fun r 4).
  - intros w r o _ _ [Hok _] HL He -> H4 Hle Hsub. rewrite blen_to_stream in *.
    split_and!; [| done | done]. exists (to_stream w 4 n). split; [by split_and! |].
    by rewrite of_stream_to_stream.
Qed.

Lemma round_trip_byte_sequence s mb :
  bytes_ok s ->
  round_trip (fun _ => True) (write_byte_sequence s mb) (read_byte_sequence mb) s.
Proof.
  intros Hs.
  apply (round_trip_field _ _ _ _ (fun _ => bound_ok mb (blen s)) 4
    (fun w => to_stream w 4 (blen s) ++ s) (fun r => byte_sequence_at r mb));
    [lia | | intros; by apply read_byte_sequence_spec | | |].
  - intros w Hw. by apply write_byte_sequence_spec.
  - intros w. apply bytes_ok_app. split; [apply bytes_ok_to_stream | done].
  - intros r a a' o o' (n & o1 & Hn & _ & -> & _ & ->) (n' & o1' & Hn' & _ & -> & _ & ->).
    by destruct (uint_at_fun _ _ _ _ _ _ Hn Hn') as [<- <-].
  - intros w r o Hw Hr Hok HL He -> H4 Hle Hsub. pose proof (blen_nonneg s).
    pose proof (reader_wf_small r Hr). assert (Hl := Hle). rewrite blen_app, blen_to_stream in Hl.
    apply uint_at_head in Hsub as [Hn Hrest]; [| done | lia | done | done].
    exists (blen s), (field_start_of r 4 + 4). rewrite blen_app, blen_to_stream.
    split_and!; [done | done | lia | lia | done].
Qed.

Lemma slots_at_stream w r cs o k :
  header_endian (header r) = wendian w -> 0 <= o -> 0 <= k ->
  Forall (fun c => is_scalar c = true) cs ->
  o + 4 * (k + blen cs) <= blen (bytes_of r) ->
  sub_list (bytes_of r) (o + 4 * k) (4 * blen cs) = concat (map (to_stream w 4) cs) ->
  map (fun k => of_stream r (sub_list (bytes_of r) (o + 4 * k) 4)) (seqZ k (blen cs)) = cs.
Proof.
  intros He Ho Hk Hcs. revert k Hk. induction Hcs as [|c cs Hc Hcs IH]; intros k Hk Hle Hs; [done |].
  rewrite blen_cons in *. pose proof (blen_nonneg cs). cbn [map concat] in Hs.
  replace (4 * (1 + blen cs)) with (blen (to_stream w 4 c ++ concat (map (to_stream w 4) cs))) in Hs
    by (rewrite blen_app, blen_slots, blen_to_stream; lia).
  apply sub_list_app_inv in Hs as [Hs1 Hs2]; [| lia |];
    [| rewrite blen_app, blen_slots, blen_to_stream; lia].
  rewrite blen_slots in Hs2. rewrite blen_to_stream in *.
  replace (1 + blen cs) with (Z.succ (blen cs)) by lia. rewrite slots_at_cons by lia. f_equal.
  - change (Z.of_nat 4) with 4 in Hs1. rewrite Hs1. apply of_stream_to_stream; [done |].
    apply is_scalar_spec in Hc. lia.
  - apply IH; [lia | lia |]. rewrite <- Hs2. f_equal; lia.
Qed.

Lemma round_trip_wstring s mb :
  utf8_valid s = true -> bound_u32 mb ->
  round_trip (fun l => 4 * blen (chars s) <= max_temporary_allocation l)
    (write_wstring s mb) (read_wstring mb) s.
Proof.
  intros Hs Hb.
  apply (round_trip_field _ _ _ _ (fun _ => bound_ok mb (blen (chars s))) 4
    (fun w => wstring_body w s) (fun r => wstring_at r mb));
    [lia | | intros; by apply read_wstring_spec | | |].
  - intros w Hw. by apply write_wstring_spec.
  - intros w. unfold wstring_body. apply bytes_ok_app. split; [apply bytes_ok_to_stream |].
    generalize (chars s). induction l as [|c cs IH]; [constructor |]. cbn [map concat].
    apply bytes_ok_app. split; [apply bytes_ok_to_stream | done].
  - intros r a a' o o' (n & o1 & Hn & _ & _ & -> & _ & _ & ->) (n' & o1' & Hn' & _ & _ & -> & _ & _ & ->).
    by destruct (uint_at_fun _ _ _ _ _ _ Hn Hn') as [<- <-].
  - intros w r o Hw Hr Hok HL He -> H4 Hle Hsub. pose proof (blen_nonneg (chars s)).
    pose proof (reader_wf_small r Hr). unfold wstring_body in *. assert (Hl := Hle).
    rewrite blen_app, blen_to_stream, blen_slots in Hl.
    apply uint_at_head in Hsub as [Hn Hrest]; [| done | lia | done | done].
    rewrite blen_slots in Hrest.
    assert (Hsl : slots_at r (field_start_of r 4 + 4) (blen (chars s)) = chars s).
    { unfold slots_at. apply (slots_at_stream w); [done | lia | lia | apply chars_scalar | lia |].
      by rewrite Z.mul_0_r, Z.add_0_r. }
    exists (blen (chars s)), (field_start_of r 4 + 4). rewrite Hsl, blen_app, blen_to_stream, blen_slots.
    split_and!; [done | done | lia | lia | lia | apply chars_scalar | by rewrite utf8_valid_chars].
Qed.

(** A nested aggregate only needs the depth budget on both sides. *)
Lemma enter_nested_wp {B} w (d : Z) (k : Z -> SM CdrWriter CdrError.t B) Q X :
  0 <= d < u32_max ->
  (d + 1 <= max_nesting_depth (wlimits w) -> wp (k (d + 1)) Q X w) ->
  (max_nesting_depth (wlimits w) < d + 1 ->
     X (CdrError.bounds_exceeded (blen (buf w)) (d + 1) (max_nesting_depth (wlimits w))) w) ->
  wp (bind (CdrWriter.enter_nested d) k) Q X w.
Proof.
  intros Hd HQ HX. pose proof usize_max_ge. unfold wp, bind, CdrWriter.enter_nested.
  rewrite usize_add_small by lia.
  destruct (Z.ltb_spec (max_nesting_depth (wlimits w)) (d + 1)); [by apply HX | by apply HQ].
Qed.

Lemma round_trip_nested {B} L (m : Z -> SM CdrWriter CdrError.t unit)
    (k : Z -> SM CdrReader CdrError.t B) b d :
  0 <= d < u32_max -> round_trip L (m (d + 1)) (k (d + 1)) b ->
  round_trip (fun l => d + 1 <= max_nesting_depth l /\ L l)
    (bind (CdrWriter.enter_nested d) m) (bind (CdrReader.enter_nested d) k) b.
Proof.
  intros Hd Hm w Hw. apply enter_nested_wp; [done | | done]. intros _.
  eapply wp_mono; [by apply Hm | | done].
  intros [] w' [He Hr]. split; [done |]. intros r [Hn HL] Hrf.
  pose proof usize_max_ge. unfold bind, CdrReader.enter_nested.
  rewrite usize_add_small by lia. zcmp. by apply Hr.
Qed.

Lemma encapsulation_app bs k e : encapsulation bs = Some e -> encapsulation (bs ++ k) = Some e.
Proof. unfold encapsulation. destruct bs as [|? [|? [|? [|? ?]]]]; simpl; try by repeat case_match. Qed.

(** A whole buffer: what a fresh writer produces, [open] accepts and the reader
    reads back to the end. *)
Lemma round_trip_buffer {A} L l e put (get : SM CdrReader CdrError.t A) a w w' :
  limits_ok l -> L l -> round_trip L put get a ->
  CdrWriter.new e l = Ok w -> put w = (Ok tt, w') ->
  exists r, CdrReader.open (buf w') l = Ok r /\ reader_wf r /\
    get r = (Ok a, set_offset (blen (buf w')) r) /\ bytes_of r = buf w'.
Proof.
  intros Hl HL Hrt Hnew Hput. destruct (new_wf _ _ _ Hl Hnew) as (Hw & He & Hlim & H4 & Henc).
  apply (wp_ok _ _ _ _ _ _ Hput) in Hrt as [[Hw' [s Hs]] Hr]; [| done].
  assert (wlimits w' = l /\ capacity w' = writer_capacity l) as [Hlim' Hcap].
  { rewrite Hs. simpl. destruct Hw as (_ & Hc & _). by rewrite Hc, Hlim. }
  pose proof (open_spec (buf w') l Hl) as Ho. destruct Hw' as (_ & _ & Hb & Hlen).
  assert (blen (buf w') <= max_stream_bytes l) as Hmax
    by (unfold writer_capacity in Hcap; lia).
  specialize (Ho Hb).
  assert (encapsulation (buf w') = Some e) as Henc'
    by (rewrite Hs; by apply encapsulation_app).
  destruct (CdrReader.open (buf w') l) as [r | er |]; [| | done].
  2: { destruct Ho as [[? | ?] _]; [congruence | lia]. }
  destruct Ho as (Hen & _ & Hbs & Hoff & Hli & Hrwf). exists r. split_and!; [done.. | | done].
  apply Hr; [by rewrite Hli |]. split_and!; [done | congruence | congruence |].
  exists []. by rewrite app_nil_r.
Qed.

(** A reader at the end of its input is complete, whatever tail is declared. *)
Lemma zero_tail_at_end r n :
  reader_wf r -> offset r = blen (bytes_of r) -> n <= max_stream_bytes (limits r) ->
  ensure_complete_with_zero_tail n r = (Ok tt, r).
Proof.
  intros Hr Ho Hn. unfold ensure_complete_with_zero_tail. rewrite remaining_wf by done.
  zcmp. done.
Qed.

End RoundTrip.

(** The round trips of the fields, and the rules that compose them. *)
Create HintDb cdr.
#[export] Hint Resolve round_trip_u8 round_trip_u16 round_trip_u32 round_trip_u64
  round_trip_bool round_trip_i8 round_trip_i16 round_trip_i32 round_trip_i64
  round_trip_string round_trip_wstring round_trip_sequence_length
  round_trip_byte_sequence : cdr.

(** Work through a codec in step with its writer; a lemma of [cdr] closes each
    field, with the value's range taken from the context. *)
Ltac rt_field := solve [eauto with cdr | eapply round_trip_map; eauto with cdr].
Ltac rt :=
  repeat match goal with
  | |- round_trip _ (bind (CdrWriter.enter_nested _) _) _ _ =>
      eapply round_trip_nested; [unfold u32_max; lia |]; cbv beta
  | |- round_trip _ (bind _ _) _ _ => eapply round_trip_bind; [rt_field |]; cbv beta
  | |- round_trip _ (ret _) _ _ => apply round_trip_ret
  end.
