(* ===== verification/PointCloud.v ===== *)
(** * [sensor_msgs/msg/PointCloud2]

    [rclweb/src/cdr/point_cloud2.rs]: the codec written field by field over
    the CDR reader and writer, the entry points over whole buffers, and the
    flat metadata record handed to the host. *)

From S2P Require Import Prelude Utf8 CdrCore.
From S2P Require CdrReader CdrWriter CdrCodec.
Import CdrWriter CdrReader CdrCodec.

Record PointField := {
  pf_name : bytes;
  pf_offset : Z;
  pf_datatype : Z;
  pf_count : Z
}.

Record Header := {
  stamp_sec : Z;
  stamp_nanosec : Z;
  frame_id : bytes
}.

Record PointCloud2View := {
  pc_header : Header;
  height : Z;
  width : Z;
  fields : list PointField;
  is_bigendian : bool;
  point_step : Z;
  row_step : Z;
  data : bytes;
  is_dense : bool
}.

Section Codec.
Context `{Target}.

Abbreviation R := (SM CdrReader CdrError.t).
Abbreviation W := (SM CdrWriter CdrError.t).

Definition decode_header (parent : CdrNesting) : R Header :=
  current <~ CdrReader.enter_nested parent ;;
  _time <~ CdrReader.enter_nested current ;;
  sec <~ read_i32 ;;
  nanosec <~ read_u32 ;;
  frame <~ read_string None ;;
  ret {| stamp_sec := sec; stamp_nanosec := nanosec; frame_id := frame |}.

Definition encode_header (h : Header) (parent : CdrNesting) : W unit :=
  current <~ CdrWriter.enter_nested parent ;;
  _time <~ CdrWriter.enter_nested current ;;
  write_i32 (stamp_sec h) ;;~
  write_u32 (stamp_nanosec h) ;;~
  write_string (frame_id h) None.

Definition decode_point_field : R PointField :=
  name <~ read_string None ;;
  off <~ read_u32 ;;
  datatype <~ read_u8 ;;
  count <~ read_u32 ;;
  ret {| pf_name := name; pf_offset := off; pf_datatype := datatype; pf_count := count |}.

Definition encode_point_field (f : PointField) : W unit :=
  write_string (pf_name f) None ;;~
  write_u32 (pf_offset f) ;;~
  write_u8 (pf_datatype f) ;;~
  write_u32 (pf_count f).

(** [for _ in 0..field_count { enter_nested; fields.push(..) }]. *)
Fixpoint decode_fields (n : nat) (parent : CdrNesting) (acc : list PointField)
    : R (list PointField) :=
  match n with
  | O => ret acc
  | S n' =>
      _nest <~ CdrReader.enter_nested parent ;;
      f <~ decode_point_field ;;
      decode_fields n' parent (acc ++ [f])
  end.

Fixpoint encode_fields (fs : list PointField) (parent : CdrNesting) : W unit :=
  match fs with
  | [] => ret tt
  | f :: fs' =>
      _nest <~ CdrWriter.enter_nested parent ;;
      encode_point_field f ;;~
      encode_fields fs' parent
  end.

Definition decode_point_cloud2_nested (parent : CdrNesting) : R PointCloud2View :=
  h <~ decode_header parent ;;
  ht <~ read_u32 ;;
  wd <~ read_u32 ;;
  field_count <~ read_sequence_length None ;;
  fs <~ decode_fields (Z.to_nat field_count) parent [] ;;
  be <~ read_bool ;;
  ps <~ read_u32 ;;
  rs <~ read_u32 ;;
  d <~ read_byte_sequence None ;;
  dense <~ read_bool ;;
  ret {| pc_header := h; height := ht; width := wd; fields := fs; is_bigendian := be;
         point_step := ps; row_step := rs; data := d; is_dense := dense |}.

Definition decode_point_cloud2 : R PointCloud2View := decode_point_cloud2_nested nesting_root.

Definition encode_point_cloud2_nested (view : PointCloud2View) (parent : CdrNesting) : W unit :=
  encode_header (pc_header view) parent ;;~
  write_u32 (height view) ;;~
  write_u32 (width view) ;;~
  write_sequence_length (as_unsigned 32 (blen (fields view))) None ;;~
  encode_fields (fields view) parent ;;~
  write_bool (is_bigendian view) ;;~
  write_u32 (point_step view) ;;~
  write_u32 (row_step view) ;;~
  write_byte_sequence (data view) None ;;~
  write_bool (is_dense view).

Definition encode_point_cloud2 (view : PointCloud2View) : W unit :=
  encode_point_cloud2_nested view nesting_root.

Definition decode_point_cloud2_le (bs : bytes) : outcome CdrError.t PointCloud2View :=
  reader <-- open_default bs ;;
  match decode_point_cloud2 reader with
  | (Ok view, reader') =>
      match ensure_complete_with_zero_tail 0 reader' with
      | (Ok _, _) => Ok view
      | (Err e, _) => Err e
      | (Panic, _) => Panic
      end
  | (Err e, _) => Err e
  | (Panic, _) => Panic
  end.

Definition encode_point_cloud2_le (view : PointCloud2View) : outcome CdrError.t bytes :=
  writer <-- new_default Little ;;
  match encode_point_cloud2 view writer with
  | (Ok _, writer') => Ok (into_bytes writer')
  | (Err e, _) => Err e
  | (Panic, _) => Panic
  end.

Definition encode_point_cloud2_from_sdk_meta (view : PointCloud2View)
    : outcome CdrError.t bytes :=
  expected <-- ok_or (checked_mul usize_max (row_step view) (height view))
                 (CdrError.length_overflow 0 (row_step view) (height view)) ;;
  if negb (blen (data view) =? expected) then
    Err (CdrError.bounds_exceeded 0 expected (blen (data view)))
  else encode_point_cloud2_le view.

(** ** Host metadata *)

Definition point_cloud2_host_meta_len (view : PointCloud2View) : Z :=
  usize_add (usize_add 42 (blen (frame_id (pc_header view))))
    (fold_left (fun s f => usize_add s (usize_add 11 (blen (pf_name f)))) (fields view) 0).

(** [out[i..j].copy_from_slice(src)]: panics out of range. *)
Definition copy_into (out : bytes) (i : Z) (src : bytes) : outcome unit bytes :=
  if (0 <=? i) && (i + blen src <=? blen out) then
    Ok (take (Z.to_nat i) out ++ src ++ drop (Z.to_nat (i + blen src)) out)
  else Panic.

Fixpoint write_meta_fields (fs : list PointField) (out : bytes) (o : Z)
    : outcome unit (Z * bytes) :=
  match fs with
  | [] => Ok (o, out)
  | f :: fs' =>
      let name := pf_name f in
      name_len <-- ok_or (try_from u16_max (blen name)) tt ;;
      out <-- copy_into out o (to_le 2 name_len) ;;
      let o := usize_add o 2 in
      out <-- copy_into out o name ;;
      let o := usize_add o (blen name) in
      out <-- copy_into out o (to_le 4 (pf_offset f)) ;;
      let o := usize_add o 4 in
      out <-- copy_into out o [pf_datatype f] ;;
      let o := usize_add o 1 in
      out <-- copy_into out o (to_le 4 (pf_count f)) ;;
      let o := usize_add o 4 in
      write_meta_fields fs' out o
  end.

(** [Err tt] is the source's [None]. *)
Definition write_point_cloud2_host_meta (view : PointCloud2View) (data_offset : Z)
    (out : bytes) : outcome unit (Z * bytes) :=
  let need := point_cloud2_host_meta_len view in
  if blen out <? need then Err tt
  else
    out <-- copy_into out 0 (to_le 4 (height view)) ;;
    out <-- copy_into out 4 (to_le 4 (width view)) ;;
    out <-- copy_into out 8 (to_le 4 (point_step view)) ;;
    out <-- copy_into out 12 (to_le 4 (row_step view)) ;;
    out <-- copy_into out 16 (to_le 4 data_offset) ;;
    out <-- copy_into out 20 (to_le 4 (as_unsigned 32 (blen (data view)))) ;;
    out <-- copy_into out 24 [if is_bigendian view then 1 else 0] ;;
    out <-- copy_into out 25 [if is_dense view then 1 else 0] ;;
    out <-- copy_into out 26 [0] ;;
    out <-- copy_into out 27 [0] ;;
    out <-- copy_into out 28 (to_le 4 (as_unsigned 32 (blen (fields view)))) ;;
    out <-- copy_into out 32 (to_le 4 (as_unsigned 32 (stamp_sec (pc_header view)))) ;;
    out <-- copy_into out 36 (to_le 4 (stamp_nanosec (pc_header view))) ;;
    let frame := frame_id (pc_header view) in
    frame_len <-- ok_or (try_from u16_max (blen frame)) tt ;;
    out <-- copy_into out 40 (to_le 2 frame_len) ;;
    out <-- copy_into out 42 frame ;;
    let o := usize_add 42 (blen frame) in
    write_meta_fields (fields view) out o.

End Codec.

(** ** Correctness *)

Section Correct.
Context `{Target}.

(** A text the string codec carries: UTF-8, within the reader's budget. *)
Definition text_ok (s : bytes) : Prop := utf8_valid s = true /\ 2 * blen s <= 67108864.

Definition point_field_ok (f : PointField) : Prop :=
  text_ok (pf_name f) /\ is_unsigned 32 (pf_offset f) /\ is_unsigned 8 (pf_datatype f) /\
  is_unsigned 32 (pf_count f).

Definition view_ok (v : PointCloud2View) : Prop :=
  is_signed 32 (stamp_sec (pc_header v)) /\ is_unsigned 32 (stamp_nanosec (pc_header v)) /\
  text_ok (frame_id (pc_header v)) /\
  is_unsigned 32 (height v) /\ is_unsigned 32 (width v) /\
  Forall point_field_ok (fields v) /\ blen (fields v) <= u32_max /\
  is_unsigned 32 (point_step v) /\ is_unsigned 32 (row_step v) /\ bytes_ok (data v).

(** Reader limits a PointCloud2 with texts [ts] and [n] fields needs. *)
Definition default_budget (n : Z) (l : CdrLimits) : Prop :=
  n <= max_stream_bytes l /\ max_temporary_allocation l = 67108864 /\
  max_nesting_depth l = 64.

Lemma no_bound_u32 : bound_u32 None.
Proof. done. Qed.
#[local] Hint Resolve no_bound_u32 : cdr.

Lemma round_trip_header h n :
  is_signed 32 (stamp_sec h) -> is_unsigned 32 (stamp_nanosec h) -> text_ok (frame_id h) ->
  round_trip (default_budget n) (encode_header h 0) (decode_header 0) h.
Proof.
  intros Hs Hn [Hf Hl]. destruct h as [sec nanosec frame]; simpl in *.
  eapply round_trip_weaken; cycle 1.
  { unfold encode_header, decode_header. cbn [stamp_sec stamp_nanosec frame_id]. rt.
    apply (round_trip_map _ _ _ (fun f => Build_Header sec nanosec f)). eauto with cdr. }
  intros l _ (? & Ht & Hd). simpl. split_and!; lia || done.
Qed.

Lemma round_trip_point_field f n :
  point_field_ok f -> round_trip (default_budget n) (encode_point_field f) decode_point_field f.
Proof.
  intros ([Hs Hl] & Ho & Hd & Hc). destruct f as [name off ty count]; simpl in *.
  eapply round_trip_weaken; cycle 1.
  { unfold encode_point_field, decode_point_field. cbn [pf_name pf_offset pf_datatype pf_count].
    rt. apply (round_trip_map _ _ _ (fun c => Build_PointField name off ty c)). eauto with cdr. }
  intros l _ (? & Ht & _). simpl. split_and!; lia || done.
Qed.

Lemma round_trip_fields fs acc n :
  Forall point_field_ok fs ->
  round_trip (default_budget n) (encode_fields fs 0) (decode_fields (length fs) 0 acc)
    (acc ++ fs).
Proof.
  intros Hfs. revert acc. induction Hfs as [|f fs Hf Hfs IH]; intros acc; cbn [length encode_fields decode_fields].
  { rewrite app_nil_r. apply round_trip_weaken with (fun _ => True); [done |]. apply round_trip_ret. }
  eapply round_trip_weaken; cycle 1.
  { eapply round_trip_nested; [unfold u32_max; lia |]. cbv beta. eapply round_trip_bind.
    - by apply (round_trip_point_field f n).
    - specialize (IH (acc ++ [f])). rewrite <- app_assoc in IH. exact IH. }
  intros l _ Hb. split_and!; [destruct Hb; lia | done | done].
Qed.

Lemma round_trip_point_cloud2 v :
  view_ok v ->
  round_trip (default_budget (blen (fields v))) (encode_point_cloud2 v) decode_point_cloud2 v.
Proof.
  intros (Hsec & Hns & Hfr & Hh & Hw & Hfs & Hnf & Hps & Hrs & Hd).
  destruct v as [h ht wd fs be ps rs d dense]; simpl in *.
  pose proof (blen_nonneg fs). unfold u32_max in Hnf.
  eapply round_trip_weaken; cycle 1.
  { unfold encode_point_cloud2, encode_point_cloud2_nested, decode_point_cloud2,
      decode_point_cloud2_nested, nesting_root. simpl.
    rewrite as_unsigned_small by (unfold is_unsigned; lia).
    eapply round_trip_bind; [by apply (round_trip_header h (blen fs)) |]. rt.
    eapply round_trip_bind; [apply round_trip_sequence_length; unfold is_unsigned; lia |].
    cbv beta. replace (Z.to_nat (blen fs)) with (length fs) by (unfold blen; lia).
    eapply round_trip_bind; [by apply (round_trip_fields fs [] (blen fs)) |]. rt.
    apply (round_trip_map _ _ _ (fun b => Build_PointCloud2View h ht wd fs be ps rs d b)).
    apply round_trip_bool. }
  intros l _ Hb. simpl. assert (Hb' := Hb). destruct Hb as (? & ? & ?). split_and!; done.
Qed.

Lemma point_cloud2_le_round_trip v bs :
  view_ok v -> blen (fields v) <= 67108864 ->
  encode_point_cloud2_le v = Ok bs -> decode_point_cloud2_le bs = Ok v.
Proof.
  intros Hv Hn. unfold encode_point_cloud2_le, decode_point_cloud2_le, open_default, new_default.
  destruct (new Little limits_defaults) as [w | |] eqn:Hnew; [| done..]. cbn [obind].
  destruct (encode_point_cloud2 v w) as [[[] | |] w'] eqn:Hput; [| done..]. intros [= <-].
  assert (HL : default_budget (blen (fields v)) limits_defaults) by by split_and!.
  destruct (round_trip_buffer _ _ _ _ _ _ _ _ limits_defaults_ok HL
    (round_trip_point_cloud2 v Hv) Hnew Hput) as (r & Ho & Hrwf & Hg & Hb).
  unfold into_bytes. rewrite Ho. cbn [obind]. rewrite Hg, <- Hb. apply reader_wf_small in Hrwf as ?.
  rewrite zero_tail_at_end; [done | | done |]; simpl.
  - apply reader_wf_advance; [done | lia].
  - apply reader_wf_stream in Hrwf. lia.
Qed.

(** ** The host metadata record *)

Definition field_meta (f : PointField) : bytes :=
  to_le 2 (blen (pf_name f)) ++ pf_name f ++ to_le 4 (pf_offset f) ++
  [pf_datatype f] ++ to_le 4 (pf_count f).

Definition fields_meta (fs : list PointField) : bytes := concat (map field_meta fs).

Definition host_meta (v : PointCloud2View) (data_offset : Z) : bytes :=
  to_le 4 (height v) ++ to_le 4 (width v) ++ to_le 4 (point_step v) ++ to_le 4 (row_step v) ++
  to_le 4 data_offset ++ to_le 4 (as_unsigned 32 (blen (data v))) ++
  [if is_bigendian v then 1 else 0] ++ [if is_dense v then 1 else 0] ++ [0] ++ [0] ++
  to_le 4 (as_unsigned 32 (blen (fields v))) ++
  to_le 4 (as_unsigned 32 (stamp_sec (pc_header v))) ++
  to_le 4 (stamp_nanosec (pc_header v)) ++
  to_le 2 (blen (frame_id (pc_header v))) ++ frame_id (pc_header v) ++
  fields_meta (fields v).

(** Every text length fits its [u16] prefix. *)
Definition u16_texts (v : PointCloud2View) : bool :=
  (blen (frame_id (pc_header v)) <=? u16_max) &&
  forallb (fun f => blen (pf_name f) <=? u16_max) (fields v).

(** [out] starts with [pre] and is [n] bytes long. *)
Definition filled (out pre : bytes) (n : Z) : Prop :=
  exists rest, out = pre ++ rest /\ blen out = n.

Lemma copy_into_fill out pre n o src :
  filled out pre n -> o = blen pre -> o + blen src <= n ->
  exists out', copy_into out o src = Ok out' /\ filled out' (pre ++ src) n.
Proof.
  intros (rest & -> & Hn) -> Hle. pose proof (blen_nonneg pre). pose proof (blen_nonneg src).
  unfold copy_into. zcmp. eexists. split; [done |].
  exists (drop (length src) rest). unfold blen in *. rewrite length_app in *.
  rewrite Nat2Z.id, take_app_length, drop_app_ge by lia.
  replace (Z.to_nat (Z.of_nat (length pre) + Z.of_nat (length src)) - length pre)%nat
    with (length src) by lia.
  split; [by rewrite <- app_assoc |]. rewrite !length_app, length_drop. lia.
Qed.

(** Step through one [copy_from_slice] of the record. *)
Ltac copy_step Hf :=
  match goal with
  | |- context [copy_into ?out ?o ?src] =>
      let out' := fresh "out" in let E := fresh "E" in
      edestruct (copy_into_fill out _ _ o src Hf) as (out' & E & Hf');
      [ first [reflexivity | rewrite ?blen_app, ?blen_to_le, ?blen_single, ?app_nil_l; lia]
      | rewrite ?blen_to_le, ?blen_single; lia
      | rewrite E; cbn [obind]; clear E Hf; rename Hf' into Hf ]
  end.

Lemma field_meta_len f : blen (field_meta f) = 11 + blen (pf_name f).
Proof. unfold field_meta. rewrite !blen_app, !blen_to_le. change (blen [_]) with 1. lia. Qed.

Lemma fields_meta_len_app f fs :
  blen (fields_meta (f :: fs)) = 11 + blen (pf_name f) + blen (fields_meta fs).
Proof. unfold fields_meta. cbn [map concat]. rewrite blen_app, field_meta_len. lia. Qed.

Lemma write_meta_fields_spec fs out pre n :
  filled out pre n -> n <= usize_max -> blen pre + blen (fields_meta fs) <= n ->
  if forallb (fun f => blen (pf_name f) <=? u16_max) fs then
    exists out', write_meta_fields fs out (blen pre)
                   = Ok (blen pre + blen (fields_meta fs), out') /\
                 filled out' (pre ++ fields_meta fs) n
  else write_meta_fields fs out (blen pre) = Err tt.
Proof.
  intros Hf Hn. revert out pre Hf. induction fs as [|f fs IH]; intros out pre Hf Hle.
  { simpl. exists out. unfold fields_meta. simpl. rewrite app_nil_r, blen_nil, Z.add_0_r. done. }
  rewrite fields_meta_len_app in *. cbn [forallb write_meta_fields].
  pose proof (blen_nonneg pre). pose proof (blen_nonneg (pf_name f)).
  pose proof (blen_nonneg (fields_meta fs)).
  destruct (Z.leb_spec (blen (pf_name f)) u16_max); cbn [andb].
  2: { by rewrite try_from_none. }
  rewrite try_from_some by lia. cbn [ok_or obind]. usz.
  do 5 copy_step Hf.
  specialize (IH _ _ Hf). rewrite !blen_app, !blen_to_le, blen_single in IH.
  replace (blen pre + 2 + blen (pf_name f) + 4 + 1 + 4) with
    (blen pre + Z.of_nat 2 + blen (pf_name f) + Z.of_nat 4 + 1 + Z.of_nat 4) by lia.
  specialize (IH ltac:(lia)). case_match; [| done].
  destruct IH as (out' & -> & Hf'). exists out'. split; [do 2 f_equal; lia |].
  unfold fields_meta in *. cbn [map concat]. unfold field_meta at 1.
  by rewrite <- !app_assoc in *.
Qed.

Lemma host_meta_len v off :
  blen (host_meta v off) =
    42 + blen (frame_id (pc_header v)) + blen (fields_meta (fields v)).
Proof. unfold host_meta. rewrite !blen_app, !blen_to_le, !blen_single. lia. Qed.

(** The length the host is told to reserve is the record's length. *)
Lemma host_meta_len_sum v off :
  blen (host_meta v off) <= usize_max ->
  point_cloud2_host_meta_len v = blen (host_meta v off).
Proof.
  rewrite host_meta_len. intros Hle. unfold point_cloud2_host_meta_len.
  pose proof (blen_nonneg (frame_id (pc_header v))).
  assert (Hsum : forall fs s, 0 <= s -> s + blen (fields_meta fs) <= usize_max ->
    fold_left (fun s f => usize_add s (usize_add 11 (blen (pf_name f)))) fs s
      = s + blen (fields_meta fs)).
  { induction fs as [|f fs IH]; intros s Hs Hfit.
    - unfold fields_meta. simpl. rewrite blen_nil. lia.
    - rewrite fields_meta_len_app in *. pose proof (blen_nonneg (pf_name f)).
      pose proof (blen_nonneg (fields_meta fs)). cbn [fold_left]. usz. rewrite IH by lia. lia. }
  pose proof (blen_nonneg (fields_meta (fields v))). rewrite Hsum by lia. usz. lia.
Qed.

Lemma host_meta_spec v off out :
  blen (host_meta v off) <= usize_max -> blen out <= usize_max ->
  match write_point_cloud2_host_meta v off out with
  | Ok (n, out') => n = blen (host_meta v off) /\ filled out' (host_meta v off) (blen out)
  | Err _ => blen out < blen (host_meta v off) \/ u16_texts v = false
  | Panic => False
  end.
Proof.
  intros Hle Hout. unfold write_point_cloud2_host_meta. rewrite (host_meta_len_sum v off Hle).
  destruct (Z.ltb_spec (blen out) (blen (host_meta v off))) as [Hs | Hs]; [by left |].
  rewrite host_meta_len in *. pose proof (blen_nonneg (frame_id (pc_header v))).
  pose proof (blen_nonneg (fields_meta (fields v))).
  assert (Hf : filled out [] (blen out)) by by exists out. copy_step Hf. rewrite app_nil_l in Hf.
  do 12 copy_step Hf.
  unfold u16_texts. destruct (Z.leb_spec (blen (frame_id (pc_header v))) u16_max); cbn [andb].
  2: { rewrite try_from_none by lia. by right. }
  rewrite try_from_some by lia. cbn [ok_or obind].
  do 2 copy_step Hf. usz.
  pose proof (write_meta_fields_spec (fields v) _ _ _ Hf Hout) as Hw.
  rewrite !blen_app, !blen_to_le, !blen_single in Hw.
  match goal with |- context [write_meta_fields _ _ ?o] =>
    match type of Hw with context [write_meta_fields _ _ ?o'] => replace o with o' by lia end
  end.
  specialize (Hw ltac:(lia)). case_match; [| rewrite Hw; by right].
  destruct Hw as (out' & -> & Hf'). split; [lia |]. unfold host_meta.
  by rewrite <- !app_assoc in Hf'.
Qed.

End Correct.
