(* ===== verification/CdrTheorems.v ===== *)
(** * The CDR contract

    The theorems about the CDR codec as a whole: fault atomicity and memory
    safety of every read and write, the exact acceptance of the
    variable-length fields, completion checks, and the round trip of any
    sequence of fields and of [PointCloud2]. *)

From S2P Require Import Prelude Utf8 CdrCore.
From S2P Require CdrReader CdrWriter CdrCodec PointCloud.
Import CdrWriter CdrReader CdrCodec.

Section Contract.
Context `{Target}.

(** The field readers of [CdrReader]. *)
Inductive primitive_read : forall A : Type, SM CdrReader CdrError.t A -> Prop :=
| PR_u8 : primitive_read Z read_u8
| PR_u16 : primitive_read Z read_u16
| PR_u32 : primitive_read Z read_u32
| PR_u64 : primitive_read Z read_u64
| PR_bool : primitive_read bool read_bool
| PR_i8 : primitive_read Z read_i8
| PR_i16 : primitive_read Z read_i16
| PR_i32 : primitive_read Z read_i32
| PR_i64 : primitive_read Z read_i64
| PR_f32 : primitive_read Z read_f32
| PR_f64 : primitive_read Z read_f64
| PR_char8 : primitive_read Z read_char8
| PR_char16 : primitive_read Z read_char16
| PR_bytes n : 0 <= n <= 67108864 -> primitive_read bytes (read_bytes n)
| PR_string mb : primitive_read bytes (read_string mb)
| PR_wstring mb : primitive_read bytes (read_wstring mb)
| PR_sequence_length mb : primitive_read Z (read_sequence_length mb)
| PR_byte_sequence mb : primitive_read bytes (read_byte_sequence mb).

(** Every shape a field reader recognises ends inside the input, past its start. *)
Definition bounded_shape {A} (r : CdrReader) (P : A -> Z -> Prop) : Prop :=
  forall a o, P a o -> offset r <= o <= blen (bytes_of r).

Lemma uint_at_bounded r n :
  reader_wf r -> 1 <= n <= 8 -> bounded_shape r (uint_at r n).
Proof.
  intros Hr Hn a o (s & (_ & -> & Hle) & _). pose proof (padding_wf r n Hr Hn).
  unfold field_start_of in *. lia.
Qed.

Lemma uint_at_value r n v o :
  reader_wf r -> 1 <= n <= 8 -> uint_at r n v o -> 0 <= v < 256 ^ n.
Proof.
  intros Hr Hn (s & (-> & -> & Hle) & ->). pose proof (padding_wf r n Hr Hn).
  pose proof (reader_wf_small r Hr). unfold field_start_of in *.
  pose proof (of_stream_bound r (sub_list (bytes_of r) (offset r + padding_for (offset r) n) n)) as Hb.
  rewrite blen_sub_list in Hb by lia. apply Hb, bytes_ok_sub_list, Hr.
Qed.

Lemma primitive_read_spec A m r :
  primitive_read A m -> reader_wf r ->
  exists P : A -> Z -> Prop, bounded_shape r P /\ field_spec m r P.
Proof.
  intros Hm Hr.
  assert (Hu : forall n (g : SM CdrReader CdrError.t Z), 1 <= n <= 8 -> field_spec g r (uint_at r n) ->
    exists P, bounded_shape r P /\ field_spec g r P).
  { intros n g Hn Hg. exists (uint_at r n). split; [by apply uint_at_bounded | done]. }
  assert (Hs : forall n w (g : SM CdrReader CdrError.t Z), 1 <= n <= 8 -> field_spec g r (uint_at r n) ->
    exists P, bounded_shape r P /\ field_spec (x <~ g ;; ret (as_signed w x)) r P).
  { intros n w g Hn Hg. eexists. split; [| by apply field_spec_map].
    intros b o (a & Ha & _). by eapply uint_at_bounded. }
  pose proof (uint_at_bounded r 4 Hr ltac:(lia)) as H4.
  assert (Hv : forall v o, uint_at r 4 v o -> 0 <= v)
    by (intros v o Hv; eapply (uint_at_value r 4) in Hv; [lia | done | lia]).
  destruct Hm as [| | | | | | | | | | | | | n Hn | mb | mb | mb | mb].
  1: apply (Hu 1); [lia | by apply read_u8_spec].
  1: apply (Hu 2); [lia | by apply read_u16_spec].
  1: apply (Hu 4); [lia | by apply read_u32_spec].
  1: apply (Hu 8); [lia | by apply read_u64_spec].
  { eexists. split; [| by apply read_bool_spec]. intros b o (v & Hvo & _).
    by eapply (uint_at_bounded r 1 Hr ltac:(lia)). }
  1: apply (Hs 1 8); [lia | by apply read_u8_spec].
  1: apply (Hs 2 16); [lia | by apply read_u16_spec].
  1: apply (Hs 4 32); [lia | by apply read_u32_spec].
  1: apply (Hs 8 64); [lia | by apply read_u64_spec].
  1: apply (Hu 4); [lia | by apply read_u32_spec].
  1: apply (Hu 8); [lia | by apply read_u64_spec].
  1: apply (Hu 1); [lia | by apply read_u8_spec].
  1: apply (Hu 2); [lia | by apply read_u16_spec].
  - eexists. split; [| by apply read_bytes_spec]. intros s o (_ & -> & Hle). lia.
  - eexists. split; [| by apply read_string_spec].
    intros s o (len & o1 & Hl & ? & _ & _ & -> & Hle & _). apply H4 in Hl. lia.
  - eexists. split; [| by apply read_wstring_spec].
    intros s o (n & o1 & Hl & _ & _ & -> & Hle & _). pose proof (Hv _ _ Hl). apply H4 in Hl. lia.
  - eexists. split; [| by apply read_sequence_length_spec]. intros s o (Hl & _). by apply H4 in Hl.
  - eexists. split; [| by apply read_byte_sequence_spec].
    intros s o (n & o1 & Hl & _ & -> & Hle & _). pose proof (Hv _ _ Hl). apply H4 in Hl. lia.
Qed.

(** No field read of the CDR reader ever panics (no slice or index is out of
    range, on 32- and 64-bit targets); a successful read only moves the cursor
    forward inside the input, and a failed one leaves the reader exactly as it
    was and reports the field's start as the fault site. *)
Theorem reads_fault_atomic A (m : SM CdrReader CdrError.t A) r :
  primitive_read A m -> reader_wf r ->
  match m r with
  | (Ok _, r') => reader_wf r' /\ r' = set_offset (offset r') r /\ offset r <= offset r'
  | (Err e, r') => r' = r /\ CdrError.offset e = offset r
  | (Panic, _) => False
  end.
Proof.
  intros Hm Hr. destruct (primitive_read_spec A m r Hm Hr) as (P & HP & Hs).
  unfold field_spec, wp in Hs. destruct (m r) as [[a | e |] r']; [| | done].
  - destruct Hs as [Ha ->]. simpl in *. apply HP in Ha.
    split_and!; [by apply reader_wf_advance | done | lia].
  - by destruct Hs as (-> & He & _).
Qed.

(** The field writers of [CdrWriter]. *)
Inductive primitive_write : SM CdrWriter CdrError.t unit -> Prop :=
| PW_u8 v : primitive_write (write_u8 v)
| PW_u16 v : primitive_write (write_u16 v)
| PW_u32 v : primitive_write (write_u32 v)
| PW_u64 v : primitive_write (write_u64 v)
| PW_bool v : primitive_write (write_bool v)
| PW_i8 v : primitive_write (write_i8 v)
| PW_i16 v : primitive_write (write_i16 v)
| PW_i32 v : primitive_write (write_i32 v)
| PW_i64 v : primitive_write (write_i64 v)
| PW_f32 v : primitive_write (write_f32 v)
| PW_f64 v : primitive_write (write_f64 v)
| PW_char8 v : primitive_write (write_char8 v)
| PW_char16 v : primitive_write (write_char16 v)
| PW_bytes d : primitive_write (write_bytes d)
| PW_string s mb : bound_u32 mb -> primitive_write (write_string s mb)
| PW_wstring s mb : bound_u32 mb -> primitive_write (write_wstring s mb)
| PW_sequence_length n mb : primitive_write (write_sequence_length n mb)
| PW_byte_sequence s mb : primitive_write (write_byte_sequence s mb).

Lemma primitive_write_spec m w :
  primitive_write m -> writer_wf w ->
  exists ok align body, 1 <= align <= 8 /\ put_spec m w ok align body.
Proof.
  intros Hm Hw.
  destruct Hm; do 3 eexists; (split; cycle 1;
    [ first [ by apply write_u8_spec | by apply write_u32_spec
            | apply write_span_spec; [done | lia] | by apply write_bytes_spec
            | by apply write_string_spec | by apply write_wstring_spec
            | by apply write_sequence_length_spec | by apply write_byte_sequence_spec ]
    | lia ]).
Qed.

(** No field write panics; a successful write only appends (zero padding,
    then the field) and stays within the logical capacity; a failed one leaves
    the buffer byte for byte as it was and reports the field's start. *)
Theorem writes_fault_atomic (m : SM CdrWriter CdrError.t unit) w :
  primitive_write m -> writer_wf w ->
  match m w with
  | (Ok _, w') => (exists s, w' = set_buf (buf w ++ s) w) /\ blen (buf w') <= capacity w
  | (Err e, w') => w' = w /\ CdrError.offset e = blen (buf w)
  | (Panic, _) => False
  end.
Proof.
  intros Hm Hw. pose proof (primitive_write_spec m w Hm Hw) as (ok & align & body & Ha & Hs).
  pose proof (wpadding_wf w align Hw Ha).
  unfold put_spec, wp in Hs. destruct (m w) as [[[] | e |] w']; [| | done].
  - destruct Hs as (_ & -> & Hle). split; [by eexists |]. simpl.
    rewrite !blen_app, blen_zeros by lia. lia.
  - by destruct Hs as (-> & He & _).
Qed.

(** [read_string] accepts exactly the wire strings: a length word of at least
    one, a payload within the type bound and the temporary budget (charged at two
    bytes per payload byte), a final NUL, strict UTF-8; it returns that payload and
    stops after the NUL.  Anything else is an error at the field start. *)
Theorem read_string_exact r mb :
  reader_wf r ->
  match read_string mb r with
  | (Ok s, r') =>
      exists len, uint_at r 4 len (field_start_of r 4 + 4) /\ len = blen s + 1 /\
        bound_ok mb (blen s) /\ 2 * blen s <= max_temporary_allocation (limits r) /\
        sub_list (bytes_of r) (field_start_of r 4 + 4) len = s ++ [0] /\
        utf8_valid s = true /\ r' = set_offset (field_start_of r 4 + 4 + len) r
  | (Err _, _) => forall s o, ~ string_at r mb s o
  | (Panic, _) => False
  end.
Proof.
  intros Hr. pose proof (read_string_spec r mb Hr) as Hs. unfold field_spec, wp in Hs.
  destruct (read_string mb r) as [[s | e |] r']; [| | done].
  - destruct Hs as [(len & o1 & Hl & H1 & Hb & Ht & Ho & Hle & Hsub & Hu) Hr'].
    pose proof (uint_at_end _ _ _ _ Hl) as ->.
    assert (len = blen s + 1) as Hlen.
    { pose proof (padding_wf r 4 Hr ltac:(lia)). pose proof (reader_wf_small r Hr).
      unfold field_start_of in *.
      pose proof (blen_sub_list (bytes_of r) (offset r + padding_for (offset r) 4 + 4) len) as Hbl.
      rewrite Hsub, blen_app, blen_single in Hbl. lia. }
    replace (len - 1) with (blen s) in * by lia.
    exists len. split_and!; [done.. |]. by rewrite <- Ho.
  - by destruct Hs as (_ & _ & Hno).
Qed.

(** The two completion checks.  [ensure_complete] holds exactly at the end of
    the input; the declared-tail form also consumes a tail of exactly the declared
    length made of zeros, and on an error leaves the cursor. *)
Theorem completion_exact r n :
  reader_wf r -> n <= max_stream_bytes (limits r) ->
  let tail := sub_list (bytes_of r) (offset r) (blen (bytes_of r) - offset r) in
  (ensure_complete r = Ok tt <-> offset r = blen (bytes_of r)) /\
  match ensure_complete_with_zero_tail n r with
  | (Ok _, r') => (blen tail = 0 \/ blen tail = n /\ Forall (fun b => b = 0) tail) /\
                  r' = set_offset (blen (bytes_of r)) r
  | (Err e, r') => r' = r /\ e = CdrError.trailing_data (offset r) (blen tail) /\
                   0 < blen tail /\ (blen tail <> n \/ ~ Forall (fun b => b = 0) tail)
  | (Panic, _) => False
  end.
Proof.
  intros Hr Hn tail. pose proof (reader_wf_small r Hr) as Hs. pose proof usize_max_ge as Hu.
  unfold u32_max in Hu.
  assert (Htail : blen tail = blen (bytes_of r) - offset r) by (apply blen_sub_list; lia).
  split.
  { unfold ensure_complete. rewrite remaining_wf by done. zcase; split; intros; done || lia. }
  unfold ensure_complete_with_zero_tail. rewrite remaining_wf by done. zcmp.
  destruct (Z.eqb_spec (blen (bytes_of r) - offset r) 0) as [E | E].
  { split; [left; lia |]. replace (blen (bytes_of r)) with (offset r) by lia.
    by rewrite set_offset_same. }
  destruct (Z.eqb_spec (blen (bytes_of r) - offset r) n) as [En | En]; cbn [negb].
  2: { rewrite Htail. split_and!; [done | done | lia | left; lia]. }
  usz. rewrite slice_ok by lia.
  replace (offset r + (blen (bytes_of r) - offset r) - offset r) with (blen (bytes_of r) - offset r) by lia.
  fold tail. destruct (existsb _ tail) eqn:Ex.
  - rewrite Htail. split_and!; [done | done | lia |]. right. intros Hz.
    apply existsb_exists in Ex as (b & Hin & Hb).
    rewrite Forall_forall in Hz. rewrite (Hz b) in Hb; [done | by apply list_elem_of_In].
  - split; [right; split; [lia |] | f_equal; lia].
    apply Forall_forall. intros b Hin%list_elem_of_In.
    destruct (Z.eqb_spec b 0) as [| Hne]; [done |].
    assert (existsb (fun b => negb (b =? 0)) tail = true); [| congruence].
    apply existsb_exists. exists b. split; [done |]. by rewrite (proj2 (Z.eqb_neq b 0)).
Qed.

(** A stream description: the value of each field, in order. *)
Inductive field :=
| FU8 (v : Z) | FU16 (v : Z) | FU32 (v : Z) | FU64 (v : Z)
| FI8 (v : Z) | FI16 (v : Z) | FI32 (v : Z) | FI64 (v : Z)
| FBool (b : bool)
| FString (s : bytes) (mb : option Z)
| FWstring (s : bytes) (mb : option Z)
| FByteSequence (s : bytes) (mb : option Z).

(** The values each field type ranges over, with the reader's budgets. *)
Definition field_ok (l : CdrLimits) (f : field) : Prop :=
  match f with
  | FU8 v => is_unsigned 8 v | FU16 v => is_unsigned 16 v
  | FU32 v => is_unsigned 32 v | FU64 v => is_unsigned 64 v
  | FI8 v => is_signed 8 v | FI16 v => is_signed 16 v
  | FI32 v => is_signed 32 v | FI64 v => is_signed 64 v
  | FBool _ => True
  | FString s mb => utf8_valid s = true /\ bound_u32 mb /\
                    2 * blen s <= max_temporary_allocation l
  | FWstring s mb => utf8_valid s = true /\ bound_u32 mb /\
                     4 * blen (chars s) <= max_temporary_allocation l
  | FByteSequence s _ => bytes_ok s
  end.

Definition write_field (f : field) : SM CdrWriter CdrError.t unit :=
  match f with
  | FU8 v => write_u8 v | FU16 v => write_u16 v | FU32 v => write_u32 v | FU64 v => write_u64 v
  | FI8 v => write_i8 v | FI16 v => write_i16 v | FI32 v => write_i32 v | FI64 v => write_i64 v
  | FBool b => write_bool b
  | FString s mb => write_string s mb
  | FWstring s mb => write_wstring s mb
  | FByteSequence s mb => write_byte_sequence s mb
  end.

(** Read a field of [f]'s type and bound; the value comes from the stream. *)
Definition read_like (f : field) : SM CdrReader CdrError.t field :=
  match f with
  | FU8 _ => v <~ read_u8 ;; ret (FU8 v)
  | FU16 _ => v <~ read_u16 ;; ret (FU16 v)
  | FU32 _ => v <~ read_u32 ;; ret (FU32 v)
  | FU64 _ => v <~ read_u64 ;; ret (FU64 v)
  | FI8 _ => v <~ read_i8 ;; ret (FI8 v)
  | FI16 _ => v <~ read_i16 ;; ret (FI16 v)
  | FI32 _ => v <~ read_i32 ;; ret (FI32 v)
  | FI64 _ => v <~ read_i64 ;; ret (FI64 v)
  | FBool _ => b <~ read_bool ;; ret (FBool b)
  | FString _ mb => s <~ read_string mb ;; ret (FString s mb)
  | FWstring _ mb => s <~ read_wstring mb ;; ret (FWstring s mb)
  | FByteSequence _ mb => s <~ read_byte_sequence mb ;; ret (FByteSequence s mb)
  end.

Fixpoint write_fields (fs : list field) : SM CdrWriter CdrError.t unit :=
  match fs with [] => ret tt | f :: fs' => write_field f ;;~ write_fields fs' end.

Fixpoint read_fields_like (fs : list field) : SM CdrReader CdrError.t (list field) :=
  match fs with
  | [] => ret []
  | f :: fs' => v <~ read_like f ;; vs <~ read_fields_like fs' ;; ret (v :: vs)
  end.

Lemma round_trip_one l f :
  field_ok l f -> round_trip (eq l) (write_field f) (read_like f) f.
Proof.
  intros Hf.
  assert (Hw : forall A (g : SM CdrReader CdrError.t A) m (a : A) (k : A -> field) (L : CdrLimits -> Prop),
    L l -> round_trip L m g a -> round_trip (eq l) m (x <~ g ;; ret (k x)) (k a)).
  { intros A g m a k L HL Hrt. apply (round_trip_weaken L); [by intros ? _ <- |].
    by apply round_trip_map. }
  destruct f; simpl in *.
  9: { by apply (Hw _ _ _ _ FBool (fun _ => True)), round_trip_bool. }
  9: { destruct Hf as (Hu & Hb & Hl).
       eapply (Hw _ _ _ _ (fun s => FString s mb)); [| by apply round_trip_string]; exact Hl. }
  9: { destruct Hf as (Hu & Hb & Hl).
       eapply (Hw _ _ _ _ (fun s => FWstring s mb)); [| by apply round_trip_wstring]; exact Hl. }
  9: { by apply (Hw _ _ _ _ (fun s => FByteSequence s mb) (fun _ => True)), round_trip_byte_sequence. }
  all: eapply (Hw _ _ _ _ _ (fun _ => True)); [done |]; auto with cdr.
Qed.

Lemma round_trip_all l fs :
  Forall (field_ok l) fs -> round_trip (eq l) (write_fields fs) (read_fields_like fs) fs.
Proof.
  induction 1 as [|f fs Hf Hfs IH]; cbn [write_fields read_fields_like].
  { apply (round_trip_weaken (fun _ => True)); [done |]. apply round_trip_ret. }
  apply (round_trip_weaken (fun l' => l = l' /\ l = l')); [done |].
  eapply round_trip_bind; [by apply round_trip_one |]. by apply (round_trip_map _ _ _ (cons f)).
Qed.

(** C29: the round trip of any sequence of CDR fields, in either byte order: what a
    fresh writer emits, a reader opened on the buffer under the same limits reads
    back field for field, padding included, and ends exactly at the end. *)
Theorem fields_round_trip l e fs w w' :
  limits_ok l -> Forall (field_ok l) fs ->
  CdrWriter.new e l = Ok w -> write_fields fs w = (Ok tt, w') ->
  exists r r', CdrReader.open (into_bytes w') l = Ok r /\
    read_fields_like fs r = (Ok fs, r') /\ ensure_complete r' = Ok tt.
Proof.
  intros Hl Hfs Hnew Hput.
  destruct (round_trip_buffer (eq l) l e _ _ _ _ _ Hl eq_refl (round_trip_all l fs Hfs) Hnew Hput)
    as (r & Ho & Hrwf & Hg & Hb).
  exists r, (set_offset (blen (buf w')) r). split_and!; [done.. |].
  unfold ensure_complete. apply reader_wf_small in Hrwf as ?.
  rewrite remaining_wf by (apply reader_wf_advance; [done | rewrite Hb in *; lia]).
  simpl. rewrite Hb. zcmp. done.
Qed.

(** What [CdrReader::open] accepts: exactly the buffers of at most
    [max_stream_bytes] that begin with a CDR1 little- or big-endian
    encapsulation header (any options word); the byte order comes from the
    representation identifier and the cursor starts at the body origin. *)
Theorem open_exact bs l :
  limits_ok l -> bytes_ok bs ->
  match CdrReader.open bs l with
  | Ok r => encapsulation bs = Some (header_endian (header r)) /\
            blen bs <= max_stream_bytes l /\
            bytes_of r = bs /\ offset r = 4 /\ limits r = l /\ reader_wf r
  | Err e => (encapsulation bs = None \/ max_stream_bytes l < blen bs) /\ CdrError.offset e = 0
  | Panic => False
  end.
Proof. apply open_spec. Qed.

(** C33: [PointCloud2] round trip over whole buffers: every view whose texts fit the
    reader's budget decodes from its own little-endian encoding to itself. *)
Theorem point_cloud2_round_trip v bs :
  PointCloud.view_ok v -> blen (PointCloud.fields v) <= 67108864 ->
  PointCloud.encode_point_cloud2_le v = Ok bs ->
  PointCloud.decode_point_cloud2_le bs = Ok v.
Proof. apply PointCloud.point_cloud2_le_round_trip. Qed.

(** The host metadata writer fills exactly the documented record at the front of
    the caller's buffer, reports its length, keeps the rest of the buffer's
    length, and never writes out of bounds; it refuses only a short buffer or a
    text too long for its [u16] prefix. *)
Theorem host_meta_exact v off out :
  blen (PointCloud.host_meta v off) <= usize_max -> blen out <= usize_max ->
  match PointCloud.write_point_cloud2_host_meta v off out with
  | Ok (n, out') => n = blen (PointCloud.host_meta v off) /\ blen out' = blen out /\
                    take (Z.to_nat n) out' = PointCloud.host_meta v off
  | Err _ => blen out < blen (PointCloud.host_meta v off) \/ PointCloud.u16_texts v = false
  | Panic => False
  end.
Proof.
  intros Hm Ho. pose proof (PointCloud.host_meta_spec v off out Hm Ho) as Hs.
  destruct (PointCloud.write_point_cloud2_host_meta v off out) as [[n out'] | |]; [| done..].
  destruct Hs as [-> (rest & -> & Hlen)]. split_and!; [done | done |].
  unfold blen. rewrite Nat2Z.id. apply take_app_length.
Qed.

End Contract.

(** ** Witnesses *)

(** A little-endian stream: a bool, a string "ab", and an aligned [u32]. *)
Definition sample_stream : bytes :=
  [0; 1; 0; 0; 1; 0; 0; 0; 3; 0; 0; 0; 97; 98; 0; 0; 7; 0; 0; 0].

Definition sample_reader : CdrReader :=
  mk_reader sample_stream 5 limits_defaults
    {| representation := 1; options := 0; header_endian := Little |}.

Lemma sample_reader_wf : reader_wf sample_reader.
Proof.
  split; [apply limits_defaults_ok |]. split; [| by vm_compute].
  repeat (apply bytes_ok_cons; split; [unfold is_byte; lia |]). constructor.
Qed.

Lemma reads_fault_atomic_witness :
  match read_string (H := Wasm32) (Some 2) sample_reader with
  | (Ok _, r') => reader_wf r' /\ r' = set_offset (offset r') sample_reader /\
                  offset sample_reader <= offset r'
  | (Err e, r') => r' = sample_reader /\ CdrError.offset e = offset sample_reader
  | (Panic, _) => False
  end.
Proof.
  exact (reads_fault_atomic (H := Wasm32) _ (read_string (H := Wasm32) (Some 2)) sample_reader
           (PR_string (H := Wasm32) (Some 2)) sample_reader_wf).
Defined.

Definition sample_writer : CdrWriter :=
  mk_writer [0; 1; 0; 0; 9] 67108864 limits_defaults Little 1 0.

Lemma sample_writer_wf : writer_wf sample_writer.
Proof.
  split; [apply limits_defaults_ok |]. split; [done |]. split; [| by vm_compute].
  repeat (apply bytes_ok_cons; split; [unfold is_byte; lia |]). constructor.
Qed.

Lemma writes_fault_atomic_witness :
  match write_u64 (H := Native64) 258 sample_writer with
  | (Ok _, w') => (exists s, w' = set_buf (buf sample_writer ++ s) sample_writer) /\
                  blen (buf w') <= capacity sample_writer
  | (Err e, w') => w' = sample_writer /\ CdrError.offset e = blen (buf sample_writer)
  | (Panic, _) => False
  end.
Proof.
  exact (writes_fault_atomic (H := Native64) (write_u64 (H := Native64) 258) sample_writer
           (PW_u64 (H := Native64) 258) sample_writer_wf).
Defined.

Lemma read_string_exact_witness :
  fst (read_string (H := Wasm32) (Some 2) sample_reader) = Ok [97; 98] /\
  exists len, uint_at (H := Wasm32) sample_reader 4 len (field_start_of (H := Wasm32) sample_reader 4 + 4).
Proof.
  split; [by vm_compute |].
  pose proof (read_string_exact (H := Wasm32) sample_reader (Some 2) sample_reader_wf) as Hr.
  destruct (read_string (H := Wasm32) (Some 2) sample_reader) as [[s | e |] r'] eqn:E;
    [destruct Hr as (len & Hl & _); by exists len | by vm_compute in E | done].
Defined.

(** The reader at the last four bytes of [sample_stream], which are not zero. *)
Lemma completion_exact_witness :
  ensure_complete (H := Native64) sample_reader = Ok tt <->
  offset sample_reader = blen (bytes_of sample_reader).
Proof. exact (proj1 (completion_exact (H := Native64) sample_reader 4 sample_reader_wf ltac:(by vm_compute))). Defined.

Definition sample_fields : list field :=
  [FBool true; FString [97; 98] None; FU32 7; FI16 (-2); FWstring [195; 169] (Some 4); FU64 5].

Lemma sample_fields_ok : Forall (field_ok limits_defaults) sample_fields.
Proof.
  repeat (apply Forall_cons; split;
    [ first [ exact I | by split | by (split; [done | split; [by vm_compute |]; by vm_compute]) ] |]).
  constructor.
Qed.

Lemma fields_round_trip_witness :
  exists w w' r r', CdrWriter.new Big limits_defaults = Ok w /\
    write_fields (H := Wasm32) sample_fields w = (Ok tt, w') /\
    CdrReader.open (into_bytes w') limits_defaults = Ok r /\
    read_fields_like (H := Wasm32) sample_fields r = (Ok sample_fields, r') /\
    ensure_complete (H := Wasm32) r' = Ok tt.
Proof.
  destruct (CdrWriter.new Big limits_defaults) as [w | |] eqn:Hw; [| by vm_compute in Hw..].
  destruct (write_fields (H := Wasm32) sample_fields w) as [o w'] eqn:Hput.
  assert (o = Ok tt) as ->.
  { injection Hw as <-. vm_compute in Hput. by injection Hput as <- _. }
  destruct (fields_round_trip (H := Wasm32) limits_defaults Big sample_fields w w'
    limits_defaults_ok sample_fields_ok Hw Hput) as (r & r' & H1 & H2 & H3).
  exists w, w', r, r'. auto.
Defined.

Lemma open_exact_witness :
  match CdrReader.open sample_stream limits_defaults with
  | Ok r => encapsulation sample_stream = Some (header_endian (header r)) /\
            blen sample_stream <= max_stream_bytes limits_defaults /\
            bytes_of r = sample_stream /\ offset r = 4 /\ limits r = limits_defaults /\ reader_wf r
  | Err e => (encapsulation sample_stream = None \/
              max_stream_bytes limits_defaults < blen sample_stream) /\ CdrError.offset e = 0
  | Panic => False
  end.
Proof. exact (open_exact sample_stream limits_defaults limits_defaults_ok (proj1 (proj2 sample_reader_wf))). Defined.

Definition sample_cloud : PointCloud.PointCloud2View := {|
  PointCloud.pc_header :=
    {| PointCloud.stamp_sec := -5; PointCloud.stamp_nanosec := 9;
       PointCloud.frame_id := lit "map" |};
  PointCloud.height := 1; PointCloud.width := 2;
  PointCloud.fields :=
    [{| PointCloud.pf_name := lit "x"; PointCloud.pf_offset := 0;
        PointCloud.pf_datatype := 7; PointCloud.pf_count := 1 |}];
  PointCloud.is_bigendian := false; PointCloud.point_step := 4; PointCloud.row_step := 8;
  PointCloud.data := [1; 2; 3; 4; 5; 6; 7; 8]; PointCloud.is_dense := true
|}.

Lemma sample_cloud_ok : PointCloud.view_ok sample_cloud.
Proof.
  assert (Hx : PointCloud.text_ok (lit "x")) by (split; [reflexivity | vm_compute; congruence]).
  assert (Hm : PointCloud.text_ok (lit "map")) by (split; [reflexivity | vm_compute; congruence]).
  unfold PointCloud.view_ok, is_signed, is_unsigned.
  cbn [sample_cloud PointCloud.pc_header PointCloud.stamp_sec PointCloud.stamp_nanosec
       PointCloud.frame_id PointCloud.height PointCloud.width PointCloud.fields
       PointCloud.point_step PointCloud.row_step PointCloud.data].
  split; [lia |]. split; [lia |]. split; [exact Hm |]. split; [lia |]. split; [lia |].
  split; [| split; [by vm_compute | split; [lia | split; [lia |]]]].
  - constructor; [| constructor]. split; [exact Hx |]. unfold is_unsigned.
    cbn [PointCloud.pf_offset PointCloud.pf_datatype PointCloud.pf_count]. lia.
  - repeat (apply bytes_ok_cons; split; [unfold is_byte; lia |]). constructor.
Qed.

Lemma point_cloud2_round_trip_witness :
  exists bs, PointCloud.encode_point_cloud2_le (H := Wasm32) sample_cloud = Ok bs /\
             PointCloud.decode_point_cloud2_le (H := Wasm32) bs = Ok sample_cloud.
Proof.
  destruct (PointCloud.encode_point_cloud2_le (H := Wasm32) sample_cloud) as [bs | |] eqn:E;
    [| by vm_compute in E..].
  exists bs. split; [done |].
  apply (point_cloud2_round_trip (H := Wasm32) sample_cloud bs sample_cloud_ok); [by vm_compute | done].
Defined.

Lemma host_meta_exact_witness :
  match PointCloud.write_point_cloud2_host_meta (H := Wasm32) sample_cloud 64 (zeros 60) with
  | Ok (n, out') => n = blen (PointCloud.host_meta sample_cloud 64) /\ blen out' = blen (zeros 60) /\
                    take (Z.to_nat n) out' = PointCloud.host_meta sample_cloud 64
  | Err _ => blen (zeros 60) < blen (PointCloud.host_meta sample_cloud 64) \/
             PointCloud.u16_texts sample_cloud = false
  | Panic => False
  end.
Proof. apply (host_meta_exact (H := Wasm32) sample_cloud 64 (zeros 60)); by vm_compute. Defined.
