(* ===== verification/ProtocolError.v ===== *)
(** * Protocol errors

    [rclweb/src/protocol/error.rs]: the error value every parser of the wire
    protocol returns, with the registry codes of its constructors. *)

From S2P Require Import Prelude.

Record ProtocolError := mk_perr {
  pe_code : Z;
  pe_name : string;
  pe_reason : string;
  pe_offset : Z;
  pe_plane : string;
  pe_step : Z
}.

#[export] Instance ProtocolError_eq_dec : EqDecision ProtocolError.
Proof. solve_decision. Defined.

Definition bootstrap_error (code : Z) (name reason : string) (offset step : Z) : ProtocolError :=
  mk_perr code name reason offset "bootstrap" step.
Definition selected_frame (code : Z) (name reason : string) (offset step : Z) : ProtocolError :=
  mk_perr code name reason offset "selected_frame" step.

Definition malformed_bootstrap (reason : string) (offset step : Z) : ProtocolError :=
  bootstrap_error 1 "malformed_bootstrap" reason offset step.
Definition unsupported_version_bootstrap (reason : string) (offset step : Z) : ProtocolError :=
  bootstrap_error 4 "unsupported_version" reason offset step.
Definition message_too_large_bootstrap (reason : string) (offset step : Z) : ProtocolError :=
  bootstrap_error 24 "message_too_large" reason offset step.
Definition protocol_violation_bootstrap (reason : string) (offset step : Z) : ProtocolError :=
  bootstrap_error 25 "protocol_violation" reason offset step.

Definition malformed_frame (reason : string) (offset step : Z) : ProtocolError :=
  selected_frame 3 "malformed_frame" reason offset step.
Definition unsupported_version_frame (reason : string) (offset step : Z) : ProtocolError :=
  selected_frame 4 "unsupported_version" reason offset step.
Definition unsupported_opcode (reason : string) (offset step : Z) : ProtocolError :=
  selected_frame 5 "unsupported_opcode" reason offset step.
Definition unsupported_flags (reason : string) (offset step : Z) : ProtocolError :=
  selected_frame 6 "unsupported_flags" reason offset step.
Definition unsupported_extension (reason : string) (offset step : Z) : ProtocolError :=
  selected_frame 22 "unsupported_extension" reason offset step.
Definition invalid_control (reason : string) (offset step : Z) : ProtocolError :=
  selected_frame 23 "invalid_control" reason offset step.
Definition message_too_large_frame (reason : string) (offset step : Z) : ProtocolError :=
  selected_frame 24 "message_too_large" reason offset step.
Definition protocol_violation (reason : string) (offset step : Z) : ProtocolError :=
  selected_frame 25 "protocol_violation" reason offset step.
Definition session_not_ready (reason : string) (offset : Z) : ProtocolError :=
  selected_frame 27 "session_not_ready" reason offset 17.
Definition unknown_channel (reason : string) (offset : Z) : ProtocolError :=
  selected_frame 7 "unknown_channel" reason offset 20.
Definition clock_unavailable (reason : string) (offset step : Z) : ProtocolError :=
  selected_frame 28 "clock_unavailable" reason offset step.
