(* ===== verification/Cbor.v ===== *)
(** * Deterministic CBOR: the decoder and the encoder

    [rclweb/src/protocol/cbor.rs] and the CBOR half of
    [rclweb/src/protocol/encode.rs].  The decoder is a recursive-descent reader
    bounded in depth (16) and map size (4096); the encoder writes shortest-form
    heads and ascending keys.  The recursion of [decode_value] is by fuel:
    [DECODE_FUEL] = 17 exceeds the depth bound, and running out of fuel (which
    the theorems show never happens) is modelled as a panic. *)

From S2P Require Import Prelude Utf8.

Definition MAX_NESTING_DEPTH : Z := 16.
Definition MAX_MAP_ENTRIES : Z := 4096.
Definition MAX_SAFE_INTEGER : Z := 9007199254740991.

Definition MT_UINT : Z := 0.
Definition MT_NINT : Z := 1.
Definition MT_BYTES : Z := 2.
Definition MT_TEXT : Z := 3.
Definition MT_ARRAY : Z := 4.
Definition MT_MAP : Z := 5.
Definition MT_TAG : Z := 6.
Definition MT_SIMPLE : Z := 7.
Definition SIMPLE_FALSE : Z := 20.
Definition SIMPLE_TRUE : Z := 21.
Definition SIMPLE_NULL : Z := 22.

Record CborError := cbor_error { cbor_reason : string; cbor_offset : Z }.

#[export] Instance CborError_eq_dec : EqDecision CborError.
Proof. solve_decision. Defined.

#[local] Set Warnings "-register-all".

Inductive CborValue :=
| Null
| Bool (b : bool)
| Unsigned (v : Z)
| Negative (v : Z)
| Bytes (b : bytes)
| Text (t : bytes)
| Array (items : list CborValue)
| Map (entries : list (Z * CborValue)).

(** ** The decoder *)

Record Reader := mk_rd { rd_bytes : bytes; rd_offset : Z }.

Definition advance (n : Z) (r : Reader) : Reader := mk_rd (rd_bytes r) (rd_offset r + n).

Record Head := { major : Z; additional : Z; argument : Z; head_offset : Z }.

Section Decoder.
Context `{Target}.

Abbreviation D := (SM Reader CborError).

(** [saturating_sub]. *)
Definition rd_remaining (r : Reader) : Z := Z.max 0 (blen (rd_bytes r) - rd_offset r).

Definition fail_at {A} (reason : string) (at_ : Z) : D A := throw (cbor_error reason at_).
Definition fail_here {A} (reason : string) : D A :=
  r <~ gets id ;; fail_at reason (rd_offset r).

Definition read_byte : D Z :=
  r <~ gets id ;;
  if blen (rd_bytes r) <=? rd_offset r then fail_here "truncated"
  else
    b <~ lift (index (rd_bytes r) (rd_offset r)) ;;
    modify (advance 1) ;;~ ret b.

Definition read_slice (n : Z) : D bytes :=
  r <~ gets id ;;
  if rd_remaining r <? n then fail_here "truncated"
  else
    let start := rd_offset r in
    modify (advance n) ;;~
    r' <~ gets id ;;
    lift (slice (rd_bytes r') start (rd_offset r')).

(** [for _ in 0..n { arg = (arg << 8) | u64::from(r.read_byte()?) }]. *)
Fixpoint read_arg (n : nat) (arg : Z) : D Z :=
  match n with
  | O => ret arg
  | S n' =>
      b <~ read_byte ;;
      read_arg n' (Z.lor (as_unsigned 64 (Z.shiftl arg 8)) b)
  end.

(** An argument of [n] bytes that may not be below [least]. *)
Definition read_long_head (n : nat) (least maj add at_ : Z) (integer_argument : bool) : D Head :=
  r <~ gets id ;;
  if rd_remaining r <? Z.of_nat n then fail_at "truncated" at_
  else
    arg <~ read_arg n 0 ;;
    if integer_argument && (arg <? least) then fail_at "non_shortest_form" at_
    else ret {| major := maj; additional := add; argument := arg; head_offset := at_ |}.

Definition read_head : D Head :=
  r <~ gets id ;;
  let at_ := rd_offset r in
  if rd_remaining r =? 0 then fail_at "truncated" at_
  else
    initial <~ read_byte ;;
    let maj := Z.shiftr initial 5 in
    let add := Z.land initial 31 in
    let integer_argument := negb ((maj =? MT_SIMPLE) && (25 <=? add) && (add <=? 27)) in
    if add <=? 23 then
      ret {| major := maj; additional := add; argument := add; head_offset := at_ |}
    else if add =? 24 then read_long_head 1 24 maj add at_ true
    else if add =? 25 then read_long_head 2 0x100 maj add at_ integer_argument
    else if add =? 26 then read_long_head 4 0x10000 maj add at_ integer_argument
    else if add =? 27 then read_long_head 8 0x100000000 maj add at_ integer_argument
    else if add =? 31 then fail_at "indefinite_length" at_
    else fail_at "reserved_additional_info" at_.

Definition length_to_usize (arg at_ : Z) : outcome CborError Z :=
  if MAX_SAFE_INTEGER <? arg then Err (cbor_error "length_out_of_range" at_)
  else ok_or (try_from usize_max arg) (cbor_error "length_out_of_range" at_).

(** The element loop of an array; [item] decodes one element. *)
Fixpoint decode_items (n : nat) (item : D CborValue) (out : list CborValue)
    : D (list CborValue) :=
  match n with
  | O => ret out
  | S n' => v <~ item ;; decode_items n' item (out ++ [v])
  end.

(** The entry loop of a map: keys are unsigned, never seen before, ascending. *)
Fixpoint decode_entries (n : nat) (item : D CborValue) (seen : list Z) (prev : option Z)
    (out : list (Z * CborValue)) : D (list (Z * CborValue)) :=
  match n with
  | O => ret out
  | S n' =>
      key_head <~ read_head ;;
      if negb (major key_head =? MT_UINT) then
        fail_at "map_key_not_unsigned" (head_offset key_head)
      else
        let key := argument key_head in
        if existsb (Z.eqb key) seen then fail_at "duplicate_map_key" (head_offset key_head)
        else if match prev with Some p => key <? p | None => false end then
          fail_at "map_key_order" (head_offset key_head)
        else
          val <~ item ;;
          decode_entries n' item (key :: seen) (Some key) (out ++ [(key, val)])
  end.

Fixpoint decode_value (fuel : nat) (depth : Z) : D CborValue :=
  match fuel with
  | O => lift Panic
  | S fuel' =>
      h <~ read_head ;;
      let at_ := head_offset h in
      let arg := argument h in
      if major h =? MT_UINT then ret (Unsigned arg)
      else if major h =? MT_NINT then ret (Negative (-1 - arg))
      else if major h =? MT_BYTES then
        len <~ lift (length_to_usize arg at_) ;;
        s <~ read_slice len ;;
        ret (Bytes s)
      else if major h =? MT_TEXT then
        len <~ lift (length_to_usize arg at_) ;;
        s <~ read_slice len ;;
        if utf8_valid s then ret (Text s) else fail_at "invalid_utf8" at_
      else if major h =? MT_ARRAY then
        let next := usize_add depth 1 in
        if MAX_NESTING_DEPTH <? next then fail_at "nesting_depth_exceeded" at_
        else
          len <~ lift (length_to_usize arg at_) ;;
          r <~ gets id ;;
          if rd_remaining r <? len then fail_at "truncated" at_
          else
            items <~ decode_items (Z.to_nat len) (decode_value fuel' next) [] ;;
            ret (Array items)
      else if major h =? MT_MAP then
        let next := usize_add depth 1 in
        if MAX_NESTING_DEPTH <? next then fail_at "nesting_depth_exceeded" at_
        else if MAX_MAP_ENTRIES <? arg then fail_at "map_entries_exceeded" at_
        else
          len <~ lift (length_to_usize arg at_) ;;
          r <~ gets id ;;
          if (0 <? len) && (rd_remaining r <? Z.min usize_max (len * 2)) then
            fail_at "truncated" at_
          else
            entries <~ decode_entries (Z.to_nat len) (decode_value fuel' next) [] None [] ;;
            ret (Map entries)
      else if major h =? MT_TAG then fail_at "tag_not_allowed" at_
      else if major h =? MT_SIMPLE then
        if (additional h =? 25) || (additional h =? 26) || (additional h =? 27) then
          fail_at "float_not_allowed" at_
        else
          let simple := if additional h =? 24 then as_unsigned 8 arg else additional h in
          if simple =? SIMPLE_FALSE then ret (Bool false)
          else if simple =? SIMPLE_TRUE then ret (Bool true)
          else if simple =? SIMPLE_NULL then ret Null
          else fail_at "simple_not_allowed" at_
      else fail_at "unsupported_major_type" at_
  end.

(** One level more than the depth bound. *)
Definition DECODE_FUEL : nat := 17.

Definition decode_deterministic_cbor (bs : bytes) : outcome CborError CborValue :=
  match bs with
  | [] => Err (cbor_error "empty_input" 0)
  | _ =>
      match decode_value DECODE_FUEL 0 (mk_rd bs 0) with
      | (Ok value, r) =>
          if negb (rd_offset r =? blen bs) then Err (cbor_error "trailing_data" (rd_offset r))
          else Ok value
      | (Err e, _) => Err e
      | (Panic, _) => Panic
      end
  end.

End Decoder.

(** ** The encoder *)

Record EncodeError := encode_error { encode_reason : string }.

Definition write_head (out : bytes) (maj arg : Z) : bytes :=
  let mt := as_unsigned 8 (Z.shiftl maj 5) in
  if arg <=? 23 then out ++ [Z.lor mt (as_unsigned 8 arg)]
  else if arg <=? 0xff then out ++ [Z.lor mt 24] ++ [as_unsigned 8 arg]
  else if arg <=? 0xffff then out ++ [Z.lor mt 25] ++ to_be 2 (as_unsigned 16 arg)
  else if arg <=? 0xffffffff then out ++ [Z.lor mt 26] ++ to_be 4 (as_unsigned 32 arg)
  else out ++ [Z.lor mt 27] ++ to_be 8 arg.

(** [sort_by_key] is a stable sort. *)
Fixpoint insert_by_key {A} (p : Z * A) (l : list (Z * A)) : list (Z * A) :=
  match l with
  | [] => [p]
  | q :: l' => if fst p <=? fst q then p :: q :: l' else q :: insert_by_key p l'
  end.
Definition sort_by_key {A} (l : list (Z * A)) : list (Z * A) := foldr insert_by_key [] l.

(** Two neighbours with the same key ([windows(2)]). *)
Fixpoint has_duplicate {A} (l : list (Z * A)) : bool :=
  match l with
  | p :: (q :: _) as l' => (fst p =? fst q) || has_duplicate l'
  | _ => false
  end.

(** Thread the output buffer through a list of writers. *)
Fixpoint write_each {E A} (ws : list A) (write : A -> bytes -> outcome E bytes) (out : bytes)
    : outcome E bytes :=
  match ws with
  | [] => Ok out
  | w :: ws' => out' <-- write w out ;; write_each ws' write out'
  end.

Section Encoder.
Context `{Target}.

Fixpoint encode_value (value : CborValue) (depth : Z) (out : bytes)
    : outcome EncodeError bytes :=
  match value with
  | Null => Ok (out ++ [0xf6])
  | Bool false => Ok (out ++ [0xf4])
  | Bool true => Ok (out ++ [0xf5])
  | Unsigned v => Ok (write_head out 0 v)
  | Negative v =>
      if 0 <=? v then Err (encode_error "negative_out_of_range")
      else
        let argument := -1 - v in
        if u64_max <? argument then Err (encode_error "negative_out_of_range")
        else Ok (write_head out 1 argument)
  | Bytes b => Ok (write_head out 2 (blen b) ++ b)
  | Text t => Ok (write_head out 3 (blen t) ++ t)
  | Array items =>
      let next := usize_add depth 1 in
      if MAX_NESTING_DEPTH <? next then Err (encode_error "nesting_depth_exceeded")
      else
        write_each (map (fun item => encode_value item next) items) (fun w => w)
          (write_head out 4 (blen items))
  | Map entries =>
      let next := usize_add depth 1 in
      if MAX_NESTING_DEPTH <? next then Err (encode_error "nesting_depth_exceeded")
      else if MAX_MAP_ENTRIES <? blen entries then Err (encode_error "map_entries_exceeded")
      else
        let sorted := sort_by_key (map (fun '(k, v) => (k, encode_value v next)) entries) in
        if has_duplicate sorted then Err (encode_error "duplicate_map_key")
        else
          write_each sorted (fun '(k, w) out => w (write_head out 0 k))
            (write_head out 5 (blen sorted))
  end.

Definition encode_deterministic_cbor (value : CborValue) : outcome EncodeError bytes :=
  encode_value value 0 [].

End Encoder.

(** ** Lemmas: integers and heads *)

Lemma lor_shiftl a b n :
  0 <= n -> 0 <= b < 2 ^ n -> Z.lor (Z.shiftl a n) b = a * 2 ^ n + b.
Proof.
  intros Hn Hb.
  assert (Hland : Z.land (Z.shiftl a n) b = 0).
  { apply Z.bits_inj'. intros i Hi. rewrite Z.land_spec, Z.bits_0.
    destruct (Z.lt_ge_cases i n).
    - by rewrite Z.shiftl_spec_low.
    - destruct (Z.eq_dec b 0) as [-> |]; [by rewrite Z.bits_0, andb_false_r |].
      rewrite (Z.bits_above_log2 b i); [by rewrite andb_false_r | lia |].
      apply Z.log2_lt_pow2; [lia |]. pose proof (Z.pow_le_mono_r 2 n i). lia. }
  rewrite <- Z.lxor_lor, <- Z.add_nocarry_lxor by done.
  by rewrite Z.shiftl_mul_pow2.
Qed.

Lemma of_be_cons b s : of_be (b :: s) = b * 256 ^ blen s + of_be s.
Proof.
  unfold of_be. cbn [rev].
  assert (Happ : forall l x, of_le (l ++ [x]) = of_le l + x * 256 ^ blen l).
  { induction l as [|y l IH]; intros x; [vm_compute (blen []); cbn [app of_le]; lia |].
    cbn [app of_le]. rewrite IH, blen_cons, Z.pow_add_r by (pose proof (blen_nonneg l); lia). lia. }
  rewrite Happ, blen_rev. lia.
Qed.

Definition head_bytes (maj arg : Z) : bytes :=
  if arg <=? 23 then [maj * 32 + arg]
  else if arg <=? 0xff then (maj * 32 + 24) :: to_be 1 arg
  else if arg <=? 0xffff then (maj * 32 + 25) :: to_be 2 arg
  else if arg <=? 0xffffffff then (maj * 32 + 26) :: to_be 4 arg
  else (maj * 32 + 27) :: to_be 8 arg.

Definition u64 (v : Z) : Prop := 0 <= v <= u64_max.

Lemma write_head_app out maj arg :
  0 <= maj <= 7 -> u64 arg -> write_head out maj arg = out ++ head_bytes maj arg.
Proof.
  intros Hm [H0 H1]. unfold u64_max in H1. unfold write_head, head_bytes.
  assert (as_unsigned 8 (Z.shiftl maj 5) = Z.shiftl maj 5) as ->.
  { apply as_unsigned_small. unfold is_unsigned. rewrite Z.shiftl_mul_pow2 by lia. lia. }
  repeat zcase; rewrite ?as_unsigned_small by (unfold is_unsigned; lia);
    rewrite lor_shiftl by lia; change (2 ^ 5) with 32; try done.
  cbn. unfold to_be. cbn. by rewrite Z.mod_small by lia.
Qed.

Lemma head_bytes_len maj arg : 1 <= blen (head_bytes maj arg) <= 9.
Proof.
  unfold head_bytes. repeat case_match; rewrite ?blen_single, ?blen_cons, ?blen_to_be; lia.
Qed.

Lemma head_bytes_ok maj arg : 0 <= maj <= 7 -> u64 arg -> bytes_ok (head_bytes maj arg).
Proof.
  intros Hm [H0 H1]. unfold head_bytes.
  repeat zcase; apply bytes_ok_cons; (split; [unfold is_byte; lia |]);
    try apply bytes_ok_to_be; constructor.
Qed.

(** ** Lemmas: the reader *)

Section Reads.
Context `{Target}.
Implicit Types r : Reader.

Definition left (r : Reader) : bytes := drop (Z.to_nat (rd_offset r)) (rd_bytes r).

Definition rd_wf (r : Reader) : Prop :=
  bytes_ok (rd_bytes r) /\ 0 <= rd_offset r <= blen (rd_bytes r) /\
  blen (rd_bytes r) <= isize_max.

Lemma blen_left r : rd_wf r -> blen (left r) = blen (rd_bytes r) - rd_offset r.
Proof. intros (_ & Ho & _). unfold left, blen in *. rewrite length_drop. lia. Qed.

Lemma rd_remaining_left r : rd_wf r -> rd_remaining r = blen (left r).
Proof. intros Hr. rewrite blen_left by done. unfold rd_remaining. destruct Hr; lia. Qed.

Lemma left_ok r : rd_wf r -> bytes_ok (left r).
Proof. intros (Hb & _). by apply Forall_drop. Qed.

Lemma advance_advance m n r : advance n (advance m r) = advance (m + n) r.
Proof. unfold advance. simpl. by rewrite Z.add_assoc. Qed.

Lemma advance_left r s t :
  rd_wf r -> left r = s ++ t -> rd_wf (advance (blen s) r) /\ left (advance (blen s) r) = t.
Proof.
  intros Hr E. pose proof (blen_left r Hr) as Hl. rewrite E, blen_app in Hl.
  pose proof (blen_nonneg s). pose proof (blen_nonneg t). destruct Hr as (Hb & Ho & Hm).
  split; [split_and!; simpl; [done | lia | lia | done] |].
  unfold left in *. simpl. rewrite Z2Nat.inj_add by lia. rewrite <- drop_drop, E.
  unfold blen. rewrite Nat2Z.id. by rewrite drop_app_length.
Qed.

Lemma advance_0 r : advance 0 r = r.
Proof. unfold advance. destruct r; simpl. by rewrite Z.add_0_r. Qed.

Lemma read_byte_cons r b t : rd_wf r -> left r = b :: t -> read_byte r = (Ok b, advance 1 r).
Proof.
  intros Hr E. pose proof (blen_left r Hr) as Hl. rewrite E, blen_cons in Hl.
  pose proof (blen_nonneg t). unfold read_byte, bind, gets, id, lift, modify, ret.
  destruct (Z.leb_spec (blen (rd_bytes r)) (rd_offset r)); [lia |].
  unfold index. destruct Hr as (_ & Ho & _). zcmp.
  unfold left in E. destruct (rd_bytes r !! Z.to_nat (rd_offset r)) as [x |] eqn:Hx.
  - rewrite (drop_S _ _ _ Hx) in E. by injection E as -> _.
  - apply lookup_ge_None in Hx. unfold blen in *. lia.
Qed.

Lemma read_byte_nil r :
  rd_wf r -> left r = [] -> read_byte r = (Err (cbor_error "truncated" (rd_offset r)), r).
Proof.
  intros Hr E. pose proof (blen_left r Hr) as Hl. rewrite E in Hl. change (blen []) with 0 in Hl.
  unfold read_byte, bind, gets, id. zcmp. done.
Qed.

Lemma read_slice_app r s t :
  rd_wf r -> left r = s ++ t -> read_slice (blen s) r = (Ok s, advance (blen s) r).
Proof.
  intros Hr E. pose proof (blen_left r Hr) as Hl. rewrite E, blen_app in Hl.
  pose proof (blen_nonneg t). pose proof (blen_nonneg s).
  unfold read_slice, bind, gets, id, lift, modify. rewrite rd_remaining_left, blen_left by done.
  zcmp. simpl. destruct Hr as (_ & Ho & _). rewrite slice_ok by lia. do 2 f_equal.
  unfold sub_list. unfold left in E. rewrite E.
  replace (rd_offset r + blen s - rd_offset r) with (blen s) by lia.
  unfold blen. rewrite Nat2Z.id. by rewrite take_app_length.
Qed.

Lemma read_slice_short r n :
  rd_wf r -> blen (left r) < n ->
  read_slice n r = (Err (cbor_error "truncated" (rd_offset r)), r).
Proof.
  intros Hr Hn. unfold read_slice, bind, gets, id. rewrite rd_remaining_left by done. zcmp. done.
Qed.

Lemma read_arg_app n arg r s t :
  rd_wf r -> left r = s ++ t -> length s = n -> 0 <= arg ->
  arg * 256 ^ Z.of_nat n + of_be s < 2 ^ 64 ->
  read_arg n arg r = (Ok (arg * 256 ^ Z.of_nat n + of_be s), advance (blen s) r).
Proof.
  revert arg r s. induction n as [|n IH]; intros arg r s Hr E Hn Ha Hb.
  { destruct s; [| done]. cbn. rewrite advance_0. unfold ret. do 2 f_equal. lia. }
  destruct s as [|b s]; [done |]. injection Hn as Hn.
  cbn [read_arg]. unfold bind. rewrite (read_byte_cons r b (s ++ t)) by done.
  pose proof (left_ok r Hr) as Hok. rewrite E in Hok. apply bytes_ok_app in Hok as [Hok _].
  apply bytes_ok_cons in Hok as [Hb0 Hok]. unfold is_byte in Hb0.
  assert (0 <= of_be s) by by apply of_be_bound.
  rewrite of_be_cons in *. assert (blen s = Z.of_nat n) as Hbl by (unfold blen; lia).
  rewrite Hbl in *. rewrite Nat2Z.inj_succ, Z.pow_succ_r in * by lia.
  assert (0 < 256 ^ Z.of_nat n) by (apply Z.pow_pos_nonneg; lia).
  assert (as_unsigned 64 (Z.shiftl arg 8) = Z.shiftl arg 8) as ->.
  { apply as_unsigned_small. unfold is_unsigned. rewrite Z.shiftl_mul_pow2 by lia. nia. }
  rewrite lor_shiftl by lia. change (2 ^ 8) with 256.
  destruct (advance_left r [b] (s ++ t) Hr E) as [Hr' El].
  rewrite blen_single in *. rewrite (IH _ _ s) by (done || nia).
  rewrite advance_advance, blen_cons. do 2 f_equal. nia.
Qed.

Lemma initial_byte maj add :
  0 <= add <= 31 -> Z.shiftr (maj * 32 + add) 5 = maj /\ Z.land (maj * 32 + add) 31 = add.
Proof.
  intros Ha. rewrite Z.shiftr_div_pow2 by lia. change 31 with (Z.ones 5).
  rewrite Z.land_ones by lia. change (2 ^ 5) with 32. split.
  - symmetry. apply (Z.div_unique_pos _ _ _ add); lia.
  - symmetry. apply (Z.mod_unique_pos _ _ maj); lia.
Qed.

Lemma read_long_head_app n least maj add at_ ia r s t :
  rd_wf r -> left r = s ++ t -> length s = n -> (n <= 8)%nat ->
  read_long_head n least maj add at_ ia r =
    if ia && (of_be s <? least) then (Err (cbor_error "non_shortest_form" at_), advance (blen s) r)
    else (Ok {| major := maj; additional := add; argument := of_be s; head_offset := at_ |},
          advance (blen s) r).
Proof.
  intros Hr E Hn H8. unfold read_long_head, bind, gets, id.
  pose proof (left_ok r Hr) as Hok. rewrite E in Hok. apply bytes_ok_app in Hok as [Hok _].
  apply of_be_bound in Hok as Hbe. assert (blen s = Z.of_nat n) as Hbl by (unfold blen; lia).
  rewrite rd_remaining_left, E, blen_app by done. pose proof (blen_nonneg t). zcmp.
  rewrite (read_arg_app n 0 r s t); [| done..| lia |].
  - rewrite Z.mul_0_l, Z.add_0_l. by destruct (ia && _).
  - rewrite Hbl in Hbe. pose proof (Z.pow_le_mono_r 256 (Z.of_nat n) 8 ltac:(lia) ltac:(lia)).
    change (256 ^ 8) with (2 ^ 64) in *. lia.
Qed.

Lemma read_head_init r b t :
  rd_wf r -> left r = b :: t ->
  read_head r =
    (let at_ := rd_offset r in
     let maj := Z.shiftr b 5 in
     let add := Z.land b 31 in
     let integer_argument := negb ((maj =? MT_SIMPLE) && (25 <=? add) && (add <=? 27)) in
     if add <=? 23 then
       ret {| major := maj; additional := add; argument := add; head_offset := at_ |}
     else if add =? 24 then read_long_head 1 24 maj add at_ true
     else if add =? 25 then read_long_head 2 0x100 maj add at_ integer_argument
     else if add =? 26 then read_long_head 4 0x10000 maj add at_ integer_argument
     else if add =? 27 then read_long_head 8 0x100000000 maj add at_ integer_argument
     else if add =? 31 then fail_at "indefinite_length" at_
     else fail_at "reserved_additional_info" at_) (advance 1 r).
Proof.
  intros Hr E. unfold read_head at 1. unfold bind at 1. unfold gets at 1.
  rewrite rd_remaining_left by done. unfold id. rewrite E, blen_cons.
  pose proof (blen_nonneg t). zcmp. unfold bind at 1. by rewrite (read_byte_cons r b t).
Qed.

(** Reading back a head the encoder wrote. *)
Lemma read_head_app r maj arg t :
  rd_wf r -> 0 <= maj <= 6 -> u64 arg -> left r = head_bytes maj arg ++ t ->
  exists add, read_head r =
    (Ok {| major := maj; additional := add; argument := arg; head_offset := rd_offset r |},
     advance (blen (head_bytes maj arg)) r).
Proof.
  intros Hr Hm [H0 H1] E. unfold u64_max in H1. unfold head_bytes in *.
  assert (Hlong : forall n add least,
    left r = (maj * 32 + add) :: to_be n arg ++ t -> 24 <= add <= 27 -> (n <= 8)%nat ->
    arg < 256 ^ Z.of_nat n -> least <= arg ->
    read_long_head n least maj add (rd_offset r) true (advance 1 r) =
      (Ok {| major := maj; additional := add; argument := arg; head_offset := rd_offset r |},
       advance (blen ((maj * 32 + add) :: to_be n arg)) r)).
  { intros n add least El Ha Hn Hlt Hle.
    destruct (advance_left r [maj * 32 + add] (to_be n arg ++ t) Hr El) as [Hr' El'].
    rewrite blen_single in *.
    rewrite (read_long_head_app n least maj add _ true _ (to_be n arg) t); [| done | done | | done].
    - rewrite of_be_to_be by lia. zcmp. by rewrite advance_advance, blen_cons.
    - pose proof (blen_to_be n arg). unfold blen in *. lia. }
  assert (Hia : negb ((maj =? MT_SIMPLE) && true && true) = true)
    by (unfold MT_SIMPLE; zcmp; done).
  revert E. repeat zcase; intros E; cbn [app] in E;
    (rewrite (read_head_init r _ _ Hr E); cbv zeta);
    match goal with |- context [Z.shiftr (maj * 32 + ?a) 5] =>
      destruct (initial_byte maj a ltac:(lia)) as [-> ->] end.
  - exists arg. zcmp. by rewrite blen_single.
  - exists 24. cbn [Z.leb Z.eqb Z.compare Pos.compare Pos.compare_cont Pos.eqb].
    apply Hlong; [done | lia | lia | lia | lia].
  - exists 25. cbn [Z.leb Z.eqb Z.compare Pos.compare Pos.compare_cont Pos.eqb]. rewrite Hia.
    apply Hlong; [done | lia | lia | lia | lia].
  - exists 26. cbn [Z.leb Z.eqb Z.compare Pos.compare Pos.compare_cont Pos.eqb]. rewrite Hia.
    apply Hlong; [done | lia | lia | lia | lia].
  - exists 27. cbn [Z.leb Z.eqb Z.compare Pos.compare Pos.compare_cont Pos.eqb]. rewrite Hia.
    apply Hlong; [done | lia | lia | lia | lia].
Qed.

(** Reading a simple value. *)
Lemma read_head_simple r x t :
  rd_wf r -> 0 <= x <= 23 -> left r = (224 + x) :: t ->
  read_head r =
    (Ok {| major := 7; additional := x; argument := x; head_offset := rd_offset r |}, advance 1 r).
Proof.
  intros Hr Hx E. rewrite (read_head_init r _ _ Hr E). cbv zeta.
  replace (224 + x) with (7 * 32 + x) by lia.
  destruct (initial_byte 7 x ltac:(lia)) as [-> ->]. by zcmp.
Qed.

Lemma read_long_head_sound n least maj add at_ ia r :
  rd_wf r -> (n <= 8)%nat ->
  match read_long_head n least maj add at_ ia r with
  | (Ok h, r') => exists s t, left r = s ++ t /\ length s = n /\ r' = advance (blen s) r /\
      h = {| major := maj; additional := add; argument := of_be s; head_offset := at_ |} /\
      (ia = true -> least <= of_be s)
  | (Err e, r') => cbor_offset e = at_ /\ rd_bytes r' = rd_bytes r
  | (Panic, _) => False
  end.
Proof.
  intros Hr H8. destruct (Z.lt_ge_cases (blen (left r)) (Z.of_nat n)).
  { unfold read_long_head, bind, gets, id. rewrite rd_remaining_left by done. zcmp. done. }
  rewrite (read_long_head_app n least maj add at_ ia r (take n (left r)) (drop n (left r)));
    [| done | by rewrite take_drop | | done].
  2: { rewrite length_take. unfold blen in *. lia. }
  destruct (ia && _) eqn:Eia; [done |].
  exists (take n (left r)), (drop n (left r)). split_and!; [by rewrite take_drop | | done | done |].
  - rewrite length_take. unfold blen in *. lia.
  - intros ->. simpl in Eia. lia.
Qed.

(** What a successful head read consumed. *)
Definition head_shape (h : Head) (s : bytes) : Prop :=
  0 <= major h <= 7 /\ u64 (argument h) /\ 1 <= blen s /\
  (major h <> 7 -> s = head_bytes (major h) (argument h)) /\
  (major h = 7 ->
     (0 <= additional h <= 23 /\ s = [224 + additional h]) \/
     (additional h = 24 /\ 24 <= argument h <= 255) \/ 25 <= additional h <= 27).

Lemma head_bytes_long maj n arg add s :
  bytes_ok s -> length s = n -> arg = of_be s -> 0 <= maj ->
  (n = 1%nat /\ add = 24 /\ 24 <= arg \/ n = 2%nat /\ add = 25 /\ 0x100 <= arg \/
   n = 4%nat /\ add = 26 /\ 0x10000 <= arg \/ n = 8%nat /\ add = 27 /\ 0x100000000 <= arg) ->
  u64 arg /\ (maj * 32 + add) :: s = head_bytes maj arg.
Proof.
  intros Hs Hn -> Hm Hcase. pose proof (of_be_bound s Hs) as Hb.
  pose proof (to_be_of_be s Hs) as Hto. unfold blen in Hb. rewrite Hn in *.
  unfold u64, u64_max, head_bytes.
  destruct Hcase as [(-> & -> & Hl) | [(-> & -> & Hl) | [(-> & -> & Hl) | (-> & -> & Hl)]]];
    [change (256 ^ Z.of_nat 1) with 256 in Hb | change (256 ^ Z.of_nat 2) with 65536 in Hb
    | change (256 ^ Z.of_nat 4) with 4294967296 in Hb
    | change (256 ^ Z.of_nat 8) with 18446744073709551616 in Hb];
    (split; [lia |]); zcmp; by rewrite Hto.
Qed.

Lemma read_head_sound r :
  rd_wf r ->
  match read_head r with
  | (Ok h, r') => exists s t, left r = s ++ t /\ r' = advance (blen s) r /\
      head_offset h = rd_offset r /\ head_shape h s
  | (Err e, r') => cbor_offset e = rd_offset r /\ rd_bytes r' = rd_bytes r
  | (Panic, _) => False
  end.
Proof.
  intros Hr. destruct (left r) as [|b t] eqn:E.
  { unfold read_head, bind, gets, id. rewrite rd_remaining_left, E by done. done. }
  rewrite (read_head_init r b t) by done. cbv zeta.
  pose proof (left_ok r Hr) as Hok. rewrite E in Hok. apply bytes_ok_cons in Hok as [Hb Hok].
  unfold is_byte in Hb. destruct (advance_left r [b] t Hr E) as [Hr' El]. rewrite blen_single in *.
  assert (exists maj add, b = maj * 32 + add /\ 0 <= maj <= 7 /\ 0 <= add <= 31) as (maj & add & -> & Hm & Ha).
  { exists (b / 32), (b mod 32). pose proof (Z.div_mod b 32). pose proof (Z.mod_pos_bound b 32). lia. }
  destruct (initial_byte maj add Ha) as [-> ->].
  destruct (Z.leb_spec add 23).
  { exists [maj * 32 + add], t. split_and!; [done | by rewrite blen_single | done |].
    split_and!; simpl; [lia | lia | unfold u64, u64_max; lia
      | rewrite blen_single; lia | |].
    - intros _. unfold head_bytes. by zcmp.
    - intros ->. left. split; [lia | f_equal; lia]. }
  assert (Hlong : forall n least ia,
    (n = 1%nat /\ add = 24 /\ least = 24 /\ ia = true \/ n = 2%nat /\ add = 25 /\ least = 0x100 \/
     n = 4%nat /\ add = 26 /\ least = 0x10000 \/ n = 8%nat /\ add = 27 /\ least = 0x100000000) ->
    (maj <> 7 -> ia = true) ->
    match read_long_head n least maj add (rd_offset r) ia (advance 1 r) with
    | (Ok h, r') => exists s t', (maj * 32 + add) :: t = s ++ t' /\ r' = advance (blen s) r /\
        head_offset h = rd_offset r /\ head_shape h s
    | (Err e, r') => cbor_offset e = rd_offset r /\ rd_bytes r' = rd_bytes r
    | (Panic, _) => False
    end).
  { intros n least ia Hn Hia.
    pose proof (read_long_head_sound n least maj add (rd_offset r) ia (advance 1 r) Hr' ltac:(lia)) as Hs.
    destruct (read_long_head _ _ _ _ _ _ _) as [[h | e |] r']; [| done | done].
    destruct Hs as (s & t' & Et & Hlen & -> & -> & Hle). rewrite El in Et. rewrite Et in *.
    apply bytes_ok_app in Hok as [Hs _].
    exists ((maj * 32 + add) :: s), t'. split_and!; [done | | done |].
    { by rewrite advance_advance, blen_cons. }
    pose proof (of_be_bound s Hs) as Hbe. unfold blen in Hbe. rewrite Hlen in Hbe.
    pose proof (Z.pow_le_mono_r 256 (Z.of_nat n) 8 ltac:(lia) ltac:(lia)).
    change (256 ^ 8) with 18446744073709551616 in *.
    split_and!; simpl; [lia | lia | unfold u64, u64_max; lia | | |].
    - rewrite blen_cons. pose proof (blen_nonneg s). lia.
    - intros Hne. apply (head_bytes_long maj n (of_be s) add s); [done.. | lia |].
      specialize (Hle (Hia Hne)). lia.
    - intros Heq. right. destruct Hn as [(-> & -> & -> & ->) | Hn]; [| right; lia].
      left. specialize (Hle eq_refl). change (256 ^ Z.of_nat 1) with 256 in Hbe. lia. }
  destruct (Z.eqb_spec add 24); [apply Hlong; [lia | done] |].
  assert (Hia : maj <> 7 -> negb ((maj =? MT_SIMPLE) && (25 <=? add) && (add <=? 27)) = true).
  { intros. unfold MT_SIMPLE. by zcmp. }
  destruct (Z.eqb_spec add 25); [by apply Hlong; [lia |] |].
  destruct (Z.eqb_spec add 26); [by apply Hlong; [lia |] |].
  destruct (Z.eqb_spec add 27); [by apply Hlong; [lia |] |].
  by destruct (Z.eqb_spec add 31).
Qed.

(** ** Canonical values and their encoding *)

Fixpoint ascending (ks : list Z) : bool :=
  match ks with
  | k :: (k' :: _) as ks' => (k <? k') && ascending ks'
  | _ => true
  end.

(** The values of the deterministic profile at nesting level [depth]. *)
Fixpoint cbor_okb (v : CborValue) (depth : Z) : bool :=
  match v with
  | Null => true
  | Bool _ => true
  | Unsigned n => (0 <=? n) && (n <=? u64_max)
  | Negative n => (- u64_max - 1 <=? n) && (n <=? -1)
  | Bytes b => forallb (fun x => (0 <=? x) && (x <? 256)) b && (blen b <=? MAX_SAFE_INTEGER)
  | Text t => utf8_valid t && (blen t <=? MAX_SAFE_INTEGER)
  | Array items =>
      (depth <? MAX_NESTING_DEPTH) && (blen items <=? MAX_SAFE_INTEGER) &&
      forallb (fun i => cbor_okb i (depth + 1)) items
  | Map entries =>
      (depth <? MAX_NESTING_DEPTH) && (blen entries <=? MAX_MAP_ENTRIES) &&
      ascending (map fst entries) &&
      forallb (fun '(k, v) => (0 <=? k) && (k <=? u64_max) && cbor_okb v (depth + 1)) entries
  end.

Fixpoint cbor_bytes (v : CborValue) : bytes :=
  match v with
  | Null => [0xf6]
  | Bool false => [0xf4]
  | Bool true => [0xf5]
  | Unsigned n => head_bytes 0 n
  | Negative n => head_bytes 1 (-1 - n)
  | Bytes b => head_bytes 2 (blen b) ++ b
  | Text t => head_bytes 3 (blen t) ++ t
  | Array items => head_bytes 4 (blen items) ++ concat (map cbor_bytes items)
  | Map entries =>
      head_bytes 5 (blen entries) ++
      concat (map (fun '(k, v) => head_bytes 0 k ++ cbor_bytes v) entries)
  end.

Definition entry_bytes (p : Z * CborValue) : bytes :=
  head_bytes 0 (fst p) ++ cbor_bytes (snd p).

Lemma cbor_bytes_map entries :
  cbor_bytes (Map entries) = head_bytes 5 (blen entries) ++ concat (map entry_bytes entries).
Proof. cbn [cbor_bytes]. do 2 f_equal. apply map_ext. by intros []. Qed.

(** Induction over nested values. *)
Lemma CborValue_nested_ind (P : CborValue -> Prop) :
  P Null -> (forall b, P (Bool b)) -> (forall n, P (Unsigned n)) -> (forall n, P (Negative n)) ->
  (forall b, P (Bytes b)) -> (forall t, P (Text t)) ->
  (forall items, Forall P items -> P (Array items)) ->
  (forall entries, Forall (fun p => P (snd p)) entries -> P (Map entries)) ->
  forall v, P v.
Proof.
  intros HN HB HU HG HBy HT HA HM. fix IH 1. intros [| | | | | | items | entries].
  - exact HN.
  - apply HB.
  - apply HU.
  - apply HG.
  - apply HBy.
  - apply HT.
  - apply HA. induction items as [|v l IHl]; constructor; [apply IH | apply IHl].
  - apply HM. induction entries as [|[k v] l IHl]; constructor; [apply IH | apply IHl].
Qed.

Lemma cbor_bytes_len v : 1 <= blen (cbor_bytes v).
Proof.
  assert (Hh : forall m a s, 1 <= blen (head_bytes m a ++ s)).
  { intros m a s. rewrite blen_app. pose proof (head_bytes_len m a).
    pose proof (blen_nonneg s). lia. }
  destruct v as [| [] | n | n | b | t | l | l]; cbn [cbor_bytes]; try apply Hh;
    rewrite ?blen_single; try apply head_bytes_len; lia.
Qed.

Lemma concat_min_len {A} (f : A -> bytes) m l :
  (forall a, m <= blen (f a)) -> m * blen l <= blen (concat (map f l)).
Proof.
  intros Hf. induction l as [|a l IH]; [vm_compute (blen []); simpl; by rewrite Z.mul_0_r |].
  cbn [map concat]. rewrite blen_app, blen_cons. specialize (Hf a). lia.
Qed.

Lemma entry_bytes_len p : 2 <= blen (entry_bytes p).
Proof.
  unfold entry_bytes. rewrite blen_app. pose proof (head_bytes_len 0 (fst p)).
  pose proof (cbor_bytes_len (snd p)). lia.
Qed.

(** ** Decoding what was encoded *)

(** [item] decodes [v] from its encoding, whatever follows. *)
Definition decodes (item : SM Reader CborError CborValue) (v : CborValue) : Prop :=
  forall r t, rd_wf r -> left r = cbor_bytes v ++ t ->
    item r = (Ok v, advance (blen (cbor_bytes v)) r).

Lemma decode_items_complete item items out r t :
  Forall (decodes item) items -> rd_wf r -> left r = concat (map cbor_bytes items) ++ t ->
  decode_items (length items) item out r =
    (Ok (out ++ items), advance (blen (concat (map cbor_bytes items))) r).
Proof.
  intros Hi. revert out r. induction Hi as [|v items Hv Hi IH]; intros out r Hr E.
  { simpl. change (blen (@nil Z)) with 0. by rewrite advance_0, app_nil_r. }
  cbn [length decode_items map concat] in *. rewrite <- app_assoc in E.
  unfold bind. rewrite (Hv _ _ Hr E). destruct (advance_left _ _ _ Hr E) as [Hr' El].
  rewrite IH by done. by rewrite advance_advance, blen_app, <- app_assoc.
Qed.

Lemma ascending_seen k ks seen prev :
  ascending (k :: ks) = true -> Forall (fun s => s < k) seen ->
  existsb (Z.eqb k) seen = false /\
  match prev with Some p => In p seen | None => True end ->
  (match prev with Some p => k <? p | None => false end = false) /\
  Forall (fun s => forall k', head ks = Some k' -> s < k') (k :: seen).
Proof.
  intros Ha Hs [_ Hp]. split.
  - destruct prev as [p |]; [| done]. rewrite Forall_forall in Hs.
    specialize (Hs p (proj2 (list_elem_of_In _ _) Hp)). lia.
  - destruct ks as [|k2 ks]; [by apply Forall_true | ].
    simpl in Ha. apply andb_true_iff in Ha as [Ha _]. constructor.
    + intros k' [= <-]. lia.
    + eapply Forall_impl; [exact Hs |]. intros s Hlt k' [= <-]. cbv beta in Hlt. lia.
Qed.

Lemma decode_entries_complete item entries seen prev out r t :
  Forall (fun p => u64 (fst p) /\ decodes item (snd p)) entries ->
  ascending (map fst entries) = true ->
  Forall (fun s => forall k, head (map fst entries) = Some k -> s < k) seen ->
  match prev with Some p => In p seen | None => True end ->
  rd_wf r -> left r = concat (map entry_bytes entries) ++ t ->
  decode_entries (length entries) item seen prev out r =
    (Ok (out ++ entries), advance (blen (concat (map entry_bytes entries))) r).
Proof.
  intros Hi. revert seen prev out r.
  induction Hi as [|[k v] entries [Hk Hv] Hi IH]; intros seen prev out r Hasc Hseen Hprev Hr E.
  { simpl. change (blen (@nil Z)) with 0. by rewrite advance_0, app_nil_r. }
  cbn [length decode_entries map concat fst snd] in *. unfold entry_bytes at 1 in E.
  cbn [fst snd] in E. rewrite <- !app_assoc in E. unfold bind at 1.
  destruct (read_head_app r 0 k _ Hr ltac:(lia) Hk E) as [add ->]. cbn [major argument head_offset].
  change (0 =? MT_UINT) with true. cbn [negb].
  destruct (advance_left _ _ _ Hr E) as [Hr1 El1].
  assert (Hlt : Forall (fun s => s < k) seen).
  { eapply Forall_impl; [exact Hseen |]. intros s Hs. cbv beta in Hs. by apply Hs. }
  assert (Hex : existsb (Z.eqb k) seen = false).
  { destruct (existsb _ _) eqn:Hex; [| done]. apply existsb_exists in Hex as (s & Hin & Heq).
    rewrite Forall_forall in Hlt. specialize (Hlt s (proj2 (list_elem_of_In _ _) Hin)). lia. }
  destruct (ascending_seen k (map fst entries) seen prev Hasc Hlt (conj Hex Hprev)) as [-> Hseen'].
  rewrite Hex. unfold bind at 1. rewrite (Hv _ _ Hr1 El1).
  destruct (advance_left _ _ _ Hr1 El1) as [Hr2 El2].
  rewrite (IH _ _ _ _); [| | done | by left | done | done].
  - rewrite !advance_advance, <- app_assoc. cbn [app]. do 2 f_equal.
    unfold entry_bytes at 2. cbn [fst snd]. rewrite !blen_app. lia.
  - destruct entries as [|[k2 v2] entries]; [done |]. simpl in Hasc. 
    by apply andb_true_iff in Hasc as [_ Hasc].
Qed.

Lemma u64_len {A} (l : list A) : blen l <= isize_max -> u64 (blen l).
Proof.
  intros. pose proof (blen_nonneg l). pose proof isize_le_usize. unfold u64.
  destruct usize_max_cases as [E | E]; unfold u32_max, u64_max in *; lia.
Qed.

Lemma length_to_usize_ok n at_ :
  0 <= n -> n <= MAX_SAFE_INTEGER -> n <= isize_max -> length_to_usize n at_ = Ok n.
Proof.
  intros. unfold length_to_usize. zcmp. pose proof isize_le_usize.
  by rewrite try_from_some by lia.
Qed.

(** The head of a value, and what is left of the reader after it. *)
Lemma head_step r maj arg s t :
  rd_wf r -> 0 <= maj <= 6 -> u64 arg -> left r = (head_bytes maj arg ++ s) ++ t ->
  exists add, read_head r =
    (Ok {| major := maj; additional := add; argument := arg; head_offset := rd_offset r |},
     advance (blen (head_bytes maj arg)) r) /\
    rd_wf (advance (blen (head_bytes maj arg)) r) /\
    left (advance (blen (head_bytes maj arg)) r) = s ++ t.
Proof.
  intros Hr Hm Ha E. rewrite <- app_assoc in E.
  destruct (read_head_app r maj arg _ Hr Hm Ha E) as [add Hh]. exists add.
  destruct (advance_left _ _ _ Hr E) as [? ?]. done.
Qed.

Lemma left_part_small r s t : rd_wf r -> left r = s ++ t -> blen s <= isize_max.
Proof.
  intros Hr E. pose proof (blen_left r Hr) as Hl. rewrite E, blen_app in Hl.
  pose proof (blen_nonneg t). destruct Hr as (_ & ? & ?). lia.
Qed.

Lemma decode_value_complete v depth fuel r t :
  cbor_okb v depth = true -> 0 <= depth <= 16 -> 16 - depth < Z.of_nat fuel ->
  rd_wf r -> left r = cbor_bytes v ++ t ->
  decode_value fuel depth r = (Ok v, advance (blen (cbor_bytes v)) r).
Proof.
  revert depth fuel r t.
  induction v as [| b | n | n | b | s | items IH | entries IH] using CborValue_nested_ind;
    intros depth fuel r t Hok Hd Hfuel Hr E; destruct fuel as [|fuel]; try lia;
    cbn [decode_value cbor_okb cbor_bytes] in *; unfold bind at 1.
  - rewrite (read_head_simple r 22 t); [done | done | lia | done].
  - destruct b; cbn [cbor_bytes] in *.
    + rewrite (read_head_simple r 21 t); [done | done | lia | done].
    + rewrite (read_head_simple r 20 t); [done | done | lia | done].
  - destruct (read_head_app r 0 n t Hr) as [add ->]; [lia | unfold u64; lia | done |]. done.
  - destruct (read_head_app r 1 (-1 - n) t Hr) as [add ->];
      [lia | unfold u64; lia | done |]. cbn. unfold ret. do 3 f_equal. lia.
  - pose proof (left_part_small r _ t Hr E) as Hl. rewrite blen_app in Hl.
    pose proof (head_bytes_len 2 (blen b)). apply andb_true_iff in Hok as [_ Hok].
    destruct (head_step r 2 (blen b) b t) as (add & -> & Hr1 & El1);
      [done | lia | apply u64_len; lia | done |].
    cbn [major argument head_offset]. change (2 =? MT_UINT) with false. change (2 =? MT_NINT) with false.
    change (2 =? MT_BYTES) with true. unfold bind at 1, lift.
    rewrite length_to_usize_ok by (pose proof (blen_nonneg b); lia).
    unfold bind. rewrite (read_slice_app _ b t) by done. unfold ret.
    by rewrite advance_advance, <- blen_app.
  - pose proof (left_part_small r _ t Hr E) as Hl. rewrite blen_app in Hl.
    pose proof (head_bytes_len 3 (blen s)). apply andb_true_iff in Hok as [Hu Hok].
    destruct (head_step r 3 (blen s) s t) as (add & -> & Hr1 & El1);
      [done | lia | apply u64_len; lia | done |].
    cbn [major argument head_offset]. change (3 =? MT_UINT) with false. change (3 =? MT_NINT) with false.
    change (3 =? MT_BYTES) with false. change (3 =? MT_TEXT) with true. unfold bind at 1, lift.
    rewrite length_to_usize_ok by (pose proof (blen_nonneg s); lia).
    unfold bind. rewrite (read_slice_app _ s t) by done. rewrite Hu. unfold ret.
    by rewrite advance_advance, <- blen_app.
  - pose proof (left_part_small r _ t Hr E) as Hl. rewrite blen_app in Hl.
    pose proof (head_bytes_len 4 (blen items)). rewrite !andb_true_iff in Hok.
    destruct Hok as [[Hdep Hlen] Hall].
    pose proof (concat_min_len cbor_bytes 1 items cbor_bytes_len) as Hmin.
    destruct (head_step r 4 (blen items) (concat (map cbor_bytes items)) t) as (add & -> & Hr1 & El1);
      [done | lia | apply u64_len; lia | done |].
    unfold MAX_NESTING_DEPTH in *. pose proof usize_max_ge as Hum. unfold u32_max in Hum.
    cbn [major argument head_offset]. cbn [Z.eqb Pos.eqb MT_UINT MT_NINT MT_BYTES MT_TEXT MT_ARRAY].
    usz. zcmp. unfold bind at 1, lift.
    rewrite length_to_usize_ok by (pose proof (blen_nonneg items); lia).
    unfold bind at 1, gets at 1, id. rewrite rd_remaining_left, El1, blen_app by done.
    pose proof (blen_nonneg t). zcmp. unfold bind at 1.
    replace (Z.to_nat (blen items)) with (length items) by (unfold blen; lia).
    rewrite (decode_items_complete _ items [] _ t); [| | done | done].
    + cbn [app]. unfold ret. by rewrite advance_advance, <- blen_app.
    + apply forallb_Forall in Hall.
      eapply Forall_impl; [exact (proj2 (Forall_and _ _) (conj IH Hall)) |].
      intros v [Hv Hvok] r' t' Hr' E'. eapply Hv; [exact Hvok | lia | lia | done | done].
  - pose proof (left_part_small r _ t Hr E) as Hl. rewrite blen_app in Hl.
    pose proof (head_bytes_len 5 (blen entries)). rewrite !andb_true_iff in Hok.
    destruct Hok as [[[Hdep Hlen] Hasc] Hall].
    change (head_bytes 5 (blen entries) ++ _) with (cbor_bytes (Map entries)) in *.
    rewrite cbor_bytes_map in *.
    pose proof (concat_min_len entry_bytes 2 entries entry_bytes_len) as Hmin.
    unfold MAX_NESTING_DEPTH, MAX_MAP_ENTRIES in *.
    pose proof usize_max_ge as Hum. unfold u32_max in Hum.
    destruct (head_step r 5 (blen entries) (concat (map entry_bytes entries)) t)
      as (add & -> & Hr1 & El1);
      [done | lia | unfold u64, u64_max; pose proof (blen_nonneg entries); lia | done |].
    cbn [major argument head_offset]. cbn [Z.eqb Pos.eqb MT_UINT MT_NINT MT_BYTES MT_TEXT MT_ARRAY MT_MAP].
    usz. zcmp. unfold bind at 1, lift.
    pose proof isize_max_ge.
    rewrite length_to_usize_ok by (unfold MAX_SAFE_INTEGER; pose proof (blen_nonneg entries); lia).
    unfold bind at 1, gets at 1, id. rewrite rd_remaining_left, El1, blen_app by done.
    pose proof (blen_nonneg t).
    rewrite (proj2 (Z.ltb_ge _ (Z.min _ _))), andb_false_r by lia. unfold bind at 1.
    replace (Z.to_nat (blen entries)) with (length entries) by (unfold blen; lia).
    rewrite (decode_entries_complete _ entries [] None [] _ t); [| | done | done | done | done | done].
    + cbn [app]. unfold ret. by rewrite advance_advance, <- blen_app.
    + apply forallb_Forall in Hall.
      eapply Forall_impl; [exact (proj2 (Forall_and _ _) (conj IH Hall)) |].
      intros [k v] [Hv Hvok]. cbn [fst snd] in *. rewrite !andb_true_iff in Hvok.
      destruct Hvok as [[Hk0 Hk1] Hvok]. split; [unfold u64; lia |].
      intros r' t' Hr' E'. eapply Hv; [exact Hvok | lia | lia | done | done].
Qed.

(** ** What decoding accepts *)

(** A decoder of one item is sound at level [d]: a success is a canonical value
    whose encoding is what was consumed, an error lies in the input ahead, and
    there is no third outcome. *)
Definition sound_item (item : SM Reader CborError CborValue) (d : Z) : Prop :=
  forall r, rd_wf r ->
    match item r with
    | (Ok v, r') => cbor_okb v d = true /\
        exists t, left r = cbor_bytes v ++ t /\ r' = advance (blen (cbor_bytes v)) r
    | (Err e, _) => rd_offset r <= cbor_offset e <= blen (rd_bytes r)
    | (Panic, _) => False
    end.

Lemma err_later r n e :
  0 <= n -> rd_offset (advance n r) <= cbor_offset e <= blen (rd_bytes (advance n r)) ->
  rd_offset r <= cbor_offset e <= blen (rd_bytes r).
Proof. simpl. lia. Qed.

Lemma decode_items_sound item d n out r :
  sound_item item d -> rd_wf r ->
  match decode_items n item out r with
  | (Ok l, r') => exists items t, l = out ++ items /\ length items = n /\
      forallb (fun i => cbor_okb i d) items = true /\
      left r = concat (map cbor_bytes items) ++ t /\
      r' = advance (blen (concat (map cbor_bytes items))) r
  | (Err e, _) => rd_offset r <= cbor_offset e <= blen (rd_bytes r)
  | (Panic, _) => False
  end.
Proof.
  intros Hi. revert out r. induction n as [|n IH]; intros out r Hr; cbn [decode_items].
  { exists [], (left r). split_and!; [by rewrite app_nil_r | done | done | done |].
    cbn [map concat]. change (blen (@nil Z)) with 0. by rewrite advance_0. }
  unfold bind. pose proof (Hi r Hr) as Hv. destruct (item r) as [[v | e |] r1]; [| done | done].
  destruct Hv as (Hok & t & E & ->). destruct (advance_left _ _ _ Hr E) as [Hr1 El1].
  specialize (IH (out ++ [v]) _ Hr1).
  destruct (decode_items n item (out ++ [v]) _) as [[l | e |] r2]; [| | done].
  2: { apply (err_later _ (blen (cbor_bytes v))); [apply blen_nonneg | done]. }
  destruct IH as (items & t2 & -> & Hlen & Hall & E2 & ->). rewrite El1 in E2. rewrite E2 in E.
  exists (v :: items), t2. cbn [forallb map concat length].
  rewrite Hok, Hall, advance_advance, blen_app. by rewrite <- !app_assoc, Hlen.
Qed.

Lemma decode_entries_sound item d n seen prev out r :
  sound_item item d -> rd_wf r ->
  match prev with Some p => In p seen | None => True end ->
  match decode_entries n item seen prev out r with
  | (Ok l, r') => exists entries t, l = out ++ entries /\ length entries = n /\
      ascending (map fst entries) = true /\
      (forall p k, prev = Some p -> head (map fst entries) = Some k -> p < k) /\
      forallb (fun '(k, v) => (0 <=? k) && (k <=? u64_max) && cbor_okb v d) entries = true /\
      left r = concat (map entry_bytes entries) ++ t /\
      r' = advance (blen (concat (map entry_bytes entries))) r
  | (Err e, _) => rd_offset r <= cbor_offset e <= blen (rd_bytes r)
  | (Panic, _) => False
  end.
Proof.
  intros Hi. revert seen prev out r.
  induction n as [|n IH]; intros seen prev out r Hr Hprev; cbn [decode_entries].
  { exists [], (left r). split_and!; [by rewrite app_nil_r | done.. |].
    cbn [map concat]. change (blen (@nil Z)) with 0. by rewrite advance_0. }
  assert (Hoff : rd_offset r <= rd_offset r <= blen (rd_bytes r)) by (destruct Hr; lia).
  unfold bind at 1. pose proof (read_head_sound r Hr) as Hh.
  destruct (read_head r) as [[h | e |] r1]; [| destruct Hh as [-> _]; lia | done].
  destruct Hh as (s & t & E & -> & Hoffh & (Hm & Harg & Hs1 & Hs & _)).
  destruct (Z.eqb_spec (major h) MT_UINT) as [Hmaj |]; cbn [negb]; [| unfold fail_at, throw; simpl; lia].
  unfold MT_UINT in Hmaj. specialize (Hs ltac:(lia)). rewrite Hmaj in Hs.
  destruct (existsb (Z.eqb (argument h)) seen) eqn:Hseen; [unfold fail_at, throw; simpl; lia |].
  destruct (match prev with Some p => argument h <? p | None => false end) eqn:Hord;
    [unfold fail_at, throw; simpl; lia |].
  destruct (advance_left _ _ _ Hr E) as [Hr1 El1]. unfold bind at 1.
  pose proof (Hi _ Hr1) as Hv. destruct (item _) as [[v | e |] r2]; [| | done].
  2: { apply (err_later _ (blen s)); [lia | done]. }
  destruct Hv as (Hok & t2 & E2 & ->). destruct (advance_left _ _ _ Hr1 E2) as [Hr2 El2].
  specialize (IH (argument h :: seen) (Some (argument h)) (out ++ [(argument h, v)]) _ Hr2
    (or_introl eq_refl)).
  destruct (decode_entries n item _ _ _ _) as [[l | e |] r3]; [| | done].
  2: { rewrite advance_advance in IH. apply (err_later _ (blen s + blen (cbor_bytes v))); [| done].
       pose proof (blen_nonneg (cbor_bytes v)). lia. }
  destruct IH as (entries & t3 & -> & Hlen & Hasc & Hfirst & Hall & E3 & ->).
  rewrite El2 in E3. rewrite El1, E3 in E2. rewrite E2 in E.
  exists ((argument h, v) :: entries), t3. cbn [map concat length fst].
  split_and!.
  - by rewrite <- app_assoc.
  - by rewrite Hlen.
  - destruct entries as [|[k2 v2] entries]; [done |]. cbn [map fst] in *.
    specialize (Hfirst _ k2 eq_refl eq_refl). change (ascending (argument h :: k2 :: map fst entries))
      with ((argument h <? k2) && ascending (k2 :: map fst entries)). rewrite Hasc. by zcmp.
  - intros p k Hp [= <-]. rewrite Hp in *.
    assert (argument h <> p); [| lia]. intros Heq.
    assert (existsb (Z.eqb (argument h)) seen = true); [| congruence].
    apply existsb_exists. exists p. split; [done | lia].
  - cbn [forallb]. rewrite Hall, Hok. unfold u64 in Harg. by zcmp.
  - change (entry_bytes (argument h, v)) with (head_bytes 0 (argument h) ++ cbor_bytes v).
    by rewrite E, Hs, <- !app_assoc.
  - change (entry_bytes (argument h, v)) with (head_bytes 0 (argument h) ++ cbor_bytes v).
    rewrite !advance_advance, Hs, !blen_app. f_equal. lia.
Qed.

Lemma length_to_usize_sound n at_ :
  match length_to_usize n at_ with
  | Ok m => m = n /\ 0 <= n <= MAX_SAFE_INTEGER
  | Err e => cbor_offset e = at_
  | Panic => False
  end.
Proof.
  unfold length_to_usize. destruct (Z.ltb_spec MAX_SAFE_INTEGER n); [done |].
  destruct (try_from usize_max n) eqn:E; [| done]. apply try_from_inv in E. simpl. lia.
Qed.

Lemma read_slice_sound r n :
  rd_wf r -> 0 <= n ->
  match read_slice n r with
  | (Ok s, r') => exists t, left r = s ++ t /\ blen s = n /\ r' = advance n r
  | (Err e, _) => cbor_offset e = rd_offset r
  | (Panic, _) => False
  end.
Proof.
  intros Hr Hn. destruct (Z.lt_ge_cases (blen (left r)) n).
  { by rewrite read_slice_short. }
  assert (Hl : blen (take (Z.to_nat n) (left r)) = n)
    by (unfold blen in *; rewrite length_take; lia).
  assert (E : left r = take (Z.to_nat n) (left r) ++ drop (Z.to_nat n) (left r))
    by by rewrite take_drop.
  pose proof (read_slice_app r _ _ Hr E) as Hs. rewrite Hl in Hs. rewrite Hs.
  by exists (drop (Z.to_nat n) (left r)).
Qed.

Lemma bytes_okb b : bytes_ok b -> forallb (fun x => (0 <=? x) && (x <? 256)) b = true.
Proof.
  intros Hb. apply forallb_Forall. eapply Forall_impl; [exact Hb |].
  unfold is_byte. intros x Hx. cbv beta in Hx. by zcmp.
Qed.

Lemma decode_value_sound fuel depth :
  0 <= depth <= 16 -> 16 - depth < Z.of_nat fuel -> sound_item (decode_value fuel depth) depth.
Proof.
  revert depth. induction fuel as [|fuel IH]; intros depth Hd Hfuel r Hr; [lia |].
  cbn [decode_value]. unfold bind at 1. pose proof (read_head_sound r Hr) as Hh.
  assert (Hoff : rd_offset r <= rd_offset r <= blen (rd_bytes r)) by (destruct Hr; lia).
  destruct (read_head r) as [[h | e |] r1]; [| destruct Hh as [-> _]; lia | done].
  destruct Hh as (s & t & E & -> & Hoffh & (Hm & Harg & Hs1 & Hs & Hs7)). unfold u64 in Harg.
  destruct (advance_left _ _ _ Hr E) as [Hr1 El1].
  assert (Hfail : forall A reason r', match fail_at (A := A) reason (head_offset h) r' with
    | (Ok _, _) => False | (Err e, _) => rd_offset r <= cbor_offset e <= blen (rd_bytes r)
    | (Panic, _) => False end) by (intros; unfold fail_at, throw; simpl; lia).
  assert (Hfailv : forall reason r', match fail_at (A := CborValue) reason (head_offset h) r' with
    | (Ok v, r'') => cbor_okb v depth = true /\
        exists t, left r = cbor_bytes v ++ t /\ r'' = advance (blen (cbor_bytes v)) r
    | (Err e, _) => rd_offset r <= cbor_offset e <= blen (rd_bytes r)
    | (Panic, _) => False end) by (intros; unfold fail_at, throw; simpl; lia).
  unfold MT_UINT, MT_NINT, MT_BYTES, MT_TEXT, MT_ARRAY, MT_MAP, MT_TAG, MT_SIMPLE in *.
  pose proof usize_max_ge as Hum. unfold u32_max in Hum.
  destruct (Z.eqb_spec (major h) 0) as [Hj | Hj].
  { rewrite Hj in Hs. rewrite Hs in E by lia. cbn [ret cbor_okb cbor_bytes]. zcmp.
    split; [done |]. exists t. rewrite Hs by lia. done. }
  destruct (Z.eqb_spec (major h) 1) as [Hj1 | Hj1].
  { rewrite Hj1 in Hs. rewrite Hs in E by lia. cbn [ret cbor_okb cbor_bytes]. 
    replace (-1 - (-1 - argument h)) with (argument h) by lia. zcmp.
    split; [done |]. exists t. rewrite Hs by lia. done. }
  pose proof (length_to_usize_sound (argument h) (head_offset h)) as Hlen.
  destruct (Z.eqb_spec (major h) 2) as [Hj2 | Hj2].
  { rewrite Hj2 in Hs. unfold bind at 1, lift.
    destruct (length_to_usize _ _) as [len | e |]; [| simpl; lia | done].
    destruct Hlen as [-> Hlen]. unfold bind.
    pose proof (read_slice_sound _ (argument h) Hr1 ltac:(lia)) as Hsl.
    destruct (read_slice _ _) as [[b | e |] r2];
      [| apply (err_later _ (blen s)); [lia | destruct Hr1; rewrite Hsl; lia] | done].
    destruct Hsl as (t2 & E2 & Hbl & ->). cbn [ret cbor_okb cbor_bytes]. rewrite El1 in E2. rewrite E2 in E.
    assert (Hb : bytes_ok b).
    { pose proof (left_ok r Hr) as Hb. rewrite E, !bytes_ok_app in Hb. by destruct Hb as (_ & ? & _). }
    rewrite (bytes_okb b Hb), Hbl. zcmp. split; [done |]. exists t2. rewrite Hs in * by lia.
    by rewrite E, <- app_assoc, advance_advance, blen_app, Hbl. }
  destruct (Z.eqb_spec (major h) 3) as [Hj3 | Hj3].
  { rewrite Hj3 in Hs. unfold bind at 1, lift.
    destruct (length_to_usize _ _) as [len | e |]; [| simpl; lia | done].
    destruct Hlen as [-> Hlen]. unfold bind.
    pose proof (read_slice_sound _ (argument h) Hr1 ltac:(lia)) as Hsl.
    destruct (read_slice _ _) as [[b | e |] r2];
      [| apply (err_later _ (blen s)); [lia | destruct Hr1; rewrite Hsl; lia] | done].
    destruct Hsl as (t2 & E2 & Hbl & ->). destruct (utf8_valid b) eqn:Hu; [| apply Hfailv].
    cbn [ret cbor_okb cbor_bytes]. rewrite El1 in E2. rewrite E2 in E.
    rewrite Hu, Hbl. zcmp. split; [done |]. exists t2. rewrite Hs in * by lia.
    by rewrite E, <- app_assoc, advance_advance, blen_app, Hbl. }
  unfold MAX_NESTING_DEPTH, MAX_MAP_ENTRIES in *.
  destruct (Z.eqb_spec (major h) 4) as [Hj4 | Hj4].
  { rewrite Hj4 in Hs. usz. destruct (Z.ltb_spec 16 (depth + 1)); [apply Hfailv |].
    unfold bind at 1, lift. destruct (length_to_usize _ _) as [len | e |]; [| simpl; lia | done].
    destruct Hlen as [-> Hlen]. unfold bind at 1, gets, id.
    destruct (Z.ltb_spec (rd_remaining (advance (blen s) r)) (argument h)); [apply Hfailv |].
    unfold bind.
    pose proof (decode_items_sound (decode_value fuel (depth + 1)) (depth + 1)
      (Z.to_nat (argument h)) [] _ (IH (depth + 1) ltac:(lia) ltac:(lia)) Hr1) as Hit.
    destruct (decode_items _ _ _ _) as [[items | e |] r2];
      [| by apply (err_later _ (blen s)); [lia |] | done].
    destruct Hit as (items' & t2 & -> & Hl & Hall & E2 & ->). rewrite El1 in E2. rewrite E2 in E.
    assert (blen items' = argument h) as Hbl by (unfold blen; lia).
    cbn [app ret cbor_okb cbor_bytes]. rewrite Hbl, Hall. unfold MAX_NESTING_DEPTH. zcmp.
    split; [done |]. exists t2. rewrite Hs in * by lia.
    by rewrite E, <- app_assoc, advance_advance, blen_app. }
  destruct (Z.eqb_spec (major h) 5) as [Hj5 | Hj5].
  { rewrite Hj5 in Hs. usz. destruct (Z.ltb_spec 16 (depth + 1)); [apply Hfailv |].
    destruct (Z.ltb_spec 4096 (argument h)); [apply Hfailv |].
    unfold bind at 1, lift. destruct (length_to_usize _ _) as [len | e |]; [| simpl; lia | done].
    destruct Hlen as [-> Hlen]. unfold bind at 1, gets, id.
    destruct ((0 <? argument h) && _); [apply Hfailv |]. unfold bind.
    pose proof (decode_entries_sound (decode_value fuel (depth + 1)) (depth + 1)
      (Z.to_nat (argument h)) [] None [] _ (IH (depth + 1) ltac:(lia) ltac:(lia)) Hr1 I) as Hit.
    destruct (decode_entries _ _ _ _ _ _) as [[entries | e |] r2];
      [| by apply (err_later _ (blen s)); [lia |] | done].
    destruct Hit as (entries' & t2 & -> & Hl & Hasc & _ & Hall & E2 & ->).
    rewrite El1 in E2. rewrite E2 in E.
    assert (blen entries' = argument h) as Hbl by (unfold blen; lia).
    cbn [app ret cbor_okb]. rewrite cbor_bytes_map, Hbl, Hall, Hasc.
    unfold MAX_NESTING_DEPTH, MAX_MAP_ENTRIES. zcmp.
    split; [done |]. exists t2. rewrite Hs in * by lia.
    by rewrite E, <- app_assoc, advance_advance, blen_app. }
  destruct (Z.eqb_spec (major h) 6) as [Hj6 | Hj6]; [apply Hfailv |].
  destruct (Z.eqb_spec (major h) 7) as [Hj7 | Hj7]; [| lia].
  destruct (Hs7 Hj7) as [[Hadd ->] | [[Hadd Hge] | Hadd]].
  - replace ((additional h =? 25) || (additional h =? 26) || (additional h =? 27)) with false
      by (zcmp; done).
    replace (additional h =? 24) with false by (zcmp; done).
    unfold SIMPLE_FALSE, SIMPLE_TRUE, SIMPLE_NULL. rewrite blen_single.
    destruct (Z.eqb_spec (additional h) 20) as [E20 |];
      [rewrite E20 in E; split; [done | by exists t] |].
    destruct (Z.eqb_spec (additional h) 21) as [E21 |];
      [rewrite E21 in E; split; [done | by exists t] |].
    destruct (Z.eqb_spec (additional h) 22) as [E22 |];
      [rewrite E22 in E; split; [done | by exists t] |].
    apply Hfailv.
  - rewrite Hadd. cbn [Z.eqb Pos.eqb orb]. unfold SIMPLE_FALSE, SIMPLE_TRUE, SIMPLE_NULL.
    rewrite as_unsigned_small by (unfold is_unsigned; lia). zcmp. apply Hfailv.
  - replace ((additional h =? 25) || (additional h =? 26) || (additional h =? 27)) with true.
    { apply Hfailv. }
    destruct (Z.eqb_spec (additional h) 25), (Z.eqb_spec (additional h) 26),
      (Z.eqb_spec (additional h) 27); done || lia.
Qed.

(** ** The encoder *)

Lemma insert_by_key_map {A B} (f : A -> B) (p : Z * A) l :
  insert_by_key (prod_map id f p) (map (prod_map id f) l)
    = map (prod_map id f) (insert_by_key p l).
Proof.
  induction l as [|q l IH]; [done |]. simpl. destruct (p.1 <=? q.1); [done |].
  simpl. by rewrite IH.
Qed.

Lemma sort_by_key_map {A B} (f : A -> B) (l : list (Z * A)) :
  sort_by_key (map (prod_map id f) l) = map (prod_map id f) (sort_by_key l).
Proof.
  unfold sort_by_key. induction l as [|p l IH]; [done |].
  cbn [map foldr]. by rewrite IH, insert_by_key_map.
Qed.

Lemma insert_by_key_perm {A} (p : Z * A) l : Permutation (insert_by_key p l) (p :: l).
Proof.
  induction l as [|q l IH]; [done |]. simpl. destruct (p.1 <=? q.1); [done |].
  rewrite IH. constructor.
Qed.

Lemma sort_by_key_perm {A} (l : list (Z * A)) : Permutation (sort_by_key l) l.
Proof.
  unfold sort_by_key. induction l as [|p l IH]; [done |]. cbn [foldr].
  by rewrite insert_by_key_perm, IH.
Qed.

Lemma blen_sort_by_key {A} (l : list (Z * A)) : blen (sort_by_key l) = blen l.
Proof. unfold blen. by rewrite sort_by_key_perm. Qed.

(** Non-decreasing keys. *)
Fixpoint nondecreasing (ks : list Z) : bool :=
  match ks with
  | k :: (k' :: _) as ks' => (k <=? k') && nondecreasing ks'
  | _ => true
  end.

Lemma insert_by_key_head {A} (p : Z * A) l k :
  head (map fst (insert_by_key p l)) = Some k -> k = p.1 \/ head (map fst l) = Some k.
Proof. destruct l as [|q l]; simpl; [naive_solver |]. destruct (p.1 <=? q.1); naive_solver. Qed.

Lemma nondecreasing_cons k ks :
  nondecreasing (k :: ks) = true <->
  (forall k', head ks = Some k' -> k <= k') /\ nondecreasing ks = true.
Proof.
  destruct ks as [|k' ks]; simpl; [naive_solver |]. rewrite andb_true_iff.
  split; intros [H1 H2]; (split; [| done]); [intros ? [= <-]; lia | apply Z.leb_le; by apply H1].
Qed.

Lemma ascending_cons k ks :
  ascending (k :: ks) = true <->
  (forall k', head ks = Some k' -> k < k') /\ ascending ks = true.
Proof.
  destruct ks as [|k' ks]; simpl; [naive_solver |]. rewrite andb_true_iff.
  split; intros [H1 H2]; (split; [| done]); [intros ? [= <-]; lia | apply Z.ltb_lt; by apply H1].
Qed.

Lemma insert_by_key_sorted {A} (p : Z * A) l :
  nondecreasing (map fst l) = true -> nondecreasing (map fst (insert_by_key p l)) = true.
Proof.
  induction l as [|q l IH]; intros Hl; [done |]. cbn [insert_by_key].
  destruct (Z.leb_spec (p.1) (q.1)).
  - cbn [map]. apply nondecreasing_cons. split; [intros ? [= <-]; lia | done].
  - cbn [map] in *. apply nondecreasing_cons in Hl as [Hh Hl]. apply nondecreasing_cons.
    split; [| by apply IH]. intros k Hk. apply insert_by_key_head in Hk as [-> | Hk]; [lia | auto].
Qed.

Lemma sort_by_key_sorted {A} (l : list (Z * A)) :
  nondecreasing (map fst (sort_by_key l)) = true.
Proof.
  unfold sort_by_key. induction l; [done |]. cbn [foldr]. by apply insert_by_key_sorted.
Qed.

(** Sorting a strictly ascending list changes nothing. *)
Lemma sort_by_key_id {A} (l : list (Z * A)) :
  ascending (map fst l) = true -> sort_by_key l = l.
Proof.
  induction l as [|p l IH]; intros Hl; [done |]. cbn [map] in Hl.
  apply ascending_cons in Hl as [Hh Hl]. unfold sort_by_key in *. cbn [foldr]. rewrite IH by done.
  destruct l as [|q l]; [done |]. cbn [insert_by_key]. specialize (Hh (q.1) eq_refl). by zcmp.
Qed.

Lemma has_duplicate_sorted {A} (l : list (Z * A)) :
  nondecreasing (map fst l) = true -> has_duplicate l = negb (ascending (map fst l)).
Proof.
  induction l as [|p l IH]; intros Hl; [done |]. destruct l as [|q l]; [done |].
  cbn [map] in *. apply nondecreasing_cons in Hl as [Hh Hl]. specialize (Hh (q.1) eq_refl).
  change (has_duplicate (p :: q :: l)) with ((p.1 =? q.1) || has_duplicate (q :: l)).
  change (ascending (p.1 :: q.1 :: map fst l)) with ((p.1 <? q.1) && ascending (q.1 :: map fst l)).
  rewrite IH by done. destruct (Z.eqb_spec (p.1) (q.1)); zcmp; done.
Qed.

Lemma has_duplicate_map {A B} (f : A -> B) (l : list (Z * A)) :
  has_duplicate (map (prod_map id f) l) = has_duplicate l.
Proof.
  induction l as [|p [|q l] IH]; [done.. |].
  change (has_duplicate (p :: q :: l)) with ((p.1 =? q.1) || has_duplicate (q :: l)).
  rewrite <- IH. done.
Qed.

(** The canonical form: every map sorted by key. *)
Fixpoint canon (v : CborValue) : CborValue :=
  match v with
  | Array items => Array (map canon items)
  | Map entries => Map (sort_by_key (map (fun '(k, v) => (k, canon v)) entries))
  | _ => v
  end.

(** What the Rust types guarantee of a value in memory. *)
Fixpoint typed (v : CborValue) : bool :=
  match v with
  | Null | Bool _ | Negative _ => true
  | Unsigned n => (0 <=? n) && (n <=? u64_max)
  | Bytes b => forallb (fun x => (0 <=? x) && (x <? 256)) b && (blen b <=? MAX_SAFE_INTEGER)
  | Text t => utf8_valid t && (blen t <=? MAX_SAFE_INTEGER)
  | Array items => (blen items <=? MAX_SAFE_INTEGER) && forallb typed items
  | Map entries => forallb (fun '(k, v) => (0 <=? k) && (k <=? u64_max) && typed v) entries
  end.

Lemma canon_map entries :
  canon (Map entries) = Map (map (prod_map id canon) (sort_by_key entries)).
Proof.
  cbn [canon]. f_equal. rewrite <- sort_by_key_map. f_equal. apply map_ext. by intros [].
Qed.

Lemma map_fst_prod_map {A B} (f : A -> B) (l : list (Z * A)) :
  map fst (map (prod_map id f) l) = map fst l.
Proof. rewrite map_map. apply map_ext. by intros []. Qed.

(** The encoder's verdict on one value at one level. *)
Definition encodes (v : CborValue) : Prop :=
  forall depth out, 0 <= depth <= 16 ->
    match encode_value v depth out with
    | Ok o => cbor_okb (canon v) depth = true /\ o = out ++ cbor_bytes (canon v)
    | Err _ => cbor_okb (canon v) depth = false
    | Panic => False
    end.

Lemma write_items_spec items depth out :
  0 <= depth <= 16 -> Forall encodes items ->
  match write_each (map (fun i => encode_value i depth) items) (fun w => w) out with
  | Ok o => forallb (fun i => cbor_okb i depth) (map canon items) = true /\
            o = out ++ concat (map cbor_bytes (map canon items))
  | Err _ => forallb (fun i => cbor_okb i depth) (map canon items) = false
  | Panic => False
  end.
Proof.
  intros Hd Hi. revert out. induction Hi as [|v items Hv Hi IH]; intros out; cbn [map write_each].
  { cbn. by rewrite app_nil_r. }
  specialize (Hv depth out Hd). destruct (encode_value v depth out) as [o | e |]; cbn [obind forallb concat];
    [| by rewrite Hv | done].
  destruct Hv as [-> ->]. specialize (IH (out ++ cbor_bytes (canon v))).
  destruct (write_each _ _ _); [| done | done]. destruct IH as [-> ->]. by rewrite <- app_assoc.
Qed.

Definition entry_okb (depth : Z) (p : Z * CborValue) : bool :=
  (0 <=? p.1) && (p.1 <=? u64_max) && cbor_okb p.2 depth.

Lemma write_entries_spec entries depth out :
  0 <= depth <= 16 -> Forall (fun p => u64 p.1 /\ encodes p.2) entries ->
  match write_each (map (prod_map id (fun v => encode_value v depth)) entries)
          (fun '(k, w) out => w (write_head out 0 k)) out with
  | Ok o => forallb (entry_okb depth) (map (prod_map id canon) entries) = true /\
            o = out ++ concat (map entry_bytes (map (prod_map id canon) entries))
  | Err _ => forallb (entry_okb depth) (map (prod_map id canon) entries) = false
  | Panic => False
  end.
Proof.
  intros Hd Hi. revert out. induction Hi as [|[k v] entries [Hk Hv] Hi IH]; intros out; cbn [map write_each].
  { cbn. by rewrite app_nil_r. }
  cbn [prod_map fst snd id] in *. rewrite write_head_app by (done || lia).
  specialize (Hv depth (out ++ head_bytes 0 k) Hd). unfold u64 in Hk.
  assert (Ho : entry_okb depth (k, canon v) = cbor_okb (canon v) depth)
    by (unfold entry_okb; cbn [fst snd]; by zcmp).
  destruct (encode_value v depth _) as [o | e |]; cbn [obind forallb concat];
    rewrite ?Ho; [| by rewrite Hv | done].
  destruct Hv as [-> ->]. cbn [andb]. specialize (IH ((out ++ head_bytes 0 k) ++ cbor_bytes (canon v))).
  destruct (write_each _ _ _); [| done | done]. destruct IH as [-> ->]. split; [done |].
  change (entry_bytes (k, canon v)) with (head_bytes 0 k ++ cbor_bytes (canon v)).
  by rewrite <- !app_assoc.
Qed.

Lemma forallb_entry_okb depth entries :
  forallb (fun '(k, v) => (0 <=? k) && (k <=? u64_max) && cbor_okb v depth) entries
    = forallb (entry_okb depth) entries.
Proof. induction entries as [|[k v] l IH]; [done |]. cbn [forallb]. by rewrite IH. Qed.

Lemma encode_map_spec entries depth out :
  0 <= depth <= 16 -> Forall (fun p => u64 p.1 /\ encodes p.2) entries ->
  match encode_value (Map entries) depth out with
  | Ok o => cbor_okb (canon (Map entries)) depth = true /\
            o = out ++ cbor_bytes (canon (Map entries))
  | Err _ => cbor_okb (canon (Map entries)) depth = false
  | Panic => False
  end.
Proof.
  intros Hd Hi. rewrite canon_map, cbor_bytes_map. cbn [encode_value cbor_okb].
  pose proof (blen_nonneg entries). pose proof usize_max_ge as Hum. unfold u32_max in Hum.
  unfold MAX_NESTING_DEPTH, MAX_MAP_ENTRIES. usz.
  rewrite !blen_map, !blen_sort_by_key, !blen_map, map_fst_prod_map.
  destruct (Z.ltb_spec 16 (depth + 1)); [by zcmp |].
  destruct (Z.ltb_spec 4096 (blen entries)); [by zcmp |]. zcmp.
  replace (map (fun '(k, v) => (k, encode_value v (depth + 1))) entries)
    with (map (prod_map id (fun v => encode_value v (depth + 1))) entries)
    by (apply map_ext; by intros []).
  rewrite sort_by_key_map, has_duplicate_map.
  rewrite has_duplicate_sorted by apply sort_by_key_sorted.
  destruct (ascending (map fst (sort_by_key entries))); cbn [negb andb]; [| done].
  rewrite write_head_app by (unfold u64, u64_max; lia).
  pose proof (write_entries_spec (sort_by_key entries) (depth + 1)
    (out ++ head_bytes 5 (blen entries)) ltac:(lia)) as Hw.
  rewrite <- (sort_by_key_perm entries) in Hi. specialize (Hw Hi).
  rewrite forallb_entry_okb.
  destruct (write_each _ _ _); [| done | done]. destruct Hw as [-> ->].
  by rewrite <- app_assoc.
Qed.

Lemma encode_value_spec v : typed v = true -> encodes v.
Proof.
  induction v as [| b | n | n | b | s | items IH | entries IH] using CborValue_nested_ind;
    intros Ht depth out Hd; cbn [typed encode_value canon cbor_okb cbor_bytes] in *.
  - done.
  - by destruct b.
  - rewrite write_head_app by (unfold u64; lia). done.
  - unfold u64_max. destruct (Z.leb_spec 0 n); [lia |].
    destruct (Z.ltb_spec 18446744073709551615 (-1 - n)); [lia |].
    rewrite write_head_app by (unfold u64, u64_max; lia). split; [lia | done].
  - apply andb_true_iff in Ht as [-> Ht]. rewrite Ht. pose proof (blen_nonneg b).
    rewrite write_head_app by (unfold u64, u64_max, MAX_SAFE_INTEGER in *; lia).
    by rewrite <- app_assoc.
  - apply andb_true_iff in Ht as [-> Ht]. rewrite Ht. pose proof (blen_nonneg s).
    rewrite write_head_app by (unfold u64, u64_max, MAX_SAFE_INTEGER in *; lia).
    by rewrite <- app_assoc.
  - apply andb_true_iff in Ht as [Hl Ht]. pose proof (blen_nonneg items).
    pose proof usize_max_ge as Hum. unfold u32_max in Hum. unfold MAX_NESTING_DEPTH. usz.
    destruct (Z.ltb_spec 16 (depth + 1)); [by zcmp |]. zcmp. rewrite blen_map, Hl. cbn [andb].
    rewrite write_head_app by (unfold u64, u64_max, MAX_SAFE_INTEGER in *; lia).
    pose proof (write_items_spec items (depth + 1) (out ++ head_bytes 4 (blen items)) ltac:(lia)) as Hw.
    apply forallb_Forall in Ht.
    assert (Hi : Forall encodes items).
    { eapply Forall_impl; [exact (proj2 (Forall_and _ _) (conj IH Ht)) |].
      intros v [Hv Hvt]. by apply Hv. }
    specialize (Hw Hi).
    destruct (write_each _ _ _); [| done | done]. destruct Hw as [-> ->].
    by rewrite <- app_assoc.
  - rewrite forallb_Forall in Ht. change (Map (sort_by_key _)) with (canon (Map entries)).
    pose proof (encode_map_spec entries depth out Hd) as Hm. cbn [encode_value] in Hm.
    apply Hm. eapply Forall_impl; [exact (proj2 (Forall_and _ _) (conj IH Ht)) |].
    intros [k v] [Hv Hok]. cbn [fst snd] in *. rewrite !andb_true_iff in Hok.
    destruct Hok as [? Hvt]. split; [unfold u64; lia | by apply Hv].
Qed.

Lemma canon_id v depth : cbor_okb v depth = true -> canon v = v.
Proof.
  revert depth.
  induction v as [| b | n | n | b | s | items IH | entries IH] using CborValue_nested_ind;
    intros depth Hok; try done.
  - cbn [canon cbor_okb] in *. f_equal. apply andb_true_iff in Hok as [_ Hall].
    apply forallb_Forall in Hall. induction IH as [|v l Hv IH IHl]; [done |].
    apply Forall_cons in Hall as [Hvok Hall]. cbn [map]. f_equal; [by eapply Hv | by apply IHl].
  - rewrite canon_map. cbn [cbor_okb] in Hok. rewrite !andb_true_iff in Hok.
    destruct Hok as [[[_ _] Hasc] Hall]. rewrite sort_by_key_id by done. f_equal.
    apply forallb_Forall in Hall. clear Hasc. induction IH as [|[k v] l Hv IH IHl]; [done |].
    apply Forall_cons in Hall as [Hvok Hall]. cbn [map fst snd] in *. rewrite IHl by done.
    apply andb_true_iff in Hvok as [_ Hvok]. unfold prod_map. cbn. by erewrite Hv.
Qed.

Lemma cbor_okb_typed v depth : cbor_okb v depth = true -> typed v = true.
Proof.
  revert depth.
  induction v as [| b | n | n | b | s | items IH | entries IH] using CborValue_nested_ind;
    intros depth Hok; cbn [cbor_okb typed] in *; try done.
  - rewrite !andb_true_iff in Hok. destruct Hok as [[_ ->] Hall]. cbn [andb].
    apply forallb_Forall. apply forallb_Forall in Hall.
    eapply Forall_impl; [exact (proj2 (Forall_and _ _) (conj IH Hall)) |].
    intros v [Hv Hvok]. by eapply Hv.
  - rewrite !andb_true_iff in Hok. destruct Hok as [_ Hall].
    apply forallb_Forall. apply forallb_Forall in Hall.
    eapply Forall_impl; [exact (proj2 (Forall_and _ _) (conj IH Hall)) |].
    intros [k v] [Hv Hvok]. cbn [fst snd] in *. apply andb_true_iff in Hvok as [-> Hvok].
    by eapply Hv.
Qed.

(** ** The two entry points *)

Lemma rust_slice_rd_wf bs : rust_slice bs -> rd_wf (mk_rd bs 0).
Proof. intros [Hb Hl]. pose proof (blen_nonneg bs). split_and!; simpl; [done | lia | lia | done]. Qed.

Lemma cbor_bytes_cons v : exists b t, cbor_bytes v = b :: t.
Proof.
  pose proof (cbor_bytes_len v) as H0. destruct (cbor_bytes v) as [|b t]; [| eauto].
  change (blen (@nil Z)) with 0 in H0. lia.
Qed.

Lemma decode_cbor_complete v :
  cbor_okb v 0 = true -> rust_slice (cbor_bytes v) ->
  decode_deterministic_cbor (cbor_bytes v) = Ok v.
Proof.
  intros Hok Hs. unfold decode_deterministic_cbor.
  pose proof (decode_value_complete v 0 DECODE_FUEL (mk_rd (cbor_bytes v) 0) [] Hok
    ltac:(lia) ltac:(vm_compute; congruence) (rust_slice_rd_wf _ Hs)) as Hd.
  rewrite Hd by (unfold left; simpl; by rewrite drop_0, app_nil_r).
  destruct (cbor_bytes_cons v) as (b & t & E). rewrite E at 1. simpl. by rewrite Z.eqb_refl.
Qed.

Lemma decode_cbor_sound bs :
  rust_slice bs ->
  match decode_deterministic_cbor bs with
  | Ok v => cbor_okb v 0 = true /\ bs = cbor_bytes v
  | Err e => 0 <= cbor_offset e <= blen bs
  | Panic => False
  end.
Proof.
  intros Hs. unfold decode_deterministic_cbor. destruct bs as [|b t] eqn:E.
  { split; [done | apply blen_nonneg]. }
  rewrite <- E in *. clear E.
  pose proof (decode_value_sound DECODE_FUEL 0 ltac:(lia) ltac:(vm_compute; congruence)
    (mk_rd bs 0) (rust_slice_rd_wf _ Hs)) as Hd.
  destruct (decode_value _ _ _) as [[v | e |] r]; [| done | done].
  destruct Hd as (Hok & t' & El & ->). unfold left in El. simpl in El. rewrite drop_0 in El.
  destruct (Z.eqb_spec (rd_offset (advance (blen (cbor_bytes v)) (mk_rd bs 0))) (blen bs)) as [Eo | Eo];
    simpl in Eo; cbn [negb].
  - split; [done |]. rewrite El in Eo |- *. rewrite blen_app in Eo.
    rewrite (blen_0 t') by lia. by rewrite app_nil_r.
  - pose proof (blen_nonneg (cbor_bytes v)). pose proof (blen_nonneg t').
    rewrite El, blen_app. simpl. lia.
Qed.

Lemma encode_cbor_spec v :
  typed v = true ->
  match encode_deterministic_cbor v with
  | Ok bs => cbor_okb (canon v) 0 = true /\ bs = cbor_bytes (canon v)
  | Err _ => cbor_okb (canon v) 0 = false
  | Panic => False
  end.
Proof. intros Ht. apply (encode_value_spec v Ht 0 []). lia. Qed.

Lemma encode_cbor_ok v :
  cbor_okb v 0 = true -> encode_deterministic_cbor v = Ok (cbor_bytes v).
Proof.
  intros Hok. pose proof (encode_cbor_spec v (cbor_okb_typed v 0 Hok)) as He.
  rewrite (canon_id v 0 Hok) in He.
  destruct (encode_deterministic_cbor v); [by destruct He as [_ ->] | congruence | done].
Qed.

Lemma cbor_bytes_ok v depth : cbor_okb v depth = true -> bytes_ok (cbor_bytes v).
Proof.
  assert (Hc : forall {A} (f : A -> bytes) l, Forall (fun a => bytes_ok (f a)) l ->
    bytes_ok (concat (map f l))).
  { intros A f l Hl. induction Hl; [constructor |]. cbn [map concat]. by apply bytes_ok_app. }
  assert (Hh : forall A m (l : list A), 0 <= m <= 7 -> blen l <= MAX_SAFE_INTEGER ->
    bytes_ok (head_bytes m (blen l))).
  { intros A m l Hm Hl. pose proof (blen_nonneg l).
    apply head_bytes_ok; [done |]. unfold u64, u64_max, MAX_SAFE_INTEGER in *. lia. }
  revert depth.
  induction v as [| b | n | n | b | s | items IH | entries IH] using CborValue_nested_ind;
    intros depth Hok; cbn [cbor_okb cbor_bytes] in *.
  - apply bytes_ok_cons. split; [unfold is_byte; lia | constructor].
  - destruct b; (apply bytes_ok_cons; split; [unfold is_byte; lia | constructor]).
  - apply head_bytes_ok; unfold u64; lia.
  - apply head_bytes_ok; unfold u64; lia.
  - apply andb_true_iff in Hok as [Hb Hl]. apply bytes_ok_app. split; [apply Hh; lia |].
    apply forallb_Forall in Hb. eapply Forall_impl; [exact Hb |].
    intros x Hx. cbv beta in Hx. unfold is_byte. lia.
  - apply andb_true_iff in Hok as [Hb Hl]. apply bytes_ok_app.
    split; [apply Hh; lia | by apply utf8_valid_bytes].
  - rewrite !andb_true_iff in Hok. destruct Hok as [[_ Hl] Hall]. apply bytes_ok_app.
    split; [apply Hh; lia |]. apply Hc. apply forallb_Forall in Hall.
    eapply Forall_impl; [exact (proj2 (Forall_and _ _) (conj IH Hall)) |].
    intros v [Hv Hvok]. by eapply Hv.
  - change (bytes_ok (cbor_bytes (Map entries))). rewrite cbor_bytes_map.
    rewrite !andb_true_iff in Hok. destruct Hok as [[[_ Hl] _] Hall]. apply bytes_ok_app.
    split; [apply Hh; [lia | unfold MAX_SAFE_INTEGER, MAX_MAP_ENTRIES in *; lia] |].
    apply Hc. apply forallb_Forall in Hall.
    eapply Forall_impl; [exact (proj2 (Forall_and _ _) (conj IH Hall)) |].
    intros [k v] [Hv Hvok]. cbn [fst snd] in *. rewrite !andb_true_iff in Hvok.
    destruct Hvok as [? Hvok]. unfold entry_bytes. cbn [fst snd]. apply bytes_ok_app.
    split; [apply head_bytes_ok; unfold u64; lia | by eapply Hv].
Qed.

(** C28: CBOR round trip: whatever the encoder emits, the decoder reads back as the
    same value with every map sorted by key. *)
Theorem cbor_decode_encode v bs :
  typed v = true -> encode_deterministic_cbor v = Ok bs -> blen bs <= isize_max ->
  decode_deterministic_cbor bs = Ok (canon v).
Proof.
  intros Ht He Hl. pose proof (encode_cbor_spec v Ht) as Hs. rewrite He in Hs.
  destruct Hs as [Hok ->]. apply decode_cbor_complete; [done |].
  split; [by eapply cbor_bytes_ok | done].
Qed.

(** The decoder accepts only the deterministic encoding: a buffer that decodes
    is, byte for byte, what the encoder emits for the decoded value.  So two
    different accepted buffers never denote the same value. *)
Theorem cbor_encode_decode bs v :
  rust_slice bs -> decode_deterministic_cbor bs = Ok v ->
  encode_deterministic_cbor v = Ok bs.
Proof.
  intros Hs Hd. pose proof (decode_cbor_sound bs Hs) as Hv. rewrite Hd in Hv.
  destruct Hv as [Hok ->]. by apply encode_cbor_ok.
Qed.

(** Decoding any input returns: no panic, no exhausted recursion budget (17
    levels are enough for any input), every accepted value is within the profile
    (nesting at most 16, maps at most 4096 strictly ascending unsigned keys, valid
    UTF-8), and a rejected one points inside the input. *)
Theorem cbor_decode_total bs :
  rust_slice bs ->
  match decode_deterministic_cbor bs with
  | Ok v => cbor_okb v 0 = true
  | Err e => 0 <= cbor_offset e <= blen bs
  | Panic => False
  end.
Proof.
  intros Hs. pose proof (decode_cbor_sound bs Hs).
  destruct (decode_deterministic_cbor bs); naive_solver.
Qed.

(** The encoder is total on Rust values and refuses exactly those whose sorted
    form is outside the profile (too deep, too many entries, duplicate keys, a
    negative out of range). *)
Theorem cbor_encode_total v :
  typed v = true ->
  match encode_deterministic_cbor v with
  | Ok _ => cbor_okb (canon v) 0 = true
  | Err _ => cbor_okb (canon v) 0 = false
  | Panic => False
  end.
Proof.
  intros Ht. pose proof (encode_cbor_spec v Ht).
  destruct (encode_deterministic_cbor v); naive_solver.
Qed.

End Reads.

(** ** Witnesses *)

(** A map with unsorted keys, nested values and a negative integer. *)
Definition sample_value : CborValue :=
  Map [(9, Array [Unsigned 300; Negative (-25)]); (2, Text (lit "ok")); (4, Map [(1, Null)])].

Definition sample_encoding : bytes :=
  [0xa3; 2; 0x62; 111; 107; 4; 0xa1; 1; 0xf6; 9; 0x82; 0x19; 1; 44; 0x38; 24].

Lemma sample_encoding_slice : rust_slice (H := Wasm32) sample_encoding.
Proof.
  split; [| by vm_compute].
  repeat (apply bytes_ok_cons; split; [unfold is_byte; lia |]). constructor.
Qed.

Lemma cbor_decode_encode_witness :
  encode_deterministic_cbor (H := Wasm32) sample_value = Ok sample_encoding /\
  decode_deterministic_cbor (H := Wasm32) sample_encoding = Ok (canon sample_value).
Proof.
  split; [by vm_compute |].
  apply (cbor_decode_encode (H := Wasm32) sample_value sample_encoding); by vm_compute.
Defined.

Lemma cbor_encode_decode_witness :
  decode_deterministic_cbor (H := Wasm32) sample_encoding = Ok (canon sample_value) /\
  encode_deterministic_cbor (H := Wasm32) (canon sample_value) = Ok sample_encoding.
Proof.
  split; [by vm_compute |].
  apply (cbor_encode_decode (H := Wasm32) sample_encoding (canon sample_value) sample_encoding_slice).
  by vm_compute.
Defined.

Lemma cbor_decode_total_witness :
  match decode_deterministic_cbor (H := Wasm32) sample_encoding with
  | Ok v => cbor_okb v 0 = true
  | Err e => 0 <= cbor_offset e <= blen sample_encoding
  | Panic => False
  end.
Proof. exact (cbor_decode_total (H := Wasm32) sample_encoding sample_encoding_slice). Defined.

Lemma cbor_encode_total_witness :
  match encode_deterministic_cbor (H := Wasm32) sample_value with
  | Ok _ => cbor_okb (canon sample_value) 0 = true
  | Err _ => cbor_okb (canon sample_value) 0 = false
  | Panic => False
  end.
Proof. exact (cbor_encode_total (H := Wasm32) sample_value eq_refl). Defined.
