(* ===== verification/Extension.v ===== *)
(** * The extension area

    [rclweb/src/protocol/extension.rs] (the TLV decoder) and
    [encode_extension_area] of [rclweb/src/protocol/encode.rs].  An area is at
    most 4096 bytes, so no [usize] sum of the decoder comes near the width of
    either target and offsets are plain integers; the loop of the decoder runs
    on fuel, one unit per TLV (each takes at least four bytes). *)

From S2P Require Import Prelude ProtocolError Cbor.

Definition EXTENSION_AREA_MAX_BYTES : Z := 4096.
Definition EXTENSION_ALIGNMENT : Z := 4.
Definition TRACE_CONTEXT_EXTENSION_TYPE : Z := 1.
Definition OPERATION_ID_EXTENSION_TYPE : Z := 2.
Definition TRACE_CONTEXT_VALUE_LENGTH : Z := 32.
Definition OPERATION_ID_VALUE_LENGTH : Z := 16.
Definition TLV_HEADER_LEN : Z := 4.
Definition FLAG_CRITICAL : Z := 0x01.
Definition FLAG_RESERVED_MASK : Z := 0xfe.
Definition TRACE_RESERVED_OFFSET : Z := 25.
Definition TRACE_RESERVED_SIZE : nat := 7.

Record R2wpExtension := {
  ext_type_id : Z;
  ext_critical : bool;
  ext_value : bytes
}.

#[export] Instance R2wpExtension_eq_dec : EqDecision R2wpExtension.
Proof. solve_decision. Defined.

Record ExtensionError := mk_exterr {
  xe_code : Z;
  xe_name : string;
  xe_reason : string;
  xe_offset : Z
}.

Definition ext_malformed (reason : string) (offset : Z) : ExtensionError :=
  mk_exterr 3 "malformed_frame" reason offset.
Definition ext_message_too_large (reason : string) (offset : Z) : ExtensionError :=
  mk_exterr 24 "message_too_large" reason offset.
Definition ext_unsupported (reason : string) (offset : Z) : ExtensionError :=
  mk_exterr 22 "unsupported_extension" reason offset.

(** [(n + 3) & !3]. *)
Definition align4 (n : Z) : Z := Z.ldiff (n + 3) 3.

Definition read_u16_be {E} (bs : bytes) (offset : Z) : outcome E Z :=
  a <-- index bs offset ;;
  b <-- index bs (offset + 1) ;;
  Ok (of_be [a; b]).

Definition is_assigned (type_id : Z) : bool :=
  (type_id =? TRACE_CONTEXT_EXTENSION_TYPE) || (type_id =? OPERATION_ID_EXTENSION_TYPE).

Definition fixed_value_len (type_id : Z) : option Z :=
  if type_id =? TRACE_CONTEXT_EXTENSION_TYPE then Some TRACE_CONTEXT_VALUE_LENGTH
  else if type_id =? OPERATION_ID_EXTENSION_TYPE then Some OPERATION_ID_VALUE_LENGTH
  else None.

(** The first nonzero byte of [n] bytes of [bs] from [i], as an absolute index. *)
Fixpoint first_nonzero {E} (n : nat) (bs : bytes) (i : Z) : outcome E (option Z) :=
  match n with
  | O => Ok None
  | S n' =>
      b <-- index bs i ;;
      if negb (b =? 0) then Ok (Some i) else first_nonzero n' bs (i + 1)
  end.

Definition assert_trace_reserved_zero (value : bytes) (value_offset : Z)
    : outcome ExtensionError unit :=
  p <-- first_nonzero TRACE_RESERVED_SIZE value TRACE_RESERVED_OFFSET ;;
  match p with
  | Some i => Err (ext_malformed "reserved_nonzero" (value_offset + i))
  | None => Ok tt
  end.

Record ParsedTlv := {
  tlv_type_id : Z;
  tlv_critical : bool;
  tlv_value : bytes;
  tlv_assigned : bool
}.

(** One turn of the decoder's loop: the TLV at [offset] and its padded length. *)
Definition decode_tlv (bs : bytes) (offset : Z) (prev_type : option Z)
    : outcome ExtensionError (ParsedTlv * Z) :=
  let remaining := blen bs - offset in
  if remaining <? TLV_HEADER_LEN then Err (ext_malformed "truncated_header" offset)
  else
    type_id <-- index bs offset ;;
    flags <-- index bs (offset + 1) ;;
    value_len <-- read_u16_be bs (offset + 2) ;;
    if negb (Z.land flags FLAG_RESERVED_MASK =? 0) then
      Err (ext_malformed "reserved_flag_bits" (offset + 1))
    else
      let critical := negb (Z.land flags FLAG_CRITICAL =? 0) in
      let assigned := is_assigned type_id in
      if match fixed_value_len type_id with
         | Some expected => negb (value_len =? expected)
         | None => false
         end
      then Err (ext_malformed "fixed_length_mismatch" (offset + 2))
      else
        let content_len := TLV_HEADER_LEN + value_len in
        if remaining <? content_len then
          Err (ext_malformed "truncated_value" (offset + TLV_HEADER_LEN))
        else
          let padded := align4 content_len in
          if remaining <? padded then
            Err (ext_malformed "truncated_padding" (offset + content_len))
          else
            p <-- first_nonzero (Z.to_nat (padded - content_len)) bs (offset + content_len) ;;
            match p with
            | Some i => Err (ext_malformed "nonzero_padding" i)
            | None =>
                let value_offset := offset + TLV_HEADER_LEN in
                value <-- slice bs value_offset (value_offset + value_len) ;;
                (if assigned && (type_id =? TRACE_CONTEXT_EXTENSION_TYPE)
                 then assert_trace_reserved_zero value value_offset else Ok tt) ;;?
                (match prev_type with
                 | Some prev =>
                     if type_id =? prev then Err (ext_malformed "duplicate_type" offset)
                     else if type_id <? prev then Err (ext_malformed "order_violation" offset)
                     else Ok tt
                 | None => Ok tt
                 end) ;;?
                Ok ({| tlv_type_id := type_id; tlv_critical := critical; tlv_value := value;
                       tlv_assigned := assigned |}, padded)
            end.

Fixpoint decode_tlvs (fuel : nat) (bs : bytes) (offset : Z) (prev_type : option Z)
    (first_unknown_critical : option Z) (parsed : list ParsedTlv)
    : outcome ExtensionError (list ParsedTlv * option Z) :=
  if negb (offset <? blen bs) then Ok (parsed, first_unknown_critical)
  else
    match fuel with
    | O => Panic
    | S fuel' =>
        r <-- decode_tlv bs offset prev_type ;;
        let t := fst r in
        let first :=
          if negb (tlv_assigned t) && tlv_critical t &&
             match first_unknown_critical with None => true | Some _ => false end
          then Some offset else first_unknown_critical in
        decode_tlvs fuel' bs (offset + snd r) (Some (tlv_type_id t)) first (parsed ++ [t])
    end.

Definition extension_of (t : ParsedTlv) : R2wpExtension :=
  {| ext_type_id := tlv_type_id t; ext_critical := tlv_critical t; ext_value := tlv_value t |}.

Definition decode_extension_area (bs : bytes) : outcome ExtensionError (list R2wpExtension) :=
  let len := blen bs in
  if EXTENSION_AREA_MAX_BYTES <? len then Err (ext_message_too_large "area_too_large" 0)
  else if negb (len mod EXTENSION_ALIGNMENT =? 0) then Err (ext_malformed "area_alignment" 0)
  else
    r <-- decode_tlvs (length bs) bs 0 None None [] ;;
    match snd r with
    | Some off => Err (ext_unsupported "unknown_critical" off)
    | None => Ok (map extension_of (List.filter tlv_assigned (fst r)))
    end.

Definition map_extension_error `{Target} (err : ExtensionError) (area_base step : Z)
    : ProtocolError :=
  let offset := Z.min usize_max (area_base + xe_offset err) in
  if xe_code err =? 24 then message_too_large_frame "extension_too_large" offset step
  else if xe_code err =? 22 then unsupported_extension "unknown_critical" offset step
  else malformed_frame "extension_structural" offset step.

(** ** The encoder *)

(** [while !out.len().is_multiple_of(4) { out.push(0) }] stops within three steps. *)
Fixpoint pad4 (fuel : nat) (out : bytes) : bytes :=
  if blen out mod 4 =? 0 then out
  else match fuel with O => out | S fuel' => pad4 fuel' (out ++ [0]) end.

Fixpoint encode_tlvs (exts : list R2wpExtension) (prev : option Z) (out : bytes)
    : outcome EncodeError bytes :=
  match exts with
  | [] => Ok out
  | ext :: exts' =>
      if match prev with Some p => ext_type_id ext <=? p | None => false end
      then Err (encode_error "extension_order")
      else if u16_max <? blen (ext_value ext) then
        Err (encode_error "extension_value_too_large")
      else
        let out := out ++ [ext_type_id ext] in
        let out := out ++ [if ext_critical ext then 0x01 else 0x00] in
        let out := out ++ to_be 2 (as_unsigned 16 (blen (ext_value ext))) in
        let out := out ++ ext_value ext in
        encode_tlvs exts' (Some (ext_type_id ext)) (pad4 3 out)
  end.

Definition encode_extension_area (exts : list R2wpExtension) : outcome EncodeError bytes :=
  out <-- encode_tlvs exts None [] ;;
  if EXTENSION_AREA_MAX_BYTES <? blen out then Err (encode_error "extension_area_too_large")
  else Ok out.

(** ** Correctness *)

Lemma align4_spec n : align4 n = n + (- n) mod 4.
Proof.
  unfold align4. change 3 with (Z.ones 2) at 2. rewrite Z.ldiff_ones_r by lia.
  rewrite Z.shiftl_mul_pow2, Z.shiftr_div_pow2 by lia. change (2 ^ 2) with 4.
  pose proof (Z.div_mod (n + 3) 4). pose proof (Z.mod_pos_bound (n + 3) 4).
  pose proof (Z.div_mod (- n) 4). pose proof (Z.mod_pos_bound (- n) 4). lia.
Qed.

Lemma flag_bits f :
  is_byte f ->
  (Z.land f FLAG_RESERVED_MASK =? 0) = true <-> f = 0 \/ f = 1.
Proof.
  intros Hf. unfold is_byte in Hf.
  assert (Hall : forallb (fun f => eqb (Z.land f FLAG_RESERVED_MASK =? 0) ((f =? 0) || (f =? 1)))
    (seqZ 0 256) = true) by by vm_compute.
  apply forallb_Forall in Hall. rewrite Forall_forall in Hall.
  specialize (Hall f (proj2 (elem_of_seqZ 0 256 f) ltac:(lia))). cbv beta in Hall.
  apply eqb_prop in Hall. rewrite Hall. rewrite orb_true_iff, !Z.eqb_eq. done.
Qed.

(** The wire form of one TLV. *)
Definition tlv_bytes (e : R2wpExtension) : bytes :=
  [ext_type_id e] ++ [if ext_critical e then 1 else 0] ++ to_be 2 (blen (ext_value e)) ++
  ext_value e ++ zeros ((- blen (ext_value e)) mod 4).

Definition area_bytes (exts : list R2wpExtension) : bytes := concat (map tlv_bytes exts).

(** A TLV the decoder accepts on its own. *)
Definition ext_ok (e : R2wpExtension) : Prop :=
  is_byte (ext_type_id e) /\ bytes_ok (ext_value e) /\ blen (ext_value e) <= u16_max /\
  (forall n, fixed_value_len (ext_type_id e) = Some n -> blen (ext_value e) = n) /\
  (ext_type_id e = TRACE_CONTEXT_EXTENSION_TYPE -> sub_list (ext_value e) 25 7 = zeros 7).

(** Types strictly above [prev], strictly ascending. *)
Fixpoint types_ascend (prev : option Z) (exts : list R2wpExtension) : Prop :=
  match exts with
  | [] => True
  | e :: exts' =>
      (forall p, prev = Some p -> p < ext_type_id e) /\ types_ascend (Some (ext_type_id e)) exts'
  end.

Definition unknown_critical (e : R2wpExtension) : bool :=
  negb (is_assigned (ext_type_id e)) && ext_critical e.

Lemma tlv_bytes_len e :
  blen (tlv_bytes e) = 4 + blen (ext_value e) + (- blen (ext_value e)) mod 4.
Proof.
  unfold tlv_bytes. rewrite !blen_app, !blen_single, blen_to_be, blen_zeros.
  - lia.
  - apply Z.mod_pos_bound. lia.
Qed.

Lemma tlv_bytes_align e : 4 <= blen (tlv_bytes e) /\ blen (tlv_bytes e) mod 4 = 0.
Proof.
  rewrite tlv_bytes_len. pose proof (blen_nonneg (ext_value e)).
  set (n := blen (ext_value e)) in *.
  pose proof (Z.mod_pos_bound (- n) 4). split; [lia |].
  replace (4 + n + (- n) mod 4) with ((n + (- n) mod 4) + 1 * 4) by lia.
  rewrite Z.mod_add, Z.add_mod_idemp_r, Z.add_opp_diag_r by lia. done.
Qed.

Lemma align4_content e : align4 (TLV_HEADER_LEN + blen (ext_value e)) = blen (tlv_bytes e).
Proof.
  rewrite align4_spec, tlv_bytes_len. unfold TLV_HEADER_LEN.
  replace (- (4 + blen (ext_value e))) with (- blen (ext_value e) + (-1) * 4) by lia.
  rewrite Z.mod_add by lia. lia.
Qed.

Lemma first_nonzero_spec {E} n bs i :
  0 <= i -> i + Z.of_nat n <= blen bs ->
  match first_nonzero (E := E) n bs i with
  | Ok None => sub_list bs i (Z.of_nat n) = zeros (Z.of_nat n)
  | Ok (Some j) => i <= j < i + Z.of_nat n /\ sub_list bs i (Z.of_nat n) <> zeros (Z.of_nat n)
  | _ => False
  end.
Proof.
  revert i. induction n as [|n IH]; intros i Hi Hle; [done |].
  cbn [first_nonzero]. rewrite (index_ok _ _ 0) by lia. cbn [obind].
  set (b := nth (Z.to_nat i) bs 0).
  assert (Hsub : sub_list bs i (Z.of_nat (S n)) = b :: sub_list bs (i + 1) (Z.of_nat n)).
  { unfold sub_list. rewrite !Nat2Z.id.
    destruct (lookup_lt_is_Some_2 bs (Z.to_nat i)) as [x Hx]; [unfold blen in *; lia |].
    rewrite (drop_S _ _ _ Hx). cbn [take]. unfold b. rewrite (nth_lookup_Some _ _ _ _ Hx).
    by replace (Z.to_nat (i + 1)) with (S (Z.to_nat i)) by lia. }
  assert (Hz : zeros (Z.of_nat (S n)) = 0 :: zeros (Z.of_nat n))
    by (unfold zeros; by rewrite !Nat2Z.id).
  rewrite Hsub, Hz. destruct (Z.eqb_spec b 0) as [-> | Hb]; cbn [negb].
  - specialize (IH (i + 1) ltac:(lia) ltac:(lia)).
    destruct (first_nonzero n bs (i + 1)) as [[j |] | |]; [| by rewrite IH | done..].
    destruct IH as [? Hne]. split; [lia |]. by intros [= ?].
  - split; [lia |]. intros [= ?]. done.
Qed.

(** The bytes of a TLV seen through the indices the decoder uses. *)
Lemma tlv_index {E} pre e rest :
  let bs := pre ++ tlv_bytes e ++ rest in
  let o := blen pre in
  blen (ext_value e) <= u16_max ->
  index (E := E) bs o = Ok (ext_type_id e) /\
  index (E := E) bs (o + 1) = Ok (if ext_critical e then 1 else 0) /\
  read_u16_be (E := E) bs (o + 2) = Ok (blen (ext_value e)) /\
  sub_list bs (o + 4) (blen (ext_value e)) = ext_value e /\
  sub_list bs (o + 4 + blen (ext_value e)) ((- blen (ext_value e)) mod 4)
    = zeros ((- blen (ext_value e)) mod 4).
Proof.
  intros bs o Hv. pose proof (blen_nonneg (ext_value e)) as H0.
  set (n := blen (ext_value e)) in *.
  assert (Hbe : exists a b, to_be 2 n = [a; b] /\ of_be [a; b] = n).
  { exists (n / 256 mod 256), (n mod 256). split; [done |].
    pose proof (of_be_to_be 2 n) as Hr. unfold u16_max in Hv.
    change (256 ^ Z.of_nat 2) with 65536 in Hr. apply Hr. lia. }
  destruct Hbe as (a & b & Ha & Hab).
  assert (Hbs : bs = pre ++ [ext_type_id e] ++ [if ext_critical e then 1 else 0] ++ [a] ++ [b] ++
                     ext_value e ++ zeros ((- n) mod 4) ++ rest).
  { unfold bs, tlv_bytes. fold n. rewrite Ha. by rewrite <- !app_assoc. }
  rewrite Hbs. clear Hbs bs. split_and!.
  - by apply index_app_mid.
  - rewrite app_assoc. apply index_app_mid. rewrite blen_app, blen_single. done.
  - unfold read_u16_be. rewrite (app_assoc pre), (app_assoc (pre ++ _)).
    match goal with |- context [index ?l (o + 2)] =>
      assert (index (E := E) l (o + 2) = Ok a) as ->
        by (apply index_app_mid; rewrite !blen_app, !blen_single; lia)
    end. cbn [obind]. rewrite (app_assoc _ [a]).
    match goal with |- context [index ?l (o + 2 + 1)] =>
      assert (index (E := E) l (o + 2 + 1) = Ok b) as ->
        by (apply index_app_mid; rewrite !blen_app, !blen_single; lia)
    end. cbn [obind]. by rewrite Hab.
  - rewrite (app_assoc pre), (app_assoc (pre ++ _)), (app_assoc _ [a]), (app_assoc _ [b]).
    set (p := (((pre ++ _) ++ _) ++ _) ++ _).
    replace (o + 4) with (blen p) by (unfold p; rewrite !blen_app, !blen_single; lia).
    by apply sub_list_mid.
  - rewrite (app_assoc pre), (app_assoc (pre ++ _)), (app_assoc _ [a]), (app_assoc _ [b]).
    rewrite (app_assoc _ (ext_value e)).
    set (p := ((((pre ++ _) ++ _) ++ _) ++ _) ++ _).
    replace (o + 4 + n) with (blen p) by (unfold p; rewrite !blen_app, !blen_single; lia).
    apply sub_list_mid. rewrite blen_zeros; [done | apply Z.mod_pos_bound; lia].
Qed.

Definition tlv_of (e : R2wpExtension) : ParsedTlv :=
  {| tlv_type_id := ext_type_id e; tlv_critical := ext_critical e; tlv_value := ext_value e;
     tlv_assigned := is_assigned (ext_type_id e) |}.

Lemma critical_bit (c : bool) :
  (Z.land (if c then 1 else 0) FLAG_RESERVED_MASK =? 0) = true /\
  negb (Z.land (if c then 1 else 0) FLAG_CRITICAL =? 0) = c.
Proof. by destruct c. Qed.

Lemma trace_reserved_ok value o :
  blen value = TRACE_CONTEXT_VALUE_LENGTH ->
  match assert_trace_reserved_zero value o with
  | Ok _ => sub_list value 25 7 = zeros 7
  | Err e => sub_list value 25 7 <> zeros 7 /\ o <= xe_offset e < o + 32 /\ xe_code e = 3
  | Panic => False
  end.
Proof.
  unfold TRACE_CONTEXT_VALUE_LENGTH. intros Hl. unfold assert_trace_reserved_zero.
  pose proof (first_nonzero_spec (E := ExtensionError) TRACE_RESERVED_SIZE value
    TRACE_RESERVED_OFFSET) as Hf.
  unfold TRACE_RESERVED_OFFSET, TRACE_RESERVED_SIZE in *. change (Z.of_nat 7) with 7 in Hf.
  specialize (Hf ltac:(lia) ltac:(lia)).
  destruct (first_nonzero 7 value 25) as [[i |] | |]; [| done..]. simpl. destruct Hf. split_and!; [done | lia.. | done].
Qed.

Lemma decode_tlv_complete pre e rest prev :
  ext_ok e -> (forall p, prev = Some p -> p < ext_type_id e) ->
  decode_tlv (pre ++ tlv_bytes e ++ rest) (blen pre) prev = Ok (tlv_of e, blen (tlv_bytes e)).
Proof.
  intros (Hty & Hb & Hl & Hfix & Htr) Hprev. unfold decode_tlv. cbv zeta.
  destruct (tlv_index (E := ExtensionError) pre e rest Hl) as (-> & -> & -> & Hval & Hpad).
  pose proof (tlv_bytes_len e) as Hlen. pose proof (blen_nonneg rest). pose proof (blen_nonneg (ext_value e)).
  pose proof (Z.mod_pos_bound (- blen (ext_value e)) 4 ltac:(lia)).
  cbn [obind]. rewrite align4_content, !blen_app. unfold TLV_HEADER_LEN.
  destruct (Z.ltb_spec (blen pre + (blen (tlv_bytes e) + blen rest) - blen pre) 4); [lia |].
  destruct (critical_bit (ext_critical e)) as [-> ->]. cbn [negb].
  assert ((match fixed_value_len (ext_type_id e) with
    | Some expected => negb (blen (ext_value e) =? expected) | None => false end) = false) as ->.
  { destruct (fixed_value_len _) as [n |]; [| done]. rewrite (Hfix n eq_refl). by rewrite Z.eqb_refl. }
  zcmp.
  pose proof (first_nonzero_spec (E := ExtensionError)
    (Z.to_nat (blen (tlv_bytes e) - (4 + blen (ext_value e)))) (pre ++ tlv_bytes e ++ rest)
    (blen pre + (4 + blen (ext_value e)))) as Hf.
  rewrite Z2Nat.id, !blen_app in Hf by lia. pose proof (blen_nonneg pre).
  specialize (Hf ltac:(lia) ltac:(lia)).
  replace (blen pre + (4 + blen (ext_value e))) with (blen pre + 4 + blen (ext_value e)) in * by lia.
  replace (blen (tlv_bytes e) - (4 + blen (ext_value e))) with ((- blen (ext_value e)) mod 4) in * by lia.
  destruct (first_nonzero _ _ _) as [[j |] | |]; [by destruct Hf as [_ Hf] | | done..].
  cbn [obind]. rewrite slice_ok by (rewrite ?blen_app; lia).
  replace (blen pre + 4 + blen (ext_value e) - (blen pre + 4)) with (blen (ext_value e)) by lia.
  rewrite Hval. cbn [obind].
  assert ((if is_assigned (ext_type_id e) && (ext_type_id e =? TRACE_CONTEXT_EXTENSION_TYPE)
           then assert_trace_reserved_zero (ext_value e) (blen pre + 4) else Ok tt) = Ok tt) as ->.
  { destruct (Z.eqb_spec (ext_type_id e) TRACE_CONTEXT_EXTENSION_TYPE) as [Et |];
      [| by rewrite andb_false_r].
    rewrite Et. simpl. specialize (Htr Et).
    pose proof (trace_reserved_ok (ext_value e) (blen pre + 4)) as Ht.
    specialize (Ht (Hfix _ ltac:(by rewrite Et))).
    destruct (assert_trace_reserved_zero _ _) as [[] | |]; [done | by destruct Ht | done]. }
  cbn [obind].
  assert ((match prev with
    | Some p => if ext_type_id e =? p then Err (ext_malformed "duplicate_type" (blen pre))
                else if ext_type_id e <? p then Err (ext_malformed "order_violation" (blen pre))
                else Ok tt
    | None => Ok tt end) = Ok tt) as ->.
  { destruct prev as [p |]; [| done]. specialize (Hprev p eq_refl). by zcmp. }
  done.
Qed.

Lemma sub_list_decompose {A} (l : list A) i n :
  0 <= i -> 0 <= n -> i + n <= blen l ->
  l = sub_list l 0 i ++ sub_list l i n ++ sub_list l (i + n) (blen l - (i + n)).
Proof.
  intros Hi Hn Hle. rewrite app_assoc, <- (Z.add_0_l i) at 1.
  replace (sub_list l i n) with (sub_list l (0 + i) n) by (f_equal; lia).
  rewrite <- sub_list_split by lia. rewrite <- (Z.add_0_l (i + n)).
  rewrite <- sub_list_split by lia. rewrite sub_list_all; [done | lia].
Qed.

(** What one accepted turn consumed: the wire form of the TLV it returns. *)
Lemma decode_tlv_sound bs o prev :
  bytes_ok bs -> 0 <= o < blen bs -> blen bs <= 4096 ->
  match decode_tlv bs o prev with
  | Ok (t, n) => exists e, t = tlv_of e /\ ext_ok e /\ n = blen (tlv_bytes e) /\
      o + n <= blen bs /\ sub_list bs o n = tlv_bytes e /\
      (forall p, prev = Some p -> p < ext_type_id e)
  | Err e => o <= xe_offset e <= blen bs /\ xe_code e = 3
  | Panic => False
  end.
Proof.
  intros Hb Ho Hl. unfold decode_tlv, TLV_HEADER_LEN. cbv zeta.
  destruct (Z.ltb_spec (blen bs - o) 4) as [H4 | H4]; [simpl; split; [lia | done] |].
  rewrite !(index_ok bs _ 0) by lia. cbn [obind].
  unfold read_u16_be. rewrite !(index_ok bs _ 0) by lia. cbn [obind].
  set (ty := nth (Z.to_nat o) bs 0). set (fl := nth (Z.to_nat (o + 1)) bs 0).
  set (a := nth (Z.to_nat (o + 2)) bs 0). set (b := nth (Z.to_nat (o + 2 + 1)) bs 0).
  assert (Hby : forall i, 0 <= i < blen bs -> is_byte (nth (Z.to_nat i) bs 0)).
  { intros i Hi. apply (index_is_byte (E := unit) bs i); [done |]. by apply index_ok. }
  pose proof (Hby o ltac:(lia)) as Hty. pose proof (Hby (o + 1) ltac:(lia)) as Hfl.
  pose proof (Hby (o + 2) ltac:(lia)) as Ha. pose proof (Hby (o + 2 + 1) ltac:(lia)) as Hb2.
  fold ty fl a b in Hty, Hfl, Ha, Hb2.
  assert (Hab : bytes_ok [a; b])
    by (apply bytes_ok_cons; split; [done | apply bytes_ok_cons; split; [done | constructor]]).
  pose proof (of_be_bound _ Hab) as Hn. pose proof (to_be_of_be _ Hab) as Hto.
  change (256 ^ blen [a; b]) with 65536 in Hn. cbn [length] in Hto.
  set (n := of_be [a; b]) in *.
  destruct (Z.land fl FLAG_RESERVED_MASK =? 0) eqn:Hres; cbn [negb];
    [| simpl; split; [lia | done]].
  apply flag_bits in Hres; [| done].
  destruct (match fixed_value_len ty with Some e => negb (n =? e) | None => false end) eqn:Hfix;
    [simpl; split; [lia | done] |].
  destruct (Z.ltb_spec (blen bs - o) (4 + n)); [simpl; split; [lia | done] |].
  set (v := sub_list bs (o + 4) n).
  assert (Hv : blen v = n) by (apply blen_sub_list; lia).
  set (e := {| ext_type_id := ty; ext_critical := fl =? 1; ext_value := v |}).
  assert (Hpad : align4 (4 + n) = blen (tlv_bytes e)).
  { rewrite <- Hv. apply (align4_content e). }
  rewrite Hpad. pose proof (tlv_bytes_len e) as Hlen. change (ext_value e) with v in Hlen.
  rewrite Hv in Hlen. pose proof (Z.mod_pos_bound (- n) 4 ltac:(lia)).
  destruct (Z.ltb_spec (blen bs - o) (blen (tlv_bytes e))); [simpl; split; [lia | done] |].
  pose proof (first_nonzero_spec (E := ExtensionError)
    (Z.to_nat (blen (tlv_bytes e) - (4 + n))) bs (o + (4 + n)) ltac:(lia)) as Hf.
  rewrite Z2Nat.id in Hf by lia. specialize (Hf ltac:(lia)).
  destruct (first_nonzero _ _ _) as [[j |] | |]; [simpl; split; [lia | done] | | done..].
  cbn [obind]. rewrite slice_ok by lia. replace (o + 4 + n - (o + 4)) with n by lia. fold v.
  cbn [obind].
  assert (Hwire : sub_list bs o (blen (tlv_bytes e)) = tlv_bytes e).
  { rewrite Hlen. rewrite (sub_list_split bs o (4 + n)), (sub_list_split bs o 4) by lia. fold v.
    replace (blen (tlv_bytes e) - (4 + n)) with ((- n) mod 4) in Hf by lia. rewrite Hf.
    unfold tlv_bytes. cbn [ext_type_id ext_critical ext_value e]. rewrite Hv, Hto.
    assert (Hfour : sub_list bs o 4 = [ty; fl; a; b]).
    { unfold sub_list. change (Z.to_nat 4) with 4%nat.
      rewrite (drop_S bs ty (Z.to_nat o)), (drop_S bs fl (S (Z.to_nat o))),
        (drop_S bs a (S (S (Z.to_nat o)))), (drop_S bs b (S (S (S (Z.to_nat o))))); [done | | | |];
        unfold ty, fl, a, b;
        [replace (S (S (S (Z.to_nat o)))) with (Z.to_nat (o + 2 + 1)) by lia
        | replace (S (S (Z.to_nat o))) with (Z.to_nat (o + 2)) by lia
        | replace (S (Z.to_nat o)) with (Z.to_nat (o + 1)) by lia |];
        apply (index_lookup (E := unit)); apply index_ok; lia. }
    rewrite Hfour. replace (if fl =? 1 then 1 else 0) with fl by (destruct Hres as [-> | ->]; done).
    by rewrite <- !app_assoc. }
  destruct (if is_assigned ty && (ty =? TRACE_CONTEXT_EXTENSION_TYPE)
            then assert_trace_reserved_zero v (o + 4) else Ok tt) as [[] | er |] eqn:Htr; cbn [obind].
  - destruct (match prev with
      | Some p => if ty =? p then Err (ext_malformed "duplicate_type" o)
                  else if ty <? p then Err (ext_malformed "order_violation" o) else Ok tt
      | None => Ok tt end) as [[] | er |] eqn:Hprev; cbn [obind].
    + exists e. split_and!; [| | done | lia | done |].
      * unfold tlv_of. cbn [e ext_type_id ext_critical ext_value]. f_equal. 
        destruct Hres as [-> | ->]; done.
      * unfold ext_ok. cbn [e ext_type_id ext_critical ext_value]. rewrite Hv.
        split_and!; [done | by apply bytes_ok_sub_list | unfold u16_max; lia | |].
        -- intros m Hm. rewrite Hm in Hfix. destruct (Z.eqb_spec n m); done.
        -- intros Et. rewrite Et in Htr, Hfix. simpl in Htr, Hfix.
           pose proof (trace_reserved_ok v (o + 4)) as Ht. rewrite Htr in Ht. apply Ht.
           rewrite Hv. by destruct (Z.eqb_spec n TRACE_CONTEXT_VALUE_LENGTH).
      * intros p ->. cbn [e ext_type_id]. destruct (Z.eqb_spec ty p); [done |].
        destruct (Z.ltb_spec ty p); [done | lia].
    + destruct prev as [p |]; [| done]. repeat case_match; simplify_eq; simpl; (split; [lia | done]).
    + destruct prev as [p |]; [| done]. by repeat case_match.
  - destruct (is_assigned ty && _) eqn:Ea; [| done].
    apply andb_true_iff in Ea as [_ Et%Z.eqb_eq]. rewrite Et in Hfix. simpl in Hfix.
    pose proof (trace_reserved_ok v (o + 4)) as Ht. rewrite Htr in Ht.
    destruct (Z.eqb_spec n TRACE_CONTEXT_VALUE_LENGTH) as [En |]; [| done].
    unfold TRACE_CONTEXT_VALUE_LENGTH in En. destruct Ht as (_ & ? & ?); [by rewrite Hv, En | lia].
  - destruct (is_assigned ty && _) eqn:Ea; [| done].
    apply andb_true_iff in Ea as [_ Et%Z.eqb_eq]. rewrite Et in Hfix. simpl in Hfix.
    pose proof (trace_reserved_ok v (o + 4)) as Ht. rewrite Htr in Ht. apply Ht. rewrite Hv.
    by destruct (Z.eqb_spec n TRACE_CONTEXT_VALUE_LENGTH).
Qed.

(** The offset of the first unknown critical TLV of an area starting at [o]. *)
Fixpoint first_unknown (o : Z) (exts : list R2wpExtension) : option Z :=
  match exts with
  | [] => None
  | e :: exts' =>
      if unknown_critical e then Some o else first_unknown (o + blen (tlv_bytes e)) exts'
  end.

Lemma first_unknown_step fuc o e exts :
  match (if negb (tlv_assigned (tlv_of e)) && tlv_critical (tlv_of e) &&
            match fuc with None => true | Some _ => false end then Some o else fuc) with
  | Some x => Some x
  | None => first_unknown (o + blen (tlv_bytes e)) exts
  end = match fuc with Some x => Some x | None => first_unknown o (e :: exts) end.
Proof.
  cbn [first_unknown tlv_of tlv_assigned tlv_critical]. unfold unknown_critical.
  destruct fuc; [by rewrite andb_false_r | rewrite andb_true_r].
  by destruct (negb (is_assigned (ext_type_id e)) && ext_critical e).
Qed.

Lemma area_bytes_cons e exts : area_bytes (e :: exts) = tlv_bytes e ++ area_bytes exts.
Proof. done. Qed.

Lemma decode_tlvs_complete fuel pre exts prev fuc parsed :
  Forall ext_ok exts -> types_ascend prev exts -> (length exts <= fuel)%nat ->
  decode_tlvs fuel (pre ++ area_bytes exts) (blen pre) prev fuc parsed =
    Ok (parsed ++ map tlv_of exts,
        match fuc with Some x => Some x | None => first_unknown (blen pre) exts end).
Proof.
  intros Hok. revert fuel pre prev fuc parsed.
  induction Hok as [|e exts He Hok IH]; intros fuel pre prev fuc parsed Hasc Hfuel.
  { change (area_bytes []) with (@nil Z). cbn [map first_unknown]. rewrite !app_nil_r.
    destruct fuel; cbn [decode_tlvs]; rewrite Z.ltb_irrefl; by destruct fuc. }
  destruct fuel as [|fuel]; [simpl in Hfuel; lia |]. destruct Hasc as [Hprev Hasc].
  rewrite area_bytes_cons. cbn [decode_tlvs]. pose proof (tlv_bytes_align e) as [Hmin _].
  pose proof (blen_nonneg (area_bytes exts)). rewrite !blen_app. zcmp.
  rewrite (decode_tlv_complete pre e (area_bytes exts) prev He Hprev). cbn [obind fst snd].
  rewrite app_assoc, <- blen_app. rewrite IH; [| done | simpl in Hfuel; lia].
  rewrite <- app_assoc. cbn [app map]. do 2 f_equal. rewrite blen_app. apply first_unknown_step.
Qed.

Lemma decode_tlvs_sound fuel bs o prev fuc parsed :
  bytes_ok bs -> blen bs <= 4096 -> 0 <= o <= blen bs -> blen bs - o <= 4 * Z.of_nat fuel ->
  match decode_tlvs fuel bs o prev fuc parsed with
  | Ok (l, first) => exists exts, l = parsed ++ map tlv_of exts /\ Forall ext_ok exts /\
      types_ascend prev exts /\ sub_list bs o (blen bs - o) = area_bytes exts /\
      first = match fuc with Some x => Some x | None => first_unknown o exts end
  | Err e => 0 <= xe_offset e <= blen bs /\ xe_code e = 3
  | Panic => False
  end.
Proof.
  intros Hb Hl. revert o prev fuc parsed.
  induction fuel as [|fuel IH]; intros o prev fuc parsed Ho Hfuel; cbn [decode_tlvs];
    (destruct (Z.ltb_spec o (blen bs)) as [Hlt | Hge]; cbn [negb]; [| exists []; cbn [map first_unknown];
      rewrite app_nil_r; replace (blen bs - o) with 0 by lia; split_and!;
      [done | constructor | done | done | by destruct fuc] ]).
  { lia. }
  pose proof (decode_tlv_sound bs o prev Hb ltac:(lia) Hl) as Ht.
  destruct (decode_tlv bs o prev) as [[t n] | e |]; cbn [obind fst snd]; [| split; [lia | apply Ht] | done].
  destruct Ht as (e & -> & He & -> & Hle & Hsub & Hprev).
  pose proof (tlv_bytes_align e) as [Hmin _].
  match goal with |- context [decode_tlvs fuel bs ?o' ?p' ?f' ?l'] =>
    specialize (IH o' p' f' l' ltac:(lia) ltac:(lia)) end.
  destruct (decode_tlvs fuel bs _ _ _ _) as [[l first] | er |]; [| done | done].
  destruct IH as (exts & -> & Hok & Hasc & Harea & ->).
  exists (e :: exts). split_and!.
  - by rewrite <- app_assoc.
  - by constructor.
  - by split.
  - rewrite area_bytes_cons, <- Hsub, <- Harea.
    rewrite <- sub_list_split by lia. f_equal. lia.
  - apply first_unknown_step.
Qed.

(** [bs] is the wire form of the TLVs [exts]. *)
Definition is_area (bs : bytes) (exts : list R2wpExtension) : Prop :=
  Forall ext_ok exts /\ types_ascend None exts /\ bs = area_bytes exts.

Lemma area_bytes_align exts : blen (area_bytes exts) mod 4 = 0.
Proof.
  induction exts as [|e exts IH]; [done |]. rewrite area_bytes_cons, blen_app.
  pose proof (tlv_bytes_align e) as [_ He]. rewrite Z.add_mod, He, IH by lia. done.
Qed.

Lemma area_bytes_len exts : 4 * blen exts <= blen (area_bytes exts).
Proof.
  induction exts as [|e exts IH]; [done |]. rewrite area_bytes_cons, blen_app, blen_cons.
  pose proof (tlv_bytes_align e). lia.
Qed.

Lemma map_extension_of exts :
  map extension_of (List.filter tlv_assigned (map tlv_of exts))
    = List.filter (fun e => is_assigned (ext_type_id e)) exts.
Proof.
  induction exts as [|e exts IH]; [done |]. cbn [map List.filter tlv_of tlv_assigned].
  destruct (is_assigned (ext_type_id e)); [| done]. cbn [map]. rewrite IH. f_equal.
  by destruct e.
Qed.

Lemma decode_area_complete exts :
  Forall ext_ok exts -> types_ascend None exts -> blen (area_bytes exts) <= 4096 ->
  decode_extension_area (area_bytes exts) =
    match first_unknown 0 exts with
    | Some off => Err (ext_unsupported "unknown_critical" off)
    | None => Ok (List.filter (fun e => is_assigned (ext_type_id e)) exts)
    end.
Proof.
  intros Hok Hasc Hl. unfold decode_extension_area, EXTENSION_AREA_MAX_BYTES, EXTENSION_ALIGNMENT.
  zcmp. rewrite area_bytes_align. cbn [negb Z.eqb].
  pose proof (decode_tlvs_complete (length (area_bytes exts)) [] exts None None [] Hok Hasc) as Hd.
  change (blen []) with 0 in Hd. cbn [app] in Hd. rewrite Hd.
  2: { pose proof (area_bytes_len exts). unfold blen in *. lia. }
  cbn [obind fst snd]. destruct (first_unknown 0 exts); [done |]. by rewrite map_extension_of.
Qed.

Lemma decode_area_sound bs :
  bytes_ok bs ->
  match decode_extension_area bs with
  | Ok out => exists exts, is_area bs exts /\ blen bs <= 4096 /\ first_unknown 0 exts = None /\
                out = List.filter (fun e => is_assigned (ext_type_id e)) exts
  | Err e => 0 <= xe_offset e <= blen bs /\
      ((xe_code e = 22 /\ exists exts, is_area bs exts /\ first_unknown 0 exts = Some (xe_offset e)) \/
       (xe_code e = 3 \/ xe_code e = 24))
  | Panic => False
  end.
Proof.
  intros Hb. pose proof (blen_nonneg bs). unfold decode_extension_area, EXTENSION_AREA_MAX_BYTES, EXTENSION_ALIGNMENT.
  destruct (Z.ltb_spec 4096 (blen bs)); [simpl; split; [lia | auto] |].
  destruct (Z.eqb_spec (blen bs mod 4) 0) as [Hmod |]; cbn [negb]; [| simpl; split; [lia | auto]].
  pose proof (decode_tlvs_sound (length bs) bs 0 None None [] Hb ltac:(lia) ltac:(lia)) as Hd.
  specialize (Hd ltac:(unfold blen in *; lia)).
  destruct (decode_tlvs _ _ _ _ _ _) as [[l first] | e |]; cbn [obind fst snd]; [| | done].
  2: { destruct Hd. auto. }
  destruct Hd as (exts & -> & Hok & Hasc & Harea & ->). rewrite Z.sub_0_r, sub_list_all in Harea by done.
  assert (Ha : is_area bs exts) by done.
  destruct (first_unknown 0 exts) as [off |] eqn:Hu.
  - simpl. split; [| left; split; [done | by exists exts]].
    assert (Hoff : forall exts o, first_unknown o exts = Some off -> o <= off <= o + blen (area_bytes exts)).
    { clear. induction exts as [|e exts IH]; intros o Ho; [done |]. cbn [first_unknown] in Ho.
      rewrite area_bytes_cons, blen_app. pose proof (tlv_bytes_align e). pose proof (blen_nonneg (area_bytes exts)).
      destruct (unknown_critical e); [simplify_eq; lia |]. apply IH in Ho. lia. }
    apply Hoff in Hu. rewrite Harea. lia.
  - exists exts. split; [done |]. split; [lia |]. split; [done |]. by rewrite app_nil_l, map_extension_of.
Qed.

(** ** The encoder writes areas *)

Lemma pad4_spec out : pad4 3 out = out ++ zeros ((- blen out) mod 4).
Proof.
  pose proof (blen_nonneg out) as Hn.
  assert (Hm : forall k, blen (out ++ k) mod 4 = (blen out + blen k) mod 4) by (intros; by rewrite blen_app).
  pose proof (Z.div_mod (blen out) 4 ltac:(lia)) as Hdm.
  pose proof (Z.mod_pos_bound (blen out) 4 ltac:(lia)) as Hr.
  set (q := blen out / 4) in *. set (r := blen out mod 4) in *.
  assert (Hneg : (- blen out) mod 4 = (4 - r) mod 4).
  { rewrite Hdm. replace (- (4 * q + r)) with ((4 - r) + (- q - 1) * 4) by lia. by rewrite Z.mod_add. }
  assert (Hk : forall k, (blen out + k) mod 4 = (r + k) mod 4).
  { intros k. rewrite Hdm. replace (4 * q + r + k) with ((r + k) + q * 4) by lia. by rewrite Z.mod_add. }
  rewrite Hneg. cbn [pad4]. fold r. rewrite <- !app_assoc. cbn [app]. rewrite !Hm, !Hk.
  assert (r = 0 \/ r = 1 \/ r = 2 \/ r = 3) as [-> | [-> | [-> | ->]]] by lia; try done.
  unfold zeros. simpl. by rewrite app_nil_r.
Qed.

Lemma encode_tlvs_spec exts prev out :
  blen out mod 4 = 0 ->
  match encode_tlvs exts prev out with
  | Ok o => types_ascend prev exts /\ Forall (fun e => blen (ext_value e) <= u16_max) exts /\
            o = out ++ area_bytes exts
  | Err _ => ~ (types_ascend prev exts /\ Forall (fun e => blen (ext_value e) <= u16_max) exts)
  | Panic => False
  end.
Proof.
  revert prev out. induction exts as [|e exts IH]; intros prev out Hout; cbn [encode_tlvs].
  { split_and!; [done | constructor |]. unfold area_bytes. cbn. by rewrite app_nil_r. }
  destruct (match prev with Some p => ext_type_id e <=? p | None => false end) eqn:Hp.
  { intros [[Hlt _] _]. destruct prev as [p |]; [| done]. specialize (Hlt p eq_refl). lia. }
  destruct (Z.ltb_spec u16_max (blen (ext_value e))) as [Hl | Hl].
  { intros [_ Hf]. apply Forall_cons in Hf. lia. }
  pose proof (blen_nonneg (ext_value e)) as Hn. unfold u16_max in *.
  rewrite as_unsigned_small by (unfold is_unsigned; lia). rewrite pad4_spec.
  set (out4 := (((out ++ _) ++ _) ++ _) ++ _).
  assert (Hout4 : out4 ++ zeros ((- blen out4) mod 4) = out ++ tlv_bytes e).
  { assert (Hm : (- blen out4) mod 4 = (- blen (ext_value e)) mod 4).
    { unfold out4. rewrite !blen_app, blen_to_be. change (blen [_]) with 1.
      change (blen [if ext_critical e then 1 else 0]) with 1.
      pose proof (Z.div_mod (blen out) 4 ltac:(lia)) as Hdm. rewrite Hout in Hdm.
      replace (- (blen out + 1 + 1 + Z.of_nat 2 + blen (ext_value e)))
        with (- blen (ext_value e) + (- (blen out / 4) - 1) * 4) by lia.
      by rewrite Z.mod_add. }
    rewrite Hm. unfold out4, tlv_bytes. by rewrite <- !app_assoc. }
  rewrite Hout4. specialize (IH (Some (ext_type_id e)) (out ++ tlv_bytes e)).
  assert (Hal : blen (out ++ tlv_bytes e) mod 4 = 0).
  { rewrite blen_app, Z.add_mod, Hout by lia. pose proof (tlv_bytes_align e) as [_ ->]. done. }
  specialize (IH Hal). destruct (encode_tlvs exts _ _) as [o | |]; [| | done].
  - destruct IH as (Hasc & Hf & ->). split_and!; [| by constructor | by rewrite <- app_assoc].
    split; [| done]. intros p ->. destruct (Z.leb_spec (ext_type_id e) p); [done | lia].
  - intros [[_ Hasc] Hf]. apply IH. split; [done |]. by apply Forall_cons in Hf as [_ ?].
Qed.

(** The reason of an error tells unknown critical TLVs from structural faults. *)
Lemma first_nonzero_no_err {E} n bs i e : first_nonzero (E := E) n bs i <> Err e.
Proof.
  revert i. induction n as [|n IH]; intros i; cbn [first_nonzero]; [done |].
  unfold index. destruct (0 <=? i); cbn [obind]; [| done].
  destruct (bs !! Z.to_nat i); cbn [obind]; [| done]. by destruct (negb _).
Qed.

Lemma index_no_err {A E} (l : list A) i (e : E) : index l i <> Err e.
Proof. unfold index. by repeat case_match. Qed.

Lemma slice_no_err {A E} (l : list A) i j (e : E) : slice l i j <> Err e.
Proof. unfold slice. by case_match. Qed.

Lemma decode_tlv_reason bs o prev e :
  decode_tlv bs o prev = Err e -> xe_code e = 3 /\ xe_reason e <> "unknown_critical"%string.
Proof.
  unfold decode_tlv, read_u16_be, assert_trace_reserved_zero. intros Hd.
  repeat match type of Hd with
  | obind (index ?l ?i) _ = _ =>
      destruct (index l i) as [| e0 |] eqn:Ei; cbn [obind] in Hd;
      [| by apply index_no_err in Ei | done]; clear Ei
  | obind (slice ?l ?i ?j) _ = _ =>
      destruct (slice l i j) as [| e0 |] eqn:Ei; cbn [obind] in Hd;
      [| by apply slice_no_err in Ei | done]; clear Ei
  | obind (first_nonzero ?n ?l ?i) _ = _ =>
      destruct (first_nonzero n l i) as [| e0 |] eqn:Ei; cbn [obind] in Hd;
      [| by apply first_nonzero_no_err in Ei | done]; clear Ei
  | Err _ = _ => injection Hd as <-; done
  | Ok _ = _ => done
  | Panic = _ => done
  | (if ?c then _ else _) = _ => destruct c
  | obind (obind ?m ?f) ?g = _ =>
      change (obind (obind m f) g = Err e) in Hd; rewrite (obind_assoc m f g) in Hd
  | obind (Ok _) _ = _ => cbn [obind] in Hd
  | obind (Err _) _ = _ => cbn [obind] in Hd
  | obind (if ?c then _ else _) _ = _ => destruct c
  | obind (match ?x with _ => _ end) _ = _ => destruct x
  | match ?x with _ => _ end = _ => destruct x
  | _ => progress cbv zeta in Hd
  end.
Qed.

Lemma decode_area_reason bs e :
  decode_extension_area bs = Err e ->
  (xe_reason e = "unknown_critical"%string <-> xe_code e = 22) /\
  (xe_code e = 24 -> EXTENSION_AREA_MAX_BYTES < blen bs).
Proof.
  unfold decode_extension_area. destruct (Z.ltb_spec EXTENSION_AREA_MAX_BYTES (blen bs)).
  { by intros [= <-]. }
  destruct (negb _); [by intros [= <-] |].
  assert (Hd : forall fuel o prev fuc parsed e, decode_tlvs fuel bs o prev fuc parsed = Err e ->
    xe_code e = 3 /\ xe_reason e <> "unknown_critical"%string).
  { induction fuel as [|fuel IH]; intros o prev fuc parsed e'; cbn [decode_tlvs];
      (destruct (negb _); [done |]); [done |].
    destruct (decode_tlv bs o prev) as [[t n] | e0 |] eqn:Ed; cbn [obind]; [apply IH | | done].
    intros [= <-]. by eapply decode_tlv_reason. }
  destruct (decode_tlvs _ _ _ _ _ _) as [[l f] | e0 |] eqn:Ed; cbn [obind fst snd]; [| | done].
  - destruct f; [by intros [= <-] | done].
  - intros [= <-]. apply Hd in Ed as [-> ?]. done.
Qed.

Lemma encode_area_spec exts :
  match encode_extension_area exts with
  | Ok bs => types_ascend None exts /\ Forall (fun e => blen (ext_value e) <= u16_max) exts /\
             blen (area_bytes exts) <= EXTENSION_AREA_MAX_BYTES /\ bs = area_bytes exts
  | Err _ => ~ (types_ascend None exts /\ Forall (fun e => blen (ext_value e) <= u16_max) exts /\
                blen (area_bytes exts) <= EXTENSION_AREA_MAX_BYTES)
  | Panic => False
  end.
Proof.
  unfold encode_extension_area. pose proof (encode_tlvs_spec exts None [] ltac:(done)) as H.
  destruct (encode_tlvs exts None []) as [o | |]; cbn [obind]; [| tauto | done].
  destruct H as (? & ? & ->). rewrite app_nil_l.
  destruct (Z.ltb_spec EXTENSION_AREA_MAX_BYTES (blen (area_bytes exts))); [| tauto].
  intros (_ & _ & ?). lia.
Qed.

(** A concrete area: a trace context and an operation id. *)
Definition sample_area : list R2wpExtension :=
  [{| ext_type_id := 1; ext_critical := false; ext_value := repeat 7 25 ++ zeros 7 |};
   {| ext_type_id := 2; ext_critical := true; ext_value := repeat 9 16 |};
   {| ext_type_id := 9; ext_critical := false; ext_value := [1; 2; 3] |}].

Lemma sample_area_ok : Forall ext_ok sample_area.
Proof.
  unfold sample_area. constructor; [| constructor; [| constructor; [| by constructor]]];
    (split; [unfold is_byte; simpl; lia |]; split; [repeat constructor; unfold is_byte; simpl; lia |];
     split; [by vm_compute |]; split; [| done]; intros n Hn; vm_compute in Hn; by simplify_eq).
Qed.

(** The extension-area decoder never panics on any bytes; it accepts
    exactly the areas of at most 4096 bytes that are the wire form of a list of
    well-formed TLVs of strictly ascending type without an unknown critical
    one, and then returns their assigned TLVs in order; it answers
    [unsupported_extension] exactly for well-formed areas that hold an unknown
    critical TLV, at the offset of the first; every other input is a
    [malformed_frame] or [message_too_large] error at an offset inside the
    area. *)
Theorem extension_decode_exact bs :
  bytes_ok bs ->
  is_panic (decode_extension_area bs) = false /\
  (forall out, decode_extension_area bs = Ok out <->
     exists exts, is_area bs exts /\ blen bs <= EXTENSION_AREA_MAX_BYTES /\
       first_unknown 0 exts = None /\
       out = List.filter (fun e => is_assigned (ext_type_id e)) exts) /\
  (forall off, decode_extension_area bs = Err (ext_unsupported "unknown_critical" off) <->
     exists exts, is_area bs exts /\ blen bs <= EXTENSION_AREA_MAX_BYTES /\
       first_unknown 0 exts = Some off) /\
  (forall e, decode_extension_area bs = Err e ->
     0 <= xe_offset e <= blen bs /\ (xe_code e = 3 \/ xe_code e = 22 \/ xe_code e = 24)).
Proof.
  intros Hb. pose proof (decode_area_sound bs Hb) as Hs. unfold EXTENSION_AREA_MAX_BYTES in *.
  assert (Hc : forall exts, is_area bs exts -> blen bs <= 4096 -> decode_extension_area bs =
    match first_unknown 0 exts with
    | Some off => Err (ext_unsupported "unknown_critical" off)
    | None => Ok (List.filter (fun e => is_assigned (ext_type_id e)) exts)
    end).
  { intros exts (Hok & Hasc & ->) Hl. by apply decode_area_complete. }
  split; [by destruct (decode_extension_area bs) |]. split; [| split].
  - intros out. split.
    + intros E. by rewrite E in Hs.
    + intros (exts & Ha & Hl & Hn & ->). rewrite (Hc exts Ha Hl). by rewrite Hn.
  - intros off. split.
    + intros E. assert (Hl : blen bs <= 4096).
      { destruct (Z.le_gt_cases (blen bs) 4096); [done |]. exfalso. revert E.
        unfold decode_extension_area, EXTENSION_AREA_MAX_BYTES. zcmp. intros E. by simplify_eq. }
      rewrite E in Hs. destruct Hs as [_ [[_ (exts & Ha & Hu)] | [Hx | Hx]]]; [| done..].
      by exists exts.
    + intros (exts & Ha & Hl & Hn). rewrite (Hc exts Ha Hl). by rewrite Hn.
  - intros e E. rewrite E in Hs. destruct Hs as [? [[? _] | [? | ?]]]; auto.
Qed.

Lemma extension_decode_exact_witness :
  bytes_ok (area_bytes sample_area) /\
  is_panic (decode_extension_area (area_bytes sample_area)) = false /\
  decode_extension_area (area_bytes sample_area) = Ok (take 2 sample_area).
Proof.
  assert (Hb : bytes_ok (area_bytes sample_area))
    by (by apply bytes_ok_check; vm_compute).
  pose proof (extension_decode_exact _ Hb) as (H1 & H2 & _).
  split; [exact Hb |]. split; [exact H1 |]. apply H2. exists sample_area.
  split; [split; [apply sample_area_ok | split; [| done]] | by vm_compute].
  simpl. repeat split; intros; simplify_eq; lia.
Defined.

(** The extension encoder writes an area exactly when the types ascend
    strictly, the values fit their length field and the area fits 4096 bytes;
    the output is the wire form of the list, and for well-formed TLVs decoding
    it gives back the assigned ones, unless one is critical and unknown. *)
Theorem extension_encode_decode exts :
  Forall ext_ok exts ->
  (forall bs, encode_extension_area exts = Ok bs <->
     is_area bs exts /\ blen bs <= EXTENSION_AREA_MAX_BYTES) /\
  is_panic (encode_extension_area exts) = false /\
  (forall bs, encode_extension_area exts = Ok bs ->
     decode_extension_area bs =
       match first_unknown 0 exts with
       | Some off => Err (ext_unsupported "unknown_critical" off)
       | None => Ok (List.filter (fun e => is_assigned (ext_type_id e)) exts)
       end).
Proof.
  intros Hok. pose proof (encode_area_spec exts) as Hs.
  assert (Hv : Forall (fun e => blen (ext_value e) <= u16_max) exts)
    by (eapply Forall_impl; [exact Hok | intros e (_ & _ & ? & _); done]).
  assert (Hiff : forall bs, encode_extension_area exts = Ok bs <->
     is_area bs exts /\ blen bs <= EXTENSION_AREA_MAX_BYTES).
  { intros bs. destruct (encode_extension_area exts) as [o | |]; [| | done].
    - destruct Hs as (? & _ & ? & ->). split.
      + intros E. simplify_eq. by repeat split.
      + by intros ((_ & _ & ->) & _).
    - split; [done |]. intros ((_ & ? & ->) & ?). destruct Hs. by split_and!. }
  split; [exact Hiff |]. split; [by destruct (encode_extension_area exts) |].
  intros bs E. apply Hiff in E as ((_ & ? & ->) & ?). by apply decode_area_complete.
Qed.

Lemma extension_encode_decode_witness :
  Forall ext_ok sample_area /\
  (forall bs, encode_extension_area sample_area = Ok bs ->
     decode_extension_area bs = Ok (take 2 sample_area)) /\
  encode_extension_area sample_area = Ok (area_bytes sample_area).
Proof.
  pose proof (extension_encode_decode _ sample_area_ok) as (_ & _ & H3).
  split; [exact sample_area_ok |]. split; [| by vm_compute].
  intros bs E. rewrite (H3 bs E). by vm_compute.
Defined.
