(* ===== verification/ControlSchema.v ===== *)
(** * Control-message schemas

    The schema language of [rclweb/src/protocol/control.rs] ([Schema],
    [ArrayRule] and the constructors below them) and [kind_schema], one
    definition per arm of its [match], in the source's order.  Field numbers,
    bounds and optionality are the source's. *)

From S2P Require Import Prelude.

Module Schema.

Definition CONTROL_KIND_AUTHENTICATE : Z := 1.
Definition CONTROL_KIND_SESSION_READY : Z := 2.
Definition CONTROL_KIND_GRAPH_SNAPSHOT : Z := 3.
Definition CONTROL_KIND_GRAPH_DELTA : Z := 4.
Definition CONTROL_KIND_SCHEMA_REQUEST : Z := 5.
Definition CONTROL_KIND_SCHEMA_ADVERTISE : Z := 6.
Definition CONTROL_KIND_SCHEMA_RESPONSE : Z := 7.
Definition CONTROL_KIND_OPEN_CHANNEL : Z := 8.
Definition CONTROL_KIND_CHANNEL_READY : Z := 9.
Definition CONTROL_KIND_CLOSE_CHANNEL : Z := 10.
Definition CONTROL_KIND_CLOCK_SYNC : Z := 11.
Definition CONTROL_KIND_HEARTBEAT : Z := 12.
Definition CONTROL_KIND_SESSION_RESUME : Z := 13.
Definition CONTROL_KIND_SESSION_RESUME_RESULT : Z := 14.
Definition CONTROL_KIND_ERROR : Z := 15.

Definition UINT32_MAX : Z := 0xffffffff.
Definition UINT64_MAX : Z := u64_max.
Definition INT64_MIN : Z := - 0x8000000000000000.
Definition INT64_MAX : Z := 0x7fffffffffffffff.
Definition UTF8_TEXT_MAX : Z := 4096.
Definition DOMAIN_ID_MAX : Z := 232.
Definition DOMAIN_IDS_MAX : Z := 233.
Definition CAP_ID_MAX : Z := 65535.
Definition CAP_IDS_MAX : Z := 64.
Definition GRAPH_NODES_MAX : Z := 65535.
Definition GRAPH_ENDPOINTS_MAX : Z := 65535.
Definition GRAPH_DELTA_OPS_MAX : Z := 1024.
Definition SOURCE_BUNDLE_MAX : Z := 4096.
Definition ALIVE_CHANNELS_MAX : Z := 65535.
Definition CHANNEL_ACKS_MAX : Z := 65535.
Definition CHANNEL_RESULTS_MAX : Z := 65535.
Definition CRED_MAX : Z := 65535.
Definition DESC_MAX : Z := 1048576.
Definition CONTENT_MAX : Z := 1048576.

Inductive ArrayRule :=
| UniqueAscendingUint
| UniqueAscendingChannelId
| GraphNodesSorted
| GraphEndpointsSorted.

#[export] Instance ArrayRule_eq_dec : EqDecision ArrayRule.
Proof. solve_decision. Defined.

#[local] Set Warnings "-register-all".

(** [Schema]; a field of [SMapDyn] is (key, required, schema). *)
Inductive Schema :=
| SBool
| SUint (min max : Z)
| SInt64
| SText (min_bytes max_bytes : Z) (one_of : option (list bytes))
| SBytes (min max : Z)
| SConstU64 (c : Z)
| SConstBool (c : bool)
| SArray (min max : Z) (items : Schema) (rule : option ArrayRule)
| SMapDyn (fields : list (Z * bool * Schema))
| SUnion (variants : list Schema)
| SIdentity
| SQos
| SEffectiveQos
| SEffectiveServiceQos
| SActionQos
| SEffectiveActionQos.

(** ** Constructors *)

Definition u (min max : Z) : Schema := SUint min max.
Definition text (min_b max_b : Z) : Schema := SText min_b max_b None.
Definition text_one_of (opts : list bytes) : Schema := SText 1 UTF8_TEXT_MAX (Some opts).
Definition bytes_schema (min max : Z) : Schema := SBytes min max.
Definition arr (min max : Z) (items : Schema) (rule : option ArrayRule) : Schema :=
  SArray min max items rule.
Definition map_schema (fields : list (Z * bool * Schema)) : Schema := SMapDyn fields.
Definition req (s : Schema) : bool * Schema := (true, s).
Definition opt (s : Schema) : bool * Schema := (false, s).
Definition fmap (entries : list (Z * (bool * Schema))) : Schema :=
  map_schema (map (fun '(k, (r, s)) => (k, r, s)) entries).

Definition uint32 : Schema := u 0 UINT32_MAX.
Definition uint64 : Schema := u 0 UINT64_MAX.
Definition app_channel_id : Schema := u 1 UINT32_MAX.
Definition domain_id : Schema := u 0 DOMAIN_ID_MAX.
Definition capability_id : Schema := u 1 CAP_ID_MAX.
Definition text4k : Schema := text 0 UTF8_TEXT_MAX.
Definition text_nonempty : Schema := text 1 UTF8_TEXT_MAX.
Definition bytes16 : Schema := bytes_schema 16 16.
Definition bytes32 : Schema := bytes_schema 32 32.
Definition bytes_cred : Schema := bytes_schema 1 CRED_MAX.
Definition bytes_desc : Schema := bytes_schema 1 DESC_MAX.
Definition bytes_content : Schema := bytes_schema 0 CONTENT_MAX.
Definition wire_error_code : Schema := u 1 28.
Definition retry_class : Schema := u 0 3.
Definition close_reason : Schema := u 1 6.
Definition priority_id : Schema := u 0 4.
Definition clock_id : Schema := u 0 4.
Definition positive_depth : Schema := u 1 UINT32_MAX.
Definition support_row_id : Schema :=
  text_one_of [lit "H-FT"; lit "H-CY"; lit "H-ZN"; lit "J-FT"; lit "J-CY"; lit "J-ZN"].
Definition ros_distro : Schema := text_one_of [lit "humble"; lit "jazzy"].
Definition rmw_identifier : Schema :=
  text_one_of [lit "rmw_fastrtps_cpp"; lit "rmw_cyclonedds_cpp"; lit "rmw_zenoh_cpp"].
Definition payload_encoding_cdr : Schema := u 1 2.
Definition source_entry_encoding : Schema := u 1 5.
Definition reliability : Schema := u 0 2.
Definition durability : Schema := u 0 2.
Definition liveliness : Schema := u 0 2.
Definition qos_keep_last : Schema :=
  fmap [(1, req reliability); (2, req durability); (3, req (SConstU64 1));
        (4, req positive_depth); (5, opt uint64); (6, opt uint64); (7, opt liveliness);
        (8, opt uint64)].
Definition qos_no_depth : Schema :=
  fmap [(1, req reliability); (2, req durability);
        (3, req (SUnion [SConstU64 0; SConstU64 2])); (5, opt uint64); (6, opt uint64);
        (7, opt liveliness); (8, opt uint64)].
Definition effective_qos_keep_last : Schema :=
  fmap [(1, req (SUnion [SConstU64 1; SConstU64 2]));
        (2, req (SUnion [SConstU64 1; SConstU64 2])); (3, req (SConstU64 1));
        (4, req positive_depth); (5, opt uint64); (6, opt uint64);
        (7, req (SUnion [SConstU64 1; SConstU64 2])); (8, opt uint64)].
Definition effective_qos_keep_all : Schema :=
  fmap [(1, req (SUnion [SConstU64 1; SConstU64 2]));
        (2, req (SUnion [SConstU64 1; SConstU64 2])); (3, req (SConstU64 2));
        (5, opt uint64); (6, opt uint64); (7, req (SUnion [SConstU64 1; SConstU64 2]));
        (8, opt uint64)].
Definition effective_service_qos_keep_last : Schema :=
  fmap [(1, req (SConstU64 1)); (2, req (SConstU64 2)); (3, req (SConstU64 1));
        (4, req positive_depth); (5, opt uint64); (6, opt uint64);
        (7, req (SUnion [SConstU64 1; SConstU64 2])); (8, opt uint64)].
Definition effective_service_qos_keep_all : Schema :=
  fmap [(1, req (SConstU64 1)); (2, req (SConstU64 2)); (3, req (SConstU64 2));
        (5, opt uint64); (6, opt uint64); (7, req (SUnion [SConstU64 1; SConstU64 2]));
        (8, opt uint64)].
Definition budgets : Schema :=
  fmap [(1, opt uint32); (2, opt uint64); (3, opt uint32); (4, opt uint64); (5, opt uint32);
        (6, opt uint64)].
Definition error_body_session : Schema :=
  fmap [(48, req wire_error_code); (49, req (SConstU64 0)); (50, opt retry_class);
        (51, opt text4k); (52, opt text4k)].
Definition error_body_channel : Schema :=
  fmap [(48, req wire_error_code); (49, req (SConstU64 1)); (50, opt retry_class);
        (51, opt text4k); (52, opt text4k)].
Definition transport_caps : Schema :=
  fmap [(1, req SBool); (2, req SBool); (3, opt uint32)].
Definition buffer_caps : Schema := fmap [(1, req SBool); (2, req SBool)].
Definition capability_id_list : Schema :=
  arr 0 CAP_IDS_MAX capability_id (Some UniqueAscendingUint).
Definition negotiated_caps : Schema :=
  fmap [(1, req transport_caps); (2, req buffer_caps); (3, req capability_id_list)].
Definition source_bundle_entry : Schema :=
  fmap [(1, req text_nonempty); (2, req source_entry_encoding); (3, req bytes_content)].
Definition graph_node : Schema :=
  fmap [(55, req bytes16); (1, req text_nonempty); (2, opt text4k); (9, req domain_id)].
Definition graph_endpoint : Schema :=
  SUnion [fmap [(56, req bytes16); (55, req bytes16); (1, req text_nonempty);
                (2, req (u 0 3)); (3, req text_nonempty); (4, req SIdentity);
                (5, req payload_encoding_cdr); (6, req uint64); (7, req SQos);
                (9, req domain_id); (8, opt support_row_id)];
          fmap [(56, req bytes16); (55, req bytes16); (1, req text_nonempty);
                (2, req (SUnion [SConstU64 4; SConstU64 5])); (3, req text_nonempty);
                (4, req SIdentity); (5, req payload_encoding_cdr); (6, req uint64);
                (58, req SActionQos); (9, req domain_id); (8, opt support_row_id)]].
Definition graph_delta_op : Schema :=
  SUnion [fmap [(1, req (SConstU64 0)); (2, req graph_node)];
          fmap [(1, req (SConstU64 1)); (55, req bytes16)];
          fmap [(1, req (SConstU64 2)); (3, req graph_endpoint)];
          fmap [(1, req (SConstU64 3)); (56, req bytes16)]].
Definition channel_ack : Schema := fmap [(1, req app_channel_id); (2, req uint64)].
Definition channel_resume_result : Schema :=
  SUnion [fmap [(1, req app_channel_id); (2, req (SConstU64 0)); (3, req uint64)];
          fmap [(1, req app_channel_id); (2, req (SConstU64 1)); (3, req (SConstU64 0))];
          fmap [(1, req app_channel_id); (2, req (SConstU64 1))];
          fmap [(1, req app_channel_id); (2, req (SConstU64 2))];
          fmap [(1, req app_channel_id); (2, req (SConstU64 3));
                (15, req error_body_channel)]].

(** ** One schema per message kind *)

Definition authenticate_schema : Schema :=
  fmap [(1, req (SConstU64 1)); (2, req bytes16); (16, req text_nonempty);
        (17, req bytes_cred)].
Definition session_ready_schema : Schema :=
  fmap [(1, req (SConstU64 2)); (2, req bytes16); (7, req text_nonempty);
        (8, req support_row_id);
        (10, req (arr 1 DOMAIN_IDS_MAX domain_id (Some UniqueAscendingUint)));
        (13, req text_nonempty); (12, req budgets); (18, req ros_distro);
        (19, req rmw_identifier); (20, req text_nonempty); (21, req text_nonempty);
        (53, req bytes32); (54, req negotiated_caps)].
Definition graph_snapshot_schema : Schema :=
  fmap [(1, req (SConstU64 3)); (2, req bytes16); (14, req uint64); (7, req text_nonempty);
        (8, req support_row_id);
        (22, req (arr 0 GRAPH_NODES_MAX graph_node (Some GraphNodesSorted)));
        (23, req (arr 0 GRAPH_ENDPOINTS_MAX graph_endpoint (Some GraphEndpointsSorted)))].
Definition graph_delta_schema : Schema :=
  fmap [(1, req (SConstU64 4)); (2, req bytes16); (14, req uint64); (24, req uint64);
        (7, req text_nonempty); (8, req support_row_id);
        (25, req (arr 1 GRAPH_DELTA_OPS_MAX graph_delta_op None))].
Definition schema_request_schema : Schema :=
  fmap [(1, req (SConstU64 5)); (2, req bytes16); (4, req text_nonempty); (3, req SIdentity)].
Definition schema_advertise_schema : Schema :=
  fmap [(1, req (SConstU64 6)); (2, req bytes16); (4, req text_nonempty); (3, req SIdentity);
        (5, req payload_encoding_cdr); (6, req uint64); (26, req bytes_desc);
        (27, opt (arr 0 SOURCE_BUNDLE_MAX source_bundle_entry None)); (28, opt uint64);
        (8, opt support_row_id)].
Definition schema_response_schema : Schema :=
  SUnion [fmap [(1, req (SConstU64 7)); (2, req bytes16); (4, req text_nonempty);
                (3, req SIdentity); (5, req payload_encoding_cdr); (6, req uint64);
                (26, req bytes_desc);
                (27, opt (arr 0 SOURCE_BUNDLE_MAX source_bundle_entry None));
                (28, opt uint64); (8, opt support_row_id)];
          fmap [(1, req (SConstU64 7)); (2, req bytes16); (4, req text_nonempty);
                (3, req SIdentity); (15, req error_body_session)]].
Definition open_topic_schema : Schema :=
  fmap [(1, req (SConstU64 8)); (2, req bytes16); (29, req app_channel_id);
        (30, req (SUnion [SConstU64 0; SConstU64 1])); (31, req text_nonempty);
        (4, req text_nonempty); (3, req SIdentity); (5, req payload_encoding_cdr);
        (6, req uint64); (11, req SQos); (32, req priority_id); (12, req budgets);
        (9, req domain_id); (8, req support_row_id)].
Definition open_service_schema : Schema :=
  fmap [(1, req (SConstU64 8)); (2, req bytes16); (29, req app_channel_id);
        (30, req (SUnion [SConstU64 2; SConstU64 3])); (31, req text_nonempty);
        (4, req text_nonempty); (3, req SIdentity); (5, req payload_encoding_cdr);
        (6, req uint64); (11, req SQos); (32, req priority_id); (12, req budgets);
        (9, req domain_id); (8, req support_row_id)].
Definition open_action_schema : Schema :=
  fmap [(1, req (SConstU64 8)); (2, req bytes16); (29, req app_channel_id);
        (30, req (SUnion [SConstU64 4; SConstU64 5])); (31, req text_nonempty);
        (4, req text_nonempty); (3, req SIdentity); (5, req payload_encoding_cdr);
        (6, req uint64); (58, req SActionQos); (32, req priority_id); (12, req budgets);
        (9, req domain_id); (8, req support_row_id)].
Definition open_media_schema : Schema :=
  fmap [(1, req (SConstU64 8)); (2, req bytes16); (29, req app_channel_id);
        (30, req (SConstU64 6)); (31, req text_nonempty);
        (5, req (SUnion [SConstU64 3; SConstU64 4])); (32, req priority_id);
        (12, req budgets); (9, opt domain_id); (8, opt support_row_id)].
Definition open_recording_schema : Schema :=
  fmap [(1, req (SConstU64 8)); (2, req bytes16); (29, req app_channel_id);
        (30, req (SConstU64 7)); (31, req text_nonempty);
        (5, req (SUnion [SConstU64 5; SConstU64 6])); (32, req priority_id);
        (12, req budgets)].
Definition open_asset_schema : Schema :=
  fmap [(1, req (SConstU64 8)); (2, req bytes16); (29, req app_channel_id);
        (30, req (SConstU64 8)); (31, req text_nonempty); (5, req (SConstU64 6));
        (32, req priority_id); (12, req budgets)].
Definition open_channel_schema : Schema :=
  SUnion [open_topic_schema; open_service_schema; open_action_schema; open_media_schema; open_recording_schema; open_asset_schema].
Definition channel_ready_schema : Schema :=
  SUnion [fmap [(1, req (SConstU64 9)); (2, req bytes16); (29, req app_channel_id);
                (33, req (SUnion [SConstU64 0; SConstU64 2])); (12, req budgets);
                (59, req priority_id); (57, req SEffectiveQos); (6, opt uint64);
                (14, opt uint64); (9, opt domain_id); (8, opt support_row_id)];
          fmap [(1, req (SConstU64 9)); (2, req bytes16); (29, req app_channel_id);
                (33, req (SUnion [SConstU64 0; SConstU64 2])); (12, req budgets);
                (59, req priority_id); (60, req SEffectiveServiceQos); (6, opt uint64);
                (14, opt uint64); (9, opt domain_id); (8, opt support_row_id)];
          fmap [(1, req (SConstU64 9)); (2, req bytes16); (29, req app_channel_id);
                (33, req (SUnion [SConstU64 0; SConstU64 2])); (12, req budgets);
                (59, req priority_id); (58, req SEffectiveActionQos); (6, opt uint64);
                (14, opt uint64); (9, opt domain_id); (8, opt support_row_id)];
          fmap [(1, req (SConstU64 9)); (2, req bytes16); (29, req app_channel_id);
                (33, req (SUnion [SConstU64 0; SConstU64 2])); (12, req budgets);
                (59, req priority_id); (6, opt uint64); (14, opt uint64); (9, opt domain_id);
                (8, opt support_row_id)];
          fmap [(1, req (SConstU64 9)); (2, req bytes16); (29, req app_channel_id);
                (33, req (SUnion [SConstU64 1; SConstU64 3])); (15, req error_body_channel)]].
Definition close_channel_schema : Schema :=
  fmap [(1, req (SConstU64 10)); (2, req bytes16); (29, req app_channel_id);
        (34, req close_reason); (35, opt uint64)].
Definition clock_sync_schema : Schema :=
  fmap [(1, req (SConstU64 11)); (2, req bytes16); (36, req clock_id); (37, req SInt64);
        (38, opt uint64); (39, opt SInt64)].
Definition heartbeat_schema : Schema :=
  fmap [(1, req (SConstU64 12)); (2, req bytes16); (40, req uint64);
        (41, opt (arr 0 ALIVE_CHANNELS_MAX app_channel_id (Some UniqueAscendingUint)))].
Definition session_resume_schema : Schema :=
  fmap [(1, req (SConstU64 13)); (2, req bytes16); (42, req bytes32);
        (43, req (SConstU64 0)); (44, req negotiated_caps); (7, req text_nonempty);
        (8, req support_row_id); (14, req uint64); (6, req uint64); (13, req text_nonempty);
        (45, req (arr 0 CHANNEL_ACKS_MAX channel_ack (Some UniqueAscendingChannelId)));
        (16, req text_nonempty); (17, req bytes_cred)].
Definition session_resume_result_schema : Schema :=
  SUnion [fmap [(1, req (SConstU64 14)); (2, req bytes16); (46, req (SConstBool true));
                (47, req (arr 0 CHANNEL_RESULTS_MAX channel_resume_result (Some UniqueAscendingChannelId)))];
          fmap [(1, req (SConstU64 14)); (2, req bytes16); (46, req (SConstBool false));
                (15, req error_body_session)]].
Definition error_schema : Schema :=
  SUnion [fmap [(1, req (SConstU64 15)); (2, req bytes16); (48, req wire_error_code);
                (49, req (SConstU64 0)); (50, opt retry_class); (51, opt text4k);
                (52, opt text4k)];
          fmap [(1, req (SConstU64 15)); (2, req bytes16); (48, req wire_error_code);
                (49, req (SConstU64 1)); (29, req app_channel_id); (50, opt retry_class);
                (51, opt text4k); (52, opt text4k)];
          fmap [(1, req (SConstU64 15)); (2, req bytes16); (48, req wire_error_code);
                (49, req (SConstU64 2)); (29, req app_channel_id); (50, opt retry_class);
                (51, opt text4k); (52, opt text4k)];
          fmap [(1, req (SConstU64 15)); (2, req bytes16); (48, req wire_error_code);
                (49, req (SConstU64 3)); (50, opt retry_class); (51, opt text4k);
                (52, opt text4k)]].

Definition kind_schema (kind : Z) : option Schema :=
  if kind =? CONTROL_KIND_AUTHENTICATE then Some authenticate_schema
  else if kind =? CONTROL_KIND_SESSION_READY then Some session_ready_schema
  else if kind =? CONTROL_KIND_GRAPH_SNAPSHOT then Some graph_snapshot_schema
  else if kind =? CONTROL_KIND_GRAPH_DELTA then Some graph_delta_schema
  else if kind =? CONTROL_KIND_SCHEMA_REQUEST then Some schema_request_schema
  else if kind =? CONTROL_KIND_SCHEMA_ADVERTISE then Some schema_advertise_schema
  else if kind =? CONTROL_KIND_SCHEMA_RESPONSE then Some schema_response_schema
  else if kind =? CONTROL_KIND_OPEN_CHANNEL then Some open_channel_schema
  else if kind =? CONTROL_KIND_CHANNEL_READY then Some channel_ready_schema
  else if kind =? CONTROL_KIND_CLOSE_CHANNEL then Some close_channel_schema
  else if kind =? CONTROL_KIND_CLOCK_SYNC then Some clock_sync_schema
  else if kind =? CONTROL_KIND_HEARTBEAT then Some heartbeat_schema
  else if kind =? CONTROL_KIND_SESSION_RESUME then Some session_resume_schema
  else if kind =? CONTROL_KIND_SESSION_RESUME_RESULT then Some session_resume_result_schema
  else if kind =? CONTROL_KIND_ERROR then Some error_schema
  else None.

(** The literals [validate_schema] builds for the action kinds. *)
Definition action_qos_fields : list (Z * bool * Schema) :=
  [(1, true, SQos); (2, true, SQos); (3, true, SQos); (4, true, SQos); (5, true, SQos)].
Definition effective_action_qos_fields : list (Z * bool * Schema) :=
  [(1, true, SEffectiveServiceQos); (2, true, SEffectiveServiceQos);
   (3, true, SEffectiveServiceQos); (4, true, SEffectiveQos); (5, true, SEffectiveQos)].

(** ** Well-formed schemas and their height *)

(** How many nested [validate_schema] calls a schema can ask for. *)
Fixpoint height (s : Schema) : nat :=
  match s with
  | SArray _ _ items _ => S (height items)
  | SMapDyn fields => S (foldr (fun f n => Nat.max (height (snd f)) n) 0%nat fields)
  | SUnion variants => S (foldr (fun v n => Nat.max (height v) n) 0%nat variants)
  | SQos | SEffectiveQos | SEffectiveServiceQos => 4
  | SActionQos | SEffectiveActionQos => 6
  | _ => 1
  end.

Fixpoint distinct (ks : list Z) : bool :=
  match ks with [] => true | k :: ks' => negb (existsb (Z.eqb k) ks') && distinct ks' end.

(** Field keys are distinct and integer bounds are not negative. *)
Fixpoint schema_okb (s : Schema) : bool :=
  match s with
  | SUint min _ => 0 <=? min
  | SArray _ _ items _ => schema_okb items
  | SMapDyn fields =>
      distinct (map (fun f => fst (fst f)) fields) && forallb (fun f => schema_okb (snd f)) fields
  | SUnion variants => forallb schema_okb variants
  | _ => true
  end.

(** The fuel [validate_schema] runs on: the height of the tallest schema. *)
Definition SCHEMA_FUEL : nat := 12.

Lemma kind_schema_ok kind s :
  kind_schema kind = Some s -> schema_okb s = true /\ (height s <= SCHEMA_FUEL)%nat.
Proof.
  unfold kind_schema. intros Hs.
  repeat (destruct (kind =? _); [injection Hs as <-; split;
    [by vm_compute | apply Nat.leb_le; by vm_compute] |]). done.
Qed.

End Schema.
