(* ===== verification/Control.v ===== *)
(** * Control messages

    [rclweb/src/protocol/control.rs]: the shape validator ([validate_schema]
    and the functions it calls), [validate_control_message] and
    [decode_control_message].  [BTreeMap<u64, CborValue>] is [gmap Z CborValue];
    [validate_schema] recurses through the schema's [Qos] shorthands, so it runs
    on fuel, [SCHEMA_FUEL] being the height of the tallest schema.

    The second half is the specification: [conforms] says, without reference
    to the validator, which values a schema describes (the CDDL reading of the
    schema), and the validator is proved to accept exactly those values and to
    return them unchanged. *)

From stdpp Require Export gmap.
From stdpp Require Import sorting.
From Stdlib Require Import Sorting.Sorted.
From S2P Require Import Prelude Utf8 ProtocolError Cbor ControlSchema.
Import Schema.

Definition CONTROL_PAYLOAD_MAX_BYTES : Z := 1048576.

Abbreviation fields_map := (gmap Z CborValue).

Record ControlMessage := { cm_kind : Z; cm_fields : fields_map }.

Record ControlError := control_error { ce_reason : string; ce_offset : Z }.

Definition fail (reason : string) : ControlError := control_error reason 0.

Abbreviation V := (outcome ControlError).

Definition as_uint (value : CborValue) (min max : Z) : V Z :=
  match value with
  | Unsigned n | Negative n =>
      if (n <? min) || (max <? n) then Err (fail "range_violation") else Ok n
  | _ => Err (fail "wrong_type")
  end.

Definition as_int64 (value : CborValue) : V Z :=
  match value with
  | Unsigned n | Negative n =>
      if negb ((INT64_MIN <=? n) && (n <=? INT64_MAX)) then Err (fail "range_violation") else Ok n
  | _ => Err (fail "wrong_type")
  end.

Fixpoint insert_entries (entries : list (Z * CborValue)) (out : fields_map) : V fields_map :=
  match entries with
  | [] => Ok out
  | (k, v) :: entries' =>
      match out !! k with
      | Some _ => Err (fail "unique_violation")
      | None => insert_entries entries' (<[k := v]> out)
      end
  end.

Definition map_from_value (value : CborValue) : V fields_map :=
  match value with
  | Map entries => insert_entries entries ∅
  | _ => Err (fail "wrong_type")
  end.

Fixpoint validate_each (validate : CborValue -> V CborValue) (arr : list CborValue)
    : V (list CborValue) :=
  match arr with
  | [] => Ok []
  | el :: arr' =>
      v <-- validate el ;;
      out <-- validate_each validate arr' ;;
      Ok (v :: out)
  end.

Fixpoint validate_union (validate : Schema -> V CborValue) (variants : list Schema)
    (last : option ControlError) : V CborValue :=
  match variants with
  | [] => Err (match last with Some e => e | None => fail "union_mismatch" end)
  | v :: variants' =>
      match validate v with
      | Ok ok => Ok ok
      | Err e => validate_union validate variants' (Some e)
      | Panic => Panic
      end
  end.

(** [Ord] on byte slices. *)
Fixpoint bytes_cmp (a b : bytes) : comparison :=
  match a, b with
  | [], [] => Eq
  | [], _ :: _ => Lt
  | _ :: _, [] => Gt
  | x :: a', y :: b' => match Z.compare x y with Eq => bytes_cmp a' b' | c => c end
  end.

(** The loop shared by the array rules: a key per element, strictly ascending. *)
Fixpoint ascending_keys {K} (key : CborValue -> V K) (cmp : K -> K -> comparison)
    (prev : option K) (items : list CborValue) : V unit :=
  match items with
  | [] => Ok tt
  | el :: items' =>
      n <-- key el ;;
      match prev with
      | Some p =>
          match cmp p n with
          | Eq => Err (fail "unique_violation")
          | Gt => Err (fail "order_violation")
          | Lt => ascending_keys key cmp (Some n) items'
          end
      | None => ascending_keys key cmp (Some n) items'
      end
  end.

Definition channel_id_key (el : CborValue) : V Z :=
  m <-- map_from_value el ;;
  id <-- ok_or (m !! 1) (fail "wrong_type") ;;
  as_uint id 1 UINT32_MAX.

Definition bytes_key (field : Z) (el : CborValue) : V bytes :=
  m <-- map_from_value el ;;
  id <-- ok_or (m !! field) (fail "wrong_type") ;;
  match id with Bytes b => Ok b | _ => Err (fail "wrong_type") end.

Definition apply_array_rule (items : list CborValue) (rule : option ArrayRule) : V unit :=
  match rule with
  | None => Ok tt
  | Some UniqueAscendingUint =>
      ascending_keys (fun el => as_uint el 0 UINT64_MAX) Z.compare None items
  | Some UniqueAscendingChannelId => ascending_keys channel_id_key Z.compare None items
  | Some GraphNodesSorted => ascending_keys (bytes_key 55) bytes_cmp None items
  | Some GraphEndpointsSorted => ascending_keys (bytes_key 56) bytes_cmp None items
  end.

Definition is_lower_hex (b : Z) : bool := (48 <=? b) && (b <=? 57) || (97 <=? b) && (b <=? 102).

Definition validate_schema_identity (value : CborValue) : V CborValue :=
  m <-- map_from_value value ;;
  if negb (forallb (fun k => (k =? 1) || (k =? 2)) (map fst (map_to_list m))) then
    Err (fail "unknown_key")
  else
    scheme <-- ok_or (m !! 1) (fail "missing_key") ;;
    val <-- ok_or (m !! 2) (fail "missing_key") ;;
    match scheme, val with
    | Text scheme_s, Text val_s =>
        if bool_decide (scheme_s = lit "rep2011-rihs") then
          if negb (blen val_s =? 71) || negb (bool_decide (take 7 val_s = lit "RIHS01_")) then
            Err (fail "schema_identity")
          else
            hex <-- slice val_s 7 (blen val_s) ;;
            if negb (blen hex =? 64) || negb (forallb is_lower_hex hex) then
              Err (fail "schema_identity")
            else Ok (Map [(1, scheme); (2, val)])
        else if bool_decide (scheme_s = lit "rclweb-schema-v1") then
          if negb (blen val_s =? 64) || negb (blen val_s =? 64) || negb (forallb is_lower_hex val_s)
          then Err (fail "schema_identity")
          else Ok (Map [(1, scheme); (2, val)])
        else Err (fail "schema_identity")
    | _, _ => Err (fail "wrong_type")
    end.

Definition history_kind (value : CborValue) : V Z :=
  raw <-- map_from_value value ;;
  h <-- ok_or (raw !! 3) (fail "missing_key") ;;
  as_uint h 0 2.

Section Validate.
Variable validate_schema : CborValue -> Schema -> V CborValue.

Fixpoint validate_fields (raw : fields_map) (fields : list (Z * bool * Schema))
    (out_entries : list (Z * CborValue)) : V (list (Z * CborValue)) :=
  match fields with
  | [] => Ok out_entries
  | (key, required, schema) :: fields' =>
      match raw !! key with
      | None =>
          if required : bool then Err (fail "missing_key")
          else validate_fields raw fields' out_entries
      | Some v =>
          validated <-- validate_schema v schema ;;
          validate_fields raw fields' (out_entries ++ [(key, validated)])
      end
  end.

Definition validate_map (value : CborValue) (fields : list (Z * bool * Schema)) : V CborValue :=
  raw <-- map_from_value value ;;
  if negb (forallb (fun k => existsb (fun f => fst (fst f) =? k) fields) (map fst (map_to_list raw)))
  then Err (fail "unknown_key")
  else
    out_entries <-- validate_fields raw fields [] ;;
    Ok (Map (sort_by_key out_entries)).

Definition validate_qos (value : CborValue) : V CborValue :=
  h <-- history_kind value ;;
  if h =? 1 then validate_schema value qos_keep_last
  else if (h =? 0) || (h =? 2) then validate_schema value qos_no_depth
  else Err (fail "enum_violation").

Definition validate_effective_qos (value : CborValue) : V CborValue :=
  h <-- history_kind value ;;
  if h =? 1 then validate_schema value effective_qos_keep_last
  else if h =? 2 then validate_schema value effective_qos_keep_all
  else Err (fail "enum_violation").

Definition validate_effective_service_qos (value : CborValue) : V CborValue :=
  h <-- history_kind value ;;
  if h =? 1 then validate_schema value effective_service_qos_keep_last
  else if h =? 2 then validate_schema value effective_service_qos_keep_all
  else Err (fail "enum_violation").

End Validate.

Fixpoint validate_schema (fuel : nat) (value : CborValue) (schema : Schema) : V CborValue :=
  match fuel with
  | O => Panic
  | S fuel' =>
      match schema with
      | SBool => match value with Bool b => Ok (Bool b) | _ => Err (fail "wrong_type") end
      | SConstU64 c =>
          n <-- as_uint value 0 u64_max ;;
          if negb (n =? c) then Err (fail "enum_violation") else Ok (Unsigned n)
      | SConstBool c =>
          match value with
          | Bool b => if eqb b c then Ok (Bool b) else Err (fail "enum_violation")
          | _ => Err (fail "wrong_type")
          end
      | SUint min max =>
          n <-- as_uint value min max ;;
          if (min =? 1) && (max =? 28) && (n =? 20) then Err (fail "enum_violation")
          else Ok (Unsigned n)
      | SInt64 =>
          n <-- as_int64 value ;;
          if 0 <=? n then Ok (Unsigned n) else Ok (Negative n)
      | SText min_bytes max_bytes one_of =>
          match value with
          | Text t =>
              if (blen t <? min_bytes) || (max_bytes <? blen t) then Err (fail "text_length")
              else if match one_of with
                      | Some set => negb (existsb (fun s => bool_decide (s = t)) set)
                      | None => false
                      end
              then Err (fail "enum_violation")
              else Ok value
          | _ => Err (fail "wrong_type")
          end
      | SBytes min max =>
          match value with
          | Bytes b =>
              if (blen b <? min) || (max <? blen b) then Err (fail "bytes_length") else Ok value
          | _ => Err (fail "wrong_type")
          end
      | SArray min max items rule =>
          match value with
          | Array arr =>
              if (blen arr <? min) || (max <? blen arr) then Err (fail "array_bound")
              else
                out <-- validate_each (fun el => validate_schema fuel' el items) arr ;;
                apply_array_rule out rule ;;?
                Ok (Array out)
          | _ => Err (fail "wrong_type")
          end
      | SMapDyn fields => validate_map (validate_schema fuel') value fields
      | SUnion variants => validate_union (validate_schema fuel' value) variants None
      | SIdentity => validate_schema_identity value
      | SQos => validate_qos (validate_schema fuel') value
      | SEffectiveQos => validate_effective_qos (validate_schema fuel') value
      | SEffectiveServiceQos => validate_effective_service_qos (validate_schema fuel') value
      | SActionQos => validate_schema fuel' value (SMapDyn action_qos_fields)
      | SEffectiveActionQos => validate_schema fuel' value (SMapDyn effective_action_qos_fields)
      end
  end.

Definition text_field (m : fields_map) (k : Z) : V bytes :=
  match m !! k with Some (Text t) => Ok t | _ => Err (fail "wrong_type") end.

(** The support rows: row id, ROS distribution, RMW implementation. *)
Definition support_rows : list (bytes * (bytes * bytes)) :=
  [(lit "H-FT", (lit "humble", lit "rmw_fastrtps_cpp"));
   (lit "H-CY", (lit "humble", lit "rmw_cyclonedds_cpp"));
   (lit "H-ZN", (lit "humble", lit "rmw_zenoh_cpp"));
   (lit "J-FT", (lit "jazzy", lit "rmw_fastrtps_cpp"));
   (lit "J-CY", (lit "jazzy", lit "rmw_cyclonedds_cpp"));
   (lit "J-ZN", (lit "jazzy", lit "rmw_zenoh_cpp"))].

Fixpoint assoc {A} (k : bytes) (l : list (bytes * A)) : option A :=
  match l with
  | [] => None
  | (k', a) :: l' => if bool_decide (k = k') then Some a else assoc k l'
  end.

Definition assert_session_ready_triple (m : fields_map) : V unit :=
  row <-- text_field m 8 ;;
  distro <-- text_field m 18 ;;
  rmw <-- text_field m 19 ;;
  match assoc row support_rows with
  | None => Err (fail "enum_violation")
  | Some (exp_distro, exp_rmw) =>
      if negb (bool_decide (distro = exp_distro)) || negb (bool_decide (rmw = exp_rmw)) then
        Err (fail "support_row_mismatch")
      else Ok tt
  end.

(** The variant of the OpenChannel union for an entity class; the [unwrap],
    [unreachable!] and [Vec::remove] of the source panic otherwise. *)
Definition open_variant (i : Z) : V Schema :=
  match kind_schema CONTROL_KIND_OPEN_CHANNEL with
  | Some (SUnion v) => index v i
  | _ => Panic
  end.

Definition validate_open_channel (value : CborValue) : V CborValue :=
  raw <-- map_from_value value ;;
  cls_v <-- ok_or (raw !! 30) (fail "missing_key") ;;
  cls <-- as_uint cls_v 0 8 ;;
  schema <-- (if (cls =? 0) || (cls =? 1) then open_variant 0
              else if (cls =? 2) || (cls =? 3) then open_variant 1
              else if (cls =? 4) || (cls =? 5) then open_variant 2
              else if cls =? 6 then open_variant 3
              else if cls =? 7 then open_variant 4
              else if cls =? 8 then open_variant 5
              else Err (fail "enum_violation")) ;;
  validate_schema SCHEMA_FUEL value schema.

Definition validate_control_message (value : CborValue) : V ControlMessage :=
  raw <-- map_from_value value ;;
  kind_v <-- ok_or (raw !! 1) (fail "missing_key") ;;
  kind <-- as_uint kind_v 0 255 ;;
  schema <-- ok_or (kind_schema kind) (fail "unassigned_kind") ;;
  validated <-- (if kind =? CONTROL_KIND_OPEN_CHANNEL then validate_open_channel value
                 else validate_schema SCHEMA_FUEL value schema) ;;
  match validated with
  | Map entries =>
      let fields : fields_map := foldl (fun m e => <[fst e := snd e]> m) ∅ entries in
      (if kind =? CONTROL_KIND_SESSION_READY then assert_session_ready_triple fields
       else Ok tt) ;;?
      Ok {| cm_kind := kind; cm_fields := fields |}
  | _ => Err (fail "wrong_type")
  end.

Definition decode_control_message `{Target} (bs : bytes) : V ControlMessage :=
  if CONTROL_PAYLOAD_MAX_BYTES <? blen bs then Err (control_error "payload_too_large" 0)
  else
    match decode_deterministic_cbor bs with
    | Ok decoded => validate_control_message decoded
    | Err e => Err (control_error "cbor_profile" (cbor_offset e))
    | Panic => Panic
    end.

Definition map_control_error `{Target} (err : ControlError) (payload_base : Z) : ProtocolError :=
  if bool_decide (ce_reason err = "payload_too_large"%string) then
    message_too_large_frame "control_payload_too_large" 24 3
  else invalid_control "invalid_control" (Z.min usize_max (payload_base + ce_offset err)) 16.

(** ** The specification: what a schema describes *)

Definition bytes_lt (a b : bytes) : Prop := bytes_cmp a b = Lt.

(** [items] carry the [field]s [ks]. *)
Definition keyed {K} (inj : K -> CborValue) (field : Z) (items : list CborValue) (ks : list K)
    : Prop :=
  Forall2 (fun it k => exists es, it = Map es /\ (field, inj k) ∈ es) items ks.

(** The order an array rule asks for. *)
Definition rule_holds (rule : option ArrayRule) (items : list CborValue) : Prop :=
  match rule with
  | None => True
  | Some UniqueAscendingUint => exists ns, items = map Unsigned ns /\ StronglySorted Z.lt ns
  | Some UniqueAscendingChannelId => exists ns, keyed Unsigned 1 items ns /\
      Forall (fun n => 1 <= n <= UINT32_MAX) ns /\ StronglySorted Z.lt ns
  | Some GraphNodesSorted => exists ids, keyed Bytes 55 items ids /\ StronglySorted bytes_lt ids
  | Some GraphEndpointsSorted => exists ids, keyed Bytes 56 items ids /\ StronglySorted bytes_lt ids
  end.

(** A schema identity: a RIHS01 type hash or a schema-v1 hash, in lower-case hex. *)
Definition identity_ok (scheme val : bytes) : Prop :=
  (scheme = lit "rep2011-rihs" /\
     exists hex, val = lit "RIHS01_" ++ hex /\ blen hex = 64 /\ forallb is_lower_hex hex = true) \/
  (scheme = lit "rclweb-schema-v1" /\ blen val = 64 /\ forallb is_lower_hex val = true).

#[local] Set Warnings "-register-all".

Inductive conforms : Schema -> CborValue -> Prop :=
| C_bool b : conforms SBool (Bool b)
| C_uint min max n :
    min <= n <= max -> ~ (min = 1 /\ max = 28 /\ n = 20) -> conforms (SUint min max) (Unsigned n)
| C_int64_pos n : 0 <= n <= INT64_MAX -> conforms SInt64 (Unsigned n)
| C_int64_neg n : INT64_MIN <= n < 0 -> conforms SInt64 (Negative n)
| C_text min max one_of t :
    min <= blen t <= max -> (forall set, one_of = Some set -> t ∈ set) ->
    conforms (SText min max one_of) (Text t)
| C_bytes min max b : min <= blen b <= max -> conforms (SBytes min max) (Bytes b)
| C_const_u64 n : conforms (SConstU64 n) (Unsigned n)
| C_const_bool b : conforms (SConstBool b) (Bool b)
| C_array min max items rule arr :
    min <= blen arr <= max -> Forall (conforms items) arr -> rule_holds rule arr ->
    conforms (SArray min max items rule) (Array arr)
| C_map fields entries :
    (forall k v, (k, v) ∈ entries -> exists r s, (k, r, s) ∈ fields /\ conforms s v) ->
    (forall k s, (k, true, s) ∈ fields -> exists v, (k, v) ∈ entries) ->
    conforms (SMapDyn fields) (Map entries)
| C_union variants s v : s ∈ variants -> conforms s v -> conforms (SUnion variants) v
| C_identity scheme val :
    identity_ok scheme val -> conforms SIdentity (Map [(1, Text scheme); (2, Text val)])
| C_qos_last v : conforms qos_keep_last v -> conforms SQos v
| C_qos_no_depth v : conforms qos_no_depth v -> conforms SQos v
| C_effective_last v : conforms effective_qos_keep_last v -> conforms SEffectiveQos v
| C_effective_all v : conforms effective_qos_keep_all v -> conforms SEffectiveQos v
| C_service_last v :
    conforms effective_service_qos_keep_last v -> conforms SEffectiveServiceQos v
| C_service_all v :
    conforms effective_service_qos_keep_all v -> conforms SEffectiveServiceQos v
| C_action v : conforms (SMapDyn action_qos_fields) v -> conforms SActionQos v
| C_effective_action v :
    conforms (SMapDyn effective_action_qos_fields) v -> conforms SEffectiveActionQos v.

(** ** Maps with ascending keys *)

Lemma ascending_sorted ks : ascending ks = true <-> StronglySorted Z.lt ks.
Proof.
  induction ks as [|k ks IH]; [split; [constructor | done] |]. rewrite ascending_cons. split.
  - intros [Hh Ha]. apply IH in Ha. constructor; [done |]. destruct ks as [|k' ks]; [constructor |].
    specialize (Hh k' eq_refl). inversion Ha; subst. constructor; [done |].
    eapply Forall_impl; [eassumption |]. intros x Hx. cbv beta in Hx. lia.
  - inversion 1 as [|? ? Hs Hf]; subst. split; [| by apply IH].
    intros k' Hk'. destruct ks; [done |]. simplify_eq/=. by apply Forall_cons in Hf as [? _].
Qed.

Lemma ascending_nodup ks : ascending ks = true -> NoDup ks.
Proof.
  intros Ha. apply ascending_sorted in Ha. induction Ha as [|k ks Hs IH Hf]; [constructor |].
  constructor; [| done]. intros Hk. rewrite Forall_forall in Hf. apply Hf in Hk. lia.
Qed.

Lemma insert_entries_spec entries m :
  NoDup (map fst entries) -> (forall k, k ∈ map fst entries -> m !! k = None) ->
  insert_entries entries m = Ok (list_to_map entries ∪ m).
Proof.
  revert m. induction entries as [|[k v] es IH]; intros m Hn Hm; cbn [insert_entries].
  { simpl. by rewrite (left_id_L ∅ (∪)). }
  cbn [map fst] in *. apply NoDup_cons in Hn as [Hk Hn]. rewrite (Hm k) by set_solver.
  rewrite IH; [| done |].
  - f_equal. rewrite list_to_map_cons, <- insert_union_l.
    rewrite <- insert_union_r; [done |].
    by apply not_elem_of_list_to_map_1.
  - intros k' Hk'. rewrite lookup_insert_ne by set_solver. set_solver.
Qed.

Lemma map_from_entries es :
  ascending (map fst es) = true -> map_from_value (Map es) = Ok (list_to_map es).
Proof.
  intros Ha. unfold map_from_value. rewrite insert_entries_spec.
  - by rewrite (right_id_L ∅ (∪)).
  - by apply ascending_nodup.
  - intros. apply lookup_empty.
Qed.

Lemma lookup_entries (es : list (Z * CborValue)) k v :
  ascending (map fst es) = true -> (list_to_map es : fields_map) !! k = Some v <-> (k, v) ∈ es.
Proof. intros Ha. symmetry. apply elem_of_list_to_map. by apply ascending_nodup. Qed.

Lemma lookup_entries_none (es : list (Z * CborValue)) k :
  (list_to_map es : fields_map) !! k = None <-> forall v, (k, v) ∉ es.
Proof.
  rewrite <- not_elem_of_list_to_map. split.
  - intros Hk v Hv. apply Hk. by apply (list_elem_of_fmap_2 fst) in Hv.
  - intros Hn Hk. apply list_elem_of_fmap in Hk as ([k' v] & -> & Hv). by apply (Hn v).
Qed.

(** The key list of a map, as the loops over [keys()] see it. *)
Lemma keys_forall (P : Z -> bool) (es : list (Z * CborValue)) :
  ascending (map fst es) = true ->
  forallb P (map fst (map_to_list (list_to_map es : fields_map))) = true <->
  forall k v, (k, v) ∈ es -> P k = true.
Proof.
  intros Ha. rewrite forallb_Forall, Forall_forall. split.
  - intros Hp k v Hkv. apply Hp. apply (list_elem_of_fmap_2 fst (map_to_list _) (k, v)).
    apply elem_of_map_to_list. by apply lookup_entries.
  - intros Hp k Hk. apply (list_elem_of_fmap fst) in Hk as ([k' v] & -> & Hv).
    apply elem_of_map_to_list in Hv. apply lookup_entries in Hv; [| done]. by eapply Hp.
Qed.

Lemma known_key fields k :
  existsb (fun f : Z * bool * Schema => fst (fst f) =? k) fields = true <->
  exists r s, (k, r, s) ∈ fields.
Proof.
  rewrite existsb_exists. split.
  - intros ([[k' r] s] & Hin & Hk). apply Z.eqb_eq in Hk as <-. exists r, s. by apply list_elem_of_In.
  - intros (r & s & Hin). exists (k, r, s). split; [by apply list_elem_of_In | apply Z.eqb_refl].
Qed.

Lemma distinct_nodup ks : distinct ks = true -> NoDup ks.
Proof.
  induction ks as [|k ks IH]; cbn [distinct]; [constructor |].
  rewrite andb_true_iff, negb_true_iff. intros [Hk Hd]. constructor; [| by apply IH].
  intros Hin. apply not_true_iff_false in Hk. apply Hk. apply existsb_exists. exists k.
  split; [by apply list_elem_of_In | apply Z.eqb_refl].
Qed.

Lemma nodup_field fields k r r' s s' :
  NoDup (map (fun f : Z * bool * Schema => fst (fst f)) fields) ->
  (k, r, s) ∈ fields -> (k, r', s') ∈ fields -> r = r' /\ s = s'.
Proof.
  induction fields as [|[[k0 r0] s0] fs IH]; [intros _ H; by apply not_elem_of_nil in H |].
  cbn [map fst]. intros [Hk Hn]%NoDup_cons H1 H2.
  assert (Hno : forall r s, (k0, r, s) ∉ fs).
  { intros r1 s1 Hin. apply Hk. by apply (list_elem_of_fmap_2 (fun f => fst (fst f))) in Hin. }
  apply elem_of_cons in H1 as [H1 | H1], H2 as [H2 | H2]; simplify_eq; try done.
  - by apply Hno in H2.
  - by apply Hno in H1.
  - by apply IH.
Qed.

(** Sorting any arrangement of the entries of a map gives them back. *)
Lemma sort_unique {A} (es out : list (Z * A)) :
  ascending (map fst es) = true -> Permutation out es -> sort_by_key out = es.
Proof.
  intros Ha Hp. pose proof (Permutation_trans (sort_by_key_perm out) Hp) as Hs.
  pose (R := fun p q : Z * A => fst p <= fst q).
  apply (StronglySorted_unique_strong R); [| | | done].
  - intros [k v] [k' v'] H1 H2 Hle Hge. unfold R in *. simpl in *. assert (k = k') as <- by lia.
    rewrite Hs in H1. f_equal. apply ascending_nodup in Ha.
    revert H1 H2. clear - Ha. induction es as [|[k0 v0] es IH]; [intros H; by apply not_elem_of_nil in H |].
    cbn [map fst] in Ha. apply NoDup_cons in Ha as [Hk Hn].
    assert (Hno : forall v, (k0, v) ∉ es).
    { intros v1 Hin. apply Hk. by apply (list_elem_of_fmap_2 fst) in Hin. }
    intros [H1 | H1]%elem_of_cons [H2 | H2]%elem_of_cons; simplify_eq; try done.
    + by apply Hno in H2.
    + by apply Hno in H1.
    + by apply IH.
  - pose proof (sort_by_key_sorted out) as Hd. revert Hd. generalize (sort_by_key out). clear.
    induction l as [|p l IH]; [constructor |]. cbn [map]. intros [Hh Hn]%nondecreasing_cons.
    specialize (IH Hn). constructor; [done |]. destruct l as [|q l]; [constructor |].
    specialize (Hh (fst q) eq_refl). inversion IH; subst. constructor; [done |].
    eapply Forall_impl; [eassumption |]. unfold R. intros x Hx. cbv beta in Hx. lia.
  - clear - Ha. induction es as [|p l IH]; [constructor |]. cbn [map] in Ha.
    apply ascending_cons in Ha as [Hh Hn].
    specialize (IH Hn). constructor; [done |]. destruct l as [|q l]; [constructor |].
    specialize (Hh (fst q) eq_refl). inversion IH; subst. unfold R. constructor; [lia |].
    eapply Forall_impl; [eassumption |]. intros x Hx. unfold R in *. lia.
Qed.

(** The entries [validate_fields] collects. *)
Fixpoint present (raw : fields_map) (fields : list (Z * bool * Schema)) : list (Z * CborValue) :=
  match fields with
  | [] => []
  | (k, _, _) :: fields' =>
      match raw !! k with Some v => (k, v) :: present raw fields' | None => present raw fields' end
  end.

Lemma elem_of_present raw fields k v :
  (k, v) ∈ present raw fields <-> (exists r s, (k, r, s) ∈ fields) /\ raw !! k = Some v.
Proof.
  induction fields as [|[[k0 r0] s0] fs IH]; cbn [present].
  { split; [intros H; by apply not_elem_of_nil in H |].
    intros [(? & ? & H) _]. by apply not_elem_of_nil in H. }
  assert (Hsplit : (exists r s, (k, r, s) ∈ (k0, r0, s0) :: fs) <->
                   k = k0 \/ exists r s, (k, r, s) ∈ fs).
  { split.
    - intros (r & s & [H | H]%elem_of_cons); [left; congruence | right; by exists r, s].
    - intros [-> | (r & s & H)]; [exists r0, s0 | exists r, s]; apply elem_of_cons; auto. }
  rewrite Hsplit. destruct (raw !! k0) as [v0 |] eqn:E.
  - rewrite elem_of_cons, IH. split; [naive_solver |]. intros [[-> | ?] ?]; [| naive_solver].
    left. congruence.
  - rewrite IH. split; [naive_solver |]. intros [[-> | ?] ?]; [congruence | done].
Qed.

Lemma present_perm fields es :
  NoDup (map (fun f : Z * bool * Schema => fst (fst f)) fields) ->
  ascending (map fst es) = true ->
  (forall k v, (k, v) ∈ es -> exists r s, (k, r, s) ∈ fields) ->
  Permutation (present (list_to_map es) fields) es.
Proof.
  intros Hn Ha Hk. apply NoDup_Permutation.
  - clear - Hn. induction fields as [|[[k0 r0] s0] fs IH]; cbn [present map fst] in *; [constructor |].
    apply NoDup_cons in Hn as [H0 Hn].
    destruct (list_to_map es !! k0); [| by apply IH]. constructor; [| by apply IH].
    rewrite elem_of_present. intros [(r & s & Hin) _]. apply H0.
    by apply (list_elem_of_fmap_2 (fun f => fst (fst f))) in Hin.
  - apply (NoDup_fmap_1 fst). by apply ascending_nodup.
  - intros [k v]. rewrite elem_of_present, lookup_entries by done. naive_solver.
Qed.

(** ** The validator accepts exactly the conforming values *)

Lemma as_uint_spec v d min max :
  cbor_okb v d = true -> 0 <= min ->
  match as_uint v min max with
  | Ok n => v = Unsigned n /\ min <= n <= max
  | Err _ => forall n, v = Unsigned n -> ~ (min <= n <= max)
  | Panic => False
  end.
Proof.
  intros Hv Hmin. unfold as_uint. destruct v as [| | n | n | | | |]; try done.
  - destruct (Z.ltb_spec n min), (Z.ltb_spec max n); cbn [orb]; try (intros ? [= <-]; lia).
    split; [done | lia].
  - cbn [cbor_okb] in Hv. destruct (Z.ltb_spec n min); [done | lia].
Qed.

(** What a correct validator answers for one schema and one value. *)
Definition validates (VS : CborValue -> Schema -> V CborValue) (s : Schema) (v : CborValue)
    : Prop :=
  match VS v s with
  | Ok v' => v' = v /\ conforms s v
  | Err _ => ~ conforms s v
  | Panic => False
  end.

Lemma validate_each_spec VS item arr :
  Forall (validates VS item) arr ->
  match validate_each (fun el => VS el item) arr with
  | Ok out => out = arr /\ Forall (conforms item) arr
  | Err _ => ~ Forall (conforms item) arr
  | Panic => False
  end.
Proof.
  induction 1 as [|v arr Hv Harr IH]; cbn [validate_each]; [by split; [| constructor] |].
  unfold validates in Hv. destruct (VS v item) as [v' | |]; cbn [obind]; [| | done].
  - destruct Hv as [-> Hv]. destruct (validate_each _ arr) as [out | |]; cbn [obind]; [| | done].
    + destruct IH as [-> IH]. by split; [| constructor].
    + intros Hf. apply IH. by apply Forall_cons in Hf as [_ ?].
  - intros Hf. apply Hv. by apply Forall_cons in Hf as [? _].
Qed.

Lemma validate_union_spec VS v variants last :
  Forall (fun s => validates VS s v) variants ->
  match validate_union (VS v) variants last with
  | Ok v' => v' = v /\ exists s, s ∈ variants /\ conforms s v
  | Err _ => forall s, s ∈ variants -> ~ conforms s v
  | Panic => False
  end.
Proof.
  intros Hall. revert last. induction Hall as [|s ss Hs Hall IH]; intros last; cbn [validate_union].
  { intros s Hs. by apply not_elem_of_nil in Hs. }
  unfold validates in Hs. destruct (VS v s) as [v' | e |]; [| | done].
  - destruct Hs as [-> Hs]. split; [done |]. exists s. by split; [apply list_elem_of_here |].
  - specialize (IH (Some e)). destruct (validate_union _ ss _) as [v' | |]; [| | done].
    + destruct IH as [-> (s' & Hin & Hc)]. split; [done |]. exists s'.
      by split; [apply list_elem_of_further |].
    + intros s' [-> | Hin]%elem_of_cons; [done | by apply IH].
Qed.

(** Every field of the schema is satisfied by the map. *)
Definition fields_hold (raw : fields_map) (fields : list (Z * bool * Schema)) : Prop :=
  Forall (fun '(k, r, s) =>
    match raw !! k with Some v => conforms s v | None => r = false end) fields.

Lemma validate_fields_spec VS raw fields out :
  Forall (fun '(k, r, s) => forall v, raw !! k = Some v -> validates VS s v) fields ->
  match validate_fields VS raw fields out with
  | Ok out' => out' = out ++ present raw fields /\ fields_hold raw fields
  | Err _ => ~ fields_hold raw fields
  | Panic => False
  end.
Proof.
  intros Hall. revert out.
  induction Hall as [|[[k r] s] fs Hf Hall IH]; intros out; cbn [validate_fields present].
  { split; [by rewrite app_nil_r | constructor]. }
  destruct (raw !! k) as [v |] eqn:Hk.
  - specialize (Hf v eq_refl). unfold validates in Hf.
    destruct (VS v s) as [v' | |]; cbn [obind]; [| | done].
    + destruct Hf as [-> Hc]. specialize (IH (out ++ [(k, v)])).
      destruct (validate_fields _ _ _ _) as [out' | |]; [| | done].
      * destruct IH as [-> IH]. split; [by rewrite <- app_assoc |]. constructor; [by rewrite Hk | done].
      * intros Hh. apply IH. by apply Forall_cons in Hh as [_ ?].
    + intros Hh. apply Forall_cons in Hh as [Hh _]. by rewrite Hk in Hh.
  - destruct r.
    + intros Hh. apply Forall_cons in Hh as [Hh _]. by rewrite Hk in Hh.
    + specialize (IH out). destruct (validate_fields _ _ _ _) as [out' | |]; [| | done].
      * destruct IH as [-> IH]. split; [done |]. constructor; [by rewrite Hk | done].
      * intros Hh. apply IH. by apply Forall_cons in Hh as [_ ?].
Qed.

(** [fields_hold] is the map clause of [conforms]. *)
Lemma fields_hold_conforms fields es :
  ascending (map fst es) = true ->
  NoDup (map (fun f : Z * bool * Schema => fst (fst f)) fields) ->
  conforms (SMapDyn fields) (Map es) <->
  (forall k v, (k, v) ∈ es -> exists r s, (k, r, s) ∈ fields) /\
  fields_hold (list_to_map es) fields.
Proof.
  intros Ha Hn. unfold fields_hold. rewrite Forall_forall. split.
  - inversion 1 as [| | | | | | | | | ? ? Hk Hr | | | | | | | | | |]; subst. split.
    + intros k v Hin. destruct (Hk k v Hin) as (r & s & ? & _). by exists r, s.
    + intros [[k r] s] Hf. destruct (list_to_map es !! k) as [v |] eqn:E.
      * apply lookup_entries in E; [| done]. destruct (Hk k v E) as (r' & s' & Hf' & Hc).
        destruct (nodup_field _ _ _ _ _ _ Hn Hf Hf') as [-> ->]. done.
      * destruct r; [| done]. destruct (Hr k s Hf) as [v Hv].
        rewrite lookup_entries_none in E. by apply E in Hv.
  - intros [Hk Hh]. constructor.
    + intros k v Hin. destruct (Hk k v Hin) as (r & s & Hf). exists r, s. split; [done |].
      specialize (Hh _ Hf). cbv beta iota in Hh. apply lookup_entries in Hin; [| done].
      by rewrite Hin in Hh.
    + intros k s Hf. specialize (Hh _ Hf). cbv beta iota in Hh.
      destruct (list_to_map es !! k) as [v |] eqn:E; [| done].
      exists v. by apply lookup_entries in E.
Qed.

Lemma cbor_okb_map es d :
  cbor_okb (Map es) d = true ->
  ascending (map fst es) = true /\
  forall k v, (k, v) ∈ es -> 0 <= k <= u64_max /\ cbor_okb v (d + 1) = true.
Proof.
  cbn [cbor_okb]. rewrite !andb_true_iff. intros [[[_ _] Ha] Hall]. split; [done |].
  intros k v Hin. apply forallb_Forall in Hall. rewrite Forall_forall in Hall.
  specialize (Hall _ Hin). cbv beta iota in Hall. rewrite !andb_true_iff in Hall.
  destruct Hall as [[? ?] ?]. split; [lia | done].
Qed.

Lemma validate_map_spec VS fields v d :
  cbor_okb v d = true -> NoDup (map (fun f : Z * bool * Schema => fst (fst f)) fields) ->
  (forall k r s w, (k, r, s) ∈ fields -> cbor_okb w (d + 1) = true -> validates VS s w) ->
  validates (fun v _ => validate_map VS v fields) (SMapDyn fields) v.
Proof.
  intros Hv Hn Hfs. unfold validates, validate_map.
  destruct v as [| | | | | | | es]; try (cbn; by inversion 1).
  apply cbor_okb_map in Hv as [Ha Hsub]. rewrite map_from_entries by done. cbn [obind].
  pose proof (keys_forall (fun k => existsb (fun f => fst (fst f) =? k) fields) es Ha) as Hkeys.
  pose proof (fields_hold_conforms fields es Ha Hn) as Hiff.
  destruct (forallb _ _); cbn [negb].
  - assert (Hk : forall k v, (k, v) ∈ es -> exists r s, (k, r, s) ∈ fields).
    { intros k v Hin. apply known_key. by eapply Hkeys. }
    assert (Hall : Forall (fun '(k, r, s) =>
      forall w, (list_to_map es : fields_map) !! k = Some w -> validates VS s w) fields).
    { apply Forall_forall. intros [[k r] s] Hin w Hw. apply lookup_entries in Hw; [| done].
      apply (Hfs k r s); [done | by eapply Hsub]. }
    pose proof (validate_fields_spec VS (list_to_map es) fields [] Hall) as Hf.
    destruct (validate_fields VS _ fields []) as [out | |]; cbn [obind]; [| | done].
    + destruct Hf as [-> Hh]. split; [| by apply Hiff]. f_equal. rewrite app_nil_l.
      apply sort_unique; [done | by apply present_perm].
    + intros Hc. by apply Hf, Hiff.
  - intros Hc. apply Hiff in Hc as [Hk _].
    assert (false = true) by (apply Hkeys; intros; by apply known_key; eapply Hk). done.
Qed.

(** *** Array rules *)

Lemma bytes_cmp_eq a b : bytes_cmp a b = Eq <-> a = b.
Proof.
  revert b. induction a as [|x a IH]; intros [|y b]; cbn [bytes_cmp]; try done.
  destruct (Z.compare_spec x y); rewrite ?IH; split; intros; simplify_eq; try done; lia.
Qed.

Lemma bytes_lt_trans a b c : bytes_lt a b -> bytes_lt b c -> bytes_lt a c.
Proof.
  unfold bytes_lt. revert b c. induction a as [|x a IH]; intros [|y b] [|z c]; cbn [bytes_cmp]; try done.
  destruct (Z.compare_spec x y), (Z.compare_spec y z), (Z.compare_spec x z); try done; try lia.
  apply IH.
Qed.

Section AscendingKeys.
Context {K : Type} (key : CborValue -> V K) (cmp : K -> K -> comparison).
Context (key_of : CborValue -> K -> Prop).
Context (cmp_trans : forall a b c, cmp a b = Lt -> cmp b c = Lt -> cmp a c = Lt).
Definition key_spec (it : CborValue) : Prop :=
  (forall a b, key_of it a -> key_of it b -> a = b) /\
  match key it with Ok k => key_of it k | Err _ => forall k, ~ key_of it k | Panic => False end.

Lemma ascending_keys_spec prev items :
  Forall key_spec items ->
  let good := exists ks, Forall2 key_of items ks /\ StronglySorted (fun a b => cmp a b = Lt) ks /\
                forall p, prev = Some p -> Forall (fun k => cmp p k = Lt) ks in
  match ascending_keys key cmp prev items with Ok _ => good | Err _ => ~ good | Panic => False end.
Proof using cmp_trans.
  intros Hall. revert prev. induction Hall as [|it items Hit Hall IH]; intros prev; cbn [ascending_keys].
  { exists []. split_and!; [constructor | constructor | constructor]. }
  destruct Hit as [Hfun Hit]. destruct (key it) as [n | |]; cbn [obind]; [| | done].
  2: { intros (ks & H2 & _). inversion H2; subst. by eapply Hit. }
  specialize (IH (Some n)). cbv zeta in IH.
  assert (Hinv : forall ks, Forall2 key_of (it :: items) ks -> exists ks', ks = n :: ks' /\
    Forall2 key_of items ks').
  { intros ks H2. inversion H2 as [|? m ? ks' Hm H2']; subst. exists ks'. split; [| done].
    f_equal. by apply Hfun. }
  assert (Hstep : (forall p, prev = Some p -> cmp p n = Lt) ->
    match ascending_keys key cmp (Some n) items with
    | Ok _ => exists ks, Forall2 key_of (it :: items) ks /\
        StronglySorted (fun a b => cmp a b = Lt) ks /\
        forall p, prev = Some p -> Forall (fun k => cmp p k = Lt) ks
    | Err _ => ~ exists ks, Forall2 key_of (it :: items) ks /\
        StronglySorted (fun a b => cmp a b = Lt) ks /\
        forall p, prev = Some p -> Forall (fun k => cmp p k = Lt) ks
    | Panic => False
    end).
  { intros Hp. destruct (ascending_keys key cmp (Some n) items); [| | done].
    - destruct IH as (ks & H2 & Hs & Hn). specialize (Hn n eq_refl). exists (n :: ks). split_and!.
      + by constructor.
      + by constructor.
      + intros p E. constructor; [by apply Hp |]. eapply Forall_impl; [exact Hn |].
        intros k Hk. eapply cmp_trans; [by apply Hp | done].
    - intros (ks & H2 & Hs & _). apply IH. destruct (Hinv ks H2) as (ks' & -> & H2').
      inversion Hs; subst. exists ks'. split_and!; [done | done |]. by intros ? [= <-]. }
  destruct prev as [p |]; [| by apply Hstep].
  destruct (cmp p n) eqn:Ec; [| apply Hstep; by intros ? [= <-] |];
    (intros (ks & H2 & _ & Hp); destruct (Hinv ks H2) as (ks' & -> & _);
     specialize (Hp p eq_refl); apply Forall_cons in Hp as [Hp _]; congruence).
Qed.

(** The loop from the start decides [Q], whenever [Q] is the sorted-keys property. *)
Lemma ascending_keys_decides items (Q : Prop) :
  Forall key_spec items ->
  ((exists ks, Forall2 key_of items ks /\ StronglySorted (fun a b => cmp a b = Lt) ks) <-> Q) ->
  match ascending_keys key cmp None items with Ok _ => Q | Err _ => ~ Q | Panic => False end.
Proof using cmp_trans.
  intros Hall Hq. pose proof (ascending_keys_spec None items Hall) as H. cbv zeta in H.
  destruct (ascending_keys key cmp None items); [| | done]; rewrite <- Hq.
  - destruct H as (ks & ? & ? & _). by exists ks.
  - intros (ks & ? & ?). apply H. exists ks. by split_and!.
Qed.

End AscendingKeys.

(** The entry of a map under a key. *)
Lemma field_of_entries es d k :
  cbor_okb (Map es) d = true ->
  map_from_value (Map es) = Ok (list_to_map es) /\
  (forall v, (list_to_map es : fields_map) !! k = Some v <-> (k, v) ∈ es) /\
  (forall v, (k, v) ∈ es -> cbor_okb v (d + 1) = true).
Proof.
  intros Hv. apply cbor_okb_map in Hv as [Ha Hsub]. split_and!.
  - by apply map_from_entries.
  - intros v. by apply lookup_entries.
  - intros v Hin. by eapply Hsub.
Qed.

Lemma entry_unique es d k v v' :
  cbor_okb (Map es) d = true -> (k, v) ∈ es -> (k, v') ∈ es -> v = v'.
Proof.
  intros Hv H1 H2. destruct (field_of_entries es d k Hv) as (_ & Hl & _).
  apply Hl in H1, H2. congruence.
Qed.

Definition channel_id_of (it : CborValue) (n : Z) : Prop :=
  (exists es, it = Map es /\ (1, Unsigned n) ∈ es) /\ 1 <= n <= UINT32_MAX.

Definition bytes_of (field : Z) (it : CborValue) (b : bytes) : Prop :=
  exists es, it = Map es /\ (field, Bytes b) ∈ es.

Lemma channel_id_key_spec d it : cbor_okb it d = true -> key_spec channel_id_key channel_id_of it.
Proof.
  intros Hv. unfold key_spec, channel_id_key, channel_id_of. split.
  { intros a b ((es & -> & H1) & _) ((es' & [= <-] & H2) & _).
    by pose proof (entry_unique _ _ _ _ _ Hv H1 H2) as [= ->]. }
  destruct it as [| | | | | | | es]; try (cbn; intros ? ((? & ? & _) & _); done).
  destruct (field_of_entries es d 1 Hv) as (-> & Hl & Hsub). cbn [obind].
  destruct (list_to_map es !! 1) as [v |] eqn:E; cbn [ok_or obind].
  - assert (E' : (1, v) ∈ es) by by apply Hl. clear E. rename E' into E.
    pose proof (as_uint_spec v (d + 1) 1 UINT32_MAX (Hsub v E) ltac:(lia)) as Hu.
    destruct (as_uint v 1 UINT32_MAX); [| | done].
    + destruct Hu as [-> ?]. split; [by exists es | done].
    + intros k ((es' & [= <-] & Hin) & Hk). apply (Hu k); [| done]. by eapply entry_unique.
  - intros k ((es' & [= <-] & Hin) & _). apply Hl in Hin. congruence.
Qed.

Lemma bytes_key_spec field d it :
  cbor_okb it d = true -> key_spec (bytes_key field) (bytes_of field) it.
Proof.
  intros Hv. unfold key_spec, bytes_key, bytes_of. split.
  { intros a b (es & -> & H1) (es' & [= <-] & H2).
    by pose proof (entry_unique _ _ _ _ _ Hv H1 H2) as [= ->]. }
  destruct it as [| | | | | | | es]; try (cbn; intros ? (? & ? & _); done).
  destruct (field_of_entries es d field Hv) as (-> & Hl & Hsub). cbn [obind].
  destruct (list_to_map es !! field) as [v |] eqn:E; cbn [ok_or obind].
  - assert (E' : (field, v) ∈ es) by by apply Hl. clear E. rename E' into E. destruct v; try (intros k (es' & [= <-] & Hin);
      pose proof (entry_unique _ _ _ _ _ Hv E Hin); done).
    by exists es.
  - intros k (es' & [= <-] & Hin). apply Hl in Hin. congruence.
Qed.

Lemma keyed_forall2 {K} (inj : K -> CborValue) field items ks (P : K -> Prop) :
  Forall2 (fun it k => (exists es, it = Map es /\ (field, inj k) ∈ es) /\ P k) items ks <->
  keyed inj field items ks /\ Forall P ks.
Proof.
  unfold keyed. split.
  - induction 1 as [|it k items' ks' [Hk Hp] _ [IH1 IH2]]; split; constructor; done.
  - intros [H2 Hf]. induction H2 as [|it k items' ks' Hk _ IH]; constructor.
    + by apply Forall_cons in Hf as [? _].
    + apply IH. by apply Forall_cons in Hf as [_ ?].
Qed.

Lemma apply_array_rule_spec items rule d :
  Forall (fun it => cbor_okb it d = true) items ->
  match apply_array_rule items rule with
  | Ok _ => rule_holds rule items
  | Err _ => ~ rule_holds rule items
  | Panic => False
  end.
Proof.
  intros Hall.
  assert (Hbytes : forall field, match ascending_keys (bytes_key field) bytes_cmp None items with
    | Ok _ => exists ids, keyed Bytes field items ids /\ StronglySorted bytes_lt ids
    | Err _ => ~ exists ids, keyed Bytes field items ids /\ StronglySorted bytes_lt ids
    | Panic => False end).
  { intros field. apply (ascending_keys_decides _ _ (bytes_of field)).
    - apply bytes_lt_trans.
    - eapply Forall_impl; [exact Hall |]. intros it Hit. exact (bytes_key_spec field d it Hit).
    - done. }
  destruct rule as [[] |]; cbn [apply_array_rule rule_holds]; [| | apply Hbytes.. | done].
  - apply (ascending_keys_decides _ _ (fun it n => it = Unsigned n)).
    + apply Z.lt_trans.
    + eapply Forall_impl; [exact Hall |]. intros it Hit. split; [naive_solver |].
      pose proof (as_uint_spec it d 0 UINT64_MAX Hit ltac:(lia)) as Hu.
      destruct (as_uint it 0 UINT64_MAX); [by destruct Hu | | done].
      intros k ->. apply (Hu k eq_refl). cbn [cbor_okb] in Hit. unfold UINT64_MAX. lia.
    + assert (Hf : forall ns, Forall2 (fun it n => it = Unsigned n) items ns <-> items = map Unsigned ns).
      { intros ns. split.
        - clear. induction 1 as [|it n items' ns' -> _ IH]; [done |]. cbn [map]. by rewrite <- IH.
        - intros ->. clear. induction ns; by constructor. }
      split; intros (ns & H1 & H2); exists ns; (split; [by apply Hf | done]).
  - apply (ascending_keys_decides _ _ channel_id_of).
    + apply Z.lt_trans.
    + eapply Forall_impl; [exact Hall |]. intros it Hit. exact (channel_id_key_spec d it Hit).
    + split.
      * intros (ns & H1 & H2). apply keyed_forall2 in H1 as [? ?]. exists ns. by split_and!.
      * intros (ns & H1 & H2 & H3). exists ns. split; [| done]. by apply keyed_forall2.
Qed.

(** *** Identities and QoS dispatch *)

Lemma two_entries (es : list (Z * CborValue)) a b :
  ascending (map fst es) = true -> (forall k v, (k, v) ∈ es -> k = 1 \/ k = 2) ->
  (1, a) ∈ es -> (2, b) ∈ es -> es = [(1, a); (2, b)].
Proof.
  intros Ha Hk H1 H2.
  apply (StronglySorted_unique_strong (fun p q : Z * CborValue => fst p < fst q)).
  - intros [] [] _ _. simpl. lia.
  - clear - Ha. apply ascending_sorted in Ha. induction es as [|p es IH]; [constructor |].
    inversion Ha as [|? ? Hs Hf]; subst. constructor; [by apply IH |].
    clear - Hf. induction es as [|q es IH]; constructor; apply Forall_cons in Hf as [? Hf]; auto.
  - repeat constructor.
  - apply NoDup_Permutation.
    + apply (NoDup_fmap_1 fst). by apply ascending_nodup.
    + repeat constructor; rewrite ?elem_of_cons, ?elem_of_nil; naive_solver.
    + intros [k v]. rewrite !elem_of_cons, elem_of_nil. split.
      * intros Hin. destruct (Hk k v Hin) as [-> | ->].
        -- left. f_equal. apply lookup_entries in Hin, H1; [| done..]. congruence.
        -- right. left. f_equal. apply lookup_entries in Hin, H2; [| done..]. congruence.
      * intros [[= -> ->] | [[= -> ->] | []]]; done.
Qed.

Lemma take_drop_7 (l : bytes) :
  blen l = 71 -> take 7 l = lit "RIHS01_" -> l = lit "RIHS01_" ++ sub_list l 7 64.
Proof.
  intros Hl Ht. rewrite <- Ht. unfold sub_list. change (Z.to_nat 7) with 7%nat.
  rewrite <- (take_drop 7 l) at 1. f_equal. rewrite take_ge; [done |].
  rewrite length_drop. unfold blen in Hl. lia.
Qed.

Lemma identity_spec v d :
  cbor_okb v d = true ->
  validates (fun v _ => validate_schema_identity v) SIdentity v.
Proof.
  intros Hv. unfold validates, validate_schema_identity.
  destruct v as [| | | | | | | es]; try (cbn; by inversion 1).
  destruct (field_of_entries es d 1 Hv) as (-> & H1 & _).
  destruct (field_of_entries es d 2 Hv) as (_ & H2 & _).
  apply cbor_okb_map in Hv as [Ha _]. cbn [obind].
  assert (Hinv : forall (P : Prop),
    (forall s t, es = [(1, Text s); (2, Text t)] -> identity_ok s t -> P) ->
    conforms SIdentity (Map es) -> P).
  { intros P HP Hc. inversion Hc; subst. by eapply HP. }
  pose proof (keys_forall (fun k => (k =? 1) || (k =? 2)) es Ha) as Hkeys.
  destruct (forallb _ (map fst _)); cbn [negb].
  2: { refine (Hinv False _). intros s t -> _. assert (false = true); [| done]. apply Hkeys.
       intros k v. rewrite !elem_of_cons, elem_of_nil. intros [[= -> _] | [[= -> _] | []]]; done. }
  assert (Hk : forall k v, (k, v) ∈ es -> k = 1 \/ k = 2).
  { intros k v Hin. assert ((k =? 1) || (k =? 2) = true) by (by eapply Hkeys). lia. }
  destruct (list_to_map es !! 1) as [a |] eqn:E1; cbn [ok_or obind].
  2: { refine (Hinv False _). intros s t -> _. by vm_compute in E1. }
  destruct (list_to_map es !! 2) as [b |] eqn:E2; cbn [ok_or obind].
  2: { refine (Hinv False _). intros s t -> _. by vm_compute in E2. }
  assert (I1 : (1, a) ∈ es) by by apply H1. assert (I2 : (2, b) ∈ es) by by apply H2.
  pose proof (two_entries es a b Ha Hk I1 I2) as ->. clear - Hinv.
  destruct a as [| | | | | scheme | |]; try (refine (Hinv False _); intros ? ? [=]; done).
  destruct b as [| | | | | val | |]; try (refine (Hinv False _); intros ? ? [=]; done).
  destruct (bool_decide_reflect (scheme = lit "rep2011-rihs")) as [-> | Hr].
  - assert (Hno : conforms SIdentity (Map [(1, Text (lit "rep2011-rihs")); (2, Text val)]) ->
      exists hex, val = lit "RIHS01_" ++ hex /\ blen hex = 64 /\ forallb is_lower_hex hex = true).
    { intros Hc. inversion Hc as [| | | | | | | | | | | ? ? Hid | | | | | | | |]; subst.
      destruct Hid as [[_ ?] | [Hs _]]; [done | by vm_compute in Hs]. }
    destruct (Z.eqb_spec (blen val) 71) as [Hl | Hl]; cbn [negb orb].
    2: { intros (hex & -> & Hh & _)%Hno. rewrite blen_app, Hh in Hl. by vm_compute in Hl. }
    destruct (bool_decide_reflect (take 7 val = lit "RIHS01_")) as [Ht | Ht]; cbn [negb].
    2: { intros (hex & -> & _ & _)%Hno. apply Ht. apply (take_app_length (lit "RIHS01_") hex). }
    rewrite slice_ok by lia. cbn [obind]. rewrite Hl. change (71 - 7) with 64.
    assert (Hsub : blen (sub_list val 7 64) = 64) by (apply blen_sub_list; lia).
    rewrite Hsub. cbn [Z.eqb negb orb]. pose proof (take_drop_7 val Hl Ht) as Hval.
    destruct (forallb is_lower_hex _) eqn:Hx; cbn [negb].
    + split; [done |]. constructor. left. split; [done |]. exists (sub_list val 7 64). done.
    + intros (hex & -> & Hh & Hf)%Hno. apply app_inv_head in Hval. rewrite <- Hval in Hx. congruence.
  - destruct (bool_decide_reflect (scheme = lit "rclweb-schema-v1")) as [-> | Hs].
    + assert (Hno : conforms SIdentity (Map [(1, Text (lit "rclweb-schema-v1")); (2, Text val)]) ->
        blen val = 64 /\ forallb is_lower_hex val = true).
      { intros Hc. inversion Hc as [| | | | | | | | | | | ? ? Hid | | | | | | | |]; subst.
        destruct Hid as [[Hs _] | [_ ?]]; [by vm_compute in Hs | done]. }
      destruct (Z.eqb_spec (blen val) 64) as [Hl | Hl]; cbn [negb orb].
      * destruct (forallb is_lower_hex val) eqn:Hx; cbn [negb].
        -- split; [done |]. constructor. by right.
        -- intros [_ Hf]%Hno. done.
      * by intros [? _]%Hno.
    + intros Hc. inversion Hc as [| | | | | | | | | | | ? ? Hid | | | | | | | |]; subst.
      destruct Hid as [[? _] | [? _]]; done.
Qed.

(** [history_kind] reads the history a conforming QoS map has. *)
Lemma history_kind_spec v d :
  cbor_okb v d = true ->
  match history_kind v with
  | Ok h => exists es, v = Map es /\ (3, Unsigned h) ∈ es /\ 0 <= h <= 2
  | Err _ => forall es h, v = Map es -> (3, Unsigned h) ∈ es -> ~ (0 <= h <= 2)
  | Panic => False
  end.
Proof.
  intros Hv. unfold history_kind.
  destruct v as [| | | | | | | es]; try (cbn; by intros).
  destruct (field_of_entries es d 3 Hv) as (-> & H3 & Hsub). cbn [obind].
  destruct (list_to_map es !! 3) as [h |] eqn:E; cbn [ok_or obind].
  - assert (I : (3, h) ∈ es) by by apply H3.
    pose proof (as_uint_spec h (d + 1) 0 2 (Hsub h I) ltac:(lia)) as Hu.
    destruct (as_uint h 0 2) as [n | |]; [| | done].
    + destruct Hu as [-> ?]. by exists es.
    + intros es' n [= <-] Hin. apply Hu. by eapply entry_unique.
  - intros es' n [= <-] Hin. apply H3 in Hin. congruence.
Qed.

(** The value a conforming map has under a required field. *)
Lemma conforms_field fields es k s :
  NoDup (map (fun f : Z * bool * Schema => fst (fst f)) fields) -> (k, true, s) ∈ fields ->
  conforms (SMapDyn fields) (Map es) -> exists v, (k, v) ∈ es /\ conforms s v.
Proof.
  intros Hn Hf Hc. inversion Hc as [| | | | | | | | | ? ? Hk Hr | | | | | | | | | |]; subst.
  destruct (Hr k s Hf) as [v Hv]. exists v. split; [done |].
  destruct (Hk k v Hv) as (r' & s' & Hf' & Hc').
  by destruct (nodup_field _ _ _ _ _ _ Hn Hf Hf') as [_ ->].
Qed.

Lemma history_in fields hs (P : Z -> Prop) v :
  NoDup (map (fun f : Z * bool * Schema => fst (fst f)) fields) -> (3, true, hs) ∈ fields ->
  (forall w, conforms hs w -> exists n, w = Unsigned n /\ P n) ->
  conforms (SMapDyn fields) v -> exists es n, v = Map es /\ (3, Unsigned n) ∈ es /\ P n.
Proof.
  intros Hn Hf HP Hc. assert (exists es, v = Map es) as [es ->] by (inversion Hc; subst; eauto).
  destruct (conforms_field _ _ _ _ Hn Hf Hc) as (w & Hin & Hw).
  destruct (HP w Hw) as (n & -> & Hp). by exists es, n.
Qed.

(** Choosing the QoS schema by the history field is the same as trying both. *)
Lemma dispatch_spec VS v d A B (cond : Z -> bool) e :
  cbor_okb v d = true -> validates VS A v -> validates VS B v ->
  (conforms A v -> exists es n, v = Map es /\ (3, Unsigned n) ∈ es /\ n = 1) ->
  (conforms B v -> exists es n, v = Map es /\ (3, Unsigned n) ∈ es /\ cond n = true) ->
  (forall n, cond n = true -> 0 <= n <= 2 /\ n <> 1) ->
  match h <-- history_kind v ;; if h =? 1 then VS v A else if cond h then VS v B else Err e with
  | Ok v' => v' = v /\ (conforms A v \/ conforms B v)
  | Err _ => ~ (conforms A v \/ conforms B v)
  | Panic => False
  end.
Proof.
  intros Hv HA HB HhA HhB Hcond. pose proof (history_kind_spec v d Hv) as Hh.
  unfold validates in *. destruct (history_kind v) as [h | |]; cbn [obind]; [| | done].
  - destruct Hh as (es & -> & Hin & Hr).
    assert (HnA : h <> 1 -> ~ conforms A (Map es)).
    { intros Hne Hc. destruct (HhA Hc) as (es' & n & [= <-] & Hin' & ->).
      pose proof (entry_unique _ _ _ _ _ Hv Hin Hin'). congruence. }
    assert (HnB : cond h = false -> ~ conforms B (Map es)).
    { intros Hne Hc. destruct (HhB Hc) as (es' & n & [= <-] & Hin' & Hn).
      pose proof (entry_unique _ _ _ _ _ Hv Hin Hin'). congruence. }
    destruct (Z.eqb_spec h 1) as [-> | Hne].
    + assert (Hc1 : cond 1 = false).
      { destruct (cond 1) eqn:E; [| done]. by destruct (Hcond 1 E). }
      specialize (HnB Hc1). destruct (VS _ A); [naive_solver | tauto | done].
    + specialize (HnA Hne). destruct (cond h).
      * destruct (VS _ B); [naive_solver | tauto | done].
      * specialize (HnB eq_refl). tauto.
  - intros [Hc | Hc].
    + destruct (HhA Hc) as (es & n & -> & Hin & ->). apply (Hh es 1 eq_refl Hin). lia.
    + destruct (HhB Hc) as (es & n & -> & Hin & Hn). apply (Hh es n eq_refl Hin). by apply Hcond.
Qed.

Lemma conforms_const c w : conforms (SConstU64 c) w -> w = Unsigned c.
Proof. by inversion 1. Qed.

Lemma conforms_const2 a b w :
  conforms (SUnion [SConstU64 a; SConstU64 b]) w -> w = Unsigned a \/ w = Unsigned b.
Proof.
  inversion 1 as [| | | | | | | | | | ? s ? Hin Hs | | | | | | | | |]; subst.
  rewrite !elem_of_cons, elem_of_nil in Hin.
  destruct Hin as [-> | [-> | []]]; apply conforms_const in Hs; auto.
Qed.

(** The history a conforming value of each QoS schema carries. *)
Ltac hist fields :=
  apply (history_in fields _ _ _ ltac:(by apply distinct_nodup; vm_compute) 
    ltac:(repeat first [apply list_elem_of_here | apply list_elem_of_further]));
  intros w Hw; first [apply conforms_const2 in Hw as [-> | ->] | apply conforms_const in Hw as ->];
  eexists; (split; [reflexivity |]); vm_compute; done.

Lemma map_fields_ok fields k r s :
  schema_okb (SMapDyn fields) = true -> (k, r, s) ∈ fields ->
  schema_okb s = true /\ (height s < height (SMapDyn fields))%nat.
Proof.
  cbn [schema_okb height]. rewrite andb_true_iff, forallb_Forall, Forall_forall.
  intros [_ Hall] Hin. split; [exact (Hall _ Hin) |]. clear Hall.
  induction fields as [|f fs IH]; [by apply not_elem_of_nil in Hin |]. cbn [foldr].
  apply elem_of_cons in Hin as [<- | Hin]; [cbn [snd]; lia | apply IH in Hin; lia].
Qed.

Lemma union_variants_ok vs s :
  schema_okb (SUnion vs) = true -> s ∈ vs ->
  schema_okb s = true /\ (height s < height (SUnion vs))%nat.
Proof.
  cbn [schema_okb height]. rewrite forallb_Forall, Forall_forall.
  intros Hall Hin. split; [exact (Hall _ Hin) |]. clear Hall.
  induction vs as [|f fs IH]; [by apply not_elem_of_nil in Hin |]. cbn [foldr].
  apply elem_of_cons in Hin as [<- | Hin]; [lia | apply IH in Hin; lia].
Qed.

Lemma text_spec n min max one_of v :
  validates (validate_schema (S n)) (SText min max one_of) v.
Proof.
  unfold validates. cbn [validate_schema]. destruct v as [| | | | | t | |]; try (by inversion 1).
  destruct ((blen t <? min) || (max <? blen t)) eqn:Hl.
  { inversion 1; subst. lia. }
  destruct one_of as [set |].
  - destruct (existsb _ set) eqn:Hs; cbn [negb].
    + split; [done |]. constructor; [lia |]. intros ? [= <-]. apply existsb_exists in Hs as (s & Hin & Hs).
      apply bool_decide_eq_true in Hs as ->. by apply list_elem_of_In.
    + inversion 1 as [| | | | ? ? ? ? _ Hin | | | | | | | | | | | | | | |]; subst.
      specialize (Hin set eq_refl). apply not_true_iff_false in Hs. apply Hs, existsb_exists.
      exists t. split; [by apply list_elem_of_In | by apply bool_decide_eq_true].
  - split; [done |]. constructor; [lia | done].
Qed.

Lemma scalar_spec n s v d :
  cbor_okb v d = true -> schema_okb s = true ->
  match s with SBool | SUint _ _ | SInt64 | SBytes _ _ | SConstU64 _ | SConstBool _ => true | _ => false end
    = true ->
  validates (validate_schema (S n)) s v.
Proof.
  intros Hv Hs Hsc. unfold validates. destruct s as [| min max | | | min max | c | c | | | | | | | | |];
    try done; cbn [validate_schema] in *.
  - destruct v; try (by inversion 1). by split; [| constructor].
  - cbn [schema_okb] in Hs. pose proof (as_uint_spec v d min max Hv ltac:(lia)) as Hu.
    destruct (as_uint v min max) as [k | |]; cbn [obind]; [| | done].
    + destruct Hu as [-> Hr].
      destruct (Z.eqb_spec min 1), (Z.eqb_spec max 28), (Z.eqb_spec k 20); cbn [andb];
        try (split; [done |]; constructor; [done | tauto]). inversion 1; subst. tauto.
    + inversion 1; subst. by eapply Hu.
  - unfold as_int64. destruct v as [| | k | k | | | |]; try (by inversion 1); cbn [cbor_okb] in Hv.
    + destruct ((INT64_MIN <=? k) && (k <=? INT64_MAX)) eqn:Hr; cbn [negb obind].
      * destruct (Z.leb_spec 0 k); [| lia]. split; [done |]. constructor. lia.
      * inversion 1; subst. unfold INT64_MIN in *. lia.
    + destruct ((INT64_MIN <=? k) && (k <=? INT64_MAX)) eqn:Hr; cbn [negb obind].
      * destruct (Z.leb_spec 0 k); [lia |]. split; [done |]. constructor. lia.
      * inversion 1; subst. unfold INT64_MAX in *. lia.
  - destruct v as [| | | | b | | |]; try (by inversion 1).
    destruct ((blen b <? min) || (max <? blen b)) eqn:Hl; [inversion 1; subst; lia |].
    split; [done |]. constructor. lia.
  - pose proof (as_uint_spec v d 0 u64_max Hv ltac:(lia)) as Hu.
    destruct (as_uint v 0 u64_max) as [k | |]; cbn [obind]; [| | done].
    + destruct Hu as [-> Hr]. destruct (Z.eqb_spec k c) as [-> |]; cbn [negb].
      * split; [done | constructor].
      * by inversion 1.
    + inversion 1; subst. apply (Hu c eq_refl). cbn [cbor_okb] in Hv. lia.
  - destruct v as [| b | | | | | |]; try (by inversion 1).
    destruct (eqb b c) eqn:Eb.
    + apply eqb_prop in Eb as ->. split; [done | constructor].
    + inversion 1; subst. by rewrite eqb_reflx in Eb.
Qed.

Lemma cbor_okb_array arr d :
  cbor_okb (Array arr) d = true -> Forall (fun v => cbor_okb v (d + 1) = true) arr.
Proof. cbn [cbor_okb]. rewrite !andb_true_iff. intros [_ Hall]. by apply forallb_Forall. Qed.

(** Conformance to the map schemas the QoS shorthands stand for. *)
Lemma conforms_qos v : conforms SQos v <-> conforms qos_keep_last v \/ conforms qos_no_depth v.
Proof. split; [inversion 1; auto | intros [?|?]; by constructor]. Qed.
Lemma conforms_effective v :
  conforms SEffectiveQos v <-> conforms effective_qos_keep_last v \/ conforms effective_qos_keep_all v.
Proof. split; [inversion 1; auto | intros [?|?]; by constructor]. Qed.
Lemma conforms_service v :
  conforms SEffectiveServiceQos v <->
  conforms effective_service_qos_keep_last v \/ conforms effective_service_qos_keep_all v.
Proof. split; [inversion 1; auto | intros [?|?]; by constructor]. Qed.
Lemma conforms_action v : conforms SActionQos v <-> conforms (SMapDyn action_qos_fields) v.
Proof. split; [by inversion 1 | by constructor]. Qed.
Lemma conforms_effective_action v :
  conforms SEffectiveActionQos v <-> conforms (SMapDyn effective_action_qos_fields) v.
Proof. split; [by inversion 1 | by constructor]. Qed.

(** Change the property a result decides. *)
Lemma decides_iff (m : V CborValue) v P Q :
  (P <-> Q) ->
  match m with Ok v' => v' = v /\ P | Err _ => ~ P | Panic => False end ->
  match m with Ok v' => v' = v /\ Q | Err _ => ~ Q | Panic => False end.
Proof. destruct m; tauto. Qed.

Section MainLemma.
Variable n : nat.
Hypothesis IH : forall s v d, schema_okb s = true -> (height s <= n)%nat ->
  cbor_okb v d = true -> validates (validate_schema n) s v.

Lemma qos_dispatch_spec v d :
  cbor_okb v d = true -> (3 <= n)%nat ->
  validates (validate_schema (S n)) SQos v /\
  validates (validate_schema (S n)) SEffectiveQos v /\
  validates (validate_schema (S n)) SEffectiveServiceQos v.
Proof using IH.
  intros Hv Hn. unfold validates. cbn [validate_schema].
  split_and!; (eapply decides_iff;
    [symmetry; first [apply conforms_qos | apply conforms_effective | apply conforms_service] |]).
  - apply (dispatch_spec _ v d qos_keep_last qos_no_depth (fun h => (h =? 0) || (h =? 2))); [done | | | | |].
    + apply (IH _ v d); [done | apply (Nat.le_trans _ 3); [apply Nat.leb_le; by vm_compute | done] | done].
    + apply (IH _ v d); [done | apply (Nat.le_trans _ 3); [apply Nat.leb_le; by vm_compute | done] | done].
    + hist (match qos_keep_last with SMapDyn f => f | _ => [] end).
    + hist (match qos_no_depth with SMapDyn f => f | _ => [] end).
    + intros. lia.
  - apply (dispatch_spec _ v d effective_qos_keep_last effective_qos_keep_all (fun h => h =? 2)); [done | | | | |].
    + apply (IH _ v d); [done | apply (Nat.le_trans _ 3); [apply Nat.leb_le; by vm_compute | done] | done].
    + apply (IH _ v d); [done | apply (Nat.le_trans _ 3); [apply Nat.leb_le; by vm_compute | done] | done].
    + hist (match effective_qos_keep_last with SMapDyn f => f | _ => [] end).
    + hist (match effective_qos_keep_all with SMapDyn f => f | _ => [] end).
    + intros. lia.
  - apply (dispatch_spec _ v d effective_service_qos_keep_last effective_service_qos_keep_all
      (fun h => h =? 2)); [done | | | | |].
    + apply (IH _ v d); [done | apply (Nat.le_trans _ 3); [apply Nat.leb_le; by vm_compute | done] | done].
    + apply (IH _ v d); [done | apply (Nat.le_trans _ 3); [apply Nat.leb_le; by vm_compute | done] | done].
    + hist (match effective_service_qos_keep_last with SMapDyn f => f | _ => [] end).
    + hist (match effective_service_qos_keep_all with SMapDyn f => f | _ => [] end).
    + intros. lia.
Qed.

Lemma array_spec min max items rule v d :
  schema_okb (SArray min max items rule) = true ->
  (height (SArray min max items rule) <= S n)%nat -> cbor_okb v d = true ->
  validates (validate_schema (S n)) (SArray min max items rule) v.
Proof using IH.
  cbn [schema_okb height]. intros Hs Hh Hv. unfold validates. cbn [validate_schema].
  destruct v as [| | | | | | arr |]; try (by inversion 1).
  destruct ((blen arr <? min) || (max <? blen arr)) eqn:Hl; [inversion 1; subst; lia |].
  apply cbor_okb_array in Hv.
  pose proof (validate_each_spec (validate_schema n) items arr) as He.
  assert (Hall : Forall (validates (validate_schema n) items) arr).
  { eapply Forall_impl; [exact Hv |]. intros w Hw. apply (IH items w (d + 1)); [done | lia | done]. }
  specialize (He Hall). destruct (validate_each _ arr) as [out | |]; cbn [obind]; [| | done].
  - destruct He as [-> Hc]. pose proof (apply_array_rule_spec arr rule (d + 1) Hv) as Hr.
    destruct (apply_array_rule arr rule); cbn [obind]; [| | done].
    + split; [done |]. constructor; [lia | done | done].
    + by inversion 1; subst.
  - by inversion 1; subst.
Qed.

End MainLemma.

(** On every canonical value, with fuel for the schema, the validator returns
    the value itself if it conforms and an error otherwise. *)
Lemma validate_schema_spec n s v d :
  schema_okb s = true -> (height s <= n)%nat -> cbor_okb v d = true ->
  validates (validate_schema n) s v.
Proof.
  revert s v d. induction n as [|n IH]; intros s v d Hs Hh Hv.
  { destruct s; cbn [height] in Hh; lia. }
  destruct s as [| min max | | min max one_of | min max | c | c | min max items rule | fields | vs
    | | | | | |]; try (by apply (scalar_spec n _ v d Hv)).
  - apply text_spec.
  - by apply (array_spec n IH min max items rule v d).
  - apply (validate_map_spec (validate_schema n) fields v d Hv).
    + cbn [schema_okb] in Hs. apply andb_true_iff in Hs as [Hs _]. by apply distinct_nodup.
    + intros k r s w Hin Hw. destruct (map_fields_ok _ _ _ _ Hs Hin). apply (IH s w (d + 1)); [done | lia | done].
  - unfold validates. cbn [validate_schema].
    pose proof (validate_union_spec (validate_schema n) v vs None) as Hu.
    assert (Hall : Forall (fun s => validates (validate_schema n) s v) vs).
    { apply Forall_forall. intros s Hin. destruct (union_variants_ok _ _ Hs Hin).
      apply (IH s v d); [done | lia | done]. }
    specialize (Hu Hall). destruct (validate_union _ vs None); [| | done].
    + destruct Hu as [-> (s & Hin & Hc)]. split; [done |]. by apply (C_union _ s).
    + inversion 1; subst. by eapply Hu.
  - by apply (identity_spec v d).
  - cbn [height] in Hh. by apply (qos_dispatch_spec n IH v d Hv ltac:(lia)).
  - cbn [height] in Hh. by apply (qos_dispatch_spec n IH v d Hv ltac:(lia)).
  - cbn [height] in Hh. by apply (qos_dispatch_spec n IH v d Hv ltac:(lia)).
  - cbn [height] in Hh. unfold validates. cbn [validate_schema].
    eapply decides_iff; [symmetry; apply conforms_action |].
    apply (IH (SMapDyn action_qos_fields) v d); [done | apply (Nat.le_trans _ 5); [apply Nat.leb_le; by vm_compute | lia] | done].
  - cbn [height] in Hh. unfold validates. cbn [validate_schema].
    eapply decides_iff; [symmetry; apply conforms_effective_action |].
    apply (IH (SMapDyn effective_action_qos_fields) v d); [done | apply (Nat.le_trans _ 5); [apply Nat.leb_le; by vm_compute | lia] | done].
Qed.

(** ** Whole messages *)

(** A session-ready map names a supported row with its distribution and RMW. *)
Definition triple_ok (m : fields_map) : Prop :=
  exists row distro rmw, m !! 8 = Some (Text row) /\ m !! 18 = Some (Text distro) /\
    m !! 19 = Some (Text rmw) /\ (row, (distro, rmw)) ∈ support_rows.

Lemma assoc_rows row : forall p, assoc row support_rows = Some p <-> (row, p) ∈ support_rows.
Proof.
  assert (Hd : NoDup (map fst support_rows)) by (apply (bool_decide_unpack _); by vm_compute).
  revert Hd. generalize support_rows. induction l as [|[k a] l IH]; intros Hd p; cbn [assoc].
  - split; [done |]. intros H. by apply not_elem_of_nil in H.
  - cbn [map fst] in Hd. apply NoDup_cons in Hd as [Hk Hd]. rewrite elem_of_cons.
    destruct (bool_decide_reflect (row = k)) as [-> | Hne].
    + split; [intros [= ->]; by left |]. intros [[= ->] | Hin]; [done |].
      exfalso. apply Hk. by apply (list_elem_of_fmap_2 fst) in Hin.
    + rewrite (IH Hd). split; [by right | intros [[= ? ?] | ?]; done].
Qed.

Lemma triple_spec m :
  match assert_session_ready_triple m with
  | Ok _ => triple_ok m | Err _ => ~ triple_ok m | Panic => False
  end.
Proof.
  unfold assert_session_ready_triple, text_field, triple_ok.
  destruct (m !! 8) as [[| | | | | row | |] |]; cbn [obind]; try (by intros (? & ? & ? & ? & _)).
  destruct (m !! 18) as [[| | | | | distro | |] |]; cbn [obind]; try (by intros (? & ? & ? & _ & ? & _)).
  destruct (m !! 19) as [[| | | | | rmw | |] |]; cbn [obind];
    try (by intros (? & ? & ? & _ & _ & ? & _)).
  pose proof (assoc_rows row) as Hr. destruct (assoc row support_rows) as [[d r] |].
  - destruct (bool_decide_reflect (distro = d)) as [-> |], (bool_decide_reflect (rmw = r)) as [-> |];
      cbn [negb orb].
    1: { exists row, d, r. split_and!; [done.. | by apply Hr]. }
    all: intros (? & ? & ? & [= <-] & [= <-] & [= <-] & Hin); apply Hr in Hin; congruence.
  - intros (? & ? & ? & [= <-] & [= <-] & [= <-] & Hin). apply Hr in Hin. done.
Qed.

(** The schema demands field [k] with a schema satisfying [p]. *)
Fixpoint requires (k : Z) (p : Schema -> bool) (s : Schema) : bool :=
  match s with
  | SMapDyn fields =>
      distinct (map (fun f => fst (fst f)) fields) &&
      existsb (fun '(k', r, s') => (k' =? k) && r && p s') fields
  | SUnion variants => forallb (requires k p) variants
  | _ => false
  end.

(** Induction over nested schemas, for the unions. *)
Lemma requires_conforms k p s es :
  requires k p s = true -> conforms s (Map es) ->
  exists s' v, p s' = true /\ conforms s' v /\ (k, v) ∈ es.
Proof.
  assert (Hind : forall n s, (height s <= n)%nat -> requires k p s = true -> conforms s (Map es) ->
    exists s' v, p s' = true /\ conforms s' v /\ (k, v) ∈ es); [| by apply (Hind (height s))].
  induction n as [|n IH]; intros t Hh Hr Hc; [destruct t; cbn [height] in Hh; lia |].
  destruct t as [| | | | | | | | fields | vs | | | | | |]; try done; cbn [requires] in Hr.
  - apply andb_true_iff in Hr as [Hd Hr]. apply existsb_exists in Hr as ([[k' r] s'] & Hin & Hr).
    rewrite !andb_true_iff in Hr. destruct Hr as [[->%Z.eqb_eq ->] Hp].
    apply list_elem_of_In in Hin.
    destruct (conforms_field _ _ _ _ (distinct_nodup _ Hd) Hin Hc) as (v & ? & ?).
    by exists s', v.
  - inversion Hc as [| | | | | | | | | | ? s' ? Hin Hs | | | | | | | | |]; subst.
    apply forallb_Forall in Hr. rewrite Forall_forall in Hr. specialize (Hr _ Hin). cbv beta in Hr.
    apply (IH s'); [| done | done]. cbn [height] in Hh. clear - Hh Hin.
    apply le_S_n in Hh. etransitivity; [| exact Hh]. clear Hh.
    induction vs as [|f fs IH]; [by apply not_elem_of_nil in Hin |]. cbn [foldr].
    apply elem_of_cons in Hin as [<- | Hin]; [lia | apply IH in Hin; lia].
Qed.

Definition is_const (c : Z) (s : Schema) : bool :=
  match s with SConstU64 c' => c' =? c | _ => false end.
Definition is_bytes16 (s : Schema) : bool :=
  match s with SBytes min max => (min =? 16) && (max =? 16) | _ => false end.
Definition is_channel_id (s : Schema) : bool :=
  match s with SUint min max => (min =? 1) && (max =? UINT32_MAX) | _ => false end.

(** Every kind's schema fixes the kind and asks for a 16-byte session id; the
    channel kinds ask for an application channel id. *)
Lemma kind_schema_fields kind s :
  kind_schema kind = Some s ->
  1 <= kind <= 15 /\ requires 1 (is_const kind) s = true /\ requires 2 is_bytes16 s = true /\
  (8 <= kind <= 10 -> requires 29 is_channel_id s = true).
Proof.
  unfold kind_schema. intros Hs.
  repeat match type of Hs with
  | context [kind =? ?c] =>
      destruct (Z.eqb_spec kind c) as [-> |];
      [injection Hs as <-; split_and!;
       [vm_compute; done | vm_compute; done | by vm_compute | by vm_compute |
        intros Hk; first [by vm_compute
          | exfalso; vm_compute in Hk; destruct Hk as [H1 H2]; first [by apply H1 | by apply H2]]] |]
  end. done.
Qed.

(** Which variant of the OpenChannel union a class selects. *)
Definition class_of_variant (i : nat) : list Z :=
  nth i [[0; 1]; [2; 3]; [4; 5]; [6]; [7]; [8]] [].

Definition is_class (cls : list Z) (s : Schema) : bool :=
  match s with
  | SConstU64 c => bool_decide (cls = [c])
  | SUnion [SConstU64 a; SConstU64 b] => bool_decide (cls = [a; b])
  | _ => false
  end.

Lemma is_class_conforms cls s v :
  is_class cls s = true -> conforms s v -> exists c, v = Unsigned c /\ c ∈ cls.
Proof.
  destruct s as [| | | | | c | | | | [|[] [|[] [|]]] | | | | | |]; try done; cbn [is_class];
    intros ->%bool_decide_eq_true Hc.
  - apply conforms_const in Hc as ->. exists c. by split; [| apply list_elem_of_here].
  - apply conforms_const2 in Hc as [-> | ->]; eexists; (split; [done | set_solver]).
Qed.

Definition open_variants : list Schema :=
  [open_topic_schema; open_service_schema; open_action_schema; open_media_schema;
   open_recording_schema; open_asset_schema].

Lemma open_variants_class i s :
  open_variants !! i = Some s -> requires 30 (is_class (class_of_variant i)) s = true.
Proof. do 6 (destruct i as [|i]; [intros [= <-]; by vm_compute |]). done. Qed.

(** The class of a conforming OpenChannel message decides its variant. *)
Lemma open_channel_class es d i s :
  cbor_okb (Map es) d = true -> open_variants !! i = Some s -> conforms s (Map es) ->
  exists c, (30, Unsigned c) ∈ es /\ c ∈ class_of_variant i.
Proof.
  intros Hv Hi Hc. pose proof (open_variants_class i s Hi) as Hr.
  destruct (requires_conforms _ _ _ _ Hr Hc) as (s' & v & Hp & Hs & Hin).
  destruct (is_class_conforms _ _ _ Hp Hs) as (c & -> & ?). by exists c.
Qed.

Lemma class_range i c : c ∈ class_of_variant i -> 0 <= c <= 8.
Proof.
  do 6 (destruct i as [|i]; [cbn; rewrite ?elem_of_cons, elem_of_nil; intros; lia |]).
  cbn. destruct i; intros H; by apply not_elem_of_nil in H.
Qed.

(** The variant [validate_open_channel] picks for a class. *)
Definition variant_of_class (c : Z) : nat :=
  if (c =? 0) || (c =? 1) then 0%nat else if (c =? 2) || (c =? 3) then 1%nat
  else if (c =? 4) || (c =? 5) then 2%nat else Z.to_nat (c - 3).

Lemma variant_of_class_spec i c : c ∈ class_of_variant i -> variant_of_class c = i.
Proof.
  do 6 (destruct i as [|i]; [cbn; rewrite ?elem_of_cons, elem_of_nil; intros H;
    repeat destruct H as [-> | H]; done |]).
  cbn. destruct i; intros H; by apply not_elem_of_nil in H.
Qed.

Lemma pick_variant cls :
  0 <= cls <= 8 ->
  exists s, open_variants !! variant_of_class cls = Some s /\
    (if (cls =? 0) || (cls =? 1) then open_variant 0
     else if (cls =? 2) || (cls =? 3) then open_variant 1
     else if (cls =? 4) || (cls =? 5) then open_variant 2
     else if cls =? 6 then open_variant 3
     else if cls =? 7 then open_variant 4
     else if cls =? 8 then open_variant 5
     else Err (fail "enum_violation")) = Ok s /\
    schema_okb s = true /\ (height s <= SCHEMA_FUEL)%nat.
Proof.
  intros Hr. assert (cls = 0 \/ cls = 1 \/ cls = 2 \/ cls = 3 \/ cls = 4 \/ cls = 5 \/ cls = 6 \/
    cls = 7 \/ cls = 8) as Hc by lia.
  repeat destruct Hc as [-> | Hc]; [.. | subst cls];
    (eexists; split; [reflexivity |]; split; [reflexivity |]; split;
     [by vm_compute | apply Nat.leb_le; by vm_compute]).
Qed.

Lemma conforms_open v :
  conforms open_channel_schema v <-> exists i s, open_variants !! i = Some s /\ conforms s v.
Proof.
  split.
  - inversion 1 as [| | | | | | | | | | ? s ? Hin Hs | | | | | | | | |]; subst.
    apply list_elem_of_lookup_1 in Hin as [i Hi]. by exists i, s.
  - intros (i & s & Hi & Hs). apply (C_union open_variants s); [| done].
    by eapply list_elem_of_lookup_2.
Qed.

Lemma conforms_open_map v : conforms open_channel_schema v -> exists es, v = Map es.
Proof.
  intros (i & s & Hi & Hs)%conforms_open.
  assert (Hm : match s with SMapDyn _ => true | _ => false end = true).
  { clear Hs. do 6 (destruct i as [|i]; [by injection Hi as <- |]). done. }
  destruct s; try done. inversion Hs; subst. eauto.
Qed.

Lemma validate_open_channel_spec v d :
  cbor_okb v d = true ->
  match validate_open_channel v with
  | Ok v' => v' = v /\ conforms open_channel_schema v
  | Err _ => ~ conforms open_channel_schema v
  | Panic => False
  end.
Proof.
  intros Hv. unfold validate_open_channel.
  destruct v as [| | | | | | | es];
    try (cbn [map_from_value obind]; intros Hc; apply conforms_open_map in Hc as [? [=]]).
  assert (HVS : forall s, schema_okb s = true -> (height s <= SCHEMA_FUEL)%nat ->
    validates (validate_schema SCHEMA_FUEL) s (Map es)).
  { intros s Hok Hh. by apply (validate_schema_spec SCHEMA_FUEL s (Map es) d). }
  revert HVS. generalize (validate_schema SCHEMA_FUEL). intros VS HVS.
  destruct (field_of_entries es d 30 Hv) as (-> & H30 & Hsub). cbn [obind].
  assert (Hclass : conforms open_channel_schema (Map es) ->
    exists c i s, (30, Unsigned c) ∈ es /\ c ∈ class_of_variant i /\ open_variants !! i = Some s /\
      conforms s (Map es)).
  { intros (i & s & Hi & Hs)%conforms_open.
    destruct (open_channel_class es d i s Hv Hi Hs) as (c & ? & ?). by exists c, i, s. }
  destruct (list_to_map es !! 30) as [cv |] eqn:E; cbn [ok_or obind].
  2: { intros (c & i & s & Hin & _)%Hclass. apply H30 in Hin. congruence. }
  assert (I : (30, cv) ∈ es) by by apply H30.
  pose proof (as_uint_spec cv (d + 1) 0 8 (Hsub cv I) ltac:(lia)) as Hu.
  destruct (as_uint cv 0 8) as [cls | |]; cbn [obind]; [| | done].
  2: { intros (c & i & s & Hin & Hc & _)%Hclass. apply class_range in Hc.
       apply (Hu c); [by eapply entry_unique | done]. }
  destruct Hu as [-> Hr]. destruct (pick_variant cls Hr) as (s & Hs & -> & Hok & Hh). cbn [obind].
  pose proof (HVS s Hok Hh) as Hval.
  unfold validates in Hval. destruct (VS _ s) as [v' | |]; [| | done].
  - destruct Hval as [-> Hc]. split; [done |]. apply conforms_open. by exists (variant_of_class cls), s.
  - intros (c & i & s' & Hin & Hc & Hi & Hs')%Hclass.
    pose proof (entry_unique _ _ _ _ _ Hv I Hin) as [= <-].
    apply variant_of_class_spec in Hc as <-. congruence.
Qed.

Lemma foldl_list_to_map (es : list (Z * CborValue)) (m : fields_map) :
  NoDup (map fst es) ->
  foldl (fun m e => <[fst e := snd e]> m) m es = list_to_map es ∪ m.
Proof.
  revert m. induction es as [|[k v] es IH]; intros m Hn; [simpl; by rewrite (left_id_L ∅ (∪)) |].
  cbn [foldl map fst snd] in *. apply NoDup_cons in Hn as [Hk Hn]. rewrite IH by done.
  rewrite list_to_map_cons, <- insert_union_l, <- insert_union_r; [done |].
  by apply not_elem_of_list_to_map_1.
Qed.

(** What a well-shaped control message of a kind is. *)
Definition message_ok (es : list (Z * CborValue)) (m : ControlMessage) : Prop :=
  (1, Unsigned (cm_kind m)) ∈ es /\ cm_fields m = list_to_map es /\
  (exists s, kind_schema (cm_kind m) = Some s /\ conforms s (Map es)) /\
  (cm_kind m = CONTROL_KIND_SESSION_READY -> triple_ok (cm_fields m)).

Lemma validate_control_message_spec v d :
  cbor_okb v d = true ->
  match validate_control_message v with
  | Ok m => exists es, v = Map es /\ message_ok es m
  | Err e => ~ exists es m, v = Map es /\ message_ok es m
  | Panic => False
  end.
Proof.
  intros Hv. unfold validate_control_message.
  destruct v as [| | | | | | | es]; try (cbn [map_from_value obind]; intros (? & ? & [=] & _)).
  assert (HVS : forall s, schema_okb s = true -> (height s <= SCHEMA_FUEL)%nat ->
    validates (validate_schema SCHEMA_FUEL) s (Map es)).
  { intros s Hok Hh. exact (validate_schema_spec SCHEMA_FUEL s (Map es) d Hok Hh Hv). }
  revert HVS. generalize (validate_schema SCHEMA_FUEL). intros VS HVS.
  pose proof (validate_open_channel_spec (Map es) d Hv) as HO. revert HO.
  generalize (validate_open_channel (Map es)). intros VO HO.
  destruct (field_of_entries es d 1 Hv) as (-> & H1 & Hsub). cbn [obind].
  pose proof (cbor_okb_map _ _ Hv) as [Ha _].
  destruct (list_to_map es !! 1) as [kv |] eqn:E; cbn [ok_or obind].
  2: { intros (? & m & [= <-] & Hin & _). apply H1 in Hin. congruence. }
  assert (I : (1, kv) ∈ es) by by apply H1.
  pose proof (as_uint_spec kv (d + 1) 0 255 (Hsub kv I) ltac:(lia)) as Hu.
  destruct (as_uint kv 0 255) as [kind | |]; cbn [obind]; [| | done].
  2: { intros (? & m & [= <-] & Hin & _ & (s & Hs & _) & _).
       apply kind_schema_fields in Hs as [Hk _].
       apply (Hu (cm_kind m)); [by eapply entry_unique | lia]. }
  destruct Hu as [-> Hr]. clear E.
  assert (Hkind : forall m, (1, Unsigned (cm_kind m)) ∈ es -> cm_kind m = kind).
  { intros m Hin. pose proof (entry_unique _ _ _ _ _ Hv I Hin). congruence. }
  destruct (kind_schema kind) as [s |] eqn:Hs; cbn [ok_or obind].
  2: { intros (? & m & [= <-] & Hin & _ & (s & Hs' & _) & _).
       rewrite (Hkind m Hin) in Hs'. congruence. }
  destruct (kind_schema_ok _ _ Hs) as [Hok Hh].
  assert (Hval : match (if kind =? CONTROL_KIND_OPEN_CHANNEL then VO else VS (Map es) s) with
                 | Ok v' => v' = Map es /\ conforms s (Map es)
                 | Err _ => ~ conforms s (Map es)
                 | Panic => False
                 end).
  { destruct (Z.eqb_spec kind CONTROL_KIND_OPEN_CHANNEL) as [-> |].
    - change (Some open_channel_schema = Some s) in Hs. injection Hs as <-. exact HO.
    - exact (HVS s Hok Hh). }
  destruct (if kind =? CONTROL_KIND_OPEN_CHANNEL then _ else _) as [v' | |]; cbn [obind]; [| | done].
  2: { intros (? & m & [= <-] & Hin & _ & (s' & Hs' & Hc) & _).
       rewrite (Hkind m Hin) in Hs'. congruence. }
  destruct Hval as [-> Hc]. rewrite foldl_list_to_map by (by apply ascending_nodup).
  rewrite (right_id_L ∅ (∪)).
  assert (Hdone : (kind = CONTROL_KIND_SESSION_READY -> triple_ok (list_to_map es)) ->
    exists es', Map es = Map es' /\
      message_ok es' {| cm_kind := kind; cm_fields := list_to_map es |}).
  { intros Ht. exists es. split; [done |]. split_and!; [done | done | by exists s | done]. }
  destruct (Z.eqb_spec kind CONTROL_KIND_SESSION_READY) as [Hsr | Hsr]; cbn [obind]; [| by apply Hdone].
  pose proof (triple_spec (list_to_map es)) as Ht.
  destruct (assert_session_ready_triple _); cbn [obind]; [by apply Hdone | | done].
  intros (? & m & [= <-] & Hin & Hf & _ & Htr). apply Ht. rewrite <- Hf. apply Htr.
  by rewrite (Hkind m Hin).
Qed.

(** ** Where shape errors point *)

(** Every error of the shape validator is at offset 0 and is not the size error. *)
Definition shape_errors {A} (m : V A) : Prop :=
  match m with
  | Err e => ce_offset e = 0 /\ ce_reason e <> "payload_too_large"%string
  | _ => True
  end.

Lemma shape_bind {A B} (m : V A) (f : A -> V B) :
  shape_errors m -> (forall a, shape_errors (f a)) -> shape_errors (obind m f).
Proof. destruct m; cbn; auto. Qed.

Lemma shape_ok_or {A} (o : option A) r :
  r <> "payload_too_large"%string -> shape_errors (ok_or o (fail r)).
Proof. by destruct o. Qed.

Lemma shape_index {A} (l : list A) i : shape_errors (index l i).
Proof. unfold index. by repeat case_match. Qed.

Lemma shape_slice {A} (l : list A) i j : shape_errors (slice l i j).
Proof. unfold slice. by case_match. Qed.

Lemma shape_as_uint v min max : shape_errors (as_uint v min max).
Proof. unfold as_uint. by repeat case_match. Qed.

Lemma shape_map_from_value v : shape_errors (map_from_value v).
Proof.
  unfold map_from_value. destruct v; try done. generalize (∅ : fields_map) as m.
  induction entries as [|[k v] es IH]; intros m; cbn [insert_entries]; [done |]. by case_match.
Qed.

Create HintDb shape.
#[local] Hint Resolve shape_ok_or shape_index shape_slice shape_as_uint shape_map_from_value : shape.

Ltac shape :=
  repeat match goal with
  | |- shape_errors (obind _ _) => apply shape_bind; [| intros]
  | |- shape_errors (if ?c then _ else _) => destruct c
  | |- shape_errors (Err _) => done
  | |- shape_errors (Ok _) => done
  | |- shape_errors Panic => done
  | |- shape_errors (match ?x with _ => _ end) => destruct x
  | |- shape_errors _ => solve [eauto with shape]
  end; try done.

Lemma shape_ascending_keys {K} (key : CborValue -> V K) cmp prev items :
  (forall v, shape_errors (key v)) -> shape_errors (ascending_keys key cmp prev items).
Proof.
  intros Hk. revert prev. induction items as [|it items IH]; intros prev; cbn [ascending_keys]; shape.
Qed.

Lemma shape_array_rule items rule : shape_errors (apply_array_rule items rule).
Proof.
  destruct rule as [[] |]; cbn [apply_array_rule]; try done; apply shape_ascending_keys; intros;
    unfold channel_id_key, bytes_key; shape.
Qed.

Lemma shape_identity v : shape_errors (validate_schema_identity v).
Proof. unfold validate_schema_identity. shape. Qed.

Lemma shape_history_kind v : shape_errors (history_kind v).
Proof. unfold history_kind. shape. Qed.

#[local] Hint Resolve shape_array_rule shape_identity shape_history_kind : shape.

Lemma shape_union VS vs last :
  (forall s, shape_errors (VS s)) ->
  shape_errors (A := unit) (match last with Some e => Err e | None => Ok tt end) ->
  shape_errors (validate_union VS vs last).
Proof.
  intros HVS. revert last. induction vs as [|s vs IH]; intros last Hl; cbn [validate_union].
  - by destruct last.
  - pose proof (HVS s) as Hs. destruct (VS s) as [| e |]; [done | by apply IH | done].
Qed.

Lemma shape_validate_schema n v s : shape_errors (validate_schema n v s).
Proof.
  revert v s. induction n as [|n IH]; intros v s; [done |].
  assert (Heach : forall item arr, shape_errors (validate_each (fun el => validate_schema n el item) arr)).
  { intros item arr. induction arr; cbn [validate_each]; shape. }
  assert (Hfields : forall raw fields out, shape_errors (validate_fields (validate_schema n) raw fields out)).
  { intros raw fields. induction fields as [|[[k r] s'] fs IHf]; intros out; cbn [validate_fields]; shape. }
  destruct s as [| | | | | | | | | vs | | | | | |]; cbn [validate_schema]; unfold as_int64; shape.
  - unfold validate_map. shape.
  - by apply shape_union.
  - unfold validate_qos. shape.
  - unfold validate_effective_qos. shape.
  - unfold validate_effective_service_qos. shape.
Qed.

#[local] Hint Resolve shape_validate_schema : shape.

Lemma shape_control_message v : shape_errors (validate_control_message v).
Proof.
  assert (Hv : forall i, shape_errors (open_variant i)) by (intros; unfold open_variant; shape).
  assert (Ho : shape_errors (validate_open_channel v)) by (unfold validate_open_channel; shape).
  assert (Ht : forall m, shape_errors (assert_session_ready_triple m)).
  { intros m. unfold assert_session_ready_triple, text_field. shape. }
  unfold validate_control_message. shape.
Qed.

(** A payload within the size limit never gets the size error, and errors point
    inside it. *)
Lemma decode_control_errors `{Target} bs e :
  rust_slice bs -> decode_control_message bs = Err e ->
  0 <= ce_offset e <= blen bs /\
  (blen bs <= CONTROL_PAYLOAD_MAX_BYTES -> ce_reason e <> "payload_too_large"%string).
Proof.
  intros Hbs. pose proof (blen_nonneg bs). unfold decode_control_message.
  destruct (Z.ltb_spec CONTROL_PAYLOAD_MAX_BYTES (blen bs)).
  { intros [= <-]. cbn. split; [lia | intros; lia]. }
  pose proof (decode_cbor_sound bs Hbs) as Hd.
  destruct (decode_deterministic_cbor bs) as [v | ce |]; [| | done].
  - pose proof (shape_control_message v) as Hs. intros E. rewrite E in Hs. destruct Hs as [-> ?].
    split; [lia | done].
  - intros [= <-]. cbn. split; [lia | done].
Qed.

(** ** Decoding a payload *)

Section Payload.
Context `{Target}.

Lemma decode_control_spec bs :
  rust_slice bs ->
  match decode_control_message bs with
  | Ok m => exists es, blen bs <= CONTROL_PAYLOAD_MAX_BYTES /\
      decode_deterministic_cbor bs = Ok (Map es) /\ message_ok es m
  | Err e => forall es m, decode_deterministic_cbor bs = Ok (Map es) ->
      blen bs <= CONTROL_PAYLOAD_MAX_BYTES -> ~ message_ok es m
  | Panic => False
  end.
Proof.
  intros Hbs. unfold decode_control_message.
  destruct (Z.ltb_spec CONTROL_PAYLOAD_MAX_BYTES (blen bs)); [intros; lia |].
  pose proof (decode_cbor_sound bs Hbs) as Hd.
  destruct (decode_deterministic_cbor bs) as [v | e |]; [| done | done].
  destruct Hd as [Hv _]. pose proof (validate_control_message_spec v 0 Hv) as Hm.
  destruct (validate_control_message v) as [m | |]; [| | done].
  - destruct Hm as (es & -> & ?). by exists es.
  - intros es m [= ->] _ Hok. apply Hm. by exists es, m.
Qed.

Lemma message_ok_unique es m m' :
  ascending (map fst es) = true -> message_ok es m -> message_ok es m' -> m = m'.
Proof.
  intros Ha (H1 & H2 & _) (H3 & H4 & _). destruct m as [k f], m' as [k' f']; cbn in *.
  apply lookup_entries in H1, H3; [| done..]. congruence.
Qed.

(** C18: a control payload is accepted exactly when it is at most 1 MiB of
    deterministic CBOR holding a map whose field 1 is an assigned kind and that
    conforms, in the declarative reading of the schemas, to that kind's schema
    (for SessionReady, with a supported row/distribution/RMW triple); the
    message is then the map itself.  No payload panics and every error points
    inside the payload. *)
Theorem control_decode_exact bs :
  rust_slice bs ->
  is_panic (decode_control_message bs) = false /\
  (forall e, decode_control_message bs = Err e -> 0 <= ce_offset e <= blen bs) /\
  forall m, decode_control_message bs = Ok m <->
    exists es, blen bs <= CONTROL_PAYLOAD_MAX_BYTES /\
      decode_deterministic_cbor bs = Ok (Map es) /\
      (1, Unsigned (cm_kind m)) ∈ es /\ cm_fields m = list_to_map es /\
      (exists s, kind_schema (cm_kind m) = Some s /\ conforms s (Map es)) /\
      (cm_kind m = CONTROL_KIND_SESSION_READY -> triple_ok (cm_fields m)).
Proof.
  intros Hbs. pose proof (decode_control_spec bs Hbs) as Hs.
  split; [by destruct (decode_control_message bs) |].
  split; [intros e He; by apply (decode_control_errors bs e) |]. intros m. split.
  - intros E. by rewrite E in Hs.
  - intros (es & Hl & Hd & Hok). change (message_ok es m) in Hok.
    destruct (decode_control_message bs) as [m' | |]; [| by destruct (Hs es m Hd Hl) | done].
    destruct Hs as (es' & _ & Hd' & Hok'). f_equal. rewrite Hd in Hd'. injection Hd' as <-.
    pose proof (decode_cbor_sound bs Hbs) as Hc. rewrite Hd in Hc. destruct Hc as [Hc _].
    apply cbor_okb_map in Hc as [Ha _]. by eapply message_ok_unique.
Qed.

Lemma canon_perm es l :
  cbor_okb (Map es) 0 = true -> Permutation l es ->
  canon (Map l) = Map es /\ typed (Map l) = true.
Proof.
  intros Hok Hp. pose proof (canon_id _ _ Hok) as Hid. pose proof (cbor_okb_typed _ _ Hok) as Ht.
  apply cbor_okb_map in Hok as [Ha _]. split.
  - rewrite canon_map in *. rewrite (sort_by_key_id es Ha) in Hid. by rewrite (sort_unique es l Ha Hp).
  - cbn [typed] in *. apply forallb_Forall in Ht. apply forallb_Forall. by rewrite Hp.
Qed.

Lemma reencode_message bs m entries :
  rust_slice bs -> decode_control_message bs = Ok m ->
  Permutation entries (map_to_list (cm_fields m)) ->
  encode_deterministic_cbor (Map entries) = Ok bs.
Proof.
  intros Hbs Hm Hp. pose proof (decode_control_spec bs Hbs) as Hs. rewrite Hm in Hs.
  destruct Hs as (es & _ & Hd & _ & Hf & _). rewrite Hf in Hp.
  pose proof (decode_cbor_sound bs Hbs) as Hc. rewrite Hd in Hc. destruct Hc as [Hok ->].
  pose proof (cbor_okb_map _ _ Hok) as [Ha _].
  rewrite map_to_list_to_map in Hp by (by apply ascending_nodup).
  destruct (canon_perm es entries Hok Hp) as [Hcan Ht].
  pose proof (encode_cbor_spec (Map entries) Ht) as He. rewrite Hcan in He.
  destruct (encode_deterministic_cbor (Map entries)); [by destruct He as [_ ->] | congruence | done].
Qed.

(** An accepted control payload is the only encoding of its message:
    writing the decoded fields back, in whatever order the map is traversed,
    gives the same bytes. *)
Theorem control_reencode bs m entries :
  rust_slice bs -> decode_control_message bs = Ok m ->
  Permutation entries (map_to_list (cm_fields m)) ->
  encode_deterministic_cbor (Map entries) = Ok bs.
Proof. apply reencode_message. Qed.

(** A field its schema demands is there and conforms. *)
Lemma decoded_field bs m k p :
  rust_slice bs -> decode_control_message bs = Ok m ->
  (forall s, kind_schema (cm_kind m) = Some s -> requires k p s = true) ->
  exists s v, p s = true /\ conforms s v /\ cm_fields m !! k = Some v.
Proof.
  intros Hbs Hm Hr. pose proof (decode_control_spec bs Hbs) as Hs. rewrite Hm in Hs.
  destruct Hs as (es & _ & Hd & _ & Hf & (s & Hs & Hc) & _). rewrite Hf.
  pose proof (decode_cbor_sound bs Hbs) as Hok. rewrite Hd in Hok. destruct Hok as [Hok _].
  pose proof (cbor_okb_map _ _ Hok) as [Ha _].
  destruct (requires_conforms _ _ _ _ (Hr s Hs) Hc) as (s' & v & Hp & Hs' & Hin).
  exists s', v. split_and!; [done | done | by apply lookup_entries].
Qed.

Lemma decoded_kind bs m :
  rust_slice bs -> decode_control_message bs = Ok m ->
  (exists s, kind_schema (cm_kind m) = Some s) /\ cm_fields m !! 1 = Some (Unsigned (cm_kind m)).
Proof.
  intros Hbs Hm. pose proof (decode_control_spec bs Hbs) as Hs. rewrite Hm in Hs.
  destruct Hs as (es & _ & Hd & H1 & Hf & (s & Hs & _) & _). split; [by exists s |]. rewrite Hf.
  pose proof (decode_cbor_sound bs Hbs) as Hok. rewrite Hd in Hok. destruct Hok as [Hok _].
  apply lookup_entries; [by apply cbor_okb_map in Hok as [Ha _] | done].
Qed.

Lemma decoded_value bs m k v :
  rust_slice bs -> decode_control_message bs = Ok m -> cm_fields m !! k = Some v -> cbor_okb v 1 = true.
Proof.
  intros Hbs Hm. pose proof (decode_control_spec bs Hbs) as Hs. rewrite Hm in Hs.
  destruct Hs as (es & _ & Hd & _ & Hf & _). rewrite Hf.
  pose proof (decode_cbor_sound bs Hbs) as Hok. rewrite Hd in Hok. destruct Hok as [Hok _].
  destruct (cbor_okb_map _ _ Hok) as [Ha He]. rewrite lookup_entries by done. intros Hin. by apply He in Hin as [_ ?].
Qed.

Lemma decoded_correlation bs m :
  rust_slice bs -> decode_control_message bs = Ok m ->
  exists sid, cm_fields m !! 2 = Some (Bytes sid) /\ blen sid = 16.
Proof.
  intros Hbs Hm. destruct (decoded_field bs m 2 is_bytes16 Hbs Hm) as (s & v & Hp & Hc & Hf).
  { intros s Hs. apply (kind_schema_fields _ _ Hs). }
  destruct s; try done. cbn [is_bytes16] in Hp. inversion Hc; subst. exists b. split; [done | lia].
Qed.

Lemma decoded_channel_id bs m :
  rust_slice bs -> decode_control_message bs = Ok m ->
  CONTROL_KIND_OPEN_CHANNEL <= cm_kind m <= CONTROL_KIND_CLOSE_CHANNEL ->
  exists id, cm_fields m !! 29 = Some (Unsigned id) /\ 1 <= id <= u32_max.
Proof.
  intros Hbs Hm Hk. destruct (decoded_field bs m 29 is_channel_id Hbs Hm) as (s & v & Hp & Hc & Hf).
  { intros s Hs. by apply (kind_schema_fields _ _ Hs). }
  destruct s; try done. cbn [is_channel_id] in Hp. unfold UINT32_MAX in Hp. inversion Hc; subst.
  exists n. split; [done | unfold u32_max; lia].
Qed.

(** Every accepted control message carries its kind, from 1 to 15, in field
    1 and a 16-byte session id in field 2; OpenChannel, ChannelReady and
    CloseChannel also carry an application channel id, never channel 0. *)
Theorem control_message_shape bs m :
  rust_slice bs -> decode_control_message bs = Ok m ->
  1 <= cm_kind m <= 15 /\
  cm_fields m !! 1 = Some (Unsigned (cm_kind m)) /\
  (exists sid, cm_fields m !! 2 = Some (Bytes sid) /\ blen sid = 16) /\
  (CONTROL_KIND_OPEN_CHANNEL <= cm_kind m <= CONTROL_KIND_CLOSE_CHANNEL ->
     exists id, cm_fields m !! 29 = Some (Unsigned id) /\ 1 <= id <= u32_max).
Proof.
  intros Hbs Hm. destruct (decoded_kind bs m Hbs Hm) as [(s & Hs) H1].
  split_and!; [by apply (kind_schema_fields _ _ Hs) .. | done | by apply (decoded_correlation bs) |].
  by apply (decoded_channel_id bs).
Qed.

End Payload.

(** A CloseChannel message for channel 7. *)
Definition sample_close : list (Z * CborValue) :=
  [(1, Unsigned 10); (2, Bytes (repeat 1 16)); (29, Unsigned 7); (34, Unsigned 1)].
Definition sample_close_bytes : bytes := cbor_bytes (Map sample_close).
Definition sample_close_message : ControlMessage :=
  {| cm_kind := 10; cm_fields := list_to_map sample_close |}.

Lemma sample_close_slice : rust_slice (H := Wasm32) sample_close_bytes.
Proof. split; [by apply bytes_ok_check; vm_compute | by vm_compute]. Qed.

Lemma sample_close_decodes :
  decode_control_message (H := Wasm32) sample_close_bytes = Ok sample_close_message.
Proof. by vm_compute. Qed.

Lemma control_decode_exact_witness :
  rust_slice (H := Wasm32) sample_close_bytes /\
  is_panic (decode_control_message (H := Wasm32) sample_close_bytes) = false /\
  exists s, kind_schema 10 = Some s /\ conforms s (Map sample_close).
Proof.
  split; [exact sample_close_slice |].
  destruct (control_decode_exact (H := Wasm32) sample_close_bytes sample_close_slice) as (H1 & _ & H2).
  split; [exact H1 |].
  destruct (proj1 (H2 sample_close_message) sample_close_decodes) as (es & _ & Hd & _ & _ & Hs & _).
  assert (es = sample_close) as -> by (vm_compute in Hd; injection Hd as <-; reflexivity).
  exact Hs.
Defined.

Lemma control_reencode_witness :
  encode_deterministic_cbor (H := Wasm32) (Map (rev (map_to_list (cm_fields sample_close_message))))
    = Ok sample_close_bytes.
Proof.
  apply (control_reencode (H := Wasm32) sample_close_bytes sample_close_message);
    [exact sample_close_slice | exact sample_close_decodes | symmetry; apply Permutation_rev].
Defined.

Lemma control_message_shape_witness :
  exists id, cm_fields sample_close_message !! 29 = Some (Unsigned id) /\ 1 <= id <= u32_max.
Proof.
  apply (control_message_shape (H := Wasm32) sample_close_bytes sample_close_message
    sample_close_slice sample_close_decodes). vm_compute. split; discriminate.
Defined.
