(* ===== verification/Frame.v ===== *)
(** * Selected-version frames

    [rclweb/src/protocol/frame.rs] (the receiver's validation steps 1-16) and
    the frame writers of [rclweb/src/protocol/encode.rs].  A header is 32 bytes;
    an extension area is at most 4096 bytes and a payload at most 64 MiB, so
    the offsets past the header are plain integers. *)

From S2P Require Import Prelude ProtocolError Cbor Extension ControlSchema Control.
#[local] Open Scope Z_scope.

Definition FRAME_HEADER_LENGTH : Z := 32.
Definition FRAME_PAYLOAD_MAX_BYTES : Z := 67108864.
Definition FRAME_EXTENSION_MAX_BYTES : Z := EXTENSION_AREA_MAX_BYTES.
Definition DEFAULT_SELECTED_VERSION : Z := 0.

Definition OPCODE_CONTROL_CBOR : Z := 1.
Definition OPCODE_ROS_SAMPLE : Z := 2.
Definition OPCODE_SERVICE_REQUEST : Z := 3.
Definition OPCODE_SERVICE_RESPONSE : Z := 4.
Definition OPCODE_ACTION_GOAL : Z := 5.
Definition OPCODE_ACTION_FEEDBACK : Z := 6.
Definition OPCODE_ACTION_RESULT : Z := 7.
Definition OPCODE_ACTION_STATUS : Z := 8.
Definition OPCODE_ACTION_CANCEL : Z := 9.
Definition OPCODE_MEDIA_CHUNK : Z := 10.
Definition OPCODE_RECORDING_CHUNK : Z := 11.
Definition OPCODE_ASSET_CHUNK : Z := 12.

Definition FLAG_ROS_RELIABLE : Z := 0x0001.
Definition FLAG_KEYFRAME : Z := 0x0002.
Definition FLAG_TRACE_PRESENT : Z := 0x0004.
Definition FLAG_RETAINED : Z := 0x0008.
Definition FLAG_FRAGMENT : Z := 0x0010.
Definition FLAG_ASSIGNED_MASK : Z := 0x001f.

Definition PRIORITY_CONTROL : Z := 0.
Definition CLOCK_NONE : Z := 0.

Record FrameOptions := {
  selected_version : Z;
  experimental_opcodes_enabled : bool;
  available_clock_ids : gset Z
}.

Definition default_options : FrameOptions :=
  {| selected_version := DEFAULT_SELECTED_VERSION;
     experimental_opcodes_enabled := false;
     available_clock_ids := list_to_set [0; 1; 2; 3; 4] |}.

Inductive FramePayload :=
| Application (data : bytes)
| Control (msg : ControlMessage).

Record DecodedFrame := {
  df_version : Z;
  df_opcode : Z;
  df_flags : Z;
  df_channel_id : Z;
  df_sequence : Z;
  df_source_time_ns : Z;
  df_payload_len : Z;
  df_extension_len : Z;
  df_priority : Z;
  df_clock_id : Z;
  df_extensions : list R2wpExtension;
  df_payload : FramePayload
}.

(** [n] bytes from [o], each read with an index. *)
Fixpoint read_at {E} (n : nat) (b : bytes) (o : Z) : outcome E bytes :=
  match n with
  | O => Ok []
  | S n' => x <-- index b o ;; xs <-- read_at n' b (o + 1) ;; Ok (x :: xs)
  end.
Definition read_u16_be {E} (b : bytes) (o : Z) : outcome E Z :=
  x <-- read_at 2 b o ;; Ok (of_be x).
Definition read_u32_be {E} (b : bytes) (o : Z) : outcome E Z :=
  x <-- read_at 4 b o ;; Ok (of_be x).
Definition read_u64_be {E} (b : bytes) (o : Z) : outcome E Z :=
  x <-- read_at 8 b o ;; Ok (of_be x).
Definition read_i64_be {E} (b : bytes) (o : Z) : outcome E Z :=
  x <-- read_u64_be b o ;; Ok (as_signed 64 x).

Definition is_assigned_opcode (opcode : Z) : bool :=
  (OPCODE_CONTROL_CBOR <=? opcode) && (opcode <=? OPCODE_ASSET_CHUNK).
Definition is_experimental_opcode (opcode : Z) : bool := (128 <=? opcode) && (opcode <=? 255).

Definition opcode_allows_ros_reliable (opcode : Z) : bool :=
  existsb (Z.eqb opcode)
    [OPCODE_ROS_SAMPLE; OPCODE_SERVICE_REQUEST; OPCODE_SERVICE_RESPONSE; OPCODE_ACTION_GOAL;
     OPCODE_ACTION_FEEDBACK; OPCODE_ACTION_RESULT; OPCODE_ACTION_STATUS; OPCODE_ACTION_CANCEL].

Definition opcode_allows_host_retain (opcode : Z) : bool :=
  (OPCODE_ROS_SAMPLE <=? opcode) && (opcode <=? OPCODE_ASSET_CHUNK).

(** [if c { return Err(e) }]. *)
Definition fail_if {E} (c : bool) (e : E) : outcome E unit := if c then Err e else Ok tt.

Section Frame.
Context `{Target}.

(** [None] is also the answer when the [usize] sum overflows. *)
Definition frame_declared_total {E} (bs : bytes) : outcome E (option Z) :=
  if blen bs <? FRAME_HEADER_LENGTH then Ok None
  else
    p <-- slice bs 24 28 ;;
    e <-- slice bs 28 30 ;;
    Ok (match checked_add usize_max FRAME_HEADER_LENGTH (of_be e) with
        | Some n => checked_add usize_max n (of_be p)
        | None => None
        end).

Definition retain_declared_len {E} (bs : bytes) : outcome E Z :=
  t <-- frame_declared_total bs ;;
  match t with
  | None => Ok (blen bs)
  | Some total =>
      if blen bs =? total then Ok total
      else
        extension_len <-- read_u16_be bs 28 ;;
        if blen bs =? usize_add FRAME_HEADER_LENGTH extension_len then Ok total else Ok (blen bs)
  end.

Definition checked_add_frame (a b offset : Z) : outcome ProtocolError Z :=
  ok_or (checked_add usize_max a b) (message_too_large_frame "payload_too_large" offset 4).

(** The header fields, in wire order. *)
Record Header := {
  h_version : Z; h_opcode : Z; h_flags : Z; h_channel_id : Z; h_sequence : Z;
  h_source_time_ns : Z; h_payload_len : Z; h_extension_len : Z; h_priority : Z; h_clock_id : Z
}.

Definition read_header (bs : bytes) : outcome ProtocolError Header :=
  version <-- index bs 0 ;;
  opcode <-- index bs 1 ;;
  flags <-- read_u16_be bs 2 ;;
  channel_id <-- read_u32_be bs 4 ;;
  sequence <-- read_u64_be bs 8 ;;
  source_time_ns <-- read_i64_be bs 16 ;;
  payload_len <-- read_u32_be bs 24 ;;
  extension_len <-- read_u16_be bs 28 ;;
  priority <-- index bs 30 ;;
  clock_id <-- index bs 31 ;;
  Ok {| h_version := version; h_opcode := opcode; h_flags := flags; h_channel_id := channel_id;
        h_sequence := sequence; h_source_time_ns := source_time_ns;
        h_payload_len := payload_len; h_extension_len := extension_len;
        h_priority := priority; h_clock_id := clock_id |}.

(** Steps 2-4: version, size limits, exact total.  Returns [host_retain_prefix]. *)
Definition check_sizes (opts : FrameOptions) (len declared_total : Z) (h : Header)
    : outcome ProtocolError bool :=
  fail_if (negb (h_version h =? selected_version opts))
    (unsupported_version_frame "unsupported_version" 0 2) ;;?
  fail_if (FRAME_EXTENSION_MAX_BYTES <? h_extension_len h)
    (message_too_large_frame "extension_too_large" 28 3) ;;?
  fail_if (FRAME_PAYLOAD_MAX_BYTES <? h_payload_len h)
    (message_too_large_frame "payload_too_large" 24 3) ;;?
  fail_if ((h_opcode h =? OPCODE_CONTROL_CBOR) && (CONTROL_PAYLOAD_MAX_BYTES <? h_payload_len h))
    (message_too_large_frame "control_payload_too_large" 24 3) ;;?
  after_header <-- checked_add_frame FRAME_HEADER_LENGTH (h_extension_len h) 0 ;;
  expected_total <-- checked_add_frame after_header (h_payload_len h) 0 ;;
  fail_if (negb (declared_total =? expected_total)) (malformed_frame "exact_total_mismatch" 0 4) ;;?
  let host_retain_prefix :=
    (len =? after_header) && (0 <? h_payload_len h) && opcode_allows_host_retain (h_opcode h) in
  fail_if (negb (len =? expected_total) && negb host_retain_prefix)
    (malformed_frame "exact_total_mismatch" 0 4) ;;?
  Ok host_retain_prefix.

(** Steps 5-12: the header's own rules. *)
Definition check_header (opts : FrameOptions) (h : Header) : outcome ProtocolError unit :=
  (if is_assigned_opcode (h_opcode h) then Ok tt
   else if is_experimental_opcode (h_opcode h) then
     fail_if (negb (experimental_opcodes_enabled opts)) (unsupported_opcode "unsupported_opcode" 1 5)
   else Err (unsupported_opcode "unsupported_opcode" 1 5)) ;;?
  fail_if (negb (Z.land (h_flags h) (u16_max - FLAG_ASSIGNED_MASK) =? 0))
    (unsupported_flags "unknown_flag_bits" 2 6) ;;?
  fail_if (negb (Z.land (h_flags h) FLAG_FRAGMENT =? 0))
    (unsupported_flags "fragment_prohibited" 2 7) ;;?
  fail_if (negb (Z.land (h_flags h) FLAG_KEYFRAME =? 0) && negb (h_opcode h =? OPCODE_MEDIA_CHUNK))
    (unsupported_flags "keyframe_opcode" 2 7) ;;?
  fail_if (negb (Z.land (h_flags h) FLAG_RETAINED =? 0) && negb (h_opcode h =? OPCODE_ROS_SAMPLE))
    (unsupported_flags "ros_flag_opcode" 2 7) ;;?
  fail_if (negb (Z.land (h_flags h) FLAG_ROS_RELIABLE =? 0) &&
           negb (opcode_allows_ros_reliable (h_opcode h)))
    (unsupported_flags "ros_flag_opcode" 2 7) ;;?
  (if h_opcode h =? OPCODE_CONTROL_CBOR then
     fail_if (negb (h_channel_id h =? 0)) (protocol_violation "channel_class" 4 8)
   else fail_if (h_channel_id h =? 0) (protocol_violation "channel_class" 4 8)) ;;?
  fail_if (4 <? h_priority h) (protocol_violation "unassigned_priority" 30 9) ;;?
  fail_if ((h_opcode h =? OPCODE_CONTROL_CBOR) && negb (h_priority h =? PRIORITY_CONTROL))
    (protocol_violation "control_priority" 30 9) ;;?
  fail_if (4 <? h_clock_id h) (protocol_violation "unassigned_clock" 31 10) ;;?
  fail_if ((h_clock_id h =? CLOCK_NONE) && negb (h_source_time_ns h =? 0))
    (protocol_violation "none_requires_zero_time" 16 11) ;;?
  fail_if (negb (h_clock_id h =? CLOCK_NONE) &&
           negb (bool_decide (h_clock_id h ∈ available_clock_ids opts)))
    (clock_unavailable "clock_unavailable" 31 12).

(** Steps 13-16: the extension area, the trace flag and the payload. *)
Definition parse_body (bs : bytes) (host_retain_prefix : bool) (h : Header)
    : outcome ProtocolError (list R2wpExtension * FramePayload) :=
  let ext_start := FRAME_HEADER_LENGTH in
  let ext_end := ext_start + h_extension_len h in
  let payload_start := ext_end in
  let payload_end := payload_start + h_payload_len h in
  extensions <--
    (if 0 <? h_extension_len h then
       area <-- slice bs ext_start ext_end ;;
       match decode_extension_area area with
       | Ok exts => Ok exts
       | Err e =>
           let step := if bool_decide (xe_reason e = "unknown_critical"%string) then 14 else 13 in
           Err (map_extension_error e ext_start step)
       | Panic => Panic
       end
     else Ok []) ;;
  let trace_flag := negb (Z.land (h_flags h) FLAG_TRACE_PRESENT =? 0) in
  let has_trace_ctx :=
    existsb (fun e => ext_type_id e =? TRACE_CONTEXT_EXTENSION_TYPE) extensions in
  fail_if (negb (eqb trace_flag has_trace_ctx))
    (protocol_violation "trace_consistency" (if trace_flag then 2 else ext_start) 15) ;;?
  payload <--
    (if h_opcode h =? OPCODE_CONTROL_CBOR then
       raw <-- slice bs payload_start payload_end ;;
       match decode_control_message raw with
       | Ok msg => Ok (Control msg)
       | Err e => Err (map_control_error e payload_start)
       | Panic => Panic
       end
     else if host_retain_prefix then Ok (Application [])
     else data <-- slice bs payload_start payload_end ;; Ok (Application data)) ;;
  Ok (extensions, payload).

Definition parse_frame_declared (bs : bytes) (declared_total : Z) (options : option FrameOptions)
    : outcome ProtocolError DecodedFrame :=
  let opts := match options with Some opts => opts | None => default_options end in
  fail_if (blen bs <? FRAME_HEADER_LENGTH) (malformed_frame "truncated_header" 0 1) ;;?
  h <-- read_header bs ;;
  host_retain_prefix <-- check_sizes opts (blen bs) declared_total h ;;
  check_header opts h ;;?
  body <-- parse_body bs host_retain_prefix h ;;
  Ok {| df_version := h_version h; df_opcode := h_opcode h; df_flags := h_flags h;
        df_channel_id := h_channel_id h; df_sequence := h_sequence h;
        df_source_time_ns := h_source_time_ns h; df_payload_len := h_payload_len h;
        df_extension_len := h_extension_len h; df_priority := h_priority h;
        df_clock_id := h_clock_id h; df_extensions := fst body; df_payload := snd body |}.

Definition parse_frame (bs : bytes) (options : option FrameOptions)
    : outcome ProtocolError DecodedFrame :=
  parse_frame_declared bs (blen bs) options.

End Frame.

(** ** The writers *)

Record FrameHeader := {
  fh_version : Z; fh_opcode : Z; fh_flags : Z; fh_channel_id : Z; fh_sequence : Z;
  fh_source_time_ns : Z; fh_priority : Z; fh_clock_id : Z
}.

(** [out[i..i + src.len()].copy_from_slice(src)] in a buffer long enough. *)
Definition copy_at {E} (i : Z) (src out : bytes) : outcome E bytes :=
  if (0 <=? i) && (i + blen src <=? blen out)
  then Ok (sub_list out 0 i ++ src ++ sub_list out (i + blen src) (blen out - (i + blen src)))
  else Panic.

(** The buffer is returned: the source fills it in place. *)
Definition write_frame_header (header : FrameHeader) (payload_len extension_len : Z) (out : bytes)
    : outcome EncodeError bytes :=
  fail_if (blen out <? FRAME_HEADER_LENGTH) (encode_error "header_buffer_too_small") ;;?
  fail_if (FRAME_PAYLOAD_MAX_BYTES <? payload_len) (encode_error "payload_too_large") ;;?
  fail_if ((fh_opcode header =? OPCODE_CONTROL_CBOR) && (CONTROL_PAYLOAD_MAX_BYTES <? payload_len))
    (encode_error "control_payload_too_large") ;;?
  out <-- copy_at 0 [fh_version header] out ;;
  out <-- copy_at 1 [fh_opcode header] out ;;
  out <-- copy_at 2 (to_be 2 (fh_flags header)) out ;;
  out <-- copy_at 4 (to_be 4 (fh_channel_id header)) out ;;
  out <-- copy_at 8 (to_be 8 (fh_sequence header)) out ;;
  out <-- copy_at 16 (to_be 8 (as_unsigned 64 (fh_source_time_ns header))) out ;;
  out <-- copy_at 24 (to_be 4 payload_len) out ;;
  out <-- copy_at 28 (to_be 2 extension_len) out ;;
  out <-- copy_at 30 [fh_priority header] out ;;
  copy_at 31 [fh_clock_id header] out.

Definition encode_frame (header : FrameHeader) (extension_area payload : bytes)
    : outcome EncodeError bytes :=
  fail_if (negb (blen extension_area mod 4 =? 0) ||
           (EXTENSION_AREA_MAX_BYTES <? blen extension_area))
    (encode_error "extension_area_bounds") ;;?
  fail_if (FRAME_PAYLOAD_MAX_BYTES <? blen payload) (encode_error "payload_too_large") ;;?
  let out := zeros (FRAME_HEADER_LENGTH + blen extension_area + blen payload) in
  out <-- write_frame_header header (as_unsigned 32 (blen payload))
            (as_unsigned 16 (blen extension_area)) out ;;
  out <-- copy_at FRAME_HEADER_LENGTH extension_area out ;;
  copy_at (FRAME_HEADER_LENGTH + blen extension_area) payload out.

Definition encode_control_frame `{Target} (version sequence : Z) (message : CborValue)
    : outcome EncodeError bytes :=
  payload <-- encode_deterministic_cbor message ;;
  encode_frame
    {| fh_version := version; fh_opcode := OPCODE_CONTROL_CBOR; fh_flags := 0;
       fh_channel_id := 0; fh_sequence := sequence; fh_source_time_ns := 0;
       fh_priority := PRIORITY_CONTROL; fh_clock_id := 0 |}
    [] payload.

(** ** The header and its bytes *)

Lemma read_at_spec {E} n b o :
  0 <= o -> o + Z.of_nat n <= blen b -> read_at (E := E) n b o = Ok (sub_list b o (Z.of_nat n)).
Proof.
  revert o. induction n as [|n IH]; intros o Ho Hn; [done |]. cbn [read_at].
  rewrite (index_ok b o 0) by lia. cbn [obind]. rewrite IH by lia. cbn [obind].
  unfold sub_list. rewrite !Nat2Z.id. f_equal.
  rewrite (drop_S b (nth (Z.to_nat o) b 0) (Z.to_nat o)).
  - cbn [take]. do 3 f_equal. lia.
  - apply (index_lookup (E := unit)). apply index_ok. lia.
Qed.

Definition header_of (bs : bytes) : Header :=
  {| h_version := nth 0 bs 0; h_opcode := nth 1 bs 0; h_flags := of_be (sub_list bs 2 2);
     h_channel_id := of_be (sub_list bs 4 4); h_sequence := of_be (sub_list bs 8 8);
     h_source_time_ns := as_signed 64 (of_be (sub_list bs 16 8));
     h_payload_len := of_be (sub_list bs 24 4); h_extension_len := of_be (sub_list bs 28 2);
     h_priority := nth 30 bs 0; h_clock_id := nth 31 bs 0 |}.

Lemma read_header_spec bs : 32 <= blen bs -> read_header bs = Ok (header_of bs).
Proof.
  intros Hl. unfold read_header, read_i64_be, read_u64_be, read_u32_be, read_u16_be.
  rewrite !(index_ok bs _ 0) by lia. cbn [obind].
  do 6 (rewrite read_at_spec by (cbn; lia); cbn [obind]). done.
Qed.

(** Field ranges the Rust types give. *)
Record header_typed (h : Header) : Prop := {
  ht_version : is_byte (h_version h);
  ht_opcode : is_byte (h_opcode h);
  ht_flags : is_unsigned 16 (h_flags h);
  ht_channel : is_unsigned 32 (h_channel_id h);
  ht_sequence : is_unsigned 64 (h_sequence h);
  ht_time : is_signed 64 (h_source_time_ns h);
  ht_payload : is_unsigned 32 (h_payload_len h);
  ht_extension : is_unsigned 16 (h_extension_len h);
  ht_priority : is_byte (h_priority h);
  ht_clock : is_byte (h_clock_id h)
}.

Lemma nth_is_byte i bs : bytes_ok bs -> is_byte (nth i bs 0).
Proof.
  intros Hb. destruct (nth_in_or_default i bs 0) as [Hin | ->]; [| unfold is_byte; lia].
  apply list_elem_of_In in Hin. unfold bytes_ok in Hb. rewrite Forall_forall in Hb. by apply Hb.
Qed.

Lemma of_be_sub_list bs o n :
  bytes_ok bs -> 0 <= o -> 0 <= n -> o + n <= blen bs -> 0 <= of_be (sub_list bs o n) < 256 ^ n.
Proof.
  intros Hb Ho Hn Hl. pose proof (of_be_bound (sub_list bs o n) (bytes_ok_sub_list _ _ _ Hb)) as H.
  by rewrite blen_sub_list in H by lia.
Qed.

Lemma header_of_typed bs : bytes_ok bs -> 32 <= blen bs -> header_typed (header_of bs).
Proof.
  intros Hb Hl. constructor; cbn; try (by apply nth_is_byte); try apply of_be_sub_list; try lia; try done.
  apply as_signed_range. lia.
Qed.

(** The 32 header bytes. *)
Definition header_bytes (h : Header) : bytes :=
  [h_version h] ++ [h_opcode h] ++ to_be 2 (h_flags h) ++ to_be 4 (h_channel_id h) ++
  to_be 8 (h_sequence h) ++ to_be 8 (as_unsigned 64 (h_source_time_ns h)) ++
  to_be 4 (h_payload_len h) ++ to_be 2 (h_extension_len h) ++ [h_priority h] ++ [h_clock_id h].

Lemma header_bytes_len h : blen (header_bytes h) = 32.
Proof. done. Qed.

(** Big-endian digits written out, so a header is an explicit list of bytes. *)
Lemma sub_list_1 (bs : bytes) i : 0 <= i < blen bs -> sub_list bs i 1 = [nth (Z.to_nat i) bs 0].
Proof.
  intros Hi. assert (E : read_at (E := unit) 1 bs i = Ok [nth (Z.to_nat i) bs 0]).
  { cbn [read_at]. by rewrite (index_ok bs i 0) by lia. }
  rewrite read_at_spec in E by (cbn; lia). by injection E.
Qed.

Lemma to_be_sub_list bs o n m :
  bytes_ok bs -> 0 <= o -> m = Z.of_nat n -> o + m <= blen bs ->
  to_be n (of_be (sub_list bs o m)) = sub_list bs o m.
Proof.
  intros Hb Ho -> Hl. assert (Hn : length (sub_list bs o (Z.of_nat n)) = n).
  { pose proof (blen_sub_list bs o (Z.of_nat n) Ho ltac:(lia) Hl). unfold blen in *. lia. }
  rewrite <- Hn at 1. apply to_be_of_be. by apply bytes_ok_sub_list.
Qed.

Lemma sub_list_join (bs : bytes) i j n m :
  0 <= i -> 0 <= n -> 0 <= m -> j = i + n ->
  sub_list bs i n ++ sub_list bs j m = sub_list bs i (n + m).
Proof. intros ? ? ? ->. by rewrite sub_list_split. Qed.

Lemma header_bytes_of bs :
  bytes_ok bs -> 32 <= blen bs -> header_bytes (header_of bs) = sub_list bs 0 32.
Proof.
  intros Hb Hl. unfold header_bytes, header_of; cbn [h_version h_opcode h_flags h_channel_id
    h_sequence h_source_time_ns h_payload_len h_extension_len h_priority h_clock_id].
  rewrite as_unsigned_signed; [| lia | apply of_be_sub_list; (done || lia)].
  rewrite (to_be_sub_list bs 2 2 2), (to_be_sub_list bs 4 4 4), (to_be_sub_list bs 8 8 8),
    (to_be_sub_list bs 16 8 8), (to_be_sub_list bs 24 4 4), (to_be_sub_list bs 28 2 2) by (done || lia).
  assert (E0 : [nth 0 bs 0] = sub_list bs 0 1) by (by rewrite sub_list_1 by lia).
  assert (E1 : [nth 1 bs 0] = sub_list bs 1 1) by (by rewrite sub_list_1 by lia).
  assert (E30 : [nth 30 bs 0] = sub_list bs 30 1) by (by rewrite sub_list_1 by lia).
  assert (E31 : [nth 31 bs 0] = sub_list bs 31 1) by (by rewrite sub_list_1 by lia).
  rewrite E0, E1, E30, E31.
  by rewrite (sub_list_join bs 30 31), (sub_list_join bs 28 30), (sub_list_join bs 24 28),
    (sub_list_join bs 16 24), (sub_list_join bs 8 16), (sub_list_join bs 4 8),
    (sub_list_join bs 2 4), (sub_list_join bs 1 2), (sub_list_join bs 0 1) by lia.
Qed.

Lemma header_of_bytes h t : header_typed h -> header_of (header_bytes h ++ t) = h.
Proof.
  intros Ht. destruct Ht as [? ? Hf Hc Hs Htm Hp He ? ?]. unfold header_of.
  assert (Hsub : forall o n, 0 <= o -> 0 <= n -> o + n <= 32 ->
    sub_list (header_bytes h ++ t) o n = sub_list (header_bytes h) o n).
  { intros o n Ho Hn Hl. apply sub_list_app_l; [done | done |]. by rewrite header_bytes_len. }
  rewrite !Hsub by lia.
  change (sub_list (header_bytes h) 2 2) with (to_be 2 (h_flags h)).
  change (sub_list (header_bytes h) 4 4) with (to_be 4 (h_channel_id h)).
  change (sub_list (header_bytes h) 8 8) with (to_be 8 (h_sequence h)).
  change (sub_list (header_bytes h) 16 8) with (to_be 8 (as_unsigned 64 (h_source_time_ns h))).
  change (sub_list (header_bytes h) 24 4) with (to_be 4 (h_payload_len h)).
  change (sub_list (header_bytes h) 28 2) with (to_be 2 (h_extension_len h)).
  change (nth 0 (header_bytes h ++ t) 0) with (h_version h).
  change (nth 1 (header_bytes h ++ t) 0) with (h_opcode h).
  change (nth 30 (header_bytes h ++ t) 0) with (h_priority h).
  change (nth 31 (header_bytes h ++ t) 0) with (h_clock_id h).
  rewrite !of_be_to_be; try done; [| by apply as_unsigned_range].
  rewrite as_signed_unsigned by (done || lia). by destruct h.
Qed.

(** ** The receiver's rules, one per validation step *)

Section Steps.
Context `{Target}.

(** The prefix the wasm host may pass: header and extension area only. *)
Definition host_prefix (len : Z) (h : Header) : Prop :=
  len = 32 + h_extension_len h /\ 0 < h_payload_len h /\ 2 <= h_opcode h <= 12.

Definition area_of (bs : bytes) (h : Header) : bytes := sub_list bs 32 (h_extension_len h).
Definition payload_of (bs : bytes) (h : Header) : bytes :=
  sub_list bs (32 + h_extension_len h) (h_payload_len h).

Definition has_trace (exts : list R2wpExtension) : Prop :=
  exists e, e ∈ exts /\ ext_type_id e = TRACE_CONTEXT_EXTENSION_TYPE.

(** Step [k] of protocol/r2wp-v0.md for the input [bs], read declaratively. *)
Definition step_ok (opts : FrameOptions) (bs : bytes) (declared k : Z) : Prop :=
  let h := header_of bs in
  let total := 32 + h_extension_len h + h_payload_len h in
  match k with
  | 1 => 32 <= blen bs
  | 2 => h_version h = selected_version opts
  | 3 => h_extension_len h <= 4096 /\ h_payload_len h <= 67108864 /\
         (h_opcode h = 1 -> h_payload_len h <= 1048576)
  | 4 => declared = total /\ (blen bs = total \/ host_prefix (blen bs) h)
  | 5 => 1 <= h_opcode h <= 12 \/
         (128 <= h_opcode h /\ experimental_opcodes_enabled opts = true)
  | 6 => h_flags h < 32
  | 7 => Z.testbit (h_flags h) 4 = false /\
         (Z.testbit (h_flags h) 1 = true -> h_opcode h = OPCODE_MEDIA_CHUNK) /\
         (Z.testbit (h_flags h) 3 = true -> h_opcode h = OPCODE_ROS_SAMPLE) /\
         (Z.testbit (h_flags h) 0 = true -> 2 <= h_opcode h <= 9)
  | 8 => h_opcode h = 1 <-> h_channel_id h = 0
  | 9 => h_priority h <= 4 /\ (h_opcode h = 1 -> h_priority h = 0)
  | 10 => h_clock_id h <= 4
  | 11 => h_clock_id h = 0 -> h_source_time_ns h = 0
  | 12 => h_clock_id h <> 0 -> h_clock_id h ∈ available_clock_ids opts
  | 13 => exists exts, is_area (area_of bs h) exts
  | 14 => exists exts, is_area (area_of bs h) exts /\ first_unknown 0 exts = None
  | 15 => exists exts, decode_extension_area (area_of bs h) = Ok exts /\
          (Z.testbit (h_flags h) 2 = true <-> has_trace exts)
  | 16 => h_opcode h = 1 -> exists m, decode_control_message (payload_of bs h) = Ok m
  | _ => True
  end.

(** [m] checks the rules [lo <= k < hi] in order: an error names the first
    rule that fails. *)
Definition checks {A} (P : Z -> Prop) (lo hi : Z) (m : outcome ProtocolError A) : Prop :=
  match m with
  | Ok _ => forall k, lo <= k < hi -> P k
  | Err e => lo <= pe_step e < hi /\ ~ P (pe_step e) /\ forall k, lo <= k < pe_step e -> P k
  | Panic => False
  end.

Lemma checks_bind {A B} P lo mid hi (m : outcome ProtocolError A) (f : A -> outcome ProtocolError B) :
  lo <= mid <= hi -> checks P lo mid m ->
  (forall a, m = Ok a -> (forall k, lo <= k < mid -> P k) -> checks P mid hi (f a)) ->
  checks P lo hi (obind m f).
Proof.
  intros Hm H1 H2. unfold checks in *. destruct m as [a | e |]; cbn [obind]; [| | done].
  - specialize (H2 a eq_refl H1). destruct (f a) as [b | e |]; [| | done].
    + intros k Hk. destruct (Z.lt_ge_cases k mid); [apply H1 | apply H2]; lia.
    + destruct H2 as (? & ? & H2). split; [lia |]. split; [done |].
      intros k Hk. destruct (Z.lt_ge_cases k mid); [apply H1 | apply H2]; lia.
  - destruct H1 as (? & ? & ?). split; [lia | done].
Qed.

(** A guard of the current rule. *)
Lemma checks_guard {A} (P : Z -> Prop) lo hi c e (rest : outcome ProtocolError A) :
  pe_step e = lo -> lo < hi -> (c = true -> ~ P lo) -> (c = false -> checks P lo hi rest) ->
  checks P lo hi (fail_if c e ;;? rest).
Proof.
  intros He Hlt Ht Hf. unfold fail_if. destruct c; [| by apply Hf]. cbn. rewrite He.
  split; [lia |]. split; [by apply Ht |]. intros. lia.
Qed.

(** The current rule is established. *)
Lemma checks_next {A} (P : Z -> Prop) lo hi (m : outcome ProtocolError A) :
  P lo -> checks P (lo + 1) hi m -> checks P lo hi m.
Proof.
  unfold checks. intros HP. destruct m as [a | e |]; [| | done].
  - intros Hm k Hk. destruct (Z.eq_dec k lo) as [-> |]; [done |]. apply Hm. lia.
  - intros (? & ? & Hm). split; [lia |]. split; [done |].
    intros k Hk. destruct (Z.eq_dec k lo) as [-> |]; [done |]. apply Hm. lia.
Qed.

(** The last guard. *)
Lemma checks_last (P : Z -> Prop) lo c e :
  pe_step e = lo -> (c = true -> ~ P lo) -> (c = false -> P lo) ->
  checks P lo (lo + 1) (fail_if c e).
Proof.
  intros He Ht Hf. unfold fail_if. destruct c; cbn.
  - rewrite He. split; [lia |]. split; [by apply Ht |]. intros. lia.
  - intros k Hk. replace k with lo by lia. by apply Hf.
Qed.

(** Nothing left to check. *)
Lemma checks_ret {A} P k (a : A) : checks P k k (Ok a).
Proof. intros j Hj. lia. Qed.

Lemma land_bit f i : 0 <= i -> (Z.land f (2 ^ i) =? 0) = negb (Z.testbit f i).
Proof.
  intros Hi. destruct (Z.testbit f i) eqn:Hb; cbn [negb].
  - apply Z.eqb_neq. intros Hz. assert (Ht : Z.testbit (Z.land f (2 ^ i)) i = true).
    { by rewrite Z.land_spec, Hb, Z.pow2_bits_true. }
    by rewrite Hz, Z.bits_0 in Ht.
  - apply Z.eqb_eq. apply Z.bits_inj'. intros j Hj. rewrite Z.land_spec, Z.bits_0.
    destruct (Z.eq_dec j i) as [-> |]; [by rewrite Hb | rewrite Z.pow2_bits_false by lia; apply andb_false_r].
Qed.

Lemma flags_assigned f :
  is_unsigned 16 f -> (Z.land f (u16_max - FLAG_ASSIGNED_MASK) =? 0) = (f <? 32).
Proof.
  intros Hf. unfold is_unsigned in Hf.
  assert (Hland : Z.land f (u16_max - FLAG_ASSIGNED_MASK) = 32 * (f / 32)).
  { change (u16_max - FLAG_ASSIGNED_MASK) with (Z.shiftl (Z.ones 11) 5).
    transitivity (Z.shiftl (Z.shiftr f 5) 5).
    - apply Z.bits_inj'. intros i Hi. rewrite Z.land_spec.
      destruct (Z.lt_ge_cases i 5).
      + rewrite !Z.shiftl_spec_low by lia. apply andb_false_r.
      + rewrite !Z.shiftl_spec by lia. rewrite Z.shiftr_spec by lia.
        replace (i - 5 + 5) with i by lia.
        destruct (Z.lt_ge_cases i 16).
        * rewrite Z.ones_spec_low by lia. apply andb_true_r.
        * rewrite Z.ones_spec_high by lia. rewrite andb_false_r. symmetry.
          destruct (Z.eq_dec f 0) as [-> |]; [apply Z.bits_0 |].
          apply Z.bits_above_log2; [lia |]. apply Z.log2_lt_pow2; [lia |].
          pose proof (Z.pow_le_mono_r 2 16 i). lia.
    - rewrite Z.shiftl_mul_pow2, Z.shiftr_div_pow2 by lia. change (2 ^ 5) with 32. lia. }
  rewrite Hland. destruct (Z.ltb_spec f 32).
  - rewrite Z.div_small by lia. done.
  - apply Z.eqb_neq. pose proof (Z.div_le_lower_bound f 32 1). lia.
Qed.

Lemma bit_clear f i : 0 <= i -> negb (Z.land f (2 ^ i) =? 0) = Z.testbit f i.
Proof. intros. rewrite land_bit by done. apply negb_involutive. Qed.

Lemma host_retain_range op : opcode_allows_host_retain op = true <-> 2 <= op <= 12.
Proof. unfold opcode_allows_host_retain, OPCODE_ROS_SAMPLE, OPCODE_ASSET_CHUNK. lia. Qed.

Lemma ros_reliable_range op : opcode_allows_ros_reliable op = true <-> 2 <= op <= 9.
Proof.
  unfold opcode_allows_ros_reliable. rewrite existsb_exists. split.
  - intros (x & Hin & Hx). apply Z.eqb_eq in Hx as ->. apply list_elem_of_In in Hin.
    rewrite !elem_of_cons, elem_of_nil in Hin. vm_compute in Hin. lia.
  - intros Hop. exists op. split; [| apply Z.eqb_refl].
    assert (op = 2 \/ op = 3 \/ op = 4 \/ op = 5 \/ op = 6 \/ op = 7 \/ op = 8 \/ op = 9) as Ho by lia.
    simpl. unfold OPCODE_ROS_SAMPLE, OPCODE_SERVICE_REQUEST, OPCODE_SERVICE_RESPONSE,
      OPCODE_ACTION_GOAL, OPCODE_ACTION_FEEDBACK, OPCODE_ACTION_RESULT, OPCODE_ACTION_STATUS,
      OPCODE_ACTION_CANCEL. lia.
Qed.

Lemma check_sizes_spec opts bs declared :
  bytes_ok bs -> 32 <= blen bs ->
  checks (step_ok opts bs declared) 2 5 (check_sizes opts (blen bs) declared (header_of bs)) /\
  forall p, check_sizes opts (blen bs) declared (header_of bs) = Ok p ->
    (p = true <-> host_prefix (blen bs) (header_of bs)).
Proof.
  intros Hb Hl. destruct (header_of_typed bs Hb Hl) as [_ _ _ _ _ _ [Hp0 _] [He0 _] _ _].
  unfold check_sizes, FRAME_EXTENSION_MAX_BYTES, FRAME_PAYLOAD_MAX_BYTES, EXTENSION_AREA_MAX_BYTES,
    CONTROL_PAYLOAD_MAX_BYTES, OPCODE_CONTROL_CBOR, checked_add_frame, FRAME_HEADER_LENGTH.
  pose proof usize_max_ge as Hmax. unfold u32_max in Hmax. set (h := header_of bs) in *.
  assert (Hprefix : ((blen bs =? 32 + h_extension_len h) && (0 <? h_payload_len h) &&
    opcode_allows_host_retain (h_opcode h)) = true <-> host_prefix (blen bs) h).
  { unfold host_prefix. rewrite !andb_true_iff, host_retain_range. lia. }
  split.
  - apply checks_guard; [done | lia | cbn [step_ok]; fold h; lia |]. intros Hv.
    apply checks_next; [cbn [step_ok]; fold h; lia |]. change (2 + 1) with 3.
    apply checks_guard; [done | lia | cbn [step_ok]; fold h; lia |]. intros Hx.
    apply checks_guard; [done | lia | cbn [step_ok]; fold h; lia |]. intros Hp.
    apply checks_guard; [done | lia | cbn [step_ok]; fold h; lia |]. intros Hc.
    apply checks_next; [cbn [step_ok]; fold h; lia |]. change (3 + 1) with 4.
    rewrite checked_add_some by lia. cbn [ok_or obind]. rewrite checked_add_some by lia. cbn [ok_or obind].
    apply checks_guard; [done | lia | cbn [step_ok]; fold h; lia |]. intros Hd.
    cbv zeta. apply checks_guard; [done | lia | |].
    + intros Hc' [_ [Ht | Hpre]]; apply andb_true_iff in Hc' as [Hc1 Hc2]; [fold h in Ht; lia |].
      fold h in Hpre. apply Hprefix in Hpre. by rewrite Hpre in Hc2.
    + intros Hc'. apply checks_next; [| apply checks_ret]. cbn [step_ok]. fold h. split; [lia |].
      apply andb_false_iff in Hc' as [Hc' | Hc']; [left; lia | right]. apply Hprefix.
      by apply negb_false_iff in Hc'.
  - intros p. unfold fail_if.
    destruct (negb (h_version h =? _)); [done |]. destruct (Z.ltb_spec 4096 (h_extension_len h)); [done |].
    destruct (Z.ltb_spec 67108864 (h_payload_len h)); [done |]. destruct ((h_opcode h =? 1) && _); [done |].
    cbn [obind]. rewrite checked_add_some by lia. cbn [ok_or obind]. rewrite checked_add_some by lia.
    cbn [ok_or obind]. destruct (negb (declared =? _)); [done |]. cbn [obind]. cbv zeta.
    destruct (negb (blen bs =? _) && _); [done |]. cbn [obind]. intros [= <-]. exact Hprefix.
Qed.

Lemma check_header_spec opts bs declared :
  bytes_ok bs -> 32 <= blen bs ->
  checks (step_ok opts bs declared) 5 13 (check_header opts (header_of bs)).
Proof.
  intros Hb Hl. destruct (header_of_typed bs Hb Hl) as [_ [Hop0 Hop1] Hf [Hch _] _ _ _ _ [Hpr _] [Hck _]].
  unfold check_header, OPCODE_CONTROL_CBOR, PRIORITY_CONTROL, CLOCK_NONE.
  set (h := header_of bs) in *.
  assert (Hop : checks (step_ok opts bs declared) 5 6
    (if is_assigned_opcode (h_opcode h) then Ok tt
     else if is_experimental_opcode (h_opcode h) then
       fail_if (negb (experimental_opcodes_enabled opts)) (unsupported_opcode "unsupported_opcode" 1 5)
     else Err (unsupported_opcode "unsupported_opcode" 1 5))).
  { unfold is_assigned_opcode, is_experimental_opcode, OPCODE_CONTROL_CBOR, OPCODE_ASSET_CHUNK, fail_if.
    assert (Hone : forall {A} (m : outcome ProtocolError A),
      match m with Ok _ => step_ok opts bs declared 5
      | Err e => pe_step e = 5 /\ ~ step_ok opts bs declared 5 | Panic => False end ->
      checks (step_ok opts bs declared) 5 6 m).
    { intros A m. unfold checks. destruct m as [a | e |]; [| | done].
      - intros HP j Hj. by replace j with 5 by lia.
      - intros [-> HP]. split; [lia |]. split; [done |]. intros. lia. }
    apply Hone. cbn [step_ok]. fold h.
    destruct (Z.leb_spec 1 (h_opcode h)), (Z.leb_spec (h_opcode h) 12); cbn [andb]; try (left; lia);
      destruct (Z.leb_spec 128 (h_opcode h)), (Z.leb_spec (h_opcode h) 255); cbn [andb];
      destruct (experimental_opcodes_enabled opts); cbn [negb];
      try (right; split; [lia | done]); try (split; [done |]; intros [? | [? ?]]; (lia || done)). }
  apply (checks_bind _ 5 6 13); [lia | exact Hop |]. intros _ _ _. clear Hop.
  rewrite (flags_assigned (h_flags h)) by done.
  apply checks_guard; [done | lia | cbn [step_ok]; fold h; lia |]. intros Hfl.
  apply checks_next; [cbn [step_ok]; fold h; lia |]. change (6 + 1) with 7.
  change FLAG_FRAGMENT with (2 ^ 4). change FLAG_KEYFRAME with (2 ^ 1).
  change FLAG_RETAINED with (2 ^ 3). change FLAG_ROS_RELIABLE with (2 ^ 0).
  rewrite !bit_clear by lia. unfold OPCODE_MEDIA_CHUNK, OPCODE_ROS_SAMPLE.
  pose proof (ros_reliable_range (h_opcode h)) as Hrr.
  apply checks_guard; [done | lia | cbn [step_ok]; fold h; intros -> [? _]; done |]. intros H4.
  apply checks_guard; [done | lia | |].
  { cbn [step_ok]. fold h. unfold OPCODE_MEDIA_CHUNK. intros [E Hne]%andb_true_iff (_ & Hk & _).
    specialize (Hk E). lia. }
  intros H1. apply checks_guard; [done | lia | |].
  { cbn [step_ok]. fold h. unfold OPCODE_ROS_SAMPLE. intros [E Hne]%andb_true_iff (_ & _ & Hk & _).
    specialize (Hk E). lia. }
  intros H3. apply checks_guard; [done | lia | |].
  { cbn [step_ok]. fold h. intros [E Hne]%andb_true_iff (_ & _ & _ & Hk). apply Hk, Hrr in E.
    by rewrite E in Hne. }
  intros H0. apply checks_next.
  { cbn [step_ok]. fold h. unfold OPCODE_MEDIA_CHUNK, OPCODE_ROS_SAMPLE. split_and!; [done | | |].
    - intros E. rewrite E in H1. rewrite andb_true_l in H1. lia.
    - intros E. rewrite E in H3. rewrite andb_true_l in H3. lia.
    - intros E. rewrite E, andb_true_l in H0. apply Hrr. by apply negb_false_iff in H0. }
  change (7 + 1) with 8. clear H0 H1 H3 H4 Hrr.
  destruct (Z.eqb_spec (h_opcode h) 1) as [Ho | Ho]; cbn [andb];
    (apply checks_guard; [done | lia | cbn [step_ok]; fold h; lia |]; intros Hc;
     apply checks_next; [cbn [step_ok]; fold h; lia |]; change (8 + 1) with 9;
     apply checks_guard; [done | lia | cbn [step_ok]; fold h; lia |]; intros Hp;
     apply checks_guard; [done | lia | cbn [step_ok]; fold h; lia |]; intros Hp';
     apply checks_next; [cbn [step_ok]; fold h; lia |]; change (9 + 1) with 10;
     apply checks_guard; [done | lia | cbn [step_ok]; fold h; lia |]; intros Hk;
     apply checks_next; [cbn [step_ok]; fold h; lia |]; change (10 + 1) with 11;
     apply checks_guard; [done | lia | cbn [step_ok]; fold h; lia |]; intros Ht;
     apply checks_next; [cbn [step_ok]; fold h; lia |]; change (11 + 1) with 12;
     apply checks_last; [done | |]; cbn [step_ok]; fold h;
     (destruct (Z.eqb_spec (h_clock_id h) 0); cbn [negb andb]; [naive_solver |]);
     (destruct (bool_decide_reflect (h_clock_id h ∈ available_clock_ids opts)); cbn [negb]; naive_solver)).
Qed.

Lemma existsb_trace exts :
  existsb (fun e => ext_type_id e =? TRACE_CONTEXT_EXTENSION_TYPE) exts = true <-> has_trace exts.
Proof.
  rewrite existsb_exists. unfold has_trace. split; intros (e & Hin & He); exists e;
    (split; [by apply list_elem_of_In | by apply Z.eqb_eq]).
Qed.

(** What [parse_body] returns for the areas it accepts. *)
Definition body_of (bs : bytes) (p : bool) (h : Header) (body : list R2wpExtension * FramePayload)
    : Prop :=
  decode_extension_area (area_of bs h) = Ok (fst body) /\
  if h_opcode h =? 1 then
    exists m, decode_control_message (payload_of bs h) = Ok m /\ snd body = Control m
  else snd body = Application (if p then [] else payload_of bs h).

Section Body.
Variables (opts : FrameOptions) (bs : bytes) (declared : Z) (p : bool).
Let h := header_of bs.
Hypothesis Hb : rust_slice bs.
Hypothesis Hl : 32 <= blen bs.
Hypothesis H3 : step_ok opts bs declared 3.
Hypothesis H4 : step_ok opts bs declared 4.
Hypothesis Hp : p = true <-> host_prefix (blen bs) h.

Let ht : header_typed h := header_of_typed bs (proj1 Hb) Hl.

Lemma area_slice : bytes_ok (area_of bs h) /\ blen (area_of bs h) = h_extension_len h /\
  32 + h_extension_len h <= blen bs.
Proof using Hb Hl H4 ht.
  destruct ht as [_ _ _ _ _ _ [Hp0 _] [He0 _] _ _]. destruct H4 as [_ H4']. fold h in H4'.
  assert (32 + h_extension_len h <= blen bs).
  { destruct H4' as [-> | [-> _]]; lia. }
  split; [apply bytes_ok_sub_list, Hb |]. split; [| done]. apply blen_sub_list; lia.
Qed.

Lemma payload_slice : p = false \/ h_opcode h = 1 ->
  rust_slice (payload_of bs h) /\ blen (payload_of bs h) = h_payload_len h /\
  32 + h_extension_len h + h_payload_len h = blen bs.
Proof using Hb Hl H4 ht Hp.
  intros Hcase. destruct ht as [_ _ _ _ _ _ [Hp0 _] [He0 _] _ _]. destruct H4 as [_ H4']. fold h in H4'.
  assert (Hlen : 32 + h_extension_len h + h_payload_len h = blen bs).
  { destruct H4' as [-> | Hpre]; [done |]. exfalso. destruct Hcase as [-> | Ho].
    - apply Hp in Hpre. done.
    - destruct Hpre as (_ & _ & Hr). lia. }
  assert (Hn : blen (payload_of bs h) = h_payload_len h) by (apply blen_sub_list; lia).
  split; [| done]. destruct Hb as [Hb1 Hb2]. split; [by apply bytes_ok_sub_list | lia].
Qed.

Lemma payload_slice_eq : p = false \/ h_opcode h = 1 ->
  slice (E := ProtocolError) bs (32 + h_extension_len h) (32 + h_extension_len h + h_payload_len h)
    = Ok (payload_of bs h).
Proof using Hb Hl H4 ht Hp.
  intros Hcase. destruct (payload_slice Hcase) as (_ & Hpl & Htot).
  pose proof (blen_nonneg (payload_of bs h)). pose proof (ht_extension h ht) as [? _].
  rewrite slice_ok by lia. unfold payload_of. do 2 f_equal. lia.
Qed.

(** The decoder's branch on the area length makes no difference. *)
Lemma area_branch :
  (if 0 <? h_extension_len h then
     area <-- slice bs 32 (32 + h_extension_len h) ;;
     match decode_extension_area area with
     | Ok exts => Ok exts
     | Err e =>
         Err (map_extension_error e 32
           (if bool_decide (xe_reason e = "unknown_critical"%string) then 14 else 13))
     | Panic => Panic
     end
   else Ok []) =
  match decode_extension_area (area_of bs h) with
  | Ok exts => Ok exts
  | Err e => Err (map_extension_error e 32
      (if bool_decide (xe_reason e = "unknown_critical"%string) then 14 else 13))
  | Panic => Panic
  end.
Proof using Hb Hl H4 ht.
  destruct area_slice as (Ha & Hal & Hal2). pose proof (ht_extension h ht) as [? _].
  destruct (Z.ltb_spec 0 (h_extension_len h)).
  - rewrite slice_ok by lia. replace (32 + h_extension_len h - 32) with (h_extension_len h) by lia. done.
  - assert (area_of bs h = []) as -> by (apply blen_0; lia). done.
Qed.

Lemma area_checks :
  checks (step_ok opts bs declared) 13 15
    match decode_extension_area (area_of bs h) with
    | Ok exts => Ok exts
    | Err e => Err (map_extension_error e 32
        (if bool_decide (xe_reason e = "unknown_critical"%string) then 14 else 13))
    | Panic => Panic
    end.
Proof using Hb Hl H4 H3 ht.
  destruct area_slice as (Ha & Hal & Hal2). destruct H3 as [H3e _]. fold h in H3e.
  pose proof (decode_area_sound (area_of bs h) Ha) as Hs.
  assert (Hc : forall exts, is_area (area_of bs h) exts -> decode_extension_area (area_of bs h) =
    match first_unknown 0 exts with
    | Some off => Err (ext_unsupported "unknown_critical" off)
    | None => Ok (List.filter (fun e => is_assigned (ext_type_id e)) exts)
    end).
  { intros exts (Hok & Hasc & E). rewrite E. apply decode_area_complete; [done | done |]. rewrite <- E. lia. }
  destruct (decode_extension_area (area_of bs h)) as [out | e |] eqn:Hd; [| | done].
  - destruct Hs as (exts & Harea & _ & Hu & _). cbn. intros k Hk.
    assert (k = 13 \/ k = 14) as [-> | ->] by lia; cbn [step_ok]; fold h; by exists exts.
  - pose proof (decode_area_reason _ _ Hd) as [Hr Hlarge]. unfold map_extension_error.
    destruct (bool_decide_reflect (xe_reason e = "unknown_critical"%string)) as [Hre | Hre].
    + apply Hr in Hre. destruct Hs as [_ [[_ (exts & Harea & Hu)] | [? | ?]]]; [| lia..].
      rewrite Hre. cbn. split; [lia |]. split.
      * intros (exts' & Harea' & Hu'). specialize (Hc exts' Harea'). by rewrite Hu' in Hc.
      * intros k Hk. replace k with 13 by lia. cbn [step_ok]. fold h. by exists exts.
    + assert (Hne : xe_code e <> 22) by (intros E; by apply Hre, Hr).
      destruct Hs as [_ [[? _] | [Hc3 | H24]]]; [done | | apply Hlarge in H24; unfold EXTENSION_AREA_MAX_BYTES in H24; lia].
      rewrite Hc3. cbn. split; [lia |]. split; [| intros; lia].
      intros (exts' & Harea'). specialize (Hc exts' Harea').
      destruct (first_unknown 0 exts'); by simplify_eq.
Qed.

Lemma parse_body_checks : checks (step_ok opts bs declared) 13 17 (parse_body bs p h).
Proof using Hb Hl H4 H3 Hp ht.
  unfold parse_body, FRAME_HEADER_LENGTH. cbv zeta. rewrite area_branch.
  apply (checks_bind _ 13 15 17); [lia | apply area_checks |]. intros exts Hd _.
  assert (Hexts : decode_extension_area (area_of bs h) = Ok exts).
  { destruct (decode_extension_area (area_of bs h)); by simplify_eq. }
  change FLAG_TRACE_PRESENT with (2 ^ 2). rewrite !bit_clear by lia.
  pose proof (existsb_trace exts) as Htr.
  assert (H15 : step_ok opts bs declared 15 <-> (Z.testbit (h_flags h) 2 = true <-> has_trace exts)).
  { cbn [step_ok]. fold h. rewrite Hexts. split; [by intros (? & [= <-] & ?) | by exists exts]. }
  apply checks_guard; [done | lia | |].
  { rewrite H15, <- Htr. destruct (Z.testbit _ _), (existsb _ _); cbn; intuition congruence. }
  intros Hc. apply checks_next.
  { rewrite H15, <- Htr. revert Hc. destruct (Z.testbit _ _), (existsb _ _); cbn; intuition congruence. }
  change (15 + 1) with 16. unfold OPCODE_CONTROL_CBOR. destruct (Z.eqb_spec (h_opcode h) 1) as [Ho | Ho].
  - rewrite payload_slice_eq by auto. cbn [obind].
    destruct (payload_slice (or_intror Ho)) as (Hps & Hpl & _).
    destruct (decode_control_message (payload_of bs h)) as [m | e |] eqn:Hm; cbn [obind].
    + intros k Hk. replace k with 16 by lia. cbn [step_ok]. fold h. intros _. by exists m.
    + destruct (decode_control_errors _ _ Hps Hm) as [_ Hr].
      unfold map_control_error, CONTROL_PAYLOAD_MAX_BYTES in *. rewrite bool_decide_false.
      * cbn. split; [lia |]. split; [| intros; lia]. fold h. rewrite Hm. naive_solver.
      * apply Hr. destruct H3 as (_ & _ & Hc1). fold h in Hc1. specialize (Hc1 Ho). lia.
    + pose proof (decode_control_spec _ Hps) as Hs. by rewrite Hm in Hs.
  - assert (H16 : step_ok opts bs declared 16) by (cbn [step_ok]; fold h; done).
    pose proof payload_slice_eq as Hs. destruct p; [| rewrite Hs by auto]; cbn;
      intros k Hk; by replace k with 16 by lia.
Qed.

Lemma parse_body_result body : parse_body bs p h = Ok body -> body_of bs p h body.
Proof using Hb Hl H4 H3 Hp ht.
  unfold parse_body, FRAME_HEADER_LENGTH, OPCODE_CONTROL_CBOR, body_of. cbv zeta. rewrite area_branch.
  destruct (decode_extension_area (area_of bs h)) as [exts | |]; cbn [obind]; [| done..]. unfold fail_if.
  destruct (negb (eqb _ _)); cbn [obind]; [done |].
  destruct (Z.eqb_spec (h_opcode h) 1) as [Ho | Ho].
  - rewrite payload_slice_eq by auto. cbn [obind].
    destruct (decode_control_message (payload_of bs h)) as [m | e |]; cbn [obind]; [| done..].
    intros [= <-]. split; [done |]. by exists m.
  - pose proof payload_slice_eq as Hs. destruct p; [| rewrite Hs by auto]; cbn [obind]; by intros [= <-].
Qed.

End Body.

(** The frame a header and a body make. *)
Definition frame_of (h : Header) (body : list R2wpExtension * FramePayload) : DecodedFrame :=
  {| df_version := h_version h; df_opcode := h_opcode h; df_flags := h_flags h;
     df_channel_id := h_channel_id h; df_sequence := h_sequence h;
     df_source_time_ns := h_source_time_ns h; df_payload_len := h_payload_len h;
     df_extension_len := h_extension_len h; df_priority := h_priority h;
     df_clock_id := h_clock_id h; df_extensions := fst body; df_payload := snd body |}.

Lemma parse_frame_spec opts bs declared :
  rust_slice bs ->
  checks (step_ok opts bs declared) 1 17 (parse_frame_declared bs declared (Some opts)) /\
  forall f, parse_frame_declared bs declared (Some opts) = Ok f ->
    exists p body, (p = true <-> host_prefix (blen bs) (header_of bs)) /\
      body_of bs p (header_of bs) body /\ f = frame_of (header_of bs) body.
Proof.
  intros Hb. unfold parse_frame_declared, FRAME_HEADER_LENGTH. split.
  - apply checks_guard; [done | lia | cbn [step_ok]; lia |]. intros Hl.
    apply checks_next; [cbn [step_ok]; lia |]. change (1 + 1) with 2.
    rewrite read_header_spec by lia. cbn [obind].
    destruct (check_sizes_spec opts bs declared (proj1 Hb) ltac:(lia)) as [Hs Hp].
    apply (checks_bind _ 2 5 17); [lia | exact Hs |]. intros p Ep H24. apply Hp in Ep.
    apply (checks_bind _ 5 13 17); [lia | by apply check_header_spec; [apply Hb | lia] |]. intros _ _ _.
    apply (checks_bind _ 13 17 17); [lia | | intros; apply checks_ret].
    apply parse_body_checks; [done | lia | apply H24; lia | apply H24; lia | done].
  - intros f. unfold fail_if. destruct (Z.ltb_spec (blen bs) 32); cbn [obind]; [done |].
    rewrite read_header_spec by lia. cbn [obind].
    destruct (check_sizes_spec opts bs declared (proj1 Hb) ltac:(lia)) as [Hs Hp].
    destruct (check_sizes _ _ _ _) as [p | |]; cbn [obind]; [| done..].
    destruct (check_header _ _); cbn [obind]; [| done..]. specialize (Hp p eq_refl).
    destruct (parse_body bs p _) as [body | |] eqn:Ebody; cbn [obind]; [| done..].
    intros [= <-]. exists p, body. split; [done |]. split; [| done].
    apply (parse_body_result opts bs declared p Hb); [lia | apply Hs; lia | apply Hs; lia | done | done].
Qed.


(** *** Keeping the body on the host *)

Definition clear_payload (f : DecodedFrame) : DecodedFrame :=
  {| df_version := df_version f; df_opcode := df_opcode f; df_flags := df_flags f;
     df_channel_id := df_channel_id f; df_sequence := df_sequence f;
     df_source_time_ns := df_source_time_ns f; df_payload_len := df_payload_len f;
     df_extension_len := df_extension_len f; df_priority := df_priority f;
     df_clock_id := df_clock_id f; df_extensions := df_extensions f;
     df_payload := Application [] |}.

Lemma header_of_prefix (pre body : bytes) : 32 <= blen pre -> header_of (pre ++ body) = header_of pre.
Proof.
  intros Hl. unfold header_of.
  assert (Hn : forall i, (i < 32)%nat -> nth i (pre ++ body) 0 = nth i pre 0).
  { intros i Hi. apply app_nth1. unfold blen in Hl. lia. }
  rewrite !Hn by lia. by rewrite !sub_list_app_l by lia.
Qed.

Lemma retain_declared_prefix {E} pre :
  bytes_ok pre -> blen pre = 32 + h_extension_len (header_of pre) ->
  h_payload_len (header_of pre) <= 67108864 ->
  retain_declared_len (E := E) pre = Ok (blen pre + h_payload_len (header_of pre)).
Proof.
  intros Hb Hl Hpl. pose proof (blen_nonneg pre).
  assert (Hl32 : 32 <= blen pre).
  { assert (0 <= h_extension_len (header_of pre)); [| lia]. apply of_be_bound.
    by apply bytes_ok_sub_list. }
  destruct (header_of_typed pre Hb Hl32) as [_ _ _ _ _ _ [Hp0 _] [He0 He1] _ _].
  pose proof usize_max_ge. unfold u32_max in *.
  unfold retain_declared_len, frame_declared_total, FRAME_HEADER_LENGTH. zcmp.
  rewrite !slice_ok by lia. cbn [obind]. change (28 - 24) with 4. change (30 - 28) with 2.
  change (of_be (sub_list pre 24 4)) with (h_payload_len (header_of pre)).
  change (of_be (sub_list pre 28 2)) with (h_extension_len (header_of pre)).
  rewrite checked_add_some by lia. rewrite checked_add_some by lia.
  destruct (Z.eqb_spec (blen pre) (32 + h_extension_len (header_of pre) + h_payload_len (header_of pre)));
    [f_equal; lia |].
  unfold read_u16_be. rewrite read_at_spec by (cbn; lia). cbn [obind].
  change (of_be (sub_list pre 28 (Z.of_nat 2))) with (h_extension_len (header_of pre)).
  rewrite usize_add_small by lia. zcmp. f_equal. lia.
Qed.

Section Retain.
Variables (opts : FrameOptions) (pre body : bytes).
Let h := header_of pre.
Hypothesis Hb : rust_slice (pre ++ body).
Hypothesis Hpre : blen pre = 32 + h_extension_len h.
Hypothesis Hbody : blen body = h_payload_len h.
Hypothesis Hpos : 0 < h_payload_len h.
Hypothesis Hop : 2 <= h_opcode h <= 12.

Lemma pre_facts : bytes_ok pre /\ 32 <= blen pre /\ header_typed h.
Proof using Hb Hpre.
  destruct Hb as [Hb1 _]. apply bytes_ok_app in Hb1 as [Hp _].
  assert (32 <= blen pre).
  { assert (0 <= h_extension_len h); [| lia]. apply of_be_bound. by apply bytes_ok_sub_list. }
  split_and!; [done | done | by apply header_of_typed].
Qed.

(** The size checks differ only in what they say about the prefix. *)
Lemma check_sizes_retain :
  check_sizes opts (blen pre) (blen (pre ++ body)) h =
  match check_sizes opts (blen (pre ++ body)) (blen (pre ++ body)) h with
  | Ok _ => Ok true | Err e => Err e | Panic => Panic
  end /\
  forall p, check_sizes opts (blen (pre ++ body)) (blen (pre ++ body)) h = Ok p -> p = false.
Proof using Hb Hpre Hbody Hpos Hop.
  destruct pre_facts as (_ & Hl & [_ _ _ _ _ _ [Hp0 Hp1] [He0 He1] _ _]). fold h in Hp0, Hp1, He0, He1.
  pose proof usize_max_ge. unfold u32_max in *. rewrite blen_app, Hbody.
  unfold check_sizes, FRAME_EXTENSION_MAX_BYTES, FRAME_PAYLOAD_MAX_BYTES, EXTENSION_AREA_MAX_BYTES,
    checked_add_frame, FRAME_HEADER_LENGTH, fail_if.
  destruct (negb (h_version h =? _)); [done |]. destruct (Z.ltb_spec 4096 (h_extension_len h)); [done |].
  destruct (Z.ltb_spec 67108864 (h_payload_len h)); [done |]. cbn [obind].
  destruct ((h_opcode h =? OPCODE_CONTROL_CBOR) && _); [done |]. cbn [obind].
  rewrite checked_add_some by lia. cbn [ok_or obind]. rewrite checked_add_some by lia. cbn [ok_or obind].
  rewrite Hpre. zcmp. cbn [obind].
  assert (Hr : opcode_allows_host_retain (h_opcode h) = true) by by apply host_retain_range.
  rewrite Hr. zcmp. cbn [obind]. zcmp. cbn [obind].
  split; [done | by intros p [= <-]].
Qed.

Lemma parse_body_retain :
  parse_body pre true h =
  match parse_body (pre ++ body) false h with
  | Ok b => Ok (fst b, Application []) | Err e => Err e | Panic => Panic
  end.
Proof using Hb Hpre Hbody Hpos Hop.
  destruct pre_facts as (Hbp & Hl & [_ _ _ _ _ _ [Hp0 Hp1] [He0 He1] _ _]). fold h in Hp0, Hp1, He0, He1.
  unfold parse_body, FRAME_HEADER_LENGTH, OPCODE_CONTROL_CBOR. cbv zeta.
  rewrite (slice_ok pre 32), (slice_ok (pre ++ body) 32) by (rewrite ?blen_app; lia).
  rewrite (sub_list_app_l pre body 32) by lia. zcmp.
  match goal with |- obind ?a _ = match obind ?a _ with _ => _ end => destruct a as [exts | |] end;
    cbn [obind]; [| done..].
  destruct (fail_if _ _); cbn [obind]; [| done..].
  rewrite slice_ok by (rewrite ?blen_app; lia). done.
Qed.

End Retain.

(** Keeping the body on the host is transparent: for an application frame
    (opcode 2 to 12) with a payload, validating only the header and extension
    area against the size [retain_declared_len] reads from the header gives
    the same error, or the same frame with an empty payload, as validating the
    complete frame. *)
Theorem host_retain_transparent opts pre body :
  rust_slice (pre ++ body) ->
  blen pre = 32 + h_extension_len (header_of pre) -> blen body = h_payload_len (header_of pre) ->
  0 < h_payload_len (header_of pre) <= FRAME_PAYLOAD_MAX_BYTES ->
  2 <= h_opcode (header_of pre) <= 12 ->
  retain_declared_len (E := ProtocolError) pre = Ok (blen (pre ++ body)) /\
  parse_frame_declared pre (blen (pre ++ body)) (Some opts) =
    match parse_frame (pre ++ body) (Some opts) with
    | Ok f => Ok (clear_payload f) | Err e => Err e | Panic => Panic
    end.
Proof.
  unfold FRAME_PAYLOAD_MAX_BYTES. intros Hb Hpre Hbody [Hpos Hmax] Hop.
  destruct (pre_facts pre body Hb Hpre) as (Hbp & Hl & _).
  split; [rewrite blen_app, Hbody; by apply retain_declared_prefix |].
  unfold parse_frame, parse_frame_declared, fail_if, FRAME_HEADER_LENGTH.
  pose proof (blen_nonneg body). pose proof (blen_app pre body). zcmp. cbn [obind].
  rewrite !read_header_spec, header_of_prefix by (rewrite ?blen_app; lia). cbn [obind].
  destruct (check_sizes_retain opts pre body Hb Hpre Hbody Hpos Hop) as [-> Hp].
  destruct (check_sizes opts _ _ _) as [p | |]; cbn [obind]; [| done..].
  rewrite (Hp p eq_refl). destruct (check_header _ _); cbn [obind]; [| done..].
  rewrite (parse_body_retain pre body Hb Hpre Hbody Hpos Hop).
  destruct (parse_body (pre ++ body) false _) as [b | |]; done.
Qed.

(** ** What the writers write *)

(** Filling a buffer from the left: the next field goes behind what is written. *)
Lemma copy_next {E} i src pre (out : bytes) :
  i = blen pre -> blen pre + blen src <= blen out ->
  copy_at (E := E) i src (pre ++ drop (Z.to_nat (blen pre)) out) =
    Ok ((pre ++ src) ++ drop (Z.to_nat (blen (pre ++ src))) out).
Proof.
  intros -> Hl. unfold copy_at. pose proof (blen_nonneg pre). pose proof (blen_nonneg src).
  assert (Hd : blen (drop (Z.to_nat (blen pre)) out) = blen out - blen pre).
  { unfold blen in *. rewrite length_drop. lia. }
  rewrite blen_app, Hd. zcmp. rewrite sub_list_head, <- app_assoc. do 3 f_equal.
  rewrite sub_list_app_r by lia.
  replace (blen pre + blen src - blen pre) with (blen src) by lia.
  unfold sub_list. rewrite drop_drop, blen_app, Z2Nat.inj_add by lia.
  apply take_ge. rewrite length_drop. unfold blen in *. lia.
Qed.

(** The header on the wire. *)
Definition wire_header (fh : FrameHeader) (payload_len extension_len : Z) : Header :=
  {| h_version := fh_version fh; h_opcode := fh_opcode fh; h_flags := fh_flags fh;
     h_channel_id := fh_channel_id fh; h_sequence := fh_sequence fh;
     h_source_time_ns := fh_source_time_ns fh; h_payload_len := payload_len;
     h_extension_len := extension_len; h_priority := fh_priority fh; h_clock_id := fh_clock_id fh |}.

Lemma write_frame_header_spec fh payload_len extension_len out :
  32 <= blen out ->
  write_frame_header fh payload_len extension_len out =
    if FRAME_PAYLOAD_MAX_BYTES <? payload_len then Err (encode_error "payload_too_large")
    else if (fh_opcode fh =? OPCODE_CONTROL_CBOR) && (CONTROL_PAYLOAD_MAX_BYTES <? payload_len)
    then Err (encode_error "control_payload_too_large")
    else Ok (header_bytes (wire_header fh payload_len extension_len) ++ drop 32 out).
Proof.
  intros Hl. unfold write_frame_header, fail_if, FRAME_HEADER_LENGTH. zcmp. cbn [obind].
  destruct (_ <? payload_len); cbn [obind]; [done |].
  destruct (_ && _); cbn [obind]; [done |].
  change out with ([] ++ drop (Z.to_nat (blen (@nil Z))) out) at 1.
  do 9 (rewrite copy_next; [cbn [obind] | done | apply (Z.le_trans _ 32); [apply Z.leb_le; reflexivity | exact Hl]]).
  rewrite copy_next; [| done | apply (Z.le_trans _ 32); [apply Z.leb_le; reflexivity | exact Hl]]. rewrite <- !app_assoc. done.
Qed.

Lemma fill_frame {E} hd area payload (z : bytes) :
  blen hd = 32 -> blen z = 32 + blen area + blen payload ->
  (out <-- copy_at (E := E) 32 area (hd ++ drop 32 z) ;; copy_at (32 + blen area) payload out)
    = Ok (hd ++ area ++ payload).
Proof.
  intros Hh Hz. pose proof (blen_nonneg payload).
  change (drop 32 z) with (drop (Z.to_nat 32) z). rewrite <- Hh at 2.
  rewrite (copy_next 32 area hd z) by lia. cbn [obind].
  rewrite (copy_next (32 + blen area) payload (hd ++ area) z) by (rewrite blen_app; lia).
  rewrite (drop_ge z); [by rewrite app_nil_r, app_assoc |].
  rewrite !blen_app. unfold blen in *. lia.
Qed.

Lemma encode_frame_spec fh area payload :
  match encode_frame fh area payload with
  | Ok bs => bs = header_bytes (wire_header fh (blen payload) (blen area)) ++ area ++ payload /\
      blen area mod 4 = 0 /\ blen area <= 4096 /\ blen payload <= 67108864 /\
      (fh_opcode fh = 1 -> blen payload <= 1048576)
  | Err _ => ~ (blen area mod 4 = 0 /\ blen area <= 4096 /\ blen payload <= 67108864 /\
                (fh_opcode fh = 1 -> blen payload <= 1048576))
  | Panic => False
  end.
Proof.
  unfold encode_frame, fail_if, EXTENSION_AREA_MAX_BYTES, FRAME_HEADER_LENGTH.
  pose proof (blen_nonneg area). pose proof (blen_nonneg payload).
  destruct (Z.eqb_spec (blen area mod 4) 0), (Z.ltb_spec 4096 (blen area)); cbn [negb orb obind]; try lia.
  unfold FRAME_PAYLOAD_MAX_BYTES. destruct (Z.ltb_spec 67108864 (blen payload)); cbn [obind]; [lia |].
  rewrite !as_unsigned_small by (unfold is_unsigned; lia).
  assert (Hz : blen (zeros (32 + blen area + blen payload)) = 32 + blen area + blen payload)
    by (apply blen_zeros; lia).
  rewrite write_frame_header_spec by lia. unfold FRAME_PAYLOAD_MAX_BYTES, OPCODE_CONTROL_CBOR,
    CONTROL_PAYLOAD_MAX_BYTES. zcmp.
  destruct (Z.eqb_spec (fh_opcode fh) 1), (Z.ltb_spec 1048576 (blen payload)); cbn [andb obind]; try lia.
  all: rewrite fill_frame by done; (split; [done | lia]).
Qed.

(** Sender-side values that fit their fields. *)
Definition fields_typed (fh : FrameHeader) : Prop :=
  is_byte (fh_version fh) /\ is_byte (fh_opcode fh) /\ is_unsigned 16 (fh_flags fh) /\
  is_unsigned 32 (fh_channel_id fh) /\ is_unsigned 64 (fh_sequence fh) /\
  is_signed 64 (fh_source_time_ns fh) /\ is_byte (fh_priority fh) /\ is_byte (fh_clock_id fh).

Lemma header_bytes_ok h : header_typed h -> bytes_ok (header_bytes h).
Proof.
  intros []. unfold header_bytes.
  repeat first [apply bytes_ok_to_be | constructor; [assumption | exact bytes_ok_nil] | apply bytes_ok_app; split].
Qed.

Lemma encoded_frame fh area payload bs :
  fields_typed fh -> bytes_ok area -> bytes_ok payload -> encode_frame fh area payload = Ok bs ->
  rust_slice bs /\ blen bs = 32 + blen area + blen payload /\
  header_of bs = wire_header fh (blen payload) (blen area) /\
  area_of bs (header_of bs) = area /\ payload_of bs (header_of bs) = payload.
Proof.
  intros (? & ? & ? & ? & ? & ? & ? & ?) Ha Hp He.
  pose proof (encode_frame_spec fh area payload) as Hs. rewrite He in Hs.
  destruct Hs as (-> & Hm & Hal & Hpl & Hc). pose proof isize_max_ge.
  pose proof (blen_nonneg area). pose proof (blen_nonneg payload).
  set (h := wire_header fh (blen payload) (blen area)).
  assert (Ht : header_typed h).
  { constructor; cbn; try done; unfold is_unsigned; lia. }
  pose proof (header_bytes_len h) as Hl. rewrite header_of_bytes by done.
  assert (Hlen : blen (header_bytes h ++ area ++ payload) = 32 + blen area + blen payload)
    by (rewrite !blen_app; lia).
  split_and!.
  - split; [| lia]. apply bytes_ok_app. split; [by apply header_bytes_ok | by apply bytes_ok_app].
  - done.
  - done.
  - unfold area_of. cbn [h_extension_len h wire_header]. rewrite <- Hl. by apply sub_list_mid.
  - unfold payload_of. cbn [h_extension_len h_payload_len h wire_header].
    rewrite <- Hl, <- blen_app, app_assoc, sub_list_app_r by lia. rewrite Z.sub_diag.
    by apply sub_list_all.
Qed.

(** Encode, then parse: a frame the encoder writes never fails the size
    rules (steps 1, 3 and 4), and when the receiver accepts it the decoded
    frame has the sender's header fields, the lengths of the sender's buffers,
    the decoded extension area and the payload, as control message or as
    bytes. *)
Theorem frame_encode_parse opts fh area payload bs :
  fields_typed fh -> bytes_ok area -> bytes_ok payload -> encode_frame fh area payload = Ok bs ->
  match parse_frame bs (Some opts) with
  | Ok f =>
      (df_version f, df_opcode f, df_flags f, df_channel_id f, df_sequence f, df_source_time_ns f,
       df_priority f, df_clock_id f) =
      (fh_version fh, fh_opcode fh, fh_flags fh, fh_channel_id fh, fh_sequence fh,
       fh_source_time_ns fh, fh_priority fh, fh_clock_id fh) /\
      df_payload_len f = blen payload /\ df_extension_len f = blen area /\
      decode_extension_area area = Ok (df_extensions f) /\
      (if fh_opcode fh =? OPCODE_CONTROL_CBOR
       then exists m, decode_control_message payload = Ok m /\ df_payload f = Control m
       else df_payload f = Application payload)
  | Err e => pe_step e = 2 \/ 5 <= pe_step e <= 16
  | Panic => False
  end.
Proof.
  intros Hf Ha Hp He. destruct (encoded_frame fh area payload bs Hf Ha Hp He) as (Hb & Hl & Hh & Har & Hpay).
  pose proof (encode_frame_spec fh area payload) as Hs. rewrite He in Hs.
  destruct Hs as (_ & _ & Hal & Hpl & Hc). pose proof (blen_nonneg area). pose proof (blen_nonneg payload).
  unfold parse_frame. destruct (parse_frame_spec opts bs (blen bs) Hb) as [Hck Hr].
  destruct (parse_frame_declared bs (blen bs) (Some opts)) as [f | e |]; [| | done].
  - destruct (Hr f eq_refl) as (p & body & Hpre & [Hd Hb2] & ->). rewrite Har in Hd.
    rewrite Hpay in Hb2. rewrite Hh in *. cbn [frame_of df_version df_opcode df_flags df_channel_id
      df_sequence df_source_time_ns df_priority df_clock_id df_payload_len df_extension_len
      df_extensions df_payload wire_header h_version h_opcode h_flags h_channel_id h_sequence
      h_source_time_ns h_payload_len h_extension_len h_priority h_clock_id].
    cbn [wire_header h_opcode] in Hb2. split_and!; try done. unfold OPCODE_CONTROL_CBOR.
    destruct (fh_opcode fh =? 1); [done |].
    destruct p; [| done]. exfalso. destruct (proj1 Hpre eq_refl) as (Hpre1 & Hpre2 & _).
    cbn [wire_header h_extension_len h_payload_len] in *. lia.
  - cbn in Hck. destruct Hck as (Hr1 & Hn & _).
    assert (pe_step e <> 1 /\ pe_step e <> 3 /\ pe_step e <> 4); [| lia].
    split_and!; intros Es; rewrite Es in Hn; apply Hn; cbn [step_ok]; rewrite ?Hh;
      cbn [wire_header h_extension_len h_payload_len h_opcode]; lia.
Qed.

(** A frame whose header passes the header rules and whose areas decode is read
    back as it was written. *)
Lemma encoded_frame_parses opts fh area payload bs exts body :
  fields_typed fh -> bytes_ok area -> bytes_ok payload -> encode_frame fh area payload = Ok bs ->
  fh_version fh = selected_version opts ->
  check_header opts (wire_header fh (blen payload) (blen area)) = Ok tt ->
  decode_extension_area area = Ok exts ->
  Z.land (fh_flags fh) FLAG_TRACE_PRESENT = 0 ->
  existsb (fun e => ext_type_id e =? TRACE_CONTEXT_EXTENSION_TYPE) exts = false ->
  match body with
  | Control m => fh_opcode fh = 1 /\ decode_control_message payload = Ok m
  | Application data => fh_opcode fh <> 1 /\ data = payload
  end ->
  parse_frame bs (Some opts) = Ok (frame_of (wire_header fh (blen payload) (blen area)) (exts, body)).
Proof.
  intros Hf Ha Hp He Hv Hch Hd Htr Hx Hbody.
  destruct (encoded_frame fh area payload bs Hf Ha Hp He) as (Hb & Hl & Hh & Har & Hpay).
  pose proof (encode_frame_spec fh area payload) as Hs. rewrite He in Hs. destruct Hs as (_ & _ & Hal & Hpl & Hc).
  pose proof (blen_nonneg area). pose proof (blen_nonneg payload).
  assert (Hsteps : forall k, 2 <= k < 5 -> step_ok opts bs (blen bs) k).
  { intros k Hk. assert (k = 2 \/ k = 3 \/ k = 4) as [-> | [-> | ->]] by lia; cbn [step_ok]; rewrite Hh;
      cbn [wire_header h_version h_extension_len h_payload_len h_opcode]; lia. }
  destruct (check_sizes_spec opts bs (blen bs) (proj1 Hb) ltac:(lia)) as [Hck Hpre].
  unfold parse_frame, parse_frame_declared, fail_if, FRAME_HEADER_LENGTH.
  destruct (Z.ltb_spec (blen bs) 32); [lia |]. cbn [obind]. rewrite read_header_spec by lia. cbn [obind].
  destruct (check_sizes opts (blen bs) (blen bs) (header_of bs)) as [p | e |] eqn:Es; [| | done].
  2: { destruct Hck as (Hr & Hn & _). destruct Hn. apply Hsteps. lia. }
  specialize (Hpre p eq_refl). cbn [obind]. rewrite Hh at 1. rewrite Hch. cbn [obind].
  unfold parse_body, FRAME_HEADER_LENGTH. cbv zeta.
  rewrite (area_branch opts bs (blen bs) Hb ltac:(lia) (Hsteps 4 ltac:(lia))).
  rewrite Har, Hd, Hh. cbn [obind wire_header h_flags h_opcode h_extension_len h_payload_len].
  rewrite Htr, Hx. cbn [Z.eqb negb eqb fail_if obind].
  assert (p = false) as ->.
  { destruct p; [| done]. destruct (proj1 Hpre eq_refl) as (E & Hpos & _). rewrite Hh in E, Hpos.
    cbn [wire_header h_extension_len h_payload_len] in E, Hpos. lia. }
  assert (Hsl : forall E, slice (E := E) bs (32 + blen area) (32 + blen area + blen payload) = Ok payload).
  { intros E. rewrite slice_ok by lia. rewrite Hh in Hpay. unfold payload_of in Hpay.
    cbn [wire_header h_extension_len h_payload_len] in Hpay.
    replace (32 + blen area + blen payload - (32 + blen area)) with (blen payload) by lia. by rewrite Hpay. }
  unfold OPCODE_CONTROL_CBOR. destruct body as [data | m].
  - destruct Hbody as [Ho ->]. destruct (Z.eqb_spec (fh_opcode fh) 1); [done |]. by rewrite Hsl.
  - destruct Hbody as [Ho Hm]. rewrite Ho. cbn [Z.eqb Pos.eqb]. rewrite Hsl. cbn [obind]. rewrite Hm.
    unfold frame_of, wire_header. cbn. by rewrite Ho.
Qed.

(** The header of a control frame, and the frame a control message makes. *)
Definition control_header (version sequence : Z) : FrameHeader :=
  {| fh_version := version; fh_opcode := OPCODE_CONTROL_CBOR; fh_flags := 0;
     fh_channel_id := 0; fh_sequence := sequence; fh_source_time_ns := 0;
     fh_priority := PRIORITY_CONTROL; fh_clock_id := 0 |}.
Definition control_frame (version sequence len : Z) (m : ControlMessage) : DecodedFrame :=
  frame_of (wire_header (control_header version sequence) len 0) ([], Control m).

Lemma control_frame_parses opts sequence message payload m :
  is_byte (selected_version opts) -> is_unsigned 64 sequence ->
  rust_slice payload -> encode_deterministic_cbor message = Ok payload -> decode_control_message payload = Ok m ->
  exists bs, encode_control_frame (selected_version opts) sequence message = Ok bs /\
    parse_frame bs (Some opts) = Ok (control_frame (selected_version opts) sequence (blen payload) m).
Proof.
  intros Hv Hseq Hpl Henc Hm. unfold encode_control_frame. rewrite Henc. cbn [obind].
  fold (control_header (selected_version opts) sequence). set (fh := control_header _ _).
  pose proof (decode_control_spec payload Hpl) as Hd. rewrite Hm in Hd.
  destruct Hd as (es & Hlen & _). unfold CONTROL_PAYLOAD_MAX_BYTES in Hlen.
  pose proof (encode_frame_spec fh [] payload) as Hs.
  assert (Hfit : blen (@nil Z) mod 4 = 0 /\ blen (@nil Z) <= 4096 /\ blen payload <= 67108864 /\
    (fh_opcode fh = 1 -> blen payload <= 1048576)) by (split_and!; (done || lia)).
  destruct (encode_frame fh [] payload) as [bs | |] eqn:He; [| tauto | done].
  exists bs. split; [done |]. apply (encoded_frame_parses opts fh [] payload bs []); try done.
  - exact bytes_ok_nil.
  - apply Hpl.
Qed.

(** A control message survives forwarding: writing the fields of an
    accepted message as a control frame succeeds, and a receiver of the same
    version reads back that message under the chosen sequence number. *)
Theorem control_frame_round_trip opts sequence payload m entries :
  is_byte (selected_version opts) -> is_unsigned 64 sequence ->
  rust_slice payload -> decode_control_message payload = Ok m ->
  Permutation entries (map_to_list (cm_fields m)) ->
  exists bs f, encode_control_frame (selected_version opts) sequence (Map entries) = Ok bs /\
    parse_frame bs (Some opts) = Ok f /\ df_payload f = Control m /\ df_sequence f = sequence.
Proof.
  intros Hv Hseq Hpl Hm Hperm.
  destruct (control_frame_parses opts sequence (Map entries) payload m Hv Hseq Hpl
    (reencode_message payload m entries Hpl Hm Hperm) Hm) as (bs & He & Hp).
  by exists bs, (control_frame (selected_version opts) sequence (blen payload) m).
Qed.

End Steps.

(** A sample frame: opcode 2, channel 7, three payload bytes, no extensions. *)
Definition sample_header : FrameHeader :=
  {| fh_version := 0; fh_opcode := OPCODE_ROS_SAMPLE; fh_flags := FLAG_ROS_RELIABLE;
     fh_channel_id := 7; fh_sequence := 5; fh_source_time_ns := -4; fh_priority := 2; fh_clock_id := 1 |}.
Definition sample_prefix : bytes := header_bytes (wire_header sample_header 3 0).
Definition sample_frame : bytes := sample_prefix ++ [1; 2; 3].

Lemma sample_frame_slice : rust_slice (H := Wasm32) sample_frame.
Proof. split; [by apply bytes_ok_check; vm_compute | by vm_compute]. Qed.


Lemma host_retain_transparent_witness :
  parse_frame_declared (H := Wasm32) sample_prefix 35 (Some default_options) =
    match parse_frame (H := Wasm32) sample_frame (Some default_options) with
    | Ok f => Ok (clear_payload f) | Err e => Err e | Panic => Panic
    end /\
  is_ok (parse_frame (H := Wasm32) sample_frame (Some default_options)) = true.
Proof.
  split; [| by vm_compute].
  apply (host_retain_transparent (H := Wasm32) default_options sample_prefix [1; 2; 3] sample_frame_slice);
    by vm_compute.
Defined.

Lemma frame_encode_parse_witness :
  exists f, parse_frame (H := Wasm32) sample_frame (Some default_options) = Ok f /\
    df_payload f = Application [1; 2; 3] /\ df_sequence f = 5.
Proof.
  pose proof (frame_encode_parse (H := Wasm32) default_options sample_header [] [1; 2; 3] sample_frame
    ltac:(split_and!; by vm_compute) bytes_ok_nil ltac:(by apply bytes_ok_check; vm_compute)
    ltac:(by vm_compute)) as Hf.
  vm_compute (parse_frame _ _) in Hf.
  destruct Hf as (Hfields & _ & _ & _ & Hpay).
  eexists. split; [vm_compute; reflexivity |]. split; [exact Hpay | vm_compute; reflexivity].
Defined.

Lemma control_frame_round_trip_witness :
  exists bs f,
    encode_control_frame (H := Wasm32) 0 9 (Map (map_to_list (cm_fields sample_close_message))) = Ok bs /\
    parse_frame (H := Wasm32) bs (Some default_options) = Ok f /\
    df_payload f = Control sample_close_message /\ df_sequence f = 9.
Proof.
  apply (control_frame_round_trip (H := Wasm32) default_options 9 sample_close_bytes
    sample_close_message); [by vm_compute | by vm_compute | exact sample_close_slice
    | exact sample_close_decodes | reflexivity].
Defined.
