(* ===== verification/Bootstrap.v ===== *)
(** * Bootstrap records

    [rclweb/src/protocol/bootstrap.rs] (the receiver's validation steps 1-9)
    and the bootstrap encoders of [rclweb/src/protocol/encode.rs]. *)

From stdpp Require Import sorting.
From Stdlib Require Import Sorting.Sorted.
From S2P Require Import Prelude Utf8 ProtocolError Cbor ControlSchema Control Frame.
#[local] Open Scope Z_scope.

Definition BOOTSTRAP_PREFIX_LENGTH : Z := 12.
Definition BOOTSTRAP_PAYLOAD_MAX_BYTES : Z := 65535.
Definition MAGIC : bytes := [0x52; 0x32; 0x57; 0x50].
Definition BOOTSTRAP_VERSION : Z := 0.
Definition KIND_CLIENT_HELLO : Z := 1.
Definition KIND_SERVER_HELLO : Z := 2.
Definition KIND_BOOTSTRAP_ERROR : Z := 3.
Definition UTF8_TEXT_MAX_BYTES : Z := 4096.
Definition WIRE_VERSIONS_MAX : Z := 16.
Definition CAPABILITY_IDS_MAX : Z := 64.
Definition CAPABILITY_ID_MIN : Z := 1.
Definition CAPABILITY_ID_MAX : Z := 65535.
Definition EFFECTIVE_MAX_CHANNELS : Z := 65535.
Definition EFFECTIVE_MAX_SESSION_BYTES : Z := 4294967296.
Definition EFFECTIVE_MAX_MESSAGE_BYTES : Z := 67108864.
Definition EFFECTIVE_MAX_CONTROL_PAYLOAD_BYTES : Z := 1048576.
Definition BOOTSTRAP_ERROR_CODES : list Z := [1; 2; 4; 16; 24; 25].

Record TransportCapabilities := {
  webtransport_http3 : bool; binary_wss : bool; max_datagram_size : option Z
}.
Record BufferCapabilities := { transferable_arraybuffer : bool; shared_arraybuffer : bool }.
Record RequestedLimits := {
  rl_max_channels : option Z; rl_max_session_bytes : option Z;
  rl_max_message_bytes : option Z; rl_max_control_payload_bytes : option Z
}.
Record EffectiveLimits := {
  el_max_channels : Z; el_max_session_bytes : Z;
  el_max_message_bytes : Z; el_max_control_payload_bytes : Z
}.
Record ClientHello := {
  wire_versions : list Z;
  ch_transport : TransportCapabilities;
  ch_buffer : BufferCapabilities;
  requested_limits : RequestedLimits;
  ch_extensions : list Z
}.
Record ServerHello := {
  selected_wire_version : Z;
  sh_transport : TransportCapabilities;
  sh_buffer : BufferCapabilities;
  effective_limits : EffectiveLimits;
  sh_extensions : list Z
}.
Record BootstrapErrorRecord := {
  be_code : Z; be_message : option bytes; be_detail : option bytes
}.
Inductive BootstrapRecord :=
| RClientHello (h : ClientHello)
| RServerHello (h : ServerHello)
| RBootstrapError (e : BootstrapErrorRecord).

Abbreviation P := (outcome ProtocolError).
Abbreviation entries_t := (list (Z * CborValue)).

(** The five locals the hello decoders fill while they walk the map. *)
Record HelloLocals (A B : Type) := mk_locals {
  lo_first : option A;
  lo_transport : option TransportCapabilities;
  lo_buffer : option BufferCapabilities;
  lo_limits : option B;
  lo_caps : option (list Z)
}.
Arguments mk_locals {A B} _ _ _ _ _.
Arguments lo_first {A B} _.
Arguments lo_transport {A B} _.
Arguments lo_buffer {A B} _.
Arguments lo_limits {A B} _.
Arguments lo_caps {A B} _.

Section Parser.
Context `{Target}.

Definition map_cbor_error (err : CborError) (payload_base : Z) : ProtocolError :=
  malformed_bootstrap "cbor_profile" (Z.min usize_max (payload_base + cbor_offset err)) 8.

Definition as_map (value : CborValue) (offset : Z) : P entries_t :=
  match value with Map m => Ok m | _ => Err (malformed_bootstrap "wrong_type" offset 9) end.

Definition require_exact_keys (m : entries_t) (required optional : list Z) (offset : Z) : P unit :=
  fail_if (existsb (fun '(key, _) => negb (existsb (Z.eqb key) required) &&
                                     negb (existsb (Z.eqb key) optional)) m)
    (malformed_bootstrap "unknown_key" offset 9) ;;?
  fail_if (existsb (fun key => negb (existsb (fun '(k, _) => k =? key) m)) required)
    (malformed_bootstrap "missing_key" offset 9).

Fixpoint get_key (m : entries_t) (key : Z) : option CborValue :=
  match m with
  | [] => None
  | (k, v) :: m' => if k =? key then Some v else get_key m' key
  end.

(** [get(..).unwrap()]. *)
Definition must_get (m : entries_t) (key : Z) : P CborValue :=
  match get_key m key with Some v => Ok v | None => Panic end.

Definition as_bool (value : CborValue) (offset : Z) : P bool :=
  match value with Bool b => Ok b | _ => Err (malformed_bootstrap "wrong_type" offset 9) end.

Definition as_uint_range (value : CborValue) (offset min max : Z) : P Z :=
  match value with
  | Unsigned n | Negative n =>
      if (n <? min) || (max <? n) then Err (malformed_bootstrap "range_violation" offset 9) else Ok n
  | _ => Err (malformed_bootstrap "wrong_type" offset 9)
  end.
Definition as_uint32 (value : CborValue) (offset : Z) : P Z := as_uint_range value offset 0 u32_max.
Definition as_uint8 (value : CborValue) (offset : Z) : P Z := as_uint_range value offset 0 255.

Definition as_text (value : CborValue) (offset : Z) : P bytes :=
  match value with
  | Text t =>
      if UTF8_TEXT_MAX_BYTES <? blen t then Err (malformed_bootstrap "text_too_long" offset 9) else Ok t
  | _ => Err (malformed_bootstrap "wrong_type" offset 9)
  end.

Definition as_array (value : CborValue) (offset : Z) : P (list CborValue) :=
  match value with Array a => Ok a | _ => Err (malformed_bootstrap "wrong_type" offset 9) end.

(** [if let Some(v) = get(..) { field = Some(f(v)?) }]. *)
Definition opt_get {A} (m : entries_t) (key : Z) (f : CborValue -> P A) : P (option A) :=
  match get_key m key with
  | Some v => a <-- f v ;; Ok (Some a)
  | None => Ok None
  end.

Definition decode_transport (value : CborValue) (offset : Z) : P TransportCapabilities :=
  m <-- as_map value offset ;;
  require_exact_keys m [1; 2] [3] offset ;;?
  v1 <-- must_get m 1 ;; webtransport <-- as_bool v1 offset ;;
  v2 <-- must_get m 2 ;; wss <-- as_bool v2 offset ;;
  size <-- opt_get m 3 (fun v => as_uint32 v offset) ;;
  Ok {| webtransport_http3 := webtransport; binary_wss := wss; max_datagram_size := size |}.

Definition decode_buffer (value : CborValue) (offset : Z) : P BufferCapabilities :=
  m <-- as_map value offset ;;
  require_exact_keys m [1; 2] [] offset ;;?
  v1 <-- must_get m 1 ;; transferable <-- as_bool v1 offset ;;
  v2 <-- must_get m 2 ;; shared <-- as_bool v2 offset ;;
  Ok {| transferable_arraybuffer := transferable; shared_arraybuffer := shared |}.

(** The loop of [decode_wire_versions]; [seen] is the set of versions so far. *)
Fixpoint wire_version_loop (arr : list CborValue) (seen : list Z) (offset : Z) : P (list Z) :=
  match arr with
  | [] => Ok []
  | el :: arr' =>
      v <-- as_uint8 el offset ;;
      if existsb (Z.eqb v) seen then Err (malformed_bootstrap "unique_violation" offset 9)
      else out <-- wire_version_loop arr' (v :: seen) offset ;; Ok (v :: out)
  end.

Definition decode_wire_versions (value : CborValue) (offset : Z) : P (list Z) :=
  arr <-- as_array value offset ;;
  if (blen arr =? 0) || (WIRE_VERSIONS_MAX <? blen arr) then
    Err (malformed_bootstrap "range_violation" offset 9)
  else wire_version_loop arr [] offset.

Fixpoint capability_loop (arr : list CborValue) (prev : option Z) (offset : Z) : P (list Z) :=
  match arr with
  | [] => Ok []
  | el :: arr' =>
      id <-- as_uint_range el offset CAPABILITY_ID_MIN CAPABILITY_ID_MAX ;;
      match prev with
      | Some p =>
          if id =? p then Err (malformed_bootstrap "unique_violation" offset 9)
          else if id <? p then Err (malformed_bootstrap "order_violation" offset 9)
          else out <-- capability_loop arr' (Some id) offset ;; Ok (id :: out)
      | None => out <-- capability_loop arr' (Some id) offset ;; Ok (id :: out)
      end
  end.

Definition decode_extension_capabilities (value : CborValue) (offset : Z) : P (list Z) :=
  arr <-- as_array value offset ;;
  if CAPABILITY_IDS_MAX <? blen arr then Err (malformed_bootstrap "range_violation" offset 9)
  else capability_loop arr None offset.

Definition decode_requested_limits (value : CborValue) (offset : Z) : P RequestedLimits :=
  m <-- as_map value offset ;;
  require_exact_keys m [] [1; 2; 3; 4] offset ;;?
  a <-- opt_get m 1 (fun v => as_uint32 v offset) ;;
  b <-- opt_get m 2 (fun v => as_uint_range v offset 0 u64_max) ;;
  c <-- opt_get m 3 (fun v => as_uint32 v offset) ;;
  d <-- opt_get m 4 (fun v => as_uint32 v offset) ;;
  Ok {| rl_max_channels := a; rl_max_session_bytes := b; rl_max_message_bytes := c;
        rl_max_control_payload_bytes := d |}.

Definition decode_effective_limits (value : CborValue) (offset : Z) : P EffectiveLimits :=
  m <-- as_map value offset ;;
  require_exact_keys m [1; 2; 3; 4] [] offset ;;?
  v1 <-- must_get m 1 ;; a <-- as_uint_range v1 offset 0 EFFECTIVE_MAX_CHANNELS ;;
  v2 <-- must_get m 2 ;; b <-- as_uint_range v2 offset 0 EFFECTIVE_MAX_SESSION_BYTES ;;
  v3 <-- must_get m 3 ;; c <-- as_uint_range v3 offset 0 EFFECTIVE_MAX_MESSAGE_BYTES ;;
  v4 <-- must_get m 4 ;; d <-- as_uint_range v4 offset 0 EFFECTIVE_MAX_CONTROL_PAYLOAD_BYTES ;;
  Ok {| el_max_channels := a; el_max_session_bytes := b; el_max_message_bytes := c;
        el_max_control_payload_bytes := d |}.

(** [.unwrap()] on a local. *)
Definition unwrap {A} (o : option A) : P A := match o with Some a => Ok a | None => Panic end.

Fixpoint hello_loop {A B} (first : CborValue -> P A) (limits : CborValue -> P B)
    (offset : Z) (m : entries_t) (l : HelloLocals A B) : P (HelloLocals A B) :=
  match m with
  | [] => Ok l
  | (k, v) :: m' =>
      l' <--
        (if k =? 1 then
           x <-- first v ;;
           Ok (mk_locals (Some x) (lo_transport l) (lo_buffer l) (lo_limits l) (lo_caps l))
         else if k =? 2 then
           x <-- decode_transport v offset ;;
           Ok (mk_locals (lo_first l) (Some x) (lo_buffer l) (lo_limits l) (lo_caps l))
         else if k =? 3 then
           x <-- decode_buffer v offset ;;
           Ok (mk_locals (lo_first l) (lo_transport l) (Some x) (lo_limits l) (lo_caps l))
         else if k =? 4 then
           x <-- limits v ;;
           Ok (mk_locals (lo_first l) (lo_transport l) (lo_buffer l) (Some x) (lo_caps l))
         else if k =? 6 then
           x <-- decode_extension_capabilities v offset ;;
           Ok (mk_locals (lo_first l) (lo_transport l) (lo_buffer l) (lo_limits l) (Some x))
         else Panic) ;;
      hello_loop first limits offset m' l'
  end.

Definition decode_client_hello (value : CborValue) (offset : Z) : P ClientHello :=
  m <-- as_map value offset ;;
  require_exact_keys m [1; 2; 3; 4; 6] [] offset ;;?
  l <-- hello_loop (fun v => decode_wire_versions v offset)
          (fun v => decode_requested_limits v offset) offset m (mk_locals None None None None None) ;;
  wire <-- unwrap (lo_first l) ;;
  transport <-- unwrap (lo_transport l) ;;
  buffer <-- unwrap (lo_buffer l) ;;
  requested <-- unwrap (lo_limits l) ;;
  caps <-- unwrap (lo_caps l) ;;
  Ok {| wire_versions := wire; ch_transport := transport; ch_buffer := buffer;
        requested_limits := requested; ch_extensions := caps |}.

(** The arm of key 1 of the ServerHello loop. *)
Definition decode_selected (v : CborValue) (offset : Z) : P Z :=
  s <-- as_uint8 v offset ;;
  if negb (s =? 0) then Err (malformed_bootstrap "range_violation" offset 9) else Ok s.

Definition decode_server_hello (value : CborValue) (offset : Z) : P ServerHello :=
  m <-- as_map value offset ;;
  require_exact_keys m [1; 2; 3; 4; 6] [] offset ;;?
  l <-- hello_loop (fun v => decode_selected v offset)
          (fun v => decode_effective_limits v offset) offset m (mk_locals None None None None None) ;;
  selected <-- unwrap (lo_first l) ;;
  transport <-- unwrap (lo_transport l) ;;
  buffer <-- unwrap (lo_buffer l) ;;
  effective <-- unwrap (lo_limits l) ;;
  caps <-- unwrap (lo_caps l) ;;
  Ok {| selected_wire_version := selected; sh_transport := transport; sh_buffer := buffer;
        effective_limits := effective; sh_extensions := caps |}.

Definition decode_bootstrap_error (value : CborValue) (offset : Z) : P BootstrapErrorRecord :=
  m <-- as_map value offset ;;
  require_exact_keys m [1] [2; 3] offset ;;?
  v1 <-- must_get m 1 ;; code_num <-- as_uint_range v1 offset 0 255 ;;
  if negb (existsb (Z.eqb code_num) BOOTSTRAP_ERROR_CODES) then
    Err (malformed_bootstrap "range_violation" offset 9)
  else
    message <-- opt_get m 2 (fun v => as_text v offset) ;;
    detail <-- opt_get m 3 (fun v => as_text v offset) ;;
    Ok {| be_code := code_num; be_message := message; be_detail := detail |}.

Definition decode_payload_by_kind (kind : Z) (value : CborValue) (offset : Z) : P BootstrapRecord :=
  if kind =? KIND_CLIENT_HELLO then
    h <-- decode_client_hello value offset ;; Ok (RClientHello h)
  else if kind =? KIND_SERVER_HELLO then
    h <-- decode_server_hello value offset ;; Ok (RServerHello h)
  else if kind =? KIND_BOOTSTRAP_ERROR then
    e <-- decode_bootstrap_error value offset ;; Ok (RBootstrapError e)
  else Err (malformed_bootstrap "unassigned_kind" 5 5).

Definition parse_bootstrap (bs : bytes) : P BootstrapRecord :=
  fail_if (blen bs <? BOOTSTRAP_PREFIX_LENGTH) (malformed_bootstrap "truncated_prefix" 0 1) ;;?
  magic <-- slice bs 0 4 ;;
  fail_if (negb (bool_decide (magic = MAGIC))) (malformed_bootstrap "bad_magic" 0 2) ;;?
  version <-- index bs 4 ;;
  fail_if (negb (version =? BOOTSTRAP_VERSION))
    (unsupported_version_bootstrap "unsupported_bootstrap_version" 4 3) ;;?
  flags <-- read_u16_be bs 6 ;;
  fail_if (negb (flags =? 0)) (malformed_bootstrap "nonzero_flags" 6 4) ;;?
  kind <-- index bs 5 ;;
  fail_if (negb (kind =? KIND_CLIENT_HELLO) && negb (kind =? KIND_SERVER_HELLO) &&
           negb (kind =? KIND_BOOTSTRAP_ERROR)) (malformed_bootstrap "unassigned_kind" 5 5) ;;?
  payload_len <-- read_u32_be bs 8 ;;
  fail_if (BOOTSTRAP_PAYLOAD_MAX_BYTES <? payload_len)
    (message_too_large_bootstrap "payload_too_large" 8 6) ;;?
  expected_total <-- ok_or (checked_add usize_max BOOTSTRAP_PREFIX_LENGTH payload_len)
                       (malformed_bootstrap "exact_total_mismatch" 0 7) ;;
  fail_if (negb (blen bs =? expected_total)) (malformed_bootstrap "exact_total_mismatch" 0 7) ;;?
  payload <-- slice bs BOOTSTRAP_PREFIX_LENGTH expected_total ;;
  cbor_value <--
    match decode_deterministic_cbor payload with
    | Ok v => Ok v
    | Err e => Err (map_cbor_error e BOOTSTRAP_PREFIX_LENGTH)
    | Panic => Panic
    end ;;
  decode_payload_by_kind kind cbor_value BOOTSTRAP_PREFIX_LENGTH.

(** ** The encoders *)

Definition uint_entry (k : Z) (o : option Z) : entries_t :=
  match o with Some v => [(k, Unsigned v)] | None => [] end.
Definition text_entry (k : Z) (o : option bytes) : entries_t :=
  match o with Some t => [(k, Text t)] | None => [] end.

Definition transport_value (caps : TransportCapabilities) : CborValue :=
  Map ([(1, Bool (webtransport_http3 caps)); (2, Bool (binary_wss caps))] ++
       uint_entry 3 (max_datagram_size caps)).
Definition buffer_value (caps : BufferCapabilities) : CborValue :=
  Map [(1, Bool (transferable_arraybuffer caps)); (2, Bool (shared_arraybuffer caps))].
Definition capability_list_value (ids : list Z) : CborValue := Array (map Unsigned ids).
Definition requested_limits_value (limits : RequestedLimits) : CborValue :=
  Map (uint_entry 1 (rl_max_channels limits) ++ uint_entry 2 (rl_max_session_bytes limits) ++
       uint_entry 3 (rl_max_message_bytes limits) ++
       uint_entry 4 (rl_max_control_payload_bytes limits)).
Definition effective_limits_value (limits : EffectiveLimits) : CborValue :=
  Map [(1, Unsigned (el_max_channels limits)); (2, Unsigned (el_max_session_bytes limits));
       (3, Unsigned (el_max_message_bytes limits));
       (4, Unsigned (el_max_control_payload_bytes limits))].

Definition bootstrap_record (kind : Z) (payload : CborValue) : outcome EncodeError bytes :=
  body <-- encode_deterministic_cbor payload ;;
  if BOOTSTRAP_PAYLOAD_MAX_BYTES <? blen body then
    Err (encode_error "bootstrap_payload_too_large")
  else
    Ok (MAGIC ++ [BOOTSTRAP_VERSION] ++ [kind] ++ to_be 2 0 ++
        to_be 4 (as_unsigned 32 (blen body)) ++ body).

Definition client_hello_value (hello : ClientHello) : CborValue :=
  Map [(1, Array (map Unsigned (wire_versions hello))); (2, transport_value (ch_transport hello));
       (3, buffer_value (ch_buffer hello)); (4, requested_limits_value (requested_limits hello));
       (6, capability_list_value (ch_extensions hello))].
Definition encode_client_hello (hello : ClientHello) : outcome EncodeError bytes :=
  bootstrap_record KIND_CLIENT_HELLO (client_hello_value hello).

Definition server_hello_value (hello : ServerHello) : CborValue :=
  Map [(1, Unsigned (selected_wire_version hello)); (2, transport_value (sh_transport hello));
       (3, buffer_value (sh_buffer hello)); (4, effective_limits_value (effective_limits hello));
       (6, capability_list_value (sh_extensions hello))].
Definition encode_server_hello (hello : ServerHello) : outcome EncodeError bytes :=
  bootstrap_record KIND_SERVER_HELLO (server_hello_value hello).

Definition bootstrap_error_value (record : BootstrapErrorRecord) : CborValue :=
  Map ([(1, Unsigned (be_code record))] ++ text_entry 2 (be_message record) ++
       text_entry 3 (be_detail record)).
Definition encode_bootstrap_error (record : BootstrapErrorRecord) : outcome EncodeError bytes :=
  bootstrap_record KIND_BOOTSTRAP_ERROR (bootstrap_error_value record).

End Parser.

(** ** What the records mean *)

Definition in_range (lo hi n : Z) : Prop := lo <= n <= hi.
Definition opt_in_range (lo hi : Z) (o : option Z) : Prop :=
  match o with Some n => in_range lo hi n | None => True end.
Definition text_ok (o : option bytes) : Prop :=
  match o with Some t => utf8_valid t = true /\ blen t <= UTF8_TEXT_MAX_BYTES | None => True end.

Definition transport_ok (c : TransportCapabilities) : Prop := opt_in_range 0 u32_max (max_datagram_size c).
Definition requested_ok (l : RequestedLimits) : Prop :=
  opt_in_range 0 u32_max (rl_max_channels l) /\ opt_in_range 0 u64_max (rl_max_session_bytes l) /\
  opt_in_range 0 u32_max (rl_max_message_bytes l) /\
  opt_in_range 0 u32_max (rl_max_control_payload_bytes l).
Definition effective_ok (l : EffectiveLimits) : Prop :=
  in_range 0 EFFECTIVE_MAX_CHANNELS (el_max_channels l) /\
  in_range 0 EFFECTIVE_MAX_SESSION_BYTES (el_max_session_bytes l) /\
  in_range 0 EFFECTIVE_MAX_MESSAGE_BYTES (el_max_message_bytes l) /\
  in_range 0 EFFECTIVE_MAX_CONTROL_PAYLOAD_BYTES (el_max_control_payload_bytes l).
Definition versions_ok (vs : list Z) : Prop :=
  1 <= blen vs <= WIRE_VERSIONS_MAX /\ NoDup vs /\ Forall (in_range 0 255) vs.
Definition capabilities_ok (ids : list Z) : Prop :=
  blen ids <= CAPABILITY_IDS_MAX /\ StronglySorted Z.lt ids /\
  Forall (in_range CAPABILITY_ID_MIN CAPABILITY_ID_MAX) ids.
Definition client_ok (h : ClientHello) : Prop :=
  versions_ok (wire_versions h) /\ transport_ok (ch_transport h) /\
  requested_ok (requested_limits h) /\ capabilities_ok (ch_extensions h).
Definition server_ok (h : ServerHello) : Prop :=
  selected_wire_version h = 0 /\ transport_ok (sh_transport h) /\
  effective_ok (effective_limits h) /\ capabilities_ok (sh_extensions h).
Definition error_ok (e : BootstrapErrorRecord) : Prop :=
  be_code e ∈ BOOTSTRAP_ERROR_CODES /\ text_ok (be_message e) /\ text_ok (be_detail e).

Definition record_ok (r : BootstrapRecord) : Prop :=
  match r with
  | RClientHello h => client_ok h | RServerHello h => server_ok h | RBootstrapError e => error_ok e
  end.
Definition record_kind (r : BootstrapRecord) : Z :=
  match r with RClientHello _ => 1 | RServerHello _ => 2 | RBootstrapError _ => 3 end.
Definition record_value (r : BootstrapRecord) : CborValue :=
  match r with
  | RClientHello h => client_hello_value h
  | RServerHello h => server_hello_value h
  | RBootstrapError e => bootstrap_error_value e
  end.
Definition encode_bootstrap `{Target} (r : BootstrapRecord) : outcome EncodeError bytes :=
  match r with
  | RClientHello h => encode_client_hello h
  | RServerHello h => encode_server_hello h
  | RBootstrapError e => encode_bootstrap_error e
  end.

(** A decoder that inverts [value] on the values satisfying [ok], over canonical
    CBOR, and otherwise fails at step 9. *)
Definition sound {A} (dec : CborValue -> P A) (value : A -> CborValue) (ok : A -> Prop) : Prop :=
  forall v d, cbor_okb v d = true ->
    match dec v with
    | Ok x => ok x /\ v = value x
    | Err e => pe_step e = 9
    | Panic => False
    end.
Definition complete {A} (dec : CborValue -> P A) (value : A -> CborValue) (ok : A -> Prop) : Prop :=
  forall x, ok x -> dec (value x) = Ok x.

(** ** Maps with known keys *)

Lemma get_key_spec (es : entries_t) k v :
  ascending (map fst es) = true -> get_key es k = Some v <-> (k, v) ∈ es.
Proof.
  intros Ha. apply ascending_nodup in Ha. induction es as [|[k0 v0] es IH]; cbn [get_key].
  { split; [done |]. intros H. by apply not_elem_of_nil in H. }
  cbn [map fst] in Ha. apply NoDup_cons in Ha as [Hk Ha]. rewrite elem_of_cons.
  destruct (Z.eqb_spec k0 k) as [-> |].
  - split; [intros [= ->]; by left |]. intros [[= ->] | Hin]; [done |].
    exfalso. apply Hk. by apply (list_elem_of_fmap_2 fst) in Hin.
  - rewrite IH by done. split; [by right | intros [[= ? ?] | ?]; done].
Qed.

(** The entries of [es] under the keys [ks], in that order. *)
Fixpoint pick (es : entries_t) (ks : list Z) : entries_t :=
  match ks with
  | [] => []
  | k :: ks' => match get_key es k with Some v => (k, v) :: pick es ks' | None => pick es ks' end
  end.

Lemma elem_of_pick es ks k v : (k, v) ∈ pick es ks <-> k ∈ ks /\ get_key es k = Some v.
Proof.
  induction ks as [|k0 ks IH]; cbn [pick].
  { rewrite !elem_of_nil. tauto. }
  rewrite elem_of_cons. destruct (get_key es k0) as [v0 |] eqn:E.
  - rewrite elem_of_cons, IH. split; [naive_solver |]. intros [[-> | ?] ?]; [left; congruence | auto].
  - rewrite IH. split; [naive_solver |]. intros [[-> | ?] ?]; [congruence | auto].
Qed.

Lemma pick_head es ks k : head (map fst (pick es ks)) = Some k -> k ∈ ks.
Proof.
  destruct (pick es ks) as [|[k' v] l] eqn:E; [done |]. intros [= <-].
  apply (elem_of_pick es ks k' v). rewrite E. apply list_elem_of_here.
Qed.

Lemma pick_all es ks :
  ascending (map fst es) = true -> ascending ks = true -> (forall k v, (k, v) ∈ es -> k ∈ ks) ->
  es = pick es ks.
Proof.
  intros Ha Hks Hall.
  assert (Hsorted : forall l : entries_t, ascending (map fst l) = true ->
    StronglySorted (fun p q : Z * CborValue => fst p < fst q) l).
  { clear. intros l Hl. apply ascending_sorted in Hl. induction l as [|p l IH]; [constructor |].
    inversion Hl as [|? ? Hs Hf]; subst. constructor; [by apply IH |].
    clear - Hf. induction l as [|q l IH]; constructor; apply Forall_cons in Hf as [? Hf]; auto. }
  assert (Hp : ascending (map fst (pick es ks)) = true).
  { clear - Hks. induction ks as [|k ks IH]; [done |]. apply ascending_cons in Hks as [Hh Hks].
    specialize (IH Hks). cbn [pick]. destruct (get_key es k); [| done].
    cbn [map fst]. apply ascending_cons. split; [| done]. intros k' Hk'. apply pick_head in Hk'.
    apply ascending_sorted in Hks. destruct ks as [|k1 ks]; [by apply not_elem_of_nil in Hk' |].
    specialize (Hh k1 eq_refl). inversion Hks as [|? ? _ Hf]; subst. rewrite Forall_forall in Hf.
    apply elem_of_cons in Hk' as [-> | Hk']; [done |]. apply Hf in Hk'. lia. }
  apply (StronglySorted_unique_strong (fun p q : Z * CborValue => fst p < fst q)); [| by apply Hsorted.. |].
  - intros [] [] _ _. simpl. lia.
  - apply NoDup_Permutation.
    + apply (NoDup_fmap_1 fst). by apply ascending_nodup.
    + apply (NoDup_fmap_1 fst). by apply ascending_nodup.
    + intros [k v]. rewrite elem_of_pick, get_key_spec by done. naive_solver.
Qed.

Lemma mem_existsb k ks : existsb (Z.eqb k) ks = true <-> k ∈ ks.
Proof.
  rewrite existsb_exists. split.
  - intros (x & Hin & Hx). apply Z.eqb_eq in Hx as ->. by apply list_elem_of_In.
  - intros Hin. exists k. split; [by apply list_elem_of_In | apply Z.eqb_refl].
Qed.

(** [require_exact_keys] against the merged key list [ks]. *)
Lemma require_exact_keys_spec es req opt off ks :
  ascending (map fst es) = true -> ascending ks = true ->
  forallb (fun k => existsb (Z.eqb k) ks) (req ++ opt) = true ->
  match require_exact_keys es req opt off with
  | Ok _ => es = pick es ks /\ Forall (fun k => exists v, get_key es k = Some v) req
  | Err e => pe_step e = 9
  | Panic => False
  end.
Proof.
  intros Ha Hks Hsub. unfold require_exact_keys, fail_if.
  destruct (existsb _ es) eqn:Hu; cbn [obind]; [done |].
  destruct (existsb _ req) eqn:Hm; cbn [obind]; [done |]. split.
  - apply pick_all; [done | done |]. intros k v Hin.
    apply forallb_Forall in Hsub. rewrite Forall_forall in Hsub. apply mem_existsb.
    apply Hsub. apply elem_of_app.
    apply not_true_iff_false in Hu. rewrite existsb_exists in Hu.
    destruct (existsb (Z.eqb k) req) eqn:E1; [left; by apply mem_existsb |].
    destruct (existsb (Z.eqb k) opt) eqn:E2; [right; by apply mem_existsb |].
    exfalso. apply Hu. exists (k, v). split; [by apply list_elem_of_In | by rewrite E1, E2].
  - apply Forall_forall. intros k Hk. apply not_true_iff_false in Hm. rewrite existsb_exists in Hm.
    destruct (existsb (fun '(k', _) => k' =? k) es) eqn:E.
    + apply existsb_exists in E as ([k' v] & Hin & Hkk). apply Z.eqb_eq in Hkk as ->.
      exists v. apply get_key_spec; [done | by apply list_elem_of_In].
    + exfalso. apply Hm. exists k. split; [by apply list_elem_of_In | by rewrite E].
Qed.

(** ** Scalars, arrays and option fields *)

Section Decoders.
Variable off : Z.

Lemma as_bool_sound : sound (fun v => as_bool v off) Bool (fun _ => True).
Proof. intros v d Hv. by destruct v. Qed.

Lemma as_uint_sound lo hi :
  0 <= lo -> sound (fun v => as_uint_range v off lo hi) Unsigned (in_range lo hi).
Proof.
  intros Hlo v d Hv. unfold as_uint_range, in_range. destruct v as [| | n | n | | | |]; try done.
  - destruct (Z.ltb_spec n lo), (Z.ltb_spec hi n); cbn; done || (split; [lia | done]).
  - cbn [cbor_okb] in Hv. destruct (Z.ltb_spec n lo); cbn; [done | lia].
Qed.

Lemma as_uint_complete lo hi : complete (fun v => as_uint_range v off lo hi) Unsigned (in_range lo hi).
Proof. intros n Hn. unfold as_uint_range, in_range in *. by zcmp. Qed.

Lemma as_text_sound :
  sound (fun v => as_text v off) Text (fun t => utf8_valid t = true /\ blen t <= UTF8_TEXT_MAX_BYTES).
Proof.
  intros v d Hv. unfold as_text. destruct v as [| | | | | t | |]; try done.
  destruct (Z.ltb_spec UTF8_TEXT_MAX_BYTES (blen t)); [done |]. cbn [cbor_okb] in Hv.
  apply andb_true_iff in Hv as [? _]. done.
Qed.

Lemma as_text_complete :
  complete (fun v => as_text v off) Text (fun t => utf8_valid t = true /\ blen t <= UTF8_TEXT_MAX_BYTES).
Proof. intros t [_ Ht]. unfold as_text. by zcmp. Qed.

Lemma as_map_sound v :
  match as_map v off with
  | Ok es => v = Map es
  | Err e => pe_step e = 9
  | Panic => False
  end.
Proof. by destruct v. Qed.

(** An optional field. *)
Lemma opt_get_sound {A} (es : entries_t) k (f : CborValue -> P A) value ok d :
  sound f value ok -> cbor_okb (Map es) d = true ->
  match opt_get es k f with
  | Ok o => (match o with Some a => ok a | None => True end) /\
            get_key es k = match o with Some a => Some (value a) | None => None end
  | Err e => pe_step e = 9
  | Panic => False
  end.
Proof.
  intros Hs Hv. unfold opt_get. destruct (get_key es k) as [v |] eqn:E; [| done].
  apply cbor_okb_map in Hv as [Ha Hsub]. apply get_key_spec in E; [| done].
  specialize (Hs v (d + 1) (proj2 (Hsub k v E))).
  destruct (f v) as [a | |]; cbn [obind]; [| done | done]. destruct Hs as [? ->]. done.
Qed.

Lemma must_get_sound {A} (es : entries_t) k (f : CborValue -> P A) value ok d :
  sound f value ok -> cbor_okb (Map es) d = true -> (exists v, get_key es k = Some v) ->
  match v <-- must_get es k ;; f v with
  | Ok a => ok a /\ get_key es k = Some (value a)
  | Err e => pe_step e = 9
  | Panic => False
  end.
Proof.
  intros Hs Hv [v E]. unfold must_get. rewrite E. cbn [obind].
  apply cbor_okb_map in Hv as [Ha Hsub]. apply get_key_spec in E; [| done].
  specialize (Hs v (d + 1) (proj2 (Hsub k v E))).
  destruct (f v) as [a | |]; [| done | done]. destruct Hs as [? ->]. done.
Qed.

(** Reading one required field, in a longer computation. *)
Lemma must_get_step {A B} (es : entries_t) k (f : CborValue -> P A) value ok d (g : A -> P B) (Q : B -> Prop) :
  sound f value ok -> cbor_okb (Map es) d = true -> (exists v, get_key es k = Some v) ->
  (forall a, ok a -> get_key es k = Some (value a) ->
     match g a with Ok b => Q b | Err e => pe_step e = 9 | Panic => False end) ->
  match (v <-- must_get es k ;; a <-- f v ;; g a) with
  | Ok b => Q b | Err e => pe_step e = 9 | Panic => False end.
Proof.
  intros Hs Hv He Hg. pose proof (must_get_sound es k f value ok d Hs Hv He) as H.
  rewrite <- obind_assoc. destruct (v <-- must_get es k;; f v) as [a | |]; cbn [obind]; [| done | done].
  destruct H as [? ?]. by apply Hg.
Qed.

Lemma opt_get_step {A B} (es : entries_t) k (f : CborValue -> P A) value ok d (g : option A -> P B) (Q : B -> Prop) :
  sound f value ok -> cbor_okb (Map es) d = true ->
  (forall o, (match o with Some a => ok a | None => True end) ->
     get_key es k = match o with Some a => Some (value a) | None => None end ->
     match g o with Ok b => Q b | Err e => pe_step e = 9 | Panic => False end) ->
  match (o <-- opt_get es k f ;; g o) with
  | Ok b => Q b | Err e => pe_step e = 9 | Panic => False end.
Proof.
  intros Hs Hv Hg. pose proof (opt_get_sound es k f value ok d Hs Hv) as H.
  destruct (opt_get es k f) as [a | |]; cbn [obind]; [| done | done].
  destruct H as [? ?]. by apply Hg.
Qed.

(** Open a map with known keys. *)
Lemma map_step {B} v req opt ks (g : entries_t -> P B) (Q : B -> Prop) d :
  cbor_okb v d = true -> ascending ks = true ->
  forallb (fun k => existsb (Z.eqb k) ks) (req ++ opt) = true ->
  (forall es, v = Map es -> es = pick es ks -> Forall (fun k => exists v, get_key es k = Some v) req ->
     match g es with Ok b => Q b | Err e => pe_step e = 9 | Panic => False end) ->
  match (m <-- as_map v off ;; require_exact_keys m req opt off ;;? g m) with
  | Ok b => Q b | Err e => pe_step e = 9 | Panic => False end.
Proof.
  intros Hv Hks Hsub Hg. pose proof (as_map_sound v) as Hm.
  destruct (as_map v off) as [es | |]; cbn [obind]; [| done | done]. subst v.
  pose proof (cbor_okb_map _ _ Hv) as [Ha _].
  pose proof (require_exact_keys_spec es req opt off ks Ha Hks Hsub) as Hr.
  destruct (require_exact_keys es req opt off); cbn [obind]; [| done | done].
  destruct Hr as [? ?]. by apply Hg.
Qed.

Lemma transport_sound : sound (fun v => decode_transport v off) transport_value transport_ok.
Proof.
  intros v d Hv. unfold decode_transport.
  apply (map_step v [1; 2] [3] [1; 2; 3] _ _ d Hv); [done | done |].
  intros es -> Hp [H1 [H2 _]%Forall_cons]%Forall_cons.
  apply (must_get_step es 1 _ _ _ d _ _ as_bool_sound Hv H1). intros a _ E1.
  apply (must_get_step es 2 _ _ _ d _ _ as_bool_sound Hv H2). intros b _ E2.
  apply (opt_get_step es 3 _ _ _ d _ _ (as_uint_sound 0 u32_max ltac:(lia)) Hv). intros o Ho E3.
  split; [by destruct o |]. unfold transport_value. f_equal. rewrite Hp. cbn [pick].
  rewrite E1, E2, E3. by destruct o.
Qed.

Lemma transport_complete : complete (fun v => decode_transport v off) transport_value transport_ok.
Proof.
  intros [a b [n |]] Hok; unfold transport_ok, opt_in_range, in_range in Hok; cbn in Hok; [| done].
  unfold decode_transport, opt_get, as_uint32, as_uint_range. cbn. by zcmp.
Qed.

Lemma buffer_sound : sound (fun v => decode_buffer v off) buffer_value (fun _ => True).
Proof.
  intros v d Hv. unfold decode_buffer.
  apply (map_step v [1; 2] [] [1; 2] _ _ d Hv); [done | done |].
  intros es -> Hp [H1 [H2 _]%Forall_cons]%Forall_cons.
  apply (must_get_step es 1 _ _ _ d _ _ as_bool_sound Hv H1). intros a _ E1.
  apply (must_get_step es 2 _ _ _ d _ _ as_bool_sound Hv H2). intros b _ E2.
  split; [done |]. unfold buffer_value. f_equal. rewrite Hp. cbn [pick]. by rewrite E1, E2.
Qed.

Lemma buffer_complete : complete (fun v => decode_buffer v off) buffer_value (fun _ => True).
Proof. by intros [a b] _. Qed.

Lemma requested_sound :
  sound (fun v => decode_requested_limits v off) requested_limits_value requested_ok.
Proof.
  intros v d Hv. unfold decode_requested_limits.
  apply (map_step v [] [1; 2; 3; 4] [1; 2; 3; 4] _ _ d Hv); [done | done |].
  intros es -> Hp _.
  apply (opt_get_step es 1 _ _ _ d _ _ (as_uint_sound 0 u32_max ltac:(lia)) Hv). intros o1 H1 E1.
  apply (opt_get_step es 2 _ _ _ d _ _ (as_uint_sound 0 u64_max ltac:(lia)) Hv). intros o2 H2 E2.
  apply (opt_get_step es 3 _ _ _ d _ _ (as_uint_sound 0 u32_max ltac:(lia)) Hv). intros o3 H3 E3.
  apply (opt_get_step es 4 _ _ _ d _ _ (as_uint_sound 0 u32_max ltac:(lia)) Hv). intros o4 H4 E4.
  split; [done |]. unfold requested_limits_value. f_equal. rewrite Hp. cbn [pick].
  rewrite E1, E2, E3, E4. by destruct o1, o2, o3, o4.
Qed.

Lemma requested_complete :
  complete (fun v => decode_requested_limits v off) requested_limits_value requested_ok.
Proof.
  intros [o1 o2 o3 o4] Hok. destruct Hok as (H1 & H2 & H3 & H4); cbn in H1, H2, H3, H4.
  unfold decode_requested_limits, opt_get, as_uint32, as_uint_range, requested_limits_value.
  destruct o1, o2, o3, o4; unfold opt_in_range, in_range in *; cbn; zcmp; cbn; zcmp; cbn; zcmp; cbn; zcmp; done.
Qed.

Lemma effective_sound :
  sound (fun v => decode_effective_limits v off) effective_limits_value effective_ok.
Proof.
  intros v d Hv. unfold decode_effective_limits.
  apply (map_step v [1; 2; 3; 4] [] [1; 2; 3; 4] _ _ d Hv); [done | done |].
  intros es -> Hp [H1 [H2 [H3 [H4 _]%Forall_cons]%Forall_cons]%Forall_cons]%Forall_cons.
  apply (must_get_step es 1 _ _ _ d _ _ (as_uint_sound 0 _ ltac:(lia)) Hv H1). intros a Ha E1.
  apply (must_get_step es 2 _ _ _ d _ _ (as_uint_sound 0 _ ltac:(lia)) Hv H2). intros b Hb E2.
  apply (must_get_step es 3 _ _ _ d _ _ (as_uint_sound 0 _ ltac:(lia)) Hv H3). intros c Hc E3.
  apply (must_get_step es 4 _ _ _ d _ _ (as_uint_sound 0 _ ltac:(lia)) Hv H4). intros e He E4.
  split; [done |]. unfold effective_limits_value. f_equal. rewrite Hp. cbn [pick].
  by rewrite E1, E2, E3, E4.
Qed.

Lemma effective_complete :
  complete (fun v => decode_effective_limits v off) effective_limits_value effective_ok.
Proof.
  intros [a b c e] (H1 & H2 & H3 & H4); cbn in H1, H2, H3, H4.
  unfold decode_effective_limits, as_uint_range, effective_limits_value, in_range in *.
  cbn; zcmp; cbn; zcmp; cbn; zcmp; cbn; zcmp; done.
Qed.

Lemma wire_loop_sound arr seen d :
  Forall (fun v => cbor_okb v d = true) arr ->
  match wire_version_loop arr seen off with
  | Ok vs => arr = map Unsigned vs /\ Forall (in_range 0 255) vs /\ NoDup vs /\
             (forall v, v ∈ vs -> v ∉ seen)
  | Err e => pe_step e = 9
  | Panic => False
  end.
Proof.
  intros Hall. revert seen. induction Hall as [|el arr Hel Hall IH]; intros seen; cbn [wire_version_loop].
  { split_and!; [done | constructor | constructor |]. intros v Hv. by apply not_elem_of_nil in Hv. }
  pose proof (as_uint_sound 0 255 ltac:(lia) el d Hel) as He. unfold as_uint8.
  destruct (as_uint_range el off 0 255) as [v | |]; cbn [obind]; [| done | done]. destruct He as [Hr ->].
  destruct (existsb (Z.eqb v) seen) eqn:Hs; [done |]. specialize (IH (v :: seen)).
  destruct (wire_version_loop arr (v :: seen) off) as [vs | |]; cbn [obind]; [| done | done].
  destruct IH as (-> & Hrs & Hn & Hd). split_and!.
  - done.
  - by constructor.
  - constructor; [| done]. intros Hin. apply (Hd v Hin). apply list_elem_of_here.
  - intros w [-> | Hw]%elem_of_cons Hin.
    + apply mem_existsb in Hin. congruence.
    + apply (Hd w Hw). by apply list_elem_of_further.
Qed.

Lemma wire_loop_complete vs seen :
  Forall (in_range 0 255) vs -> NoDup vs -> (forall v, v ∈ vs -> v ∉ seen) ->
  wire_version_loop (map Unsigned vs) seen off = Ok vs.
Proof.
  intros Hr. revert seen. induction Hr as [|v vs Hv Hr IH]; intros seen Hn Hd; [done |].
  cbn [map wire_version_loop]. unfold as_uint8. rewrite (as_uint_complete 0 255 v Hv). cbn [obind].
  apply NoDup_cons in Hn as [Hnv Hn].
  assert (existsb (Z.eqb v) seen = false) as ->.
  { apply not_true_iff_false. rewrite mem_existsb. apply Hd. apply list_elem_of_here. }
  rewrite IH; [done | done |]. intros w Hw [-> | Hs]%elem_of_cons; [done |].
  apply (Hd w); [by apply list_elem_of_further | done].
Qed.

Lemma versions_sound :
  sound (fun v => decode_wire_versions v off) (fun vs => Array (map Unsigned vs)) versions_ok.
Proof.
  intros v d Hv. unfold decode_wire_versions, as_array, versions_ok.
  destruct v as [| | | | | | arr |]; try done. cbn [obind]. apply cbor_okb_array in Hv.
  destruct (Z.eqb_spec (blen arr) 0), (Z.ltb_spec WIRE_VERSIONS_MAX (blen arr)); cbn [orb]; try done.
  pose proof (wire_loop_sound arr [] _ Hv) as Hl. pose proof (blen_nonneg arr).
  destruct (wire_version_loop arr [] off) as [vs | |]; [| done | done].
  destruct Hl as (-> & Hr & Hn & _). rewrite blen_map in *. split; [| done]. split_and!; [lia | done | done | done].
Qed.

Lemma versions_complete :
  complete (fun v => decode_wire_versions v off) (fun vs => Array (map Unsigned vs)) versions_ok.
Proof.
  intros vs ([Hl1 Hl2] & Hn & Hr). unfold decode_wire_versions, as_array. cbn [obind].
  rewrite blen_map. zcmp. apply wire_loop_complete; [done | done |].
  intros v _ H. by apply not_elem_of_nil in H.
Qed.

Lemma capability_loop_sound arr prev d :
  Forall (fun v => cbor_okb v d = true) arr ->
  match capability_loop arr prev off with
  | Ok ids => arr = map Unsigned ids /\ Forall (in_range CAPABILITY_ID_MIN CAPABILITY_ID_MAX) ids /\
              StronglySorted Z.lt ids /\ (forall p, prev = Some p -> Forall (Z.lt p) ids)
  | Err e => pe_step e = 9
  | Panic => False
  end.
Proof.
  intros Hall. revert prev. induction Hall as [|el arr Hel Hall IH]; intros prev; cbn [capability_loop].
  { split_and!; [done | constructor | constructor | constructor]. }
  pose proof (as_uint_sound CAPABILITY_ID_MIN CAPABILITY_ID_MAX ltac:(done) el d Hel) as He. cbv beta in He.
  destruct (as_uint_range el off _ _) as [v | |]; cbn [obind]; [| done | done]. destruct He as [Hr ->].
  specialize (IH (Some v)).
  assert (Hgo : (forall p, prev = Some p -> p < v) ->
    match (out <-- capability_loop arr (Some v) off ;; Ok (v :: out)) with
    | Ok ids => Unsigned v :: arr = map Unsigned ids /\
        Forall (in_range CAPABILITY_ID_MIN CAPABILITY_ID_MAX) ids /\
        StronglySorted Z.lt ids /\ (forall p, prev = Some p -> Forall (Z.lt p) ids)
    | Err e => pe_step e = 9
    | Panic => False
    end).
  { intros Hp. destruct (capability_loop arr (Some v) off) as [ids | |]; cbn [obind]; [| done | done].
    destruct IH as (-> & Hrs & Hs & Hf). specialize (Hf v eq_refl). split_and!.
    - done.
    - by constructor.
    - by constructor.
    - intros p Ep. specialize (Hp p Ep). constructor; [done |].
      eapply Forall_impl; [exact Hf |]. intros x Hx. cbv beta in Hx. lia. }
  destruct prev as [p |]; [| by apply Hgo].
  destruct (Z.eqb_spec v p); [done |]. destruct (Z.ltb_spec v p); [done |].
  apply Hgo. intros ? [= <-]. lia.
Qed.

Lemma capability_loop_complete ids prev :
  Forall (in_range CAPABILITY_ID_MIN CAPABILITY_ID_MAX) ids -> StronglySorted Z.lt ids ->
  (forall p, prev = Some p -> Forall (Z.lt p) ids) ->
  capability_loop (map Unsigned ids) prev off = Ok ids.
Proof.
  intros Hr. revert prev. induction Hr as [|v ids Hv Hr IH]; intros prev Hs Hp; [done |].
  cbn [map capability_loop]. rewrite (as_uint_complete _ _ v Hv). cbn [obind].
  inversion Hs as [|? ? Hs' Hf]; subst. rewrite (IH (Some v)); [| done | by intros ? [= <-]].
  cbn [obind]. destruct prev as [p |]; [| done].
  specialize (Hp p eq_refl). apply Forall_cons in Hp as [Hp _]. by zcmp.
Qed.

Lemma capabilities_sound :
  sound (fun v => decode_extension_capabilities v off) capability_list_value capabilities_ok.
Proof.
  intros v d Hv. unfold decode_extension_capabilities, as_array, capabilities_ok, capability_list_value.
  destruct v as [| | | | | | arr |]; try done. cbn [obind]. apply cbor_okb_array in Hv.
  destruct (Z.ltb_spec CAPABILITY_IDS_MAX (blen arr)); [done |].
  pose proof (capability_loop_sound arr None _ Hv) as Hl.
  destruct (capability_loop arr None off) as [ids | |]; [| done | done].
  destruct Hl as (-> & Hr & Hs & _). rewrite blen_map in *. split; [| done]. by split_and!.
Qed.

Lemma capabilities_complete :
  complete (fun v => decode_extension_capabilities v off) capability_list_value capabilities_ok.
Proof.
  intros ids (Hl & Hs & Hr). unfold decode_extension_capabilities, as_array, capability_list_value.
  cbn [obind]. rewrite blen_map. zcmp. by apply capability_loop_complete.
Qed.

(** *** The hellos *)

(** A sound decoder continued. *)
Lemma sound_step {A B} v d (f : CborValue -> P A) value ok (g : A -> P B) (Q : B -> Prop) :
  sound f value ok -> cbor_okb v d = true ->
  (forall a, ok a -> v = value a ->
     match g a with Ok b => Q b | Err e => pe_step e = 9 | Panic => False end) ->
  match (a <-- f v ;; g a) with Ok b => Q b | Err e => pe_step e = 9 | Panic => False end.
Proof.
  intros Hs Hv Hg. specialize (Hs v d Hv). destruct (f v) as [a | |]; cbn [obind]; [| done | done].
  destruct Hs as [? ->]. by apply Hg.
Qed.

Lemma hello_sound {A B} (first : CborValue -> P A) fvalue fok (limits : CborValue -> P B) lvalue lok v d :
  sound first fvalue fok -> sound limits lvalue lok -> cbor_okb v d = true ->
  match (m <-- as_map v off ;; require_exact_keys m [1; 2; 3; 4; 6] [] off ;;?
         hello_loop first limits off m (mk_locals None None None None None)) with
  | Ok l => exists a t b lim caps,
      l = mk_locals (Some a) (Some t) (Some b) (Some lim) (Some caps) /\
      fok a /\ transport_ok t /\ lok lim /\ capabilities_ok caps /\
      v = Map [(1, fvalue a); (2, transport_value t); (3, buffer_value b); (4, lvalue lim);
               (6, capability_list_value caps)]
  | Err e => pe_step e = 9
  | Panic => False
  end.
Proof.
  intros Hf Hl Hv. apply (map_step v [1; 2; 3; 4; 6] [] [1; 2; 3; 4; 6] _ _ d Hv); [done | done |].
  intros es -> Hp [[v1 E1] [[v2 E2] [[v3 E3] [[v4 E4] [[v6 E6] _]%Forall_cons]%Forall_cons]%Forall_cons]%Forall_cons]%Forall_cons.
  cbn [pick] in Hp. rewrite E1, E2, E3, E4, E6 in Hp. clear E1 E2 E3 E4 E6. subst es.
  apply cbor_okb_map in Hv as [_ Hsub].
  assert (Hin : forall k w, (k, w) ∈ [(1, v1); (2, v2); (3, v3); (4, v4); (6, v6)] -> cbor_okb w (d + 1) = true)
    by (intros k w Hk; by eapply Hsub).
  cbn [hello_loop]. cbn [Z.eqb Pos.eqb]. rewrite !obind_assoc.
  apply (sound_step v1 (d + 1) first fvalue fok _ _ Hf ltac:(apply (Hin 1); set_solver)).
  intros a Ha ->. cbn [obind lo_first lo_transport lo_buffer lo_limits lo_caps]. rewrite !obind_assoc.
  apply (sound_step v2 (d + 1) _ _ _ _ _ transport_sound ltac:(apply (Hin 2); set_solver)).
  intros t Ht ->. cbn [obind lo_first lo_transport lo_buffer lo_limits lo_caps]. rewrite !obind_assoc.
  apply (sound_step v3 (d + 1) _ _ _ _ _ buffer_sound ltac:(apply (Hin 3); set_solver)).
  intros b _ ->. cbn [obind lo_first lo_transport lo_buffer lo_limits lo_caps]. rewrite !obind_assoc.
  apply (sound_step v4 (d + 1) limits lvalue lok _ _ Hl ltac:(apply (Hin 4); set_solver)).
  intros lim Hlim ->. cbn [obind lo_first lo_transport lo_buffer lo_limits lo_caps]. rewrite !obind_assoc.
  apply (sound_step v6 (d + 1) _ _ _ _ _ capabilities_sound ltac:(apply (Hin 6); set_solver)).
  intros caps Hcaps ->. cbn [obind]. exists a, t, b, lim, caps. by split_and!.
Qed.

Lemma hello_complete {A B} (first : CborValue -> P A) fvalue fok (limits : CborValue -> P B) lvalue lok a t b lim caps :
  complete first fvalue fok -> complete limits lvalue lok ->
  fok a -> transport_ok t -> lok lim -> capabilities_ok caps ->
  (m <-- as_map (Map [(1, fvalue a); (2, transport_value t); (3, buffer_value b); (4, lvalue lim);
               (6, capability_list_value caps)]) off ;;
   require_exact_keys m [1; 2; 3; 4; 6] [] off ;;?
   hello_loop first limits off m (mk_locals None None None None None)) =
  Ok (mk_locals (Some a) (Some t) (Some b) (Some lim) (Some caps)).
Proof.
  intros Hf Hl Ha Ht Hlim Hcaps. cbn [as_map obind].
  change (require_exact_keys _ _ _ _) with (Ok (E := ProtocolError) tt). cbn [obind hello_loop].
  cbn [Z.eqb Pos.eqb].
  rewrite (Hf a Ha). cbn [obind lo_first lo_transport lo_buffer lo_limits lo_caps].
  rewrite (transport_complete t Ht). cbn [obind lo_first lo_transport lo_buffer lo_limits lo_caps].
  rewrite (buffer_complete b I). cbn [obind lo_first lo_transport lo_buffer lo_limits lo_caps].
  rewrite (Hl lim Hlim). cbn [obind lo_first lo_transport lo_buffer lo_limits lo_caps].
  by rewrite (capabilities_complete caps Hcaps).
Qed.

Lemma client_sound : sound (fun v => decode_client_hello v off) client_hello_value client_ok.
Proof.
  intros v d Hv. pose proof (hello_sound _ _ _ _ _ _ v d versions_sound requested_sound Hv) as H.
  unfold decode_client_hello.
  destruct (as_map v off) as [m | |]; cbn [obind] in *; [| done | done].
  destruct (require_exact_keys m _ _ off) as [[] | |]; cbn [obind] in *; [| done | done].
  destruct (hello_loop _ _ off m _) as [l | |]; cbn [obind] in *; [| done | done].
  destruct H as (a & t & b & lim & caps & -> & ? & ? & ? & ? & ->). cbn. done.
Qed.

Lemma client_complete : complete (fun v => decode_client_hello v off) client_hello_value client_ok.
Proof.
  intros [a t b lim caps] (Ha & Ht & Hl & Hc).
  pose proof (hello_complete _ _ _ _ _ _ a t b lim caps versions_complete requested_complete Ha Ht Hl Hc) as H.
  unfold decode_client_hello, client_hello_value. cbn [as_map obind wire_versions ch_transport ch_buffer requested_limits ch_extensions] in *.
  destruct (require_exact_keys _ _ _ off) as [[] | |]; cbn [obind] in *; [| done | done]. by rewrite H.
Qed.

Lemma selected_sound : sound (fun v => decode_selected v off) Unsigned (fun n => n = 0).
Proof.
  intros v d Hv. unfold decode_selected, as_uint8.
  pose proof (as_uint_sound 0 255 ltac:(lia) v d Hv) as He.
  destruct (as_uint_range v off 0 255) as [s | |]; cbn [obind]; [| done | done]. destruct He as [_ ->].
  by destruct (Z.eqb_spec s 0).
Qed.

Lemma server_sound : sound (fun v => decode_server_hello v off) server_hello_value server_ok.
Proof.
  intros v d Hv. pose proof (hello_sound _ _ _ _ _ _ v d selected_sound effective_sound Hv) as H.
  unfold decode_server_hello.
  destruct (as_map v off) as [m | |]; cbn [obind] in *; [| done | done].
  destruct (require_exact_keys m _ _ off) as [[] | |]; cbn [obind] in *; [| done | done].
  destruct (hello_loop _ _ off m _) as [l | |]; cbn [obind] in *; [| done | done].
  destruct H as (a & t & b & lim & caps & -> & ? & ? & ? & ? & ->). cbn. done.
Qed.

Lemma server_complete : complete (fun v => decode_server_hello v off) server_hello_value server_ok.
Proof.
  intros [a t b lim caps] (Ha & Ht & Hl & Hc). cbn in Ha.
  assert (Hsel : complete (fun v => decode_selected v off) Unsigned (fun n => n = 0)) by (by intros n ->).
  pose proof (hello_complete _ _ _ _ _ _ a t b lim caps Hsel effective_complete Ha Ht Hl Hc) as H.
  unfold decode_server_hello, server_hello_value. cbn [as_map obind selected_wire_version sh_transport sh_buffer effective_limits sh_extensions] in *.
  destruct (require_exact_keys _ _ _ off) as [[] | |]; cbn [obind] in *; [| done | done]. by rewrite H.
Qed.

Lemma error_sound : sound (fun v => decode_bootstrap_error v off) bootstrap_error_value error_ok.
Proof.
  intros v d Hv. unfold decode_bootstrap_error.
  apply (map_step v [1] [2; 3] [1; 2; 3] _ _ d Hv); [done | done |].
  intros es -> Hp [H1 _]%Forall_cons.
  apply (must_get_step es 1 _ _ _ d _ _ (as_uint_sound 0 255 ltac:(lia)) Hv H1). intros c _ E1.
  destruct (existsb (Z.eqb c) BOOTSTRAP_ERROR_CODES) eqn:Hc; cbn [negb]; [| done].
  apply (opt_get_step es 2 _ _ _ d _ _ as_text_sound Hv). intros o2 H2 E2.
  apply (opt_get_step es 3 _ _ _ d _ _ as_text_sound Hv). intros o3 H3 E3.
  split; [split_and!; [by apply mem_existsb | by destruct o2 | by destruct o3] |].
  unfold bootstrap_error_value. f_equal. rewrite Hp. cbn [pick]. rewrite E1, E2, E3. by destruct o2, o3.
Qed.

Lemma error_complete : complete (fun v => decode_bootstrap_error v off) bootstrap_error_value error_ok.
Proof.
  intros [c o2 o3] (Hc & H2 & H3); cbn in Hc, H2, H3. unfold decode_bootstrap_error, bootstrap_error_value.
  assert (Hr : in_range 0 255 c).
  { unfold BOOTSTRAP_ERROR_CODES in Hc. rewrite !elem_of_cons, elem_of_nil in Hc. unfold in_range. lia. }
  apply mem_existsb in Hc. unfold opt_get.
  destruct o2 as [t2 |], o3 as [t3 |]; cbn [be_code be_message be_detail text_entry app as_map obind];
    change (require_exact_keys _ _ _ _) with (Ok (E := ProtocolError) tt); cbn [obind must_get get_key Z.eqb Pos.eqb];
    rewrite (as_uint_complete 0 255 c Hr); cbn [obind]; rewrite Hc; cbn [negb get_key Z.eqb Pos.eqb];
    rewrite ?(as_text_complete t2 H2), ?(as_text_complete t3 H3); cbn [obind];
    rewrite ?(as_text_complete t2 H2), ?(as_text_complete t3 H3); done.
Qed.

Lemma payload_sound kind v d :
  kind = 1 \/ kind = 2 \/ kind = 3 -> cbor_okb v d = true ->
  match decode_payload_by_kind kind v off with
  | Ok r => record_ok r /\ record_kind r = kind /\ v = record_value r
  | Err e => pe_step e = 9
  | Panic => False
  end.
Proof.
  intros Hk Hv. unfold decode_payload_by_kind, KIND_CLIENT_HELLO, KIND_SERVER_HELLO, KIND_BOOTSTRAP_ERROR.
  destruct Hk as [-> | [-> | ->]]; cbn [Z.eqb Pos.eqb].
  - pose proof (client_sound v d Hv) as H. destruct (decode_client_hello v off); cbn [obind]; naive_solver.
  - pose proof (server_sound v d Hv) as H. destruct (decode_server_hello v off); cbn [obind]; naive_solver.
  - pose proof (error_sound v d Hv) as H. destruct (decode_bootstrap_error v off); cbn [obind]; naive_solver.
Qed.

Lemma payload_complete r :
  record_ok r -> decode_payload_by_kind (record_kind r) (record_value r) off = Ok r.
Proof.
  destruct r as [h | h | e]; intros Hok; unfold decode_payload_by_kind; cbn [record_kind record_value].
  - change (1 =? KIND_CLIENT_HELLO) with true. by rewrite (client_complete h Hok).
  - change (2 =? KIND_CLIENT_HELLO) with false. change (2 =? KIND_SERVER_HELLO) with true.
    by rewrite (server_complete h Hok).
  - change (3 =? KIND_CLIENT_HELLO) with false. change (3 =? KIND_SERVER_HELLO) with false.
    change (3 =? KIND_BOOTSTRAP_ERROR) with true. by rewrite (error_complete e Hok).
Qed.

End Decoders.

(** ** Sizes of the records on the wire *)

Lemma concat_max_len {A} (f : A -> bytes) m l :
  0 <= m -> (forall a, a ∈ l -> blen (f a) <= m) -> blen (concat (map f l)) <= m * blen l.
Proof.
  intros Hm Hf. induction l as [|a l IH]; [change (0 <= m * 0); lia |].
  cbn [map concat]. rewrite blen_app, blen_cons.
  pose proof (Hf a ltac:(apply list_elem_of_here)).
  specialize (IH (fun x Hx => Hf x (list_elem_of_further x a l Hx))). lia.
Qed.

Lemma unsigned_len n : blen (cbor_bytes (Unsigned n)) <= 9.
Proof. cbn [cbor_bytes]. apply head_bytes_len. Qed.

Lemma unsigned_array_len vs : blen (cbor_bytes (Array (map Unsigned vs))) <= 9 + 9 * blen vs.
Proof.
  cbn [cbor_bytes]. rewrite blen_app, blen_map, map_map.
  pose proof (head_bytes_len 4 (blen vs)).
  pose proof (concat_max_len (fun n => cbor_bytes (Unsigned n)) 9 vs ltac:(lia) (fun n _ => unsigned_len n)).
  lia.
Qed.

Lemma map_len es m :
  0 <= m -> (forall k v, (k, v) ∈ es -> blen (cbor_bytes v) <= m) ->
  blen (cbor_bytes (Map es)) <= 9 + (9 + m) * blen es.
Proof.
  intros Hm Hes. rewrite cbor_bytes_map, blen_app. pose proof (head_bytes_len 5 (blen es)).
  pose proof (concat_max_len entry_bytes (9 + m) es ltac:(lia)) as Hc.
  assert (blen (concat (map entry_bytes es)) <= (9 + m) * blen es); [| lia].
  apply Hc. intros [k v] Hin. unfold entry_bytes. cbn [fst snd]. rewrite blen_app.
  pose proof (head_bytes_len 0 k). pose proof (Hes k v Hin). lia.
Qed.

Lemma flat_map_len es :
  (forall k v, (k, v) ∈ es -> blen (cbor_bytes v) <= 9) ->
  blen (cbor_bytes (Map es)) <= 9 + 18 * blen es.
Proof. intros Hes. pose proof (map_len es 9 ltac:(lia) Hes) as Hm. change (9 + 9) with 18 in Hm. exact Hm. Qed.

(** Split membership in an explicit list of entries. *)
Ltac entries_in H :=
  repeat match type of H with
  | _ ∈ _ :: _ => apply elem_of_cons in H as [H | H]; [injection H as -> -> |]
  | _ ∈ _ ++ _ => apply elem_of_app in H as [H | H]
  | _ ∈ [] => by apply not_elem_of_nil in H
  end.

Lemma uint_entry_in k o k' v : (k', v) ∈ uint_entry k o -> exists n, o = Some n /\ v = Unsigned n /\ k' = k.
Proof.
  destruct o as [n |]; cbn; intros H; [| by apply not_elem_of_nil in H].
  apply list_elem_of_singleton in H as [= -> ->]. by exists n.
Qed.

Lemma uint_entry_len k o : blen (uint_entry k o) <= 1.
Proof. by destruct o. Qed.

Lemma transport_len c : blen (cbor_bytes (transport_value c)) <= 63.
Proof.
  unfold transport_value. pose proof (uint_entry_len 3 (max_datagram_size c)) as Hu.
  etransitivity; [apply flat_map_len |].
  - intros k v Hin. apply elem_of_app in Hin as [Hin | Hin].
    + rewrite !elem_of_cons, elem_of_nil in Hin. destruct Hin as [[= -> ->] | [[= -> ->] | []]];
        [by destruct (webtransport_http3 c) | by destruct (binary_wss c)].
    + apply uint_entry_in in Hin as (n & _ & -> & _). apply unsigned_len.
  - rewrite blen_app. change (blen [(1, Bool (webtransport_http3 c)); (2, Bool (binary_wss c))]) with 2. lia.
Qed.

Lemma buffer_len c : blen (cbor_bytes (buffer_value c)) <= 63.
Proof. by destruct c as [[] []]. Qed.

Lemma requested_len l : blen (cbor_bytes (requested_limits_value l)) <= 81.
Proof.
  unfold requested_limits_value.
  pose proof (uint_entry_len 1 (rl_max_channels l)). pose proof (uint_entry_len 2 (rl_max_session_bytes l)).
  pose proof (uint_entry_len 3 (rl_max_message_bytes l)).
  pose proof (uint_entry_len 4 (rl_max_control_payload_bytes l)).
  etransitivity; [apply flat_map_len |].
  - intros k v Hin. rewrite !elem_of_app in Hin.
    destruct Hin as [Hin | [Hin | [Hin | Hin]]]; apply uint_entry_in in Hin as (n & _ & -> & _); apply unsigned_len.
  - rewrite !blen_app. lia.
Qed.

Lemma effective_len l : blen (cbor_bytes (effective_limits_value l)) <= 81.
Proof.
  unfold effective_limits_value. etransitivity; [apply flat_map_len | done].
  intros k v Hin. rewrite !elem_of_cons, elem_of_nil in Hin.
  destruct Hin as [[= -> ->] | [[= -> ->] | [[= -> ->] | [[= -> ->] | []]]]]; apply unsigned_len.
Qed.

Lemma hello_len first t b limits caps :
  blen (cbor_bytes first) <= 600 -> blen (cbor_bytes (transport_value t)) <= 600 ->
  blen (cbor_bytes (buffer_value b)) <= 600 -> blen (cbor_bytes limits) <= 600 ->
  blen (cbor_bytes (capability_list_value caps)) <= 600 ->
  blen (cbor_bytes (Map [(1, first); (2, transport_value t); (3, buffer_value b); (4, limits);
    (6, capability_list_value caps)])) <= 65535.
Proof.
  intros H1 H2 H3 H4 H6. etransitivity; [apply (map_len _ 600); [lia |] | done].
  intros k v Hin. rewrite !elem_of_cons, elem_of_nil in Hin.
  by destruct Hin as [[= -> ->] | [[= -> ->] | [[= -> ->] | [[= -> ->] | [[= -> ->] | []]]]]].
Qed.

Lemma record_len r : record_ok r -> blen (cbor_bytes (record_value r)) <= BOOTSTRAP_PAYLOAD_MAX_BYTES.
Proof.
  unfold BOOTSTRAP_PAYLOAD_MAX_BYTES. destruct r as [h | h | e]; cbn [record_ok record_value].
  - intros ([[_ Hv] _] & _ & _ & Hc & _). unfold WIRE_VERSIONS_MAX, CAPABILITY_IDS_MAX in *.
    pose proof (unsigned_array_len (wire_versions h)). pose proof (unsigned_array_len (ch_extensions h)).
    pose proof (transport_len (ch_transport h)). pose proof (buffer_len (ch_buffer h)).
    pose proof (requested_len (requested_limits h)). apply hello_len; unfold capability_list_value; lia.
  - intros (_ & _ & _ & Hc & _). unfold CAPABILITY_IDS_MAX in *.
    pose proof (unsigned_len (selected_wire_version h)). pose proof (unsigned_array_len (sh_extensions h)).
    pose proof (transport_len (sh_transport h)). pose proof (buffer_len (sh_buffer h)).
    pose proof (effective_len (effective_limits h)). apply hello_len; unfold capability_list_value; lia.
  - intros (_ & H2 & H3).
    assert (Ht : forall o k v (k' : Z), text_ok o -> (k, v) ∈ text_entry k' o -> blen (cbor_bytes v) <= 4105).
    { intros [t |] k v k' Hok Hin; cbn in Hin; [| by apply not_elem_of_nil in Hin].
      apply list_elem_of_singleton in Hin as [= -> ->]. cbn [cbor_bytes]. rewrite blen_app.
      destruct Hok as [_ Hok]. unfold UTF8_TEXT_MAX_BYTES in Hok. pose proof (head_bytes_len 3 (blen t)). lia. }
    assert (Hl : forall k' o, blen (text_entry k' o) <= 1) by (by intros k' []).
    pose proof (Hl 2 (be_message e)). pose proof (Hl 3 (be_detail e)).
    unfold bootstrap_error_value. etransitivity; [apply (map_len _ 4105); [lia |] |].
    + intros k v Hin. rewrite !elem_of_app in Hin. destruct Hin as [Hin | [Hin | Hin]].
      * apply list_elem_of_singleton in Hin as [= -> ->]. pose proof (unsigned_len (be_code e)). lia.
      * exact (Ht _ _ _ _ H2 Hin).
      * exact (Ht _ _ _ _ H3 Hin).
    + rewrite !blen_app. change (blen [(1, Unsigned (be_code e))]) with 1. lia.
Qed.

Lemma unsigned_list_ok lo hi vs d :
  0 <= lo -> hi <= u64_max -> Forall (in_range lo hi) vs ->
  forallb (fun i => cbor_okb i d) (map Unsigned vs) = true.
Proof.
  intros Hlo Hhi Hall. apply forallb_Forall. apply Forall_map. eapply Forall_impl; [exact Hall |].
  intros n Hn. unfold in_range in Hn. cbn. lia.
Qed.

Lemma record_value_ok r : record_ok r -> cbor_okb (record_value r) 0 = true.
Proof.
  assert (Hbool : forall b d, cbor_okb (Bool b) d = true) by done.
  assert (Ht : forall c d, 0 <= d < 15 -> transport_ok c -> cbor_okb (transport_value c) d = true).
  { intros [a b [n |]] d Hd Hok; unfold transport_ok, opt_in_range, in_range, u32_max in Hok; cbn in Hok |- *;
      unfold MAX_NESTING_DEPTH, u64_max in *; zcmp; done. }
  assert (Hbuf : forall c d, 0 <= d < 15 -> cbor_okb (buffer_value c) d = true).
  { intros [a b] d Hd. cbn. unfold MAX_NESTING_DEPTH. by zcmp. }
  assert (Hreq : forall l d, 0 <= d < 15 -> requested_ok l -> cbor_okb (requested_limits_value l) d = true).
  { intros [[] [] [] []] d Hd (H1 & H2 & H3 & H4);
      unfold opt_in_range, in_range, u32_max in *; cbn in H1, H2, H3, H4 |- *;
      unfold MAX_NESTING_DEPTH, u64_max in *; zcmp; done. }
  assert (Heff : forall l d, 0 <= d < 15 -> effective_ok l -> cbor_okb (effective_limits_value l) d = true).
  { intros [] d Hd (H1 & H2 & H3 & H4);
      unfold in_range, EFFECTIVE_MAX_CHANNELS, EFFECTIVE_MAX_SESSION_BYTES, EFFECTIVE_MAX_MESSAGE_BYTES,
        EFFECTIVE_MAX_CONTROL_PAYLOAD_BYTES in *; cbn in H1, H2, H3, H4 |- *;
      unfold MAX_NESTING_DEPTH, u64_max in *; zcmp; done. }
  assert (Harr : forall lo hi vs d, 0 <= d < 15 -> 0 <= lo -> hi <= 65535 -> blen vs <= 64 ->
    Forall (in_range lo hi) vs -> cbor_okb (Array (map Unsigned vs)) d = true).
  { intros lo hi vs d Hd Hlo Hhi Hl Hall. cbn [cbor_okb]. rewrite blen_map.
    rewrite (unsigned_list_ok lo hi) by (done || unfold u64_max; lia).
    unfold MAX_NESTING_DEPTH, MAX_SAFE_INTEGER. by zcmp. }
  assert (Hhello : forall a b c e f, cbor_okb a 1 = true -> cbor_okb b 1 = true -> cbor_okb c 1 = true ->
    cbor_okb e 1 = true -> cbor_okb f 1 = true ->
    cbor_okb (Map [(1, a); (2, b); (3, c); (4, e); (6, f)]) 0 = true).
  { intros a b c e f Ea Eb Ec Ee Ef. cbn [cbor_okb forallb map fst ascending blen length].
    change (0 + 1) with 1. rewrite Ea, Eb, Ec, Ee, Ef. by vm_compute. }
  destruct r as [h | h | e]; cbn [record_ok record_value].
  - intros ([[_ Hv] [_ Hvr]] & Htr & Hr & Hc & _ & Hcr).
    unfold WIRE_VERSIONS_MAX, CAPABILITY_IDS_MAX, CAPABILITY_ID_MIN, CAPABILITY_ID_MAX in *.
    apply Hhello; [apply (Harr 0 255) | apply Ht | apply Hbuf | apply Hreq | apply (Harr 1 65535)]; done || lia.
  - intros (Hs & Htr & Hr & Hc & _ & Hcr).
    unfold CAPABILITY_IDS_MAX, CAPABILITY_ID_MIN, CAPABILITY_ID_MAX in *.
    apply Hhello; [rewrite Hs; done | apply Ht | apply Hbuf | apply Heff | apply (Harr 1 65535)]; done || lia.
  - intros (Hc & H2 & H3). destruct e as [c o2 o3]. cbn [be_code be_message be_detail] in *.
    assert (Hr : 0 <= c <= 255).
    { unfold BOOTSTRAP_ERROR_CODES in Hc. rewrite !elem_of_cons, elem_of_nil in Hc. lia. }
    unfold bootstrap_error_value, UTF8_TEXT_MAX_BYTES in *. cbn [be_code be_message be_detail].
    destruct o2 as [t2 |], o3 as [t3 |]; cbn [text_ok] in H2, H3;
      try destruct H2 as [H2 H2']; try destruct H3 as [H3 H3'];
      cbn [app text_entry cbor_okb forallb map fst ascending blen length];
      rewrite ?H2, ?H3; unfold MAX_SAFE_INTEGER, u64_max, UTF8_TEXT_MAX_BYTES in *; zcmp; by vm_compute.
Qed.

(** ** The prefix, the nine steps and the record they accept *)

Lemma Ok_inj {E A} (x y : A) : Ok (E := E) x = Ok y -> x = y.
Proof. congruence. Qed.

Section Record_.
Context `{Target}.

Definition prefix_of (kind len : Z) : bytes :=
  MAGIC ++ [BOOTSTRAP_VERSION] ++ [kind] ++ to_be 2 0 ++ to_be 4 len.

Definition payload_field (bs : bytes) : Z := of_be (sub_list bs 8 4).
Definition bootstrap_payload (bs : bytes) : bytes := sub_list bs 12 (payload_field bs).

(** Step [k] of the bootstrap rules of protocol/r2wp-v0.md for the input [bs]. *)
Definition bootstrap_step (bs : bytes) (k : Z) : Prop :=
  match k with
  | 1 => 12 <= blen bs
  | 2 => sub_list bs 0 4 = MAGIC
  | 3 => nth 4 bs 0 = BOOTSTRAP_VERSION
  | 4 => of_be (sub_list bs 6 2) = 0
  | 5 => 1 <= nth 5 bs 0 <= 3
  | 6 => payload_field bs <= BOOTSTRAP_PAYLOAD_MAX_BYTES
  | 7 => blen bs = 12 + payload_field bs
  | 8 => exists v, decode_deterministic_cbor (bootstrap_payload bs) = Ok v
  | 9 => exists r, record_ok r /\ record_kind r = nth 5 bs 0 /\
           decode_deterministic_cbor (bootstrap_payload bs) = Ok (record_value r)
  | _ => True
  end.

Lemma record_kind_range r : 1 <= record_kind r <= 3.
Proof. destruct r; cbn; lia. Qed.

(** The encoders write the prefix and the canonical payload. *)
Lemma encode_bootstrap_ok r :
  record_ok r ->
  encode_bootstrap r =
    Ok (prefix_of (record_kind r) (blen (cbor_bytes (record_value r))) ++ cbor_bytes (record_value r)).
Proof.
  intros Hr. pose proof (record_len r Hr) as Hl.
  assert (E : bootstrap_record (record_kind r) (record_value r) =
    Ok (prefix_of (record_kind r) (blen (cbor_bytes (record_value r))) ++ cbor_bytes (record_value r))).
  { unfold bootstrap_record. rewrite encode_cbor_ok by (by apply record_value_ok). cbn [obind].
    destruct (Z.ltb_spec BOOTSTRAP_PAYLOAD_MAX_BYTES (blen (cbor_bytes (record_value r)))); [lia |].
    rewrite as_unsigned_small; [by unfold prefix_of; rewrite <- !app_assoc |].
    pose proof (blen_nonneg (cbor_bytes (record_value r))). unfold BOOTSTRAP_PAYLOAD_MAX_BYTES in Hl.
    unfold is_unsigned. lia. }
  by destruct r.
Qed.

(** An input whose prefix passes steps 1-7 is that prefix and its payload. *)
Lemma prefix_split bs :
  bytes_ok bs -> (forall k, 1 <= k < 8 -> bootstrap_step bs k) ->
  bs = prefix_of (nth 5 bs 0) (blen (bootstrap_payload bs)) ++ bootstrap_payload bs /\
  blen (bootstrap_payload bs) <= BOOTSTRAP_PAYLOAD_MAX_BYTES.
Proof.
  intros Hb Hs. pose proof (Hs 1 ltac:(lia)) as H1. pose proof (Hs 2 ltac:(lia)) as H2.
  pose proof (Hs 3 ltac:(lia)) as H3. pose proof (Hs 4 ltac:(lia)) as H4.
  pose proof (Hs 6 ltac:(lia)) as H6. pose proof (Hs 7 ltac:(lia)) as H7. cbn in H1, H2, H3, H4, H6, H7.
  assert (Hp : 0 <= payload_field bs) by (apply of_be_sub_list; (done || lia)).
  assert (Hl : blen (bootstrap_payload bs) = payload_field bs) by (apply blen_sub_list; lia).
  split; [| lia]. rewrite Hl. unfold prefix_of.
  assert (E6 : to_be 2 0 = sub_list bs 6 2) by (rewrite <- H4; by apply to_be_sub_list; [| lia ..]).
  assert (E8 : to_be 4 (payload_field bs) = sub_list bs 8 4) by (by apply to_be_sub_list; [| lia ..]).
  assert (E4 : [BOOTSTRAP_VERSION] = [nth 4 bs 0]) by (by rewrite H3).
  rewrite E4, E6, E8, <- H2.
  replace [nth 4 bs 0] with (sub_list bs 4 1) by (by rewrite sub_list_1 by lia).
  replace [nth 5 bs 0] with (sub_list bs 5 1) by (by rewrite sub_list_1 by lia).
  rewrite <- !app_assoc. unfold bootstrap_payload.
  rewrite !(sub_list_join bs) by lia. cbn [Z.add Pos.add].
  symmetry. apply sub_list_all. lia.
Qed.

(** The prefix of [prefix_of] passes steps 1-7. *)
Lemma prefix_steps kind body :
  1 <= kind <= 3 -> blen body <= BOOTSTRAP_PAYLOAD_MAX_BYTES ->
  let bs := prefix_of kind (blen body) ++ body in
  (forall k, 1 <= k < 8 -> bootstrap_step bs k) /\ bootstrap_payload bs = body /\ nth 5 bs 0 = kind.
Proof.
  intros Hk Hl bs. unfold BOOTSTRAP_PAYLOAD_MAX_BYTES in Hl. pose proof (blen_nonneg body).
  assert (Hf : payload_field bs = blen body).
  { unfold payload_field, bs. rewrite sub_list_app_l by (done || lia).
    change (sub_list (prefix_of kind (blen body)) 8 4) with (to_be 4 (blen body)). apply of_be_to_be. lia. }
  assert (Hlen : blen bs = 12 + blen body) by (unfold bs; by rewrite blen_app).
  assert (Hpay : bootstrap_payload bs = body).
  { unfold bootstrap_payload. rewrite Hf. unfold bs. rewrite sub_list_app_r by done.
    change (12 - blen _) with 0. by apply sub_list_all. }
  assert (Hn : nth 5 bs 0 = kind) by done. split; [| done].
  intros k Hk'. assert (k = 1 \/ k = 2 \/ k = 3 \/ k = 4 \/ k = 5 \/ k = 6 \/ k = 7) as Hc by lia.
  repeat destruct Hc as [-> | Hc]; [.. | subst k]; cbn [bootstrap_step];
    unfold BOOTSTRAP_PAYLOAD_MAX_BYTES; try lia; done.
Qed.

End Record_.

Section Order.
Context `{Target}.
Variable bs : bytes.
Hypothesis Hb : rust_slice bs.

(** Steps 1-7 on the fields of the prefix. *)
Definition prefix_checks : P unit :=
  fail_if (blen bs <? 12) (malformed_bootstrap "truncated_prefix" 0 1) ;;?
  fail_if (negb (bool_decide (sub_list bs 0 4 = MAGIC))) (malformed_bootstrap "bad_magic" 0 2) ;;?
  fail_if (negb (nth 4 bs 0 =? BOOTSTRAP_VERSION))
    (unsupported_version_bootstrap "unsupported_bootstrap_version" 4 3) ;;?
  fail_if (negb (of_be (sub_list bs 6 2) =? 0)) (malformed_bootstrap "nonzero_flags" 6 4) ;;?
  fail_if (negb (nth 5 bs 0 =? KIND_CLIENT_HELLO) && negb (nth 5 bs 0 =? KIND_SERVER_HELLO) &&
           negb (nth 5 bs 0 =? KIND_BOOTSTRAP_ERROR)) (malformed_bootstrap "unassigned_kind" 5 5) ;;?
  fail_if (BOOTSTRAP_PAYLOAD_MAX_BYTES <? payload_field bs)
    (message_too_large_bootstrap "payload_too_large" 8 6) ;;?
  fail_if (negb (blen bs =? 12 + payload_field bs)) (malformed_bootstrap "exact_total_mismatch" 0 7).

(** Steps 8 and 9 on the payload. *)
Definition payload_checks : P BootstrapRecord :=
  v <-- match decode_deterministic_cbor (bootstrap_payload bs) with
        | Ok v => Ok v | Err e => Err (map_cbor_error e 12) | Panic => Panic
        end ;;
  decode_payload_by_kind (nth 5 bs 0) v 12.

Local Ltac consts := cbn [bootstrap_step]; unfold BOOTSTRAP_VERSION, BOOTSTRAP_PAYLOAD_MAX_BYTES.
Local Ltac step n :=
  let m := eval compute in (n + 1) in
  apply checks_guard;
    [done | lia | consts | intros ?; apply checks_next; [consts | change (n + 1) with m]].

Lemma prefix_checks_spec : checks (bootstrap_step bs) 1 8 prefix_checks.
Proof.
  unfold prefix_checks, KIND_CLIENT_HELLO, KIND_SERVER_HELLO, KIND_BOOTSTRAP_ERROR.
  step 1; [lia | lia |]. step 2; [by case_bool_decide | by case_bool_decide |].
 unfold BOOTSTRAP_VERSION, BOOTSTRAP_PAYLOAD_MAX_BYTES.
  step 3; [lia | lia |]. step 4; [lia | lia |]. step 5; [lia | lia |]. step 6; [lia | lia |].
  apply checks_last; [done | cbn [bootstrap_step]; lia | cbn [bootstrap_step]; lia].
Qed.

Lemma parse_bootstrap_split : parse_bootstrap bs = (prefix_checks ;;? payload_checks).
Proof using Hb.
  destruct Hb as [Hbytes Hsize]. pose proof usize_max_ge as Hmax. unfold u32_max in Hmax.
  unfold parse_bootstrap, prefix_checks, BOOTSTRAP_PREFIX_LENGTH, fail_if.
  destruct (Z.ltb_spec (blen bs) 12); cbn [obind]; [done |].
  rewrite slice_ok by lia. cbn [obind]. change (4 - 0) with 4.
  destruct (bool_decide _); cbn [negb obind]; [| done].
  rewrite (index_ok bs 4 0) by lia. cbn [obind]. change (Z.to_nat 4) with 4%nat.
  destruct (nth 4 bs 0 =? BOOTSTRAP_VERSION); cbn [negb obind]; [| done].
  unfold read_u16_be at 1. rewrite read_at_spec by (cbn; lia). cbn [obind]. change (Z.of_nat 2) with 2.
  destruct (of_be (sub_list bs 6 2) =? 0); cbn [negb obind]; [| done].
  rewrite (index_ok bs 5 0) by lia. cbn [obind]. change (Z.to_nat 5) with 5%nat.
  destruct (negb _ && negb _ && negb _); cbn [obind]; [done |].
  unfold read_u32_be at 1. rewrite read_at_spec by (cbn; lia). cbn [obind]. change (Z.of_nat 4) with 4.
  change (of_be (sub_list bs 8 4)) with (payload_field bs). unfold BOOTSTRAP_PAYLOAD_MAX_BYTES.
  destruct (Z.ltb_spec 65535 (payload_field bs)) as [Hpl | Hpl]; cbn [obind]; [done |].
  assert (Hp0 : 0 <= payload_field bs) by (apply of_be_sub_list; (done || lia)).
  rewrite checked_add_some by lia. cbn [ok_or obind].
  destruct (Z.eqb_spec (blen bs) (12 + payload_field bs)) as [Ht | Ht]; cbn [negb obind]; [| done].
  rewrite slice_ok by lia. cbn [obind]. by replace (12 + payload_field bs - 12) with (payload_field bs) by lia.
Qed.

Lemma payload_checks_spec :
  (forall k, 1 <= k < 8 -> bootstrap_step bs k) ->
  checks (bootstrap_step bs) 8 10 payload_checks /\
  forall r, payload_checks = Ok r ->
    record_ok r /\ record_kind r = nth 5 bs 0 /\
    decode_deterministic_cbor (bootstrap_payload bs) = Ok (record_value r).
Proof using Hb.
  intros Hs. destruct Hb as [Hbytes Hsize].
  pose proof (Hs 1 ltac:(lia)) as H1. pose proof (Hs 5 ltac:(lia)) as H5.
  pose proof (Hs 7 ltac:(lia)) as H7. cbn in H1, H5, H7.
  assert (Hp0 : 0 <= payload_field bs) by (apply of_be_sub_list; (done || lia)).
  assert (Hp : rust_slice (bootstrap_payload bs)).
  { split; [by apply bytes_ok_sub_list |]. unfold bootstrap_payload. rewrite blen_sub_list by lia. lia. }
  unfold payload_checks. pose proof (decode_cbor_sound _ Hp) as Hd.
  destruct (decode_deterministic_cbor (bootstrap_payload bs)) as [v | e |] eqn:Ed; [| | done]; cbn [obind].
  - destruct Hd as [Hok _]. assert (H8 : bootstrap_step bs 8) by (by exists v).
    pose proof (payload_sound 12 (nth 5 bs 0) v 0 ltac:(lia) Hok) as Hd'.
    destruct (decode_payload_by_kind (nth 5 bs 0) v 12) as [r | e |] eqn:Er; [| | done].
    + destruct Hd' as (Hr & Hkind & ->). split; [| intros ? [= <-]; by split_and!].
      intros k Hk. assert (k = 8 \/ k = 9) as [-> | ->] by lia; [done |]. exists r. by split_and!.
    + split; [| done]. cbn. rewrite Hd'. split; [lia |]. split.
      * intros (r & Hr & Hkind & E). rewrite Ed in E. injection E as ->.
        by rewrite <- Hkind, (payload_complete 12 r Hr) in Er.
      * intros k Hk. by replace k with 8 by lia.
  - split; [| done]. split; [cbn; lia |]. split; [| cbn; lia]. intros [v Hv]. congruence.
Qed.

Lemma parse_bootstrap_spec :
  checks (bootstrap_step bs) 1 10 (parse_bootstrap bs) /\
  forall r, parse_bootstrap bs = Ok r ->
    record_ok r /\ record_kind r = nth 5 bs 0 /\
    decode_deterministic_cbor (bootstrap_payload bs) = Ok (record_value r).
Proof using Hb.
  rewrite parse_bootstrap_split. pose proof prefix_checks_spec as Hpre. split.
  - apply (checks_bind _ 1 8 10); [lia | done |]. intros _ _ Hs. by apply payload_checks_spec.
  - intros r. destruct prefix_checks; cbn [obind]; [| done..]. by apply payload_checks_spec.
Qed.

End Order.

Lemma cbor_bytes_slice `{Target} r : record_ok r -> rust_slice (cbor_bytes (record_value r)).
Proof.
  intros Hr. split; [by apply (cbor_bytes_ok _ 0), record_value_ok |].
  pose proof (record_len r Hr). unfold BOOTSTRAP_PAYLOAD_MAX_BYTES in *. pose proof isize_max_ge. lia.
Qed.

(** What the sender writes for a well-formed record passes all nine steps. *)
Lemma encoded_bootstrap_parses `{Target} r bs :
  record_ok r -> encode_bootstrap r = Ok bs -> rust_slice bs /\ parse_bootstrap bs = Ok r.
Proof.
  intros Hr He. rewrite (encode_bootstrap_ok r Hr) in He. apply Ok_inj in He as <-.
  set (body := cbor_bytes (record_value r)). pose proof (record_len r Hr) as Hl.
  pose proof (cbor_bytes_slice r Hr) as Hs. pose proof (record_kind_range r).
  destruct (prefix_steps (record_kind r) body ltac:(lia) Hl) as (Hsteps & Hpay & Hkind).
  set (bs := prefix_of (record_kind r) (blen body) ++ body) in *.
  assert (Hb : rust_slice bs).
  { unfold BOOTSTRAP_PAYLOAD_MAX_BYTES in Hl. pose proof isize_max_ge. split.
    - apply bytes_ok_app. split; [| apply Hs]. unfold prefix_of. rewrite !bytes_ok_app.
      split_and!; try apply bytes_ok_to_be; [by apply bytes_ok_check | by apply bytes_ok_check |].
      constructor; [unfold is_byte; lia | apply bytes_ok_nil].
    - unfold bs. rewrite blen_app. change (blen (prefix_of _ _)) with 12. fold body in Hl. lia. }
  split; [done |].
  assert (Hd : decode_deterministic_cbor (bootstrap_payload bs) = Ok (record_value r)).
  { rewrite Hpay. apply decode_cbor_complete; [by apply record_value_ok | done]. }
  destruct (parse_bootstrap_spec bs Hb) as [Hc Hr'].
  destruct (parse_bootstrap bs) as [r' | e |]; [| | done].
  - destruct (Hr' r' eq_refl) as (Hok' & Hk' & Hd').
    rewrite Hd in Hd'. injection Hd' as Hd'. f_equal.
    pose proof (payload_complete 12 r Hr) as E1. pose proof (payload_complete 12 r' Hok') as E2.
    rewrite Hk', Hkind, <- Hd', E1 in E2. congruence.
  - exfalso. destruct Hc as (Hr1 & Hn & _). apply Hn.
    destruct (Z.lt_ge_cases (pe_step e) 8) as [Hlt | Hge]; [apply Hsteps; lia |].
    assert (pe_step e = 8 \/ pe_step e = 9) as [-> | ->] by lia; cbn [bootstrap_step].
    + by eexists.
    + exists r. by rewrite Hkind.
Qed.

Section Properties.
Context `{Target}.

(** The bootstrap parser never panics, whatever the bytes; it accepts exactly
    when the nine rules of the receiver hold, and an error always names the
    first rule that fails. *)
Theorem bootstrap_validation_order bs :
  rust_slice bs ->
  match parse_bootstrap bs with
  | Ok r =>
      (forall k, 1 <= k <= 9 -> bootstrap_step bs k) /\
      record_ok r /\ record_kind r = nth 5 bs 0 /\
      decode_deterministic_cbor (bootstrap_payload bs) = Ok (record_value r)
  | Err e =>
      1 <= pe_step e <= 9 /\ ~ bootstrap_step bs (pe_step e) /\
      forall k, 1 <= k < pe_step e -> bootstrap_step bs k
  | Panic => False
  end.
Proof.
  intros Hb. destruct (parse_bootstrap_spec bs Hb) as [Hc Hr]. unfold checks in Hc.
  destruct (parse_bootstrap bs) as [r | e |]; [| | done].
  - split; [intros; apply Hc; lia | by apply Hr].
  - destruct Hc as (? & ? & ?). split; [lia | done].
Qed.

(** C19: parser and encoder are inverse: the accepted inputs are exactly the
    encodings of the well-formed records (version lists of 1 to 16 distinct
    bytes, strictly ascending capability ids, limits in their profile ranges,
    error codes of the bootstrap set), so a record has one wire form and no
    other input yields it. *)
Theorem bootstrap_exact bs r :
  rust_slice bs -> parse_bootstrap bs = Ok r <-> record_ok r /\ encode_bootstrap r = Ok bs.
Proof.
  intros Hb. split; [| intros [Hr He]; by apply encoded_bootstrap_parses].
  intros Hp. destruct (parse_bootstrap_spec bs Hb) as [Hc Hr]. rewrite Hp in Hc.
  destruct (Hr r Hp) as (Hok & Hkind & Hd). split; [done |].
  destruct (prefix_split bs (proj1 Hb)) as [Hsplit Hl]; [intros; apply Hc; lia |].
  assert (Hpay : rust_slice (bootstrap_payload bs)).
  { split; [by apply bytes_ok_sub_list, Hb |]. pose proof isize_max_ge. unfold BOOTSTRAP_PAYLOAD_MAX_BYTES in Hl. lia. }
  pose proof (decode_cbor_sound _ Hpay) as Hv. rewrite Hd in Hv. destruct Hv as [_ Hv].
  rewrite encode_bootstrap_ok, Hkind, <- Hv by done. by rewrite <- Hsplit.
Qed.

(** The bootstrap encoders never fail on a well-formed record, the record
    fits the 65535-byte payload bound, and reading it back gives the record. *)
Theorem bootstrap_round_trip r :
  record_ok r ->
  exists bs, encode_bootstrap r = Ok bs /\ 12 < blen bs <= 12 + BOOTSTRAP_PAYLOAD_MAX_BYTES /\
    parse_bootstrap bs = Ok r.
Proof.
  intros Hr. pose proof (encode_bootstrap_ok r Hr) as He. eexists. split; [exact He |].
  split; [| by apply (encoded_bootstrap_parses r)].
  rewrite blen_app. change (blen (prefix_of _ _)) with 12.
  pose proof (record_len r Hr). pose proof (cbor_bytes_len (record_value r)). lia.
Qed.

End Properties.

(** *** Concrete records *)

Definition sample_transport : TransportCapabilities :=
  {| webtransport_http3 := true; binary_wss := true; max_datagram_size := Some 1200 |}.
Definition sample_buffer : BufferCapabilities :=
  {| transferable_arraybuffer := true; shared_arraybuffer := false |}.
Definition sample_client : BootstrapRecord :=
  RClientHello {|
    wire_versions := [0]; ch_transport := sample_transport; ch_buffer := sample_buffer;
    requested_limits := {| rl_max_channels := Some 64; rl_max_session_bytes := None;
      rl_max_message_bytes := Some 1048576; rl_max_control_payload_bytes := None |};
    ch_extensions := [1; 7]
  |}.
Definition sample_error : BootstrapRecord :=
  RBootstrapError {| be_code := 2; be_message := Some (lit "no"); be_detail := None |}.

Definition sample_client_bytes : bytes :=
  match encode_bootstrap (H := Wasm32) sample_client with Ok bs => bs | _ => [] end.

Lemma sample_client_ok : record_ok sample_client.
Proof.
  unfold sample_client, record_ok, client_ok, versions_ok, requested_ok, capabilities_ok, transport_ok,
    opt_in_range, in_range, WIRE_VERSIONS_MAX, CAPABILITY_IDS_MAX, CAPABILITY_ID_MIN, CAPABILITY_ID_MAX.
  cbn. unfold u32_max, u64_max.
  split_and!; try lia; try done.
  - by apply NoDup_singleton.
  - repeat constructor; lia.
  - repeat constructor; lia.
  - repeat constructor; lia.
Qed.

Lemma sample_client_slice : rust_slice (H := Wasm32) sample_client_bytes.
Proof. split; [by apply bytes_ok_check; vm_compute | by vm_compute]. Qed.

Example truncated_prefix_example :
  parse_bootstrap (H := Wasm32) (take 11 sample_client_bytes) = Err (malformed_bootstrap "truncated_prefix" 0 1).
Proof. by vm_compute. Qed.

Lemma bootstrap_validation_order_witness :
  match parse_bootstrap (H := Wasm32) sample_client_bytes with
  | Ok r =>
      (forall k, 1 <= k <= 9 -> bootstrap_step (H := Wasm32) sample_client_bytes k) /\
      record_ok r /\ record_kind r = nth 5 sample_client_bytes 0 /\
      decode_deterministic_cbor (H := Wasm32) (bootstrap_payload sample_client_bytes) = Ok (record_value r)
  | Err e =>
      1 <= pe_step e <= 9 /\ ~ bootstrap_step (H := Wasm32) sample_client_bytes (pe_step e) /\
      forall k, 1 <= k < pe_step e -> bootstrap_step (H := Wasm32) sample_client_bytes k
  | Panic => False
  end.
Proof. exact (bootstrap_validation_order (H := Wasm32) sample_client_bytes sample_client_slice). Defined.

Lemma bootstrap_exact_witness :
  parse_bootstrap (H := Wasm32) sample_client_bytes = Ok sample_client /\ 
  (record_ok sample_client /\ encode_bootstrap (H := Wasm32) sample_client = Ok sample_client_bytes).
Proof.
  assert (Hp : parse_bootstrap (H := Wasm32) sample_client_bytes = Ok sample_client) by (by vm_compute).
  split; [exact Hp |].
  exact (proj1 (bootstrap_exact (H := Wasm32) sample_client_bytes sample_client sample_client_slice) Hp).
Defined.

Lemma bootstrap_round_trip_witness :
  record_ok sample_client /\
  exists bs, encode_bootstrap (H := Wasm32) sample_client = Ok bs /\
    12 < blen bs <= 12 + BOOTSTRAP_PAYLOAD_MAX_BYTES /\
    parse_bootstrap (H := Wasm32) bs = Ok sample_client.
Proof. split; [exact sample_client_ok | exact (bootstrap_round_trip (H := Wasm32) sample_client sample_client_ok)]. Defined.
