(* ===== verification/Accept.v ===== *)
(** * Building control messages the parser accepts

    [good s d n v]: the value [v] conforms to the schema [s], belongs to the
    deterministic profile at nesting level [d] and takes at most [n] bytes.  The
    lemmas below build it bottom-up, the tactic [good] applies them, and
    [good_message] turns it into a frame its receiver reads back. *)

From S2P Require Import Prelude Utf8 Cbor ControlSchema Control Frame Bootstrap.
Import ControlSchema.Schema.
#[local] Open Scope Z_scope.

Definition good (s : Schema) (d n : Z) (v : CborValue) : Prop :=
  conforms s v /\ cbor_okb v d = true /\ blen (cbor_bytes v) <= n.

(** ** Leaves *)

Lemma good_bool d b : good SBool d 9 (Bool b).
Proof. split_and!; [constructor | done | by destruct b]. Qed.

Lemma good_uint lo hi d n :
  lo <= n <= hi -> ~ (lo = 1 /\ hi = 28 /\ n = 20) -> 0 <= n <= u64_max -> good (SUint lo hi) d 9 (Unsigned n).
Proof. intros. split_and!; [by constructor | cbn; lia | apply unsigned_len]. Qed.

Lemma good_const d n : 0 <= n <= u64_max -> good (SConstU64 n) d 9 (Unsigned n).
Proof. intros. split_and!; [constructor | cbn; lia | apply unsigned_len]. Qed.

(** Text the Rust types and the schemas admit. *)
Definition text_within (lo hi : Z) (t : bytes) : Prop := utf8_valid t = true /\ lo <= blen t <= hi.

Lemma good_text lo hi one_of d t :
  text_within lo hi t -> hi <= MAX_SAFE_INTEGER -> (forall set, one_of = Some set -> t ∈ set) ->
  good (SText lo hi one_of) d (9 + hi) (Text t).
Proof.
  intros [Hu Hl] Hh Ho. split_and!; [by constructor | cbn; rewrite Hu; lia |].
  cbn [cbor_bytes]. rewrite blen_app. pose proof (head_bytes_len 3 (blen t)). lia.
Qed.

Lemma good_bytes lo hi d b :
  bytes_ok b -> lo <= blen b <= hi -> hi <= MAX_SAFE_INTEGER -> good (SBytes lo hi) d (9 + hi) (Bytes b).
Proof.
  intros Hb Hl Hh. split_and!; [by constructor | |].
  - cbn. apply andb_true_intro. split; [| lia]. apply forallb_Forall. eapply Forall_impl; [exact Hb |].
    intros x Hx. unfold is_byte in Hx. lia.
  - cbn [cbor_bytes]. rewrite blen_app. pose proof (head_bytes_len 2 (blen b)). lia.
Qed.

(** ** Arrays, maps and alternatives *)

Lemma concat_len {A} (f : A -> bytes) n l :
  Forall (fun a => blen (f a) <= n) l -> blen (concat (map f l)) <= n * blen l.
Proof.
  induction 1 as [| a l Ha Hl IH]; [change (0 <= n * 0); lia |]. cbn [map concat]. rewrite blen_app, blen_cons. lia.
Qed.

Lemma good_array lo hi items rule d n arr :
  Forall (good items (d + 1) n) arr -> lo <= blen arr <= hi -> rule_holds rule arr -> d < 16 -> hi <= MAX_SAFE_INTEGER ->
  good (SArray lo hi items rule) d (9 + n * blen arr) (Array arr).
Proof.
  intros Hall Hl Hr Hd Hh. unfold good in Hall. rewrite !Forall_and in Hall. destruct Hall as (Hc & Ho & Hn). split_and!.
  - by constructor.
  - cbn [cbor_okb]. apply andb_true_intro. split; [unfold MAX_NESTING_DEPTH; lia | by apply forallb_Forall].
  - cbn [cbor_bytes]. rewrite blen_app. pose proof (head_bytes_len 4 (blen arr)). pose proof (concat_len _ n arr Hn). lia.
Qed.

Fixpoint schema_of (fields : list (Z * bool * Schema)) (k : Z) : option Schema :=
  match fields with
  | [] => None
  | (k', _, s) :: fields' => if k' =? k then Some s else schema_of fields' k
  end.

Lemma schema_of_in fields k s : schema_of fields k = Some s -> exists r, (k, r, s) ∈ fields.
Proof.
  induction fields as [| [[k' r] s'] fields IH]; [done |]. cbn [schema_of].
  destruct (Z.eqb_spec k' k) as [-> |]; [intros [= ->]; exists r; by left |].
  intros H. destruct (IH H) as (r' & Hin). exists r'. by right.
Qed.

(** Entries that each have a field of their own. *)
Inductive entries_good (fields : list (Z * bool * Schema)) (d : Z) : Z -> list (Z * CborValue) -> Prop :=
| EG_nil : entries_good fields d 0 []
| EG_cons k v es s n m :
    schema_of fields k = Some s -> good s (d + 1) n v -> entries_good fields d m es ->
    entries_good fields d (9 + n + m) ((k, v) :: es).

Lemma entries_good_app fields d n m l k :
  entries_good fields d n l -> entries_good fields d m k -> entries_good fields d (n + m) (l ++ k).
Proof.
  intros Hl Hk. induction Hl as [| k0 v es s n0 m0 Hs Hv _ IH]; [done |].
  cbn [app]. replace (9 + n0 + m0 + m) with (9 + n0 + (m0 + m)) by lia. by econstructor.
Qed.

(** Every required key is there, and the keys ascend in their range. *)
Definition keys_fit (fields : list (Z * bool * Schema)) (ks : list Z) : bool :=
  forallb (fun '(k, r, _) => negb r || existsb (Z.eqb k) ks) fields &&
  forallb (fun k => (0 <=? k) && (k <=? u64_max)) ks && ascending ks && (blen ks <=? MAX_MAP_ENTRIES).

Lemma entries_good_in fields d n es k v :
  entries_good fields d n es -> (k, v) ∈ es ->
  exists s n', schema_of fields k = Some s /\ good s (d + 1) n' v.
Proof.
  induction 1 as [| k0 v0 es s n0 m0 Hs Hv _ IH]; [intros Hin; by apply not_elem_of_nil in Hin |].
  rewrite elem_of_cons. intros [[= -> ->] | Hin]; [by exists s, n0 | by apply IH].
Qed.

Lemma entries_good_len fields d n es :
  entries_good fields d n es -> blen (concat (map entry_bytes es)) <= n.
Proof.
  induction 1 as [| k v es s n m _ (_ & _ & Hv) _ IH]; [done |]. cbn [map concat]. rewrite blen_app.
  unfold entry_bytes at 1. cbn [fst snd]. rewrite blen_app. pose proof (head_bytes_len 0 k). lia.
Qed.

Lemma good_map fields d n es :
  entries_good fields d n es -> keys_fit fields (map fst es) = true -> d < 16 ->
  good (SMapDyn fields) d (9 + n) (Map es).
Proof.
  unfold keys_fit. rewrite !andb_true_iff. intros He [[[Hr Hu] Ha] Hl] Hd. split_and!.
  - apply C_map.
    + intros k v Hin. destruct (entries_good_in _ _ _ _ _ _ He Hin) as (s & n' & Hs & Hg & _).
      destruct (schema_of_in _ _ _ Hs) as (r & ?). by exists r, s.
    + intros k s Hin. apply forallb_Forall in Hr. rewrite Forall_forall in Hr. apply Hr in Hin. cbn in Hin.
      apply existsb_exists in Hin as (k' & Hk & Heq). apply Z.eqb_eq in Heq as <-.
      apply in_map_iff in Hk as ([k' v] & <- & Hin). exists v. by apply list_elem_of_In.
  - cbn [cbor_okb]. rewrite !andb_true_iff. rewrite blen_map in Hl. split_and!; [unfold MAX_NESTING_DEPTH; lia | done | done |].
    apply forallb_Forall, Forall_forall. intros [k v] Hin.
    destruct (entries_good_in _ _ _ _ _ _ He Hin) as (s & n' & _ & _ & Ho & _).
    apply forallb_Forall in Hu. rewrite Forall_forall in Hu.
    by rewrite (Hu k (list_elem_of_fmap_2 fst _ _ Hin)), Ho.
  - rewrite cbor_bytes_map, blen_app. pose proof (head_bytes_len 5 (blen es)).
    pose proof (entries_good_len _ _ _ _ He). lia.
Qed.

(** The alternative at position [i]. *)
Lemma good_union i vs s d n v : nth_error vs i = Some s -> good s d n v -> good (SUnion vs) d n v.
Proof.
  intros Hi (Hc & Ho & Hn). split_and!; [| done | done]. eapply C_union; [| exact Hc].
  apply list_elem_of_In. by eapply nth_error_In.
Qed.

Lemma good_conforms s s' d n v : (conforms s v -> conforms s' v) -> good s d n v -> good s' d n v.
Proof. intros Hs (Hc & Ho & Hn). split_and!; auto. Qed.

Lemma good_weaken s d n m v : good s d n v -> n <= m -> good s d m v.
Proof. intros (Hc & Ho & Hn) ?. split_and!; [done | done | lia]. Qed.

(** ** From a value to a frame *)

Lemma typed_canon v : typed (canon v) = typed v.
Proof.
  induction v as [| b | n | n | b | s | items IH | entries IH] using CborValue_nested_ind; try done.
  - cbn [canon typed]. rewrite blen_map. f_equal. induction IH as [| v l Hv _ IHl]; [done |].
    cbn [map forallb]. by rewrite Hv, IHl.
  - rewrite canon_map. cbn [typed]. apply eq_iff_eq_true.
    assert (Hp : Permutation (map (prod_map id canon) (sort_by_key entries)) (map (prod_map id canon) entries)).
    { apply Permutation_map, sort_by_key_perm. }
    rewrite !forallb_Forall, Hp, Forall_map. rewrite <- forallb_Forall, <- forallb_Forall.
    clear Hp. induction IH as [| [k v] l Hv _ IHl]; [done |]. cbn [snd] in Hv.
    cbn [forallb prod_map fst snd id]. by rewrite Hv, !andb_true_iff, IHl.
Qed.

Section Frames.
Context `{Target}.

Lemma good_payload v es kind s n :
  canon v = Map es -> kind_schema kind = Some s -> good s 0 n (Map es) -> (1, Unsigned kind) ∈ es ->
  (kind = CONTROL_KIND_SESSION_READY -> triple_ok (list_to_map es)) ->
  blen (cbor_bytes (Map es)) <= CONTROL_PAYLOAD_MAX_BYTES ->
  rust_slice (cbor_bytes (Map es)) /\ encode_deterministic_cbor v = Ok (cbor_bytes (Map es)) /\
  decode_control_message (cbor_bytes (Map es)) = Ok {| cm_kind := kind; cm_fields := list_to_map es |}.
Proof.
  intros Hcan Hs (Hc & Hok & _) H1 Ht Hl. pose proof isize_max_ge. unfold CONTROL_PAYLOAD_MAX_BYTES in Hl.
  assert (Hsl : rust_slice (cbor_bytes (Map es))) by (split; [by eapply cbor_bytes_ok | lia]).
  assert (Hv : typed v = true) by (rewrite <- typed_canon, Hcan; by eapply cbor_okb_typed).
  split; [done |]. split.
  - pose proof (encode_cbor_spec v Hv) as He. rewrite Hcan in He.
    destruct (encode_deterministic_cbor v); [by destruct He as [_ ->] | congruence | done].
  - pose proof (decode_control_spec _ Hsl) as Hd.
    pose proof (decode_cbor_complete (Map es) Hok Hsl) as Hdec.
    assert (Hm : message_ok es {| cm_kind := kind; cm_fields := list_to_map es |}).
    { split_and!; [done | done | by exists s | done]. }
    destruct (decode_control_message _) as [m | e |]; [| exfalso; by eapply Hd | done].
    destruct Hd as (es' & _ & Hdec' & Hm'). rewrite Hdec in Hdec'. apply Ok_inj in Hdec'. injection Hdec' as <-.
    f_equal. apply cbor_okb_map in Hok as [Ha _]. by eapply message_ok_unique.
Qed.

Lemma good_message opts sequence v es kind s n :
  canon v = Map es -> kind_schema kind = Some s -> good s 0 n (Map es) -> (1, Unsigned kind) ∈ es ->
  (kind = CONTROL_KIND_SESSION_READY -> triple_ok (list_to_map es)) ->
  blen (cbor_bytes (Map es)) <= CONTROL_PAYLOAD_MAX_BYTES ->
  is_byte (selected_version opts) -> is_unsigned 64 sequence ->
  exists bs, encode_control_frame (selected_version opts) sequence v = Ok bs /\
    parse_frame bs (Some opts) = Ok (control_frame (selected_version opts) sequence (blen (cbor_bytes (Map es)))
      {| cm_kind := kind; cm_fields := list_to_map es |}).
Proof.
  intros Hcan Hs Hg H1 Ht Hl Hv Hq. destruct (good_payload v es kind s n Hcan Hs Hg H1 Ht Hl) as (Hsl & He & Hd).
  by apply control_frame_parses.
Qed.

End Frames.

(** ** Automation *)

(** Side conditions about literals and the hypotheses at hand. *)
Ltac good_side :=
  unfold UINT32_MAX, UINT64_MAX, UTF8_TEXT_MAX, DOMAIN_ID_MAX, MAX_SAFE_INTEGER, u32_max, u64_max in *;
  solve [ lia | assumption | reflexivity | discriminate ].

(** The composite pieces a development has lemmas for. *)
Create HintDb good_parts.

(** Goals [good s d ?n v] for explicit maps; constants of an alternative are
    tried in turn, larger alternatives are left. *)
Ltac good :=
  first [ eassumption | solve [eauto 3 with good_parts] | good_shape ]
with good_shape :=
  lazymatch goal with
  | |- good ?s ?d ?n ?v =>
      let s' := eval hnf in s in
      let v' := eval hnf in v in
      change (good s' d n v');
      lazymatch s' with
      | SBool => apply good_bool
      | SUint _ _ => apply good_uint; good_side
      | SConstU64 _ => apply good_const; good_side
      | SText _ _ _ => apply good_text; good_side
      | SBytes _ _ => apply good_bytes; good_side
      | SMapDyn _ => eapply good_map; [repeat (eapply EG_cons; [reflexivity | try good |]); try apply EG_nil
                                      | reflexivity | good_side]
      | SUnion _ => first [ solve [eapply (good_union 0); [reflexivity | good]]
                          | solve [eapply (good_union 1); [reflexivity | good]] ]
      end
  end.
