(* ===== verification/Session.v ===== *)
(** * The session and channel state machine

    [rclweb/src/session/]: [state.rs] (roles and phases), [channel.rs] (the
    channel table), [transition.rs] (the handlers of bootstrap records and
    frames) and the [Session] type of [mod.rs]. *)

From stdpp Require Import gmap.
From S2P Require Import Prelude ProtocolError Cbor Extension ControlSchema Control Frame Bootstrap.
Import ControlSchema.Schema(CONTROL_KIND_AUTHENTICATE, CONTROL_KIND_SESSION_READY,
  CONTROL_KIND_GRAPH_SNAPSHOT, CONTROL_KIND_GRAPH_DELTA, CONTROL_KIND_SCHEMA_REQUEST,
  CONTROL_KIND_SCHEMA_ADVERTISE, CONTROL_KIND_SCHEMA_RESPONSE, CONTROL_KIND_OPEN_CHANNEL,
  CONTROL_KIND_CHANNEL_READY, CONTROL_KIND_CLOSE_CHANNEL, CONTROL_KIND_CLOCK_SYNC,
  CONTROL_KIND_HEARTBEAT, CONTROL_KIND_SESSION_RESUME, CONTROL_KIND_SESSION_RESUME_RESULT,
  CONTROL_KIND_ERROR).
#[local] Open Scope Z_scope.

(** ** Roles and phases *)

Inductive Role := Client | Server.

Definition peer (r : Role) : Role := match r with Client => Server | Server => Client end.

Inductive SessionPhase :=
| AwaitClientHello
| AwaitServerHello
| SelectedAwaitAuthenticate
| SelectedAwaitSessionReady
| Ready
| BootstrapFailed
| Failed.

#[export] Instance Role_eq_dec : EqDecision Role.
Proof. solve_decision. Defined.
#[export] Instance SessionPhase_eq_dec : EqDecision SessionPhase.
Proof. solve_decision. Defined.

Definition in_selected_plane (p : SessionPhase) : bool :=
  match p with
  | SelectedAwaitAuthenticate | SelectedAwaitSessionReady | Ready | Failed => true
  | _ => false
  end.
Definition is_ready (p : SessionPhase) : bool := match p with Ready => true | _ => false end.
Definition is_terminal (p : SessionPhase) : bool :=
  match p with BootstrapFailed | Failed => true | _ => false end.

(** ** Channels *)

Inductive OperationKind :=
| TopicSubscribe | TopicPublish | ServiceClient | ServiceServer | ActionClient | ActionServer.

#[export] Instance OperationKind_eq_dec : EqDecision OperationKind.
Proof. solve_decision. Defined.

Definition OperationKind_from_u8 (value : Z) : option OperationKind :=
  match value with
  | 0 => Some TopicSubscribe | 1 => Some TopicPublish | 2 => Some ServiceClient
  | 3 => Some ServiceServer | 4 => Some ActionClient | 5 => Some ActionServer
  | _ => None
  end.

Definition allows_ros_sample_from (k : OperationKind) (sender : Role) : bool :=
  match k with
  | TopicSubscribe => match sender with Server => true | Client => false end
  | TopicPublish => match sender with Client => true | Server => false end
  | _ => false
  end.

Definition is_service (k : OperationKind) : bool :=
  match k with ServiceClient | ServiceServer => true | _ => false end.
Definition is_action (k : OperationKind) : bool :=
  match k with ActionClient | ActionServer => true | _ => false end.

Definition is_action_opcode (opcode : Z) : bool :=
  (opcode =? OPCODE_ACTION_GOAL) || (opcode =? OPCODE_ACTION_FEEDBACK) ||
  (opcode =? OPCODE_ACTION_RESULT) || (opcode =? OPCODE_ACTION_STATUS) ||
  (opcode =? OPCODE_ACTION_CANCEL).

Definition allows_opcode (k : OperationKind) (opcode : Z) : bool :=
  match k with
  | TopicSubscribe | TopicPublish => opcode =? OPCODE_ROS_SAMPLE
  | ServiceClient | ServiceServer =>
      (opcode =? OPCODE_SERVICE_REQUEST) || (opcode =? OPCODE_SERVICE_RESPONSE)
  | ActionClient | ActionServer => is_action_opcode opcode
  end.

Definition opcode_sender (k : OperationKind) (opcode : Z) : option Role :=
  let goal_side := (opcode =? OPCODE_ACTION_GOAL) || (opcode =? OPCODE_ACTION_CANCEL) in
  let result_side := (opcode =? OPCODE_ACTION_FEEDBACK) || (opcode =? OPCODE_ACTION_RESULT) ||
                     (opcode =? OPCODE_ACTION_STATUS) in
  match k with
  | TopicSubscribe => if opcode =? OPCODE_ROS_SAMPLE then Some Server else None
  | TopicPublish => if opcode =? OPCODE_ROS_SAMPLE then Some Client else None
  | ServiceClient =>
      if opcode =? OPCODE_SERVICE_REQUEST then Some Client
      else if opcode =? OPCODE_SERVICE_RESPONSE then Some Server else None
  | ServiceServer =>
      if opcode =? OPCODE_SERVICE_REQUEST then Some Server
      else if opcode =? OPCODE_SERVICE_RESPONSE then Some Client else None
  | ActionClient => if goal_side then Some Client else if result_side then Some Server else None
  | ActionServer => if goal_side then Some Server else if result_side then Some Client else None
  end.

Inductive ChannelResult := Allow | Deny | Limited | RError.

Definition ChannelResult_from_u8 (value : Z) : option ChannelResult :=
  match value with
  | 0 => Some Allow | 1 => Some Deny | 2 => Some Limited | 3 => Some RError | _ => None
  end.

Definition is_success (r : ChannelResult) : bool :=
  match r with Allow | Limited => true | _ => false end.

Inductive ChannelState := Unused | Pending | Active | ChFailed | Closed.

#[export] Instance ChannelState_eq_dec : EqDecision ChannelState.
Proof. solve_decision. Defined.

Definition channel_is_terminal (s : ChannelState) : bool :=
  match s with ChFailed | Closed => true | _ => false end.

Record ChannelEntry := mk_entry {
  ce_state : ChannelState;
  ce_operation_kind : OperationKind;
  ce_open_correlation : bytes
}.

(** [BTreeMap<u32, ChannelEntry>]. *)
Abbreviation ChannelTable := (gmap Z ChannelEntry).

Definition table_state (t : ChannelTable) (id : Z) : ChannelState :=
  match t !! id with Some e => ce_state e | None => Unused end.
Definition table_contains (t : ChannelTable) (id : Z) : bool := bool_decide (is_Some (t !! id)).
Definition insert_pending (t : ChannelTable) (id : Z) (operation_kind : OperationKind)
    (open_correlation : bytes) : ChannelTable :=
  <[id := mk_entry Pending operation_kind open_correlation]> t.
Definition set_state (t : ChannelTable) (id : Z) (state : ChannelState) : ChannelTable :=
  match t !! id with
  | Some e => <[id := mk_entry state (ce_operation_kind e) (ce_open_correlation e)]> t
  | None => t
  end.

(** ** State and effects *)

Definition FIELD_CORRELATION_ID : Z := 2.
Definition FIELD_CHANNEL_ID : Z := 29.
Definition FIELD_OPERATION_KIND : Z := 30.
Definition FIELD_CHANNEL_RESULT : Z := 33.
Definition FIELD_GRAPH_GENERATION : Z := 14.
Definition FIELD_BASE_GENERATION : Z := 24.
Definition FIELD_ERROR_SCOPE : Z := 49.

Record SessionEffects := mk_effects {
  fx_entered_selected_plane : bool;
  fx_entered_ready : bool;
  fx_bootstrap_failed : bool;
  fx_session_error : bool;
  fx_channel_opened : option Z;
  fx_channel_failed : option Z;
  fx_channel_closed : option Z;
  fx_heartbeat : bool;
  fx_auth_correlation_matched : bool;
  fx_channel_correlation_matched : bool;
  fx_graph_snapshot : option Z;
  fx_graph_delta : option Z;
  fx_operation_cancelled : option Z
}.

Definition no_effects : SessionEffects :=
  mk_effects false false false false None None None false false false None None None.

Definition with_entered_selected_plane (e : SessionEffects) : SessionEffects :=
  let '(mk_effects _ b c d f g h i j k l m n) := e in mk_effects true b c d f g h i j k l m n.
Definition with_entered_ready (e : SessionEffects) : SessionEffects :=
  let '(mk_effects a _ c d f g h i j k l m n) := e in mk_effects a true c d f g h i j k l m n.
Definition with_bootstrap_failed (e : SessionEffects) : SessionEffects :=
  let '(mk_effects a b _ d f g h i j k l m n) := e in mk_effects a b true d f g h i j k l m n.
Definition with_session_error (e : SessionEffects) : SessionEffects :=
  let '(mk_effects a b c _ f g h i j k l m n) := e in mk_effects a b c true f g h i j k l m n.
Definition with_channel_opened (id : Z) (e : SessionEffects) : SessionEffects :=
  let '(mk_effects a b c d _ g h i j k l m n) := e in mk_effects a b c d (Some id) g h i j k l m n.
Definition with_channel_failed (id : Z) (e : SessionEffects) : SessionEffects :=
  let '(mk_effects a b c d f _ h i j k l m n) := e in mk_effects a b c d f (Some id) h i j k l m n.
Definition with_channel_closed (id : Z) (e : SessionEffects) : SessionEffects :=
  let '(mk_effects a b c d f g _ i j k l m n) := e in mk_effects a b c d f g (Some id) i j k l m n.
Definition with_heartbeat (e : SessionEffects) : SessionEffects :=
  let '(mk_effects a b c d f g h _ j k l m n) := e in mk_effects a b c d f g h true j k l m n.
Definition with_auth_matched (e : SessionEffects) : SessionEffects :=
  let '(mk_effects a b c d f g h i _ k l m n) := e in mk_effects a b c d f g h i true k l m n.
Definition with_channel_matched (e : SessionEffects) : SessionEffects :=
  let '(mk_effects a b c d f g h i j _ l m n) := e in mk_effects a b c d f g h i j true l m n.
Definition with_graph_snapshot (v : Z) (e : SessionEffects) : SessionEffects :=
  let '(mk_effects a b c d f g h i j k _ m n) := e in mk_effects a b c d f g h i j k (Some v) m n.
Definition with_graph_delta (v : Z) (e : SessionEffects) : SessionEffects :=
  let '(mk_effects a b c d f g h i j k l _ n) := e in mk_effects a b c d f g h i j k l (Some v) n.
Definition with_operation_cancelled (id : Z) (e : SessionEffects) : SessionEffects :=
  let '(mk_effects a b c d f g h i j k l m _) := e in mk_effects a b c d f g h i j k l m (Some id).

Record SessionState := mk_state {
  ss_role : Role;
  ss_phase : SessionPhase;
  ss_channels : ChannelTable;
  ss_pending_auth_correlation : option bytes;
  ss_selected_wire_version : option Z;
  ss_graph_generation : option Z
}.

Definition new_state (r : Role) : SessionState := mk_state r AwaitClientHello ∅ None None None.

Definition with_phase (p : SessionPhase) (s : SessionState) : SessionState :=
  mk_state (ss_role s) p (ss_channels s) (ss_pending_auth_correlation s)
    (ss_selected_wire_version s) (ss_graph_generation s).
Definition with_channels (t : ChannelTable) (s : SessionState) : SessionState :=
  mk_state (ss_role s) (ss_phase s) t (ss_pending_auth_correlation s)
    (ss_selected_wire_version s) (ss_graph_generation s).
Definition with_pending_auth (c : option bytes) (s : SessionState) : SessionState :=
  mk_state (ss_role s) (ss_phase s) (ss_channels s) c (ss_selected_wire_version s) (ss_graph_generation s).
Definition with_selected (v : option Z) (s : SessionState) : SessionState :=
  mk_state (ss_role s) (ss_phase s) (ss_channels s) (ss_pending_auth_correlation s) v (ss_graph_generation s).
Definition with_generation (g : option Z) (s : SessionState) : SessionState :=
  mk_state (ss_role s) (ss_phase s) (ss_channels s) (ss_pending_auth_correlation s)
    (ss_selected_wire_version s) g.

(** The pair of mutable borrows the handlers take. *)
Record Borrows := mk_borrows { b_state : SessionState; b_effects : SessionEffects }.

Abbreviation Handler := (SM Borrows ProtocolError unit).
Abbreviation Apply := (SM SessionState ProtocolError SessionEffects).

Definition update (f : SessionState -> SessionState) : Handler :=
  modify (fun m => mk_borrows (f (b_state m)) (b_effects m)).
Definition effect (f : SessionEffects -> SessionEffects) : Handler :=
  modify (fun m => mk_borrows (b_state m) (f (b_effects m))).
Definition read {A} (f : SessionState -> A) : SM Borrows ProtocolError A := gets (fun m => f (b_state m)).
Definition require {S A} (o : option A) (e : ProtocolError) : SM S ProtocolError A := lift (ok_or o e).
Definition check {S} (c : bool) (e : ProtocolError) : SM S ProtocolError unit := lift (Prelude.guard c e).
(** [debug_assert!]: a debug build panics. *)
Definition debug_assert (f : SessionState -> bool) : Handler :=
  fun m => if f (b_state m) then (Ok tt, m) else (Panic, m).

Definition violation (reason : string) : ProtocolError := protocol_violation reason 0 25.

(** ** Reading messages *)

(** The first [OPERATION_ID] extension decides. *)
Fixpoint operation_id_in (exts : list R2wpExtension) : option bytes :=
  match exts with
  | [] => None
  | ext :: exts' =>
      if ext_type_id ext =? OPERATION_ID_EXTENSION_TYPE then
        if negb (blen (ext_value ext) =? 16) then None else Some (ext_value ext)
      else operation_id_in exts'
  end.
Definition frame_operation_id (frame : DecodedFrame) : option bytes :=
  operation_id_in (df_extensions frame).

Definition is_service_or_action_opcode (opcode : Z) : bool :=
  (opcode =? OPCODE_SERVICE_REQUEST) || (opcode =? OPCODE_SERVICE_RESPONSE) || is_action_opcode opcode.
Definition operation_id_required (opcode : Z) : bool := is_service_or_action_opcode opcode.
Definition operation_id_may_be_zero (opcode : Z) : bool := opcode =? OPCODE_ACTION_STATUS.

Definition field_uint (msg : ControlMessage) (key : Z) : option Z :=
  match cm_fields msg !! key with
  | Some (Unsigned v) => Some v
  | Some (Negative v) => if 0 <=? v then Some (as_unsigned 64 v) else None
  | _ => None
  end.
Definition field_bytes (msg : ControlMessage) (key : Z) : option bytes :=
  match cm_fields msg !! key with Some (Bytes b) => Some b | _ => None end.
Definition correlation_vec (msg : ControlMessage) : bytes :=
  match field_bytes msg FIELD_CORRELATION_ID with Some b => b | None => [] end.

Definition correlations_match (pending : option bytes) (response : bytes) : bool :=
  match pending with
  | Some p =>
      if negb (blen p =? 0) && negb (blen response =? 0) then bool_decide (p = response) else false
  | None => false
  end.

Definition is_ready_required_kind (kind : Z) : bool :=
  existsb (Z.eqb kind)
    [CONTROL_KIND_GRAPH_SNAPSHOT; CONTROL_KIND_GRAPH_DELTA; CONTROL_KIND_SCHEMA_REQUEST;
     CONTROL_KIND_SCHEMA_RESPONSE; CONTROL_KIND_SCHEMA_ADVERTISE; CONTROL_KIND_OPEN_CHANNEL;
     CONTROL_KIND_CHANNEL_READY; CONTROL_KIND_CLOSE_CHANNEL; CONTROL_KIND_CLOCK_SYNC;
     CONTROL_KIND_HEARTBEAT].

Definition control_sender (kind : Z) : option Role :=
  if (kind =? CONTROL_KIND_AUTHENTICATE) || (kind =? CONTROL_KIND_SESSION_RESUME) ||
     (kind =? CONTROL_KIND_OPEN_CHANNEL) then Some Client
  else if (kind =? CONTROL_KIND_SESSION_READY) || (kind =? CONTROL_KIND_SESSION_RESUME_RESULT) ||
     (kind =? CONTROL_KIND_CHANNEL_READY) || (kind =? CONTROL_KIND_GRAPH_SNAPSHOT) ||
     (kind =? CONTROL_KIND_GRAPH_DELTA) || (kind =? CONTROL_KIND_SCHEMA_ADVERTISE) ||
     (kind =? CONTROL_KIND_SCHEMA_RESPONSE) then Some Server
  else if kind =? CONTROL_KIND_SCHEMA_REQUEST then Some Client
  else None.

Definition reject_if_wrong_sender {S} (kind : Z) (sender : Role) : SM S ProtocolError unit :=
  match control_sender kind with
  | Some expected =>
      if bool_decide (sender = expected) then ret tt
      else throw (violation "wrong_control_direction")
  | None => ret tt
  end.

(** ** Bootstrap records *)

Definition violation_bootstrap (reason : string) : ProtocolError :=
  protocol_violation_bootstrap reason 0 9.

Definition apply_bootstrap (record : BootstrapRecord) (sender : Role) : Apply :=
  phase <~ gets ss_phase ;;
  check (negb (is_terminal phase)) (violation_bootstrap "session_terminal") ;;~
  check (negb (in_selected_plane phase)) (violation_bootstrap "bootstrap_after_selected") ;;~
  match record with
  | RClientHello _ =>
      check (bool_decide (sender = Client)) (violation_bootstrap "wrong_bootstrap_direction") ;;~
      check (bool_decide (phase = AwaitClientHello)) (violation_bootstrap "duplicate_or_late_client_hello") ;;~
      modify (with_phase AwaitServerHello) ;;~
      ret no_effects
  | RServerHello hello =>
      check (bool_decide (sender = Server)) (violation_bootstrap "wrong_bootstrap_direction") ;;~
      check (bool_decide (phase = AwaitServerHello)) (violation_bootstrap "server_hello_out_of_order") ;;~
      modify (with_selected (Some (selected_wire_version hello))) ;;~
      modify (with_phase SelectedAwaitAuthenticate) ;;~
      ret (with_entered_selected_plane no_effects)
  | RBootstrapError _ =>
      check (bool_decide (sender = Server)) (violation_bootstrap "wrong_bootstrap_direction") ;;~
      check (bool_decide (phase = AwaitServerHello)) (violation_bootstrap "bootstrap_error_out_of_order") ;;~
      modify (with_phase BootstrapFailed) ;;~
      ret (with_bootstrap_failed no_effects)
  end.

(** ** Control messages *)

Definition apply_graph_snapshot (msg : ControlMessage) : Handler :=
  generation <~ require (field_uint msg FIELD_GRAPH_GENERATION) (violation "graph_snapshot_missing_generation") ;;
  update (with_generation (Some generation)) ;;~
  effect (with_graph_snapshot generation).

(** [u64::saturating_add]. *)
Definition u64_saturating_add (a b : Z) : Z := Z.min u64_max (a + b).

Definition apply_graph_delta (msg : ControlMessage) : Handler :=
  base <~ require (field_uint msg FIELD_BASE_GENERATION) (violation "graph_delta_missing_base_generation") ;;
  generation <~ require (field_uint msg FIELD_GRAPH_GENERATION) (violation "graph_delta_missing_generation") ;;
  current <~ read ss_graph_generation ;;
  current <~ require current (violation "graph_delta_without_snapshot") ;;
  check (base =? current) (violation "graph_delta_base_mismatch") ;;~
  check (generation =? u64_saturating_add base 1) (violation "graph_delta_generation_step") ;;~
  update (with_generation (Some generation)) ;;~
  effect (with_graph_delta generation).

Definition apply_authenticate (msg : ControlMessage) : Handler :=
  phase <~ read ss_phase ;;
  match phase with
  | SelectedAwaitAuthenticate =>
      update (with_pending_auth (Some (correlation_vec msg))) ;;~
      update (with_phase SelectedAwaitSessionReady)
  | SelectedAwaitSessionReady | Ready => throw (violation "authenticate_out_of_order")
  | _ => throw (violation "authenticate_bad_phase")
  end.

Definition apply_session_ready (msg : ControlMessage) : Handler :=
  phase <~ read ss_phase ;;
  check (bool_decide (phase = SelectedAwaitSessionReady)) (violation "session_ready_out_of_order") ;;~
  pending <~ read ss_pending_auth_correlation ;;
  (if correlations_match pending (correlation_vec msg) then effect with_auth_matched else ret tt) ;;~
  update (with_pending_auth None) ;;~
  update (with_phase Ready) ;;~
  effect with_entered_ready.

(** The entry of [id] was opened with the correlation of this message. *)
Definition note_channel_match (id : Z) (response_corr : bytes) : Handler :=
  entry <~ read (fun s => ss_channels s !! id) ;;
  match entry with
  | Some e =>
      if correlations_match (Some (ce_open_correlation e)) response_corr
      then effect with_channel_matched else ret tt
  | None => ret tt
  end.

Definition set_channel_state (id : Z) (state : ChannelState) : Handler :=
  update (fun s => with_channels (set_state (ss_channels s) id state) s).

Definition apply_error_ready (msg : ControlMessage) : Handler :=
  let channel_id := option_map (as_unsigned 32) (field_uint msg FIELD_CHANNEL_ID) in
  let scope := match field_uint msg FIELD_ERROR_SCOPE with Some v => v | None => 0 end in
  if scope =? 2 then
    id <~ require channel_id (violation "operation_error_missing_channel") ;;
    state <~ read (fun s => table_state (ss_channels s) id) ;;
    check (bool_decide (state = Active)) (violation "operation_error_inactive_channel") ;;~
    effect (with_operation_cancelled id)
  else
    channels <~ read ss_channels ;;
    match channel_id with
    | Some id =>
        if bool_decide (table_state channels id = Pending) then
          note_channel_match id (correlation_vec msg) ;;~
          set_channel_state id ChFailed ;;~
          effect (with_channel_failed id)
        else effect with_session_error
    | None => effect with_session_error
    end.

Definition apply_error (msg : ControlMessage) : Handler :=
  phase <~ read ss_phase ;;
  if bool_decide (phase = SelectedAwaitSessionReady) then
    pending <~ read ss_pending_auth_correlation ;;
    (if correlations_match pending (correlation_vec msg) then effect with_auth_matched else ret tt) ;;~
    update (with_pending_auth None) ;;~
    update (with_phase Failed) ;;~
    effect with_session_error
  else if is_ready phase then apply_error_ready msg
  else if bool_decide (phase = SelectedAwaitAuthenticate) then
    update (with_phase Failed) ;;~
    effect with_session_error
  else throw (violation "error_bad_phase").

Definition apply_open_channel (msg : ControlMessage) : Handler :=
  debug_assert (fun s => is_ready (ss_phase s)) ;;~
  raw_id <~ require (field_uint msg FIELD_CHANNEL_ID) (violation "open_channel_missing_channel_id") ;;
  let channel_id := as_unsigned 32 raw_id in
  check (negb (channel_id =? 0)) (violation "open_channel_id_zero") ;;~
  channels <~ read ss_channels ;;
  check (negb (table_contains channels channel_id)) (violation "channel_id_reuse") ;;~
  op_raw <~ require (field_uint msg FIELD_OPERATION_KIND) (violation "open_channel_missing_operation_kind") ;;
  check (negb (255 <? op_raw)) (violation "open_channel_bad_operation_kind") ;;~
  operation_kind <~ require (OperationKind_from_u8 (as_unsigned 8 op_raw)) (violation "unsupported_operation_kind") ;;
  update (fun s => with_channels
    (insert_pending (ss_channels s) channel_id operation_kind (correlation_vec msg)) s) ;;~
  effect (with_channel_opened channel_id).

Definition apply_channel_ready (msg : ControlMessage) : Handler :=
  debug_assert (fun s => is_ready (ss_phase s)) ;;~
  raw_id <~ require (field_uint msg FIELD_CHANNEL_ID) (violation "channel_ready_missing_channel_id") ;;
  let channel_id := as_unsigned 32 raw_id in
  state <~ read (fun s => table_state (ss_channels s) channel_id) ;;
  match state with
  | Pending => ret tt
  | Unused => throw (violation "channel_ready_without_open")
  | _ => throw (violation "channel_ready_bad_state")
  end ;;~
  result_raw <~ require (field_uint msg FIELD_CHANNEL_RESULT) (violation "channel_ready_missing_result") ;;
  check (negb (255 <? result_raw)) (violation "channel_ready_bad_result") ;;~
  result <~ require (ChannelResult_from_u8 (as_unsigned 8 result_raw)) (violation "channel_ready_bad_result") ;;
  note_channel_match channel_id (correlation_vec msg) ;;~
  if is_success result then set_channel_state channel_id Active
  else
    set_channel_state channel_id ChFailed ;;~
    effect (with_channel_failed channel_id).

Definition apply_close_channel (msg : ControlMessage) : Handler :=
  debug_assert (fun s => is_ready (ss_phase s)) ;;~
  raw_id <~ require (field_uint msg FIELD_CHANNEL_ID) (violation "close_channel_missing_channel_id") ;;
  let channel_id := as_unsigned 32 raw_id in
  state <~ read (fun s => table_state (ss_channels s) channel_id) ;;
  match state with
  | Active =>
      set_channel_state channel_id Closed ;;~
      effect (with_channel_closed channel_id)
  | Pending => throw (violation "close_channel_while_pending")
  | ChFailed | Closed => throw (violation "close_channel_terminal")
  | Unused => throw (violation "close_channel_unknown")
  end.

(** Run a handler on [&mut state] and a fresh [SessionEffects]. *)
Definition with_effects (h : Handler) : Apply :=
  fun s =>
    match h (mk_borrows s no_effects) with
    | (Ok _, m) => (Ok (b_effects m), b_state m)
    | (Err e, m) => (Err e, b_state m)
    | (Panic, m) => (Panic, b_state m)
    end.

Definition control_handler (msg : ControlMessage) : Handler :=
  let kind := cm_kind msg in
  if kind =? CONTROL_KIND_AUTHENTICATE then apply_authenticate msg
  else if kind =? CONTROL_KIND_SESSION_READY then apply_session_ready msg
  else if kind =? CONTROL_KIND_ERROR then apply_error msg
  else if kind =? CONTROL_KIND_OPEN_CHANNEL then apply_open_channel msg
  else if kind =? CONTROL_KIND_CHANNEL_READY then apply_channel_ready msg
  else if kind =? CONTROL_KIND_CLOSE_CHANNEL then apply_close_channel msg
  else if kind =? CONTROL_KIND_HEARTBEAT then effect with_heartbeat
  else if kind =? CONTROL_KIND_GRAPH_SNAPSHOT then apply_graph_snapshot msg
  else if kind =? CONTROL_KIND_GRAPH_DELTA then apply_graph_delta msg
  else if (kind =? CONTROL_KIND_SCHEMA_REQUEST) || (kind =? CONTROL_KIND_SCHEMA_RESPONSE) ||
          (kind =? CONTROL_KIND_SCHEMA_ADVERTISE) || (kind =? CONTROL_KIND_CLOCK_SYNC) then ret tt
  else throw (violation "unknown_control_kind").

Definition apply_control (msg : ControlMessage) (sender : Role) : Apply :=
  reject_if_wrong_sender (cm_kind msg) sender ;;~
  check (negb ((cm_kind msg =? CONTROL_KIND_SESSION_RESUME) ||
               (cm_kind msg =? CONTROL_KIND_SESSION_RESUME_RESULT)))
    (violation "session_resume_not_enabled") ;;~
  phase <~ gets ss_phase ;;
  check (negb (negb (is_ready phase) && is_ready_required_kind (cm_kind msg)))
    (session_not_ready "control_before_ready" 0) ;;~
  with_effects (control_handler msg).

(** ** Data frames *)

Definition apply_data_channel_gates (channel_id : Z) : SM SessionState ProtocolError unit :=
  state <~ gets (fun s => table_state (ss_channels s) channel_id) ;;
  match state with
  | Pending => throw (protocol_violation "data_on_pending_channel" 0 19)
  | ChFailed | Closed | Unused => throw (unknown_channel "data_on_inactive_channel" 0)
  | Active => ret tt
  end.

(** [.expect("active channel must exist")]. *)
Definition expect_entry (channel_id : Z) : SM SessionState ProtocolError ChannelEntry :=
  fun s => match ss_channels s !! channel_id with Some e => (Ok e, s) | None => (Panic, s) end.

Definition check_ready : SM SessionState ProtocolError unit :=
  phase <~ gets ss_phase ;; check (is_ready phase) (session_not_ready "data_before_ready" 0).

Definition apply_ros_sample (frame : DecodedFrame) (sender : Role) : Apply :=
  check_ready ;;~
  apply_data_channel_gates (df_channel_id frame) ;;~
  entry <~ expect_entry (df_channel_id frame) ;;
  check (negb (negb (allows_opcode (ce_operation_kind entry) OPCODE_ROS_SAMPLE) ||
               negb (allows_ros_sample_from (ce_operation_kind entry) sender)))
    (protocol_violation "ros_sample_wrong_direction" 0 22) ;;~
  ret no_effects.

Definition reliable_required (opcode : Z) : bool :=
  (opcode =? OPCODE_SERVICE_REQUEST) || (opcode =? OPCODE_SERVICE_RESPONSE) ||
  (opcode =? OPCODE_ACTION_GOAL) || (opcode =? OPCODE_ACTION_CANCEL) ||
  (opcode =? OPCODE_ACTION_RESULT).

Definition check_operation_id (frame : DecodedFrame) : SM SessionState ProtocolError unit :=
  if operation_id_required (df_opcode frame) then
    opid <~ require (frame_operation_id frame) (violation "missing_operation_id") ;;
    check (negb (bool_decide (opid = zeros 16) && negb (operation_id_may_be_zero (df_opcode frame))))
      (violation "zero_operation_id")
  else ret tt.

Definition apply_service_action_frame (frame : DecodedFrame) (sender : Role) : Apply :=
  check_ready ;;~
  apply_data_channel_gates (df_channel_id frame) ;;~
  entry <~ expect_entry (df_channel_id frame) ;;
  check (allows_opcode (ce_operation_kind entry) (df_opcode frame))
    (protocol_violation "opcode_operation_kind_mismatch" 0 22) ;;~
  check (bool_decide (opcode_sender (ce_operation_kind entry) (df_opcode frame) = Some sender))
    (protocol_violation "service_action_wrong_direction" 0 22) ;;~
  check_operation_id frame ;;~
  check (negb (reliable_required (df_opcode frame) && (Z.land (df_flags frame) FLAG_ROS_RELIABLE =? 0)))
    (violation "service_action_requires_reliable") ;;~
  ret no_effects.

Definition apply_frame (frame : DecodedFrame) (sender : Role) : Apply :=
  phase <~ gets ss_phase ;;
  check (negb (is_terminal phase)) (violation "session_terminal") ;;~
  check (in_selected_plane phase) (violation "selected_frame_before_plane") ;;~
  if df_opcode frame =? OPCODE_CONTROL_CBOR then
    match df_payload frame with
    | Frame.Control msg => apply_control msg sender
    | Application _ => throw (invalid_control "control_opcode_without_control_payload" 0 16)
    end
  else if df_opcode frame =? OPCODE_ROS_SAMPLE then apply_ros_sample frame sender
  else if is_service_or_action_opcode (df_opcode frame) then apply_service_action_frame frame sender
  else
    check_ready ;;~
    apply_data_channel_gates (df_channel_id frame) ;;~
    throw (protocol_violation "unsupported_operation_opcode" 0 22).

(** ** The [Session] type *)

Definition Session_new (r : Role) : SessionState := new_state r.
Definition channel_state (s : SessionState) (id : Z) : ChannelState := table_state (ss_channels s) id.
Definition ingest_bootstrap (record : BootstrapRecord) : Apply :=
  sender <~ gets (fun s => peer (ss_role s)) ;; apply_bootstrap record sender.
Definition record_send_bootstrap (record : BootstrapRecord) : Apply :=
  sender <~ gets ss_role ;; apply_bootstrap record sender.
Definition ingest_frame (frame : DecodedFrame) : Apply :=
  sender <~ gets (fun s => peer (ss_role s)) ;; apply_frame frame sender.
Definition record_send_frame (frame : DecodedFrame) : Apply :=
  sender <~ gets ss_role ;; apply_frame frame sender.
