(* ===== verification/SessionProofs.v ===== *)
(** * The session state machine: specification and properties

    The transition relation [event_accepts] says which messages a session
    accepts and what they change; [session_implements_spec] shows the handlers
    of Session.v implement it.  The properties of runs (invariant, progress,
    history of a channel, graph generations, agreement of the two peers) are
    proved from the relation. *)

From stdpp Require Import gmap.
From S2P Require Import Prelude ProtocolError Cbor Extension ControlSchema Control Frame Bootstrap Session.
Import ControlSchema.Schema(CONTROL_KIND_AUTHENTICATE, CONTROL_KIND_SESSION_READY,
  CONTROL_KIND_GRAPH_SNAPSHOT, CONTROL_KIND_GRAPH_DELTA, CONTROL_KIND_SCHEMA_REQUEST,
  CONTROL_KIND_SCHEMA_ADVERTISE, CONTROL_KIND_SCHEMA_RESPONSE, CONTROL_KIND_OPEN_CHANNEL,
  CONTROL_KIND_CHANNEL_READY, CONTROL_KIND_CLOSE_CHANNEL, CONTROL_KIND_CLOCK_SYNC,
  CONTROL_KIND_HEARTBEAT, CONTROL_KIND_SESSION_RESUME, CONTROL_KIND_SESSION_RESUME_RESULT,
  CONTROL_KIND_ERROR).
#[local] Open Scope Z_scope.

(** ** The specification: which messages are accepted, and what they do *)

Definition msg_channel (msg : ControlMessage) : option Z :=
  option_map (as_unsigned 32) (field_uint msg FIELD_CHANNEL_ID).

Definition error_scope (msg : ControlMessage) : Z :=
  match field_uint msg FIELD_ERROR_SCOPE with Some v => v | None => 0 end.

(** The effect of a matched correlation. *)
Definition matched (mark : SessionEffects -> SessionEffects) (pending : option bytes)
    (msg : ControlMessage) : SessionEffects :=
  if correlations_match pending (correlation_vec msg) then mark no_effects else no_effects.

Definition set_channel (id : Z) (c : ChannelState) (s : SessionState) : SessionState :=
  with_channels (set_state (ss_channels s) id c) s.

Inductive control_accepts (s : SessionState) : Role -> ControlMessage -> SessionState -> SessionEffects -> Prop :=
| acc_authenticate msg :
    cm_kind msg = CONTROL_KIND_AUTHENTICATE -> ss_phase s = SelectedAwaitAuthenticate ->
    control_accepts s Client msg
      (with_phase SelectedAwaitSessionReady (with_pending_auth (Some (correlation_vec msg)) s)) no_effects
| acc_session_ready msg :
    cm_kind msg = CONTROL_KIND_SESSION_READY -> ss_phase s = SelectedAwaitSessionReady ->
    control_accepts s Server msg (with_phase Ready (with_pending_auth None s))
      (with_entered_ready (matched with_auth_matched (ss_pending_auth_correlation s) msg))
| acc_auth_error sender msg :
    cm_kind msg = CONTROL_KIND_ERROR -> ss_phase s = SelectedAwaitSessionReady ->
    control_accepts s sender msg (with_phase Failed (with_pending_auth None s))
      (with_session_error (matched with_auth_matched (ss_pending_auth_correlation s) msg))
| acc_early_error sender msg :
    cm_kind msg = CONTROL_KIND_ERROR -> ss_phase s = SelectedAwaitAuthenticate ->
    control_accepts s sender msg (with_phase Failed s) (with_session_error no_effects)
| acc_operation_error sender msg id :
    cm_kind msg = CONTROL_KIND_ERROR -> ss_phase s = Ready -> error_scope msg = 2 ->
    msg_channel msg = Some id -> channel_state s id = Active ->
    control_accepts s sender msg s (with_operation_cancelled id no_effects)
| acc_channel_error sender msg id entry :
    cm_kind msg = CONTROL_KIND_ERROR -> ss_phase s = Ready -> error_scope msg <> 2 ->
    msg_channel msg = Some id -> ss_channels s !! id = Some entry -> ce_state entry = Pending ->
    control_accepts s sender msg (set_channel id ChFailed s)
      (with_channel_failed id (matched with_channel_matched (Some (ce_open_correlation entry)) msg))
| acc_session_error sender msg :
    cm_kind msg = CONTROL_KIND_ERROR -> ss_phase s = Ready -> error_scope msg <> 2 ->
    (forall id, msg_channel msg = Some id -> channel_state s id <> Pending) ->
    control_accepts s sender msg s (with_session_error no_effects)
| acc_open_channel msg id op kind :
    cm_kind msg = CONTROL_KIND_OPEN_CHANNEL -> ss_phase s = Ready ->
    msg_channel msg = Some id -> id <> 0 -> ss_channels s !! id = None ->
    field_uint msg FIELD_OPERATION_KIND = Some op -> op <= 255 ->
    OperationKind_from_u8 (as_unsigned 8 op) = Some kind ->
    control_accepts s Client msg
      (with_channels (<[id := mk_entry Pending kind (correlation_vec msg)]> (ss_channels s)) s)
      (with_channel_opened id no_effects)
| acc_channel_ready msg id entry raw result :
    cm_kind msg = CONTROL_KIND_CHANNEL_READY -> ss_phase s = Ready ->
    msg_channel msg = Some id -> ss_channels s !! id = Some entry -> ce_state entry = Pending ->
    field_uint msg FIELD_CHANNEL_RESULT = Some raw -> raw <= 255 ->
    ChannelResult_from_u8 (as_unsigned 8 raw) = Some result -> is_success result = true ->
    control_accepts s Server msg (set_channel id Active s)
      (matched with_channel_matched (Some (ce_open_correlation entry)) msg)
| acc_channel_refused msg id entry raw result :
    cm_kind msg = CONTROL_KIND_CHANNEL_READY -> ss_phase s = Ready ->
    msg_channel msg = Some id -> ss_channels s !! id = Some entry -> ce_state entry = Pending ->
    field_uint msg FIELD_CHANNEL_RESULT = Some raw -> raw <= 255 ->
    ChannelResult_from_u8 (as_unsigned 8 raw) = Some result -> is_success result = false ->
    control_accepts s Server msg (set_channel id ChFailed s)
      (with_channel_failed id (matched with_channel_matched (Some (ce_open_correlation entry)) msg))
| acc_close_channel sender msg id :
    cm_kind msg = CONTROL_KIND_CLOSE_CHANNEL -> ss_phase s = Ready ->
    msg_channel msg = Some id -> channel_state s id = Active ->
    control_accepts s sender msg (set_channel id Closed s) (with_channel_closed id no_effects)
| acc_heartbeat sender msg :
    cm_kind msg = CONTROL_KIND_HEARTBEAT -> ss_phase s = Ready ->
    control_accepts s sender msg s (with_heartbeat no_effects)
| acc_graph_snapshot msg g :
    cm_kind msg = CONTROL_KIND_GRAPH_SNAPSHOT -> ss_phase s = Ready ->
    field_uint msg FIELD_GRAPH_GENERATION = Some g ->
    control_accepts s Server msg (with_generation (Some g) s) (with_graph_snapshot g no_effects)
| acc_graph_delta msg g :
    cm_kind msg = CONTROL_KIND_GRAPH_DELTA -> ss_phase s = Ready ->
    ss_graph_generation s = Some g -> field_uint msg FIELD_BASE_GENERATION = Some g ->
    field_uint msg FIELD_GRAPH_GENERATION = Some (u64_saturating_add g 1) ->
    control_accepts s Server msg (with_generation (Some (u64_saturating_add g 1)) s)
      (with_graph_delta (u64_saturating_add g 1) no_effects)
| acc_schema_request msg :
    cm_kind msg = CONTROL_KIND_SCHEMA_REQUEST -> ss_phase s = Ready ->
    control_accepts s Client msg s no_effects
| acc_schema_answer msg :
    cm_kind msg = CONTROL_KIND_SCHEMA_RESPONSE \/ cm_kind msg = CONTROL_KIND_SCHEMA_ADVERTISE ->
    ss_phase s = Ready -> control_accepts s Server msg s no_effects
| acc_clock_sync sender msg :
    cm_kind msg = CONTROL_KIND_CLOCK_SYNC -> ss_phase s = Ready ->
    control_accepts s sender msg s no_effects.

(** The operation id a service or action frame must carry. *)
Definition operation_id_ok (frame : DecodedFrame) : Prop :=
  exists opid, frame_operation_id frame = Some opid /\
    (opid = zeros 16 -> df_opcode frame = OPCODE_ACTION_STATUS).

Inductive frame_accepts (s : SessionState) : Role -> DecodedFrame -> SessionState -> SessionEffects -> Prop :=
| acc_control sender frame msg s' eff :
    df_opcode frame = OPCODE_CONTROL_CBOR -> df_payload frame = Frame.Control msg ->
    control_accepts s sender msg s' eff -> frame_accepts s sender frame s' eff
| acc_sample sender frame entry :
    df_opcode frame = OPCODE_ROS_SAMPLE -> ss_phase s = Ready ->
    ss_channels s !! df_channel_id frame = Some entry -> ce_state entry = Active ->
    opcode_sender (ce_operation_kind entry) OPCODE_ROS_SAMPLE = Some sender ->
    frame_accepts s sender frame s no_effects
| acc_service_action sender frame entry :
    OPCODE_SERVICE_REQUEST <= df_opcode frame <= OPCODE_ACTION_CANCEL -> ss_phase s = Ready ->
    ss_channels s !! df_channel_id frame = Some entry -> ce_state entry = Active ->
    opcode_sender (ce_operation_kind entry) (df_opcode frame) = Some sender ->
    operation_id_ok frame ->
    (df_opcode frame = OPCODE_ACTION_FEEDBACK \/ df_opcode frame = OPCODE_ACTION_STATUS \/
     Z.testbit (df_flags frame) 0 = true) ->
    frame_accepts s sender frame s no_effects.

Inductive bootstrap_accepts (s : SessionState) : Role -> BootstrapRecord -> SessionState -> SessionEffects -> Prop :=
| acc_client_hello h :
    ss_phase s = AwaitClientHello ->
    bootstrap_accepts s Client (RClientHello h) (with_phase AwaitServerHello s) no_effects
| acc_server_hello h :
    ss_phase s = AwaitServerHello ->
    bootstrap_accepts s Server (RServerHello h)
      (with_phase SelectedAwaitAuthenticate (with_selected (Some (selected_wire_version h)) s))
      (with_entered_selected_plane no_effects)
| acc_bootstrap_error e :
    ss_phase s = AwaitServerHello ->
    bootstrap_accepts s Server (RBootstrapError e) (with_phase BootstrapFailed s)
      (with_bootstrap_failed no_effects).

(** [m] implements [accepts] on [s]: it never panics, an error leaves the state
    as it was, and the successes are the accepted transitions. *)
Definition implements (m : Apply) (s : SessionState) (accepts : SessionState -> SessionEffects -> Prop) : Prop :=
  match m s with
  | (Ok eff, s') => accepts s' eff
  | (Err e, s') => s' = s /\ forall s'' eff, ~ accepts s'' eff
  | (Panic, _) => False
  end.

Lemma implements_check c e (m : Apply) s accepts :
  (c = true -> implements m s accepts) -> (c = false -> forall s' eff, ~ accepts s' eff) ->
  implements (check c e ;;~ m) s accepts.
Proof.
  intros Ht Hf. unfold implements, check, bind, lift, Prelude.guard in *.
  destruct c; [by apply Ht | split; [done | by apply Hf]].
Qed.

Lemma implements_gets {A} (f : SessionState -> A) (k : A -> Apply) s accepts :
  implements (k (f s)) s accepts -> implements (x <~ gets f ;; k x) s accepts.
Proof. done. Qed.

Lemma implements_throw e s (accepts : SessionState -> SessionEffects -> Prop) :
  (forall s' eff, ~ accepts s' eff) -> implements (throw e) s accepts.
Proof. done. Qed.

Lemma bootstrap_implements record sender s :
  implements (apply_bootstrap record sender) s (bootstrap_accepts s sender record).
Proof.
  apply implements_gets. apply implements_check; intros Hp.
  2: { intros s' eff Ha. apply negb_false_iff in Hp. by destruct Ha as [? E | ? E | ? E]; rewrite E in Hp. }
  apply implements_check; intros Hp'.
  2: { intros s' eff Ha. apply negb_false_iff in Hp'. by destruct Ha as [? E | ? E | ? E]; rewrite E in Hp'. }
  destruct record as [h | h | e];
    (apply implements_check; intros Hs;
     [apply bool_decide_eq_true in Hs as -> | apply bool_decide_eq_false in Hs; intros ? ? Ha; by inversion Ha]);
    (apply implements_check; intros Hph;
     [apply bool_decide_eq_true in Hph | apply bool_decide_eq_false in Hph; intros ? ? Ha; by inversion Ha]);
    by constructor.
Qed.

(** The same for a handler, started on borrows of [s]. *)
Definition handles (h : Handler) (b : Borrows) (s : SessionState)
    (accepts : SessionState -> SessionEffects -> Prop) : Prop :=
  match h b with
  | (Ok _, b') => accepts (b_state b') (b_effects b')
  | (Err e, b') => b_state b' = s /\ forall s'' eff, ~ accepts s'' eff
  | (Panic, _) => False
  end.

Section Handles.
Variable s : SessionState.
Variable accepts : SessionState -> SessionEffects -> Prop.
Implicit Types h : Handler.

Lemma implements_handler h :
  handles h (mk_borrows s no_effects) s accepts -> implements (with_effects h) s accepts.
Proof.
  unfold implements, with_effects, handles. by destruct (h (mk_borrows s no_effects)) as [[] b'].
Qed.

Lemma handles_check c e h fx :
  (c = true -> handles h (mk_borrows s fx) s accepts) ->
  (c = false -> forall s' eff, ~ accepts s' eff) ->
  handles (check c e ;;~ h) (mk_borrows s fx) s accepts.
Proof.
  intros Ht Hf. unfold handles, check, bind, lift, Prelude.guard in *.
  destruct c; [by apply Ht | split; [done | by apply Hf]].
Qed.

Lemma handles_require {A} (o : option A) e (k : A -> Handler) fx :
  (forall a, o = Some a -> handles (k a) (mk_borrows s fx) s accepts) ->
  (o = None -> forall s' eff, ~ accepts s' eff) ->
  handles (x <~ require o e ;; k x) (mk_borrows s fx) s accepts.
Proof.
  intros Hs Hn. unfold handles, require, bind, lift, ok_or in *.
  destruct o; [by apply Hs | split; [done | by apply Hn]].
Qed.

Lemma handles_read {A} (f : SessionState -> A) (k : A -> Handler) fx :
  handles (k (f s)) (mk_borrows s fx) s accepts -> handles (x <~ read f ;; k x) (mk_borrows s fx) s accepts.
Proof. done. Qed.

Lemma handles_assert f h fx :
  f s = true -> handles h (mk_borrows s fx) s accepts -> handles (debug_assert f ;;~ h) (mk_borrows s fx) s accepts.
Proof. intros Hf. unfold handles, debug_assert, bind. cbn. by rewrite Hf. Qed.

Lemma handles_throw e fx :
  (forall s' eff, ~ accepts s' eff) -> handles (throw e) (mk_borrows s fx) s accepts.
Proof. done. Qed.

Lemma handles_done fx : accepts s fx -> handles (ret tt) (mk_borrows s fx) s accepts.
Proof. done. Qed.

End Handles.

Ltac unfold_kinds :=
  unfold CONTROL_KIND_AUTHENTICATE, CONTROL_KIND_SESSION_READY, CONTROL_KIND_GRAPH_SNAPSHOT,
    CONTROL_KIND_GRAPH_DELTA, CONTROL_KIND_SCHEMA_REQUEST, CONTROL_KIND_SCHEMA_ADVERTISE,
    CONTROL_KIND_SCHEMA_RESPONSE, CONTROL_KIND_OPEN_CHANNEL, CONTROL_KIND_CHANNEL_READY,
    CONTROL_KIND_CLOSE_CHANNEL, CONTROL_KIND_CLOCK_SYNC, CONTROL_KIND_HEARTBEAT,
    CONTROL_KIND_SESSION_RESUME, CONTROL_KIND_SESSION_RESUME_RESULT, CONTROL_KIND_ERROR in *.

(** No transition accepts the message: invert the claim and compare. *)
Ltac refuse :=
  intros ? ? Hacc; inversion Hacc; subst; clear Hacc; unfold_kinds; unfold channel_state, table_state in *;
  try (exfalso; lia); try congruence; simplify_option_eq; try congruence; try lia.

Section Handlers.
Variables (s : SessionState) (sender : Role) (msg : ControlMessage).

Lemma authenticate_handles fx :
  cm_kind msg = CONTROL_KIND_AUTHENTICATE -> sender = Client -> fx = no_effects ->
  handles (apply_authenticate msg) (mk_borrows s fx) s (control_accepts s sender msg).
Proof.
  intros Hk -> ->. unfold apply_authenticate. apply handles_read.
  destruct (ss_phase s) eqn:Hp; try (apply handles_throw; refuse). by constructor.
Qed.

Lemma session_ready_handles fx :
  cm_kind msg = CONTROL_KIND_SESSION_READY -> sender = Server -> fx = no_effects ->
  handles (apply_session_ready msg) (mk_borrows s fx) s (control_accepts s sender msg).
Proof.
  intros Hk -> ->. unfold apply_session_ready. apply handles_read. apply handles_check; intros Hp.
  2: { apply bool_decide_eq_false in Hp. refuse. }
  apply bool_decide_eq_true in Hp. apply handles_read.
  pose proof (acc_session_ready s msg Hk Hp) as Ha. unfold matched in Ha. unfold handles.
  by destruct (correlations_match (ss_pending_auth_correlation s) (correlation_vec msg)).
Qed.

Lemma graph_snapshot_handles fx :
  cm_kind msg = CONTROL_KIND_GRAPH_SNAPSHOT -> sender = Server -> ss_phase s = Ready -> fx = no_effects ->
  handles (apply_graph_snapshot msg) (mk_borrows s fx) s (control_accepts s sender msg).
Proof.
  intros Hk -> Hp ->. apply handles_require; [intros g Hg | intros Hg; refuse]. by apply acc_graph_snapshot.
Qed.

Lemma graph_delta_handles fx :
  cm_kind msg = CONTROL_KIND_GRAPH_DELTA -> sender = Server -> ss_phase s = Ready -> fx = no_effects ->
  handles (apply_graph_delta msg) (mk_borrows s fx) s (control_accepts s sender msg).
Proof.
  intros Hk -> Hp ->. apply handles_require; [intros base Hb | intros Hb; refuse].
  apply handles_require; [intros g Hg | intros Hg; refuse]. apply handles_read.
  apply handles_require; [intros cur Hc | intros Hc; refuse].
  apply handles_check; [intros ->%Z.eqb_eq | intros ?%Z.eqb_neq; refuse].
  apply handles_check; [intros ->%Z.eqb_eq | intros ?%Z.eqb_neq; refuse]. by apply acc_graph_delta.
Qed.

Lemma msg_channel_some raw :
  field_uint msg FIELD_CHANNEL_ID = Some raw -> msg_channel msg = Some (as_unsigned 32 raw).
Proof. unfold msg_channel. by intros ->. Qed.

Lemma msg_channel_none : field_uint msg FIELD_CHANNEL_ID = None -> msg_channel msg = None.
Proof. unfold msg_channel. by intros ->. Qed.

Lemma open_channel_handles fx :
  cm_kind msg = CONTROL_KIND_OPEN_CHANNEL -> sender = Client -> ss_phase s = Ready -> fx = no_effects ->
  handles (apply_open_channel msg) (mk_borrows s fx) s (control_accepts s sender msg).
Proof.
  intros Hk -> Hp ->. apply handles_assert; [by rewrite Hp |].
  apply handles_require; [intros raw Hr%msg_channel_some | intros Hr%msg_channel_none; refuse]. cbv zeta.
  apply handles_check; [intros H0%negb_true_iff%Z.eqb_neq | intros H0%negb_false_iff%Z.eqb_eq; refuse].
  apply handles_read. unfold table_contains.
  apply handles_check; [intros Hc%negb_true_iff%bool_decide_eq_false
                       | intros [e He]%negb_false_iff%bool_decide_eq_true; refuse].
  apply handles_require; [intros op Hop | intros Hop; refuse].
  apply handles_check; [intros Hle%negb_true_iff | intros Hle%negb_false_iff; refuse].
  apply handles_require; [intros kind Hkind | intros Hkind; refuse].
  apply (acc_open_channel s msg (as_unsigned 32 raw) op kind); try done; [| lia].
  destruct (ss_channels s !! as_unsigned 32 raw) eqn:E; [| done]. by destruct Hc.
Qed.

(** The correlation of the entry is noted, whatever follows. *)
Lemma handles_note_match id entry (h : Handler) accepts :
  ss_channels s !! id = Some entry ->
  handles h (mk_borrows s (matched with_channel_matched (Some (ce_open_correlation entry)) msg)) s accepts ->
  handles (note_channel_match id (correlation_vec msg) ;;~ h) (mk_borrows s no_effects) s accepts.
Proof.
  intros He. unfold handles, note_channel_match, bind, read, gets, matched. cbn [b_state]. rewrite He.
  by destruct (correlations_match (Some (ce_open_correlation entry)) (correlation_vec msg)).
Qed.

Lemma table_state_entry id c :
  channel_state s id = c -> c <> Unused -> exists entry, ss_channels s !! id = Some entry /\ ce_state entry = c.
Proof. unfold channel_state, table_state. destruct (_ !! id) as [e |]; [eauto | congruence]. Qed.

Lemma channel_ready_handles fx :
  cm_kind msg = CONTROL_KIND_CHANNEL_READY -> sender = Server -> ss_phase s = Ready -> fx = no_effects ->
  handles (apply_channel_ready msg) (mk_borrows s fx) s (control_accepts s sender msg).
Proof.
  intros Hk -> Hp ->. apply handles_assert; [by rewrite Hp |].
  apply handles_require; [intros raw Hr%msg_channel_some | intros Hr%msg_channel_none; refuse]. cbv zeta.
  apply handles_read. fold (channel_state s (as_unsigned 32 raw)).
  destruct (channel_state s (as_unsigned 32 raw)) eqn:Hst; try (split; [done | refuse]).
  destruct (table_state_entry _ _ Hst) as (entry & He & Hes); [done |].
  apply (handles_read s _ (fun _ => tt)).
  apply handles_require; [intros v Hv | intros Hv; refuse].
  apply handles_check; [intros Hle%negb_true_iff | intros Hle%negb_false_iff; refuse].
  apply handles_require; [intros result Hres | intros Hres; refuse].
  apply (handles_note_match _ entry); [done |].
  destruct (is_success result) eqn:Hok.
  - eapply (acc_channel_ready s msg _ entry v result); (done || lia).
  - eapply (acc_channel_refused s msg _ entry v result); (done || lia).
Qed.

Lemma close_channel_handles fx :
  cm_kind msg = CONTROL_KIND_CLOSE_CHANNEL -> ss_phase s = Ready -> fx = no_effects ->
  handles (apply_close_channel msg) (mk_borrows s fx) s (control_accepts s sender msg).
Proof.
  intros Hk Hp ->. apply handles_assert; [by rewrite Hp |].
  apply handles_require; [intros raw Hr%msg_channel_some | intros Hr%msg_channel_none; refuse]. cbv zeta.
  apply handles_read. fold (channel_state s (as_unsigned 32 raw)).
  destruct (channel_state s (as_unsigned 32 raw)) eqn:Hst; try (apply handles_throw; refuse).
  by apply acc_close_channel.
Qed.

Lemma error_handles fx :
  cm_kind msg = CONTROL_KIND_ERROR -> fx = no_effects ->
  handles (apply_error msg) (mk_borrows s fx) s (control_accepts s sender msg).
Proof.
  intros Hk ->. apply handles_read. case_bool_decide as Hp.
  { apply handles_read. pose proof (acc_auth_error s sender msg Hk Hp) as Ha. unfold matched in Ha. unfold handles.
    by destruct (correlations_match (ss_pending_auth_correlation s) (correlation_vec msg)). }
  destruct (is_ready (ss_phase s)) eqn:Hrd.
  - assert (Hr : ss_phase s = Ready) by (by destruct (ss_phase s)). clear Hp Hrd.
    unfold apply_error_ready. fold (msg_channel msg) (error_scope msg). cbv zeta.
    destruct (Z.eqb_spec (error_scope msg) 2) as [Hsc | Hsc].
    + apply handles_require; [intros id Hid | intros Hid; refuse]. apply handles_read.
      fold (channel_state s id). apply handles_check; intros Ha.
      * apply bool_decide_eq_true in Ha. by apply acc_operation_error.
      * apply bool_decide_eq_false in Ha. refuse.
    + apply handles_read. destruct (msg_channel msg) as [id |] eqn:Hid.
      * fold (channel_state s id). case_bool_decide as Hst.
        -- destruct (table_state_entry _ _ Hst) as (entry & He & Hes); [done |].
           apply (handles_note_match _ entry); [done |]. by eapply acc_channel_error.
        -- apply acc_session_error; [done.. |]. rewrite Hid. by intros ? [= <-].
      * apply acc_session_error; [done.. |]. by rewrite Hid.
  - case_bool_decide as Hp'; [by apply acc_early_error |]. apply handles_throw. refuse; by rewrite H0 in Hrd.
Qed.

End Handlers.

Section Refinement.
Variable s : SessionState.

Lemma implements_wrong_sender kind sender (m : Apply) accepts :
  (forall r, control_sender kind = Some r -> sender = r -> implements m s accepts) ->
  (control_sender kind = None -> implements m s accepts) ->
  (forall r, control_sender kind = Some r -> sender <> r -> forall s' eff, ~ accepts s' eff) ->
  implements (reject_if_wrong_sender kind sender ;;~ m) s accepts.
Proof.
  intros Hok Hnone Hbad. unfold implements, reject_if_wrong_sender, bind in *.
  destruct (control_sender kind) as [r |]; [| by apply Hnone].
  case_bool_decide as Hs; [by apply (Hok r) | split; [done | by apply (Hbad r)]].
Qed.

(** A message sent against its direction is not accepted. *)
Lemma control_accepts_sender sender msg s' eff r :
  control_accepts s sender msg s' eff -> control_sender (cm_kind msg) = Some r -> sender = r.
Proof.
  intros Ha Hr. destruct Ha; try (destruct H as [H | H]); rewrite H in Hr; by inversion Hr.
Qed.

Lemma control_accepts_ready sender msg s' eff :
  control_accepts s sender msg s' eff -> is_ready_required_kind (cm_kind msg) = true -> ss_phase s = Ready.
Proof.
  intros Ha Hr. destruct Ha; try done;
    match goal with H : cm_kind _ = _ |- _ => rewrite H in Hr; by vm_compute in Hr end.
Qed.

(** The kinds that have a handler. *)
Lemma control_accepts_kind sender msg s' eff :
  control_accepts s sender msg s' eff ->
  1 <= cm_kind msg <= 15 /\ cm_kind msg <> CONTROL_KIND_SESSION_RESUME /\
  cm_kind msg <> CONTROL_KIND_SESSION_RESUME_RESULT.
Proof. intros Ha. destruct Ha; unfold_kinds; lia. Qed.

Lemma eqb_false_kind {A} (a b : Z) (x y : A) : a <> b -> (if a =? b then x else y) = y.
Proof. intros Hn. by rewrite (proj2 (Z.eqb_neq a b) Hn). Qed.

Ltac kind_case K Hk :=
    match goal with |- context [cm_kind ?m =? K] => destruct (Z.eqb_spec (cm_kind m) K) as [Hk | Hk] end.
Ltac facts Hs Hr Hk :=
    rewrite Hk in Hs, Hr; try (pose proof (Hs _ eq_refl)); try (specialize (Hr eq_refl)).

(** The dispatch is the handler of the kind. *)
Lemma control_handles sender msg :
  (forall r, control_sender (cm_kind msg) = Some r -> sender = r) ->
  (is_ready_required_kind (cm_kind msg) = true -> ss_phase s = Ready) ->
  handles (control_handler msg) (mk_borrows s no_effects) s (control_accepts s sender msg).
Proof.
  intros Hs Hr. unfold control_handler. cbv zeta.
  kind_case CONTROL_KIND_AUTHENTICATE E1. { facts Hs Hr E1. by apply authenticate_handles. }
  kind_case CONTROL_KIND_SESSION_READY E2. { facts Hs Hr E2. by apply session_ready_handles. }
  kind_case CONTROL_KIND_ERROR E3. { by apply error_handles. }
  kind_case CONTROL_KIND_OPEN_CHANNEL E4. { facts Hs Hr E4. by apply open_channel_handles. }
  kind_case CONTROL_KIND_CHANNEL_READY E5. { facts Hs Hr E5. by apply channel_ready_handles. }
  kind_case CONTROL_KIND_CLOSE_CHANNEL E6. { facts Hs Hr E6. by apply close_channel_handles. }
  kind_case CONTROL_KIND_HEARTBEAT E7. { facts Hs Hr E7. by apply acc_heartbeat. }
  kind_case CONTROL_KIND_GRAPH_SNAPSHOT E8. { facts Hs Hr E8. by apply graph_snapshot_handles. }
  kind_case CONTROL_KIND_GRAPH_DELTA E9. { facts Hs Hr E9. by apply graph_delta_handles. }
  kind_case CONTROL_KIND_SCHEMA_REQUEST E10. { facts Hs Hr E10. subst sender. by apply acc_schema_request. }
  kind_case CONTROL_KIND_SCHEMA_RESPONSE E11.
  { facts Hs Hr E11. subst sender. apply acc_schema_answer; [by left | done]. }
  kind_case CONTROL_KIND_SCHEMA_ADVERTISE E12.
  { facts Hs Hr E12. subst sender. apply acc_schema_answer; [by right | done]. }
  kind_case CONTROL_KIND_CLOCK_SYNC E13. { facts Hs Hr E13. by apply acc_clock_sync. }
  apply handles_throw. intros s' eff Ha. destruct Ha; naive_solver.
Qed.

Lemma control_implements sender msg : implements (apply_control msg sender) s (control_accepts s sender msg).
Proof.
  assert (Hrest : (forall r, control_sender (cm_kind msg) = Some r -> sender = r) ->
    implements
      (check (negb ((cm_kind msg =? CONTROL_KIND_SESSION_RESUME) ||
                    (cm_kind msg =? CONTROL_KIND_SESSION_RESUME_RESULT)))
        (violation "session_resume_not_enabled") ;;~
       phase <~ gets ss_phase ;;
       check (negb (negb (is_ready phase) && is_ready_required_kind (cm_kind msg)))
         (session_not_ready "control_before_ready" 0) ;;~
       with_effects (control_handler msg)) s (control_accepts s sender msg)).
  { intros Hs. apply implements_check; intros Hres.
    2: { intros s' eff (_ & H1 & H2)%control_accepts_kind. lia. }
    apply implements_gets. apply implements_check; intros Hrd.
    - apply implements_handler, control_handles; [done |]. intros Hk. rewrite Hk, andb_true_r, negb_involutive in Hrd.
      by destruct (ss_phase s).
    - intros s' eff Ha. apply negb_false_iff, andb_true_iff in Hrd as [Hn Hk].
      by rewrite (control_accepts_ready _ _ _ _ Ha Hk) in Hn. }
  apply implements_wrong_sender.
  - intros r Hr ->. apply Hrest. intros r' Hr'. congruence.
  - intros Hn. apply Hrest. intros r' Hr'. congruence.
  - intros r Hr Hne s' eff Ha. destruct Hne. by eapply control_accepts_sender.
Qed.

(** A control message is accepted only in a live phase of the selected plane. *)
Lemma control_accepts_phase sender msg s' eff :
  control_accepts s sender msg s' eff ->
  is_terminal (ss_phase s) = false /\ in_selected_plane (ss_phase s) = true.
Proof. intros Ha. by destruct Ha; match goal with H : ss_phase _ = _ |- _ => rewrite H end. Qed.

Lemma frame_accepts_phase sender frame s' eff :
  frame_accepts s sender frame s' eff ->
  is_terminal (ss_phase s) = false /\ in_selected_plane (ss_phase s) = true.
Proof.
  intros Ha. destruct Ha; [by eapply control_accepts_phase | |];
    match goal with H : ss_phase _ = _ |- _ => by rewrite H end.
Qed.

(** *** Data frames *)

Lemma implements_data (frame : DecodedFrame) (k : ChannelEntry -> Apply) accepts :
  (forall s' eff, accepts s' eff -> ss_phase s = Ready) ->
  (forall s' eff, accepts s' eff -> channel_state s (df_channel_id frame) = Active) ->
  (forall entry, ss_phase s = Ready -> ss_channels s !! df_channel_id frame = Some entry ->
    ce_state entry = Active -> implements (k entry) s accepts) ->
  implements (check_ready ;;~ apply_data_channel_gates (df_channel_id frame) ;;~
    entry <~ expect_entry (df_channel_id frame) ;; k entry) s accepts.
Proof.
  intros Hready Hactive Hk. unfold implements, bind, check_ready, apply_data_channel_gates, gets, check, lift,
    Prelude.guard, expect_entry in *. cbn.
  destruct (is_ready (ss_phase s)) eqn:Hr; cbn.
  2: { split; [done |]. intros s' eff Ha. by rewrite (Hready _ _ Ha) in Hr. }
  assert (Hp : ss_phase s = Ready) by (by destruct (ss_phase s)).
  unfold channel_state, table_state in *. destruct (ss_channels s !! df_channel_id frame) as [entry |] eqn:He; cbn.
  - specialize (Hk entry Hp eq_refl).
    destruct (ce_state entry) eqn:Hc; cbn; rewrite ?He;
      try (split; [done |]; intros s' eff Ha; by specialize (Hactive _ _ Ha)). by apply Hk.
  - split; [done |]. intros s' eff Ha. by specialize (Hactive _ _ Ha).
Qed.

Lemma sample_sender k sender :
  negb (negb (allows_opcode k OPCODE_ROS_SAMPLE) || negb (allows_ros_sample_from k sender)) = true <->
  opcode_sender k OPCODE_ROS_SAMPLE = Some sender.
Proof. by destruct k, sender. Qed.

Lemma opcode_sender_allowed k opcode r : opcode_sender k opcode = Some r -> allows_opcode k opcode = true.
Proof.
  unfold opcode_sender, allows_opcode, is_action_opcode. destruct k; intros Hs; repeat case_match; simplify_eq; lia.
Qed.

(** A kind never mixes samples with service or action opcodes. *)
Lemma frame_accepts_data sender frame s' eff :
  df_opcode frame <> OPCODE_CONTROL_CBOR -> frame_accepts s sender frame s' eff ->
  s' = s /\ eff = no_effects /\ ss_phase s = Ready /\ channel_state s (df_channel_id frame) = Active /\
  exists entry, ss_channels s !! df_channel_id frame = Some entry /\
    opcode_sender (ce_operation_kind entry) (df_opcode frame) = Some sender.
Proof.
  intros Ho Ha. unfold channel_state, table_state.
  destruct Ha as [| sender frame entry E Hp He Hc Hs | sender frame entry E Hp He Hc Hs]; [done | |];
    rewrite He; split_and!; try done; exists entry; split; try done. by rewrite E.
Qed.

Lemma sample_implements sender frame :
  df_opcode frame = OPCODE_ROS_SAMPLE ->
  implements (apply_ros_sample frame sender) s (frame_accepts s sender frame).
Proof.
  intros Ho. assert (Hn : df_opcode frame <> OPCODE_CONTROL_CBOR) by (by rewrite Ho).
  apply implements_data.
  1, 2: intros s' eff Ha; apply (frame_accepts_data _ _ _ _ Hn Ha).
  intros entry Hp He Hc. apply implements_check; intros Hs.
  - apply sample_sender in Hs. by apply (acc_sample s sender frame entry).
  - intros s' eff Ha. destruct (frame_accepts_data _ _ _ _ Hn Ha) as (_ & _ & _ & _ & entry' & He' & Hs').
    rewrite Ho in Hs'. apply sample_sender in Hs'. congruence.
Qed.

Lemma implements_operation_id frame (m : Apply) accepts :
  is_service_or_action_opcode (df_opcode frame) = true ->
  (operation_id_ok frame -> implements m s accepts) ->
  (forall s' eff, accepts s' eff -> operation_id_ok frame) ->
  implements (check_operation_id frame ;;~ m) s accepts.
Proof.
  intros Hop Hok Hacc. unfold implements, check_operation_id, operation_id_required, operation_id_ok, require, bind, lift,
    ok_or, check, Prelude.guard, operation_id_may_be_zero in *. rewrite Hop.
  destruct (frame_operation_id frame) as [opid |].
  2: { split; [done |]. intros s' eff Ha. by destruct (Hacc _ _ Ha) as (? & ? & _). }
  destruct (negb _) eqn:Hz.
  - apply Hok. exists opid. split; [done |]. intros ->. rewrite bool_decide_true in Hz by done. lia.
  - split; [done |]. intros s' eff Ha. destruct (Hacc _ _ Ha) as (opid' & [= <-] & Hz').
    case_bool_decide; [| done]. specialize (Hz' ltac:(done)). rewrite Hz' in Hz. done.
Qed.

Lemma service_action_range opcode :
  is_service_or_action_opcode opcode = true <-> OPCODE_SERVICE_REQUEST <= opcode <= OPCODE_ACTION_CANCEL.
Proof.
  unfold is_service_or_action_opcode, is_action_opcode, OPCODE_SERVICE_REQUEST, OPCODE_SERVICE_RESPONSE,
    OPCODE_ACTION_GOAL, OPCODE_ACTION_FEEDBACK, OPCODE_ACTION_RESULT, OPCODE_ACTION_STATUS, OPCODE_ACTION_CANCEL. lia.
Qed.

Lemma reliable_condition opcode flags :
  OPCODE_SERVICE_REQUEST <= opcode <= OPCODE_ACTION_CANCEL ->
  negb (reliable_required opcode && (Z.land flags FLAG_ROS_RELIABLE =? 0)) = true <->
  opcode = OPCODE_ACTION_FEEDBACK \/ opcode = OPCODE_ACTION_STATUS \/ Z.testbit flags 0 = true.
Proof.
  intros Ho. change FLAG_ROS_RELIABLE with (2 ^ 0). rewrite land_bit by lia.
  unfold reliable_required, OPCODE_SERVICE_REQUEST, OPCODE_SERVICE_RESPONSE, OPCODE_ACTION_GOAL,
    OPCODE_ACTION_FEEDBACK, OPCODE_ACTION_RESULT, OPCODE_ACTION_STATUS, OPCODE_ACTION_CANCEL in *.
  destruct (Z.testbit flags 0); lia.
Qed.

Lemma service_action_implements sender frame :
  OPCODE_SERVICE_REQUEST <= df_opcode frame <= OPCODE_ACTION_CANCEL ->
  implements (apply_service_action_frame frame sender) s (frame_accepts s sender frame).
Proof.
  intros Ho. assert (Hn : df_opcode frame <> OPCODE_CONTROL_CBOR).
  { unfold OPCODE_SERVICE_REQUEST, OPCODE_CONTROL_CBOR in *. lia. }
  assert (Hn2 : df_opcode frame <> OPCODE_ROS_SAMPLE).
  { unfold OPCODE_SERVICE_REQUEST, OPCODE_ROS_SAMPLE in *. lia. }
  apply implements_data.
  1, 2: intros s' eff Ha; apply (frame_accepts_data _ _ _ _ Hn Ha).
  intros entry Hp He Hc. apply implements_check; intros Hal.
  2: { intros s' eff Ha. destruct (frame_accepts_data _ _ _ _ Hn Ha) as (_ & _ & _ & _ & entry' & He' & Hs').
       apply opcode_sender_allowed in Hs'. congruence. }
  apply implements_check; intros Hs.
  2: { apply bool_decide_eq_false in Hs. intros s' eff Ha.
       destruct (frame_accepts_data _ _ _ _ Hn Ha) as (_ & _ & _ & _ & entry' & He' & Hs'). congruence. }
  apply bool_decide_eq_true in Hs.
  apply implements_operation_id; [by apply service_action_range | intros Hid | by intros s' eff Ha; inversion Ha; subst].
  apply implements_check; intros Hrel.
  - apply reliable_condition in Hrel; [| done]. by apply (acc_service_action s sender frame entry).
  - intros s' eff Ha. inversion Ha; subst; try done. rewrite (proj2 (reliable_condition _ _ Ho)) in Hrel by done. done.
Qed.

Lemma frame_implements sender frame : implements (apply_frame frame sender) s (frame_accepts s sender frame).
Proof.
  apply implements_gets. apply implements_check; intros Ht.
  2: { intros s' eff (H1 & _)%frame_accepts_phase. by rewrite H1 in Ht. }
  apply implements_check; intros Hsp.
  2: { intros s' eff (_ & H1)%frame_accepts_phase. by rewrite H1 in Hsp. }
  destruct (Z.eqb_spec (df_opcode frame) OPCODE_CONTROL_CBOR) as [Ho | Ho].
  { destruct (df_payload frame) as [b | msg] eqn:Hpay.
    { apply implements_throw. intros s' eff Ha. inversion Ha; subst; try congruence;
        unfold OPCODE_CONTROL_CBOR, OPCODE_ROS_SAMPLE, OPCODE_SERVICE_REQUEST in *; lia. }
    pose proof (control_implements sender msg) as Hc. unfold implements in *.
    destruct (apply_control msg sender s) as [[eff | e |] s']; [by eapply acc_control | | done].
    destruct Hc as [Hs Hno]. split; [done |]. intros s'' eff Ha.
    inversion Ha; subst; [| unfold OPCODE_CONTROL_CBOR, OPCODE_ROS_SAMPLE, OPCODE_SERVICE_REQUEST in *; lia ..].
    rewrite Hpay in H0. injection H0 as <-. by apply (Hno s'' eff). }
  destruct (Z.eqb_spec (df_opcode frame) OPCODE_ROS_SAMPLE) as [Ho2 | Ho2]; [by apply sample_implements |].
  destruct (is_service_or_action_opcode (df_opcode frame)) eqn:Hsa.
  { by apply service_action_implements, service_action_range. }
  assert (Hno : forall s' eff, ~ frame_accepts s sender frame s' eff).
  { intros s' eff Ha. inversion Ha; subst; try done.
    rewrite (proj2 (service_action_range _)) in Hsa by done. done. }
  unfold implements, check_ready, apply_data_channel_gates, bind, gets, check, lift, Prelude.guard, throw in *. cbn.
  destruct (is_ready (ss_phase s)); cbn; [| done]. by destruct (table_state _ _).
Qed.

End Refinement.

(** ** Events and runs *)

Inductive Event := EvBootstrap (record : BootstrapRecord) | EvFrame (frame : DecodedFrame).

Definition apply_event (ev : Event) (sender : Role) : Apply :=
  match ev with
  | EvBootstrap record => apply_bootstrap record sender
  | EvFrame frame => apply_frame frame sender
  end.

Definition event_accepts (s : SessionState) (sender : Role) (ev : Event) (s' : SessionState)
    (eff : SessionEffects) : Prop :=
  match ev with
  | EvBootstrap record => bootstrap_accepts s sender record s' eff
  | EvFrame frame => frame_accepts s sender frame s' eff
  end.

(** An accepted message with its sender and effects. *)
Abbreviation Accepted := (Role * Event * SessionEffects)%type.

(** A run from [s]: rejected messages leave no trace. *)
Inductive run (s : SessionState) : list Accepted -> SessionState -> Prop :=
| run_start : run s [] s
| run_accept tr s1 sender ev eff s2 :
    run s tr s1 -> apply_event ev sender s1 = (Ok eff, s2) -> run s (tr ++ [(sender, ev, eff)]) s2
| run_reject tr s1 sender ev e s2 :
    run s tr s1 -> apply_event ev sender s1 = (Err e, s2) -> run s tr s2.

Lemma event_implements ev sender s : implements (apply_event ev sender) s (event_accepts s sender ev).
Proof. destruct ev; [apply bootstrap_implements | apply frame_implements]. Qed.

Lemma event_ok ev sender s eff s' : apply_event ev sender s = (Ok eff, s') -> event_accepts s sender ev s' eff.
Proof. intros E. pose proof (event_implements ev sender s) as H. unfold implements in H. by rewrite E in H. Qed.

Lemma event_err ev sender s e s' : apply_event ev sender s = (Err e, s') -> s' = s.
Proof. intros E. pose proof (event_implements ev sender s) as H. unfold implements in H. rewrite E in H. by destruct H. Qed.

(** Induction on runs by accepted transitions. *)
Lemma run_accepts_ind (s : SessionState) (P : list Accepted -> SessionState -> Prop) :
  P [] s ->
  (forall tr s1 sender ev eff s2, P tr s1 -> event_accepts s1 sender ev s2 eff -> P (tr ++ [(sender, ev, eff)]) s2) ->
  forall tr s', run s tr s' -> P tr s'.
Proof.
  intros H0 Hs tr s' Hr. induction Hr as [| tr s1 sender ev eff s2 Hr IH E | tr s1 sender ev e s2 Hr IH E]; [done | |].
  - by apply (Hs _ s1), event_ok.
  - by rewrite (event_err _ _ _ _ _ E).
Qed.

(** The specification is a function: one outcome per message. *)
Lemma control_accepts_functional s sender msg s1 e1 s2 e2 :
  control_accepts s sender msg s1 e1 -> control_accepts s sender msg s2 e2 -> s1 = s2 /\ e1 = e2.
Proof.
  intros H1 H2. unfold channel_state, table_state in *.
  destruct H1; inversion H2; subst; unfold_kinds; try (exfalso; (congruence || lia)); try (split; congruence);
    unfold channel_state, table_state in *.
  all: try (destruct_or!; exfalso; congruence). all: simplify_eq.
  all: try (split; congruence).
  all: exfalso; match goal with H : forall i, _ -> _ <> Pending, Hm : msg_channel _ = Some ?i |- _ =>
    specialize (H i Hm) end; by simplify_option_eq.
Qed.

Lemma event_accepts_functional s sender ev s1 e1 s2 e2 :
  event_accepts s sender ev s1 e1 -> event_accepts s sender ev s2 e2 -> s1 = s2 /\ e1 = e2.
Proof.
  destruct ev as [record | frame]; cbn; intros H1 H2.
  - by destruct H1; inversion H2; subst.
  - destruct H1; inversion H2; subst; try done;
      try (unfold OPCODE_CONTROL_CBOR, OPCODE_ROS_SAMPLE, OPCODE_SERVICE_REQUEST in *; lia).
    assert (msg = msg0) as <- by congruence. by eapply control_accepts_functional.
Qed.

Lemma event_complete ev sender s eff s' :
  event_accepts s sender ev s' eff -> apply_event ev sender s = (Ok eff, s').
Proof.
  intros Ha. pose proof (event_implements ev sender s) as H. unfold implements in H.
  destruct (apply_event ev sender s) as [[eff1 | e |] s1]; [| | done].
  - by destruct (event_accepts_functional _ _ _ _ _ _ _ Ha H) as [-> ->].
  - destruct H as [_ H]. by destruct (H s' eff).
Qed.

(** ** What an accepted message does to one channel *)

(** A control message of [kind] that names channel [id]. *)
Definition names_channel (ev : Event) (kind id : Z) : Prop :=
  exists frame msg, ev = EvFrame frame /\ df_opcode frame = OPCODE_CONTROL_CBOR /\
    df_payload frame = Frame.Control msg /\ cm_kind msg = kind /\ msg_channel msg = Some id.

Inductive channel_change (s : SessionState) (sender : Role) (ev : Event) (s' : SessionState) (id : Z) : Prop :=
| ch_same :
    ss_channels s' !! id = ss_channels s !! id ->
    ~ names_channel ev CONTROL_KIND_CLOSE_CHANNEL id -> ~ names_channel ev CONTROL_KIND_OPEN_CHANNEL id ->
    channel_change s sender ev s' id
| ch_open entry :
    sender = Client -> names_channel ev CONTROL_KIND_OPEN_CHANNEL id ->
    ss_channels s !! id = None -> ss_channels s' !! id = Some entry -> ce_state entry = Pending ->
    channel_change s sender ev s' id
| ch_ready entry :
    sender = Server -> names_channel ev CONTROL_KIND_CHANNEL_READY id ->
    ss_channels s !! id = Some entry -> ce_state entry = Pending ->
    ss_channels s' !! id = Some (mk_entry Active (ce_operation_kind entry) (ce_open_correlation entry)) ->
    channel_change s sender ev s' id
| ch_fail entry :
    ss_channels s !! id = Some entry -> ce_state entry = Pending ->
    ~ names_channel ev CONTROL_KIND_OPEN_CHANNEL id ->
    ss_channels s' !! id = Some (mk_entry ChFailed (ce_operation_kind entry) (ce_open_correlation entry)) ->
    channel_change s sender ev s' id
| ch_close entry :
    names_channel ev CONTROL_KIND_CLOSE_CHANNEL id ->
    ss_channels s !! id = Some entry -> ce_state entry = Active ->
    ss_channels s' !! id = Some (mk_entry Closed (ce_operation_kind entry) (ce_open_correlation entry)) ->
    channel_change s sender ev s' id.

Lemma set_channel_at id c s entry :
  ss_channels s !! id = Some entry ->
  ss_channels (set_channel id c s) !! id = Some (mk_entry c (ce_operation_kind entry) (ce_open_correlation entry)).
Proof. intros He. unfold set_channel, set_state. cbn. rewrite He. by rewrite lookup_insert_eq. Qed.

Lemma set_channel_other id i c s : i <> id -> ss_channels (set_channel i c s) !! id = ss_channels s !! id.
Proof.
  intros Hn. unfold set_channel, set_state. cbn. destruct (ss_channels s !! i); [by rewrite lookup_insert_ne | done].
Qed.

(** Only these kinds name a channel with a state change. *)
Lemma not_names ev frame msg kind id :
  ev = EvFrame frame -> df_payload frame = Frame.Control msg -> (cm_kind msg <> kind \/ msg_channel msg <> Some id) ->
  ~ names_channel ev kind id.
Proof. intros -> Hp Hn (frame' & msg' & [= <-] & _ & Hp' & Hk & Hc). rewrite Hp in Hp'. injection Hp' as <-. naive_solver. Qed.

Lemma frame_not_names sender frame s s' eff kind id :
  df_opcode frame <> OPCODE_CONTROL_CBOR -> frame_accepts s sender frame s' eff ->
  ~ names_channel (EvFrame frame) kind id.
Proof. intros Hn _ (frame' & msg' & [= <-] & Ho & _). done. Qed.

Ltac not_named Hpay := eapply not_names; [reflexivity | exact Hpay |]; unfold_kinds; first [left; lia | naive_solver].
Ltac same Hpay := apply ch_same; [done | not_named Hpay | not_named Hpay].
Ltac named Ho Hpay := eexists _, _; split_and!; [reflexivity | exact Ho | exact Hpay | done | done].

Lemma control_channel_change s sender frame msg s' eff id :
  df_opcode frame = OPCODE_CONTROL_CBOR -> df_payload frame = Frame.Control msg ->
  control_accepts s sender msg s' eff -> channel_change s sender (EvFrame frame) s' id.
Proof.
  intros Ho Hpay Ha.
  destruct Ha as [| | | | | sender msg i entry Hk Hp Hs Hc He Hst | | msg i op kind Hk Hp Hc Hi Hn Hop Hle Hkd
    | msg i entry raw res Hk Hp Hc He Hst Hr Hle Hres Hok | msg i entry raw res Hk Hp Hc He Hst Hr Hle Hres Hok
    | sender msg i Hk Hp Hc Hst | | | | | |]; try (same Hpay).
  - destruct (decide (i = id)) as [<- |].
    + apply (ch_fail _ _ _ _ _ entry He Hst); [not_named Hpay | by apply set_channel_at].
    + apply ch_same; [by apply set_channel_other | not_named Hpay | not_named Hpay].
  - destruct (decide (i = id)) as [<- |].
    + eapply ch_open; [done | named Ho Hpay | done | cbn; by rewrite lookup_insert_eq | done].
    + apply ch_same; [cbn; by rewrite lookup_insert_ne | not_named Hpay | not_named Hpay].
  - destruct (decide (i = id)) as [<- |].
    + apply (ch_ready _ _ _ _ _ entry); [done | named Ho Hpay | done | done | by apply set_channel_at].
    + apply ch_same; [by apply set_channel_other | not_named Hpay | not_named Hpay].
  - destruct (decide (i = id)) as [<- |].
    + apply (ch_fail _ _ _ _ _ entry He Hst); [not_named Hpay | by apply set_channel_at].
    + apply ch_same; [by apply set_channel_other | not_named Hpay | not_named Hpay].
  - destruct (table_state_entry _ _ _ Hst) as (entry & He & Hes); [done |].
    destruct (decide (i = id)) as [<- |].
    + apply (ch_close _ _ _ _ _ entry); [named Ho Hpay | done | done | by apply set_channel_at].
    + apply ch_same; [by apply set_channel_other | not_named Hpay | not_named Hpay].
Qed.

Lemma event_channel_change s sender ev s' eff id :
  event_accepts s sender ev s' eff -> channel_change s sender ev s' id.
Proof.
  destruct ev as [record | frame]; cbn; intros Ha.
  - destruct Ha; apply ch_same; try done; by intros (? & ? & ? & _).
  - destruct (decide (df_opcode frame = OPCODE_CONTROL_CBOR)) as [Ho | Ho].
    + inversion Ha; subst; [by eapply control_channel_change | |];
        unfold OPCODE_CONTROL_CBOR, OPCODE_ROS_SAMPLE, OPCODE_SERVICE_REQUEST in *; lia.
    + destruct (frame_accepts_data _ _ _ _ _ Ho Ha) as (-> & _).
      apply ch_same; [done | by eapply frame_not_names | by eapply frame_not_names].
Qed.

(** ** Invariant, progress and history *)

Record session_wf (s : SessionState) : Prop := {
  wf_selected : in_selected_plane (ss_phase s) = true <-> is_Some (ss_selected_wire_version s);
  wf_pending : is_Some (ss_pending_auth_correlation s) <-> ss_phase s = SelectedAwaitSessionReady;
  wf_before_ready : ss_phase s <> Ready -> ss_channels s = ∅ /\ ss_graph_generation s = None;
  wf_channels : forall id entry, ss_channels s !! id = Some entry -> 0 < id <= u32_max /\ ce_state entry <> Unused
}.

Inductive phase_next : SessionPhase -> SessionPhase -> Prop :=
| ph_client_hello : phase_next AwaitClientHello AwaitServerHello
| ph_server_hello : phase_next AwaitServerHello SelectedAwaitAuthenticate
| ph_bootstrap_error : phase_next AwaitServerHello BootstrapFailed
| ph_authenticate : phase_next SelectedAwaitAuthenticate SelectedAwaitSessionReady
| ph_early_error : phase_next SelectedAwaitAuthenticate Failed
| ph_session_ready : phase_next SelectedAwaitSessionReady Ready
| ph_auth_error : phase_next SelectedAwaitSessionReady Failed.

Inductive channel_next : ChannelState -> ChannelState -> Prop :=
| cn_open : channel_next Unused Pending
| cn_allow : channel_next Pending Active
| cn_fail : channel_next Pending ChFailed
| cn_close : channel_next Active Closed.

(** What a step may do to the whole state. *)
Lemma event_phase s sender ev s' eff :
  event_accepts s sender ev s' eff -> ss_role s' = ss_role s /\ rtc phase_next (ss_phase s) (ss_phase s').
Proof.
  destruct ev as [record | frame]; cbn; intros Ha.
  - destruct Ha as [? E | ? E | ? E]; cbn; rewrite E; (split; [done | apply rtc_once; constructor]).
  - destruct Ha as [sender frame msg s' eff _ _ Ha | |]; [| by split..].
    destruct Ha; cbn; try (split; reflexivity);
      match goal with E : ss_phase s = _ |- _ => rewrite E end; (split; [done | apply rtc_once; constructor]).
Qed.

Lemma event_channel_next s sender ev s' eff id :
  event_accepts s sender ev s' eff -> rtc channel_next (channel_state s id) (channel_state s' id).
Proof.
  intros Ha. unfold channel_state, table_state.
  destruct (event_channel_change _ _ _ _ _ id Ha) as [E _ _ | e _ _ E1 E2 Hs | e _ _ E1 Hs E2 | e E1 Hs _ E2 | e _ E1 Hs E2];
    rewrite ?E, ?E1, ?E2, ?Hs; [reflexivity | apply rtc_once; constructor ..].
Qed.

Lemma event_entry_kept s sender ev s' eff id entry :
  event_accepts s sender ev s' eff -> ss_channels s !! id = Some entry ->
  exists entry', ss_channels s' !! id = Some entry' /\ ce_operation_kind entry' = ce_operation_kind entry /\
    ce_open_correlation entry' = ce_open_correlation entry.
Proof.
  intros Ha He.
  destruct (event_channel_change _ _ _ _ _ id Ha) as [E _ _ | e _ _ E1 E2 Hs | e _ _ E1 Hs E2 | e E1 Hs _ E2 | e _ E1 Hs E2];
    [rewrite E; eauto | congruence | ..]; rewrite E2; assert (e = entry) as -> by congruence; eauto.
Qed.

Lemma new_state_wf r : session_wf (new_state r).
Proof.
  split; cbn; try done.
Qed.

Lemma msg_channel_range msg id : msg_channel msg = Some id -> 0 <= id <= u32_max.
Proof.
  unfold msg_channel. destruct (field_uint msg FIELD_CHANNEL_ID) as [raw |]; cbn; [| done]. intros [= <-].
  pose proof (as_unsigned_range 32 raw ltac:(lia)) as H. unfold is_unsigned, u32_max in *. lia.
Qed.

Lemma set_channel_wf_channels s id c :
  c <> Unused -> session_wf s ->
  forall i entry, ss_channels (set_channel id c s) !! i = Some entry -> 0 < i <= u32_max /\ ce_state entry <> Unused.
Proof.
  intros Hc Hwf i entry He. destruct (decide (id = i)) as [<- | Hn].
  - destruct (ss_channels s !! id) as [e |] eqn:E.
    + rewrite (set_channel_at _ _ _ e) in He by done. injection He as <-. split; [by apply (wf_channels s Hwf id e) | done].
    + unfold set_channel, set_state in He. cbn in He. rewrite E in He. congruence.
  - rewrite set_channel_other in He by done. by apply (wf_channels s Hwf i entry).
Qed.

Lemma event_wf s sender ev s' eff : session_wf s -> event_accepts s sender ev s' eff -> session_wf s'.
Proof.
  intros Hwf Ha. pose proof Hwf as [H1 H2 H3 H4].
  assert (Hready : forall s', ss_phase s = Ready -> ss_phase s' = ss_phase s ->
    ss_selected_wire_version s' = ss_selected_wire_version s ->
    ss_pending_auth_correlation s' = ss_pending_auth_correlation s ->
    (forall id entry, ss_channels s' !! id = Some entry -> 0 < id <= u32_max /\ ce_state entry <> Unused) ->
    session_wf s').
  { intros s1 Hp Ep Es Ea Hc. split; rewrite ?Ep, ?Es, ?Ea; done. }
  destruct ev as [record | frame]; cbn in Ha.
  - destruct Ha as [? E | ? E | ? E]; rewrite E in *; destruct H3 as [Hc Hg]; try done;
      (split; cbn; rewrite ?Hc, ?Hg; try done; try (split; [intros Hs; by apply H2 in Hs | done])).
  - destruct Ha as [sender frame msg s' eff _ _ Ha | |]; [| done..].
    destruct Ha as [msg Hk E | msg Hk E | sender msg Hk E | sender msg Hk E | | | | msg i op kind Hk Hp Hc Hi | | | | | | | | |];
      try done; try (by apply Hready; try done; by apply set_channel_wf_channels).
    all: try (rewrite E in *; destruct H3 as [Hc Hg]; [done |]; split; cbn; rewrite ?Hc, ?Hg; try done;
      try (split; naive_solver); fail).
    apply Hready; try done. cbn. intros id entry. destruct (decide (i = id)) as [<- | Hn].
    + rewrite lookup_insert_eq. intros [= <-]. pose proof (msg_channel_range _ _ Hc). split; [lia | done].
    + rewrite lookup_insert_ne by done. apply H4.
Qed.

(** What the history must contain for a channel to be pending or active. *)
Definition opened_in (id : Z) (tr : list Accepted) : Prop :=
  exists tr1 ev eff tr2, tr = tr1 ++ (Client, ev, eff) :: tr2 /\ names_channel ev CONTROL_KIND_OPEN_CHANNEL id.

Definition activated_in (id : Z) (tr : list Accepted) : Prop :=
  exists tr1 ev eff tr2, tr = tr1 ++ (Server, ev, eff) :: tr2 /\ opened_in id tr1 /\
    names_channel ev CONTROL_KIND_CHANNEL_READY id /\
    forall sender ev' eff', (sender, ev', eff') ∈ tr2 -> ~ names_channel ev' CONTROL_KIND_CLOSE_CHANNEL id.

Lemma opened_in_app id tr x : opened_in id tr -> opened_in id (tr ++ x).
Proof. intros (tr1 & ev & eff & tr2 & -> & H). exists tr1, ev, eff, (tr2 ++ x). by rewrite <- app_assoc. Qed.

Lemma activated_in_app id tr sender ev eff :
  activated_in id tr -> ~ names_channel ev CONTROL_KIND_CLOSE_CHANNEL id -> activated_in id (tr ++ [(sender, ev, eff)]).
Proof.
  intros (tr1 & ev1 & eff1 & tr2 & -> & Ho & Hn & Hc) Hnot.
  exists tr1, ev1, eff1, (tr2 ++ [(sender, ev, eff)]). rewrite <- app_assoc. split_and!; try done.
  intros s' ev' eff' [Hin | Hin]%elem_of_app; [by eapply Hc |].
  apply list_elem_of_singleton in Hin as [= -> -> ->]. done.
Qed.

Lemma run_history r tr s id :
  run (new_state r) tr s ->
  (channel_state s id = Pending -> opened_in id tr) /\ (channel_state s id = Active -> activated_in id tr).
Proof.
  intros Hr. revert tr s Hr.
  apply (run_accepts_ind (new_state r) (fun tr s =>
    (channel_state s id = Pending -> opened_in id tr) /\ (channel_state s id = Active -> activated_in id tr))); [done |].
  intros tr s sender ev eff s' [IHp IHa] Hacc. unfold channel_state, table_state in *.
  destruct (event_channel_change _ _ _ _ _ id Hacc) as
    [E Hnc _ | e -> Hn E1 E2 Hs | e -> Hn E1 Hs E2 | e E1 Hs _ E2 | e Hn E1 Hs E2].
  - rewrite E. split; intros Hs; [by apply opened_in_app, IHp | by apply activated_in_app; [apply IHa |]].
  - rewrite E2, Hs. split; [| done]. intros _. exists tr, ev, eff, []. done.
  - rewrite E2. rewrite E1, Hs in IHp. split; [done |]. intros _. exists tr, ev, eff, [].
    split_and!; [done | by apply IHp | done |]. by intros ? ? ? ?%not_elem_of_nil.
  - rewrite E2. done.
  - rewrite E2. done.
Qed.

(** Once a channel left [Unused], no OpenChannel for it is accepted. *)
Lemma run_no_reopen s tr s' id :
  run s tr s' -> channel_state s id <> Unused -> channel_state s' id <> Unused /\
  forall sender ev eff, (sender, ev, eff) ∈ tr -> ~ names_channel ev CONTROL_KIND_OPEN_CHANNEL id.
Proof.
  intros Hr Hs. revert tr s' Hr. apply (run_accepts_ind s (fun tr s' => channel_state s' id <> Unused /\
    forall sender ev eff, (sender, ev, eff) ∈ tr -> ~ names_channel ev CONTROL_KIND_OPEN_CHANNEL id)).
  - split; [done |]. by intros ? ? ? ?%not_elem_of_nil.
  - intros tr s1 sender ev eff s2 [Hu IH] Hacc. unfold channel_state, table_state in *.
    assert (Hstep : match ss_channels s2 !! id with Some e => ce_state e | None => Unused end <> Unused /\
      ~ names_channel ev CONTROL_KIND_OPEN_CHANNEL id).
    { destruct (event_channel_change _ _ _ _ _ id Hacc) as
        [E _ Hno | e -> Hn E1 E2 Hs' | e -> Hn E1 Hs' E2 | e E1 Hs' Hno E2 | e Hn E1 Hs' E2].
      - by rewrite E.
      - by rewrite E1 in Hu.
      - rewrite E2. split; [done |]. destruct Hn as (f & m & -> & _ & Hp & Hk & _).
        eapply not_names; [done | exact Hp | left]. by rewrite Hk.
      - by rewrite E2.
      - rewrite E2. split; [done |]. destruct Hn as (f & m & -> & _ & Hp & Hk & _).
        eapply not_names; [done | exact Hp | left]. by rewrite Hk. }
    split; [apply Hstep |]. intros sender' ev' eff' [Hin | Hin]%elem_of_app; [by eapply IH |].
    apply list_elem_of_singleton in Hin as [= -> -> ->]. apply Hstep.
Qed.

(** *** Graph generations *)

Definition is_delta (a : Accepted) : bool :=
  match fx_graph_delta a.2 with Some _ => true | None => false end.
Definition is_snapshot (a : Accepted) : bool :=
  match fx_graph_snapshot a.2 with Some _ => true | None => false end.
Definition deltas (tr : list Accepted) : Z := blen (List.filter is_delta tr).

Lemma deltas_snoc tr a : deltas (tr ++ [a]) = deltas tr + (if is_delta a then 1 else 0).
Proof. unfold deltas. rewrite List.filter_app, blen_app. cbn. by destruct (is_delta a). Qed.

Lemma matched_cases mark pending msg : matched mark pending msg = mark no_effects \/ matched mark pending msg = no_effects.
Proof. unfold matched. destruct (correlations_match _ _); auto. Qed.

Lemma event_generation s sender ev s' eff :
  event_accepts s sender ev s' eff -> fx_graph_snapshot eff = None ->
  (fx_graph_delta eff = None /\ ss_graph_generation s' = ss_graph_generation s) \/
  (exists g, ss_graph_generation s = Some g /\ ss_graph_generation s' = Some (u64_saturating_add g 1) /\
     fx_graph_delta eff = Some (u64_saturating_add g 1)).
Proof.
  destruct ev as [record | frame]; cbn; intros Ha Hn.
  - destruct Ha; by left.
  - destruct Ha as [sender frame msg s' eff _ _ Ha | |]; [| by left ..].
    destruct Ha; try done; try (by left);
      try (left; destruct (matched_cases with_auth_matched (ss_pending_auth_correlation s) msg) as [-> | ->]; done);
      try (left; destruct (matched_cases with_channel_matched (Some (ce_open_correlation entry)) msg) as [-> | ->]; done).
    right. eauto.
Qed.

(** *** The two peers *)

(** A computation that neither reads nor writes the part of the state [act] changes. *)
Definition blind {S A} (act : S -> S) (m : SM S ProtocolError A) : Prop :=
  forall s, m (act s) = (fst (m s), act (snd (m s))).

Section Blind.
Context {S : Type} (act : S -> S).

Lemma blind_bind {A B} (m : SM S ProtocolError A) (k : A -> SM S ProtocolError B) :
  blind act m -> (forall a, blind act (k a)) -> blind act (x <~ m ;; k x).
Proof.
  intros Hm Hk s. unfold bind. rewrite Hm. destruct (m s) as [[a | e |] s1]; cbn; [apply Hk | done | done].
Qed.
Lemma blind_ret {A} (a : A) : blind act (ret a).
Proof. done. Qed.
Lemma blind_throw {A} e : blind act (throw (A := A) e).
Proof. done. Qed.
Lemma blind_lift {A} (o : outcome ProtocolError A) : blind act (lift o).
Proof. done. Qed.
Lemma blind_gets {A} (f : S -> A) : (forall s, f (act s) = f s) -> blind act (gets f).
Proof. intros Hf s. unfold gets. cbn. by rewrite Hf. Qed.
Lemma blind_modify (f : S -> S) : (forall s, f (act s) = act (f s)) -> blind act (modify f).
Proof. intros Hf s. unfold modify. cbn. by rewrite Hf. Qed.
End Blind.

Definition as_role (r : Role) (s : SessionState) : SessionState :=
  mk_state r (ss_phase s) (ss_channels s) (ss_pending_auth_correlation s)
    (ss_selected_wire_version s) (ss_graph_generation s).
Definition borrows_as (r : Role) (m : Borrows) : Borrows := mk_borrows (as_role r (b_state m)) (b_effects m).

Create HintDb blind.
#[local] Hint Resolve blind_bind blind_ret blind_throw blind_lift blind_gets blind_modify : blind.

Lemma control_handler_blind r msg : blind (borrows_as r) (control_handler msg).
Proof.
  unfold control_handler, apply_authenticate, apply_session_ready, apply_error, apply_error_ready, apply_open_channel,
    apply_channel_ready, apply_close_channel, apply_graph_snapshot, apply_graph_delta, note_channel_match,
    set_channel_state, require, check, read, update, effect.
  assert (Hassert : forall f, (forall s, f (as_role r s) = f s) -> blind (borrows_as r) (debug_assert f)).
  { intros f Hf m. unfold debug_assert. cbn. rewrite Hf. by destruct (f (b_state m)). }
  repeat first
    [ case_match
    | apply blind_bind; [| intros ?]
    | apply blind_ret | apply blind_throw | apply blind_lift
    | apply blind_gets; done | apply blind_modify; done | apply Hassert; done ].
Qed.

Lemma apply_event_blind r ev sender : blind (as_role r) (apply_event ev sender).
Proof.
  assert (Hcontrol : forall msg, blind (as_role r) (with_effects (control_handler msg))).
  { intros msg s. pose proof (control_handler_blind r msg (mk_borrows s no_effects)) as H. unfold with_effects.
    change (mk_borrows (as_role r s) no_effects) with (borrows_as r (mk_borrows s no_effects)). rewrite H.
    by destruct (control_handler msg (mk_borrows s no_effects)) as [[] []]. }
  assert (Hentry : forall id, blind (as_role r) (expect_entry id)).
  { intros id s. unfold expect_entry. cbn. by destruct (ss_channels s !! id). }
  destruct ev as [record | frame]; cbn [apply_event];
    unfold apply_bootstrap, apply_frame, apply_control, apply_ros_sample, apply_service_action_frame, check_ready,
      apply_data_channel_gates, check_operation_id, reject_if_wrong_sender, require, check;
    repeat first
      [ apply Hcontrol | apply Hentry
      | case_match
      | apply blind_bind; [| intros ?]
      | apply blind_ret | apply blind_throw | apply blind_lift
      | apply blind_gets; done | apply blind_modify; done ].
Qed.

(** One message on the wire: its sender records it, the other peer ingests it. *)
Definition peer_apply (sender : Role) (ev : Event) : Apply :=
  role <~ gets ss_role ;;
  if bool_decide (role = sender) then
    match ev with
    | EvBootstrap record => record_send_bootstrap record
    | EvFrame frame => record_send_frame frame
    end
  else
    match ev with
    | EvBootstrap record => ingest_bootstrap record
    | EvFrame frame => ingest_frame frame
    end.

Fixpoint peer_run (s : SessionState) (msgs : list (Role * Event)) : list (outcome ProtocolError SessionEffects) * SessionState :=
  match msgs with
  | [] => ([], s)
  | (sender, ev) :: msgs' =>
      let '(res, s1) := peer_apply sender ev s in
      let '(rs, s2) := peer_run s1 msgs' in (res :: rs, s2)
  end.

Lemma peer_apply_event sender ev s : peer_apply sender ev s = apply_event ev sender s.
Proof.
  unfold peer_apply, bind, gets, ingest_bootstrap, ingest_frame, record_send_bootstrap, record_send_frame.
  case_bool_decide as Hs; destruct ev; cbn.
  - by rewrite Hs.
  - by rewrite Hs.
  - by destruct (ss_role s), sender.
  - by destruct (ss_role s), sender.
Qed.

Lemma peer_run_as_role r msgs s :
  peer_run (as_role r s) msgs = (fst (peer_run s msgs), as_role r (snd (peer_run s msgs))).
Proof.
  revert s. induction msgs as [| [sender ev] msgs IH]; intros s; cbn [peer_run]; [done |].
  rewrite !peer_apply_event, apply_event_blind. destruct (apply_event ev sender s) as [res s1]; cbn.
  rewrite IH. by destruct (peer_run s1 msgs).
Qed.

(** ** Properties *)


(** C20: in every reachable session the fields agree with the phase: a version is
    selected exactly in the selected plane, a correlation is outstanding
    exactly while SessionReady is awaited, channels and a graph exist only once
    ready, and every channel id in the table is a nonzero 32-bit id in a used
    state. *)
Theorem session_reachable_wf r tr s :
  run (new_state r) tr s -> session_wf s /\ ss_role s = r.
Proof.
  intros Hr. split.
  - revert tr s Hr. apply (run_accepts_ind (new_state r) (fun _ s => session_wf s)); [apply new_state_wf |].
    intros tr s1 sender ev eff s2 Hwf Ha. by eapply event_wf.
  - revert tr s Hr. apply (run_accepts_ind (new_state r) (fun _ s => ss_role s = r)); [done |].
    intros tr s1 sender ev eff s2 <- Ha. by apply (event_phase _ _ _ _ _ Ha).
Qed.

(** Progress is one-way, from any state on: the phase moves along the
    handshake (so Ready, Failed and BootstrapFailed are final), each channel
    along open, ready or failed, closed (so failed and closed are final), and
    an entry keeps its operation kind and correlation. *)
Theorem session_progress s tr s' :
  run s tr s' ->
  rtc phase_next (ss_phase s) (ss_phase s') /\
  (forall id, rtc channel_next (channel_state s id) (channel_state s' id)) /\
  (forall id entry, ss_channels s !! id = Some entry ->
     exists entry', ss_channels s' !! id = Some entry' /\ ce_operation_kind entry' = ce_operation_kind entry /\
       ce_open_correlation entry' = ce_open_correlation entry).
Proof.
  intros Hr. split_and!.
  - revert tr s' Hr. apply (run_accepts_ind s (fun _ s' => rtc phase_next (ss_phase s) (ss_phase s'))); [done |].
    intros tr s1 sender ev eff s2 IH Ha. etransitivity; [exact IH | by eapply event_phase].
  - intros id. revert tr s' Hr.
    apply (run_accepts_ind s (fun _ s' => rtc channel_next (channel_state s id) (channel_state s' id))); [done |].
    intros tr s1 sender ev eff s2 IH Ha. etransitivity; [exact IH | by eapply event_channel_next].
  - intros id entry He. revert tr s' Hr.
    apply (run_accepts_ind s (fun _ s' => exists entry', ss_channels s' !! id = Some entry' /\
      ce_operation_kind entry' = ce_operation_kind entry /\ ce_open_correlation entry' = ce_open_correlation entry));
      [eauto |].
    intros tr s1 sender ev eff s2 (e1 & He1 & Hk1 & Hc1) Ha.
    destruct (event_entry_kept _ _ _ _ _ _ _ Ha He1) as (e2 & He2 & Hk2 & Hc2). exists e2. split_and!; congruence.
Qed.

(** C21: whenever a session started fresh accepts a data frame on a channel, the
    client opened that channel, the server then answered with ChannelReady, no
    CloseChannel for it was accepted since, and the frame leaves the session
    unchanged. *)
Theorem data_needs_open_channel r tr s sender frame eff s' :
  run (new_state r) tr s -> apply_frame frame sender s = (Ok eff, s') ->
  df_opcode frame <> OPCODE_CONTROL_CBOR ->
  activated_in (df_channel_id frame) tr /\ s' = s /\ eff = no_effects.
Proof.
  intros Hr Hf Ho. pose proof (event_ok (EvFrame frame) sender s eff s' Hf) as Ha.
  destruct (frame_accepts_data _ _ _ _ _ Ho Ha) as (-> & -> & _ & Hact & _).
  split; [by apply (run_history r tr s) | done].
Qed.

(** C22: a channel id is consumed by its first OpenChannel: no run accepts two
    OpenChannel messages for the same id, whatever happened to the first. *)
Theorem channel_id_never_reused s tr1 sender1 ev1 eff1 tr2 s' id :
  run s (tr1 ++ (sender1, ev1, eff1) :: tr2) s' -> names_channel ev1 CONTROL_KIND_OPEN_CHANNEL id ->
  forall sender2 ev2 eff2, (sender2, ev2, eff2) ∈ tr2 -> ~ names_channel ev2 CONTROL_KIND_OPEN_CHANNEL id.
Proof.
  intros Hr Hn. assert (Hsplit : exists s1, channel_state s1 id <> Unused /\ run s1 tr2 s').
  { remember (tr1 ++ (sender1, ev1, eff1) :: tr2) as tr eqn:E. revert tr2 E.
    induction Hr as [| tr s1 sender ev eff s2 Hr IH E | tr s1 sender ev e s2 Hr IH E]; intros tr2 Etr.
    - by destruct tr1.
    - destruct tr2 as [| x tr2' _] using rev_ind.
      + exists s2. split; [| constructor]. apply app_inj_tail in Etr as [_ [= -> -> ->]].
        apply event_ok in E. unfold channel_state, table_state.
        destruct (event_channel_change _ _ _ _ _ id E) as
          [_ _ Hno | e0 _ _ _ E2 Hs | e0 _ Hn' _ _ _ | e0 _ _ Hno _ | e0 Hn' _ _ _]; [done | by rewrite E2, Hs | | done |];
          (destruct Hn as (f & m & -> & _ & Hp & Hk & _); destruct Hn' as (f' & m' & [= <-] & _ & Hp' & Hk' & _);
           rewrite Hp in Hp'; injection Hp' as <-; rewrite Hk in Hk'; discriminate).
      + rewrite app_comm_cons, app_assoc in Etr. apply app_inj_tail in Etr as [Etr <-].
        destruct (IH tr2' Etr) as (s0 & Hu & Hr0). exists s0. split; [done |]. by eapply run_accept.
    - destruct (IH tr2 Etr) as (s0 & Hu & Hr0). exists s0. split; [done |]. by eapply run_reject. }
  destruct Hsplit as (s1 & Hu & Hr1). by apply (run_no_reopen s1 tr2 s').
Qed.

(** The graph generation counts deltas: from generation [g], a run without a
    new snapshot ends at [g] plus the number of accepted deltas, saturating at
    the 64-bit maximum. *)
Theorem graph_generation_counts_deltas s g tr s' :
  run s tr s' -> ss_graph_generation s = Some g -> 0 <= g <= u64_max ->
  List.existsb is_snapshot tr = false ->
  ss_graph_generation s' = Some (Z.min u64_max (g + deltas tr)).
Proof.
  intros Hr Hg Hb. revert tr s' Hr. apply (run_accepts_ind s (fun tr s' =>
    List.existsb is_snapshot tr = false -> ss_graph_generation s' = Some (Z.min u64_max (g + deltas tr)))).
  - intros _. rewrite Hg. f_equal. change (deltas []) with 0. lia.
  - intros tr s1 sender ev eff s2 IH Ha Hs. rewrite existsb_app in Hs. apply orb_false_iff in Hs as [Hs1 Hs2].
    specialize (IH Hs1). cbn in Hs2. rewrite orb_false_r in Hs2. unfold is_snapshot in Hs2. cbn in Hs2.
    rewrite deltas_snoc. unfold is_delta. cbn.
    destruct (event_generation _ _ _ _ _ Ha) as [[-> ->] | (g1 & E1 & E2 & ->)]; [by destruct (fx_graph_snapshot eff) | |].
    + rewrite IH. f_equal. lia.
    + rewrite E2. f_equal. rewrite IH in E1. injection E1 as <-. unfold u64_saturating_add.
      assert (0 <= deltas tr) by apply blen_nonneg. lia.
Qed.

(** The two peers of a connection agree: if a client session and a server
    session process the same messages in the same order, each recording what
    it sends and ingesting what it receives, they accept the same messages
    with the same effects (and reject with the same errors), and their states
    differ in the role only. *)
Theorem peers_agree msgs :
  let '(client_results, client) := peer_run (Session_new Client) msgs in
  let '(server_results, server) := peer_run (Session_new Server) msgs in
  client_results = server_results /\ server = as_role Server client.
Proof.
  pose proof (peer_run_as_role Server msgs (Session_new Client)) as H.
  change (as_role Server (Session_new Client)) with (Session_new Server) in H. rewrite H.
  by destruct (peer_run (Session_new Client) msgs).
Qed.

(** *** A concrete connection *)

(** The accepted part of a list of messages. *)
Fixpoint trace_of (s : SessionState) (msgs : list (Role * Event)) : list Accepted * SessionState :=
  match msgs with
  | [] => ([], s)
  | (sender, ev) :: msgs' =>
      match apply_event ev sender s with
      | (Ok eff, s1) => let '(tr, s2) := trace_of s1 msgs' in ((sender, ev, eff) :: tr, s2)
      | (_, s1) => trace_of s1 msgs'
      end
  end.

Lemma trace_of_run s0 tr0 s msgs :
  run s0 tr0 s -> run s0 (tr0 ++ (trace_of s msgs).1) (trace_of s msgs).2.
Proof.
  revert tr0 s. induction msgs as [| [sender ev] msgs IH]; intros tr0 s Hr; cbn [trace_of]; [by rewrite app_nil_r |].
  pose proof (event_implements ev sender s) as Hi. unfold implements in Hi.
  destruct (apply_event ev sender s) as [[eff | e |] s1] eqn:E; [| | done].
  - specialize (IH _ _ (run_accept _ _ _ _ _ _ _ Hr E)). destruct (trace_of s1 msgs) as [tr s2]; cbn in *.
    by rewrite <- app_assoc in IH.
  - by apply IH, (run_reject _ _ _ _ _ _ _ Hr E).
Qed.

Definition control_frame (kind : Z) (fields : list (Z * CborValue)) : DecodedFrame :=
  {| df_version := 0; df_opcode := OPCODE_CONTROL_CBOR; df_flags := 0; df_channel_id := 0; df_sequence := 0;
     df_source_time_ns := 0; df_payload_len := 0; df_extension_len := 0; df_priority := 0; df_clock_id := 0;
     df_extensions := [];
     df_payload := Frame.Control {| cm_kind := kind; cm_fields := list_to_map ((1, Unsigned kind) :: fields) |} |}.
Definition data_frame (opcode id : Z) : DecodedFrame :=
  {| df_version := 0; df_opcode := opcode; df_flags := 1; df_channel_id := id; df_sequence := 1;
     df_source_time_ns := 0; df_payload_len := 0; df_extension_len := 0; df_priority := 0; df_clock_id := 0;
     df_extensions := []; df_payload := Application [] |}.

Definition sample_hello : BootstrapRecord :=
  RServerHello {| selected_wire_version := 0; sh_transport := sample_transport; sh_buffer := sample_buffer;
    effective_limits := {| el_max_channels := 64; el_max_session_bytes := 1048576; el_max_message_bytes := 1048576;
      el_max_control_payload_bytes := 65536 |}; sh_extensions := [] |}.

Definition handshake : list (Role * Event) :=
  [(Client, EvBootstrap sample_client); (Server, EvBootstrap sample_hello);
   (Client, EvFrame (control_frame CONTROL_KIND_AUTHENTICATE [(2, Bytes [7])]));
   (Server, EvFrame (control_frame CONTROL_KIND_SESSION_READY [(2, Bytes [7])]))].
Definition open_7 : Role * Event :=
  (Client, EvFrame (control_frame CONTROL_KIND_OPEN_CHANNEL [(29, Unsigned 7); (30, Unsigned 0)])).
Definition ready_7 : Role * Event :=
  (Server, EvFrame (control_frame CONTROL_KIND_CHANNEL_READY [(29, Unsigned 7); (33, Unsigned 0)])).

Definition ready_session : SessionState := (trace_of (new_state Client) handshake).2.
Definition open_trace : list Accepted := (trace_of (new_state Client) (handshake ++ [open_7; ready_7])).1.
Definition open_session : SessionState := (trace_of (new_state Client) (handshake ++ [open_7; ready_7])).2.

Lemma open_run : run (new_state Client) open_trace open_session.
Proof. exact (trace_of_run _ [] _ (handshake ++ [open_7; ready_7]) (run_start _)). Qed.

Example open_session_active : channel_state open_session 7 = Active.
Proof. by vm_compute. Qed.

Lemma session_reachable_wf_witness :
  run (new_state Client) open_trace open_session /\ (session_wf open_session /\ ss_role open_session = Client).
Proof. split; [exact open_run | exact (session_reachable_wf Client open_trace open_session open_run)]. Defined.

Lemma session_progress_witness :
  run (new_state Client) open_trace open_session /\
  (rtc phase_next AwaitClientHello (ss_phase open_session) /\
   (forall id, rtc channel_next (channel_state (new_state Client) id) (channel_state open_session id)) /\
   (forall id entry, ss_channels (new_state Client) !! id = Some entry ->
      exists entry', ss_channels open_session !! id = Some entry' /\
        ce_operation_kind entry' = ce_operation_kind entry /\
        ce_open_correlation entry' = ce_open_correlation entry)).
Proof. split; [exact open_run | exact (session_progress (new_state Client) open_trace open_session open_run)]. Defined.

Lemma data_needs_open_channel_witness :
  apply_frame (data_frame OPCODE_ROS_SAMPLE 7) Server open_session = (Ok no_effects, open_session) /\
  (activated_in 7 open_trace /\ open_session = open_session /\ no_effects = no_effects).
Proof.
  assert (Hf : apply_frame (data_frame OPCODE_ROS_SAMPLE 7) Server open_session = (Ok no_effects, open_session))
    by (by vm_compute).
  split; [exact Hf |].
  exact (data_needs_open_channel Client open_trace open_session Server (data_frame OPCODE_ROS_SAMPLE 7)
           no_effects open_session open_run Hf ltac:(discriminate)).
Defined.

Definition open_7_accepted : Accepted := (open_7.1, open_7.2, with_channel_opened 7 no_effects).

Lemma channel_id_never_reused_witness :
  run ready_session [open_7_accepted] (trace_of ready_session [open_7; open_7]).2 /\
  forall sender ev eff, (sender, ev, eff) ∈ @nil Accepted -> ~ names_channel ev CONTROL_KIND_OPEN_CHANNEL 7.
Proof.
  assert (Hr : run ready_session [open_7_accepted] (trace_of ready_session [open_7; open_7]).2).
  { exact (trace_of_run _ [] _ [open_7; open_7] (run_start _)). }
  split; [exact Hr |].
  apply (channel_id_never_reused ready_session [] Client open_7.2 (with_channel_opened 7 no_effects) []
           (trace_of ready_session [open_7; open_7]).2 7 Hr).
  eexists _, _. split_and!; [reflexivity | reflexivity | reflexivity | reflexivity | by vm_compute].
Defined.

Definition graph_msgs : list (Role * Event) :=
  [(Server, EvFrame (control_frame CONTROL_KIND_GRAPH_SNAPSHOT [(14, Unsigned 5)]));
   (Server, EvFrame (control_frame CONTROL_KIND_GRAPH_DELTA [(24, Unsigned 5); (14, Unsigned 6)]));
   (Server, EvFrame (control_frame CONTROL_KIND_GRAPH_DELTA [(24, Unsigned 4); (14, Unsigned 5)]))].
Definition graph_session : SessionState := (trace_of ready_session (take 1 graph_msgs)).2.
Definition graph_trace : list Accepted := (trace_of graph_session (drop 1 graph_msgs)).1.
Definition graph_after : SessionState := (trace_of graph_session (drop 1 graph_msgs)).2.

Lemma graph_generation_counts_deltas_witness :
  run graph_session graph_trace graph_after /\ deltas graph_trace = 1 /\
  ss_graph_generation graph_after = Some (Z.min u64_max (5 + deltas graph_trace)).
Proof.
  assert (Hr : run graph_session graph_trace graph_after).
  { exact (trace_of_run _ [] _ (drop 1 graph_msgs) (run_start _)). }
  split; [exact Hr |]. split; [by vm_compute |].
  apply (graph_generation_counts_deltas graph_session 5 graph_trace graph_after Hr);
    [by vm_compute | unfold u64_max; lia | by vm_compute].
Defined.
