(* ===== verification/Budgets.v ===== *)
(** * The gateway's sample write queue

    [rclwebd/src/budgets.rs]: disposition counters and the bounded per-connection
    queue of framed samples, with latest-wins admission for best-effort frames
    and reservation for reliable ones.  The abstract queue is the list of the
    frames in order; [admit_best_effort] keeps its longest suffix within the
    budget. *)

From S2P Require Import Prelude.
#[local] Open Scope Z_scope.

Inductive Disposition := Delivered | SequenceGap | StaleSequence.

Record DispositionCounters := mk_counters { delivered : Z; sequence_gap : Z; stale_sequence : Z }.

Definition no_dispositions : DispositionCounters := mk_counters 0 0 0.

(** [u64::saturating_add(1)]. *)
Definition u64_incr (n : Z) : Z := Z.min u64_max (n + 1).

Definition record (c : DispositionCounters) (d : Disposition) : DispositionCounters :=
  match d with
  | Delivered => mk_counters (u64_incr (delivered c)) (sequence_gap c) (stale_sequence c)
  | SequenceGap => mk_counters (delivered c) (u64_incr (sequence_gap c)) (stale_sequence c)
  | StaleSequence => mk_counters (delivered c) (sequence_gap c) (u64_incr (stale_sequence c))
  end.

Record QueuedFrame := mk_queued { qf_channel_id : Z; qf_reliable : bool; qf_bytes : bytes }.

Record SampleWriteQueue := mk_queue {
  max_samples : Z;
  max_bytes : Z;
  items : list QueuedFrame;
  q_bytes : Z;
  dispositions : DispositionCounters
}.

Section Queue.
Context `{Target}.

Definition usize_saturating_add (a b : Z) : Z := Z.min usize_max (a + b).
Definition usize_saturating_sub (a b : Z) : Z := Z.max 0 (a - b).

Definition queue_new (samples bytes_ : Z) : SampleWriteQueue :=
  mk_queue (Z.max samples 1) (Z.max bytes_ 1) [] 0 no_dispositions.

Definition queue_len (q : SampleWriteQueue) : Z := blen (items q).
Definition queue_is_empty (q : SampleWriteQueue) : bool := queue_len q =? 0.

Definition can_fit (q : SampleWriteQueue) (frame_len : Z) : bool :=
  if max_bytes q <? frame_len then false
  else (queue_len q <? max_samples q) && (usize_saturating_add (q_bytes q) frame_len <=? max_bytes q).

Definition push (q : SampleWriteQueue) (channel_id : Z) (reliable : bool) (frame : bytes) : SampleWriteQueue :=
  mk_queue (max_samples q) (max_bytes q) (items q ++ [mk_queued channel_id reliable frame])
    (usize_saturating_add (q_bytes q) (blen frame)) (dispositions q).

Definition pop_front_raw (q : SampleWriteQueue) : option QueuedFrame * SampleWriteQueue :=
  match items q with
  | [] => (None, q)
  | item :: rest =>
      (Some item, mk_queue (max_samples q) (max_bytes q) rest
                    (usize_saturating_sub (q_bytes q) (blen (qf_bytes item))) (dispositions q))
  end.

Definition note (q : SampleWriteQueue) (d : Disposition) : SampleWriteQueue :=
  mk_queue (max_samples q) (max_bytes q) (items q) (q_bytes q) (record (dispositions q) d).

(** The eviction loop; [fuel] bounds its iterations ([None] when exhausted). *)
Fixpoint evict (fuel : nat) (q : SampleWriteQueue) (len : Z) : option SampleWriteQueue :=
  match fuel with
  | O => None
  | S fuel' =>
      if can_fit q len then Some q
      else
        match pop_front_raw q with
        | (Some _, q') => evict fuel' (note q' SequenceGap) len
        | (None, q') => Some q'
        end
  end.

Definition admit_best_effort (q : SampleWriteQueue) (channel_id : Z) (frame : bytes) : outcome Empty_set SampleWriteQueue :=
  let len := blen frame in
  if max_bytes q <? len then Ok (note q SequenceGap)
  else
    match evict (S (length (items q))) q len with
    | Some q' => Ok (if can_fit q' len then push q' channel_id false frame else note q' SequenceGap)
    | None => Panic
    end.

Definition try_reserve_reliable (q : SampleWriteQueue) (frame_len : Z) : bool := can_fit q frame_len.

Definition push_reliable (q : SampleWriteQueue) (channel_id : Z) (frame : bytes) : outcome Empty_set SampleWriteQueue :=
  if can_fit q (blen frame) || queue_is_empty q then Ok (push q channel_id true frame) else Panic.

Definition pop_front (q : SampleWriteQueue) : option bytes * SampleWriteQueue :=
  let '(item, q') := pop_front_raw q in (option_map qf_bytes item, q').

Definition record_delivered (q : SampleWriteQueue) : SampleWriteQueue := note q Delivered.

(** ** The abstract queue *)

Definition total_bytes (l : list QueuedFrame) : Z := foldr (fun f n => blen (qf_bytes f) + n) 0 l.

(** The frames fit the budget. *)
Definition within (q : SampleWriteQueue) (l : list QueuedFrame) : bool :=
  (blen l <=? max_samples q) && (total_bytes l <=? max_bytes q).

Record queue_wf (q : SampleWriteQueue) : Prop := {
  q_samples : 1 <= max_samples q;
  q_limit : 1 <= max_bytes q < usize_max;
  q_sum : q_bytes q = total_bytes (items q);
  q_within : within q (items q) = true
}.

Lemma total_cons f l : total_bytes (f :: l) = blen (qf_bytes f) + total_bytes l.
Proof. done. Qed.

Lemma total_app l k : total_bytes (l ++ k) = total_bytes l + total_bytes k.
Proof. induction l as [| f l IH]; [done |]. cbn [app]. rewrite !total_cons, IH. lia. Qed.

Lemma total_nonneg l : 0 <= total_bytes l.
Proof. induction l as [| f l IH]; [done |]. rewrite total_cons. pose proof (blen_nonneg (qf_bytes f)). lia. Qed.

(** [can_fit] decides whether the frame can be appended. *)
Lemma can_fit_spec q frame c r :
  queue_wf q -> can_fit q (blen frame) = within q (items q ++ [mk_queued c r frame]).
Proof.
  intros [Hs Hl Hsum Hw]. unfold can_fit, within, queue_len, usize_saturating_add in *.
  rewrite blen_app, total_app, Hsum. change (blen [mk_queued c r frame]) with 1.
  change (total_bytes [mk_queued c r frame]) with (blen frame + 0). pose proof (total_nonneg (items q)).
  pose proof (blen_nonneg frame). destruct (Z.ltb_spec (max_bytes q) (blen frame)); lia.
Qed.

Lemma push_wf q c r frame :
  queue_wf q -> within q (items q ++ [mk_queued c r frame]) = true -> queue_wf (push q c r frame).
Proof.
  intros [Hs Hl Hsum Hw] Hf. unfold push. split; try done.
  unfold within in Hf. cbn [q_bytes items]. unfold usize_saturating_add.
  rewrite Hsum, total_app in *. change (total_bytes [mk_queued c r frame]) with (blen frame + 0) in *. lia.
Qed.

Lemma pop_wf q item q' : queue_wf q -> pop_front_raw q = (Some item, q') -> queue_wf q' /\ items q = item :: items q'.
Proof.
  intros [Hs Hl Hsum Hw]. unfold pop_front_raw. destruct (items q) as [| f l] eqn:Ei; [done |]. intros [= -> <-].
  split; [| done]. unfold within in *. rewrite total_cons in *.
  pose proof (total_nonneg l). pose proof (blen_nonneg (qf_bytes item)). rewrite blen_cons in Hw.
  split; cbn [max_samples max_bytes items q_bytes]; try done; [unfold usize_saturating_sub; lia |].
  unfold within. cbn [max_samples max_bytes]. lia.
Qed.

Lemma note_wf q d : queue_wf q -> queue_wf (note q d).
Proof. by intros []. Qed.

(** Gap counter after [n] more drops. *)
Definition gaps (c : DispositionCounters) (n : Z) : DispositionCounters :=
  mk_counters (delivered c) (Z.min u64_max (sequence_gap c + n)) (stale_sequence c).

Lemma gaps_0 c : sequence_gap c <= u64_max -> gaps c 0 = c.
Proof. intros Hc. destruct c as [a b d]. unfold gaps. cbn in *. f_equal. lia. Qed.

Lemma gaps_step c n : 0 <= n -> gaps (record c SequenceGap) n = gaps c (n + 1).
Proof. intros Hn. unfold gaps, u64_incr. cbn. f_equal. unfold u64_incr. lia. Qed.

(** The loop drops the shortest prefix after which the frame fits. *)
Lemma evict_spec fuel q frame c :
  queue_wf q -> sequence_gap (dispositions q) <= u64_max -> blen frame <= max_bytes q ->
  (length (items q) < fuel)%nat ->
  exists n q', evict fuel q (blen frame) = Some q' /\ (n <= length (items q))%nat /\ queue_wf q' /\
    items q' = drop n (items q) /\ max_samples q' = max_samples q /\ max_bytes q' = max_bytes q /\
    dispositions q' = gaps (dispositions q) (Z.of_nat n) /\
    within q (drop n (items q) ++ [mk_queued c false frame]) = true /\
    forall k, (k < n)%nat -> within q (drop k (items q) ++ [mk_queued c false frame]) = false.
Proof.
  revert q. induction fuel as [| fuel IH]; intros q Hwf Hg Hf Hn; [lia |]. cbn [evict].
  rewrite (can_fit_spec q frame c false Hwf).
  destruct (within q (items q ++ [mk_queued c false frame])) eqn:Hw.
  - exists 0%nat, q. rewrite gaps_0 by done. split_and!; try done; [lia | intros; lia].
  - destruct (pop_front_raw q) as [[item |] q1] eqn:Ep.
    + destruct (pop_wf q item q1 Hwf Ep) as [Hwf1 Hi].
      assert (Hq1 : max_samples q1 = max_samples q /\ max_bytes q1 = max_bytes q /\ dispositions q1 = dispositions q).
      { unfold pop_front_raw in Ep. destruct (items q); [done |]. by injection Ep as _ <-. }
      destruct Hq1 as (E1 & E2 & E3).
      destruct (IH (note q1 SequenceGap)) as (n & q' & He & Hle & Hwf' & Hi' & Hm1 & Hm2 & Hd & Hfit & Hmin).
      { by apply note_wf. }
      { cbn. unfold u64_incr. lia. }
      { cbn. lia. }
      { cbn. rewrite Hi in Hn. cbn in Hn. lia. }
      exists (S n), q'. cbn [note items dispositions max_samples max_bytes] in *. rewrite Hi. cbn [drop length].
      assert (Hwq : forall l, within (note q1 SequenceGap) l = within q l) by (intros l; unfold within; cbn; by rewrite E1, E2).
      rewrite !Hwq in Hfit. split_and!; try done; try congruence; try lia.
      * rewrite Hd, gaps_step, E3 by lia. f_equal. lia.
      * intros [| k] Hk; cbn [drop]; [by rewrite <- Hi |]. rewrite <- Hwq. apply Hmin. lia.
    + unfold pop_front_raw in Ep. destruct (items q) as [| f l] eqn:Ei; [| done].
      exfalso. unfold within in Hw. cbn in Hw. destruct Hwf as [Hs Hl _ _]. change (blen [_]) with 1 in Hw. lia.
Qed.

(** ** Sequences of operations *)

(** What one connection does with its queue: [AdmitReliable] reserves before it
    pushes, [DeliverFront] pops, sends and records. *)
Inductive QueueOp :=
| AdmitBestEffort (channel_id : Z) (frame : bytes)
| AdmitReliable (channel_id : Z) (frame : bytes)
| DeliverFront.

(** The frames handed to the transport so far, and the reliable frames refused. *)
Record QueueRun := mk_qrun { qr_queue : SampleWriteQueue; qr_sent : list bytes; qr_refused : Z }.

Definition queue_step (r : QueueRun) (op : QueueOp) : outcome Empty_set QueueRun :=
  let q := qr_queue r in
  match op with
  | AdmitBestEffort c f => q' <-- admit_best_effort q c f ;; Ok (mk_qrun q' (qr_sent r) (qr_refused r))
  | AdmitReliable c f =>
      if try_reserve_reliable q (blen f) then
        q' <-- push_reliable q c f ;; Ok (mk_qrun q' (qr_sent r) (qr_refused r))
      else Ok (mk_qrun q (qr_sent r) (qr_refused r + 1))
  | DeliverFront =>
      match pop_front q with
      | (Some f, q') => Ok (mk_qrun (record_delivered q') (qr_sent r ++ [f]) (qr_refused r))
      | (None, q') => Ok (mk_qrun q' (qr_sent r) (qr_refused r))
      end
  end.

Fixpoint queue_run (r : QueueRun) (ops : list QueueOp) : outcome Empty_set QueueRun :=
  match ops with
  | [] => Ok r
  | op :: ops' => r' <-- queue_step r op ;; queue_run r' ops'
  end.

Definition submitted (ops : list QueueOp) : list bytes :=
  flat_map (fun op => match op with AdmitBestEffort _ f | AdmitReliable _ f => [f] | DeliverFront => [] end) ops.

Definition queued_bytes (q : SampleWriteQueue) : list bytes := map qf_bytes (items q).

(** The frames [from] were submitted since [r0]; nothing saturates while fewer
    than 2^64 - 1 frames are submitted. *)
Record accounted (samples limit : Z) (r : QueueRun) (from : list bytes) : Prop := {
  ac_samples : max_samples (qr_queue r) = samples;
  ac_limit : max_bytes (qr_queue r) = limit;
  ac_wf : queue_wf (qr_queue r);
  ac_order : qr_sent r ++ queued_bytes (qr_queue r) `sublist_of` from;
  ac_delivered : delivered (dispositions (qr_queue r)) = blen (qr_sent r);
  ac_gaps : 0 <= sequence_gap (dispositions (qr_queue r));
  ac_refused : 0 <= qr_refused r;
  ac_total : blen from = delivered (dispositions (qr_queue r)) + sequence_gap (dispositions (qr_queue r)) +
                         blen (items (qr_queue r)) + qr_refused r
}.

(** The effect of one best-effort admission. *)
Lemma admit_spec q c frame :
  queue_wf q -> sequence_gap (dispositions q) <= u64_max ->
  exists q', admit_best_effort q c frame = Ok q' /\ queue_wf q' /\
    max_samples q' = max_samples q /\ max_bytes q' = max_bytes q /\
    if max_bytes q <? blen frame
    then items q' = items q /\ dispositions q' = gaps (dispositions q) 1
    else exists n, (n <= length (items q))%nat /\
      items q' = drop n (items q) ++ [mk_queued c false frame] /\
      dispositions q' = gaps (dispositions q) (Z.of_nat n) /\
      within q (items q') = true /\
      forall k, (k < n)%nat -> within q (drop k (items q) ++ [mk_queued c false frame]) = false.
Proof.
  intros Hwf Hg. unfold admit_best_effort. destruct (Z.ltb_spec (max_bytes q) (blen frame)) as [Hl | Hl].
  { eexists. split; [done |]. split_and!; try done. by apply note_wf. }
  destruct (evict_spec (S (length (items q))) q frame c Hwf Hg Hl ltac:(lia))
    as (n & q1 & -> & Hle & Hwf1 & Hi & Hs & Hm & Hd & Hfit & Hmin).
  assert (Hw1 : within q1 (items q1 ++ [mk_queued c false frame]) = true).
  { unfold within in *. by rewrite Hs, Hm, Hi. }
  rewrite (can_fit_spec q1 frame c false Hwf1), Hw1. eexists. split; [done |].
  split; [by apply push_wf |]. split; [done |]. split; [done |]. exists n. cbn [push items]. rewrite Hi.
  split_and!; try done.
Qed.

Lemma sublist_drop_app {A} n (a l k from : list A) :
  a ++ l `sublist_of` from -> a ++ drop n l ++ k `sublist_of` from ++ k.
Proof.
  intros Hs. rewrite app_assoc. apply sublist_app; [| done]. etransitivity; [| exact Hs].
  apply sublist_app; [done | apply sublist_drop].
Qed.

Lemma queue_step_accounted samples limit r from op :
  accounted samples limit r from -> blen from < u64_max ->
  exists r', queue_step r op = Ok r' /\ accounted samples limit r' (from ++ submitted [op]).
Proof.
  intros [Hsm Hlm Hwf Hord Hdel Hg Hr Htot] Hb. pose proof (blen_nonneg (items (qr_queue r))) as Hlen.
  pose proof (blen_nonneg (qr_sent r)) as Hsent. destruct op as [c f | c f |]; cbn [queue_step submitted flat_map app].
  - destruct (admit_spec (qr_queue r) c f Hwf ltac:(lia)) as (q' & -> & Hwf' & Es & Em & Hcase). cbn [obind].
    eexists. split; [done |]. destruct (max_bytes (qr_queue r) <? blen f).
    + destruct Hcase as [Hi Hd]. split; cbn [qr_queue qr_sent qr_refused]; rewrite ?Hd, ?Hi; cbn; try done; try lia.
      * unfold queued_bytes. rewrite Hi. by apply sublist_inserts_r.
      * rewrite blen_app. change (blen [f]) with 1. lia.
    + destruct Hcase as (n & Hn & Hi & Hd & _). split; cbn [qr_queue qr_sent qr_refused]; rewrite ?Hd; cbn; try done; try lia.
      * unfold queued_bytes. rewrite Hi, map_app, <- skipn_map. by apply sublist_drop_app.
      * rewrite Hi, !blen_app. change (blen [f]) with 1. change (blen [_]) with 1.
        assert (blen (drop n (items (qr_queue r))) = blen (items (qr_queue r)) - Z.of_nat n /\
          Z.of_nat n <= blen (items (qr_queue r))); [| lia].
        unfold blen. rewrite length_drop. lia.
  - unfold try_reserve_reliable, push_reliable. destruct (can_fit (qr_queue r) (blen f)) eqn:Hf; cbn [orb obind].
    + eexists. split; [done |]. rewrite (can_fit_spec _ f c true Hwf) in Hf.
      split; cbn [qr_queue qr_sent qr_refused push dispositions]; try done.
      * by apply push_wf.
      * unfold queued_bytes. cbn. rewrite map_app, app_assoc. by apply sublist_app.
      * cbn [push items]. rewrite !blen_app. change (blen [f]) with 1. change (blen [_]) with 1. lia.
    + eexists. split; [done |]. split; cbn [qr_queue qr_sent qr_refused]; try done; try lia.
      * by apply sublist_inserts_r.
      * rewrite blen_app. change (blen [f]) with 1. lia.
  - rewrite app_nil_r. unfold pop_front. destruct (pop_front_raw (qr_queue r)) as [[item |] q'] eqn:Ep; cbn [option_map].
    + destruct (pop_wf _ _ _ Hwf Ep) as [Hwf' Hi].
      assert (E : max_samples q' = max_samples (qr_queue r) /\ max_bytes q' = max_bytes (qr_queue r) /\
        dispositions q' = dispositions (qr_queue r)).
      { unfold pop_front_raw in Ep. destruct (items (qr_queue r)); [done |]. by injection Ep as _ <-. }
      destruct E as (Es & Em & Hd).
      rewrite Hi, blen_cons in Htot. unfold queued_bytes in Hord. rewrite Hi in Hord.
      eexists. split; [done |]. split; cbn [qr_queue qr_sent qr_refused record_delivered]; try done.
      * cbn. congruence.
      * cbn. congruence.
      * by apply note_wf.
      * unfold queued_bytes. cbn. by rewrite <- app_assoc.
      * cbn. rewrite Hd, blen_app, Hdel. change (blen [_]) with 1. unfold u64_incr.
        pose proof (blen_nonneg (items q')). lia.
      * cbn. by rewrite Hd.
      * cbn. rewrite Hd. unfold u64_incr. pose proof (blen_nonneg (items q')). lia.
    + eexists. split; [done |]. assert (q' = qr_queue r) as ->; [| by split].
      unfold pop_front_raw in Ep. destruct (items (qr_queue r)); [by injection Ep | done].
Qed.

Lemma queue_run_accounted samples limit ops r from :
  accounted samples limit r from -> blen from + blen ops < u64_max ->
  exists r', queue_run r ops = Ok r' /\ accounted samples limit r' (from ++ submitted ops).
Proof.
  revert r from. induction ops as [| op ops IH]; intros r from Ha Hb; cbn [queue_run].
  - exists r. by rewrite app_nil_r.
  - rewrite blen_cons in Hb. pose proof (blen_nonneg ops).
    destruct (queue_step_accounted samples limit r from op Ha ltac:(lia)) as (r1 & -> & Ha1). cbn [obind].
    destruct (IH r1 _ Ha1) as (r2 & -> & Ha2).
    { rewrite blen_app. assert (blen (submitted [op]) <= 1) by (by destruct op). lia. }
    exists r2. split; [done |]. rewrite <- app_assoc in Ha2.
    by replace (submitted (op :: ops)) with (submitted [op] ++ submitted ops) by (by destruct op).
Qed.

Definition fresh_run (samples bytes_ : Z) : QueueRun := mk_qrun (queue_new samples bytes_) [] 0.

Lemma fresh_accounted samples bytes_ : bytes_ < usize_max -> accounted (Z.max samples 1) (Z.max bytes_ 1) (fresh_run samples bytes_) [].
Proof.
  intros Hb. pose proof usize_max_ge. unfold u32_max in *.
  split; cbn; try done. split; cbn [queue_new max_samples max_bytes items q_bytes]; try done; try lia.
  unfold within. cbn [queue_new max_samples max_bytes]. change (blen (@nil QueuedFrame)) with 0.
  change (total_bytes []) with 0. lia.
Qed.

(** Latest wins: admitting a best-effort frame keeps the longest suffix of
    the queue that leaves room for it in the sample and byte budgets and
    appends it; the frames before the suffix are dropped, oldest first, each
    counted as one sequence gap.  A frame larger than the whole byte budget is
    itself the gap and changes nothing else. *)
Theorem best_effort_latest_wins q c frame :
  queue_wf q -> sequence_gap (dispositions q) <= u64_max ->
  exists q', admit_best_effort q c frame = Ok q' /\ queue_wf q' /\
    if max_bytes q <? blen frame
    then items q' = items q /\ dispositions q' = gaps (dispositions q) 1
    else exists n, (n <= length (items q))%nat /\
      items q' = drop n (items q) ++ [mk_queued c false frame] /\
      dispositions q' = gaps (dispositions q) (Z.of_nat n) /\
      forall k, (k < n)%nat -> within q (drop k (items q) ++ [mk_queued c false frame]) = false.
Proof.
  intros Hwf Hg. destruct (admit_spec q c frame Hwf Hg) as (q' & E & Hwf' & _ & _ & Hcase).
  exists q'. split; [done |]. split; [done |].
  destruct (max_bytes q <? blen frame); [done |]. destruct Hcase as (n & ? & ? & ? & _ & ?). by exists n.
Qed.

(** C34: the queue over any sequence of admissions and deliveries: it never
    panics and never exceeds its budgets; what was sent and what is queued are
    submitted frames in order; and every submitted frame is delivered, counted
    as a gap, still queued, or was refused as a reliable frame before framing. *)
Theorem queue_bounded_and_accounted samples bytes_ ops :
  bytes_ < usize_max -> blen ops < u64_max ->
  exists r, queue_run (fresh_run samples bytes_) ops = Ok r /\
    let q := qr_queue r in
    blen (items q) <= Z.max samples 1 /\ total_bytes (items q) <= Z.max bytes_ 1 /\
    q_bytes q = total_bytes (items q) /\
    qr_sent r ++ queued_bytes q `sublist_of` submitted ops /\
    delivered (dispositions q) = blen (qr_sent r) /\
    blen (submitted ops) = delivered (dispositions q) + sequence_gap (dispositions q) + blen (items q) + qr_refused r.
Proof.
  intros Hb Hops.
  destruct (queue_run_accounted _ _ ops _ [] (fresh_accounted samples bytes_ Hb) Hops)
    as (r & E & [Hs Hm Hwf Hord Hdel _ _ Htot]).
  exists r. split; [done |]. cbv zeta. destruct Hwf as [_ _ Hsum Hw]. unfold within in Hw. rewrite Hs, Hm in Hw.
  split_and!; try done; lia.
Qed.

End Queue.

(** ** Concrete queues *)

(** Eviction does not look at [qf_reliable]: a best-effort frame pushes a queued
    reliable frame of another channel out, so that channel's sequence has a
    hole on the wire. *)
Example best_effort_evicts_reliable :
  obind (push_reliable (H := Wasm32) (queue_new 1 10000) 1 [9]) (fun q => admit_best_effort (H := Wasm32) q 2 [7]) =
  Ok (mk_queue 1 10000 [mk_queued 2 false [7]] 1 (mk_counters 0 1 0)).
Proof. by vm_compute. Qed.

Definition sample_queue : SampleWriteQueue :=
  mk_queue 2 10 [mk_queued 1 false [1; 1]; mk_queued 1 true [2; 2]] 4 no_dispositions.

Lemma sample_queue_wf : queue_wf (H := Wasm32) sample_queue.
Proof. split; by vm_compute. Qed.

Lemma best_effort_latest_wins_witness :
  exists q', admit_best_effort (H := Wasm32) sample_queue 3 [5; 5; 5] = Ok q' /\ queue_wf (H := Wasm32) q' /\
    if 10 <? 3
    then items q' = items sample_queue /\ dispositions q' = gaps (dispositions sample_queue) 1
    else exists n, (n <= 2)%nat /\
      items q' = drop n (items sample_queue) ++ [mk_queued 3 false [5; 5; 5]] /\
      dispositions q' = gaps (dispositions sample_queue) (Z.of_nat n) /\
      forall k, (k < n)%nat -> within sample_queue (drop k (items sample_queue) ++ [mk_queued 3 false [5; 5; 5]]) = false.
Proof.
  exact (best_effort_latest_wins (H := Wasm32) sample_queue 3 [5; 5; 5] sample_queue_wf ltac:(by vm_compute)).
Defined.

Definition sample_ops : list QueueOp :=
  [AdmitReliable 1 [1; 2]; AdmitBestEffort 2 [3]; AdmitBestEffort 2 [4]; DeliverFront; AdmitReliable 1 [5]].

Lemma queue_bounded_and_accounted_witness :
  exists r, queue_run (H := Wasm32) (fresh_run 2 100) sample_ops = Ok r /\
    let q := qr_queue r in
    blen (items q) <= Z.max 2 1 /\ total_bytes (items q) <= Z.max 100 1 /\
    q_bytes q = total_bytes (items q) /\
    qr_sent r ++ queued_bytes q `sublist_of` submitted sample_ops /\
    delivered (dispositions q) = blen (qr_sent r) /\
    blen (submitted sample_ops) =
      delivered (dispositions q) + sequence_gap (dispositions q) + blen (items q) + qr_refused r.
Proof.
  exact (queue_bounded_and_accounted (H := Wasm32) 2 100 sample_ops ltac:(by vm_compute) ltac:(by vm_compute)).
Defined.
