(* ===== verification/Policy.v ===== *)
(** * Gateway policy: support rows, QoS, access control and hello negotiation

    [rclwebd/src/config.rs] (the rows, the ceilings and the limits of
    [GatewayConfig]), [qos.rs], [acl.rs] and [negotiate_server_hello] of
    [control.rs]. *)

From S2P Require Import Prelude Utf8 ProtocolError Cbor ControlSchema Control Bootstrap Session.
#[local] Open Scope Z_scope.

(** ** Text *)

(** [char::is_whitespace]: the Unicode White_Space property. *)
Definition is_whitespace (c : Z) : bool :=
  ((0x9 <=? c) && (c <=? 0xd)) || (c =? 0x20) || (c =? 0x85) || (c =? 0xa0) || (c =? 0x1680) ||
  ((0x2000 <=? c) && (c <=? 0x200a)) || (c =? 0x2028) || (c =? 0x2029) || (c =? 0x202f) || (c =? 0x205f) ||
  (c =? 0x3000).

Fixpoint drop_whitespace (cs : list Z) : list Z :=
  match cs with
  | c :: cs' => if is_whitespace c then drop_whitespace cs' else cs
  | [] => []
  end.

(** [str::trim], on the characters. *)
Definition trim_chars (cs : list Z) : list Z := rev (drop_whitespace (rev (drop_whitespace cs))).
Definition trim (s : bytes) : bytes := utf8_encode (trim_chars (chars s)).

Definition to_ascii_lowercase (s : bytes) : bytes :=
  map (fun b => if (65 <=? b) && (b <=? 90) then b + 32 else b) s.

(** [str::starts_with] a string. *)
Fixpoint starts_with (s prefix : bytes) : bool :=
  match prefix, s with
  | [], _ => true
  | p :: prefix', b :: s' => (b =? p) && starts_with s' prefix'
  | _ :: _, [] => false
  end.

(** [str::strip_suffix] of an ASCII character. *)
Definition strip_suffix (s : bytes) (c : Z) : option bytes :=
  match rev s with
  | b :: r => if b =? c then Some (rev r) else None
  | [] => None
  end.

Definition text_eqb (a b : bytes) : bool := bool_decide (a = b).

(** ** Configuration *)

Definition MAX_CHANNELS_CEILING : Z := 65535.
Definition MAX_SESSION_BYTES_CEILING : Z := 4294967296.
Definition MAX_MESSAGE_BYTES_CEILING : Z := 67108864.
Definition MAX_CONTROL_PAYLOAD_BYTES_CEILING : Z := 1048576.

Record SupportRow := mk_row { row_id : bytes; row_ros_distro : bytes; row_rmw_identifier : bytes }.

#[export] Instance SupportRow_eq_dec : EqDecision SupportRow.
Proof. solve_decision. Defined.

Definition schema_scheme (row : SupportRow) : bytes :=
  if starts_with (row_id row) (lit "H") then lit "rclweb-schema-v1" else lit "rep2011-rihs".

Definition SUPPORT_ROW_J_FT : SupportRow := mk_row (lit "J-FT") (lit "jazzy") (lit "rmw_fastrtps_cpp").
Definition SUPPORT_ROW_H_FT : SupportRow := mk_row (lit "H-FT") (lit "humble") (lit "rmw_fastrtps_cpp").
Definition SUPPORT_ROW_J_CY : SupportRow := mk_row (lit "J-CY") (lit "jazzy") (lit "rmw_cyclonedds_cpp").
Definition SUPPORT_ROW_J_ZN : SupportRow := mk_row (lit "J-ZN") (lit "jazzy") (lit "rmw_zenoh_cpp").
Definition SUPPORT_ROW_H_CY : SupportRow := mk_row (lit "H-CY") (lit "humble") (lit "rmw_cyclonedds_cpp").
Definition SUPPORT_ROW_H_ZN : SupportRow := mk_row (lit "H-ZN") (lit "humble") (lit "rmw_zenoh_cpp").

Definition parse_support_row (id : bytes) : option SupportRow :=
  let t := trim id in
  if text_eqb t (lit "J-FT") then Some SUPPORT_ROW_J_FT
  else if text_eqb t (lit "J-CY") then Some SUPPORT_ROW_J_CY
  else if text_eqb t (lit "J-ZN") then Some SUPPORT_ROW_J_ZN
  else if text_eqb t (lit "H-FT") then Some SUPPORT_ROW_H_FT
  else if text_eqb t (lit "H-CY") then Some SUPPORT_ROW_H_CY
  else if text_eqb t (lit "H-ZN") then Some SUPPORT_ROW_H_ZN
  else None.

Definition support_rows : list SupportRow :=
  [SUPPORT_ROW_J_FT; SUPPORT_ROW_J_CY; SUPPORT_ROW_J_ZN; SUPPORT_ROW_H_FT; SUPPORT_ROW_H_CY; SUPPORT_ROW_H_ZN].

(** The two refusals of [detect_support_row]; the message is their [Display]. *)
Inductive DetectError := NoDistro (rmw : bytes) | NoRow (distro rmw : bytes).

(** [.map(str::trim).filter(|s| !s.is_empty())]. *)
Definition nonempty_trimmed (o : option bytes) : option bytes :=
  match o with
  | Some s => if blen (trim s) =? 0 then None else Some (trim s)
  | None => None
  end.

Definition detect_support_row (distro rmw : option bytes) : outcome DetectError SupportRow :=
  let rmw := match nonempty_trimmed rmw with Some r => r | None => lit "rmw_fastrtps_cpp" end in
  match nonempty_trimmed distro with
  | None =>
      if text_eqb rmw (row_rmw_identifier SUPPORT_ROW_J_FT) then Ok SUPPORT_ROW_J_FT else Err (NoDistro rmw)
  | Some distro =>
      ok_or (List.find (fun row => text_eqb (row_ros_distro row) distro && text_eqb (row_rmw_identifier row) rmw)
               support_rows) (NoRow distro rmw)
  end.

Inductive ActiveTransport := BinaryWebSocket | WebTransportHttp3.

(** ** QoS *)

Record RequestedQos := mk_requested {
  rq_reliability : Z; rq_durability : Z; rq_history_kind : Z; rq_history_depth : option Z; rq_liveliness : Z
}.
Definition default_requested : RequestedQos := mk_requested 0 0 0 None 0.

(** One entry of the map, as the loop of [from_wire] takes it. *)
Definition requested_entry (out : RequestedQos) (entry : Z * CborValue) : RequestedQos :=
  match entry.2 with
  | Unsigned n =>
      let 'mk_requested a b c d e := out in
      match entry.1 with
      | 1 => mk_requested (as_unsigned 8 n) b c d e
      | 2 => mk_requested a (as_unsigned 8 n) c d e
      | 3 => mk_requested a b (as_unsigned 8 n) d e
      | 4 => mk_requested a b c (Some (as_unsigned 32 n)) e
      | 7 => mk_requested a b c d (as_unsigned 8 n)
      | _ => out
      end
  | _ => out
  end.

Definition RequestedQos_from_wire (value : CborValue) : RequestedQos :=
  match value with
  | Map entries => foldl requested_entry default_requested entries
  | _ => default_requested
  end.

Record EffectiveQos := mk_effective {
  eq_reliable : bool; eq_transient_local : bool; eq_keep_all : bool; eq_depth : Z; eq_manual_by_topic : bool
}.

Definition resolve_effective (requested : RequestedQos) : EffectiveQos :=
  let keep_all := rq_history_kind requested =? 2 in
  {| eq_reliable := negb (rq_reliability requested =? 2);
     eq_transient_local := rq_durability requested =? 1;
     eq_keep_all := keep_all;
     eq_depth := if keep_all then 0
                 else Z.max (match rq_history_depth requested with Some d => d | None => 10 end) 1;
     eq_manual_by_topic := rq_liveliness requested =? 2 |}.

Definition EffectiveQos_to_wire (q : EffectiveQos) : CborValue :=
  Map ([(1, Unsigned (if eq_reliable q then 1 else 2)); (2, Unsigned (if eq_transient_local q then 1 else 2));
        (3, Unsigned (if eq_keep_all q then 2 else 1))] ++
       (if negb (eq_keep_all q) then [(4, Unsigned (eq_depth q))] else []) ++
       [(7, Unsigned (if eq_manual_by_topic q then 2 else 1))]).

(** ** Access control *)

Definition PERMISSION_DENIED : Z := 12.

Inductive AclMode := AclOff | AclEnforce.

Definition AclMode_parse (raw : bytes) : option AclMode :=
  let t := to_ascii_lowercase (trim raw) in
  if text_eqb t [] || text_eqb t (lit "off") then Some AclOff
  else if text_eqb t (lit "enforce") then Some AclEnforce
  else None.

Definition AclMode_is_off (m : AclMode) : bool := match m with AclOff => true | AclEnforce => false end.

Inductive AclOperation :=
| AclSubscribe | AclPublish | AclServiceClient | AclServiceServer | AclActionClient | AclActionServer.

#[export] Instance AclOperation_eq_dec : EqDecision AclOperation.
Proof. solve_decision. Defined.

Definition AclOperation_from_kind (kind : OperationKind) : AclOperation :=
  match kind with
  | TopicSubscribe => AclSubscribe | TopicPublish => AclPublish
  | ServiceClient => AclServiceClient | ServiceServer => AclServiceServer
  | ActionClient => AclActionClient | ActionServer => AclActionServer
  end.

Definition AclOperation_as_str (op : AclOperation) : bytes :=
  match op with
  | AclSubscribe => lit "subscribe" | AclPublish => lit "publish"
  | AclServiceClient => lit "service_client" | AclServiceServer => lit "service_server"
  | AclActionClient => lit "action_client" | AclActionServer => lit "action_server"
  end.

Record AclRule := mk_rule { ar_subjects : list bytes; ar_operations : list AclOperation; ar_names : list bytes }.
Record AclPolicy := mk_policy { ap_revision : option bytes; ap_rules : list AclRule }.

Definition name_matches (pattern name : bytes) : bool :=
  if text_eqb pattern (lit "*") then true
  else
    match strip_suffix pattern 42 with
    | Some prefix => starts_with name prefix
    | None => text_eqb pattern name
    end.

Definition acl_allow (p : AclPolicy) (subject : bytes) (operation : AclOperation) (name : bytes) : bool :=
  existsb (fun rule =>
    existsb (fun o => bool_decide (o = operation)) (ar_operations rule) &&
    existsb (fun s => text_eqb s (lit "*") || text_eqb s subject) (ar_subjects rule) &&
    existsb (fun pattern => name_matches pattern name) (ar_names rule)) (ap_rules p).

(** ** The part of [GatewayConfig] the protocol uses *)

Record GatewayConfig := {
  gateway_instance_id : bytes;
  support_row : SupportRow;
  gc_domain_id : Z;
  policy_revision : bytes;
  adapter_abi_version : bytes;
  gc_max_channels : Z;
  gc_max_session_bytes : Z;
  gc_max_message_bytes : Z;
  gc_max_control_payload_bytes : Z;
  sample_queue_depth : Z;
  sample_queue_max_bytes : Z;
  offer_webtransport : bool;
  acl_mode : AclMode;
  acl : option AclPolicy
}.

(** [requested.unwrap_or(hard).min(hard).min(ceiling)]. *)
Definition effective_limit (requested : option Z) (hard ceiling : Z) : Z :=
  Z.min (Z.min (match requested with Some r => r | None => hard end) hard) ceiling.

Definition negotiate_server_hello (hello : ClientHello) (config : GatewayConfig) (active : ActiveTransport)
    : outcome Z ServerHello :=
  if negb (existsb (Z.eqb 0) (wire_versions hello)) then Err 2
  else
    let http3 := webtransport_http3 (ch_transport hello) && offer_webtransport config in
    let wss := binary_wss (ch_transport hello) in
    let refused := match active with
                   | BinaryWebSocket => negb wss
                   | WebTransportHttp3 => negb http3
                   end in
    if refused then Err 25
    else
      let limits := requested_limits hello in
      Ok {| selected_wire_version := 0;
            sh_transport := {| webtransport_http3 := http3; binary_wss := wss; max_datagram_size := None |};
            sh_buffer := {| transferable_arraybuffer := transferable_arraybuffer (ch_buffer hello);
                            shared_arraybuffer := false |};
            effective_limits := {|
              el_max_channels := as_unsigned 32
                (effective_limit (rl_max_channels limits) (gc_max_channels config) MAX_CHANNELS_CEILING);
              el_max_session_bytes :=
                effective_limit (rl_max_session_bytes limits) (gc_max_session_bytes config) MAX_SESSION_BYTES_CEILING;
              el_max_message_bytes := as_unsigned 32
                (effective_limit (rl_max_message_bytes limits) (gc_max_message_bytes config) MAX_MESSAGE_BYTES_CEILING);
              el_max_control_payload_bytes := as_unsigned 32
                (effective_limit (rl_max_control_payload_bytes limits) (gc_max_control_payload_bytes config)
                   MAX_CONTROL_PAYLOAD_BYTES_CEILING) |};
            sh_extensions := [] |}.

(** ** What the access policy means *)

(** A name pattern: a prefix followed by [*], or the name itself. *)
Definition pattern_covers (pattern name : bytes) : Prop :=
  (exists prefix, pattern = prefix ++ lit "*" /\ prefix `prefix_of` name) \/
  (pattern = name /\ ~ exists prefix, pattern = prefix ++ lit "*").

Definition rule_admits (subject : bytes) (operation : AclOperation) (name : bytes) (rule : AclRule) : Prop :=
  operation ∈ ar_operations rule /\ (lit "*" ∈ ar_subjects rule \/ subject ∈ ar_subjects rule) /\
  exists pattern, pattern ∈ ar_names rule /\ pattern_covers pattern name.

Lemma text_eqb_spec a b : text_eqb a b = true <-> a = b.
Proof. apply bool_decide_eq_true. Qed.

Lemma starts_with_spec s p : starts_with s p = true <-> p `prefix_of` s.
Proof.
  revert s. induction p as [| x p IH]; intros s; [split; [intros _; apply prefix_nil | by destruct s] |].
  destruct s as [| y s]; cbn.
  - split; [done |]. intros Hp. by apply prefix_nil_not in Hp.
  - rewrite andb_true_iff, Z.eqb_eq, IH. split.
    + intros [-> Hp]. by apply prefix_cons.
    + intros Hp. split; [by apply prefix_cons_inv_1 in Hp | by apply prefix_cons_inv_2 in Hp].
Qed.

Lemma strip_suffix_spec s c :
  match strip_suffix s c with
  | Some p => s = p ++ [c]
  | None => ~ exists p, s = p ++ [c]
  end.
Proof.
  unfold strip_suffix. destruct s as [| x s _] using rev_ind; cbn.
  - intros (p & Hp). by destruct p.
  - rewrite rev_app_distr. cbn. destruct (Z.eqb_spec x c) as [-> | Hx]; [by rewrite rev_involutive |].
    intros (p & Hp). apply app_inj_tail in Hp as [_ ?]. done.
Qed.

Lemma name_matches_spec pattern name : name_matches pattern name = true <-> pattern_covers pattern name.
Proof.
  unfold name_matches, pattern_covers. pose proof (strip_suffix_spec pattern 42) as Hs.
  change [42] with (lit "*") in Hs.
  destruct (text_eqb pattern (lit "*")) eqn:E.
  - apply text_eqb_spec in E as ->. split; [intros _ | done]. left. exists []. split; [done | apply prefix_nil].
  - destruct (strip_suffix pattern 42) as [p |].
    + rewrite starts_with_spec. split; [intros Hp; left; by exists p |].
      intros [(q & Hq & Hp) | [_ Hn]]; [| exfalso; apply Hn; by exists p].
      rewrite Hs in Hq. by apply app_inj_tail in Hq as [-> _].
    + rewrite text_eqb_spec. split; [by right |]. intros [(q & Hq & _) | [? _]]; [exfalso; apply Hs; by exists q | done].
Qed.

Lemma existsb_elem {A} (f : A -> bool) l : existsb f l = true <-> exists x, x ∈ l /\ f x = true.
Proof.
  rewrite existsb_exists. by setoid_rewrite list_elem_of_In.
Qed.

(** C35: access control is default-deny: a channel is admitted exactly when some
    rule lists its operation, lists the subject (or [*]) and has a name pattern
    that covers the ROS name; a [*] ends a pattern as a prefix glob, and has no
    meaning elsewhere in it. *)
Theorem acl_default_deny p subject operation name :
  acl_allow p subject operation name = true <-> exists rule, rule ∈ ap_rules p /\ rule_admits subject operation name rule.
Proof.
  unfold acl_allow, rule_admits. rewrite existsb_elem. f_equiv; intros rule. apply Morphisms_Prop.and_iff_morphism; [done |].
  rewrite !andb_true_iff, !existsb_elem. setoid_rewrite name_matches_spec.
  setoid_rewrite orb_true_iff. setoid_rewrite text_eqb_spec. setoid_rewrite bool_decide_eq_true.
  split; [intros [[(o & Ho & ->) (s & Hs & Heq)] Hn] | intros (Ho & Hs & Hn)]; repeat split; eauto.
  - destruct Heq as [-> | ->]; [by left | by right].
  - destruct Hs as [Hs | Hs]; eauto.
Qed.

(** ** What the hello negotiation promises *)

Definition config_limits_ok (c : GatewayConfig) : Prop :=
  in_range 0 u32_max (gc_max_channels c) /\ in_range 0 u64_max (gc_max_session_bytes c) /\
  in_range 0 u32_max (gc_max_message_bytes c) /\ in_range 0 u32_max (gc_max_control_payload_bytes c).

(** The carrier in use is one of the negotiated ones. *)
Definition carries (active : ActiveTransport) (t : TransportCapabilities) : bool :=
  match active with BinaryWebSocket => binary_wss t | WebTransportHttp3 => webtransport_http3 t end.

(** The carriers both peers offer. *)
Definition common_transport (hello : ClientHello) (config : GatewayConfig) : TransportCapabilities :=
  {| webtransport_http3 := webtransport_http3 (ch_transport hello) && offer_webtransport config;
     binary_wss := binary_wss (ch_transport hello); max_datagram_size := None |}.

(** The largest limit that neither peer nor the protocol exceeds. *)
Definition agreed_limit (requested : option Z) (hard ceiling n : Z) : Prop :=
  n <= hard /\ n <= ceiling /\ (forall r, requested = Some r -> n <= r) /\
  (n = hard \/ n = ceiling \/ requested = Some n).

Lemma effective_limit_agreed requested hard ceiling :
  agreed_limit requested hard ceiling (effective_limit requested hard ceiling).
Proof.
  unfold agreed_limit, effective_limit. destruct requested as [r |].
  - split_and!; try lia; [by intros ? [= <-]; lia |].
    destruct (Z.min_spec (Z.min r hard) ceiling) as [[? ->] | [? ->]]; [| tauto].
    destruct (Z.min_spec r hard) as [[? ->] | [? ->]]; tauto.
  - split_and!; try lia. done.
Qed.

Lemma effective_limit_range requested hard ceiling hi :
  opt_in_range 0 hi requested -> 0 <= hard -> 0 <= ceiling -> in_range 0 ceiling (effective_limit requested hard ceiling).
Proof. unfold in_range, effective_limit. destruct requested as [r |]; cbn; unfold in_range; lia. Qed.

Lemma as_unsigned_id w n : 0 <= n < 2 ^ w -> as_unsigned w n = n.
Proof. unfold as_unsigned. apply Z.mod_small. Qed.

Lemma resolve_depth requested : match rq_history_depth requested with Some d => 0 <= d <= u32_max | None => True end ->
  eq_keep_all (resolve_effective requested) = false -> 1 <= eq_depth (resolve_effective requested) <= u32_max.
Proof.
  unfold resolve_effective. cbn. intros Hd ->. destruct (rq_history_depth requested); unfold u32_max in *; lia.
Qed.

(** The depth a wire QoS asks for is a [u32]. *)
Lemma from_wire_depth v :
  match rq_history_depth (RequestedQos_from_wire v) with Some d => 0 <= d <= u32_max | None => True end.
Proof.
  destruct v; try done. cbn [RequestedQos_from_wire].
  assert (H0 : match rq_history_depth default_requested with Some d => 0 <= d <= u32_max | None => True end) by done.
  revert H0. generalize default_requested. induction entries as [| [k v] entries IH]; intros out Ho; [done |].
  cbn [foldl]. apply IH. unfold requested_entry. cbn [fst snd]. destruct v as [| | n | | | | |]; try done.
  destruct out as [a b c d e]. pose proof (as_unsigned_range 32 n ltac:(lia)) as Hr.
  unfold is_unsigned, u32_max in *. cbn in Ho |- *.
  destruct k as [| p | p]; [done | | done]. do 3 (try (destruct p as [p | p |]; try done)). cbn. lia.
Qed.

(** The negotiation, case by case. *)
Lemma negotiate_spec hello config active :
  client_ok hello -> config_limits_ok config ->
  match negotiate_server_hello hello config active with
  | Ok sh =>
      0 ∈ wire_versions hello /\ carries active (sh_transport sh) = true /\
      sh_transport sh = common_transport hello config /\ server_ok sh /\
      (let l := requested_limits hello in let e := effective_limits sh in
       agreed_limit (rl_max_channels l) (gc_max_channels config) MAX_CHANNELS_CEILING (el_max_channels e) /\
       agreed_limit (rl_max_session_bytes l) (gc_max_session_bytes config) MAX_SESSION_BYTES_CEILING (el_max_session_bytes e) /\
       agreed_limit (rl_max_message_bytes l) (gc_max_message_bytes config) MAX_MESSAGE_BYTES_CEILING (el_max_message_bytes e) /\
       agreed_limit (rl_max_control_payload_bytes l) (gc_max_control_payload_bytes config)
         MAX_CONTROL_PAYLOAD_BYTES_CEILING (el_max_control_payload_bytes e)) /\
      shared_arraybuffer (sh_buffer sh) = false /\ sh_extensions sh = []
  | Err 2 => 0 ∉ wire_versions hello
  | Err 25 => 0 ∈ wire_versions hello /\ carries active (common_transport hello config) = false
  | _ => False
  end.
Proof.
  intros (_ & _ & (H1 & H2 & H3 & H4) & _) ([? ?] & [? ?] & [? ?] & [? ?]).
  unfold negotiate_server_hello.
  destruct (existsb (Z.eqb 0) (wire_versions hello)) eqn:Ev; cbn [negb].
  2: { intros Hin. rewrite <- not_true_iff_false, existsb_elem in Ev. apply Ev. by exists 0. }
  apply existsb_elem in Ev as (v & Hv & Heq). apply Z.eqb_eq in Heq as <-.
  assert (Hr : forall b, (match active with
                   | BinaryWebSocket => negb (binary_wss (ch_transport hello))
                   | WebTransportHttp3 => negb (webtransport_http3 (ch_transport hello) && offer_webtransport config)
                   end = b) -> carries active (common_transport hello config) = negb b).
  { intros b <-. destruct active; cbn; by rewrite negb_involutive. }
  cbv zeta. destruct (match active with BinaryWebSocket => _ | WebTransportHttp3 => _ end) eqn:Er.
  { split; [done |]. by rewrite (Hr _ eq_refl). }
  pose proof (effective_limit_range _ (gc_max_channels config) MAX_CHANNELS_CEILING _ H1 ltac:(done) ltac:(done)) as R1.
  pose proof (effective_limit_range _ (gc_max_session_bytes config) MAX_SESSION_BYTES_CEILING _ H2 ltac:(done) ltac:(done)) as R2.
  pose proof (effective_limit_range _ (gc_max_message_bytes config) MAX_MESSAGE_BYTES_CEILING _ H3 ltac:(done) ltac:(done)) as R3.
  pose proof (effective_limit_range _ (gc_max_control_payload_bytes config) MAX_CONTROL_PAYLOAD_BYTES_CEILING _ H4 ltac:(done) ltac:(done)) as R4.
  unfold in_range, MAX_CHANNELS_CEILING, MAX_SESSION_BYTES_CEILING, MAX_MESSAGE_BYTES_CEILING, MAX_CONTROL_PAYLOAD_BYTES_CEILING in *.
  cbn [sh_transport effective_limits el_max_channels el_max_session_bytes el_max_message_bytes el_max_control_payload_bytes sh_buffer shared_arraybuffer sh_extensions].
  rewrite !as_unsigned_id by lia.
  unfold server_ok. split_and!; try done; try apply effective_limit_agreed.
  - change (carries active (common_transport hello config) = true). by rewrite (Hr _ eq_refl).
  - unfold capabilities_ok. split_and!; try done; constructor.
Qed.

Lemma negotiated_server_ok hello config active sh :
  client_ok hello -> config_limits_ok config -> negotiate_server_hello hello config active = Ok sh -> server_ok sh.
Proof. intros Hc Hl E. pose proof (negotiate_spec hello config active Hc Hl) as H. rewrite E in H. apply H. Qed.

(** Hello negotiation never panics.  It refuses with code 2 exactly when the
    client does not offer version 0 and with code 25 exactly when the carrier
    in use is not offered by both peers; otherwise the ServerHello is
    well-formed, names exactly the common carriers, and every limit is the
    largest one within the request, the configuration and the ceiling. *)
Theorem negotiation_sound hello config active :
  client_ok hello -> config_limits_ok config ->
  match negotiate_server_hello hello config active with
  | Ok sh =>
      0 ∈ wire_versions hello /\ carries active (sh_transport sh) = true /\
      sh_transport sh = common_transport hello config /\ server_ok sh /\
      (let l := requested_limits hello in let e := effective_limits sh in
       agreed_limit (rl_max_channels l) (gc_max_channels config) MAX_CHANNELS_CEILING (el_max_channels e) /\
       agreed_limit (rl_max_session_bytes l) (gc_max_session_bytes config) MAX_SESSION_BYTES_CEILING (el_max_session_bytes e) /\
       agreed_limit (rl_max_message_bytes l) (gc_max_message_bytes config) MAX_MESSAGE_BYTES_CEILING (el_max_message_bytes e) /\
       agreed_limit (rl_max_control_payload_bytes l) (gc_max_control_payload_bytes config)
         MAX_CONTROL_PAYLOAD_BYTES_CEILING (el_max_control_payload_bytes e)) /\
      shared_arraybuffer (sh_buffer sh) = false /\ sh_extensions sh = []
  | Err 2 => 0 ∉ wire_versions hello
  | Err 25 => 0 ∈ wire_versions hello /\ carries active (common_transport hello config) = false
  | _ => False
  end.
Proof. apply negotiate_spec. Qed.

(** ** A concrete gateway *)

Definition sample_policy : AclPolicy :=
  mk_policy (Some (lit "matrix-test-1"))
    [mk_rule [lit "*"] [AclSubscribe] [lit "/chatter"; lit "/tf*"];
     mk_rule [lit "alice"] [AclPublish; AclServiceClient] [lit "/cmd_vel"; lit "/add_two_ints"]].

Definition default_config : GatewayConfig := {|
  gateway_instance_id := lit "rclwebd-0"; support_row := SUPPORT_ROW_J_FT; gc_domain_id := 0;
  policy_revision := lit "r1-dev"; adapter_abi_version := lit "serialized-adapter-v1";
  gc_max_channels := MAX_CHANNELS_CEILING; gc_max_session_bytes := MAX_SESSION_BYTES_CEILING;
  gc_max_message_bytes := MAX_MESSAGE_BYTES_CEILING;
  gc_max_control_payload_bytes := MAX_CONTROL_PAYLOAD_BYTES_CEILING;
  sample_queue_depth := 256; sample_queue_max_bytes := 4194304;
  offer_webtransport := false; acl_mode := AclOff; acl := None
|}.

Example acl_examples :
  acl_allow sample_policy (lit "bob") AclSubscribe (lit "/tf_static") = true /\
  acl_allow sample_policy (lit "bob") AclPublish (lit "/cmd_vel") = false /\
  acl_allow sample_policy (lit "alice") AclActionClient (lit "/fibonacci") = false.
Proof. by vm_compute. Qed.

Example detect_examples :
  detect_support_row (Some (lit "  humble ")) (Some (lit " rmw_cyclonedds_cpp ")) = Ok SUPPORT_ROW_H_CY /\
  detect_support_row None (Some (lit "rmw_connextdds")) = Err (NoDistro (lit "rmw_connextdds")).
Proof. by vm_compute. Qed.

Definition sample_hello : ClientHello := {|
  wire_versions := [0]; ch_transport := sample_transport; ch_buffer := sample_buffer;
  requested_limits := {| rl_max_channels := Some 64; rl_max_session_bytes := None;
    rl_max_message_bytes := Some 1048576; rl_max_control_payload_bytes := None |};
  ch_extensions := [1; 7]
|}.

Lemma acl_default_deny_witness :
  acl_allow sample_policy (lit "bob") AclSubscribe (lit "/tf_static") = true /\
  exists rule, rule ∈ ap_rules sample_policy /\ rule_admits (lit "bob") AclSubscribe (lit "/tf_static") rule.
Proof.
  assert (Ha : acl_allow sample_policy (lit "bob") AclSubscribe (lit "/tf_static") = true) by (by vm_compute).
  split; [exact Ha |]. exact (proj1 (acl_default_deny sample_policy (lit "bob") AclSubscribe (lit "/tf_static")) Ha).
Defined.

Lemma negotiation_sound_witness :
  negotiate_server_hello sample_hello default_config WebTransportHttp3 = Err 25 /\
  (0 ∈ wire_versions sample_hello /\ carries WebTransportHttp3 (common_transport sample_hello default_config) = false).
Proof.
  assert (Hc : config_limits_ok default_config).
  { unfold config_limits_ok, in_range, u32_max, u64_max. cbn. unfold MAX_CHANNELS_CEILING, MAX_SESSION_BYTES_CEILING,
      MAX_MESSAGE_BYTES_CEILING, MAX_CONTROL_PAYLOAD_BYTES_CEILING. lia. }
  split; [by vm_compute |]. exact (negotiation_sound sample_hello default_config WebTransportHttp3 sample_client_ok Hc).
Defined.
