(* ===== verification/AuditLog.v ===== *)
(** * The audit sink of the gateway

    [rclwebd/src/audit.rs]: the hash chain of audit records, the live file and its
    rotations, verification and export.  JSON is [serde_json] and the hash is the
    [sha2] crate: both are parameters.  The file system is a map from the file
    names next to the live file; what an operation on it may fail is an input. *)

From stdpp Require Import gmap.
From S2P Require Import Prelude Utf8.
From S2P Require Policy.
Import Policy(trim, to_ascii_lowercase).
#[local] Open Scope Z_scope.

Definition GENESIS_PREV : bytes := replicate 64 48.
Definition DEFAULT_MAX_BYTES : Z := 8 * 1024 * 1024.
Definition DEFAULT_RETAIN : Z := 3.

Inductive AuditMode := Stderr | File.
Inductive OnCorrupt := OnFail | OnRotate.
Inductive AuditIntegrity := NotApplicable | IntegrityOk | IntegrityError.

Definition AuditMode_parse (raw : bytes) : option AuditMode :=
  let raw := to_ascii_lowercase (trim raw) in
  if bool_decide (raw = []) || bool_decide (raw = lit "stderr") then Some Stderr
  else if bool_decide (raw = lit "file") then Some File else None.
Definition OnCorrupt_parse (raw : bytes) : option OnCorrupt :=
  let raw := to_ascii_lowercase (trim raw) in
  if bool_decide (raw = []) || bool_decide (raw = lit "fail") then Some OnFail
  else if bool_decide (raw = lit "rotate") then Some OnRotate else None.

Definition AuditMode_as_str (m : AuditMode) : bytes := match m with Stderr => lit "stderr" | File => lit "file" end.
Definition OnCorrupt_as_str (c : OnCorrupt) : bytes := match c with OnFail => lit "fail" | OnRotate => lit "rotate" end.
Definition AuditIntegrity_as_str (i : AuditIntegrity) : bytes :=
  match i with NotApplicable => lit "n/a" | IntegrityOk => lit "ok" | IntegrityError => lit "error" end.

(** ** The libraries *)

(** [serde_json]: values, their accessors, and the compact form of an object. *)
Class Json := {
  Value : Type;
  json_u64 : Z -> Value;
  json_str : bytes -> Value;
  as_u64 : Value -> option Z;
  as_str : Value -> option bytes;
  as_object : Value -> option (gmap bytes Value);
  to_vec : gmap bytes Value -> bytes;
  from_str : bytes -> option Value
}.

(** The SHA-256 digest. *)
Class Sha256 := sha256 : bytes -> bytes.

Definition hex_digit (n : Z) : Z := if n <? 10 then 48 + n else 87 + n.
Definition hex_encode (bs : bytes) : bytes := concat (map (fun b => [hex_digit (Z.shiftr b 4); hex_digit (Z.land b 15)]) bs).
Definition is_hex_digit (b : Z) : bool := ((48 <=? b) && (b <=? 57)) || ((97 <=? b) && (b <=? 102)).
Definition is_sha256_hex (v : bytes) : bool := (blen v =? 64) && forallb is_hex_digit v.

Record Chain := mk_chain { ch_seq : Z; ch_prev_hex : bytes }.
Definition chain_start : Chain := mk_chain 0 GENESIS_PREV.

(** [<live>], [<live>.n], [<live>.corrupt.secs] and any other file. *)
Inductive FilePath := Live | Rotated (n : Z) | Aside (secs : Z) | Elsewhere (name : bytes).
#[export] Instance FilePath_eq_dec : EqDecision FilePath.
Proof. solve_decision. Defined.
#[export] Instance FilePath_countable : Countable FilePath.
Proof.
  apply (inj_countable'
    (fun p => match p with Live => inl (inl tt) | Rotated n => inl (inr n) | Aside n => inr (inl n) | Elsewhere b => inr (inr b) end)
    (fun s => match s with inl (inl _) => Live | inl (inr n) => Rotated n | inr (inl n) => Aside n | inr (inr b) => Elsewhere b end)).
  by intros [].
Defined.
Abbreviation Fs := (gmap FilePath bytes).

Section Audit.
Context `{Json} `{Sha256}.

Definition hash_record (prev_hex canonical : bytes) : bytes := sha256 (prev_hex ++ [10] ++ canonical).

(** *** Records *)

Definition reserved (key : bytes) : bool :=
  bool_decide (key = lit "seq") || bool_decide (key = lit "ts") || bool_decide (key = lit "prev_sha256") ||
  bool_decide (key = lit "sha256").

(** The envelope of an event: its own keys never replace the reserved ones. *)
Definition envelope (seq ts : Z) (prev_hex : bytes) (event : Value) : gmap bytes Value :=
  let base := <[lit "prev_sha256" := json_str prev_hex]> (<[lit "ts" := json_u64 ts]> {[lit "seq" := json_u64 seq]}) in
  match as_object event with
  | Some obj => base ∪ filter (fun p => reserved p.1 = false) obj
  | None => <[lit "value" := event]> (<[lit "event" := json_str (lit "opaque")]> base)
  end.

(** [chain.seq += 1] on a [u64]. *)
Definition next_line (now_millis : Z) (event : Value) (chain : Chain) : bytes * Chain :=
  let seq := as_unsigned 64 (ch_seq chain + 1) in
  let m := envelope seq now_millis (ch_prev_hex chain) event in
  let digest := hex_encode (hash_record (ch_prev_hex chain) (to_vec m)) in
  (to_vec (<[lit "sha256" := json_str digest]> m), mk_chain seq digest).

Definition rewind_chain (failed_line : bytes) (chain : Chain) : Chain :=
  match from_str failed_line with
  | None => chain
  | Some v =>
      match as_object v with
      | None => chain
      | Some obj =>
          let prev := match obj !! lit "prev_sha256" ≫= as_str with Some prev => prev | None => ch_prev_hex chain end in
          mk_chain (if 0 <? ch_seq chain then ch_seq chain - 1 else ch_seq chain) prev
      end
  end.

(** *** Verification *)

(** Reasons only; the messages name the file and the line too. *)
Definition verify_line (line : bytes) : outcome string (Z * bytes * bytes) :=
  v <-- ok_or (from_str line) "not JSON"%string ;;
  obj <-- ok_or (as_object v) "audit line is not an object"%string ;;
  claimed <-- ok_or (obj !! lit "sha256" ≫= as_str) "missing sha256"%string ;;
  prev <-- ok_or (obj !! lit "prev_sha256" ≫= as_str) "missing prev_sha256"%string ;;
  if negb (is_sha256_hex prev) || negb (is_sha256_hex claimed) then Err "sha256 fields must be 64 lowercase hex digits"%string
  else
    seq <-- ok_or (obj !! lit "seq" ≫= as_u64) "missing seq"%string ;;
    let digest := hex_encode (hash_record prev (to_vec (delete (lit "sha256") obj))) in
    if negb (bool_decide (digest = claimed)) then Err "sha256 mismatch"%string else Ok (seq, prev, digest).

(** [BufRead::lines]: pieces between line feeds, a final one only when it is not
    empty, without a carriage return at the end. *)
Definition strip_cr (line : bytes) : bytes :=
  match rev line with 13 :: l => rev l | _ => line end.
Fixpoint pieces (content cur : bytes) : list bytes :=
  match content with
  | [] => match cur with [] => [] | _ => [strip_cr cur] end
  | b :: content' => if b =? 10 then strip_cr cur :: pieces content' [] else pieces content' (cur ++ [b])
  end.
Definition file_lines (content : bytes) : list bytes := pieces content [].

Record VerifiedFile := mk_verified {
  vf_records : Z; vf_last_seq : Z; vf_last_sha256 : bytes; vf_first_prev_sha256 : bytes
}.

(** The loop of [verify_file]: [expected] is the digest before the line. *)
Fixpoint verify_lines (lines : list bytes) (expected : option bytes) (acc : option VerifiedFile)
    : outcome string (option VerifiedFile) :=
  match lines with
  | [] => Ok acc
  | line :: lines' =>
      if negb (utf8_valid line) then Err "stream did not contain valid UTF-8"%string
      else if bool_decide (line = []) then Err "empty line"%string
      else
        r <-- verify_line line ;;
        if match expected with Some e => negb (bool_decide (r.1.2 = e)) | None => false end
        then Err "prev_sha256 does not match previous sha256"%string
        else
          let first := match acc with Some v => vf_first_prev_sha256 v | None => r.1.2 end in
          let records := match acc with Some v => vf_records v | None => 0 end in
          verify_lines lines' (Some r.2) (Some (mk_verified (records + 1) r.1.1 r.2 first))
  end.

Definition verify_content (content : bytes) : outcome string VerifiedFile :=
  r <-- verify_lines (file_lines content) None None ;; ok_or r "empty audit file"%string.
Definition verify_file (fs : Fs) (path : FilePath) : outcome string VerifiedFile :=
  match fs !! path with None => Err "read"%string | Some content => verify_content content end.

(** *** Files *)

Record FileState := mk_file_state { fst_open : bool; fst_bytes : Z; fst_chain : Chain }.

(** What goes wrong during one event: which removal, renames and opening fail,
    and how much of a line is written when its write fails. *)
Record IoFaults := mk_faults {
  io_remove_fails : bool;
  io_rename_fails : Z -> bool;
  io_open_fails : bool;
  io_write_fails : option nat
}.
Definition no_faults : IoFaults := mk_faults false (fun _ => false) false None.

(** [fs::rename]: the source must exist; the target is replaced. *)
Definition rename (fails : bool) (from to : FilePath) (fs : Fs) : outcome string Fs :=
  if fails then Err "rename"%string
  else match fs !! from with None => Err "rename"%string | Some c => Ok (<[to := c]> (delete from fs)) end.

(** Opened for appending, created when it is not there. *)
Definition open_live (fails : bool) (chain : Chain) (fs : Fs) : outcome string (FileState * Fs) :=
  if fails then Err "open"%string
  else let content := default [] (fs !! Live) in
       Ok (mk_file_state true (blen content) chain, <[Live := content]> fs).

(** [for index in (1..retain).rev()]: [index] counts down; the map is what the
    loop leaves behind. *)
Fixpoint shift_up (io : IoFaults) (index : nat) (fs : Fs) : outcome string unit * Fs :=
  match index with
  | O => (Ok tt, fs)
  | S index' =>
      let n := Z.of_nat index in
      match fs !! Rotated n with
      | None => shift_up io index' fs
      | Some _ =>
          match rename (io_rename_fails io n) (Rotated n) (Rotated (n + 1)) fs with
          | Ok fs' => shift_up io index' fs'
          | Err e => (Err e, fs)
          | Panic => (Panic, fs)
          end
      end
  end.

(** [rotate_live]: the handle is closed first, whatever happens after. *)
Definition rotate_live (io : IoFaults) (retain : Z) (st : FileState) (fs : Fs) : outcome string unit * FileState * Fs :=
  let closed := mk_file_state false (fst_bytes st) (fst_chain st) in
  if io_remove_fails io && bool_decide (is_Some (fs !! Rotated retain)) then (Err "remove"%string, closed, fs)
  else
    match shift_up io (Z.to_nat (retain - 1)) (delete (Rotated retain) fs) with
    | (Ok _, fs1) =>
        match rename (io_rename_fails io 0) Live (Rotated 1) fs1 with
        | Ok fs2 =>
            match open_live (io_open_fails io) (fst_chain st) fs2 with
            | Ok (st', fs3) => (Ok tt, st', fs3)
            | Err e => (Err e, closed, fs2)
            | Panic => (Panic, closed, fs2)
            end
        | Err e => (Err e, closed, fs1)
        | Panic => (Panic, closed, fs1)
        end
    | (Err e, fs1) => (Err e, closed, fs1)
    | (Panic, fs1) => (Panic, closed, fs1)
    end.

Definition append_line (io : IoFaults) (line : bytes) (st : FileState) (fs : Fs) : outcome string unit * FileState * Fs :=
  if negb (fst_open st) then (Err "audit file is closed"%string, st, fs)
  else
    let content := default [] (fs !! Live) in
    match io_write_fails io with
    | Some k => (Err "write audit"%string, st, <[Live := content ++ take k (line ++ [10])]> fs)
    | None =>
        (Ok tt, mk_file_state true (fst_bytes st + blen line + 1) (fst_chain st), <[Live := content ++ line ++ [10]]> fs)
    end.

(** *** The sink *)

Record Sink := mk_sink {
  sk_mode : AuditMode;
  sk_max_bytes : Z;
  sk_retain : Z;
  sk_on_corrupt : OnCorrupt;
  sk_file : option FileState;
  sk_stderr_chain : Chain;
  sk_events : Z;
  sk_write_errors : Z;
  sk_integrity : AuditIntegrity;
  sk_fs : Fs;
  sk_printed : list bytes
}.

Definition stderr_sink (fs : Fs) : Sink :=
  mk_sink Stderr DEFAULT_MAX_BYTES DEFAULT_RETAIN OnFail None chain_start 0 0 NotApplicable fs [].

(** [fetch_add] on an [AtomicU64] wraps. *)
Definition count_u64 (n : Z) : Z := as_unsigned 64 (n + 1).
Definition write_error (s : Sink) : Sink :=
  mk_sink (sk_mode s) (sk_max_bytes s) (sk_retain s) (sk_on_corrupt s) (sk_file s) (sk_stderr_chain s) (sk_events s)
    (count_u64 (sk_write_errors s)) IntegrityError (sk_fs s) (sk_printed s).
Definition set_file (f : FileState) (fs : Fs) (s : Sink) : Sink :=
  mk_sink (sk_mode s) (sk_max_bytes s) (sk_retain s) (sk_on_corrupt s) (Some f) (sk_stderr_chain s) (sk_events s)
    (sk_write_errors s) (sk_integrity s) fs (sk_printed s).
Definition set_stderr_chain (c : Chain) (s : Sink) : Sink :=
  mk_sink (sk_mode s) (sk_max_bytes s) (sk_retain s) (sk_on_corrupt s) (sk_file s) c (sk_events s) (sk_write_errors s)
    (sk_integrity s) (sk_fs s) (sk_printed s).
Definition print_line (line : bytes) (s : Sink) : Sink :=
  mk_sink (sk_mode s) (sk_max_bytes s) (sk_retain s) (sk_on_corrupt s) (sk_file s) (sk_stderr_chain s) (sk_events s)
    (sk_write_errors s) (sk_integrity s) (sk_fs s) (sk_printed s ++ [line]).
Definition count_event (s : Sink) : Sink :=
  mk_sink (sk_mode s) (sk_max_bytes s) (sk_retain s) (sk_on_corrupt s) (sk_file s) (sk_stderr_chain s)
    (count_u64 (sk_events s)) (sk_write_errors s) (sk_integrity s) (sk_fs s) (sk_printed s).

Definition is_err {A} (r : outcome string A) : bool := match r with Err _ => true | _ => false end.

(** The file part of an event: rotation when the file is full, then the line. *)
Definition emit_file (io : IoFaults) (now_millis : Z) (event : Value) (st : FileState) (s : Sink) : bytes * Sink :=
  let '(r, st1, s1) :=
    if sk_max_bytes s <=? fst_bytes st then
      let '(r, st1, fs1) := rotate_live io (sk_retain s) st (sk_fs s) in (r, st1, set_file st1 fs1 s)
    else (Ok tt, st, s) in
  let s1 := if is_err r then write_error s1 else s1 in
  let '(line, chain) := next_line now_millis event (fst_chain st1) in
  let '(r2, st2, fs2) := append_line io line (mk_file_state (fst_open st1) (fst_bytes st1) chain) (sk_fs s1) in
  if is_err r2
  then (line, set_file (mk_file_state (fst_open st2) (fst_bytes st2) (rewind_chain line chain)) fs2 (write_error s1))
  else (line, set_file st2 fs2 s1).

Definition emit (io : IoFaults) (now_millis : Z) (event : Value) (s : Sink) : Sink :=
  match sk_mode s with
  | Stderr =>
      let '(line, chain) := next_line now_millis event (sk_stderr_chain s) in
      count_event (print_line line (set_stderr_chain chain s))
  | File =>
      match sk_file s with
      | None =>
          let '(line, chain) := next_line now_millis event (sk_stderr_chain s) in
          print_line line (set_stderr_chain chain (write_error s))
      | Some st => let '(line, s') := emit_file io now_millis event st s in count_event (print_line line s')
      end
  end.

(** [AuditSink::file] over a file system that does not fail; [rotate_event] is the
    event of a corrupt file moved aside at [now_secs]. *)
Definition open_sink (rotate_event : Value) (now_secs now_millis max_bytes retain : Z) (on_corrupt : OnCorrupt) (fs : Fs)
    : outcome string Sink :=
  if max_bytes =? 0 then Err "RCLWEBD_AUDIT_MAX_BYTES must be at least 1"%string
  else if negb ((1 <=? retain) && (retain <=? 64)) then Err "RCLWEBD_AUDIT_RETAIN must be an integer from 1 to 64"%string
  else
    opened <--
      match fs !! Live with
      | None | Some [] => Ok (chain_start, fs, false)
      | Some content =>
          match verify_content content with
          | Ok v => Ok (mk_chain (vf_last_seq v) (vf_last_sha256 v), fs, false)
          | Err e =>
              match on_corrupt with
              | OnFail => Err "failed integrity"%string
              | OnRotate => fs' <-- rename false Live (Aside now_secs) fs ;; Ok (chain_start, fs', true)
              end
          | Panic => Panic
          end
      end ;;
    live <-- open_live false opened.1.1 opened.1.2 ;;
    let sink := mk_sink File max_bytes retain on_corrupt (Some live.1) chain_start 0 0 IntegrityOk live.2 [] in
    Ok (if opened.2 then emit no_faults now_millis rotate_event sink else sink).

(** *** Export *)

(** The first missing rotation, looking at no more than 128 of them. *)
Fixpoint rotation_end (fs : Fs) (fuel : nat) (n : Z) : Z :=
  match fuel with
  | O => n
  | S fuel' =>
      match fs !! Rotated n with
      | None => n
      | Some _ => let n := n + 1 in if 128 <? n then n else rotation_end fs fuel' n
      end
  end.

(** [(1..n).rev()], then the live file. *)
Definition rotation_stack (fs : Fs) : list FilePath :=
  rev (map (fun i => Rotated (Z.of_nat i)) (seq 1 (Z.to_nat (rotation_end fs 128 1 - 1)))) ++
  (if bool_decide (is_Some (fs !! Live)) then [Live] else []).

Fixpoint verify_all (fs : Fs) (files : list FilePath) : outcome string (list VerifiedFile) :=
  match files with
  | [] => Ok []
  | f :: files' => v <-- verify_file fs f ;; vs <-- verify_all fs files' ;; Ok (v :: vs)
  end.

(** [for window in verified.windows(2)]. *)
Fixpoint stitched (vs : list VerifiedFile) : bool :=
  match vs with
  | v1 :: ((v2 :: _) as vs') => bool_decide (vf_first_prev_sha256 v2 = vf_last_sha256 v1) && stitched vs'
  | _ => true
  end.

Definition with_newline (text : bytes) : bytes :=
  match last text with None => [] | Some b => if b =? 10 then text else text ++ [10] end.

Record ExportReport := mk_export { ex_files : Z; ex_records : Z; ex_last_sha256 : bytes }.

(** The report and the file system with [dest] written; the writes succeed. *)
Definition export_chain (dest : FilePath) (fs : Fs) : outcome string (ExportReport * Fs) :=
  let files := rotation_stack fs in
  if bool_decide (files = []) then Err "no audit file to export"%string
  else
    vs <-- verify_all fs files ;;
    if negb (stitched vs) then Err "hash chain does not stitch"%string
    else
      let fs' := <[dest := concat (map (fun f => with_newline (default [] (fs !! f))) files)]> fs in
      let records := fold_left Z.add (map vf_records vs) 0 in
      check <-- verify_file fs' dest ;;
      if negb (vf_records check =? records) then Err "export record count drifted"%string
      else Ok (mk_export (blen files) records (default [] (vf_last_sha256 <$> last vs)), fs').

(** *** The snapshot *)

Record AuditSnapshot := mk_snapshot {
  as_mode : AuditMode; as_max_bytes : Z; as_retain : Z; as_on_corrupt : OnCorrupt; as_events : Z; as_write_errors : Z;
  as_last_seq : Z; as_last_sha256 : bytes; as_bytes : Z; as_integrity : AuditIntegrity
}.

Definition snapshot (s : Sink) : AuditSnapshot :=
  let '(n, seq, sha) :=
    match sk_mode s with
    | Stderr => (0, ch_seq (sk_stderr_chain s), ch_prev_hex (sk_stderr_chain s))
    | File =>
        match sk_file s with
        | Some st => (fst_bytes st, ch_seq (fst_chain st), ch_prev_hex (fst_chain st))
        | None => (0, 0, GENESIS_PREV)
        end
    end in
  mk_snapshot (sk_mode s) (sk_max_bytes s) (sk_retain s) (sk_on_corrupt s) (sk_events s) (sk_write_errors s) seq sha n
    (sk_integrity s).

End Audit.
