(* ===== verification/AuditProofs.v ===== *)
(** * The audit chain: lines and files

    A line the sink writes verifies and continues the chain; a file of such lines
    verifies, and so does what files of one chain concatenate to. *)

From stdpp Require Import gmap.
From S2P Require Import Prelude Utf8 AuditLog.
#[local] Open Scope Z_scope.

(** An object of [serde_json] has text keys. *)
Definition keys_ok {V} (m : gmap bytes V) : Prop := forall k v, m !! k = Some v -> utf8_valid k = true.

(** What the development relies on of [serde_json].  [exact] values are those the
    parser reads back as they were: no floating-point number (the parser rounds
    without its [float_roundtrip] feature) and no nesting beyond its limit.  The
    compact form of an object is a non-empty text on one line, and different
    objects have different forms. *)
Class JsonLaws `{Json} := {
  exact : Value -> Prop;
  exact_u64 n : exact (json_u64 n);
  exact_str s : exact (json_str s);
  exact_fields v obj : exact v -> as_object v = Some obj -> map_Forall (fun _ => exact) obj;
  u64_back n : 0 <= n <= u64_max -> as_u64 (json_u64 n) = Some n;
  str_back s : utf8_valid s = true -> as_str (json_str s) = Some s;
  object_keys v obj : as_object v = Some obj -> keys_ok obj;
  object_back m : keys_ok m -> map_Forall (fun _ => exact) m -> exists v, from_str (to_vec m) = Some v /\ as_object v = Some m;
  to_vec_inj m1 m2 : keys_ok m1 -> keys_ok m2 -> to_vec m1 = to_vec m2 -> m1 = m2;
  compact m : keys_ok m -> utf8_valid (to_vec m) = true /\ to_vec m <> [] /\ (10 ∉ to_vec m) /\ (13 ∉ to_vec m)
}.
(** ... and of the hash: a digest has 32 bytes. *)
Class Sha256Laws `{Sha256} : Prop := digest_32 b : bytes_ok (sha256 b) /\ blen (sha256 b) = 32.

(** ** Hexadecimal digests *)

Lemma blen_hex bs : blen (hex_encode bs) = 2 * blen bs.
Proof.
  unfold hex_encode. induction bs as [| b bs IH]; [done |]. cbn [map concat]. rewrite blen_app, IH, (blen_cons b). unfold blen. cbn. lia.
Qed.

Lemma hex_digit_ok n : 0 <= n < 16 -> is_hex_digit (hex_digit n) = true.
Proof. intros Hn. unfold hex_digit, is_hex_digit. destruct (Z.ltb_spec n 10); lia. Qed.

Lemma nibbles b : is_byte b -> 0 <= Z.shiftr b 4 < 16 /\ 0 <= Z.land b 15 < 16 /\ b = 16 * Z.shiftr b 4 + Z.land b 15.
Proof.
  intros Hb. unfold is_byte in Hb. rewrite Z.shiftr_div_pow2 by lia. change 15 with (Z.ones 4). rewrite Z.land_ones by lia.
  change (2 ^ 4) with 16. pose proof (Z.mod_pos_bound b 16). pose proof (Z.div_mod b 16). split; [| lia].
  split; [apply Z.div_pos; lia | apply Z.div_lt_upper_bound; lia].
Qed.

Lemma hex_digits bs : bytes_ok bs -> forallb is_hex_digit (hex_encode bs) = true.
Proof.
  unfold hex_encode. induction 1 as [| b bs Hb _ IH]; [done |]. cbn [map concat app forallb].
  destruct (nibbles b Hb) as (Hh & Hl & _). by rewrite !hex_digit_ok by done.
Qed.

Lemma hex_digit_inj a b : 0 <= a < 16 -> 0 <= b < 16 -> hex_digit a = hex_digit b -> a = b.
Proof. intros Ha Hb. unfold hex_digit. destruct (Z.ltb_spec a 10), (Z.ltb_spec b 10); lia. Qed.

Lemma hex_encode_inj a b : bytes_ok a -> bytes_ok b -> hex_encode a = hex_encode b -> a = b.
Proof.
  intros Ha. revert b. induction Ha as [| x a Hx _ IH]; intros [| y b] Hb E; [done | done | done |].
  apply Forall_cons in Hb as [Hy Hb]. cbn in E. injection E as E1 E2 E3.
  destruct (nibbles x Hx) as (? & ? & Hex), (nibbles y Hy) as (? & ? & Hey).
  apply hex_digit_inj in E1, E2; [| lia..]. f_equal; [lia | by apply IH].
Qed.

(** An ASCII text is valid UTF-8. *)
Lemma ascii_utf8 s : Forall (fun b => 0 <= b < 128) s -> utf8_valid s = true.
Proof.
  intros Hs. unfold utf8_valid. enough (utf8_decode s = Some s) as -> by done.
  induction Hs as [| b s Hb _ IH]; [done |]. cbn [utf8_decode]. rewrite IH.
  destruct (Z.leb_spec 0 b), (Z.ltb_spec b 0x80); [done | lia..].
Qed.

Lemma hex_utf8 s : forallb is_hex_digit s = true -> utf8_valid s = true.
Proof.
  intros Hs. apply ascii_utf8. apply forallb_Forall in Hs. eapply Forall_impl; [exact Hs |]. cbn. unfold is_hex_digit. lia.
Qed.

Lemma sha_hex_utf8 s : is_sha256_hex s = true -> utf8_valid s = true.
Proof. unfold is_sha256_hex. rewrite andb_true_iff. intros [_ Hs]. by apply hex_utf8. Qed.

Lemma genesis_hex : is_sha256_hex GENESIS_PREV = true.
Proof. reflexivity. Qed.

(** ** Lines *)

Lemma digest_hex `{Sha256Laws} b : is_sha256_hex (hex_encode (sha256 b)) = true.
Proof.
  destruct (digest_32 b) as [Hb Hl]. unfold is_sha256_hex. rewrite blen_hex, Hl. by rewrite hex_digits.
Qed.

Lemma key_neq (a b : bytes) : bool_decide (a = b) = false -> a <> b.
Proof. apply bool_decide_eq_false. Qed.

Lemma keys_insert {V} (m : gmap bytes V) k v : utf8_valid k = true -> keys_ok m -> keys_ok (<[k := v]> m).
Proof. intros Hk Hm k' v'. rewrite lookup_insert_Some. intros [[<- _] | [_ Hl]]; [done | by eapply Hm]. Qed.

Lemma keys_delete {V} (m : gmap bytes V) k : keys_ok m -> keys_ok (delete k m).
Proof. intros Hm k' v'. rewrite lookup_delete_Some. intros [_ Hl]. by eapply Hm. Qed.

Lemma keys_union {V} (m1 m2 : gmap bytes V) : keys_ok m1 -> keys_ok m2 -> keys_ok (m1 ∪ m2).
Proof. intros H1 H2 k v [Hl | [_ Hl]]%lookup_union_Some_raw; [by eapply H1 | by eapply H2]. Qed.

Section Lines.
#[local] Set Default Proof Using "All".
Context `{JsonLaws} `{Sha256Laws}.

(** A line of a file: a text without line ends. *)
Definition line_text (l : bytes) : Prop := utf8_valid l = true /\ l <> [] /\ (10 ∉ l) /\ (13 ∉ l).

Lemma envelope_keys seq ts prev event :
  envelope seq ts prev event !! lit "prev_sha256" = Some (json_str prev) /\
  envelope seq ts prev event !! lit "seq" = Some (json_u64 seq) /\
  envelope seq ts prev event !! lit "sha256" = None.
Proof.
  unfold envelope. set (base := <[lit "prev_sha256" := _]> _).
  assert (Hbase : base !! lit "prev_sha256" = Some (json_str prev) /\ base !! lit "seq" = Some (json_u64 seq) /\
      base !! lit "sha256" = None).
  { unfold base. split; [apply lookup_insert_eq |]. rewrite !lookup_insert_ne by (by apply key_neq).
    split; [apply lookup_singleton_eq |]. by apply lookup_singleton_ne, key_neq. }
  destruct Hbase as (Hp & Hs & Hn). destruct (as_object event) as [obj |].
  - split; [by apply lookup_union_Some_l | split; [by apply lookup_union_Some_l |]].
    apply lookup_union_None. split; [done |]. apply map_lookup_filter_None. right. intros v _. cbn. done.
  - rewrite !lookup_insert_ne by (by apply key_neq). done.
Qed.

(** The envelope of an exact event is one. *)
Lemma envelope_exact seq ts prev event :
  exact event -> keys_ok (envelope seq ts prev event) /\ map_Forall (fun _ => exact) (envelope seq ts prev event).
Proof.
  intros He. unfold envelope. set (base := <[lit "prev_sha256" := _]> _).
  assert (Hb : keys_ok base /\ map_Forall (fun _ => exact) base).
  { unfold base. split.
    - do 2 (apply keys_insert; [done |]). intros k v [<- _]%lookup_singleton_Some. done.
    - apply map_Forall_insert_2; [apply exact_str |]. apply map_Forall_insert_2; [apply exact_u64 |].
      apply map_Forall_singleton, exact_u64. }
  destruct Hb as [Hk Hx]. destruct (as_object event) as [obj |] eqn:Eo.
  - split.
    + apply keys_union; [done |]. intros k v [Hl _]%map_lookup_filter_Some. by eapply object_keys.
    + apply map_Forall_union_2; [done |]. intros k v [Hl _]%map_lookup_filter_Some. by eapply exact_fields.
  - split; [by repeat (apply keys_insert; [done |]) |].
    apply map_Forall_insert_2; [done |]. by apply map_Forall_insert_2; [apply exact_str |].
Qed.

Lemma next_line_verifies now event chain line chain' :
  exact event -> is_sha256_hex (ch_prev_hex chain) = true -> next_line now event chain = (line, chain') ->
  verify_line line = Ok (ch_seq chain', ch_prev_hex chain, ch_prev_hex chain') /\ line_text line /\
  is_sha256_hex (ch_prev_hex chain') = true /\
  rewind_chain line chain' = mk_chain (if 0 <? ch_seq chain' then ch_seq chain' - 1 else ch_seq chain') (ch_prev_hex chain).
Proof.
  unfold next_line. intros Hx Hp E. pose proof (f_equal fst E) as El. pose proof (f_equal snd E) as Ec.
  cbn [fst snd] in El, Ec. subst line chain'. cbn [ch_seq ch_prev_hex].
  set (sq := as_unsigned 64 (ch_seq chain + 1)). set (m := envelope sq now (ch_prev_hex chain) event).
  set (d := hex_encode (hash_record (ch_prev_hex chain) (to_vec m))).
  destruct (envelope_keys sq now (ch_prev_hex chain) event) as (Kp & Ks & Kn). fold m in Kp, Ks, Kn.
  assert (Hd : is_sha256_hex d = true) by apply digest_hex.
  destruct (envelope_exact sq now (ch_prev_hex chain) event Hx) as [Mk Mx]. fold m in Mk, Mx.
  assert (Kk : keys_ok (<[lit "sha256" := json_str d]> m)) by (by apply keys_insert).
  destruct (object_back (<[lit "sha256" := json_str d]> m) Kk) as (v & Hv & Ho); [apply map_Forall_insert_2; [apply exact_str | done] |].
  assert (Hprev : (<[lit "sha256" := json_str d]> m !! lit "prev_sha256" ≫= as_str) = Some (ch_prev_hex chain)).
  { rewrite lookup_insert_ne by (by apply key_neq). rewrite Kp. cbn. by apply str_back, sha_hex_utf8. }
  split; [| split; [by apply compact | split; [done |]]].
  - unfold verify_line. rewrite Hv. cbn [ok_or obind]. rewrite Ho. cbn [ok_or obind]. rewrite lookup_insert_eq. cbn [mbind option_bind].
    rewrite str_back by (by apply sha_hex_utf8). cbn [ok_or obind].
    change (match <[lit "sha256" := json_str d]> m !! lit "prev_sha256" with Some x => as_str x | None => None end)
      with (<[lit "sha256" := json_str d]> m !! lit "prev_sha256" ≫= as_str).
    rewrite Hprev. cbn [ok_or obind]. rewrite Hp, Hd. cbn [negb orb].
    rewrite lookup_insert_ne by (by apply key_neq). rewrite Ks. cbn [mbind option_bind].
    rewrite u64_back by (pose proof (as_unsigned_range 64 (ch_seq chain + 1)); unfold is_unsigned, u64_max in *; lia).
    cbn [ok_or obind]. rewrite delete_insert_id by done. fold d. by rewrite bool_decide_eq_true_2.
  - unfold rewind_chain. rewrite Hv, Ho. by rewrite Hprev.
Qed.

End Lines.

(** ** Files *)

Section Files.
Context `{Json} `{Sha256}.

(** The records [ls] lead the chain from digest [p] to digest [q]. *)
Inductive linked : bytes -> list bytes -> bytes -> Prop :=
| linked_nil p : linked p [] p
| linked_cons p l sq d ls q : verify_line l = Ok (sq, p, d) -> linked d ls q -> linked p (l :: ls) q.

(** The content of a file of lines. *)
Definition text_of (ls : list bytes) : bytes := concat (map (fun l => l ++ [10]) ls).

Lemma linked_app p ls1 m ls2 q : linked p ls1 m -> linked m ls2 q -> linked p (ls1 ++ ls2) q.
Proof. induction 1; [done |]. intros Hq. econstructor; [done |]. auto. Qed.

Lemma text_app ls1 ls2 : text_of (ls1 ++ ls2) = text_of ls1 ++ text_of ls2.
Proof. unfold text_of. by rewrite map_app, concat_app. Qed.

Lemma text_single l : text_of [l] = l ++ [10].
Proof. unfold text_of. cbn. by rewrite app_nil_r. Qed.

Lemma text_nil ls : text_of ls = [] -> ls = [].
Proof. destruct ls as [| l ls]; [done |]. unfold text_of. cbn. by destruct l. Qed.

Lemma strip_cr_id l : 13 ∉ l -> strip_cr l = l.
Proof.
  intros Hl. unfold strip_cr. destruct (rev l) as [| b r] eqn:E; [done |].
  assert (Hb : b ∈ l) by (apply list_elem_of_In, in_rev; rewrite E; by left).
  repeat case_match; congruence.
Qed.

Lemma pieces_line l rest cur :
  10 ∉ l -> pieces (l ++ 10 :: rest) cur = strip_cr (cur ++ l) :: pieces rest [].
Proof.
  revert cur. induction l as [| b l IH]; intros cur Hl; cbn [app pieces].
  - change (10 =? 10) with true. cbn iota. by rewrite app_nil_r.
  - apply not_elem_of_cons in Hl as [Hb Hl]. destruct (Z.eqb_spec b 10); [congruence |]. rewrite IH by done.
    by rewrite <- app_assoc.
Qed.

Lemma file_lines_text ls : Forall line_text ls -> file_lines (text_of ls) = ls.
Proof.
  unfold file_lines. induction 1 as [| l ls (_ & Hn & H10 & H13) _ IH]; [done |].
  unfold text_of. cbn [map concat]. rewrite <- app_assoc. cbn [app]. rewrite pieces_line by done.
  rewrite app_nil_l, strip_cr_id by done. f_equal. exact IH.
Qed.

Lemma verify_lines_linked p ls q expected acc :
  linked p ls q -> Forall line_text ls -> ls <> [] -> expected = None \/ expected = Some p ->
  exists sq, verify_lines ls expected acc =
    Ok (Some (mk_verified (match acc with Some v => vf_records v | None => 0 end + blen ls) sq q
                (match acc with Some v => vf_first_prev_sha256 v | None => p end))).
Proof.
  intros Hl. revert expected acc. induction Hl as [| p l sq d ls q Hv Hl IH]; intros expected acc Ht Hn He; [done |].
  apply Forall_cons in Ht as [(Hu & Hne & _ & _) Ht]. cbn [verify_lines]. rewrite Hu. cbn [negb].
  rewrite bool_decide_eq_false_2 by done. rewrite Hv. cbn [obind fst snd].
  assert (Hexp : match expected with Some e => negb (bool_decide (p = e)) | None => false end = false).
  { destruct He as [-> | ->]; [done |]. by rewrite bool_decide_eq_true_2. }
  rewrite Hexp. destruct ls as [| l' ls].
  - inversion Hl; subst. exists sq. cbn [verify_lines]. done.
  - edestruct (IH (Some d)) as [sq' ->]; [done | done | by right |]. exists sq'. do 2 f_equal.
    rewrite (blen_cons l). f_equal. cbn [vf_records]. destruct acc; (lia || done).
Qed.

Lemma verify_text p ls q :
  linked p ls q -> Forall line_text ls -> ls <> [] ->
  exists sq, verify_content (text_of ls) = Ok (mk_verified (blen ls) sq q p).
Proof.
  intros Hl Ht Hn. unfold verify_content. rewrite file_lines_text by done.
  destruct (verify_lines_linked p ls q None None Hl Ht Hn (or_introl eq_refl)) as [sq ->]. by exists sq.
Qed.

(** What verification accepts is a chain. *)
Lemma verify_lines_inv ls expected acc v :
  verify_lines ls expected acc = Ok (Some v) -> ls <> [] ->
  exists p, linked p ls (vf_last_sha256 v) /\ (expected = None \/ expected = Some p) /\
    vf_records v = match acc with Some v => vf_records v | None => 0 end + blen ls /\
    vf_first_prev_sha256 v = match acc with Some v => vf_first_prev_sha256 v | None => p end.
Proof.
  revert expected acc. induction ls as [| l ls IH]; intros expected acc Hv Hn; [done |]. cbn [verify_lines] in Hv.
  destruct (utf8_valid l); [cbn [negb] in Hv | done]. case_bool_decide; [done |].
  destruct (verify_line l) as [[[sq p] d] | |] eqn:El; cbn [obind fst snd] in Hv; [| done..].
  set (bad := match expected with Some e => negb (bool_decide (p = e)) | None => false end) in Hv.
  assert (Hexp : bad = false -> expected = None \/ expected = Some p).
  { unfold bad. destruct expected as [e |]; [| by left]. case_bool_decide as He; [intros _; right; by rewrite He | done]. }
  destruct bad; [done |]. exists p. rewrite (blen_cons l). destruct ls as [| l' ls].
  - cbn [verify_lines] in Hv. injection Hv as <-. cbn. split; [by econstructor; [| constructor] |].
    split; [auto | split; [destruct acc; unfold blen; cbn; lia | by destruct acc]].
  - apply IH in Hv as (p' & Hl & He & Hr & Hf); [| done]. destruct He as [| He]; [done |]. injection He as <-.
    split; [by econstructor |]. split; [auto |]. cbn [vf_records vf_first_prev_sha256] in *. split; [destruct acc; lia | by destruct acc].
Qed.

Lemma verify_content_inv content v :
  verify_content content = Ok v ->
  linked (vf_first_prev_sha256 v) (file_lines content) (vf_last_sha256 v) /\ vf_records v = blen (file_lines content).
Proof.
  unfold verify_content. destruct (verify_lines _ _ _) as [[v' |] | |] eqn:E; cbn; try done. intros [= ->].
  destruct (file_lines content) as [| l ls] eqn:Els; [done |].
  apply verify_lines_inv in E as (p & Hl & _ & Hr & ->); [| done]. by split.
Qed.

End Files.
