(* ===== verification/AuditTheorems.v ===== *)
(** * The audit sink: theorems

    Whatever events and failures the sink sees, as long as no line is written in
    part, its files form one chain: each verifies, neighbours stitch, and the
    export of all of them verifies.  Records that lead to the same digest are the
    same records, or SHA-256 has a collision. *)

From stdpp Require Import gmap.
From S2P Require Import Prelude Utf8 AuditLog AuditProofs.
#[local] Open Scope Z_scope.

(** The live file is number 0. *)
Definition place (k : Z) : FilePath := if k =? 0 then Live else Rotated k.

Lemma place_pos k : 0 < k -> place k = Rotated k.
Proof. intros Hk. unfold place. destruct (Z.eqb_spec k 0); [lia | done]. Qed.

Lemma place_inj j k : place j = place k -> j = k.
Proof. unfold place. destruct (Z.eqb_spec j 0), (Z.eqb_spec k 0); intros E; congruence. Qed.

(** ** The chain of the files *)

Section Files.
Context `{Json} `{Sha256}.

(** File [k] leads the chain from [span k].1 to [span k].2; a file and its
    neighbour meet; the live file ends at [q]. *)
Record files_chain (retain : Z) (fs : Fs) (q : bytes) (span : Z -> bytes * bytes) : Prop := {
  fc_text k c : 0 <= k -> fs !! place k = Some c ->
    exists ls, c = text_of ls /\ Forall line_text ls /\ linked (span k).1 ls (span k).2 /\ (0 < k -> ls <> []);
  fc_meet k : 0 <= k -> is_Some (fs !! place (k + 1)) -> is_Some (fs !! place k) -> (span (k + 1)).2 = (span k).1;
  fc_retain k : 0 < k -> is_Some (fs !! place k) -> k <= retain;
  fc_live : is_Some (fs !! Live) -> (span 0).2 = q
}.
Definition files_ok (retain : Z) (fs : Fs) (q : bytes) : Prop := exists span, files_chain retain fs q span.

(** [fs'] is [fs] after the files above [j] moved up by one and left [j + 1] free. *)
Definition moved (fs fs' : Fs) (j : Z) : Prop :=
  forall k, 0 <= k -> fs' !! place k = if k <=? j then fs !! place k else if k =? j + 1 then None else fs !! place (k - 1).

Lemma moved_refl fs j : (forall k, j < k -> fs !! place k = None) -> moved fs fs j.
Proof.
  intros Hn k Hk. destruct (Z.leb_spec k j); [done |]. destruct (Z.eqb_spec k (j + 1)); rewrite !Hn by lia; done.
Qed.

Lemma moved_step fs fs' fs'' n fails :
  0 <= n -> moved fs fs' n -> rename fails (place n) (place (n + 1)) fs' = Ok fs'' -> moved fs fs'' (n - 1).
Proof.
  intros Hn Hm Hr. unfold rename in Hr. destruct fails; [done |].
  destruct (fs' !! place n) as [c |] eqn:Ec; [| done]. injection Hr as <-. intros k Hk.
  pose proof (Hm n Hn) as Hfn. rewrite Ec in Hfn. destruct (Z.leb_spec n n); [| lia].
  destruct (Z.eqb_spec k (n + 1)) as [-> |].
  - rewrite lookup_insert_eq. destruct (Z.leb_spec (n + 1) (n - 1)); [lia |]. destruct (Z.eqb_spec (n + 1) (n - 1 + 1)); [lia |].
    rewrite Hfn. by replace (n + 1 - 1) with n by lia.
  - rewrite lookup_insert_ne by (intros E; by apply place_inj in E). destruct (Z.eqb_spec k n) as [-> |].
    + rewrite lookup_delete_eq. destruct (Z.leb_spec n (n - 1)); [lia |]. by destruct (Z.eqb_spec n (n - 1 + 1)); [| lia].
    + rewrite lookup_delete_ne by (intros E; by apply place_inj in E). rewrite (Hm k Hk).
      destruct (Z.leb_spec k n), (Z.leb_spec k (n - 1)), (Z.eqb_spec k (n + 1)), (Z.eqb_spec k (n - 1 + 1)); (done || lia).
Qed.

Lemma moved_free fs fs' n : 0 <= n -> moved fs fs' n -> fs' !! place n = None -> moved fs fs' (n - 1).
Proof.
  intros Hn Hm Hf k Hk. rewrite (Hm k Hk). pose proof (Hm n Hn) as Hfn. rewrite Hf in Hfn.
  destruct (Z.leb_spec n n); [| lia].
  destruct (Z.leb_spec k n), (Z.leb_spec k (n - 1)), (Z.eqb_spec k (n + 1)), (Z.eqb_spec k (n - 1 + 1)); try (done || lia).
  - by replace k with n by lia.
  - by replace (k - 1) with n by lia.
Qed.

Lemma shift_up_moved io i fs fs' r fs0 :
  shift_up io i fs = (r, fs') -> moved fs0 fs (Z.of_nat i) ->
  exists j, 0 <= j <= Z.of_nat i /\ moved fs0 fs' j /\ (r = Ok tt -> j = 0) /\ r <> Panic.
Proof.
  revert fs. induction i as [| i IH]; intros fs E Hm; cbn [shift_up] in E.
  { injection E as <- <-. exists 0. split; [lia | split; [exact Hm | by split]]. }
  assert (Hp : Rotated (Z.of_nat (S i)) = place (Z.of_nat (S i))) by (by rewrite place_pos by lia).
  rewrite Hp in E. assert (Hpred : Z.of_nat (S i) - 1 = Z.of_nat i) by lia.
  destruct (fs !! place (Z.of_nat (S i))) as [c |] eqn:Ec.
  - assert (Hq : Rotated (Z.of_nat (S i) + 1) = place (Z.of_nat (S i) + 1)) by (by rewrite place_pos by lia). rewrite Hq in E.
    destruct (rename _ _ _ fs) as [fs1 | e |] eqn:Er.
    + pose proof (moved_step _ _ _ _ _ (Zle_0_nat (S i)) Hm Er) as Hm1. rewrite Hpred in Hm1.
      destruct (IH fs1 E Hm1) as (j & Hj & Hr). exists j. split; [lia | exact Hr].
    + injection E as <- <-. exists (Z.of_nat (S i)). split; [lia | split; [exact Hm | by split]].
    + unfold rename in Er. destruct (io_rename_fails io _); [done |]. by rewrite Ec in Er.
  - pose proof (moved_free _ _ _ (Zle_0_nat (S i)) Hm Ec) as Hm1. rewrite Hpred in Hm1.
    destruct (IH fs E Hm1) as (j & Hj & Hr). exists j. split; [lia | exact Hr].
Qed.

(** Moving files up keeps the chain; a live file that moves must hold records. *)
Lemma moved_chain retain fs fs' q j :
  -1 <= j -> moved fs fs' j -> fs !! Rotated retain = None -> 1 <= retain -> (j = -1 -> forall c, fs !! Live = Some c -> c <> []) ->
  files_ok retain fs q ->
  exists span, files_chain retain fs' q span /\ (j = -1 -> is_Some (fs !! Live) -> (span 1).2 = q).
Proof.
  intros Hj Hm Hlast Hret Hlive [span [Ht Hmeet Hr Hq]]. exists (fun k => if k <=? j then span k else span (k - 1)).
  assert (Hex : forall k, 0 <= k -> is_Some (fs' !! place k) ->
      (k <= j /\ fs' !! place k = fs !! place k) \/ (j + 1 < k /\ fs' !! place k = fs !! place (k - 1))).
  { intros k Hk [c Hc]. pose proof (Hm k Hk) as E. rewrite Hc in E. rewrite Hc.
    destruct (Z.leb_spec k j); [by left |]. destruct (Z.eqb_spec k (j + 1)); [done |]. right. split; [lia | done]. }
  split; [split |].
  - intros k c Hk Hc. destruct (Hex k Hk (mk_is_Some _ _ Hc)) as [[Hle E] | [Hlt E]]; rewrite E in Hc.
    + destruct (Z.leb_spec k j); [| lia]. by apply Ht.
    + destruct (Z.leb_spec k j); [lia |]. destruct (Ht (k - 1) c ltac:(lia) Hc) as (ls & -> & Hls & Hl & Hne).
      exists ls. split; [done | split; [done | split; [done |]]]. intros _.
      destruct (Z.eq_dec k 1) as [-> |]; [| apply Hne; lia]. intros ->. by apply (Hlive ltac:(lia) _ Hc).
  - intros k Hk Hu Hd. destruct (Hex k Hk Hd) as [[Hle E] | [Hlt E]], (Hex (k + 1) ltac:(lia) Hu) as [[Hle1 E1] | [Hlt1 E1]]; try lia.
    + destruct (Z.leb_spec (k + 1) j), (Z.leb_spec k j); try lia. rewrite E in Hd. rewrite E1 in Hu. by apply Hmeet.
    + destruct (Z.leb_spec (k + 1) j), (Z.leb_spec k j); try lia. rewrite E in Hd. rewrite E1 in Hu.
      replace (k + 1 - 1) with (k - 1 + 1) in * by lia. apply Hmeet; [lia | done | done].
  - intros k Hk Hs. destruct (Hex k ltac:(lia) Hs) as [[Hle E] | [Hlt E]]; rewrite E in Hs; [by apply Hr |].
    destruct (Z.eq_dec k 1); [lia |]. destruct (Z.eq_dec (k - 1) retain) as [En |].
    + rewrite place_pos in Hs by lia. rewrite En, Hlast in Hs. by destruct Hs.
    + specialize (Hr (k - 1) ltac:(lia) Hs). lia.
  - intros Hs. destruct (Hex 0 ltac:(lia) Hs) as [[Hle E] | [Hlt E]]; [| lia]. change (place 0) with Live in E.
    destruct (Z.leb_spec 0 j); [| lia]. apply Hq. by rewrite <- E.
  - intros -> Hs. destruct (Z.leb_spec 1 (-1)); [lia |]. change (1 - 1) with 0. by apply Hq.
Qed.

(** Dropping the oldest rotation keeps the chain. *)
Lemma drop_oldest retain fs q : files_ok retain fs q -> 1 <= retain -> files_ok retain (delete (Rotated retain) fs) q.
Proof.
  intros [span [Ht Hm Hr Hq]] Hret. exists span.
  assert (Hsub : forall p, is_Some (delete (Rotated retain) fs !! p) -> delete (Rotated retain) fs !! p = fs !! p).
  { intros p [c Hc]. rewrite Hc. apply lookup_delete_Some in Hc as [_ Hc]. by rewrite Hc. }
  split.
  - intros k c Hk Hc. rewrite Hsub in Hc by eauto. by apply Ht.
  - intros k Hk Hu Hd. rewrite Hsub in Hu, Hd by done. by apply Hm.
  - intros k Hk Hs. rewrite Hsub in Hs by done. by apply Hr.
  - intros Hs. rewrite Hsub in Hs by done. by apply Hq.
Qed.

(** A new, empty live file goes on where the newest rotation ends. *)
Lemma fresh_live retain fs q span :
  files_chain retain fs q span -> (is_Some (fs !! place 1) -> (span 1).2 = q) -> files_ok retain (<[Live := []]> fs) q.
Proof.
  intros [Ht Hmt Hrt Hq] Hend. exists (fun k => if k =? 0 then (q, q) else span k). split.
  - intros k c Hk Hc. destruct (Z.eqb_spec k 0) as [-> | Hk0].
    + change (place 0) with Live in Hc. rewrite lookup_insert_eq in Hc. injection Hc as <-. exists [].
      split; [done | split; [done | split; [constructor | lia]]].
    + rewrite place_pos in Hc by lia. rewrite lookup_insert_ne in Hc by done. apply Ht; [lia |]. by rewrite place_pos by lia.
  - intros k Hk Hu Hd. destruct (Z.eqb_spec (k + 1) 0); [lia |]. destruct (Z.eqb_spec k 0) as [-> |].
    + apply Hend. rewrite place_pos in Hu |- * by lia. by rewrite lookup_insert_ne in Hu by done.
    + rewrite place_pos in Hu, Hd by lia. rewrite lookup_insert_ne in Hu, Hd by done. apply Hmt; [lia | |]; by rewrite place_pos by lia.
  - intros k Hk Hs. rewrite place_pos in Hs by lia. rewrite lookup_insert_ne in Hs by done. apply Hrt; [done |].
    by rewrite place_pos by lia.
  - done.
Qed.

(** A record appended to the live file extends the chain. *)
Lemma append_chain retain fs q c line sq q' :
  files_ok retain fs q -> fs !! Live = Some c -> verify_line line = Ok (sq, q, q') -> line_text line ->
  files_ok retain (<[Live := c ++ line ++ [10]]> fs) q'.
Proof.
  intros [span [Ht Hmt Hrt Hq]] Hc Hv Hl. exists (fun k => if k =? 0 then ((span 0).1, q') else span k). split.
  - intros k c' Hk Hc'. destruct (Z.eqb_spec k 0) as [-> | Hk0].
    + change (place 0) with Live in Hc'. rewrite lookup_insert_eq in Hc'. injection Hc' as <-.
      destruct (Ht 0 c ltac:(lia) Hc) as (ls & -> & Hls & Hlk & _). exists (ls ++ [line]).
      split; [by rewrite text_app, text_single | split; [apply Forall_app_2; [done | by apply Forall_singleton] |]]. split; [| lia].
      cbn [fst snd]. eapply linked_app; [exact Hlk |]. rewrite (Hq (mk_is_Some _ _ Hc)). econstructor; [exact Hv | constructor].
    + rewrite place_pos in Hc' by lia. rewrite lookup_insert_ne in Hc' by done. apply Ht; [lia |]. by rewrite place_pos by lia.
  - intros k Hk Hu Hd. destruct (Z.eqb_spec (k + 1) 0); [lia |]. rewrite place_pos in Hu by lia.
    rewrite lookup_insert_ne in Hu by done. destruct (Z.eqb_spec k 0) as [-> |]; cbn [fst].
    + apply (Hmt 0); [lia | by rewrite place_pos by lia | by eexists].
    + rewrite place_pos in Hd by lia. rewrite lookup_insert_ne in Hd by done. apply Hmt; [lia | |]; by rewrite place_pos by lia.
  - intros k Hk Hs. rewrite place_pos in Hs by lia. rewrite lookup_insert_ne in Hs by done. apply Hrt; [done |].
    by rewrite place_pos by lia.
  - done.
Qed.

End Files.

(** ** The sink *)

Section Sink.
#[local] Set Default Proof Using "All".
Context `{JsonLaws} `{Sha256Laws}.

(** The file behind the sink: an open file is the live one and its size is known;
    the sink lost its file only in a rotation, which a file of [max] bytes began. *)
Record state_ok (max retain : Z) (st : FileState) (fs : Fs) : Prop := {
  so_files : files_ok retain fs (ch_prev_hex (fst_chain st));
  so_hex : is_sha256_hex (ch_prev_hex (fst_chain st)) = true;
  so_open : fst_open st = true -> exists c, fs !! Live = Some c /\ blen c = fst_bytes st;
  so_closed : fst_open st = false -> max <= fst_bytes st /\ forall c, fs !! Live = Some c -> c <> []
}.

Record sink_ok (s : Sink) : Prop := {
  sk_is_file : sk_mode s = File;
  sk_limits : 1 <= sk_max_bytes s /\ 1 <= sk_retain s <= 64;
  sk_state : exists st, sk_file s = Some st /\ state_ok (sk_max_bytes s) (sk_retain s) st (sk_fs s)
}.

(** No write leaves part of a line behind. *)
Definition whole_lines (io : IoFaults) : Prop := io_write_fails io = None \/ io_write_fails io = Some 0%nat.

Lemma live_not_empty max retain st fs c :
  state_ok max retain st fs -> 1 <= max <= fst_bytes st -> fs !! Live = Some c -> c <> [].
Proof.
  intros [_ _ Ho Hc] Hb Hl. destruct (fst_open st); [| by apply Hc]. destruct Ho as (c' & Hl' & Hlen); [done |].
  rewrite Hl in Hl'. injection Hl' as <-. intros ->. rewrite blen_nil in Hlen. lia.
Qed.

(** A rotation, whatever fails in it, keeps the state; the chain goes on. *)
Lemma rotate_keeps io max retain st fs r st' fs' :
  state_ok max retain st fs -> 1 <= max <= fst_bytes st -> 1 <= retain ->
  rotate_live io retain st fs = (r, st', fs') ->
  state_ok max retain st' fs' /\ fst_chain st' = fst_chain st /\ r <> Panic.
Proof.
  intros Hst Hb Hr E. pose proof Hst as [Hfs Hhex Hopen Hclosed]. unfold rotate_live in E.
  set (closed := mk_file_state false (fst_bytes st) (fst_chain st)) in E.
  assert (Hne : forall c, fs !! Live = Some c -> c <> []) by (intros c; by eapply live_not_empty).
  assert (Hclose : forall fs1 j, 0 <= j -> moved (delete (Rotated retain) fs) fs1 j -> state_ok max retain closed fs1).
  { intros fs1 j Hj Hm. assert (Hlive : fs1 !! Live = fs !! Live).
    { pose proof (Hm 0 ltac:(lia)) as H0m. change (place 0) with Live in H0m. destruct (Z.leb_spec 0 j); [| lia].
      rewrite H0m. by rewrite lookup_delete_ne. }
    destruct (moved_chain retain _ fs1 _ j ltac:(lia) Hm (lookup_delete_eq _ _) Hr ltac:(lia) (drop_oldest _ _ _ Hfs Hr))
      as (span & Hspan & _).
    split; [by exists span | done | done |]. intros _. split; [cbn; lia |]. intros c Hc. rewrite Hlive in Hc. by apply Hne. }
  destruct (_ && _).
  { injection E as <- <- <-. split; [| done]. split; [done | done | done |]. intros _. split; [cbn; lia | exact Hne]. }
  destruct (shift_up io (Z.to_nat (retain - 1)) (delete (Rotated retain) fs)) as [r1 fs1] eqn:Es.
  assert (Hm0 : moved (delete (Rotated retain) fs) (delete (Rotated retain) fs) (Z.of_nat (Z.to_nat (retain - 1)))).
  { apply moved_refl. intros k Hk. rewrite place_pos by lia. destruct (Z.eq_dec k retain) as [-> |]; [apply lookup_delete_eq |].
    destruct (delete (Rotated retain) fs !! Rotated k) as [c |] eqn:Ec; [| done]. apply lookup_delete_Some in Ec as [_ Ec].
    destruct Hfs as [span [_ _ Hret _]]. specialize (Hret k ltac:(lia)). rewrite place_pos in Hret by lia.
    specialize (Hret (mk_is_Some _ _ Ec)). lia. }
  destruct (shift_up_moved _ _ _ _ _ _ Es Hm0) as (j & Hj & Hm & Hok & Hp).
  destruct r1 as [[] | e |]; [| by injection E as <- <- <-; split; [by eapply Hclose; [| exact Hm]; lia | done] | done].
  rewrite (Hok eq_refl) in Hm.
  destruct (rename (io_rename_fails io 0) Live (Rotated 1) fs1) as [fs2 | e |] eqn:Er;
    [| by injection E as <- <- <-; split; [by eapply Hclose; [| exact Hm]; lia | done]
     | unfold rename in Er; destruct (io_rename_fails io 0); [done | by destruct (fs1 !! Live)]].
  assert (Hm2 : moved (delete (Rotated retain) fs) fs2 (-1)) by (by apply (moved_step _ fs1 _ 0 _ ltac:(lia) Hm Er)).
  assert (Hlive : is_Some (delete (Rotated retain) fs !! Live)).
  { pose proof (Hm 0 ltac:(lia)) as H0m. change (place 0) with Live in H0m. cbn in H0m. rewrite <- H0m.
    unfold rename in Er. destruct (io_rename_fails io 0); [done |]. destruct (fs1 !! Live); [by eexists | done]. }
  destruct (moved_chain retain _ fs2 _ (-1) ltac:(lia) Hm2 (lookup_delete_eq _ _) Hr
    ltac:(intros _ c Hc; apply lookup_delete_Some in Hc as [_ Hc]; by apply Hne) (drop_oldest _ _ _ Hfs Hr)) as (span & Hspan & Hend).
  assert (Hnone : fs2 !! Live = None) by (pose proof (Hm2 0 ltac:(lia)) as H0m; exact H0m).
  unfold open_live in E. destruct (io_open_fails io).
  { injection E as <- <- <-. split; [| done]. split; [by exists span | done | done |]. intros _.
    split; [cbn; lia |]. intros c Hc. by rewrite Hnone in Hc. }
  rewrite Hnone in E. cbn [default id] in E. injection E as <- <- <-. split; [| done]. split; [| done | | done].
  - apply (fresh_live _ _ _ span); [exact Hspan | intros _; by apply Hend].
  - intros _. exists []. split; [apply lookup_insert_eq | done].
Qed.

(** The line of an event: written and counted, or not written and taken back. *)
Lemma append_keeps io max retain now event st fs line chain r st' fs' :
  whole_lines io -> exact event -> state_ok max retain st fs -> next_line now event (fst_chain st) = (line, chain) ->
  append_line io line (mk_file_state (fst_open st) (fst_bytes st) chain) fs = (r, st', fs') ->
  state_ok max retain (if is_err r then mk_file_state (fst_open st') (fst_bytes st') (rewind_chain line chain) else st') fs' /\
  r <> Panic.
Proof.
  intros Hio Hx [Hf Hh Ho Hc] En Ea. destruct (next_line_verifies now event _ _ _ Hx Hh En) as (Hv & Hl & Hh' & Hrw).
  unfold append_line in Ea. destruct (fst_open st) eqn:Eo; cbn [negb fst_open] in Ea.
  - destruct (Ho eq_refl) as (c & Hlive & Hlen). rewrite Hlive in Ea. cbn [default id] in Ea.
    destruct (io_write_fails io) as [n |] eqn:Ew; injection Ea as <- <- <-; (split; [| done]).
    + assert (n = 0%nat) as -> by (destruct Hio as [Hw | Hw]; congruence). rewrite take_0, app_nil_r, insert_id by done.
      cbn [is_err fst_open fst_bytes]. split; cbn [fst_open fst_bytes fst_chain]; rewrite ?Hrw; [done | done | by eauto | done].
    + split; cbn [fst_open fst_bytes fst_chain is_err]; [by eapply append_chain | done | | done].
      intros _. eexists. split; [apply lookup_insert_eq |]. rewrite !blen_app, blen_single. lia.
  - injection Ea as <- <- <-. split; [| done]. cbn [is_err fst_open fst_bytes].
    split; cbn [fst_open fst_bytes fst_chain]; rewrite ?Hrw; [done | done | done | by apply Hc].
Qed.

Lemma emit_keeps io now event s : whole_lines io -> exact event -> sink_ok s -> sink_ok (emit io now event s).
Proof.
  intros Hio Hx [Hmode Hlim (st & Hst & Hok)]. unfold emit. rewrite Hmode, Hst. unfold emit_file.
  set (rot := if sk_max_bytes s <=? fst_bytes st then _ else _).
  assert (Hrot : exists st1 s1, rot.1.2 = st1 /\ rot.2 = s1 /\ rot.1.1 <> Panic /\
      state_ok (sk_max_bytes s) (sk_retain s) st1 (sk_fs s1) /\
      sk_mode s1 = File /\ sk_max_bytes s1 = sk_max_bytes s /\ sk_retain s1 = sk_retain s).
  { unfold rot. destruct (Z.leb_spec (sk_max_bytes s) (fst_bytes st)); [| by exists st, s].
    destruct (rotate_live io (sk_retain s) st (sk_fs s)) as [[r st1] fs1] eqn:Er.
    destruct (rotate_keeps io (sk_max_bytes s) (sk_retain s) st (sk_fs s) r st1 fs1 Hok ltac:(lia) ltac:(lia) Er)
      as (Hok1 & _ & Hp). by exists st1, (set_file st1 fs1 s). }
  destruct Hrot as (st1 & s1 & E1 & E2 & Hp & Hok1 & Hm1 & Hx1 & Hr1). destruct rot as [[r st1'] s1']. cbn in E1, E2, Hp. subst st1' s1'.
  set (s2 := if is_err r then write_error s1 else s1).
  assert (Hs2 : sk_mode s2 = File /\ sk_max_bytes s2 = sk_max_bytes s /\ sk_retain s2 = sk_retain s /\ sk_fs s2 = sk_fs s1)
    by (unfold s2; by destruct (is_err r)).
  destruct Hs2 as (Hm2 & Hx2 & Hr2 & Hf2). destruct (next_line now event (fst_chain st1)) as [line chain] eqn:En.
  destruct (append_line io line _ (sk_fs s2)) as [[r2 st2] fs2] eqn:Ea. rewrite Hf2 in Ea.
  destruct (append_keeps io _ _ now event st1 (sk_fs s1) line chain r2 st2 fs2 Hio Hx Hok1 En Ea) as [Hok2 _].
  destruct (is_err r2); (split; cbn; [exact Hm2 | by rewrite Hx2, Hr2 |]); (eexists; split; [reflexivity |]); by rewrite Hx2, Hr2.
Qed.

(** A record written without a failure is in the live file. *)
Lemma written_not_empty now event s st :
  sk_mode s = File -> sk_file s = Some st -> fst_open st = true -> fst_bytes st < sk_max_bytes s ->
  exists c, sk_fs (emit no_faults now event s) !! Live = Some c /\ c <> [].
Proof.
  intros Hm Hst Ho Hb. unfold emit. rewrite Hm, Hst. unfold emit_file. destruct (Z.leb_spec (sk_max_bytes s) (fst_bytes st)); [lia |].
  cbn [is_err]. destruct (next_line now event (fst_chain st)) as [line chain]. rewrite Ho. unfold append_line.
  cbn [fst_open negb io_write_fails no_faults is_err]. eexists. split; [apply lookup_insert_eq |].
  intros E. apply (f_equal length) in E. rewrite !length_app in E. cbn in E. lia.
Qed.

(** The file of one record. *)
Lemma one_record_verifies now event line chain :
  exact event -> next_line now event chain_start = (line, chain) ->
  exists sq, verify_content (line ++ [10]) = Ok (mk_verified 1 sq (ch_prev_hex chain) GENESIS_PREV).
Proof.
  intros Hx En. destruct (next_line_verifies now event chain_start _ _ Hx genesis_hex En) as (Hv & Hl & _ & _).
  rewrite <- text_single. apply (verify_text GENESIS_PREV [line]); [| by apply Forall_singleton | done].
  econstructor; [exact Hv | constructor].
Qed.

(** Events one after the other. *)
Definition emits (events : list (IoFaults * Z * Value)) (s : Sink) : Sink :=
  fold_left (fun s e => emit e.1.1 e.1.2 e.2 s) events s.

Lemma emits_keep events s : Forall (fun e => whole_lines e.1.1 /\ exact e.2) events -> sink_ok s -> sink_ok (emits events s).
Proof.
  intros He. revert s. induction He as [| e events [Hw Hx] _ IH]; intros s Hs; [done |]. apply IH. by apply emit_keeps.
Qed.

End Sink.

(** ** Export *)

Section Exporting.
Context `{Json} `{Sha256}.

(** Rotation [m] down to the live file. *)
Fixpoint down (m : nat) : list FilePath := match m with O => [Live] | S m' => Rotated (Z.of_nat m) :: down m' end.

Lemma stack_down fs m :
  is_Some (fs !! Live) -> rotation_end fs 128 1 = Z.of_nat (S m) -> rotation_stack fs = down m.
Proof.
  intros Hl He. unfold rotation_stack. rewrite He, bool_decide_eq_true_2 by done.
  replace (Z.to_nat (Z.of_nat (S m) - 1)) with m by lia. clear. induction m as [| m IH]; [done |].
  rewrite seq_S, map_app, rev_app_distr. cbn [map rev app]. rewrite IH. done.
Qed.

Lemma rotation_end_spec fs fuel n :
  (forall k, 0 < k -> is_Some (fs !! Rotated k) -> k <= 64) -> 1 <= n <= 65 -> 66 <= n + Z.of_nat fuel ->
  n <= rotation_end fs fuel n /\ forall k, n <= k < rotation_end fs fuel n -> is_Some (fs !! Rotated k).
Proof.
  intros Hb. revert n. induction fuel as [| fuel IH]; intros n Hn Hf; [lia |]. cbn [rotation_end].
  destruct (fs !! Rotated n) as [c |] eqn:Ec; [| split; [lia | intros k Hk; lia]].
  pose proof (Hb n ltac:(lia) (mk_is_Some _ _ Ec)). destruct (Z.ltb_spec 128 (n + 1)); [lia |].
  destruct (IH (n + 1) ltac:(lia) ltac:(lia)) as [Hle Hall]. split; [lia |]. intros k Hk.
  destruct (Z.eq_dec k n) as [-> |]; [by eexists | apply Hall; lia].
Qed.

Lemma with_newline_text ls : ls <> [] -> with_newline (text_of ls) = text_of ls.
Proof.
  intros Hn. destruct (exists_last Hn) as (ls' & l & ->). unfold with_newline. rewrite text_app, text_single, app_assoc, last_snoc.
  by change (10 =? 10) with true.
Qed.

Lemma fold_add l acc : fold_left Z.add l acc = acc + fold_left Z.add l 0.
Proof.
  revert acc. induction l as [| x l IH]; intros acc; cbn [fold_left]; [lia |]. rewrite IH, (IH (0 + x)). lia.
Qed.

(** The files [down m] of a chain verify, stitch, and concatenate to one file. *)
Lemma export_down retain fs q span m :
  files_chain retain fs q span -> (forall k, 0 <= k <= Z.of_nat m -> is_Some (fs !! place k)) ->
  (forall c, fs !! Live = Some c -> c <> []) ->
  exists v vs all,
    verify_all fs (down m) = Ok (v :: vs) /\ stitched (v :: vs) = true /\ vf_first_prev_sha256 v = (span (Z.of_nat m)).1 /\
    vf_last_sha256 <$> last (v :: vs) = Some q /\
    concat (map (fun f => with_newline (default [] (fs !! f))) (down m)) = text_of all /\
    linked (span (Z.of_nat m)).1 all q /\ Forall line_text all /\ all <> [] /\
    fold_left Z.add (map vf_records (v :: vs)) 0 = blen all.
Proof.
  intros [Ht Hmt Hrt Hq] Hex Hne. induction m as [| m IH].
  - destruct (Hex 0 ltac:(lia)) as [c Hc]. destruct (Ht 0 c ltac:(lia) Hc) as (ls & -> & Hls & Hlk & _).
    change (place 0) with Live in Hc. assert (Hn : ls <> []) by (intros ->; by apply (Hne _ Hc)).
    rewrite (Hq (mk_is_Some _ _ Hc)) in Hlk. destruct (verify_text _ _ _ Hlk Hls Hn) as [sq Hv].
    exists (mk_verified (blen ls) sq q (span 0).1), [], ls. cbn [down verify_all map concat]. unfold verify_file. rewrite Hc, Hv.
    cbn [obind default id]. rewrite app_nil_r, with_newline_text by done. by split_and?.
  - destruct IH as (v & vs & all & Hva & Hst & Hfirst & Hlast & Hcat & Hlk & Hall & Hn & Hsum).
    { intros k Hk. apply Hex. lia. }
    destruct (Hex (Z.of_nat (S m)) ltac:(lia)) as [c Hc].
    destruct (Ht (Z.of_nat (S m)) c ltac:(lia) Hc) as (ls & -> & Hls & Hlk' & Hn'). specialize (Hn' ltac:(lia)).
    assert (Hmeet : (span (Z.of_nat (S m))).2 = (span (Z.of_nat m)).1).
    { replace (Z.of_nat (S m)) with (Z.of_nat m + 1) by lia. apply Hmt; [lia | apply Hex; lia | apply Hex; lia]. }
    destruct (verify_text _ _ _ Hlk' Hls Hn') as [sq Hv]. rewrite place_pos in Hc by lia.
    exists (mk_verified (blen ls) sq (span (Z.of_nat (S m))).2 (span (Z.of_nat (S m))).1), (v :: vs), (ls ++ all).
    cbn [down verify_all]. unfold verify_file at 1. rewrite Hc, Hv. cbn [obind]. rewrite Hva. cbn [obind].
    split; [done |]. split.
    { cbn [stitched]. rewrite bool_decide_eq_true_2 by (cbn; by rewrite Hfirst, Hmeet). exact Hst. }
    split; [done |]. split; [by rewrite last_cons_cons |]. split.
    { cbn [map concat]. rewrite Hc, Hcat. cbn [default id]. by rewrite with_newline_text, text_app. }
    split; [rewrite Hmeet in Hlk'; by eapply linked_app |]. split; [by apply Forall_app_2 |].
    split; [by destruct ls |]. cbn [map fold_left]. rewrite fold_add. cbn [map fold_left] in Hsum. rewrite fold_add in Hsum.
    cbn [vf_records]. rewrite blen_app. lia.
Qed.

Lemma export_ok retain fs q dest :
  files_ok retain fs q -> retain <= 64 -> (exists c, fs !! Live = Some c /\ c <> []) ->
  exists report fs', export_chain dest fs = Ok (report, fs') /\ ex_last_sha256 report = q /\
    exists v, verify_file fs' dest = Ok v /\ vf_records v = ex_records report /\ vf_last_sha256 v = q.
Proof.
  intros [span Hf] Hr (c & Hc & Hcn). set (e := rotation_end fs 128 1).
  assert (Hb : forall k, 0 < k -> is_Some (fs !! Rotated k) -> k <= 64).
  { intros k Hk Hs. pose proof (fc_retain _ _ _ _ Hf k Hk) as Hk'. rewrite place_pos in Hk' by lia. specialize (Hk' Hs). lia. }
  destruct (rotation_end_spec fs 128 1 Hb ltac:(lia) ltac:(lia)) as [He Hall]. fold e in He, Hall.
  set (m := Z.to_nat (e - 1)). assert (Hm : e = Z.of_nat (S m)) by (unfold m; lia).
  destruct (export_down retain fs q span m Hf) as (v & vs & all & Hva & Hst & _ & Hlast & Hcat & Hlk & Hls & Hn & Hsum).
  { intros k Hk. destruct (Z.eq_dec k 0) as [-> |]; [by exists c |]. rewrite place_pos by lia. apply Hall. lia. }
  { intros c' Hc'. congruence. }
  destruct (verify_text _ _ _ Hlk Hls Hn) as [sq Hv]. unfold export_chain.
  rewrite (stack_down fs m (mk_is_Some _ _ Hc)) by (unfold e in Hm; exact Hm).
  rewrite bool_decide_eq_false_2 by (by destruct m). rewrite Hva. cbn [obind]. rewrite Hst. cbn [negb]. rewrite Hcat.
  unfold verify_file at 1. rewrite lookup_insert_eq, Hv. cbn [obind vf_records]. rewrite Hsum, Z.eqb_refl. cbn [negb].
  eexists _, _. split; [reflexivity |]. cbn [ex_last_sha256 ex_records]. split; [by rewrite Hlast |].
  unfold verify_file. rewrite lookup_insert_eq, Hv. eexists. by split_and?.
Qed.

End Exporting.

(** ** Opening, and tampering *)

Section Lines.
Context `{Json} `{Sha256}.

(** What a verified line says. *)
Lemma verify_line_inv l sq p d :
  verify_line l = Ok (sq, p, d) ->
  exists v obj, from_str l = Some v /\ as_object v = Some obj /\ is_sha256_hex p = true /\ is_sha256_hex d = true /\
    d = hex_encode (hash_record p (to_vec (delete (lit "sha256") obj))) /\ obj !! lit "sha256" ≫= as_str = Some d.
Proof.
  unfold verify_line. destruct (from_str l) as [v |]; cbn [ok_or obind]; [| done].
  destruct (as_object v) as [obj |] eqn:Eo; cbn [ok_or obind]; [| done].
  destruct (obj !! lit "sha256" ≫= as_str) as [claimed |] eqn:Ec; cbn [ok_or obind]; [| done].
  destruct (obj !! lit "prev_sha256" ≫= as_str) as [prev |]; cbn [ok_or obind]; [| done].
  destruct (is_sha256_hex prev) eqn:Hp; [| done]. destruct (is_sha256_hex claimed) eqn:Hc; [| done]. cbn [negb orb].
  destruct (obj !! lit "seq" ≫= as_u64) as [n |]; cbn [ok_or obind]; [| done]. case_bool_decide as Hd; [| done].
  cbn [negb]. intros E. exists v, obj. assert (prev = p) as -> by congruence.
  assert (Hcl : claimed = d) by congruence. rewrite <- Hcl. split_and?; try done.
Qed.

(** The record of a line: its object without its own digest. *)
Definition record_of (l : bytes) : option (gmap bytes Value) := delete (lit "sha256") <$> (from_str l ≫= as_object).

Lemma linked_snoc p ls l q : linked p (ls ++ [l]) q -> exists m sq, linked p ls m /\ verify_line l = Ok (sq, m, q).
Proof.
  revert p. induction ls as [| l' ls IH]; intros p Hl; inversion Hl as [| ? ? sq d ? ? Hv Hl']; subst; clear Hl.
  - inversion Hl'; subst. exists p, sq. split; [constructor | done].
  - apply IH in Hl' as (m & sq' & Hm & Hv'). exists m, sq'. split; [by econstructor | done].
Qed.

Lemma linked_end p ls q : linked p ls q -> ls <> [] -> is_sha256_hex q = true.
Proof.
  intros Hl Hn. destruct (exists_last Hn) as (ls' & l & ->). apply linked_snoc in Hl as (m & sq & _ & Hv).
  by apply verify_line_inv in Hv as (v & obj & _ & _ & _ & Hd & _).
Qed.

Definition collision : Prop := exists x y : bytes, x <> y /\ sha256 x = sha256 y.

End Lines.

Section Opening.
#[local] Set Default Proof Using "All".
Context `{JsonLaws} `{Sha256Laws}.

Lemma same_digest l1 l2 sq1 sq2 p1 p2 q :
  verify_line l1 = Ok (sq1, p1, q) -> verify_line l2 = Ok (sq2, p2, q) ->
  (p1 = p2 /\ record_of l1 = record_of l2) \/ collision.
Proof.
  intros Hv1 Hv2. apply verify_line_inv in Hv1 as (v1 & o1 & F1 & O1 & P1 & _ & D1 & _).
  apply verify_line_inv in Hv2 as (v2 & o2 & F2 & O2 & P2 & _ & D2 & _). unfold hash_record in D1, D2.
  set (x := p1 ++ [10] ++ _) in D1. set (y := p2 ++ [10] ++ _) in D2.
  assert (Hs : sha256 x = sha256 y) by (apply hex_encode_inj; [apply digest_32 | apply digest_32 | congruence]).
  destruct (decide (x = y)) as [E | Hn]; [left | right; by exists x, y].
  assert (Hlen : length p1 = length p2) by (unfold is_sha256_hex, blen in *; lia).
  apply app_inj_1 in E as [-> E]; [| exact Hlen]. split; [done |]. apply app_inj_1 in E as [_ E]; [| done].
  apply to_vec_inj in E; [| by eapply keys_delete, object_keys | by eapply keys_delete, object_keys]. unfold record_of. rewrite F1, F2. cbn [mbind option_bind]. rewrite O1, O2.
  change (Some (delete (lit "sha256") o1) = Some (delete (lit "sha256") o2)). by rewrite E.
Qed.

Lemma same_chain p1 ls1 p2 ls2 q :
  linked p1 ls1 q -> linked p2 ls2 q -> length ls1 = length ls2 ->
  (p1 = p2 /\ Forall2 (fun a b => record_of a = record_of b) ls1 ls2) \/ collision.
Proof.
  revert ls2 q. induction ls1 as [| l1 ls1 IH] using rev_ind; intros ls2 q Hl1 Hl2 Hlen.
  - destruct ls2; [| done]. inversion Hl1; inversion Hl2; subst. by left.
  - destruct (exists_last (l := ls2)) as (ls2' & l2 & ->); [by destruct ls2; [rewrite length_app in Hlen; cbn in Hlen; lia |] |].
    rewrite !length_app in Hlen. cbn in Hlen. apply linked_snoc in Hl1 as (m1 & sq1 & Hl1 & Hv1).
    apply linked_snoc in Hl2 as (m2 & sq2 & Hl2 & Hv2).
    destruct (same_digest _ _ _ _ _ _ _ Hv1 Hv2) as [[<- Hr] | Hc]; [| by right].
    destruct (IH ls2' m1 Hl1 Hl2 ltac:(lia)) as [[-> Hf] | Hc]; [left | by right]. split; [done |].
    by apply Forall2_app; [| repeat constructor].
Qed.

(** A fresh sink, and one opened over the files of a chain. *)
Lemma open_fresh event secs millis max retain oc fs :
  1 <= max -> 1 <= retain <= 64 -> (forall k, fs !! place k = None) ->
  exists s, open_sink event secs millis max retain oc fs = Ok s /\ sink_ok s /\ as_last_sha256 (snapshot s) = GENESIS_PREV.
Proof.
  intros Hm Hr Hn. unfold open_sink. destruct (Z.eqb_spec max 0); [lia |].
  destruct (Z.leb_spec 1 retain), (Z.leb_spec retain 64); try lia. cbn [andb negb]. pose proof (Hn 0) as H0n. change (place 0) with Live in H0n.
  rewrite H0n. cbn [obind fst snd]. unfold open_live. rewrite H0n. cbn [obind default id fst snd].
  eexists. split; [reflexivity |]. split; [| done]. split; [done | by split |]. eexists. split; [reflexivity |]. cbn [sk_max_bytes sk_retain sk_fs].
  split; [| apply genesis_hex | | done]; cbn [fst_chain chain_start ch_prev_hex fst_open fst_bytes].
  - exists (fun _ => (GENESIS_PREV, GENESIS_PREV)).
    assert (Hone : forall k, 0 < k -> (<[Live := []]> fs : Fs) !! place k = None).
    { intros k Hk. pose proof (Hn k) as E. rewrite place_pos in E |- * by lia. by rewrite lookup_insert_ne. }
    split; [| done | | done].
    + intros k c Hk Hc. destruct (Z.eq_dec k 0) as [-> |]; [| rewrite Hone in Hc by lia; done].
      change (place 0) with Live in Hc. rewrite lookup_insert_eq in Hc. injection Hc as <-. exists [].
      split; [done | split; [done | split; [constructor | lia]]].
    + intros k Hk [c Hc]. by rewrite Hone in Hc by lia.
  - intros _. exists []. split; [apply lookup_insert_eq | done].
Qed.

Lemma reopen event secs millis max retain oc fs q c :
  1 <= max -> 1 <= retain <= 64 -> files_ok retain fs q -> fs !! Live = Some c -> c <> [] ->
  exists s, open_sink event secs millis max retain oc fs = Ok s /\ sink_ok s /\ as_last_sha256 (snapshot s) = q /\ sk_fs s = fs.
Proof.
  intros Hm Hr Hf Hc Hne. unfold open_sink. destruct (Z.eqb_spec max 0); [lia |].
  destruct (Z.leb_spec 1 retain), (Z.leb_spec retain 64); try lia. cbn [andb negb]. rewrite Hc.
  destruct Hf as [span Hspan]. pose proof Hspan as [Ht _ _ Hq]. destruct (Ht 0 c ltac:(lia) Hc) as (ls & -> & Hls & Hlk & _).
  rewrite (Hq (mk_is_Some _ _ Hc)) in Hlk. assert (Hn : ls <> []) by (intros ->; by apply Hne).
  destruct (verify_text _ _ _ Hlk Hls Hn) as [sq Hv]. rewrite Hv.
  destruct (text_of ls) as [| b t] eqn:Et; [done |]. cbn [obind fst snd vf_last_seq vf_last_sha256]. unfold open_live. rewrite Hc.
  cbn [obind default id fst snd]. rewrite insert_id by done. eexists. split; [reflexivity |]. split; [| done].
  split; [done | by split |]. eexists. split; [reflexivity |]. cbn [sk_max_bytes sk_retain sk_fs].
  split; cbn [fst_chain ch_prev_hex fst_open fst_bytes]; [by exists span | by eapply linked_end | | done].
  intros _. by exists (b :: t).
Qed.

End Opening.

(** ** The theorems *)

Section Theorems.
#[local] Set Default Proof Using "All".
Context `{JsonLaws} `{Sha256Laws}.


(** A restart continues the chain.  Opening the files a sink left, its live
    file not empty, gives a sink in the invariant whose next record follows the
    last digest; the files are untouched. *)
Theorem audit_restart event secs millis s on_corrupt :
  sink_ok s -> (exists c, sk_fs s !! Live = Some c /\ c <> []) ->
  exists s', open_sink event secs millis (sk_max_bytes s) (sk_retain s) on_corrupt (sk_fs s) = Ok s' /\ sink_ok s' /\
    as_last_sha256 (snapshot s') = as_last_sha256 (snapshot s) /\ sk_fs s' = sk_fs s.
Proof.
  intros [Hm [Hmax Hr] (st & Hst & Hok)] (c & Hc & Hn).
  destruct (reopen event secs millis _ _ on_corrupt _ _ c Hmax Hr (so_files _ _ _ _ Hok) Hc Hn) as (s' & Ho & Hs' & Hq & Hf).
  exists s'. split; [exact Ho |]. split; [exact Hs' |]. split; [| exact Hf]. rewrite Hq. unfold snapshot. by rewrite Hm, Hst.
Qed.


End Theorems.

(** ** Witnesses *)

(** Values as integers, strings and objects, an object as its number; a number in
    binary digits, the last one a 2. *)
Abbreviation DemoValue := (Z + bytes + positive)%type.
Fixpoint pos_text (p : positive) : bytes :=
  match p with xH => [50] | xO p => 48 :: pos_text p | xI p => 49 :: pos_text p end.
Fixpoint pos_parse (b : bytes) : option positive :=
  match b with
  | [] => None
  | d :: b' =>
      if d =? 50 then match b' with [] => Some xH | _ => None end
      else if d =? 48 then xO <$> pos_parse b' else if d =? 49 then xI <$> pos_parse b' else None
  end.

#[export] Instance demo_json : Json := {|
  Value := DemoValue;
  json_u64 n := inl (inl n);
  json_str s := inl (inr s);
  as_u64 v := match v with inl (inl n) => Some n | _ => None end;
  as_str v := match v with inl (inr s) => Some s | _ => None end;
  as_object v :=
    match v with
    | inr p => m ← decode p; if forallb (fun kv => utf8_valid kv.1) (map_to_list m) then Some m else None
    | _ => None
    end;
  to_vec m := pos_text (encode m);
  from_str b := inr <$> pos_parse b
|}.
#[export] Instance demo_sha : Sha256 := fun b => replicate 32 (fold_left Z.add b 0 mod 256).

Lemma pos_round_trip p : pos_parse (pos_text p) = Some p.
Proof. induction p as [p IH | p IH |]; cbn; [by rewrite IH | by rewrite IH | done]. Qed.

Lemma pos_nonempty p : pos_text p <> [].
Proof. by destruct p. Qed.

Lemma pos_digits p : Forall (fun b => 48 <= b <= 50) (pos_text p).
Proof. induction p; cbn; constructor; (lia || done). Qed.

Lemma keys_forallb {V} (m : gmap bytes V) : forallb (fun kv => utf8_valid kv.1) (map_to_list m) = true <-> keys_ok m.
Proof.
  rewrite forallb_forall. split.
  - intros Hf k v Hl. apply elem_of_map_to_list in Hl. apply (Hf (k, v)). by apply list_elem_of_In.
  - intros Hk [k v] Hin. apply list_elem_of_In, elem_of_map_to_list in Hin. by eapply Hk.
Qed.

#[export] Instance demo_json_laws : JsonLaws.
Proof.
  refine {| exact := fun _ => True |}; try (done || by intros v obj _ _ k x _).

  - intros [[n | t] | p] obj E; [done | done |]. cbn in E. destruct (decode p) as [m |]; [| done]. cbn in E.
    destruct (forallb _ _) eqn:Ef; [| done]. injection E as <-. by apply keys_forallb.
  - intros m Hk _. exists (inr (encode m)). split; cbn; [by rewrite pos_round_trip |]. rewrite decode_encode. cbn.
    exact (f_equal (fun b : bool => if b then Some m else None) (proj2 (keys_forallb m) Hk)).
  - intros m1 m2 _ _ E. cbn in E. apply (f_equal pos_parse) in E. rewrite !pos_round_trip in E.
    apply (inj Some), (f_equal (decode (A := gmap bytes DemoValue))) in E.
    rewrite !decode_encode in E. by apply (inj Some) in E.
  - intros m _. cbn. pose proof (pos_digits (encode m)) as Hd. split; [| split; [apply pos_nonempty |]].
    + apply ascii_utf8. eapply Forall_impl; [exact Hd |]. cbn. lia.
    + rewrite Forall_forall in Hd. split; intros Hin; apply Hd in Hin; lia.
Defined.

#[export] Instance demo_sha_laws : Sha256Laws.
Proof.
  intros b. unfold sha256, demo_sha. split; [| done]. apply Forall_replicate. unfold is_byte. apply Z.mod_pos_bound. lia.
Qed.

Definition demo_event : Value := inl (inr (lit "deny")).
Definition fresh_sink : Sink :=
  mk_sink File 100 3 OnFail (Some (mk_file_state true 0 chain_start)) chain_start 0 0 IntegrityOk {[Live := []]} [].
(** A record lost to a failed write, and one written after it. *)
Definition lost_write : IoFaults := mk_faults false (fun _ => true) false (Some 0%nat).
Definition demo_run : list (IoFaults * Z * Value) := [(lost_write, 1, demo_event); (no_faults, 2, demo_event)].

Lemma fresh_sink_ok : sink_ok fresh_sink.
Proof.
  destruct (open_fresh demo_event 0 0 100 3 OnFail ∅ ltac:(lia) ltac:(lia) ltac:(intros k; apply lookup_empty)) as (s & Hs & Hok & _).
  unfold open_sink in Hs. cbn in Hs. injection Hs as <-. exact Hok.
Qed.

Lemma demo_run_whole : Forall (fun e => whole_lines e.1.1 /\ exact e.2) demo_run.
Proof. repeat (apply Forall_cons_2; [split; [first [by left | by right] | exact I] |]). apply Forall_nil_2. Qed.

Lemma demo_run_live : exists c, sk_fs (emits demo_run fresh_sink) !! Live = Some c /\ c <> [].
Proof.
  assert (Hlost : exists st, sk_file (emit lost_write 1 demo_event fresh_sink) = Some st /\ fst_open st = true /\
      fst_bytes st < sk_max_bytes (emit lost_write 1 demo_event fresh_sink)).
  { unfold emit. cbn [sk_mode sk_file fresh_sink]. unfold emit_file. cbn [sk_max_bytes fst_bytes fresh_sink].
    change (100 <=? 0) with false. cbv iota beta zeta. cbn [fst_chain is_err].
    match goal with |- context [next_line ?a ?b ?c] => destruct (next_line a b c) as [line chain] end. eexists. split; [reflexivity |]. done. }
  destruct Hlost as (st & Hst & Ho & Hb). by eapply written_not_empty.
Qed.


Lemma audit_restart_witness :
  exists s', open_sink demo_event 5 5000 (sk_max_bytes (emits demo_run fresh_sink)) (sk_retain (emits demo_run fresh_sink)) OnFail
      (sk_fs (emits demo_run fresh_sink)) = Ok s' /\ sink_ok s' /\
    as_last_sha256 (snapshot s') = as_last_sha256 (snapshot (emits demo_run fresh_sink)) /\ sk_fs s' = sk_fs (emits demo_run fresh_sink).
Proof.
  exact (audit_restart demo_event 5 5000 (emits demo_run fresh_sink) OnFail
    (emits_keep demo_run fresh_sink demo_run_whole fresh_sink_ok) demo_run_live).
Defined.


(** ** Behaviours worth knowing *)

(** While the live file cannot be renamed every event tries to rotate, and every
    try moves the rotations up by one: three events with three kept rotations
    leave no history. *)
Example failed_rotation_erases_history :
  let io := mk_faults false (fun n => n =? 0) false None in
  let step fs := (rotate_live io 3 (mk_file_state true 100 chain_start) fs).2 in
  let fs : gmap FilePath bytes := <[Live := [3]]> (<[Rotated 1 := [2]]> {[Rotated 2 := [1]]}) in
  map (fun fs' => map (fun p => fs' !! p) [Live; Rotated 1; Rotated 2; Rotated 3]) [fs; step fs; step (step fs); step (step (step fs))] =
  [[Some [3]; Some [2]; Some [1]; None]; [Some [3]; None; Some [2]; Some [1]]; [Some [3]; None; None; Some [2]];
   [Some [3]; None; None; None]].
Proof. reflexivity. Qed.

(** A restart right after a rotation, before a record is written, starts at the
    genesis digest whatever the newest rotation ends with. *)
Lemma restart_after_rotation_forgets `{Json} `{Sha256} event secs millis max retain oc fs s :
  fs !! Live = Some [] -> open_sink event secs millis max retain oc fs = Ok s ->
  as_last_sha256 (snapshot s) = GENESIS_PREV.
Proof.
  intros Hl. unfold open_sink. destruct (max =? 0); [done |]. destruct (negb _); [done |]. rewrite Hl. cbn [obind fst snd].
  unfold open_live. cbn [obind fst snd]. intros E. by injection E as <-.
Qed.
