(* ===== verification/Ops.v ===== *)
(** * Gateway operations

    [rclwebd/src/ops.rs], the endpoint state machine of [ws.rs] and [wt.rs], and
    [local_dev_tls.rs]: draining and the session gauge, the headers of the
    operations endpoints, and the rotation of development certificates.  JSON and
    Prometheus texts are left out; the HTTP library, key generation and the clock are
    parameters. *)

From stdpp Require Import gmap.
From S2P Require Import Prelude Policy.
#[local] Open Scope Z_scope.

(** ** Draining and sessions *)

Record OpsState := mk_ops { ops_draining : bool; ops_sessions : Z; ops_started_unix_secs : Z }.
Definition ops_new (now : Z) : OpsState := mk_ops false 0 now.
Definition is_draining (o : OpsState) : bool := ops_draining o.
Definition begin_drain (o : OpsState) : OpsState := mk_ops true (ops_sessions o) (ops_started_unix_secs o).
Definition session_count (o : OpsState) : Z := ops_sessions o.

(** [fetch_add] and [fetch_sub] wrap. *)
Definition session_guard (o : OpsState) : OpsState :=
  mk_ops (ops_draining o) (as_unsigned 64 (ops_sessions o + 1)) (ops_started_unix_secs o).
Definition drop_guard (o : OpsState) : OpsState :=
  mk_ops (ops_draining o) (as_unsigned 64 (ops_sessions o - 1)) (ops_started_unix_secs o).

(** [wait_idle]: what it reads, the sessions and the clock, every time around; how
    often it sleeps. *)
Fixpoint wait_idle (deadline : Z) (readings : list (Z * Z)) : option nat :=
  match readings with
  | [] => None
  | (sessions, now) :: rest => if (0 <? sessions) && (now <? deadline) then S <$> wait_idle deadline rest else Some 0%nat
  end.

(** ** The session endpoints *)

Inductive Reply := Upgrade | Refused (status : Z) (reason : bytes).

(** [ws_handler], and [handle_session] up to the stream. *)
Definition admit_session (transport : ActiveTransport) (o : OpsState) : Reply :=
  if is_draining o then
    match transport with BinaryWebSocket => Refused 503 (lit "draining") | WebTransportHttp3 => Refused 0 (lit "draining") end
  else Upgrade.
(** [readyz]. *)
Definition readyz_status (o : OpsState) : Z := if is_draining o then 503 else 200.

(** The process: what was admitted and has no session yet (the upgrade is under way),
    and the sessions that run. *)
Record Endpoint := mk_endpoint_state { ep_ops : OpsState; ep_admitted : list ActiveTransport; ep_running : list ActiveTransport }.
Definition endpoint_new (now : Z) : Endpoint := mk_endpoint_state (ops_new now) [] [].

Inductive OpsEvent :=
| Arrives (transport : ActiveTransport)
| Begins (index : nat)   (* the upgrade ends: [session_guard], then [run_connection] *)
| IsLost (index : nat)   (* the upgrade fails *)
| Ends (index : nat)     (* [run_connection] returns and the guard is dropped *)
| DrainRequested.

Definition remove_at {A} (i : nat) (l : list A) : list A := take i l ++ drop (S i) l.

Definition ops_step (e : Endpoint) (event : OpsEvent) : Endpoint :=
  match event with
  | Arrives t =>
      match admit_session t (ep_ops e) with
      | Upgrade => mk_endpoint_state (ep_ops e) (ep_admitted e ++ [t]) (ep_running e)
      | Refused _ _ => e
      end
  | Begins i =>
      match ep_admitted e !! i with
      | Some t => mk_endpoint_state (session_guard (ep_ops e)) (remove_at i (ep_admitted e)) (ep_running e ++ [t])
      | None => e
      end
  | IsLost i => mk_endpoint_state (ep_ops e) (remove_at i (ep_admitted e)) (ep_running e)
  | Ends i =>
      match ep_running e !! i with
      | Some _ => mk_endpoint_state (drop_guard (ep_ops e)) (ep_admitted e) (remove_at i (ep_running e))
      | None => e
      end
  | DrainRequested => mk_endpoint_state (begin_drain (ep_ops e)) (ep_admitted e) (ep_running e)
  end.
Definition ops_run (e : Endpoint) (events : list OpsEvent) : Endpoint := fold_left ops_step events e.

(** ** Headers *)

Definition cors_allow_origin (allowed : list bytes) (request_origin : option bytes) : option bytes :=
  match allowed with
  | [] => None
  | _ =>
      if existsb (text_eqb (lit "*")) allowed then Some (lit "*")
      else match request_origin with None => None | Some origin => List.find (fun o => text_eqb o origin) allowed end
  end.

(** [header_value] is [HeaderValue::from_str]. *)
Definition apply_ops_headers (header_value : bytes -> bool) (isolation_headers : bool) (cors_origins : list bytes)
    (origin : option bytes) (headers : gmap bytes bytes) : gmap bytes bytes :=
  let headers :=
    if isolation_headers then
      <[lit "cross-origin-resource-policy" := lit "same-origin"]>
        (<[lit "cross-origin-embedder-policy" := lit "require-corp"]>
           (<[lit "cross-origin-opener-policy" := lit "same-origin"]> headers))
    else headers in
  match cors_allow_origin cors_origins origin with
  | Some allow =>
      if header_value allow then <[lit "vary" := lit "Origin"]> (<[lit "access-control-allow-origin" := allow]> headers) else headers
  | None => headers
  end.

(** [maybe_spawn] and [spawn_inner], whose listener is the feature [webtransport]. *)
Definition maybe_spawn (feature offer tls : bool) : outcome bytes bool :=
  if negb offer then Ok false
  else if negb tls then Err (lit "offer_webtransport requires local_dev_tls_enabled (or future PKI material)")
  else Ok feature.

(** ** Development certificates *)

Definition MAX_LIFETIME : Z := 13 * 24 * 60 * 60.
Definition DEFAULT_LIFETIME : Z := 7 * 24 * 60 * 60.
Definition REMINT_REMAINING : Z := 24 * 60 * 60.
(** The last second of the year 9999, where [OffsetDateTime] ends. *)
Definition OFFSET_MAX : Z := 253402300799.

Record TlsAdvertisement := mk_advertisement {
  spki_sha256 : bytes; not_after_unix_secs : Z; not_before_unix_secs : Z; previous_spki_sha256 : option bytes
}.
Record LocalDevTls := mk_tls { tls_lifetime : Z; tls_remint_remaining : Z; tls_advertisement : TlsAdvertisement }.

Definition unix_to_offset (secs : Z) : outcome bytes Z :=
  if secs <=? OFFSET_MAX then Ok secs else Err (lit "unix time out of range").

(** [mint_material]: [spki] is the digest of the generated key, a failure of the
    generator or the signer its text.  [OffsetDateTime] panics where a sum leaves its
    range. *)
Definition mint_material (now lifetime : Z) (previous : option bytes) (spki : outcome bytes bytes) : outcome bytes TlsAdvertisement :=
  let lifetime := Z.min lifetime MAX_LIFETIME in
  not_before <-- unix_to_offset now ;;
  let not_after := not_before + lifetime in
  if OFFSET_MAX <? not_after then Panic
  else if MAX_LIFETIME <? not_after - not_before then Err (lit "local-dev TLS lifetime exceeds 13-day ceiling")
  else spki_sha256 <-- spki ;; Ok (mk_advertisement spki_sha256 not_after not_before previous).

Definition mint (now lifetime : Z) (spki : outcome bytes bytes) : outcome bytes LocalDevTls :=
  let lifetime := Z.min lifetime MAX_LIFETIME in
  if lifetime =? 0 then Err (lit "local-dev TLS lifetime must be > 0")
  else material <-- mint_material now lifetime None spki ;; Ok (mk_tls lifetime REMINT_REMAINING material).
Definition mint_default (now : Z) (spki : outcome bytes bytes) : outcome bytes LocalDevTls := mint now DEFAULT_LIFETIME spki.

Definition ensure_fresh_at (now : Z) (spki : outcome bytes bytes) (t : LocalDevTls) : outcome bytes (TlsAdvertisement * LocalDevTls) :=
  let current := tls_advertisement t in
  let remaining := Z.max 0 (not_after_unix_secs current - now) in
  if remaining <? tls_remint_remaining t then
    material <-- mint_material now (tls_lifetime t) (Some (spki_sha256 current)) spki ;;
    Ok (material, mk_tls (tls_lifetime t) (tls_remint_remaining t) material)
  else Ok (current, t).

(** ** Properties *)

Lemma length_remove_at {A} i (l : list A) x : l !! i = Some x -> S (length (remove_at i l)) = length l.
Proof.
  intros Hi. pose proof (lookup_lt_Some _ _ _ Hi). unfold remove_at. rewrite length_app, length_take, length_drop. lia.
Qed.
Lemma length_remove_at_le {A} i (l : list A) : (length (remove_at i l) <= length l)%nat.
Proof. unfold remove_at. rewrite length_app, length_take, length_drop. lia. Qed.

(** The gauge is the number of running sessions. *)
Definition counted (e : Endpoint) : Prop := session_count (ep_ops e) = as_unsigned 64 (Z.of_nat (length (ep_running e))).

Lemma as_unsigned_shift w n k : as_unsigned w (as_unsigned w n + k) = as_unsigned w (n + k).
Proof. unfold as_unsigned. apply Zplus_mod_idemp_l. Qed.

Lemma step_counted e event : counted e -> counted (ops_step e event).
Proof.
  unfold counted, session_count. intros Hc. destruct event as [t | i | i | i |]; cbn; try done.
  - by destruct (admit_session t (ep_ops e)).
  - destruct (ep_admitted e !! i) as [t |]; [| done]. cbn. rewrite Hc, as_unsigned_shift, length_app. cbn. f_equal. lia.
  - destruct (ep_running e !! i) as [t |] eqn:Ei; [| done]. cbn. rewrite Hc. unfold Z.sub. rewrite as_unsigned_shift. f_equal.
    apply length_remove_at in Ei. lia.
Qed.

(** What can still run. *)
Definition at_most (e : Endpoint) : nat := (length (ep_admitted e) + length (ep_running e))%nat.

Lemma step_draining e event : is_draining (ep_ops e) = true ->
  is_draining (ep_ops (ops_step e event)) = true /\ (at_most (ops_step e event) <= at_most e)%nat.
Proof.
  unfold is_draining, at_most. intros Hd. destruct event as [t | i | i | i |]; cbn.
  - unfold admit_session, is_draining. rewrite Hd. by destruct t.
  - destruct (ep_admitted e !! i) as [t |] eqn:Ei; [| done]. cbn. split; [done |]. apply length_remove_at in Ei. rewrite length_app. cbn. lia.
  - split; [done |]. pose proof (length_remove_at_le i (ep_admitted e)). lia.
  - destruct (ep_running e !! i) as [t |] eqn:Ei; [| done]. cbn. split; [done |]. apply length_remove_at in Ei. lia.
  - done.
Qed.


(** A session admitted before the drain begins after the gauge was seen at zero. *)
Example session_after_idle :
  let idle := ops_run (endpoint_new 0) [Arrives BinaryWebSocket; DrainRequested] in
  wait_idle 1000 [(session_count (ep_ops idle), 0)] = Some 0%nat /\
  session_count (ep_ops (ops_step idle (Begins 0))) = 1.
Proof. by vm_compute. Qed.

(** Waiting ends at the deadline, if every sleep takes its 50 ms. *)
Lemma wait_idle_ends deadline readings start : (forall i r, readings !! i = Some r -> start + 50 * Z.of_nat i <= r.2) ->
  readings <> [] -> deadline <= start + 50 * (Z.of_nat (length readings) - 1) -> is_Some (wait_idle deadline readings).
Proof.
  revert start. induction readings as [| [sessions now] rest IH]; intros start Hr Hne Hl; [done |]. cbn [length wait_idle] in *.
  pose proof (Hr 0%nat _ eq_refl) as H0. cbn in H0. destruct ((0 <? sessions) && (now <? deadline)) eqn:E; [| by eexists].
  apply andb_prop in E as [_ Hn%Z.ltb_lt]. destruct rest as [| r rest]; [cbn in Hl; lia |].
  destruct (IH (start + 50)) as [n Hn']; [| done | cbn [length] in *; lia | rewrite Hn'; by eexists].
  intros i x Hx. specialize (Hr (S i) x Hx). lia.
Qed.

(** *** Certificates *)

(** The calls that succeeded since the first certificate. *)
Inductive tls_after (t0 : LocalDevTls) : LocalDevTls -> Prop :=
| tls_minted : tls_after t0 t0
| tls_called t now spki adv t' : tls_after t0 t -> ensure_fresh_at now spki t = Ok (adv, t') -> tls_after t0 t'.

Record tls_ok (t : LocalDevTls) : Prop := {
  tls_lifetime_ok : 0 <= tls_lifetime t <= MAX_LIFETIME;
  tls_window : let a := tls_advertisement t in not_after_unix_secs a - not_before_unix_secs a = tls_lifetime t;
  tls_remint : tls_remint_remaining t = REMINT_REMAINING
}.

Lemma minted_material now lifetime previous spki a : mint_material now lifetime previous spki = Ok a ->
  not_before_unix_secs a = now /\ not_after_unix_secs a = now + Z.min lifetime MAX_LIFETIME /\ previous_spki_sha256 a = previous.
Proof.
  unfold mint_material, unix_to_offset. destruct (now <=? OFFSET_MAX); [| done]. cbn [obind].
  destruct (OFFSET_MAX <? _); [done |]. destruct (MAX_LIFETIME <? _); [done |]. destruct spki as [h | e |]; [| done | done].
  cbn. intros E. injection E as <-. done.
Qed.

Lemma mint_ok now lifetime spki t : 0 <= lifetime -> mint now lifetime spki = Ok t -> tls_ok t.
Proof.
  intros Hl. unfold mint. destruct (_ =? 0); [done |]. destruct (mint_material _ _ _ _) as [a | e |] eqn:Em; [| done | done].
  cbn. intros E. injection E as <-. apply minted_material in Em as (Hb & Ha & _). assert (Hmax : MAX_LIFETIME = 1123200) by done.
  split; cbn [tls_lifetime tls_advertisement tls_remint_remaining]; [lia | lia | done].
Qed.

Lemma ensure_fresh_ok now spki t adv t' : tls_ok t -> ensure_fresh_at now spki t = Ok (adv, t') ->
  tls_ok t' /\ tls_lifetime t' = tls_lifetime t /\ adv = tls_advertisement t' /\
  Z.min (tls_lifetime t) REMINT_REMAINING <= not_after_unix_secs adv - now /\
  (t' = t \/ previous_spki_sha256 adv = Some (spki_sha256 (tls_advertisement t))).
Proof.
  intros [Hl Hw Hr]. unfold ensure_fresh_at. cbv zeta. destruct (Z.ltb_spec (Z.max 0 (not_after_unix_secs (tls_advertisement t) - now)) (tls_remint_remaining t)) as [Hlt | Hge].
  - destruct (mint_material _ _ _ _) as [a | e |] eqn:Em; [| done | done]. cbn [obind]. intros E. injection E as <- <-.
    apply minted_material in Em as (Hb & Ha & Hp). cbn [tls_advertisement tls_lifetime]. split; [split; cbn [tls_lifetime tls_advertisement tls_remint_remaining]; [done | lia | done] |].
    split; [done | split; [done | split; [lia | by right]]].
  - intros E. injection E as <- <-. rewrite Hr in Hge. unfold REMINT_REMAINING in *. split; [done |].
    split; [done | split; [done | split; [lia | by left]]].
Qed.

Lemma tls_after_ok t0 t : tls_after t0 t -> tls_ok t0 -> tls_ok t /\ tls_lifetime t = tls_lifetime t0.
Proof.
  induction 1 as [| t now spki adv t' _ IH He]; intros Hok; [done |]. destruct (IH Hok) as [Ht Hl].
  destruct (ensure_fresh_ok _ _ _ _ _ Ht He) as (? & ? & _). split; [done | congruence].
Qed.

(** C40: A development certificate is never advertised stale or too long: whatever calls
    came before, every advertisement has at least a day to go (or its whole lifetime,
    when that is shorter), is valid for at most 13 days in all, and after a rotation
    still names the key advertised before. *)
Theorem tls_stays_fresh now0 lifetime spki0 t0 t now spki adv t' :
  0 <= lifetime -> mint now0 lifetime spki0 = Ok t0 -> tls_after t0 t -> ensure_fresh_at now spki t = Ok (adv, t') ->
  Z.min (tls_lifetime t0) REMINT_REMAINING <= not_after_unix_secs adv - now /\
  0 <= not_after_unix_secs adv - not_before_unix_secs adv <= MAX_LIFETIME /\
  (adv = tls_advertisement t \/ previous_spki_sha256 adv = Some (spki_sha256 (tls_advertisement t))).
Proof.
  intros Hl Hm Ha He. destruct (tls_after_ok _ _ Ha (mint_ok _ _ _ _ Hl Hm)) as [Hok Ht].
  destruct (ensure_fresh_ok _ _ _ _ _ Hok He) as ([Hlt Hw _] & Hlt' & -> & Hmin & Hprev).
  rewrite <- Ht. split; [done |]. cbv zeta in Hw. split; [lia |]. destruct Hprev as [-> | ?]; [by left | by right].
Qed.

Lemma tls_stays_fresh_witness :
  let day := 24 * 60 * 60 in
  exists t0 adv t', mint_default 0 (Ok [1]) = Ok t0 /\ ensure_fresh_at (6 * day + 1) (Ok [2]) t0 = Ok (adv, t') /\
    Z.min (tls_lifetime t0) REMINT_REMAINING <= not_after_unix_secs adv - (6 * day + 1) /\
    0 <= not_after_unix_secs adv - not_before_unix_secs adv <= MAX_LIFETIME /\
    (adv = tls_advertisement t0 \/ previous_spki_sha256 adv = Some (spki_sha256 (tls_advertisement t0))).
Proof.
  intros day. eexists _, _, _. split; [reflexivity |]. split; [reflexivity |].
  eapply (tls_stays_fresh 0 DEFAULT_LIFETIME (Ok [1]) _ _ (6 * day + 1) (Ok [2])); [by vm_compute | reflexivity | apply tls_minted | reflexivity].
Defined.

(** [serve_webtransport] serves the certificate of its start, whatever is advertised:
    after two rotations the hash of the key it serves is not among those advertised. *)
Example served_key_no_longer_advertised :
  let day := 24 * 60 * 60 in
  (first <-- mint_default 0 (Ok [1]) ;; second <-- ensure_fresh_at (6 * day + 1) (Ok [2]) first ;;
   third <-- ensure_fresh_at (12 * day + 2) (Ok [3]) second.2 ;;
   Ok (spki_sha256 (tls_advertisement first), spki_sha256 third.1, previous_spki_sha256 third.1,
       not_after_unix_secs (tls_advertisement first) <? 12 * day + 2)) = Ok ([1], [3], Some [2], true).
Proof. by vm_compute. Qed.

(** A header of CORS names the asking origin, when it is allowed, or every origin. *)
Lemma cors_sound allowed origin v : cors_allow_origin allowed origin = Some v ->
  (v = lit "*" /\ lit "*" ∈ allowed) \/ (origin = Some v /\ v ∈ allowed).
Proof.
  unfold cors_allow_origin. destruct allowed as [| a allowed]; [done |]. set (l := a :: allowed).
  destruct (existsb (text_eqb (lit "*")) l) eqn:E.
  - intros Ev. injection Ev as <-. left. split; [done |]. apply existsb_exists in E as (x & Hx & Ex).
    apply text_eqb_spec in Ex as <-. by apply list_elem_of_In.
  - destruct origin as [o |]; [| done]. intros Hf%find_some. destruct Hf as [Hin Ho]. right.
    apply text_eqb_spec in Ho as ->. split; [done |]. by apply list_elem_of_In.
Qed.
