(* ===== verification/Transports.v ===== *)
(** * Transports

    The [Transport] of [rclwebd/src/ws.rs] over WebSocket messages, and that of
    [rclwebd/src/wt.rs] over the bytes of a WebTransport stream, where every message
    is preceded by its length.  Sockets and streams are what arrives on them; a
    failed write ends the connection and is left out. *)

From S2P Require Import Prelude.
#[local] Open Scope Z_scope.

(** What [recv] answers: nothing more, a message, or an error with its reason. *)
Abbreviation Received := (option (bytes + bytes)).

(** ** WebSocket *)

Inductive WsMessage := WsBinary (b : bytes) | WsText | WsPing | WsPong | WsClose | WsFailed (reason : bytes).

(** [WsTransport::recv] and what it leaves. *)
Fixpoint ws_recv (incoming : list WsMessage) : Received * list WsMessage :=
  match incoming with
  | [] => (None, [])
  | WsBinary b :: rest => (Some (inl b), rest)
  | WsText :: rest => (Some (inr (lit "text_message_on_binary_transport")), rest)
  | (WsPing | WsPong) :: rest => ws_recv rest
  | WsClose :: rest => (None, rest)
  | WsFailed reason :: rest => (Some (inr reason), rest)
  end.

(** ** WebTransport *)

(** Protocol message ceiling and framing headroom. *)
Definition WT_MAX : Z := 67108864 + 4096.

Section Stream.
(** The reason of a read that the end of the stream cuts short. *)
Variable read_error : bytes.

Definition wt_recv (stream : bytes) : Received * bytes :=
  if blen stream <? 4 then (None, [])
  else
    let len := of_be (take 4 stream) in
    let rest := drop 4 stream in
    if WT_MAX <? len then (Some (inr (lit "wt_frame_too_large")), rest)
    else if blen rest <? len then (Some (inr read_error), [])
    else (Some (inl (take (Z.to_nat len) rest)), drop (Z.to_nat len) rest).

(** What [run_connection] sees of a stream: messages until the end or an error. *)
Fixpoint wt_messages (fuel : nat) (stream : bytes) : outcome Empty_set (list bytes * option bytes) :=
  match fuel with
  | O => Panic
  | S fuel =>
      match wt_recv stream with
      | (None, _) => Ok ([], None)
      | (Some (inr reason), _) => Ok ([], Some reason)
      | (Some (inl m), rest) => r <-- wt_messages fuel rest ;; Ok (m :: r.1, r.2)
      end
  end.
End Stream.

(** [send]: the bytes written. *)
Definition wt_send (m : bytes) : outcome bytes bytes :=
  if blen m <=? u32_max then Ok (to_be 4 (blen m) ++ m) else Err (lit "wt_frame_len_overflow").
Fixpoint wt_sent (ms : list bytes) : outcome bytes bytes :=
  match ms with [] => Ok [] | m :: ms => b <-- wt_send m ;; bs <-- wt_sent ms ;; Ok (b ++ bs) end.

(** ** Properties *)

Section Properties.
Variable read_error : bytes.

Lemma take_be n v s : take n (to_be n v ++ s) = to_be n v.
Proof. apply take_app_length'. pose proof (blen_to_be n v). unfold blen in *. lia. Qed.
Lemma drop_be n v s : drop n (to_be n v ++ s) = s.
Proof. apply drop_app_length'. pose proof (blen_to_be n v). unfold blen in *. lia. Qed.

(** A message that is there is taken, whatever follows. *)
Lemma wt_recv_message m rest : blen m <= WT_MAX ->
  wt_recv read_error (to_be 4 (blen m) ++ m ++ rest) = (Some (inl m), rest).
Proof.
  intros Hm. unfold wt_recv. rewrite take_be, drop_be. pose proof (blen_nonneg m). pose proof (blen_nonneg rest).
  rewrite of_be_to_be by (change (256 ^ Z.of_nat 4) with 4294967296; unfold WT_MAX in *; lia).
  rewrite !blen_app, blen_to_be. change (Z.of_nat 4) with 4.
  destruct (Z.ltb_spec (4 + (blen m + blen rest)) 4); [lia |]. destruct (Z.ltb_spec WT_MAX (blen m)); [lia |].
  destruct (Z.ltb_spec (blen m + blen rest) (blen m)); [lia |].
  assert (Hl : Z.to_nat (blen m) = length m) by (unfold blen; lia). rewrite Hl, take_app_length, drop_app_length. done.
Qed.

(** A message cut short is no message. *)
Lemma wt_recv_cut m rest k : blen m <= WT_MAX -> (k < 4 + length m)%nat ->
  exists e, wt_recv read_error (take k (to_be 4 (blen m) ++ m ++ rest)) = (e, []) /\ (e = None \/ e = Some (inr read_error)).
Proof.
  intros Hm Hk. unfold wt_recv. pose proof (blen_nonneg m). assert (H4 : length (to_be 4 (blen m)) = 4%nat) by (pose proof (blen_to_be 4 (blen m)); unfold blen in *; lia).
  destruct (Nat.lt_ge_cases k 4) as [Hs | Hs].
  - assert (Hb : blen (take k (to_be 4 (blen m) ++ m ++ rest)) < 4) by (unfold blen; rewrite length_take; lia).
    apply Z.ltb_lt in Hb as ->. eexists. split; [done | by left].
  - rewrite take_app_ge by lia. rewrite H4, take_be, drop_be.
    rewrite of_be_to_be by (change (256 ^ Z.of_nat 4) with 4294967296; unfold WT_MAX in *; lia).
    rewrite blen_app, blen_to_be. pose proof (blen_nonneg (take (k - 4) (m ++ rest))).
    destruct (Z.ltb_spec (Z.of_nat 4 + blen (take (k - 4) (m ++ rest))) 4); [lia |]. destruct (Z.ltb_spec WT_MAX (blen m)); [lia |].
    assert (Hb : blen (take (k - 4) (m ++ rest)) < blen m) by (unfold blen; rewrite length_take; lia).
    apply Z.ltb_lt in Hb as ->. eexists. split; [done | by right].
Qed.

Lemma wt_sent_ok ms : Forall (fun m => blen m <= WT_MAX) ms ->
  wt_sent ms = Ok (concat (map (fun m => to_be 4 (blen m) ++ m) ms)).
Proof.
  induction 1 as [| m ms Hm _ IH]; [done |]. cbn [wt_sent map concat]. unfold wt_send.
  destruct (Z.leb_spec (blen m) u32_max); [| unfold WT_MAX, u32_max in *; lia]. rewrite IH. done.
Qed.

Lemma wt_messages_cut ms : Forall (fun m => blen m <= WT_MAX) ms ->
  let stream := concat (map (fun m => to_be 4 (blen m) ++ m) ms) in
  forall fuel k, (k < fuel)%nat -> exists whole e, wt_messages read_error fuel (take k stream) = Ok (whole, e) /\ whole `prefix_of` ms /\
    ((length stream <= k)%nat -> whole = ms /\ e = None).
Proof.
  induction 1 as [| m ms Hm _ IH]; intros stream fuel k Hk; (destruct fuel as [| fuel]; [lia |]); cbn [wt_messages].
  - exists [], None. unfold stream. cbn [map concat]. rewrite take_nil. done.
  - unfold stream. cbn [map concat]. rewrite <- app_assoc. set (s := concat _) in *.
    assert (H4 : length (to_be 4 (blen m)) = 4%nat) by (pose proof (blen_to_be 4 (blen m)); unfold blen in *; lia).
    destruct (Nat.lt_ge_cases k (4 + length m)) as [Hc | Hc].
    + destruct (wt_recv_cut m s k Hm Hc) as (e & -> & He).
      assert (Hlong : ~ (length (to_be 4 (blen m) ++ m ++ s) <= k)%nat) by (rewrite !length_app, H4; lia).
      destruct He as [-> | ->]; eexists [], _; (split; [done | split; [apply prefix_nil | done]]).
    + replace (take k (to_be 4 (blen m) ++ m ++ s)) with (to_be 4 (blen m) ++ m ++ take (k - 4 - length m) s).
      2: { rewrite take_app_ge by lia. rewrite H4, take_app_ge by lia. done. }
      rewrite wt_recv_message by done. destruct (IH fuel (k - 4 - length m)%nat ltac:(lia)) as (whole & e & E & Hp & Hall).
      fold s in E. rewrite E. cbn. exists (m :: whole), e. split; [done |]. split; [by apply prefix_cons |].
      rewrite length_app. intros Hl. destruct Hall as [-> ->]; [lia | done].
Qed.

(** Every message takes at least four bytes, so the length of a stream bounds them. *)
Lemma wt_messages_total stream fuel : (length stream < fuel)%nat -> exists ms e, wt_messages read_error fuel stream = Ok (ms, e).
Proof.
  revert stream. induction fuel as [| fuel IH]; intros stream Hf; [lia |]. cbn [wt_messages]. unfold wt_recv.
  destruct (Z.ltb_spec (blen stream) 4) as [Hs | Hs]; [by eexists _, _ |]. set (len := of_be _).
  destruct (WT_MAX <? len); [by eexists _, _ |]. destruct (blen (drop 4 stream) <? len); [by eexists _, _ |].
  destruct (IH (drop (Z.to_nat len) (drop 4 stream))) as (ms & e & ->); [| by eexists _, _].
  rewrite !length_drop. unfold blen in Hs. lia.
Qed.

(** C32: The messages the gateway or a client writes on a WebTransport stream, each within
    the ceiling, are the messages its peer reads, in order and with nothing after them;
    and a stream that is cut anywhere yields the messages that are whole and no other.
    Reading any stream whatever comes to an end. *)
Theorem wt_round_trip ms : Forall (fun m => blen m <= WT_MAX) ms ->
  exists stream, wt_sent ms = Ok stream /\ wt_messages read_error (S (length stream)) stream = Ok (ms, None) /\
    (forall k, exists whole e, wt_messages read_error (S k) (take k stream) = Ok (whole, e) /\ whole `prefix_of` ms) /\
    (forall any, exists got e, wt_messages read_error (S (length any)) any = Ok (got, e)).
Proof.
  intros Hms. pose proof (wt_messages_cut ms Hms) as Hcut. cbv zeta in Hcut. set (stream := concat _) in Hcut. exists stream.
  split; [by apply wt_sent_ok |]. split; [| split].
  - destruct (Hcut (S (length stream)) (length stream) ltac:(lia)) as (whole & e & E & _ & Hall). rewrite take_ge in E by lia.
    rewrite E. by destruct Hall as [-> ->].
  - intros k. destruct (Hcut (S k) k ltac:(lia)) as (whole & e & E & Hp & _). by exists whole, e.
  - intros any. apply wt_messages_total. lia.
Qed.

End Properties.

Lemma wt_round_trip_witness :
  let ms := [[1; 2; 3]; []; [4]] in
  Forall (fun m => blen m <= WT_MAX) ms /\
  exists stream, wt_sent ms = Ok stream /\ wt_messages (lit "eof") (S (length stream)) stream = Ok (ms, None) /\
    (forall k, exists whole e, wt_messages (lit "eof") (S k) (take k stream) = Ok (whole, e) /\ whole `prefix_of` ms) /\
    (forall any, exists got e, wt_messages (lit "eof") (S (length any)) any = Ok (got, e)).
Proof.
  intros ms. assert (Hms : Forall (fun m => blen m <= WT_MAX) ms) by (repeat (apply Forall_cons_2; [by vm_compute |]); constructor).
  split; [exact Hms | exact (wt_round_trip (lit "eof") ms Hms)].
Defined.

(** What may be sent is more than what may be received. *)
Example sent_but_too_large :
  WT_MAX < u32_max /\ (wt_recv [] (to_be 4 (WT_MAX + 1) ++ [1; 2; 3])).1 = Some (inr (lit "wt_frame_too_large")).
Proof. by vm_compute. Qed.

(** Pings and pongs are not seen; a text message ends the connection. *)
Example ws_messages :
  ws_recv [WsPing; WsPong; WsBinary [7]; WsText] = (Some (inl [7]), [WsText]) /\
  (ws_recv [WsPing; WsText]).1 = Some (inr (lit "text_message_on_binary_transport")) /\ ws_recv [WsPong; WsClose] = (None, []).
Proof. by vm_compute. Qed.
