(* ===== verification/Backend.v ===== *)
(** * The ROS attachment boundary

    [rclwebd/src/backend.rs]: the messages a ROS backend hands to the session
    engine, the graph it reports, and the [RosBackend] trait.  The trait is a
    class: its methods are functions on a backend state, so an instance fixes
    how the ROS side answers, and [RosBackendLaws] states what the connection
    relies on. *)

From S2P Require Import Prelude Utf8 Cbor Frame Session Policy.
#[local] Open Scope Z_scope.

(** [SAMPLE_HEADER_PREFIX]. *)
Definition SAMPLE_HEADER_PREFIX : Z := FRAME_HEADER_LENGTH.

Record SubscriptionSample := mk_sample { ss_channel_id : Z; ss_frame_buf : bytes }.

(** [from_prefixed_buffer] (its [debug_assert!] panics). *)
Definition from_prefixed_buffer {E} (channel_id : Z) (frame_buf : bytes) : outcome E SubscriptionSample :=
  if SAMPLE_HEADER_PREFIX <=? blen frame_buf then Ok (mk_sample channel_id frame_buf) else Panic.

(** [vec![0u8; PREFIX + payload.len()]] with the payload copied behind the prefix. *)
Definition prefixed (payload : bytes) : bytes := zeros SAMPLE_HEADER_PREFIX ++ payload.

Definition sample_from_payload (channel_id : Z) (payload : bytes) : SubscriptionSample :=
  mk_sample channel_id (prefixed payload).

(** [&frame_buf[SAMPLE_HEADER_PREFIX..]]. *)
Definition payload_after_prefix {E} (frame_buf : bytes) : outcome E bytes :=
  slice frame_buf SAMPLE_HEADER_PREFIX (blen frame_buf).
Definition sample_payload {E} (s : SubscriptionSample) : outcome E bytes := payload_after_prefix (ss_frame_buf s).

Record ServiceRequest := mk_request { sr_channel_id : Z; sr_operation_id : bytes; sr_frame_buf : bytes }.

Definition request_from_payload (channel_id : Z) (operation_id payload : bytes) : ServiceRequest :=
  mk_request channel_id operation_id (prefixed payload).
Definition request_payload {E} (r : ServiceRequest) : outcome E bytes := payload_after_prefix (sr_frame_buf r).

Inductive ActionInbound :=
| Goal_ (channel_id : Z) (operation_id frame_buf : bytes)
| Cancel (channel_id : Z) (operation_id frame_buf : bytes).

Definition from_goal_payload (channel_id : Z) (operation_id payload : bytes) : ActionInbound :=
  Goal_ channel_id operation_id (prefixed payload).
Definition from_cancel_payload (channel_id : Z) (operation_id payload : bytes) : ActionInbound :=
  Cancel channel_id operation_id (prefixed payload).
Definition inbound_channel_id (a : ActionInbound) : Z :=
  match a with Goal_ c _ _ | Cancel c _ _ => c end.
Definition inbound_operation_id (a : ActionInbound) : bytes :=
  match a with Goal_ _ o _ | Cancel _ o _ => o end.
Definition inbound_frame_buf (a : ActionInbound) : bytes :=
  match a with Goal_ _ _ b | Cancel _ _ b => b end.
Definition inbound_payload {E} (a : ActionInbound) : outcome E bytes := payload_after_prefix (inbound_frame_buf a).

Record GraphNodeInfo := mk_node {
  gn_id : bytes; gn_name : bytes; gn_namespace : option bytes; gn_domain_id : Z
}.

Record GraphEndpointInfo := mk_endpoint {
  ge_id : bytes; ge_node_id : bytes; ge_name : bytes; ge_kind : Z; ge_type_name : bytes; ge_domain_id : Z
}.

Record GraphView := mk_view { gv_nodes : list GraphNodeInfo; gv_endpoints : list GraphEndpointInfo }.

Record BackendError := mk_backend_error { err_code : Z; err_message : bytes }.
Definition schema_unavailable (message : bytes) : BackendError := mk_backend_error 10 message.

Record ChannelSpec := mk_spec { cs_channel_id : Z; cs_topic : bytes; cs_type_name : bytes; cs_qos : EffectiveQos }.

(** [EntityId = u64]. *)
Definition EntityId : Type := Z.

(** A fallible method: it answers and moves the backend. *)
Definition Method (S A : Type) : Type := S -> (A + BackendError) * S.

(** [trait RosBackend].  The sinks of [create_subscription], [create_service] and
    [create_action_server] are the connection's channels; what arrives on them
    is an input of the connection. *)
Class RosBackend (B : Type) := {
  create_subscription : ChannelSpec -> Method B EntityId;
  create_publisher : ChannelSpec -> Method B EntityId;
  publish : EntityId -> bytes -> Method B unit;
  destroy : EntityId -> B -> B;
  create_client : ChannelSpec -> Method B EntityId;
  create_service : ChannelSpec -> Method B EntityId;
  call : EntityId -> bytes -> bytes -> Method B bytes;
  send_service_response : EntityId -> bytes -> bytes -> Method B unit;
  create_action_client : ChannelSpec -> Method B EntityId;
  create_action_server : ChannelSpec -> Method B EntityId;
  send_action_goal : EntityId -> bytes -> bytes -> Method B bytes;
  cancel_action : EntityId -> bytes -> bytes -> Method B bytes;
  send_action_feedback : EntityId -> bytes -> bytes -> Method B unit;
  send_action_result : EntityId -> bytes -> bytes -> Method B unit;
  send_action_status : EntityId -> bytes -> bytes -> Method B unit;
  graph_view : Method B GraphView
}.
