(* ===== verification/Typesupport.v ===== *)
(** * Typesupport lookup

    [rclwebd/src/ros/typesupport.rs]: the libraries a ROS type name leads to, the
    symbols read from them and the cache.  The dynamic linker and the file system
    are a parameter, and answer the same for as long as the thread runs.  The lookups
    answer an option and their error texts are dropped, so [Err tt] is [None]; a symbol
    name with a NUL byte panics.  The pointer [open_library] gives into the list of
    libraries is the library itself. *)

From stdpp Require Import gmap.
From S2P Require Import Prelude.
#[local] Open Scope Z_scope.

(** ** Texts and paths *)

(** [str::split] on one byte. *)
Fixpoint split_on (sep : Z) (s : bytes) : list bytes :=
  match s with
  | [] => [[]]
  | b :: s' => if b =? sep then [] :: split_on sep s' else
      match split_on sep s' with [] => [[b]] | p :: ps => (b :: p) :: ps end
  end.

(** [Path::join]: an absolute right side replaces the left one. *)
Definition path_join (p q : bytes) : bytes :=
  match q with
  | 47 :: _ => q
  | _ => match last p with None => q | Some b => if b =? 47 then p ++ q else p ++ 47 :: q end
  end.

(** Paths are equal when their components are: repeated separators and inner dots
    do not count. *)
Definition path_components (p : bytes) : bool * list bytes :=
  let absolute := match p with 47 :: _ => true | _ => false end in
  let keep (x : bytes) := negb (bool_decide (x = [])) && negb (bool_decide (x = [46])) in
  match split_on 47 p with
  | [46] :: parts => (absolute, [46] :: List.filter keep parts)
  | parts => (absolute, List.filter keep parts)
  end.
Definition path_eqb (p q : bytes) : bool := bool_decide (path_components p = path_components q).

(** ** The dynamic linker *)

Class Linker := {
  Library : Type;
  path_exists : bytes -> bool;
  dlopen : bytes -> option Library;
  dlsym : Library -> bytes -> option Z;
  call_getter : Z -> Z
}.

Record RosEnv := mk_ros_env { ROS_PREFIX : option bytes; AMENT_PREFIX_PATH : option bytes }.

Record MessageTypeSupport := mk_mts { mt_handle : Z; mt_create : Z; mt_destroy : Z }.
Record ServiceTypeSupport := mk_sts { st_handle : Z; st_request : MessageTypeSupport; st_response : MessageTypeSupport }.
Record ActionTypeSupport := mk_ats {
  at_handle : Z; at_goal : MessageTypeSupport; at_result : MessageTypeSupport; at_feedback : MessageTypeSupport;
  at_feedback_message : MessageTypeSupport; at_send_goal_request : MessageTypeSupport;
  at_send_goal_response : MessageTypeSupport; at_get_result_request : MessageTypeSupport;
  at_get_result_response : MessageTypeSupport; at_cancel_request : MessageTypeSupport; at_cancel_response : MessageTypeSupport
}.

Definition ros_lib_dirs (env : RosEnv) : list bytes :=
  let dirs := match ROS_PREFIX env with Some prefix => [path_join prefix (lit "lib")] | None => [] end in
  let add dirs entry :=
    let lib := path_join entry (lit "lib") in
    if existsb (path_eqb lib) dirs then dirs else dirs ++ [lib] in
  let dirs :=
    match AMENT_PREFIX_PATH env with
    | Some ament => fold_left add (List.filter (fun s => negb (bool_decide (s = []))) (split_on 58 ament)) dirs
    | None => dirs
    end in
  if bool_decide (dirs = []) then [lit "/opt/ros/jazzy/lib"] else dirs.

Definition parse_type_name (type_name : bytes) : option (bytes * bytes * bytes) :=
  match split_on 47 type_name with
  | [pkg; kind; name] =>
      if bool_decide (pkg = []) || bool_decide (name = []) then None
      else if bool_decide (kind = lit "msg") || bool_decide (kind = lit "srv") || bool_decide (kind = lit "action")
      then Some (pkg, kind, name) else None
  | _ => None
  end.

(** [CString::new(name).expect(..)]. *)
Definition c_symbol {E} (name : bytes) : outcome E bytes := if existsb (Z.eqb 0) name then Panic else Ok name.

Section Loading.
Context `{Linker}.

Record Cache := mk_cache {
  ca_libraries : list Library;
  ca_messages : gmap bytes MessageTypeSupport;
  ca_services : gmap bytes ServiceTypeSupport;
  ca_actions : gmap bytes ActionTypeSupport
}.
Definition cache_new : Cache := mk_cache [] ∅ ∅ ∅.

Abbreviation Load := (SM Cache unit).

Definition required {A} (o : option A) : Load A := lift (ok_or o tt).

Definition find_library (dirs : list bytes) (file_name : bytes) : option bytes :=
  List.find path_exists (map (fun dir => path_join dir file_name) dirs).

Definition open_library (path : bytes) : Load Library :=
  lib <~ required (dlopen path) ;;
  modify (fun c => mk_cache (ca_libraries c ++ [lib]) (ca_messages c) (ca_services c) (ca_actions c)) ;;~
  ret lib.

Definition load_symbol (lib : Library) (symbol : bytes) : Load Z :=
  sym <~ lift (c_symbol symbol) ;;
  required (dlsym lib sym).

Definition ts_library (pkg : bytes) : bytes := lit "lib" ++ pkg ++ lit "__rosidl_typesupport_c.so".
Definition gen_library (pkg : bytes) : bytes := lit "lib" ++ pkg ++ lit "__rosidl_generator_c.so".

Definition load_message_ts (dirs : list bytes) (pkg kind name : bytes) : Load MessageTypeSupport :=
  let key := pkg ++ [47] ++ kind ++ [47] ++ name in
  cached <~ gets (fun c => ca_messages c !! key) ;;
  match cached with
  | Some ts => ret ts
  | None =>
      ts_path <~ required (find_library dirs (ts_library pkg)) ;;
      gen_path <~ required (find_library dirs (gen_library pkg)) ;;
      ts_lib <~ open_library ts_path ;;
      gen_lib <~ open_library gen_path ;;
      let infix := pkg ++ lit "__" ++ kind ++ lit "__" ++ name in
      getter_fn <~ load_symbol ts_lib (lit "rosidl_typesupport_c__get_message_type_support_handle__" ++ infix) ;;
      create <~ load_symbol gen_lib (infix ++ lit "__create") ;;
      destroy <~ load_symbol gen_lib (infix ++ lit "__destroy") ;;
      let handle := call_getter getter_fn in
      if handle =? 0 then throw tt
      else
        let ts := mk_mts handle create destroy in
        modify (fun c => mk_cache (ca_libraries c) (<[key := ts]> (ca_messages c)) (ca_services c) (ca_actions c)) ;;~
        ret ts
  end.

Definition message_type_support (env : RosEnv) (type_name : bytes) : Load MessageTypeSupport :=
  parsed <~ required (parse_type_name type_name) ;;
  let '(pkg, kind, name) := parsed in
  if negb (bool_decide (kind = lit "msg")) then throw tt
  else load_message_ts (ros_lib_dirs env) pkg kind name.

(** The typesupport handle of a service or an action, from the library of its package. *)
Definition load_handle (dirs : list bytes) (pkg getter : bytes) : Load Z :=
  ts_path <~ required (find_library dirs (ts_library pkg)) ;;
  ts_lib <~ open_library ts_path ;;
  getter_fn <~ load_symbol ts_lib getter ;;
  let handle := call_getter getter_fn in
  if handle =? 0 then throw tt else ret handle.

Definition service_type_support (env : RosEnv) (type_name : bytes) : Load ServiceTypeSupport :=
  parsed <~ required (parse_type_name type_name) ;;
  let '(pkg, kind, name) := parsed in
  if negb (bool_decide (kind = lit "srv")) then throw tt
  else
    let dirs := ros_lib_dirs env in
    cached <~ gets (fun c => ca_services c !! type_name) ;;
    match cached with
    | Some ts => ret ts
    | None =>
        handle <~ load_handle dirs pkg
          (lit "rosidl_typesupport_c__get_service_type_support_handle__" ++ pkg ++ lit "__srv__" ++ name) ;;
        request <~ load_message_ts dirs pkg (lit "srv") (name ++ lit "_Request") ;;
        response <~ load_message_ts dirs pkg (lit "srv") (name ++ lit "_Response") ;;
        let ts := mk_sts handle request response in
        modify (fun c => mk_cache (ca_libraries c) (ca_messages c) (<[type_name := ts]> (ca_services c)) (ca_actions c)) ;;~
        ret ts
    end.

Definition action_type_support (env : RosEnv) (type_name : bytes) : Load ActionTypeSupport :=
  parsed <~ required (parse_type_name type_name) ;;
  let '(pkg, kind, name) := parsed in
  if negb (bool_decide (kind = lit "action")) then throw tt
  else
    let dirs := ros_lib_dirs env in
    cached <~ gets (fun c => ca_actions c !! type_name) ;;
    match cached with
    | Some ts => ret ts
    | None =>
        handle <~ load_handle dirs pkg
          (lit "rosidl_typesupport_c__get_action_type_support_handle__" ++ pkg ++ lit "__action__" ++ name) ;;
        cancel_request <~ load_message_ts dirs (lit "action_msgs") (lit "srv") (lit "CancelGoal_Request") ;;
        cancel_response <~ load_message_ts dirs (lit "action_msgs") (lit "srv") (lit "CancelGoal_Response") ;;
        let part (suffix : string) := load_message_ts dirs pkg (lit "action") (name ++ lit suffix) in
        goal <~ part "_Goal" ;;
        result <~ part "_Result" ;;
        feedback <~ part "_Feedback" ;;
        feedback_message <~ part "_FeedbackMessage" ;;
        send_goal_request <~ part "_SendGoal_Request" ;;
        send_goal_response <~ part "_SendGoal_Response" ;;
        get_result_request <~ part "_GetResult_Request" ;;
        get_result_response <~ part "_GetResult_Response" ;;
        let ts := mk_ats handle goal result feedback feedback_message send_goal_request send_goal_response
                    get_result_request get_result_response cancel_request cancel_response in
        modify (fun c => mk_cache (ca_libraries c) (ca_messages c) (ca_services c) (<[type_name := ts]> (ca_actions c))) ;;~
        ret ts
    end.

End Loading.

(** ** Lookups do not panic on names without NUL *)

Section Loads.
Context `{Linker}.

(** A lookup that does not panic. *)
Definition quiet {A} (m : SM Cache unit A) : Prop := forall c, (m c).1 <> Panic.

Lemma quiet_bind {A B} (m : SM Cache unit A) (k : A -> SM Cache unit B) : quiet m -> (forall a, quiet (k a)) -> quiet (bind m k).
Proof. intros Hm Hk c. unfold bind. specialize (Hm c). destruct (m c) as [[a | e |] c']; [apply Hk | done | done]. Qed.
Lemma quiet_required {A} (o : option A) : quiet (required o).
Proof. by intros c; destruct o. Qed.
Lemma quiet_open path : quiet (open_library path).
Proof. unfold open_library. apply quiet_bind; [apply quiet_required |]. intros lib c. done. Qed.

Lemma no_nul s : 0 ∉ s -> existsb (Z.eqb 0) s = false.
Proof.
  intros Hs. apply not_true_iff_false. rewrite existsb_exists. intros (x & Hx & E). apply Z.eqb_eq in E as <-. apply Hs.
  by apply list_elem_of_In.
Qed.

Lemma quiet_symbol lib symbol : 0 ∉ symbol -> quiet (load_symbol lib symbol).
Proof.
  intros Hs. unfold load_symbol. apply quiet_bind; [| intros; apply quiet_required]. intros c. unfold c_symbol.
  cbn. by rewrite no_nul.
Qed.

Lemma nul_app a b : (0 ∉ a) -> (0 ∉ b) -> (0 : Z) ∉ (a ++ b).
Proof. intros Ha Hb Hc. apply elem_of_app in Hc as [? | ?]; [by apply Ha | by apply Hb]. Qed.
Lemma lit_without (b : Z) (s : string) : existsb (Z.eqb b) (lit s) = false -> b ∉ lit s.
Proof.
  intros Hs Hin. apply not_true_iff_false in Hs. apply Hs. apply existsb_exists. exists b. split; [by apply list_elem_of_In | lia].
Qed.
Definition nul_lit := lit_without 0.

(** A symbol made of literals and of names without NUL. *)
Ltac nul_free := repeat apply nul_app; first [assumption | by apply nul_lit].

Lemma quiet_message dirs pkg kind name : 0 ∉ pkg -> 0 ∉ kind -> 0 ∉ name -> quiet (load_message_ts dirs pkg kind name).
Proof.
  intros Hp Hk Hn. unfold load_message_ts. apply quiet_bind; [done |]. intros [ts |]; [done |].
  do 2 (apply quiet_bind; [apply quiet_required | intros ?]). do 2 (apply quiet_bind; [apply quiet_open | intros ?]).
  do 3 (apply quiet_bind; [apply quiet_symbol; nul_free | intros ?]). cbv zeta.
  by destruct (call_getter _ =? 0).
Qed.

Lemma quiet_handle dirs pkg getter : 0 ∉ getter -> quiet (load_handle dirs pkg getter).
Proof.
  intros Hg. unfold load_handle. apply quiet_bind; [apply quiet_required | intros ?]. apply quiet_bind; [apply quiet_open | intros ?].
  apply quiet_bind; [by apply quiet_symbol | intros ?]. cbv zeta. by destruct (call_getter _ =? 0).
Qed.

Lemma split_parts sep s p b : p ∈ split_on sep s -> b ∈ p -> b ∈ s.
Proof.
  revert p. induction s as [| x s IH]; intros p Hp Hb; cbn [split_on] in Hp.
  - apply list_elem_of_singleton in Hp as ->. done.
  - destruct (x =? sep).
    + apply elem_of_cons in Hp as [-> | Hp]; [by apply not_elem_of_nil in Hb |]. right. by eapply IH.
    + destruct (split_on sep s) as [| q qs] eqn:E.
      * apply list_elem_of_singleton in Hp as ->. apply list_elem_of_singleton in Hb as ->. by left.
      * apply elem_of_cons in Hp as [-> | Hp].
        -- apply elem_of_cons in Hb as [-> | Hb]; [by left |]. right. apply (IH q); [by left | done].
        -- right. apply (IH p); [by right | done].
Qed.

Lemma parsed_parts t pkg kind name :
  parse_type_name t = Some (pkg, kind, name) -> (0 ∉ t) -> (0 ∉ pkg) /\ (0 ∉ kind) /\ (0 ∉ name).
Proof.
  unfold parse_type_name. intros E Ht. assert (Hs : forall p, p ∈ split_on 47 t -> 0 ∉ p).
  { intros p Hp Hb. apply Ht. by eapply split_parts. }
  destruct (split_on 47 t) as [| a [| b [| c [| d l]]]]; try done. destruct (_ || _); [done |]. destruct (_ || _); [| done].
  assert (a = pkg /\ b = kind /\ c = name) as (<- & <- & <-) by (split_and!; congruence). split_and!; apply Hs; rewrite !elem_of_cons; auto.
Qed.

Lemma quiet_message_type env t : 0 ∉ t -> quiet (message_type_support env t).
Proof.
  intros Ht. unfold message_type_support. destruct (parse_type_name t) as [[[pkg kind] name] |] eqn:E; [| done].
  destruct (parsed_parts _ _ _ _ E Ht) as (Hp & Hk & Hn).
  intros c. change (required _) with (ret (S := Cache) (E := unit) (pkg, kind, name)). cbn -[load_message_ts]. destruct (negb _); [done |].
  by apply quiet_message.
Qed.

Lemma quiet_service_type env t : 0 ∉ t -> quiet (service_type_support env t).
Proof.
  intros Ht. unfold service_type_support. destruct (parse_type_name t) as [[[pkg kind] name] |] eqn:E; [| done].
  destruct (parsed_parts _ _ _ _ E Ht) as (Hp & Hk & Hn).
  intros c. change (required _) with (ret (S := Cache) (E := unit) (pkg, kind, name)). cbv beta iota delta [bind ret].
  destruct (negb _); [done |]. cbv beta iota delta [gets]. destruct (ca_services c !! t); [done |].
  revert c. apply quiet_bind; [apply quiet_handle; nul_free | intros handle].
  do 2 (apply quiet_bind; [apply quiet_message; nul_free | intros ?]). done.
Qed.

Lemma quiet_action_type env t : 0 ∉ t -> quiet (action_type_support env t).
Proof.
  intros Ht. unfold action_type_support. destruct (parse_type_name t) as [[[pkg kind] name] |] eqn:E; [| done].
  destruct (parsed_parts _ _ _ _ E Ht) as (Hp & Hk & Hn).
  intros c. change (required _) with (ret (S := Cache) (E := unit) (pkg, kind, name)). cbv beta iota delta [bind ret].
  destruct (negb _); [done |]. cbv beta iota delta [gets]. destruct (ca_actions c !! t); [done |].
  revert c. apply quiet_bind; [apply quiet_handle; nul_free | intros handle].
  do 10 (apply quiet_bind; [apply quiet_message; nul_free | intros ?]). done.
Qed.

End Loads.

(** ** The cache never changes an answer *)

Section Caching.
Context `{Linker}.
Variable env : RosEnv.
Abbreviation Load := (SM Cache unit).
Abbreviation fresh m := (fst (m cache_new)).

Definition message_key (pkg kind name : bytes) : bytes := pkg ++ [47] ++ kind ++ [47] ++ name.

(** What is cached is what a lookup would load. *)
Record cache_ok (c : Cache) : Prop := {
  cc_messages pkg kind name ts : 47 ∉ pkg -> 47 ∉ kind -> ca_messages c !! message_key pkg kind name = Some ts ->
    fresh (load_message_ts (ros_lib_dirs env) pkg kind name) = Ok ts;
  cc_services t ts : ca_services c !! t = Some ts -> fresh (service_type_support env t) = Ok ts;
  cc_actions t ts : ca_actions c !! t = Some ts -> fresh (action_type_support env t) = Ok ts
}.

Lemma cache_new_ok : cache_ok cache_new.
Proof. split; intros *; cbn; rewrite ?lookup_empty; done. Qed.

(** [m] answers on any good cache what it answers on the empty one. *)
Definition agrees {A} (m : Load A) : Prop := forall c, cache_ok c -> (m c).1 = fresh m /\ cache_ok (m c).2.

Lemma agrees_ret {A} (a : A) : agrees (ret a).
Proof. by intros c Hc. Qed.
Lemma agrees_throw {A} : agrees (throw (A := A) tt).
Proof. by intros c Hc. Qed.
Lemma agrees_lift {A} (o : outcome unit A) : agrees (lift o).
Proof. by intros c Hc. Qed.

Lemma agrees_bind {A B} (m : Load A) (k : A -> Load B) : agrees m -> (forall a, agrees (k a)) -> agrees (bind m k).
Proof.
  intros Hm Hk c Hc. unfold bind. destruct (Hm c Hc) as [E Ho]. destruct (Hm _ cache_new_ok) as [_ Hn].
  destruct (m c) as [r c1], (m cache_new) as [r' c2]. cbn in *. subst r'. destruct r as [a | e |]; [| done | done].
  destruct (Hk a c1 Ho) as [E1 ?], (Hk a c2 Hn) as [E2 _]. split; [congruence | done].
Qed.

Lemma agrees_open path : agrees (open_library path).
Proof.
  intros c Hc. unfold open_library, required, bind, lift, modify, ret. destruct (dlopen path) as [lib |]; [| done].
  split; [done |]. destruct Hc. by split.
Qed.
Lemma agrees_symbol lib symbol : agrees (load_symbol lib symbol).
Proof. apply agrees_bind; [apply agrees_lift | intros; apply agrees_lift]. Qed.

(** A body that stores its answer at its end. *)
Definition stored {A} (store : A -> Cache -> Cache) (m : Load A) : Load A := a <~ m ;; modify (store a) ;;~ ret a.

Lemma stored_bind {A B} store (m : Load A) (k k' : A -> Load B) :
  (forall a c, k' a c = stored store (k a) c) -> forall c, bind m k' c = stored store (bind m k) c.
Proof. intros Hk c. unfold stored, bind in *. destruct (m c) as [[a | e |] c1]; [apply Hk | done | done]. Qed.

(** A lookup behind a cache. *)
Definition cached {A} (look : Cache -> option A) (uncached : Load A) : Load A :=
  cached <~ gets look ;; match cached with Some a => ret a | None => uncached end.

Lemma agrees_stored {A} (look : Cache -> option A) (store : A -> Cache -> Cache) (body uncached : Load A) :
  (forall c, uncached c = stored store body c) -> agrees body -> look cache_new = None ->
  (forall c a, cache_ok c -> look c = Some a -> fresh (cached look uncached) = Ok a) ->
  (forall c a, cache_ok c -> fresh (cached look uncached) = Ok a -> cache_ok (store a c)) -> agrees (cached look uncached).
Proof.
  intros Hu Hb Hn Hl Hs c Hc. unfold cached, bind, gets in *. rewrite Hn in *. destruct (look c) as [a |] eqn:E.
  - rewrite (Hl c a Hc E). by cbn.
  - specialize (Hs (body c).2). rewrite !Hu in *. unfold stored, bind in *. destruct (Hb c Hc) as [Er Ho].
    destruct (body c) as [r c1], (body cache_new) as [r' c2]. cbn in *. subst r'. destruct r as [a | e |]; [| done | done].
    cbn in *. split; [done |]. by apply Hs.
Qed.

Lemma stored_ret {A} store (a : A) c : (modify (store a) ;;~ ret a) c = stored store (ret a) c.
Proof. done. Qed.
Lemma stored_if {A} (store : A -> Cache -> Cache) (b : bool) (m k : Load A) c :
  m c = stored store k c -> (if b then throw tt else m) c = stored store (if b then throw tt else k) c.
Proof. by destruct b. Qed.

(** A body that ends with its store, with the store taken out. *)
Ltac store_out := cbv zeta; repeat first [(lazymatch goal with |- _ = stored ?store _ _ => apply (stored_ret store) end) | apply stored_bind; intros ? ? | apply stored_if].

Lemma join_injective (a a' b b' : bytes) : 47 ∉ a -> 47 ∉ a' -> a ++ 47 :: b = a' ++ 47 :: b' -> a = a' /\ b = b'.
Proof.
  revert a'. induction a as [| x a IH]; intros [| y a'] Ha Ha' E; cbn in E; [by injection E as -> | | |].
  - injection E as <- _. destruct Ha'. by left.
  - injection E as -> _. destruct Ha. by left.
  - injection E as -> E. destruct (IH a') as [-> ->]; [set_solver | set_solver | done | done].
Qed.
Lemma key_injective pkg kind name pkg' kind' name' : 47 ∉ pkg -> 47 ∉ kind -> 47 ∉ pkg' -> 47 ∉ kind' ->
  message_key pkg kind name = message_key pkg' kind' name' -> pkg = pkg' /\ kind = kind' /\ name = name'.
Proof. intros ? ? ? ? [-> [-> ->]%join_injective]%join_injective; done. Qed.

Lemma agrees_message pkg kind name : 47 ∉ pkg -> 47 ∉ kind -> agrees (load_message_ts (ros_lib_dirs env) pkg kind name).
Proof.
  intros Hp Hk. unfold load_message_ts. fold (message_key pkg kind name).
  eapply agrees_stored with (store := fun ts c => mk_cache (ca_libraries c) (<[message_key pkg kind name := ts]> (ca_messages c)) (ca_services c) (ca_actions c)).
  - intros c. store_out.
  - cbv beta. repeat (apply agrees_bind; [first [apply agrees_lift | apply agrees_open | apply agrees_symbol] | intros ?]).
    case_match; [apply agrees_throw | apply agrees_ret].
  - apply lookup_empty.
  - intros c a Hc Ha. by apply (cc_messages c Hc pkg kind name) in Ha.
  - intros c a [Hm Hs Ha] Hf. split; [| done | done]. intros pkg' kind' name' ts Hp' Hk'. cbn.
    intros [[Ek ->] | [_ El]]%lookup_insert_Some; [| by eapply Hm].
    apply key_injective in Ek as (<- & <- & <-); [| done..]. exact Hf.
Qed.

Lemma split_clean sep s p : p ∈ split_on sep s -> sep ∉ p.
Proof.
  revert p. induction s as [| x s IH]; intros p; cbn [split_on]; [intros ->%list_elem_of_singleton; by intros ?%elem_of_nil |].
  destruct (Z.eqb_spec x sep) as [-> | Hx].
  - intros [-> | Hp]%elem_of_cons; [by intros ?%elem_of_nil | by apply IH].
  - destruct (split_on sep s) as [| q qs].
    + intros ->%list_elem_of_singleton ->%list_elem_of_singleton. done.
    + intros [-> | Hp]%elem_of_cons; [| apply IH; by right]. intros [-> | Hq]%elem_of_cons; [done |]. apply (IH q); [by left | done].
Qed.
Lemma parsed_clean t pkg kind name : parse_type_name t = Some (pkg, kind, name) -> 47 ∉ pkg.
Proof.
  unfold parse_type_name. intros E. pose proof (split_clean 47 t) as Hs.
  destruct (split_on 47 t) as [| a [| b [| c [| d l]]]]; try done. destruct (_ || _); [done |]. destruct (_ || _); [| done].
  assert (a = pkg) as <- by congruence. apply Hs. by left.
Qed.

Lemma agrees_handle dirs pkg getter : agrees (load_handle dirs pkg getter).
Proof.
  unfold load_handle. repeat (apply agrees_bind; [first [apply agrees_lift | apply agrees_open | apply agrees_symbol] | intros ?]).
  cbv zeta. case_match; [apply agrees_throw | apply agrees_ret].
Qed.

(** A body of handles and messages, of packages without a separator. *)
Ltac agree_parts Hp :=
  cbv beta zeta; repeat (apply agrees_bind;
    [first [apply agrees_handle | apply agrees_message; [first [exact Hp | by apply lit_without] | by apply lit_without]] | intros ?]);
  apply agrees_ret.

Lemma some_bind {A B} (x : A) (k : A -> Load B) : bind (required (Some x)) k = k x.
Proof. done. Qed.

Lemma agrees_service t : agrees (service_type_support env t).
Proof.
  assert (Hf : forall c a, cache_ok c -> ca_services c !! t = Some a -> fresh (service_type_support env t) = Ok a) by (intros c a []; auto).
  assert (Hs : forall c a, cache_ok c -> fresh (service_type_support env t) = Ok a ->
    cache_ok (mk_cache (ca_libraries c) (ca_messages c) (<[t := a]> (ca_services c)) (ca_actions c))).
  { intros c a [Hm Hs Ha] Hn. split; [done | | done]. intros t' ts. cbn. intros [[<- ->] | [_ El]]%lookup_insert_Some; [done | by apply Hs]. }
  unfold service_type_support in *. destruct (parse_type_name t) as [[[pkg kind] name] |] eqn:E; [| apply agrees_lift].
  pose proof (parsed_clean _ _ _ _ E) as Hp. rewrite some_bind in *. destruct (negb _) eqn:Ek; [apply agrees_throw |].
  eapply agrees_stored with (look := fun c => ca_services c !! t)
    (store := fun ts c => mk_cache (ca_libraries c) (ca_messages c) (<[t := ts]> (ca_services c)) (ca_actions c));
     [intros c; store_out | agree_parts Hp | cbn; apply lookup_empty | exact Hf | exact Hs].
Qed.

Lemma agrees_action t : agrees (action_type_support env t).
Proof.
  assert (Hf : forall c a, cache_ok c -> ca_actions c !! t = Some a -> fresh (action_type_support env t) = Ok a) by (intros c a []; auto).
  assert (Hs : forall c a, cache_ok c -> fresh (action_type_support env t) = Ok a ->
    cache_ok (mk_cache (ca_libraries c) (ca_messages c) (ca_services c) (<[t := a]> (ca_actions c)))).
  { intros c a [Hm Hs Ha] Hn. split; [done | done |]. intros t' ts. cbn. intros [[<- ->] | [_ El]]%lookup_insert_Some; [done | by apply Ha]. }
  unfold action_type_support in *. destruct (parse_type_name t) as [[[pkg kind] name] |] eqn:E; [| apply agrees_lift].
  pose proof (parsed_clean _ _ _ _ E) as Hp. rewrite some_bind in *. destruct (negb _) eqn:Ek; [apply agrees_throw |].
  eapply agrees_stored with (look := fun c => ca_actions c !! t)
    (store := fun ts c => mk_cache (ca_libraries c) (ca_messages c) (ca_services c) (<[t := ts]> (ca_actions c)));
     [intros c; store_out | agree_parts Hp | cbn; apply lookup_empty | exact Hf | exact Hs].
Qed.

Lemma agrees_message_type t : agrees (message_type_support env t).
Proof.
  unfold message_type_support. destruct (parse_type_name t) as [[[pkg kind] name] |] eqn:E; [| apply agrees_lift].
  pose proof (parsed_clean _ _ _ _ E) as Hp. rewrite some_bind. destruct (negb _) eqn:Ek; [apply agrees_throw |].
  apply agrees_message; [done |]. apply negb_false_iff, bool_decide_eq_true in Ek as ->. by apply lit_without.
Qed.

(** The caches lookups lead to. *)
Inductive looked_up : Cache -> Prop :=
| nothing_yet : looked_up cache_new
| after_message c t : looked_up c -> looked_up (message_type_support env t c).2
| after_service c t : looked_up c -> looked_up (service_type_support env t c).2
| after_action c t : looked_up c -> looked_up (action_type_support env t c).2.

Lemma looked_up_ok c : looked_up c -> cache_ok c.
Proof.
  induction 1 as [| c t _ IH | c t _ IH | c t _ IH]; [apply cache_new_ok | by apply agrees_message_type | by apply agrees_service | by apply agrees_action].
Qed.


End Caching.

(** A linker that finds every library but the symbols of one package. *)
Module DemoLinker.
#[export] Instance demo_linker : Linker := {|
  Library := unit; path_exists _ := true; dlopen _ := Some tt;
  dlsym _ name := if List.existsb (fun b => b =? 63) name then None else Some 1; call_getter := id
|}.
End DemoLinker.
Import DemoLinker.


(** A type name with a NUL byte stops the thread, where the libraries of its package are there. *)
Example nul_type_name_panics :
  (message_type_support (mk_ros_env None None) (lit "std_msgs/msg/" ++ [0]) cache_new).1 = Panic.
Proof. by vm_compute. Qed.
