(* ===== verification/Rcl.v ===== *)
(** * The client library wrapper

    [rclwebd/src/ros/rcl.rs]: the entities of the ROS attachment thread over the C
    client library.  The library with everything behind it (middleware, memory, the
    rest of the graph, the clock) is a parameter: a state, and a function on it for
    each C function.  A pointer is its address.  Each wrapper is a state transformer
    of the library; those that pump while they wait take the worker's state. *)

From S2P Require Import Prelude Policy Backend Typesupport.
#[local] Open Scope Z_scope.

Record RequestId := mk_request_id { writer_guid : bytes; sequence_number : Z }.

Inductive EntityKind := KPublisher | KSubscription | KClient | KService | KActionClient | KActionServer.

(** [rmw_qos_profile_t] as far as it is set; deadline, lifespan and lease are zero. *)
Inductive History := KeepLast | KeepAll.
Inductive Reliability := Reliable | BestEffort.
Inductive Durability := Volatile | TransientLocal.
Inductive Liveliness := Automatic | ManualByTopic.
Record RmwProfile := mk_profile {
  rp_history : History; rp_depth : Z; rp_reliability : Reliability; rp_durability : Durability; rp_liveliness : Liveliness
}.
Definition rmw_profile (qos : EffectiveQos) : RmwProfile :=
  mk_profile (if eq_keep_all qos then KeepAll else KeepLast) (eq_depth qos)
    (if eq_reliable qos then Reliable else BestEffort) (if eq_transient_local qos then TransientLocal else Volatile)
    (if eq_manual_by_topic qos then ManualByTopic else Automatic).

(** The C functions that can fail, by what they answer.  A take that finds nothing
    answers [None], a wait that times out too. *)
Inductive CFun : Type -> Type :=
(* messages *)
| ts_create (create : Z) : CFun Z
| rmw_deserialize (ts : Z) (cdr : bytes) (msg : Z) : CFun unit
| rmw_serialize (ts msg : Z) : CFun bytes
(* entities *)
| rcl_init (kind : EntityKind) (ts : Z) (name : bytes) (qos : RmwProfile) : CFun Z
| rcl_clock_init : CFun Z
| rcl_publish_serialized_message (publisher : Z) (payload : bytes) : CFun unit
| rcl_take_serialized_message (subscription : Z) : CFun (option bytes)
| rcl_send_request (client request : Z) : CFun Z
| rcl_take_response (client response : Z) : CFun (option RequestId)
| rcl_take_request (service request : Z) : CFun (option RequestId)
| rcl_send_response (service : Z) (header : RequestId) (response : Z) : CFun unit
(* action clients *)
| rcl_action_send_goal_request (client request : Z) : CFun Z
| rcl_action_take_goal_response (client response : Z) : CFun (option RequestId)
| rcl_action_send_result_request (client request : Z) : CFun Z
| rcl_action_take_result_response (client response : Z) : CFun (option RequestId)
| rcl_action_send_cancel_request (client request : Z) : CFun Z
| rcl_action_take_cancel_response (client response : Z) : CFun (option RequestId)
| rcl_action_client_wait_set_get_num_entities (client : Z) : CFun (Z * Z * Z * Z)
(* action servers *)
| rcl_action_take_goal_request (server request : Z) : CFun (option RequestId)
| rcl_action_accept_new_goal (server : Z) (uuid : bytes) : CFun Z
| rcl_action_send_goal_response (server : Z) (header : RequestId) (response : Z) : CFun unit
| rcl_action_take_result_request (server request : Z) : CFun (option RequestId)
| rcl_action_send_result_response (server : Z) (header : RequestId) (response : Z) : CFun unit
| rcl_action_update_goal_state (goal : Z) (succeed : bool) : CFun unit
| rcl_action_notify_goal_done (server : Z) : CFun unit
| rcl_action_publish_feedback (server msg : Z) : CFun unit
| rcl_action_get_goal_status_array (server : Z) : CFun Z
| rcl_action_publish_status (server array : Z) : CFun unit
| rcl_action_take_cancel_request (server request : Z) : CFun (option RequestId)
| rcl_action_process_cancel_request (server request response : Z) : CFun unit
| rcl_action_send_cancel_response (server : Z) (header : RequestId) (response : Z) : CFun unit
(* wait sets and the graph *)
| rcl_wait_set_init (subscriptions guards clients services : Z) : CFun Z
| rcl_wait_set_clear (wait_set : Z) : CFun unit
| rcl_wait_set_add (kind : EntityKind) (wait_set entity : Z) : CFun unit
| rcl_wait_set_add_guard_condition (wait_set guard : Z) : CFun unit
| rcl_wait (wait_set timeout_ns : Z) : CFun (option (list bool * list bool))
| rcl_names_and_types (services : bool) : CFun (list (bytes * list bytes)).

(** Those whose result nobody looks at, and stores to memory. *)
Inductive CProc :=
| ts_destroy (destroy msg : Z)
| store16 (ptr : Z) (bs : bytes)
| store_bool (ptr : Z) (b : bool)
| rcl_fini (kind : EntityKind) (handle : Z)
| rcl_clock_fini (clock : Z)
| rcl_action_goal_status_array_fini (array : Z)
| rcl_action_cancel_response_fini (response : Z)
| rcl_wait_set_fini (wait_set : Z)
| rcutils_reset_error.

(** The library: its state, its functions (an error is the return code), the clock,
    the error text of [drain_error_string], and the memory it shares. *)
Class RclLibrary := {
  Node : Type;
  c_call : forall A, CFun A -> Node -> (A + Z) * Node;
  c_proc : CProc -> Node -> Node;
  now : Node -> Z;
  error_string : Node -> bytes;
  load16 : Z -> Node -> bytes;
  load_bool : Z -> Node -> bool;
  zero_initialized_cancel_response : Node -> Z;
  backlog : Node -> nat  (* how many more takes succeed before the next wait *)
}.

(** ** Control flow *)

Section Control.
Context {S E A : Type}.

(** The result of [m] as a value; a panic is not one. *)
Definition attempt (m : SM S E A) : SM S E (A + E) := fun s =>
  match m s with (Ok a, s') => (Ok (inl a), s') | (Err e, s') => (Ok (inr e), s') | (Panic, s') => (Panic, s') end.
Definition settle (r : A + E) : SM S E A := match r with inl a => ret a | inr e => throw e end.

(** [loop] with [continue] as [None], at most [p] times around. *)
Fixpoint spins (p : positive) (body : SM S E (option A)) : SM S E (option A) :=
  match p with
  | xH => body
  | xO p => r <~ spins p body ;; match r with Some _ => ret r | None => spins p body end
  | xI p =>
      r <~ body ;;
      match r with
      | Some _ => ret r
      | None => r <~ spins p body ;; match r with Some _ => ret r | None => spins p body end
      end
  end.
Definition loop_ns (p : positive) (body : SM S E (option A)) : SM S E A :=
  r <~ spins p body ;; match r with Some a => ret a | None => lift Panic end.

(** [loop] with [break] as [Some]. *)
Fixpoint loop_nat (fuel : nat) (body : SM S E (option A)) : SM S E A :=
  match fuel with
  | O => lift Panic
  | Datatypes.S fuel => r <~ body ;; match r with Some a => ret a | None => loop_nat fuel body end
  end.
End Control.

Section Rcl.
Context `{RclLibrary}.

(** [RclError], whose return code nothing reads: its message. *)
Abbreviation RclError := bytes.
Abbreviation Rcl := (SM Node RclError).

Definition proc (f : CProc) : Rcl unit := modify (c_proc f).

(** A call, its return code not looked at yet. *)
Definition returned {A} (f : CFun A) : Rcl (A + Z) := fun n => let '(r, n') := c_call A f n in (Ok r, n').

(** [check] and [check_rmw] of a return code, with [drain_error_string]. *)
Definition checked {A} (r : A + Z) (operation : string) : Rcl A := fun n =>
  match r with
  | inl a => (Ok a, n)
  | inr _ => (Err (lit operation ++ lit ": " ++ error_string n), c_proc rcutils_reset_error n)
  end.
Definition check {A} (f : CFun A) (operation : string) : Rcl A := fun n =>
  let '(r, n') := c_call A f n in checked r operation n'.

(** *** Messages *)

Definition allocate_message (ts : MessageTypeSupport) : Rcl Z := fun n =>
  match c_call Z (ts_create (mt_create ts)) n with
  | (inl ptr, n') => if ptr =? 0 then (Err (lit "message create returned null"), n') else (Ok ptr, n')
  | (inr _, n') => (Err (lit "message create returned null"), n')
  end.
Definition destroy_message (ts : MessageTypeSupport) (ptr : Z) : Rcl unit :=
  if ptr =? 0 then ret tt else proc (ts_destroy (mt_destroy ts) ptr).
Definition deserialize_into (ts : MessageTypeSupport) (cdr : bytes) (msg : Z) : Rcl unit :=
  check (rmw_deserialize (mt_handle ts) cdr msg) "rmw_deserialize".
Definition serialize_message (ts : MessageTypeSupport) (msg : Z) : Rcl bytes :=
  check (rmw_serialize (mt_handle ts) msg) "rmw_serialize".

(** *** Creation *)

Definition init_operation (kind : EntityKind) : string :=
  match kind with
  | KPublisher => "rcl_publisher_init" | KSubscription => "rcl_subscription_init" | KClient => "rcl_client_init"
  | KService => "rcl_service_init" | KActionClient => "rcl_action_client_init" | KActionServer => "rcl_action_server_init"
  end.
Definition nul_message (kind : EntityKind) : string :=
  match kind with
  | KPublisher | KSubscription => "topic name contains NUL" | KClient | KService => "service name contains NUL"
  | KActionClient | KActionServer => "action name contains NUL"
  end.

(** [CString::new] and the init call. *)
Definition named {A} (kind : EntityKind) (name : bytes) (m : Rcl A) : Rcl A :=
  if existsb (Z.eqb 0) name then throw (lit (nul_message kind)) else m.
Definition entity_create (kind : EntityKind) (name : bytes) (ts_handle : Z) (qos : EffectiveQos) : Rcl Z :=
  named kind name (check (rcl_init kind ts_handle name (rmw_profile qos)) (init_operation kind)).

(** An action server has a clock of its own, released when the server fails. *)
Record ActionServer := mk_action_server { as_server : Z; as_clock : Z }.
Definition ActionServer_create (name : bytes) (ts_handle : Z) (qos : EffectiveQos) : Rcl ActionServer :=
  named KActionServer name
    (clock <~ check rcl_clock_init "rcl_clock_init" ;;
     r <~ attempt (check (rcl_init KActionServer ts_handle name (rmw_profile qos)) (init_operation KActionServer)) ;;
     match r with
     | inl server => ret (mk_action_server server clock)
     | inr err => proc (rcl_clock_fini clock) ;;~ throw err
     end).
Definition ActionServer_fini (s : ActionServer) : Rcl unit :=
  proc (rcl_fini KActionServer (as_server s)) ;;~ proc (rcl_clock_fini (as_clock s)).
Definition entity_fini (kind : EntityKind) (handle : Z) : Rcl unit := proc (rcl_fini kind handle).

(** *** Topics *)

Definition publisher_publish (publisher : Z) (payload : bytes) : Rcl unit :=
  check (rcl_publish_serialized_message publisher payload) "rcl_publish_serialized_message".

(** The take buffer: its storage, and how much of it behind the prefix is message. *)
Record TakeBuffer := mk_take { tb_vec : bytes; tb_length : Z }.
Definition TakeBuffer_new : TakeBuffer := mk_take [] 0.

(** [Vec::resize]. *)
Definition resize (v : bytes) (n : Z) : bytes := take (Z.to_nat n) v ++ zeros (n - blen v).

(** The library asks the allocator for room ([ensure_payload_capacity]) and writes
    the payload behind the prefix. *)
Definition fill_payload (payload : bytes) (tb : TakeBuffer) : TakeBuffer :=
  mk_take (resize (tb_vec tb) SAMPLE_HEADER_PREFIX ++ payload) (blen payload).

Definition steal_prefixed_frame (tb : TakeBuffer) : bytes * TakeBuffer :=
  let total := SAMPLE_HEADER_PREFIX + tb_length tb in
  (zeros SAMPLE_HEADER_PREFIX ++ drop (Z.to_nat SAMPLE_HEADER_PREFIX) (resize (tb_vec tb) total), TakeBuffer_new).

Definition take_serialized (subscription : Z) (scratch : TakeBuffer) : Rcl (option TakeBuffer) :=
  r <~ check (rcl_take_serialized_message subscription) "rcl_take_serialized_message" ;;
  ret (match r with None => None | Some payload => Some (fill_payload payload scratch) end).

(** *** Services *)

(** A request that cannot be serialized is not destroyed. *)
Definition take_request (service : Z) (request_ts : MessageTypeSupport) : Rcl (option (RequestId * bytes)) :=
  request <~ allocate_message request_ts ;;
  r <~ attempt (check (rcl_take_request service request) "rcl_take_request") ;;
  match r with
  | inl None => destroy_message request_ts request ;;~ ret None
  | inr err => destroy_message request_ts request ;;~ throw err
  | inl (Some header) =>
      cdr <~ serialize_message request_ts request ;;
      destroy_message request_ts request ;;~
      ret (Some (header, cdr))
  end.

Definition send_response (service : Z) (response_ts : MessageTypeSupport) (header : RequestId) (cdr : bytes) : Rcl unit :=
  response <~ allocate_message response_ts ;;
  result <~ attempt
    (deserialize_into response_ts cdr response ;;~
     check (rcl_send_response service header response) "rcl_send_response") ;;
  destroy_message response_ts response ;;~
  settle result.

(** *** Action servers *)

(** A taken message: an identifier in its first 16 bytes, then what [rest] reads. *)
Definition take_identified {A} (ts : MessageTypeSupport) (take_ : Z -> CFun (option RequestId))
    (operation : string) (rest : Z -> RequestId -> bytes -> Rcl A) : Rcl (option A) :=
  request <~ allocate_message ts ;;
  r <~ attempt (check (take_ request) operation) ;;
  match r with
  | inl None => destroy_message ts request ;;~ ret None
  | inr err => destroy_message ts request ;;~ throw err
  | inl (Some header) =>
      uuid <~ gets (load16 request) ;;
      result <~ attempt (rest request header uuid) ;;
      destroy_message ts request ;;~
      a <~ settle result ;;
      ret (Some a)
  end.

Definition take_goal (server : ActionServer) (ts : ActionTypeSupport) : Rcl (option (RequestId * bytes * bytes)) :=
  take_identified (at_send_goal_request ts) (rcl_action_take_goal_request (as_server server)) "rcl_action_take_goal_request"
    (fun request header uuid => goal_cdr <~ serialize_message (at_goal ts) (request + 16) ;; ret (header, uuid, goal_cdr)).

Definition accept_goal (server : ActionServer) (ts : ActionTypeSupport) (header : RequestId) (uuid : bytes) : Rcl Z :=
  handle <~ check (rcl_action_accept_new_goal (as_server server) uuid) "rcl_action_accept_new_goal" ;;
  response <~ allocate_message (at_send_goal_response ts) ;;
  proc (store_bool response true) ;;~
  send <~ returned (rcl_action_send_goal_response (as_server server) header response) ;;
  destroy_message (at_send_goal_response ts) response ;;~
  checked send "rcl_action_send_goal_response" ;;~
  ret handle.

Definition take_result_request (server : ActionServer) (ts : ActionTypeSupport) : Rcl (option (RequestId * bytes)) :=
  take_identified (at_get_result_request ts) (rcl_action_take_result_request (as_server server)) "rcl_action_take_result_request"
    (fun _ header uuid => ret (header, uuid)).

Definition send_result (server : ActionServer) (ts : ActionTypeSupport) (header : RequestId) (cdr : bytes) : Rcl unit :=
  response <~ allocate_message (at_get_result_response ts) ;;
  result <~ attempt
    (deserialize_into (at_get_result_response ts) cdr response ;;~
     check (rcl_action_send_result_response (as_server server) header response) "rcl_action_send_result_response") ;;
  destroy_message (at_get_result_response ts) response ;;~
  settle result.

(** The goal may already execute; then it must succeed. *)
Definition succeed_goal (server : ActionServer) (handle : Z) : Rcl unit :=
  exec <~ returned (rcl_action_update_goal_state handle false) ;;
  match exec with inl _ => ret tt | inr _ => proc rcutils_reset_error end ;;~
  check (rcl_action_update_goal_state handle true) "rcl_action_update_goal_state SUCCEED" ;;~
  check (rcl_action_notify_goal_done (as_server server)) "rcl_action_notify_goal_done".

Definition publish_feedback (server : ActionServer) (ts : ActionTypeSupport) (uuid cdr : bytes) : Rcl unit :=
  msg <~ allocate_message (at_feedback_message ts) ;;
  proc (store16 msg uuid) ;;~
  result <~ attempt
    (deserialize_into (at_feedback ts) cdr (msg + 16) ;;~
     check (rcl_action_publish_feedback (as_server server) msg) "rcl_action_publish_feedback") ;;
  destroy_message (at_feedback_message ts) msg ;;~
  settle result.

Definition publish_status (server : ActionServer) : Rcl unit :=
  array <~ check (rcl_action_get_goal_status_array (as_server server)) "rcl_action_get_goal_status_array" ;;
  pub_ret <~ returned (rcl_action_publish_status (as_server server) array) ;;
  proc (rcl_action_goal_status_array_fini array) ;;~
  checked pub_ret "rcl_action_publish_status".

Definition take_cancel (server : ActionServer) (ts : ActionTypeSupport) : Rcl (option (RequestId * bytes * bytes)) :=
  take_identified (at_cancel_request ts) (rcl_action_take_cancel_request (as_server server)) "rcl_action_take_cancel_request"
    (fun request header uuid =>
       cdr <~ serialize_message (at_cancel_request ts) request ;;
       response <~ gets zero_initialized_cancel_response ;;
       processed <~ attempt (check (rcl_action_process_cancel_request (as_server server) request response) "rcl_action_process_cancel_request") ;;
       match processed with
       | inr err => proc (rcl_action_cancel_response_fini response) ;;~ throw err
       | inl _ =>
           send <~ returned (rcl_action_send_cancel_response (as_server server) header response) ;;
           proc (rcl_action_cancel_response_fini response) ;;~
           checked send "rcl_action_send_cancel_response" ;;~
           ret (header, uuid, cdr)
       end).

(** *** Wait sets *)

Record WaitSet := mk_wait_set { ws_handle : Z; ws_subscription_capacity : Z; ws_service_capacity : Z }.
Record WaitReady := mk_ready { wr_subscriptions : list nat; wr_services : list nat }.

Definition WaitSet_new (subscriptions clients services guards : Z) : Rcl WaitSet :=
  h <~ check (rcl_wait_set_init subscriptions guards clients services) "rcl_wait_set_init" ;;
  ret (mk_wait_set h subscriptions services).
Definition WaitSet_fini (ws : WaitSet) : Rcl unit := proc (rcl_wait_set_fini (ws_handle ws)).

Definition add_operation (kind : EntityKind) : string :=
  match kind with
  | KSubscription => "rcl_wait_set_add_subscription" | KService => "rcl_wait_set_add_service"
  | KActionClient => "rcl_action_wait_set_add_action_client" | _ => "rcl_wait_set_add_client"
  end.
Definition add_entity (ws : WaitSet) (kind : EntityKind) (handle : Z) : Rcl unit :=
  check (rcl_wait_set_add kind (ws_handle ws) handle) (add_operation kind).
Fixpoint add_entities (ws : WaitSet) (kind : EntityKind) (handles : list Z) : Rcl unit :=
  match handles with [] => ret tt | h :: hs => add_entity ws kind h ;;~ add_entities ws kind hs end.

(** A finalized guard condition is a null pointer and is not added. *)
Definition add_guard (ws : WaitSet) (guard : option Z) : Rcl unit :=
  match guard with
  | None => ret tt
  | Some g => check (rcl_wait_set_add_guard_condition (ws_handle ws) g) "rcl_wait_set_add_guard_condition"
  end.
Definition rcl_wait_ns (ws : WaitSet) (timeout_ns : Z) : Rcl (option (list bool * list bool)) :=
  check (rcl_wait (ws_handle ws) timeout_ns) "rcl_wait".

(** The indices below [count] whose flag is set. *)
Definition ready_indices (count : nat) (flags : list bool) : list nat := List.filter (fun i => nth i flags false) (seq 0 count).

Definition WaitSet_wait (ws : WaitSet) (subscriptions services : list Z) (guard : option Z) (timeout_ns : Z) : Rcl WaitReady :=
  if negb ((blen subscriptions <=? ws_subscription_capacity ws) && (blen services <=? ws_service_capacity ws)) then lift Panic
  else
    check (rcl_wait_set_clear (ws_handle ws)) "rcl_wait_set_clear" ;;~
    add_entities ws KSubscription subscriptions ;;~
    add_entities ws KService services ;;~
    add_guard ws guard ;;~
    r <~ rcl_wait_ns ws timeout_ns ;;
    ret (match r with
         | None => mk_ready [] []
         | Some (subs, svcs) => mk_ready (ready_indices (length subscriptions) subs) (ready_indices (length services) svcs)
         end).

(** [wait_raw_client] and [wait_action_client]; who calls them ignores what is ready. *)
Definition wait_one (ws : WaitSet) (kind : EntityKind) (client : Z) (guard : option Z) (timeout_ns : Z) : Rcl unit :=
  check (rcl_wait_set_clear (ws_handle ws)) "rcl_wait_set_clear" ;;~
  add_entity ws kind client ;;~
  add_guard ws guard ;;~
  rcl_wait_ns ws timeout_ns ;;~
  ret tt.

Definition wait_action_ready (client : Z) (guard : option Z) (timeout_ns : Z) : Rcl unit :=
  nums <~ check (rcl_action_client_wait_set_get_num_entities client) "rcl_action_client_wait_set_get_num_entities" ;;
  let '(subs, gcs, clients, services) := nums in
  ws <~ WaitSet_new subs clients services (gcs + 1) ;;
  wait_one ws KActionClient client guard timeout_ns ;;~
  WaitSet_fini ws.

(** *** Calls that pump while they wait *)

Section Pump.
Context {W : Type}.
Variables (on_node : forall A, Rcl A -> SM W RclError A).
Variables (guard : option Z).
#[local] Arguments on_node {A} _.

(** What a wait brings: answers of the library and, meanwhile, commands. *)
Variable arrive : SM W RclError unit.

(** The waiting loop of the four calls: pump, give up at the deadline, wait (a
    [slice] at a time), take. *)
Definition await_response {A} (pump : SM W RclError unit) (timeout slice : Z) (late : string)
    (wait_ : Z -> Rcl unit) (take_ : Rcl (option A)) : SM W RclError A :=
  start <~ on_node (gets now) ;;
  loop_ns (Z.to_pos (timeout + 1))
    (pump ;;~
     instant <~ on_node (gets now) ;;
     let remaining := Z.max 0 (start + timeout - instant) in
     if remaining =? 0 then throw (lit late)
     else
       on_node (wait_ (Z.min remaining slice)) ;;~
       arrive ;;~
       on_node take_).

Definition call_with_pump (pump : SM W RclError unit) (client : Z) (request_ts response_ts : MessageTypeSupport)
    (request_cdr : bytes) (timeout : Z) : SM W RclError bytes :=
  request <~ on_node (allocate_message request_ts) ;;
  response <~ on_node (allocate_message response_ts) ;;
  ws <~ on_node (WaitSet_new 0 1 0 1) ;;
  result <~ attempt
    (on_node (deserialize_into request_ts request_cdr request) ;;~
     on_node (check (rcl_send_request client request) "rcl_send_request") ;;~
     await_response pump timeout timeout "service call timed out" (wait_one ws KClient client guard)
       (check (rcl_take_response client response) "rcl_take_response") ;;~
     on_node (serialize_message response_ts response)) ;;
  on_node (destroy_message request_ts request) ;;~
  on_node (destroy_message response_ts response) ;;~
  on_node (WaitSet_fini ws) ;;~
  settle result.

(** Action waits look again at least every 50 ms. *)
Definition ACTION_SLICE : Z := 50000000.
Definition await_action (pump : SM W RclError unit) (client timeout : Z) (late : string)
    (take_ : CFun (option RequestId)) (operation : string) : SM W RclError RequestId :=
  await_response pump timeout ACTION_SLICE late (wait_action_ready client guard) (check take_ operation).

Definition send_goal_result_with_pump (pump : SM W RclError unit) (client : Z) (ts : ActionTypeSupport)
    (operation_id goal_cdr : bytes) (timeout : Z) : SM W RclError bytes :=
  goal_req <~ on_node (allocate_message (at_send_goal_request ts)) ;;
  goal_resp <~ on_node (allocate_message (at_send_goal_response ts)) ;;
  result_req <~ on_node (allocate_message (at_get_result_request ts)) ;;
  result_resp <~ on_node (allocate_message (at_get_result_response ts)) ;;
  result <~ attempt
    (on_node (proc (store16 goal_req operation_id)) ;;~
     on_node (deserialize_into (at_goal ts) goal_cdr (goal_req + 16)) ;;~
     on_node (check (rcl_action_send_goal_request client goal_req) "rcl_action_send_goal_request") ;;~
     await_action pump client timeout "action goal response timed out"
       (rcl_action_take_goal_response client goal_resp) "rcl_action_take_goal_response" ;;~
     accepted <~ on_node (gets (load_bool goal_resp)) ;;
     if negb accepted then throw (lit "action goal rejected")
     else
       on_node (proc (store16 result_req operation_id)) ;;~
       on_node (check (rcl_action_send_result_request client result_req) "rcl_action_send_result_request") ;;~
       await_action pump client timeout "action result response timed out"
         (rcl_action_take_result_response client result_resp) "rcl_action_take_result_response" ;;~
       on_node (serialize_message (at_get_result_response ts) result_resp)) ;;
  on_node (destroy_message (at_send_goal_request ts) goal_req) ;;~
  on_node (destroy_message (at_send_goal_response ts) goal_resp) ;;~
  on_node (destroy_message (at_get_result_request ts) result_req) ;;~
  on_node (destroy_message (at_get_result_response ts) result_resp) ;;~
  settle result.

(** Canceling does not pump. *)
Definition cancel_goal (client : Z) (ts : ActionTypeSupport) (operation_id : bytes) (timeout : Z) : SM W RclError bytes :=
  cancel_req <~ on_node (allocate_message (at_cancel_request ts)) ;;
  cancel_resp <~ on_node (allocate_message (at_cancel_response ts)) ;;
  result <~ attempt
    (on_node (proc (store16 cancel_req operation_id)) ;;~
     on_node (check (rcl_action_send_cancel_request client cancel_req) "rcl_action_send_cancel_request") ;;~
     await_action (ret tt) client timeout "action cancel response timed out"
       (rcl_action_take_cancel_response client cancel_resp) "rcl_action_take_cancel_response" ;;~
     on_node (serialize_message (at_cancel_response ts) cancel_resp)) ;;
  on_node (destroy_message (at_cancel_request ts) cancel_req) ;;~
  on_node (destroy_message (at_cancel_response ts) cancel_resp) ;;~
  settle result.

End Pump.
End Rcl.
