(* ===== verification/AdapterAbi.v ===== *)
(** * The adapter ABI and its probe

    [rclwebd/src/adapter/mod.rs], and from [config.rs] and [ros/backend.rs] what
    the ROS attachment checks with it before it starts. *)

From S2P Require Import Prelude Policy Backend.
#[local] Open Scope Z_scope.

Definition ABI_MAJOR : Z := 1.
Definition ABI_MINOR : Z := 0.
Definition ABI_VERSION_STRING : bytes := lit "serialized-adapter-v1".

Inductive AdapterStatus :=
| StatusOk | SchemaUnavailable | QosIncompatible | ResourceExhausted | Timeout_ | InvalidArgument | ProfileMismatch | Internal.

(** The discriminants. *)
Definition AdapterStatus_value (s : AdapterStatus) : Z :=
  match s with
  | StatusOk => 0 | SchemaUnavailable => 10 | QosIncompatible => 11 | ResourceExhausted => 13
  | Timeout_ => 14 | InvalidArgument => 15 | ProfileMismatch => 16 | Internal => 17
  end.

Definition AdapterStatus_wire_code (s : AdapterStatus) : Z :=
  match s with
  | StatusOk => 0
  | SchemaUnavailable => 10
  | QosIncompatible => 11
  | ResourceExhausted => 13
  | Timeout_ | InvalidArgument | ProfileMismatch | Internal => 13
  end.

Inductive BufferOwner := OwnerRust | OwnerAdapter.
#[export] Instance BufferOwner_eq_dec : EqDecision BufferOwner.
Proof. solve_decision. Defined.

Record AdapterBuffer := mk_adapter_buffer { ab_data : bytes; ab_owner : BufferOwner }.
Definition from_rust (bs : bytes) : AdapterBuffer := mk_adapter_buffer bs OwnerRust.
Definition from_adapter (bs : bytes) : AdapterBuffer := mk_adapter_buffer bs OwnerAdapter.
Definition release (buf : AdapterBuffer) (expected : BufferOwner) : option bytes :=
  if bool_decide (ab_owner buf = expected) then Some (ab_data buf) else None.

Definition HANDLE_INVALID : Z := 0.

Record AdapterProbe := mk_probe {
  ap_abi_major : Z; ap_abi_minor : Z; ap_support_row_id : bytes; ap_ros_distro : bytes; ap_rmw_implementation : bytes;
  ap_abi_version : bytes
}.

Definition for_row (support_row_id ros_distro rmw_implementation : bytes) : AdapterProbe :=
  mk_probe ABI_MAJOR ABI_MINOR support_row_id ros_distro rmw_implementation ABI_VERSION_STRING.

Definition check_compatible (p : AdapterProbe) (expected_row expected_distro expected_rmw : bytes) : outcome AdapterStatus unit :=
  if negb (ap_abi_major p =? ABI_MAJOR) then Err ProfileMismatch
  else if negb (bool_decide (ap_abi_version p = ABI_VERSION_STRING)) then Err ProfileMismatch
  else if negb (bool_decide (ap_support_row_id p = expected_row)) || negb (bool_decide (ap_ros_distro p = expected_distro))
  then Err ProfileMismatch
  else if negb (bool_decide (ap_rmw_implementation p = expected_rmw)) then Err ProfileMismatch
  else Ok tt.

Record QueueLimits := mk_queue_limits {
  ql_command_capacity : Z; ql_event_capacity : Z; ql_command_max_bytes : Z; ql_event_max_bytes : Z
}.
Definition QueueLimits_default : QueueLimits := mk_queue_limits 1024 1024 (16 * 1024 * 1024) (64 * 1024 * 1024).

(** ** The process environment *)

Record ProcessEnv := mk_process_env {
  env_support_row : option bytes; env_ros_distro : option bytes; env_rmw_implementation : option bytes
}.

(** [support_row_from_env]: the start-up messages are left out. *)
Definition support_row_from_env (env : ProcessEnv) : option SupportRow :=
  let detected := match detect_support_row (env_ros_distro env) (env_rmw_implementation env) with Ok row => Some row | _ => None end in
  match env_support_row env with
  | Some raw => if bool_decide (trim raw = []) then detected else parse_support_row raw
  | None => detected
  end.

(** [check_adapter_probe]; the message is left out. *)
Definition check_adapter_probe (env : ProcessEnv) : outcome Z unit :=
  let row := default SUPPORT_ROW_J_FT (support_row_from_env env) in
  let distro := default (row_ros_distro row) (env_ros_distro env) in
  let rmw := default (lit "rmw_fastrtps_cpp") (env_rmw_implementation env) in
  map_err AdapterStatus_wire_code (check_compatible (for_row (row_id row) distro rmw) (row_id row) (row_ros_distro row) (row_rmw_identifier row)).

(** ** What the probe makes of an environment *)

(** The probe passes exactly when the distribution and the middleware, each with its
    default, are the row's. *)
Lemma probe_passes env : let row := default SUPPORT_ROW_J_FT (support_row_from_env env) in
  check_adapter_probe env = Ok tt <->
  default (row_ros_distro row) (env_ros_distro env) = row_ros_distro row /\
  default (lit "rmw_fastrtps_cpp") (env_rmw_implementation env) = row_rmw_identifier row.
Proof.
  intros row. unfold check_adapter_probe. fold row. unfold check_compatible. cbn -[row].
  rewrite !bool_decide_eq_true_2 by done. cbn -[row].
  destruct (decide (default (row_ros_distro row) (env_ros_distro env) = row_ros_distro row)) as [Hd | Hd];
    destruct (decide (default (lit "rmw_fastrtps_cpp") (env_rmw_implementation env) = row_rmw_identifier row)) as [Hr | Hr];
    rewrite ?(bool_decide_eq_true_2 _ Hd), ?(bool_decide_eq_false_2 _ Hd), ?(bool_decide_eq_true_2 _ Hr), ?(bool_decide_eq_false_2 _ Hr);
    cbn; (split; [done | by intros []]).
Qed.

(** A row is resolved with the variables trimmed, and the probe takes them as they are. *)
Example untrimmed_environment_fails :
  let env := mk_process_env None (Some (lit "jazzy ")) None in
  support_row_from_env env = Some SUPPORT_ROW_J_FT /\ check_adapter_probe env = Err 13.
Proof. by vm_compute. Qed.
Example empty_middleware_fails :
  let env := mk_process_env None (Some (lit "jazzy")) (Some (lit "")) in
  support_row_from_env env = Some SUPPORT_ROW_J_FT /\ check_adapter_probe env = Err 13.
Proof. by vm_compute. Qed.

(** A row that cannot be resolved falls back to one the probe may well accept. *)
Example unresolved_row_passes :
  let env := mk_process_env (Some (lit "X-YY")) (Some (lit "jazzy")) None in
  support_row_from_env env = None /\ check_adapter_probe env = Ok tt.
Proof. by vm_compute. Qed.
