(* ===== verification/RosWorker.v ===== *)
(** * The ROS attachment thread

    [rclwebd/src/ros/backend.rs]: the worker that owns every entity of the client
    library, the commands it serves, the pumps that bring samples, requests and
    goals to the connections, and the [RosBackend] trait over its command channel.

    Other threads send commands at any time; the model lets them arrive while the
    worker waits ([arrive]).  A sink and a reply channel are their identifiers, and
    what the worker sends on them is its list of effects; a full or closed sink loses
    what is sent, as in the code.  A service call or an action goal serves further
    commands while it waits, so serving is recursive: [drain] has one unit of fuel for
    every command there will be. *)

From stdpp Require Import gmap pretty.
From S2P Require Import Prelude Policy Backend Typesupport Rcl.
#[local] Open Scope Z_scope.

Definition WAIT_TIMEOUT_NS : Z := 100000000.
Definition SERVICE_CALL_TIMEOUT : Z := 5000000000.
Definition ACTION_CALL_TIMEOUT : Z := 30000000000.

Abbreviation GraphTopics := (list (bytes * list bytes)).

Inductive Request :=
| CreateSubscription (spec : ChannelSpec) (sink : Z)
| CreatePublisher (spec : ChannelSpec)
| Publish (entity : EntityId) (payload : bytes)
| CreateClient (spec : ChannelSpec)
| CreateService (spec : ChannelSpec) (sink : Z)
| Call (entity : EntityId) (operation_id request : bytes)
| SendServiceResponse (entity : EntityId) (operation_id response : bytes)
| CreateActionClient (spec : ChannelSpec)
| SendActionGoal (entity : EntityId) (operation_id request : bytes)
| CancelAction (entity : EntityId) (operation_id request : bytes)
| CreateActionServer (spec : ChannelSpec) (sink : Z)
| SendActionFeedback (entity : EntityId) (operation_id payload : bytes)
| SendActionResult (entity : EntityId) (operation_id payload : bytes)
| SendActionStatus (entity : EntityId)
| Destroy (entity : EntityId)
| AskGraphTopics
| AskGraphView.

(** A command and its reply channel. *)
Record Command := mk_command { cmd_request : Request; cmd_reply : Z }.

Inductive Answer :=
| AnEntity (r : EntityId + BackendError)
| Done (r : unit + BackendError)
| SomeBytes (r : bytes + BackendError)
| Topics (r : GraphTopics + BackendError)
| View (r : GraphView + BackendError).

(** What the worker does to the outside.  The last two record the life of an entity. *)
Inductive Effect :=
| Reply (channel : Z) (answer : Answer)
| SendSample (sink : Z) (sample : SubscriptionSample)
| SendRequest (sink : Z) (request : ServiceRequest)
| SendInbound (sink : Z) (inbound : ActionInbound)
| Created (kind : EntityKind) (handle : Z)
| Finished (kind : EntityKind) (handle : Z).

Record SubscriptionEntry := mk_subscription { se_entity : EntityId; se_channel_id : Z; se_subscription : Z; se_sink : Z }.
Record ClientEntry := mk_client { ce_client : Z; ce_ts : ServiceTypeSupport }.
Record ServiceEntry := mk_service {
  sv_channel_id : Z; sv_service : Z; sv_ts : ServiceTypeSupport; sv_sink : Z; sv_pending : gmap bytes RequestId; sv_next_opid : Z
}.
Record ActionClientEntry := mk_action_client { ac_client : Z; ac_ts : ActionTypeSupport }.
Record GoalSlot := mk_goal {
  gs_handle : Z; gs_pending_result_header : option RequestId; gs_result_cdr : option bytes; gs_succeeded : bool
}.
Record ActionServerEntry := mk_server_entry {
  sr_channel : Z; sr_server : ActionServer; sr_ts : ActionTypeSupport; sr_sink : Z; sr_goals : gmap bytes GoalSlot
}.

Record Entities := mk_entities {
  en_subscriptions : list SubscriptionEntry;
  en_publishers : gmap EntityId Z;
  en_clients : gmap EntityId ClientEntry;
  en_services : gmap EntityId ServiceEntry;
  en_action_clients : gmap EntityId ActionClientEntry;
  en_action_servers : gmap EntityId ActionServerEntry
}.
Definition no_entities : Entities := mk_entities [] ∅ ∅ ∅ ∅ ∅.
Definition on_subscriptions f (e : Entities) : Entities :=
  mk_entities (f (en_subscriptions e)) (en_publishers e) (en_clients e) (en_services e) (en_action_clients e) (en_action_servers e).
Definition on_publishers f (e : Entities) : Entities :=
  mk_entities (en_subscriptions e) (f (en_publishers e)) (en_clients e) (en_services e) (en_action_clients e) (en_action_servers e).
Definition on_clients f (e : Entities) : Entities :=
  mk_entities (en_subscriptions e) (en_publishers e) (f (en_clients e)) (en_services e) (en_action_clients e) (en_action_servers e).
Definition on_services f (e : Entities) : Entities :=
  mk_entities (en_subscriptions e) (en_publishers e) (en_clients e) (f (en_services e)) (en_action_clients e) (en_action_servers e).
Definition on_action_clients f (e : Entities) : Entities :=
  mk_entities (en_subscriptions e) (en_publishers e) (en_clients e) (en_services e) (f (en_action_clients e)) (en_action_servers e).
Definition on_action_servers f (e : Entities) : Entities :=
  mk_entities (en_subscriptions e) (en_publishers e) (en_clients e) (en_services e) (en_action_clients e) (f (en_action_servers e)).

Definition map_rcl_error (message : bytes) : BackendError := mk_backend_error 13 message.
Definition map_pump_error (err : BackendError) : bytes := err_message err.

Section Worker.
Context `{RclLibrary} `{Linker}.

Record Worker := mk_worker {
  wk_node : Node;
  wk_entities : Entities;
  wk_next_entity : Z;
  wk_cache : Cache;
  wk_wait_set : WaitSet;
  wk_take : TakeBuffer;
  wk_queue : list Command;
  wk_hung_up : bool;
  wk_arrivals : list (list Command * bool);
  wk_effects : list Effect
}.

Definition set_node (n : Node) (w : Worker) : Worker :=
  mk_worker n (wk_entities w) (wk_next_entity w) (wk_cache w) (wk_wait_set w) (wk_take w) (wk_queue w) (wk_hung_up w)
    (wk_arrivals w) (wk_effects w).
Definition set_entities (e : Entities) (w : Worker) : Worker :=
  mk_worker (wk_node w) e (wk_next_entity w) (wk_cache w) (wk_wait_set w) (wk_take w) (wk_queue w) (wk_hung_up w)
    (wk_arrivals w) (wk_effects w).
Definition set_next_entity (i : Z) (w : Worker) : Worker :=
  mk_worker (wk_node w) (wk_entities w) i (wk_cache w) (wk_wait_set w) (wk_take w) (wk_queue w) (wk_hung_up w)
    (wk_arrivals w) (wk_effects w).
Definition set_cache (c : Cache) (w : Worker) : Worker :=
  mk_worker (wk_node w) (wk_entities w) (wk_next_entity w) c (wk_wait_set w) (wk_take w) (wk_queue w) (wk_hung_up w)
    (wk_arrivals w) (wk_effects w).
Definition set_wait_set (ws : WaitSet) (w : Worker) : Worker :=
  mk_worker (wk_node w) (wk_entities w) (wk_next_entity w) (wk_cache w) ws (wk_take w) (wk_queue w) (wk_hung_up w)
    (wk_arrivals w) (wk_effects w).
Definition set_take (t : TakeBuffer) (w : Worker) : Worker :=
  mk_worker (wk_node w) (wk_entities w) (wk_next_entity w) (wk_cache w) (wk_wait_set w) t (wk_queue w) (wk_hung_up w)
    (wk_arrivals w) (wk_effects w).
Definition set_inbox (queue : list Command) (hung_up : bool) (arrivals : list (list Command * bool)) (w : Worker) : Worker :=
  mk_worker (wk_node w) (wk_entities w) (wk_next_entity w) (wk_cache w) (wk_wait_set w) (wk_take w) queue hung_up arrivals (wk_effects w).
Definition add_effect (e : Effect) (w : Worker) : Worker :=
  mk_worker (wk_node w) (wk_entities w) (wk_next_entity w) (wk_cache w) (wk_wait_set w) (wk_take w) (wk_queue w) (wk_hung_up w)
    (wk_arrivals w) (wk_effects w ++ [e]).

Abbreviation Work := (SM Worker BackendError).

Definition on_node_ {E A} (m : SM Node E A) : SM Worker E A := fun w =>
  let '(r, n) := m (wk_node w) in (r, set_node n w).
Definition effect {E} (e : Effect) : SM Worker E unit := modify (add_effect e).
Definition entities_ {E A} (f : Entities -> A) : SM Worker E A := gets (fun w => f (wk_entities w)).
Definition on_entities {E} (f : Entities -> Entities) : SM Worker E unit := modify (fun w => set_entities (f (wk_entities w)) w).

(** [map_err] around a call. *)
Definition map_err_ {E F A} (f : E -> F) (m : SM Worker E A) : SM Worker F A := fun w => let '(r, w') := m w in (map_err f r, w').
Definition rcl_ {A} (m : SM Node bytes A) : Work A := map_err_ map_rcl_error (on_node_ m).
Definition found {A} (o : option A) (message : string) : Work A := lift (ok_or o (map_rcl_error (lit message))).

(** Commands arrive during a wait; the senders may be gone after. *)
Definition arrive {E} : SM Worker E unit :=
  modify (fun w =>
    match wk_arrivals w with
    | [] => w
    | (commands, hung_up) :: rest => set_inbox (wk_queue w ++ commands) (wk_hung_up w || hung_up) rest w
    end).
Definition all_commands (w : Worker) : list Command := wk_queue w ++ concat (map fst (wk_arrivals w)).

(** [try_recv]: [inr] says whether the senders are gone. *)
Definition try_recv : Work (Command + bool) := fun w =>
  match wk_queue w with
  | c :: queue => (Ok (inl c), set_inbox queue (wk_hung_up w) (wk_arrivals w) w)
  | [] => (Ok (inr (wk_hung_up w)), w)
  end.

Variables (env : RosEnv) (domain_id pid : Z) (guard : option Z).

(** *** Creation *)

Definition allocate : Work EntityId :=
  modify (fun w => set_next_entity (as_unsigned 64 (wk_next_entity w + 1)) w) ;;~
  gets wk_next_entity.

(** [let Some(ts) = .. else { return Err(..) }]. *)
Definition typesupport {A} (load : SM Cache unit A) (type_name : bytes) : Work A := fun w =>
  let '(r, c) := load (wk_cache w) in
  (map_err (fun _ => mk_backend_error 10 (lit "no dynamic typesupport for " ++ type_name)) r, set_cache c w).

Definition created (kind : EntityKind) (m : Work Z) : Work Z :=
  handle <~ m ;;
  effect (Created kind handle) ;;~
  ret handle.
Definition finish (kind : EntityKind) (handle : Z) : Work unit :=
  rcl_ (entity_fini kind handle) ;;~
  effect (Finished kind handle).

Definition create_subscription_ (spec : ChannelSpec) (sink : Z) : Work EntityId :=
  msg_ts <~ typesupport (message_type_support env (cs_type_name spec)) (cs_type_name spec) ;;
  subscription <~ created KSubscription (rcl_ (entity_create KSubscription (cs_topic spec) (mt_handle msg_ts) (cs_qos spec))) ;;
  entity <~ allocate ;;
  on_entities (on_subscriptions (fun l => l ++ [mk_subscription entity (cs_channel_id spec) subscription sink])) ;;~
  ret entity.
Definition create_publisher_ (spec : ChannelSpec) : Work EntityId :=
  msg_ts <~ typesupport (message_type_support env (cs_type_name spec)) (cs_type_name spec) ;;
  publisher <~ created KPublisher (rcl_ (entity_create KPublisher (cs_topic spec) (mt_handle msg_ts) (cs_qos spec))) ;;
  entity <~ allocate ;;
  on_entities (on_publishers (<[entity := publisher]>)) ;;~
  ret entity.
Definition create_client_ (spec : ChannelSpec) : Work EntityId :=
  service_ts <~ typesupport (service_type_support env (cs_type_name spec)) (cs_type_name spec) ;;
  client <~ created KClient (rcl_ (entity_create KClient (cs_topic spec) (st_handle service_ts) (cs_qos spec))) ;;
  entity <~ allocate ;;
  on_entities (on_clients (<[entity := mk_client client service_ts]>)) ;;~
  ret entity.
Definition create_service_ (spec : ChannelSpec) (sink : Z) : Work EntityId :=
  service_ts <~ typesupport (service_type_support env (cs_type_name spec)) (cs_type_name spec) ;;
  service <~ created KService (rcl_ (entity_create KService (cs_topic spec) (st_handle service_ts) (cs_qos spec))) ;;
  entity <~ allocate ;;
  on_entities (on_services (<[entity := mk_service (cs_channel_id spec) service service_ts sink ∅ 0]>)) ;;~
  ret entity.
Definition create_action_client_ (spec : ChannelSpec) : Work EntityId :=
  action_ts <~ typesupport (action_type_support env (cs_type_name spec)) (cs_type_name spec) ;;
  client <~ created KActionClient (rcl_ (entity_create KActionClient (cs_topic spec) (at_handle action_ts) (cs_qos spec))) ;;
  entity <~ allocate ;;
  on_entities (on_action_clients (<[entity := mk_action_client client action_ts]>)) ;;~
  ret entity.
Definition create_action_server_ (spec : ChannelSpec) (sink : Z) : Work EntityId :=
  action_ts <~ typesupport (action_type_support env (cs_type_name spec)) (cs_type_name spec) ;;
  server <~ rcl_ (ActionServer_create (cs_topic spec) (at_handle action_ts) (cs_qos spec)) ;;
  effect (Created KActionServer (as_server server)) ;;~
  entity <~ allocate ;;
  on_entities (on_action_servers (<[entity := mk_server_entry (cs_channel_id spec) server action_ts sink ∅]>)) ;;~
  ret entity.

(** *** Pumps *)

Fixpoint each {E A} (xs : list A) (body : A -> SM Worker E unit) : SM Worker E unit :=
  match xs with [] => ret tt | x :: xs' => body x ;;~ each xs' body end.

(** [loop { match take { .. } }]: [break] on nothing and on an error. *)
Definition take_all {A} (take_ : Work (option A)) (use : A -> Work bool) : Work unit := fun w =>
  loop_nat (S (backlog (wk_node w)))
    (r <~ attempt take_ ;;
     match r with
     | inl (Some a) => go_on <~ use a ;; ret (if go_on : bool then None else Some tt)
     | inl None | inr _ => ret (Some tt)
     end) w.

Definition pump_ready_subscriptions (ready : list nat) : Work unit :=
  each ready (fun index =>
    entry <~ entities_ (fun e => en_subscriptions e !! index) ;;
    match entry with
    | None => ret tt
    | Some entry =>
        take_all (scratch <~ gets wk_take ;; rcl_ (take_serialized (se_subscription entry) scratch))
          (fun tb =>
             let '(frame_buf, tb') := steal_prefixed_frame tb in
             modify (set_take tb') ;;~
             sample <~ lift (from_prefixed_buffer (se_channel_id entry) frame_buf) ;;
             effect (SendSample (se_sink entry) sample) ;;~
             ret true)
    end).

(** [*counter += 1] and the id of the new value. *)
Definition next_operation_id (counter : Z) : bytes * Z :=
  let counter := as_unsigned 64 (counter + 1) in (zeros 8 ++ to_be 8 counter, counter).

Definition pump_ready_services (order : list EntityId) (ready : list nat) : Work unit :=
  each ready (fun index =>
    match order !! index with
    | None => ret tt
    | Some entity =>
        entry <~ entities_ (fun e => en_services e !! entity) ;;
        match entry with
        | None => ret tt
        | Some entry =>
            take_all (rcl_ (take_request (sv_service entry) (st_request (sv_ts entry))))
              (fun '(header, cdr) =>
                 current <~ entities_ (fun e => default entry (en_services e !! entity)) ;;
                 let '(operation_id, counter) := next_operation_id (sv_next_opid current) in
                 on_entities (on_services (alter (fun s =>
                   mk_service (sv_channel_id s) (sv_service s) (sv_ts s) (sv_sink s) (<[operation_id := header]> (sv_pending s)) counter)
                   entity)) ;;~
                 effect (SendRequest (sv_sink entry) (request_from_payload (sv_channel_id entry) operation_id cdr)) ;;~
                 ret true)
        end
    end).

Definition keys {A} (m : gmap EntityId A) : list EntityId := map fst (map_to_list m).

Definition pump_all_services_and_subscriptions : Work unit :=
  subs <~ entities_ (fun e => seq 0 (length (en_subscriptions e))) ;;
  pump_ready_subscriptions subs ;;~
  svc_entities <~ entities_ (fun e => keys (en_services e)) ;;
  pump_ready_services svc_entities (seq 0 (length svc_entities)).

Definition goals_of (entity : EntityId) (e : Entities) : gmap bytes GoalSlot :=
  match en_action_servers e !! entity with Some entry => sr_goals entry | None => ∅ end.
Definition on_goals (entity : EntityId) (f : gmap bytes GoalSlot -> gmap bytes GoalSlot) : Entities -> Entities :=
  on_action_servers (alter (fun entry =>
    mk_server_entry (sr_channel entry) (sr_server entry) (sr_ts entry) (sr_sink entry) (f (sr_goals entry))) entity).

Definition pump_goals (entity : EntityId) (entry : ActionServerEntry) : Work unit :=
  take_all (rcl_ (take_goal (sr_server entry) (sr_ts entry))) (fun '(header, uuid, goal_cdr) =>
    accepted <~ attempt (rcl_ (accept_goal (sr_server entry) (sr_ts entry) header uuid)) ;;
    match accepted with
    | inr _ => ret false
    | inl handle =>
        on_entities (on_goals entity (<[uuid := mk_goal handle None None false]>)) ;;~
        effect (SendInbound (sr_sink entry) (from_goal_payload (sr_channel entry) uuid goal_cdr)) ;;~
        ret true
    end).

Definition mark_succeeded (entity : EntityId) (uuid : bytes) : Entities -> Entities :=
  on_goals entity (alter (fun slot => mk_goal (gs_handle slot) (gs_pending_result_header slot) (gs_result_cdr slot) true) uuid).

Definition pump_results (entity : EntityId) (entry : ActionServerEntry) : Work unit :=
  take_all (rcl_ (take_result_request (sr_server entry) (sr_ts entry))) (fun '(header, uuid) =>
    slot <~ entities_ (fun e => goals_of entity e !! uuid) ;;
    match slot with
    | None => ret true
    | Some slot =>
        let ready := gs_result_cdr slot in
        on_entities (on_goals entity (<[uuid := mk_goal (gs_handle slot)
          (match ready with None => Some header | Some _ => None end) ready (gs_succeeded slot)]>)) ;;~
        match ready with
        | None => ret true
        | Some cdr =>
            done <~ (if gs_succeeded slot then ret true
                     else
                       r <~ attempt (rcl_ (succeed_goal (sr_server entry) (gs_handle slot))) ;;
                       match r with
                       | inr _ => ret false
                       | inl _ => on_entities (mark_succeeded entity uuid) ;;~ ret true
                       end) ;;
            if done : bool then attempt (rcl_ (send_result (sr_server entry) (sr_ts entry) header cdr)) ;;~ ret true else ret true
        end
    end).

Definition pump_cancels (entry : ActionServerEntry) : Work unit :=
  take_all (rcl_ (take_cancel (sr_server entry) (sr_ts entry))) (fun '(_, uuid, cdr) =>
    effect (SendInbound (sr_sink entry) (from_cancel_payload (sr_channel entry) uuid cdr)) ;;~
    ret true).

Definition pump_one_action_server (entity : EntityId) : Work unit :=
  entry <~ entities_ (fun e => en_action_servers e !! entity) ;;
  match entry with
  | None => ret tt
  | Some entry => pump_goals entity entry ;;~ pump_results entity entry ;;~ pump_cancels entry
  end.
Definition pump_action_servers : Work unit :=
  order <~ entities_ (fun e => keys (en_action_servers e)) ;;
  each order pump_one_action_server.

(** *** Commands *)

Definition publish_ (entity : EntityId) (payload : bytes) : Work unit :=
  publisher <~ entities_ (fun e => en_publishers e !! entity) ;;
  publisher <~ found publisher "unknown publisher entity" ;;
  rcl_ (publisher_publish publisher payload).

(** The entry is out of the map while the call waits, and goes back after. *)
Definition call_client (pump : SM Worker bytes unit) (entity : EntityId) (request : bytes) : Work bytes :=
  entry <~ entities_ (fun e => en_clients e !! entity) ;;
  entry <~ found entry "unknown service client entity" ;;
  on_entities (on_clients (delete entity)) ;;~
  result <~ attempt (map_err_ map_rcl_error
    (call_with_pump (fun A => on_node_) guard arrive pump (ce_client entry) (st_request (ce_ts entry)) (st_response (ce_ts entry))
       request SERVICE_CALL_TIMEOUT)) ;;
  on_entities (on_clients (<[entity := entry]>)) ;;~
  settle result.

Definition send_service_response_ (entity : EntityId) (operation_id response : bytes) : Work unit :=
  entry <~ entities_ (fun e => en_services e !! entity) ;;
  entry <~ found entry "unknown service server entity" ;;
  header <~ found (sv_pending entry !! operation_id) "unknown service operation_id" ;;
  on_entities (on_services (alter (fun s =>
    mk_service (sv_channel_id s) (sv_service s) (sv_ts s) (sv_sink s) (delete operation_id (sv_pending s)) (sv_next_opid s)) entity)) ;;~
  rcl_ (send_response (sv_service entry) (st_response (sv_ts entry)) header response).

Definition send_action_goal_ (pump : SM Worker bytes unit) (entity : EntityId) (operation_id goal_cdr : bytes) : Work bytes :=
  entry <~ entities_ (fun e => en_action_clients e !! entity) ;;
  entry <~ found entry "unknown action client entity" ;;
  on_entities (on_action_clients (delete entity)) ;;~
  result <~ attempt (map_err_ map_rcl_error
    (send_goal_result_with_pump (fun A => on_node_) guard arrive pump (ac_client entry) (ac_ts entry) operation_id goal_cdr
       ACTION_CALL_TIMEOUT)) ;;
  on_entities (on_action_clients (<[entity := entry]>)) ;;~
  settle result.

Definition cancel_action_ (entity : EntityId) (operation_id : bytes) : Work bytes :=
  entry <~ entities_ (fun e => en_action_clients e !! entity) ;;
  entry <~ found entry "unknown action client entity" ;;
  map_err_ map_rcl_error
    (cancel_goal (fun A => on_node_) guard arrive (ac_client entry) (ac_ts entry) operation_id ACTION_CALL_TIMEOUT).

Definition send_action_feedback_ (entity : EntityId) (operation_id payload : bytes) : Work unit :=
  entry <~ entities_ (fun e => en_action_servers e !! entity) ;;
  entry <~ found entry "unknown action server entity" ;;
  found (sr_goals entry !! operation_id) "unknown action goal operation_id" ;;~
  rcl_ (publish_feedback (sr_server entry) (sr_ts entry) operation_id payload).

Definition send_action_result_ (entity : EntityId) (operation_id payload : bytes) : Work unit :=
  entry <~ entities_ (fun e => en_action_servers e !! entity) ;;
  entry <~ found entry "unknown action server entity" ;;
  slot <~ found (sr_goals entry !! operation_id) "unknown action goal operation_id" ;;
  on_entities (on_goals entity (<[operation_id := mk_goal (gs_handle slot) None (Some payload) (gs_succeeded slot)]>)) ;;~
  (if gs_succeeded slot then ret tt
   else
     rcl_ (succeed_goal (sr_server entry) (gs_handle slot)) ;;~
     on_entities (mark_succeeded entity operation_id)) ;;~
  match gs_pending_result_header slot with
  | Some header => rcl_ (send_result (sr_server entry) (sr_ts entry) header payload)
  | None => ret tt
  end.

Definition send_action_status_ (entity : EntityId) : Work unit :=
  entry <~ entities_ (fun e => en_action_servers e !! entity) ;;
  entry <~ found entry "unknown action server entity" ;;
  rcl_ (publish_status (sr_server entry)).

Definition finish_server (s : ActionServer) : Work unit :=
  rcl_ (ActionServer_fini s) ;;~
  effect (Finished KActionServer (as_server s)).

(** [Vec::remove] at the first entry of the entity. *)
Fixpoint remove_subscription (entity : EntityId) (l : list SubscriptionEntry) : option (SubscriptionEntry * list SubscriptionEntry) :=
  match l with
  | [] => None
  | entry :: l' =>
      if se_entity entry =? entity then Some (entry, l')
      else match remove_subscription entity l' with Some (x, rest) => Some (x, entry :: rest) | None => None end
  end.

(** [if let Some(x) = map.remove(&entity) { x.fini(..) }]. *)
Definition remove_one {A} (get : Entities -> gmap EntityId A) (on : (gmap EntityId A -> gmap EntityId A) -> Entities -> Entities)
    (entity : EntityId) (fini : A -> Work unit) : Work unit :=
  entry <~ entities_ (fun e => get e !! entity) ;;
  match entry with
  | None => ret tt
  | Some x => on_entities (on (delete entity)) ;;~ fini x
  end.

Definition destroy_entity (entity : EntityId) : Work unit :=
  (removed <~ entities_ (fun e => remove_subscription entity (en_subscriptions e)) ;;
   match removed with
   | None => ret tt
   | Some (entry, rest) =>
       on_entities (on_subscriptions (fun _ => rest)) ;;~
       finish KSubscription (se_subscription entry)
   end) ;;~
  remove_one en_publishers on_publishers entity (finish KPublisher) ;;~
  remove_one en_clients on_clients entity (fun x => finish KClient (ce_client x)) ;;~
  remove_one en_services on_services entity (fun x => finish KService (sv_service x)) ;;~
  remove_one en_action_clients on_action_clients entity (fun x => finish KActionClient (ac_client x)) ;;~
  remove_one en_action_servers on_action_servers entity (fun x => finish_server (sr_server x)).

Definition graph_topics : Work GraphTopics :=
  rcl_ (check (rcl_names_and_types false) "rcl_get_topic_names_and_types").

Definition endpoint_of (node_id : bytes) (kind : Z) (fallback : string) (index : nat) (row : bytes * list bytes) : GraphEndpointInfo :=
  mk_endpoint (zeros 8 ++ to_be 8 (Z.min u64_max (Z.of_nat index + 1))) node_id row.1 kind
    (match row.2 with t :: _ => t | [] => lit fallback end) domain_id.

Definition build_graph_view : Work GraphView :=
  topics <~ graph_topics ;;
  services <~ rcl_ (check (rcl_names_and_types true) "rcl_get_service_names_and_types") ;;
  let node_id := zeros 15 ++ [1] in
  let node := mk_node node_id (lit "rclwebd_" ++ lit (pretty (Z.to_N pid))) None domain_id in
  ret (mk_view [node]
    (imap (endpoint_of node_id 0 "std_msgs/msg/String") topics ++
     imap (fun i => endpoint_of node_id 2 "std_msgs/srv/Empty" (length topics + i)) services)).

(** [let _ = reply.send(result)]. *)
Definition answer {A} (channel : Z) (f : A + BackendError -> Answer) (m : Work A) : Work unit :=
  r <~ attempt m ;;
  effect (Reply channel (f r)).

Definition handle (pump_call pump_goal : SM Worker bytes unit) (c : Command) : Work unit :=
  let reply := cmd_reply c in
  match cmd_request c with
  | CreateSubscription spec sink => answer reply AnEntity (create_subscription_ spec sink)
  | CreatePublisher spec => answer reply AnEntity (create_publisher_ spec)
  | Publish entity payload => answer reply Done (publish_ entity payload)
  | CreateClient spec => answer reply AnEntity (create_client_ spec)
  | CreateService spec sink => answer reply AnEntity (create_service_ spec sink)
  | Call entity _ request => answer reply SomeBytes (call_client pump_call entity request)
  | SendServiceResponse entity operation_id response => answer reply Done (send_service_response_ entity operation_id response)
  | CreateActionClient spec => answer reply AnEntity (create_action_client_ spec)
  | SendActionGoal entity operation_id request => answer reply SomeBytes (send_action_goal_ pump_goal entity operation_id request)
  | CancelAction entity operation_id _ => answer reply SomeBytes (cancel_action_ entity operation_id)
  | CreateActionServer spec sink => answer reply AnEntity (create_action_server_ spec sink)
  | SendActionFeedback entity operation_id payload => answer reply Done (send_action_feedback_ entity operation_id payload)
  | SendActionResult entity operation_id payload => answer reply Done (send_action_result_ entity operation_id payload)
  | SendActionStatus entity => answer reply Done (send_action_status_ entity)
  | Destroy entity => answer reply Done (destroy_entity entity)
  | AskGraphTopics => answer reply Topics graph_topics
  | AskGraphView => answer reply View build_graph_view
  end.

(** [drain_commands]: [false] when the senders are gone.  The pumps of a waiting
    call drain too, and ignore that. *)
Fixpoint drain (fuel : nat) : Work bool :=
  match fuel with
  | O => lift Panic
  | S fuel =>
      c <~ try_recv ;;
      match c with
      | inr hung_up => ret (negb hung_up)
      | inl command =>
          let pump_call := map_err_ map_pump_error (drain fuel ;;~ pump_all_services_and_subscriptions) in
          let pump_goal := map_err_ map_pump_error (drain fuel ;;~ pump_all_services_and_subscriptions ;;~ pump_action_servers) in
          handle pump_call pump_goal command ;;~
          drain fuel
      end
  end.
Definition drain_commands : Work bool := fun w => drain (S (length (all_commands w))) w.

(** *** The loop *)

Definition resize_wait_set_if_needed : Work unit :=
  sub_cap <~ entities_ (fun e => Z.max (blen (en_subscriptions e)) 4) ;;
  svc_cap <~ entities_ (fun e => Z.max (Z.of_nat (size (en_services e))) 4) ;;
  ws <~ gets wk_wait_set ;;
  if (ws_subscription_capacity ws <? sub_cap) || (ws_service_capacity ws <? svc_cap) then
    fresh <~ rcl_ (WaitSet_new (sub_cap * 2) 0 (svc_cap * 2) 1) ;;
    modify (set_wait_set fresh) ;;~
    rcl_ (WaitSet_fini ws)
  else ret tt.

Definition wait_and_pump : Work unit :=
  resize_wait_set_if_needed ;;~
  subs <~ entities_ (fun e => map se_subscription (en_subscriptions e)) ;;
  services <~ entities_ (fun e => map_to_list (en_services e)) ;;
  ws <~ gets wk_wait_set ;;
  ready <~ rcl_ (WaitSet_wait ws subs (map (fun p => sv_service p.2) services) guard WAIT_TIMEOUT_NS) ;;
  arrive ;;~
  pump_ready_subscriptions (wr_subscriptions ready) ;;~
  pump_ready_services (map fst services) (wr_services ready) ;;~
  pump_action_servers.

(** [run] for at most [turns] turns: [true] when it has returned. *)
Fixpoint run (turns : nat) : Work bool :=
  match turns with
  | O => ret false
  | S turns =>
      open <~ drain_commands ;;
      if open : bool then
        r <~ attempt wait_and_pump ;;
        match r with inl _ => run turns | inr _ => ret true end
      else ret true
  end.

(** The entities in the order of [teardown]; the wait set, the guard condition and
    the node go after them. *)
Definition teardown : Work unit :=
  e <~ entities_ id ;;
  on_entities (fun _ => no_entities) ;;~
  each (en_subscriptions e) (fun x => finish KSubscription (se_subscription x)) ;;~
  each (map snd (map_to_list (en_publishers e))) (finish KPublisher) ;;~
  each (map snd (map_to_list (en_clients e))) (fun x => finish KClient (ce_client x)) ;;~
  each (map snd (map_to_list (en_services e))) (fun x => finish KService (sv_service x)) ;;~
  each (map snd (map_to_list (en_action_clients e))) (fun x => finish KActionClient (ac_client x)) ;;~
  each (map snd (map_to_list (en_action_servers e))) (fun x => finish_server (sr_server x)) ;;~
  ws <~ gets wk_wait_set ;;
  rcl_ (WaitSet_fini ws).

(** [worker_entry] after [Worker::init]. *)
Definition worker_new (node : Node) (ws : WaitSet) (arrivals : list (list Command * bool)) : Worker :=
  mk_worker node no_entities 0 cache_new ws TakeBuffer_new [] false arrivals [].
Definition worker_entry (turns : nat) : Work bool :=
  ended <~ run turns ;;
  if ended : bool then teardown ;;~ ret true else ret false.

End Worker.
