(* ===== verification/RosProofs.v ===== *)
(** * The ROS attachment thread: its client library wrapper

    What the worker relies on of the C client library, and what it makes of the
    wrappers: they do not panic, they report errors the wire can carry, the clock
    goes on, and a loop that takes comes to an end. *)

From Stdlib Require Import Sorting.Permutation.
From stdpp Require Import gmap.
From S2P Require Import Prelude Utf8 Policy Backend Typesupport Rcl RosWorker.
#[local] Open Scope Z_scope.

(** A text an error message of the wire can hold. *)
Definition message_text (t : bytes) : Prop := utf8_valid t = true /\ blen t <= 4096.

Definition is_wait {A} (f : CFun A) : bool := match f with rcl_wait _ _ => true | _ => false end.
(** [f] is a take, and has found something. *)
Definition took {A} (f : CFun A) : A -> bool :=
  match f in CFun A return A -> bool with
  | rcl_take_serialized_message _ => fun o => bool_decide (is_Some o)
  | rcl_take_request _ _ => fun o => bool_decide (is_Some o)
  | rcl_action_take_goal_request _ _ => fun o => bool_decide (is_Some o)
  | rcl_action_take_result_request _ _ => fun o => bool_decide (is_Some o)
  | rcl_action_take_cancel_request _ _ => fun o => bool_decide (is_Some o)
  | _ => fun _ => false
  end.

(** What is known of the client library: its error text is text of limited length,
    it serializes to memory, time passes in a wait, and there are only finitely many
    messages to take between two waits. *)
Class RclLaws `{Target} `{RclLibrary} : Prop := {
  law_error_string n : utf8_valid (error_string n) = true /\ blen (error_string n) <= 3072;
  law_serialize ts msg n bs n' : c_call bytes (rmw_serialize ts msg) n = (inl bs, n') -> rust_slice bs;
  law_clock A (f : CFun A) n : now n <= now (c_call A f n).2;
  law_clock_proc f n : now n <= now (c_proc f n);
  law_wait ws t n : now n < now (c_call _ (rcl_wait ws t) n).2;
  law_calm A (f : CFun A) n : is_wait f = false -> (backlog (c_call A f n).2 <= backlog n)%nat;
  law_calm_proc f n : (backlog (c_proc f n) <= backlog n)%nat;
  law_take A (f : CFun A) n a n' : c_call A f n = (inl a, n') -> took f a = true -> (backlog n' < backlog n)%nat
}.

(** ** Calls into the library *)

Section Tame.
#[local] Set Default Proof Using "All".
Context `{RclLaws}.

(** [m] does not panic, answers as [Q] says, and its errors are reportable; time goes
    on; with [calm] nothing new comes to take. *)
Definition tame {A} (calm : bool) (m : SM Node bytes A) (Q : A -> Prop) : Prop :=
  forall n, let '(r, n') := m n in
    now n <= now n' /\ (calm = true -> (backlog n' <= backlog n)%nat) /\
    match r with Ok a => Q a | Err t => message_text t | Panic => False end.

Definition any {A} (_ : A) : Prop := True.

Lemma tame_weaken {A} c c' (m : SM Node bytes A) (P Q : A -> Prop) :
  tame c m P -> (c' = true -> c = true) -> (forall a, P a -> Q a) -> tame c' m Q.
Proof.
  intros Hm Hc Hw n. specialize (Hm n). destruct (m n) as [r n'], Hm as (Ht & Hb & Hr).
  split; [done | split; [auto |]]. destruct r; auto.
Qed.

Lemma tame_ret {A} c (a : A) (Q : A -> Prop) : Q a -> tame c (ret a) Q.
Proof. intros Hq n. cbn. split; [lia | by split]. Qed.
Lemma tame_throw {A} c t (Q : A -> Prop) : message_text t -> tame c (throw t) Q.
Proof. intros Hq n. cbn. split; [lia | by split]. Qed.
Lemma tame_gets {A} c (f : Node -> A) (Q : A -> Prop) : (forall n, Q (f n)) -> tame c (gets f) Q.
Proof. intros Hq n. cbn. split; [lia | by split]. Qed.

Lemma tame_bind {A B} c (m : SM Node bytes A) (k : A -> SM Node bytes B) P Q :
  tame c m P -> (forall a, P a -> tame c (k a) Q) -> tame c (bind m k) Q.
Proof.
  intros Hm Hk n. unfold bind. specialize (Hm n). destruct (m n) as [[a | t |] n'], Hm as (Ht & Hb & Hr); [| done | done].
  specialize (Hk a Hr n'). destruct (k a n') as [r n''], Hk as (Ht' & Hb' & Hr'). split; [lia | split; [| done]].
  intros Hc. specialize (Hb Hc). specialize (Hb' Hc). lia.
Qed.

Lemma tame_attempt {A} c (m : SM Node bytes A) Q :
  tame c m Q -> tame c (attempt m) (fun r => match r with inl a => Q a | inr t => message_text t end).
Proof.
  intros Hm n. unfold attempt. specialize (Hm n). destruct (m n) as [[a | t |] n'], Hm as (Ht & Hb & Hr); by split.
Qed.

Lemma tame_settle {A} c (r : A + bytes) (Q : A -> Prop) :
  match r with inl a => Q a | inr t => message_text t end -> tame c (settle r) Q.
Proof. destruct r; [apply tame_ret | apply tame_throw]. Qed.

Lemma tame_if {A} c (b : bool) (m1 m2 : SM Node bytes A) Q : tame c m1 Q -> tame c m2 Q -> tame c (if b then m1 else m2) Q.
Proof. by destruct b. Qed.

Lemma tame_proc c f : tame c (proc f) any.
Proof. intros n. cbn. split; [apply law_clock_proc | split; [intros _; apply law_calm_proc | done]]. Qed.

Lemma reported (operation : string) n :
  utf8_valid (lit operation) && (blen (lit operation) <=? 1000) = true -> message_text (lit operation ++ lit ": " ++ error_string n).
Proof.
  rewrite andb_true_iff, Z.leb_le. intros [Hu Hl]. destruct (law_error_string n) as [He Hel]. split.
  - apply utf8_valid_app; [done | by apply utf8_valid_app].
  - rewrite !blen_app. change (blen (lit ": ")) with 2. lia.
Qed.

Lemma tame_checked {A} c (r : A + Z) operation :
  utf8_valid (lit operation) && (blen (lit operation) <=? 1000) = true -> tame c (checked r operation) any.
Proof.
  intros Ho n. unfold checked. destruct r as [a | code]; [split; [lia | done] |].
  split; [apply law_clock_proc | split; [intros _; apply law_calm_proc | by apply reported]].
Qed.
Lemma tame_returned {A} c (f : CFun A) : is_wait f = false -> tame c (returned f) any.
Proof.
  intros Hw n. unfold returned. pose proof (law_clock A f n) as Ht. pose proof (law_calm A f n Hw) as Hc.
  by destruct (c_call A f n) as [r n'].
Qed.

Lemma tame_check_wait {A} (f : CFun A) operation :
  utf8_valid (lit operation) && (blen (lit operation) <=? 1000) = true -> tame false (check f operation) any.
Proof.
  intros Ho n. unfold check, checked. pose proof (law_clock A f n) as Ht. destruct (c_call A f n) as [[a | code] n']; cbn in Ht; [by split |].
  pose proof (law_clock_proc rcutils_reset_error n'). split; [lia | split; [done |]]. by apply reported.
Qed.

Lemma tame_check {A} c (f : CFun A) operation :
  utf8_valid (lit operation) && (blen (lit operation) <=? 1000) && negb (is_wait f) = true -> tame c (check f operation) any.
Proof.
  rewrite andb_true_iff, negb_true_iff. intros [Ho Hw] n. pose proof (tame_check_wait f operation Ho n) as Hm. unfold check, checked in *.
  pose proof (law_calm A f n Hw) as Hc. destruct (c_call A f n) as [[a | code] n']; cbn in Hc, Hm.
  - destruct Hm as (? & _ & ?). by split.
  - destruct Hm as (? & _ & ?). split; [done | split; [| done]]. intros _. pose proof (law_calm_proc rcutils_reset_error n'). lia.
Qed.

Lemma short_text (s : string) : utf8_valid (lit s) && (blen (lit s) <=? 4096) = true -> message_text (lit s).
Proof. rewrite andb_true_iff, Z.leb_le. done. Qed.

Lemma tame_allocate c ts : tame c (allocate_message ts) any.
Proof.
  intros n. unfold allocate_message. pose proof (law_clock _ (ts_create (mt_create ts)) n) as Ht.
  pose proof (law_calm _ (ts_create (mt_create ts)) n eq_refl) as Hc.
  destruct (c_call Z _ n) as [[ptr | code] n']; cbn in Ht, Hc; [destruct (ptr =? 0) |]; (split; [done | split; [done |]]); try done; by apply short_text.
Qed.

Lemma tame_destroy c ts ptr : tame c (destroy_message ts ptr) any.
Proof. unfold destroy_message. destruct (ptr =? 0); [by apply tame_ret | apply tame_proc]. Qed.

Lemma tame_deserialize c ts cdr msg : tame c (deserialize_into ts cdr msg) any.
Proof. by apply tame_check. Qed.

Lemma tame_serialize c ts msg : tame c (serialize_message ts msg) rust_slice.
Proof.
  intros n. pose proof (tame_check c (rmw_serialize (mt_handle ts) msg) "rmw_serialize" eq_refl n) as Hm.
  unfold serialize_message, check, checked in *. destruct (c_call bytes _ n) as [[bs | code] n'] eqn:E; destruct Hm as (? & ? & Hr); (split; [done | split; [done |]]).
  - by eapply law_serialize.
  - exact Hr.
Qed.

(** Composition, as far as it is mechanical. *)
Ltac tame :=
  lazymatch goal with
  | |- tame _ (bind _ _) _ => eapply tame_bind; [tame | cbn beta; intros ? ?; tame]
  | |- tame _ (attempt _) _ => eapply tame_attempt; tame
  | |- tame _ (ret _) _ => first [exact (tame_ret _ _ any I) | apply tame_ret; done]
  | |- tame _ (throw _) _ => apply tame_throw; first [done | by apply short_text]
  | |- tame _ (gets _) _ => first [exact (tame_gets _ _ any (fun _ => I)) | apply tame_gets; done]
  | |- tame _ (settle _) _ => apply tame_settle; case_match; done
  | |- tame _ (proc _) _ => apply tame_proc
  | |- tame _ (check _ _) _ => apply tame_check; reflexivity
  | |- tame _ (checked _ _) _ => apply tame_checked; reflexivity
  | |- tame _ (returned _) _ => apply tame_returned; reflexivity
  | |- tame _ (allocate_message _) _ => apply tame_allocate
  | |- tame _ (destroy_message _ _) _ => apply tame_destroy
  | |- tame _ (deserialize_into _ _ _) _ => apply tame_deserialize
  | |- tame _ (serialize_message _ _) _ => apply tame_serialize
  | |- tame _ (match ?x with _ => _ end) _ => destruct x; tame
  | |- tame _ (let _ := _ in _) _ => cbv zeta; tame
  | |- _ => idtac
  end.

Lemma tame_create c kind name ts qos : tame c (entity_create kind name ts qos) any.
Proof.
  unfold entity_create, named. apply tame_if; [apply tame_throw; by destruct kind |]. apply tame_check. by destruct kind.
Qed.
Lemma tame_create_server c name ts qos : tame c (ActionServer_create name ts qos) any.
Proof. unfold ActionServer_create, named. tame. Qed.
Lemma tame_fini_server c s : tame c (ActionServer_fini s) any.
Proof. unfold ActionServer_fini. tame. Qed.
Lemma tame_fini c kind handle : tame c (entity_fini kind handle) any.
Proof. unfold entity_fini. tame. Qed.
Lemma tame_publish c p payload : tame c (publisher_publish p payload) any.
Proof. unfold publisher_publish. tame. Qed.
Lemma tame_send_response c s ts header cdr : tame c (send_response s ts header cdr) any.
Proof. unfold send_response. tame. Qed.
Lemma tame_accept_goal c s ts header uuid : tame c (accept_goal s ts header uuid) any.
Proof. unfold accept_goal. tame. Qed.
Lemma tame_send_result c s ts header cdr : tame c (send_result s ts header cdr) any.
Proof. unfold send_result. tame. Qed.
Lemma tame_succeed_goal c s h : tame c (succeed_goal s h) any.
Proof. unfold succeed_goal. tame. Qed.
Lemma tame_publish_feedback c s ts uuid cdr : tame c (publish_feedback s ts uuid cdr) any.
Proof. unfold publish_feedback. tame. Qed.
Lemma tame_publish_status c s : tame c (publish_status s) any.
Proof. unfold publish_status. tame. Qed.
Lemma tame_wait_set_new c a b d e : tame c (WaitSet_new a b d e) (fun ws => ws_subscription_capacity ws = a /\ ws_service_capacity ws = d).
Proof. unfold WaitSet_new. eapply tame_bind; [tame |]. intros h _. by apply tame_ret. Qed.
Lemma tame_wait_set_fini c ws : tame c (WaitSet_fini ws) any.
Proof. unfold WaitSet_fini. tame. Qed.
Lemma tame_names c b : tame c (check (rcl_names_and_types b) (if b then "rcl_get_service_names_and_types" else "rcl_get_topic_names_and_types")) any.
Proof. by destruct b; tame. Qed.

Lemma tame_add_entity c ws kind h : tame c (add_entity ws kind h) any.
Proof. unfold add_entity. apply tame_check. by destruct kind. Qed.
Lemma tame_add_entities c ws kind hs : tame c (add_entities ws kind hs) any.
Proof. induction hs as [| h hs IH]; cbn [add_entities]; [tame |]. eapply tame_bind; [apply tame_add_entity | done]. Qed.
Lemma tame_add_guard c ws guard : tame c (add_guard ws guard) any.
Proof. unfold add_guard. tame. Qed.

Lemma tame_wait ws subs svcs guard t :
  blen subs <= ws_subscription_capacity ws -> blen svcs <= ws_service_capacity ws -> tame false (WaitSet_wait ws subs svcs guard t) any.
Proof.
  intros Hs Hv. unfold WaitSet_wait. destruct (Z.leb_spec (blen subs) (ws_subscription_capacity ws)); [| lia].
  destruct (Z.leb_spec (blen svcs) (ws_service_capacity ws)); [| lia]. cbn [andb negb].
  eapply tame_bind; [tame | intros _ _]. eapply tame_bind; [apply tame_add_entities | intros _ _].
  eapply tame_bind; [apply tame_add_entities | intros _ _]. eapply tame_bind; [apply tame_add_guard | intros _ _].
  eapply tame_bind; [by apply tame_check_wait | intros r _]. by apply tame_ret.
Qed.

(** ** Takes *)

(** A take that finds something leaves less to take. *)
Definition taking {A} (m : SM Node bytes (option A)) : Prop :=
  tame true m any /\ forall n a n', m n = (Ok (Some a), n') -> (backlog n' < backlog n)%nat.

(** What follows a successful take takes nothing new. *)
Lemma taking_bind {A B} (m : SM Node bytes A) (k : A -> SM Node bytes (option B)) :
  tame true m any -> (forall a, taking (k a)) -> taking (bind m k).
Proof.
  intros Hm Hk. split; [eapply tame_bind; [exact Hm | intros a _; apply Hk] |]. intros n b n'. unfold bind.
  specialize (Hm n). destruct (m n) as [[a | t |] n1]; [| done | done]. destruct Hm as (_ & Hb & _). intros E.
  apply (proj2 (Hk a)) in E. specialize (Hb eq_refl). lia.
Qed.

Lemma taking_check {A B} (f : CFun (option A)) operation (k : option A + bytes -> SM Node bytes (option B)) :
  utf8_valid (lit operation) && (blen (lit operation) <=? 1000) && negb (is_wait f) = true -> (forall x, took f (Some x) = true) ->
  (forall r, match r with inl a => any a | inr t => message_text t end -> tame true (k r) any) ->
  (forall r n b n', (forall x, r <> inl (Some x)) -> k r n = (Ok (Some b), n') -> False) ->
  taking (bind (attempt (check f operation)) k).
Proof.
  intros Ho Hf Hk Hn. split; [eapply tame_bind; [apply tame_attempt; by apply tame_check | exact Hk] |].
  intros n b n'. unfold bind, attempt, check, checked. destruct (c_call (option A) f n) as [[[x |] | code] n1] eqn:E; intros Ek.
  - pose proof (law_take _ f n _ n1 E (Hf x)). specialize (Hk (inl (Some x)) I n1). rewrite Ek in Hk. destruct Hk as (_ & Hb & _).
    specialize (Hb eq_refl). lia.
  - exfalso. by eapply Hn; [| exact Ek].
  - exfalso. by eapply Hn; [| exact Ek].
Qed.

Lemma no_result {A} (m : SM Node bytes unit) (k : SM Node bytes (option A)) n b n' :
  (forall n1 n2, k n1 <> (Ok (Some b), n2)) -> bind m (fun _ => k) n = (Ok (Some b), n') -> False.
Proof. intros Hk. unfold bind. destruct (m n) as [[a | t |] n1]; [apply Hk | done | done]. Qed.

(** [k] after a take that found nothing or failed: clean up, then nothing. *)
Lemma taking_request service ts : taking (take_request service ts).
Proof.
  unfold take_request. apply taking_bind; [apply tame_allocate |]. intros request. apply taking_check; [done | done | |].
  - intros [[header |] | err] Hr; tame.
  - intros [[header |] | err] n b n' Hn; [by destruct (Hn header) | |]; apply no_result; by intros.
Qed.

Lemma taking_identified {A} ts take_ operation (rest : Z -> RequestId -> bytes -> SM Node bytes A) :
  (forall request, utf8_valid (lit operation) && (blen (lit operation) <=? 1000) && negb (is_wait (take_ request)) = true) ->
  (forall request x, took (take_ request) (Some x) = true) -> (forall request header uuid, tame true (rest request header uuid) any) ->
  taking (take_identified ts take_ operation rest).
Proof.
  intros Ho Ht Hr. unfold take_identified. apply taking_bind; [apply tame_allocate |]. intros request.
  apply taking_check; [apply Ho | apply Ht | |].
  - intros [[header |] | err] He; try (tame; fail). eapply tame_bind; [tame | intros uuid _].
    eapply tame_bind; [apply tame_attempt, Hr | intros r Hrr]. eapply tame_bind; [tame | intros _ _].
    eapply tame_bind; [apply (tame_settle _ _ any); exact Hrr | intros a _]. tame.
  - intros [[header |] | err] n b n' Hn; [by destruct (Hn header) | |]; apply no_result; by intros.
Qed.

Lemma taking_goal s ts : taking (take_goal s ts).
Proof. apply taking_identified; [done | done |]. intros. tame. Qed.
Lemma taking_result_request s ts : taking (take_result_request s ts).
Proof. apply taking_identified; [done | done |]. intros. tame. Qed.
Lemma taking_cancel s ts : taking (take_cancel s ts).
Proof. apply taking_identified; [done | done |]. intros. tame. Qed.

Lemma taking_serialized subscription scratch : taking (take_serialized subscription scratch).
Proof.
  unfold take_serialized. split; [tame |]. intros n tb n'. unfold bind, check, checked.
  destruct (c_call _ _ n) as [[[x |] | code] n1] eqn:E; [| done | done]. intros Ek. injection Ek as <- <-. exact (law_take _ (rcl_take_serialized_message subscription) n _ _ E eq_refl).
Qed.

End Tame.
