(* ===== verification/RosSafety.v ===== *)
(** * The ROS attachment thread: every command is served

    The invariant the worker keeps between any two steps, however calls nest, and
    how its state may evolve: no entity is lost or finalized twice, every command it
    took is answered once, and what it answers is what the connections may rely on. *)

From Stdlib Require Import Sorting.Permutation.
From stdpp Require Import gmap.
From S2P Require Import Prelude Utf8 Policy Backend Typesupport Rcl RosWorker RosProofs.
#[local] Open Scope Z_scope.

(** ** Maps as their values *)

Definition values {A} (m : gmap Z A) : list A := map snd (map_to_list m).

Lemma values_insert {A} (m : gmap Z A) k x : m !! k = None -> values (<[k := x]> m) ≡ₚ x :: values m.
Proof. intros Hk. unfold values. by rewrite map_to_list_insert. Qed.

Lemma values_delete {A} (m : gmap Z A) k x : m !! k = Some x -> values m ≡ₚ x :: values (delete k m).
Proof. intros Hk. rewrite <- (insert_delete_id m k x Hk) at 1. apply values_insert, lookup_delete_eq. Qed.

Lemma values_replace {A B} (f : A -> B) (m : gmap Z A) k x y :
  m !! k = Some x -> f y = f x -> map f (values (<[k := y]> m)) ≡ₚ map f (values m).
Proof.
  intros Hk Hf. rewrite (values_delete m k x Hk), <- insert_delete_eq, values_insert by apply lookup_delete_eq. cbn [map]. by rewrite Hf.
Qed.

Lemma alter_insert_id {A} (f : A -> A) (m : gmap Z A) k x : m !! k = Some x -> alter f k m = <[k := f x]> m.
Proof.
  intros Hk. apply map_eq. intros j. destruct (decide (k = j)) as [<- |].
  - by rewrite lookup_alter_eq, Hk, lookup_insert_eq.
  - by rewrite lookup_alter_ne, lookup_insert_ne.
Qed.

Lemma alter_missing {A} (f : A -> A) (m : gmap Z A) k : m !! k = None -> alter f k m = m.
Proof.
  intros Hk. apply map_eq. intros j. destruct (decide (k = j)) as [<- |]; [by rewrite lookup_alter_eq, Hk | by rewrite lookup_alter_ne].
Qed.

Lemma values_alter {A B} (f : A -> B) (g : A -> A) (m : gmap Z A) k :
  (forall x, f (g x) = f x) -> map f (values (alter g k m)) ≡ₚ map f (values m).
Proof.
  intros Hg. destruct (m !! k) as [x |] eqn:Hk; [| by rewrite alter_missing].
  rewrite (alter_insert_id _ _ _ _ Hk). by apply (values_replace _ _ _ x).
Qed.

Lemma ids_alter {A} (g : A -> A) (m : gmap Z A) k next :
  map_Forall (fun j _ => j <= next) m -> map_Forall (fun j _ => j <= next) (alter g k m).
Proof.
  intros Hm j x Hj. destruct (decide (k = j)) as [<- |].
  - rewrite lookup_alter_eq in Hj. destruct (m !! k) as [y |] eqn:E; [| done]. by eapply Hm.
  - rewrite lookup_alter_ne in Hj by done. by eapply Hm.
Qed.

(** ** What the state says *)

Definition handles (e : Entities) : list (EntityKind * Z) :=
  map (fun x => (KSubscription, se_subscription x)) (en_subscriptions e) ++
  map (fun x => (KPublisher, x)) (values (en_publishers e)) ++
  map (fun x => (KClient, ce_client x)) (values (en_clients e)) ++
  map (fun x => (KService, sv_service x)) (values (en_services e)) ++
  map (fun x => (KActionClient, ac_client x)) (values (en_action_clients e)) ++
  map (fun x => (KActionServer, as_server (sr_server x))) (values (en_action_servers e)).

Definition created_in (es : list Effect) : list (EntityKind * Z) :=
  flat_map (fun e => match e with Created k h => [(k, h)] | _ => [] end) es.
Definition finished_in (es : list Effect) : list (EntityKind * Z) :=
  flat_map (fun e => match e with Finished k h => [(k, h)] | _ => [] end) es.
(** The kind of answer a command asks for. *)
Inductive AnswerKind := EntityAnswer | DoneAnswer | BytesAnswer | TopicsAnswer | ViewAnswer.
Definition answer_kind (a : Answer) : AnswerKind :=
  match a with AnEntity _ => EntityAnswer | Done _ => DoneAnswer | SomeBytes _ => BytesAnswer | Topics _ => TopicsAnswer | View _ => ViewAnswer end.
Definition request_kind (r : Request) : AnswerKind :=
  match r with
  | CreateSubscription _ _ | CreatePublisher _ | CreateClient _ | CreateService _ _ | CreateActionClient _ | CreateActionServer _ _ => EntityAnswer
  | Call _ _ _ | SendActionGoal _ _ _ | CancelAction _ _ _ => BytesAnswer
  | AskGraphTopics => TopicsAnswer
  | AskGraphView => ViewAnswer
  | _ => DoneAnswer
  end.
(** What a command waits for, and what was answered. *)
Definition awaited (c : Command) : Z * AnswerKind := (cmd_reply c, request_kind (cmd_request c)).
Definition replied_in (es : list Effect) : list (Z * AnswerKind) :=
  flat_map (fun e => match e with Reply c a => [(c, answer_kind a)] | _ => [] end) es.

Definition backend_text (e : BackendError) : Prop := (err_code e = 10 \/ err_code e = 13) /\ message_text (err_message e).
Definition either {A} (P : A -> Prop) (r : A + BackendError) : Prop := match r with inl a => P a | inr e => backend_text e end.

Section Safety.
#[local] Set Default Proof Using "Type*".
Context `{RclLaws} `{Linker}.
Abbreviation Work := (SM Worker BackendError).

Definition answer_ok (a : Answer) : Prop :=
  match a with
  | AnEntity r => either any r | Done r => either any r | SomeBytes r => either rust_slice r
  | Topics r => either any r | View r => either any r
  end.
(** A sample on its way has its header prefix free. *)
Definition effect_ok (e : Effect) : Prop :=
  match e with
  | Reply _ a => answer_ok a
  | SendSample _ s => exists payload, ss_frame_buf s = prefixed payload
  | _ => True
  end.

(** A type name the worker can look up and name in an error. *)
Definition servable_name (t : bytes) : Prop := utf8_valid t = true /\ blen t <= 4000 /\ 0 ∉ t.
Definition request_spec (r : Request) : option ChannelSpec :=
  match r with
  | CreateSubscription spec _ | CreatePublisher spec | CreateClient spec | CreateService spec _
  | CreateActionClient spec | CreateActionServer spec _ => Some spec
  | _ => None
  end.
Definition servable (c : Command) : Prop :=
  match request_spec (cmd_request c) with Some spec => servable_name (cs_type_name spec) | None => True end.

Definition conserved (w : Worker) : list (Z * AnswerKind) := replied_in (wk_effects w) ++ map awaited (all_commands w).

(** Every entity ever created is finalized, held by the worker, or in [lent]: taken
    out of its map by a call in progress. *)
Definition balanced (lent : list (EntityKind * Z)) (w : Worker) : Prop :=
  created_in (wk_effects w) ≡ₚ finished_in (wk_effects w) ++ handles (wk_entities w) ++ lent.

(** Identifiers are below the next one. *)
Definition ids_ok (e : Entities) (next : Z) : Prop :=
  map_Forall (fun k _ => k <= next) (en_publishers e) /\ map_Forall (fun k _ => k <= next) (en_clients e) /\
  map_Forall (fun k _ => k <= next) (en_services e) /\ map_Forall (fun k _ => k <= next) (en_action_clients e) /\
  map_Forall (fun k _ => k <= next) (en_action_servers e).

(** Fewer than [n] commands to come, with room for as many identifiers and [b] more. *)
Record good (n : nat) (b : Z) (w : Worker) : Prop := {
  gd_left : (length (all_commands w) < n)%nat;
  gd_servable : Forall servable (all_commands w);
  gd_ids : ids_ok (wk_entities w) (wk_next_entity w);
  gd_room : 0 <= wk_next_entity w /\ wk_next_entity w + blen (all_commands w) + Z.max 0 b <= u64_max
}.

(** What is to come: whether the senders are gone, and the arrivals; a wait brings one. *)
Definition inbox (w : Worker) : bool * list (list Command * bool) := (wk_hung_up w, wk_arrivals w).
Inductive arrival : relation (bool * list (list Command * bool)) :=
| arrived gone commands hung_up rest : arrival (gone, (commands, hung_up) :: rest) (gone || hung_up, rest).

Record evo (w w' : Worker) : Prop := {
  ev_commands : exists served, all_commands w = served ++ all_commands w';
  ev_clock : now (wk_node w) <= now (wk_node w');
  ev_next : wk_next_entity w <= wk_next_entity w';
  ev_clients id : id <= wk_next_entity w -> en_clients (wk_entities w) !! id = None -> en_clients (wk_entities w') !! id = None;
  ev_action_clients id :
    id <= wk_next_entity w -> en_action_clients (wk_entities w) !! id = None -> en_action_clients (wk_entities w') !! id = None;
  ev_effects : exists new, wk_effects w' = wk_effects w ++ new /\ Forall effect_ok new;
  ev_balance lent : balanced lent w -> balanced lent w';
  ev_inbox : rtc arrival (inbox w) (inbox w')
}.

Lemma evo_refl w : evo w w.
Proof.
  split; try done; [by exists [] | exists []; by rewrite app_nil_r].
Qed.

Lemma evo_trans w1 w2 w3 : evo w1 w2 -> evo w2 w3 -> evo w1 w3.
Proof.
  intros [(s1 & C1) T1 N1 K1 A1 (e1 & E1 & F1) B1 I1] [(s2 & C2) T2 N2 K2 A2 (e2 & E2 & F2) B2 I2]. split; [| lia | lia | | | | | by etrans]; auto.
  - exists (s1 ++ s2). by rewrite C1, C2, app_assoc.
  - intros id Hid Hn. apply K2; [lia |]. by apply K1.
  - intros id Hid Hn. apply A2; [lia |]. by apply A1.
  - exists (e1 ++ e2). rewrite E2, E1, app_assoc. split; [done |]. by apply Forall_app_2.
Qed.

(** [m] takes a worker with room for [b] identifiers to one with room for [b']. *)
Definition runs {E A} (n : nat) (b b' : Z) (R : E -> Prop) (m : SM Worker E A) (Q : A -> Prop) : Prop :=
  forall w, good n b w -> let '(r, w') := m w in
    evo w w' /\ good n b' w' /\ conserved w' ≡ₚ conserved w /\ match r with Ok a => Q a | Err e => R e | Panic => False end.
Abbreviation serves n m Q := (forall b, runs n b b backend_text m Q).
Abbreviation serves_ n m Q := (forall b, runs n b b message_text m Q).

Lemma good_less n b b' w : good n b w -> b' <= b -> good n b' w.
Proof. intros [? ? ? ?] ?. split; [done | done | done | lia]. Qed.

Lemma runs_ret {E A} n b (R : E -> Prop) (a : A) (Q : A -> Prop) : Q a -> runs n b b R (ret a) Q.
Proof. intros Hq w Hw. cbn. split; [apply evo_refl | by split]. Qed.
Lemma runs_throw {E A} n b (R : E -> Prop) e (Q : A -> Prop) : R e -> runs n b b R (throw e) Q.
Proof. intros Hq w Hw. cbn. split; [apply evo_refl | by split]. Qed.
Lemma runs_gets {E A} n b (R : E -> Prop) (f : Worker -> A) (Q : A -> Prop) : (forall w, Q (f w)) -> runs n b b R (gets f) Q.
Proof. intros Hq w Hw. cbn. split; [apply evo_refl | by split]. Qed.

Lemma runs_weaken {E A} n b b' b0 (R : E -> Prop) (m : SM Worker E A) (P Q : A -> Prop) :
  runs n b b' R m P -> b0 <= b' -> (forall a, P a -> Q a) -> runs n b b0 R m Q.
Proof.
  intros Hm Hb Hw w Hg. specialize (Hm w Hg). destruct (m w) as [r w'], Hm as (? & ? & ? & Hr).
  split; [done | split; [by eapply good_less | split; [done |]]]. destruct r; auto.
Qed.

Lemma runs_never {E A} n b b' (R : E -> Prop) (m : SM Worker E A) Q : runs n b b' (fun _ => False) m Q -> runs n b b' R m Q.
Proof.
  intros Hm w Hg. specialize (Hm w Hg). destruct (m w) as [[a | e |] w']; [done | by destruct Hm as (_ & _ & _ & []) | done].
Qed.

Lemma runs_bind {E A B} n b b1 b2 (R : E -> Prop) (m : SM Worker E A) (k : A -> SM Worker E B) P Q :
  runs n b b1 R m P -> (forall a, P a -> runs n b1 b2 R (k a) Q) -> b2 <= b1 -> runs n b b2 R (bind m k) Q.
Proof.
  intros Hm Hk Hb w Hg. unfold bind. specialize (Hm w Hg). destruct (m w) as [[a | e |] w1], Hm as (Hev & Hg1 & Hc & Hr);
    [| split; [done | split; [by eapply good_less | done]] | done].
  specialize (Hk a Hr w1 Hg1). destruct (k a w1) as [r w2], Hk as (Hev2 & Hg2 & Hc2 & Hr2).
  split; [by eapply evo_trans | split; [done | split; [by rewrite Hc2 | done]]].
Qed.

Lemma runs_attempt {E A} n b b' (R R' : E -> Prop) (m : SM Worker E A) Q :
  runs n b b' R m Q -> runs n b b' R' (attempt m) (fun r => match r with inl a => Q a | inr e => R e end).
Proof.
  intros Hm w Hg. unfold attempt. specialize (Hm w Hg). destruct (m w) as [[a | e |] w1], Hm as (Hev & Hg1 & Hc & Hr);
    (split; [done | by split]).
Qed.

Lemma runs_settle {E A} n b (R : E -> Prop) (r : A + E) (Q : A -> Prop) :
  match r with inl a => Q a | inr e => R e end -> runs n b b R (settle r) Q.
Proof. destruct r; [apply runs_ret | apply runs_throw]. Qed.

Lemma runs_map_err {E F A} n b b' (R : E -> Prop) (R' : F -> Prop) (f : E -> F) (m : SM Worker E A) Q :
  runs n b b' R m Q -> (forall e, R e -> R' (f e)) -> runs n b b' R' (map_err_ f m) Q.
Proof.
  intros Hm Hf w Hg. unfold map_err_. specialize (Hm w Hg). destruct (m w) as [[a | e |] w1], Hm as (Hev & Hg1 & Hc & Hr); cbn;
    (split; [done | split; [done | split; [done |]]]); auto.
Qed.

Lemma runs_loop {E A} n (R : E -> Prop) (body : SM Worker E (option A)) Q fuel (measure : Worker -> nat) :
  (forall b, runs n b b R body (fun r => match r with Some a => Q a | None => True end)) ->
  (forall w w', body w = (Ok None, w') -> (measure w' < measure w)%nat) ->
  forall b w, (measure w < fuel)%nat -> good n b w -> let '(r, w') := loop_nat fuel body w in
    evo w w' /\ good n b w' /\ conserved w' ≡ₚ conserved w /\ match r with Ok a => Q a | Err e => R e | Panic => False end.
Proof.
  intros Hb Hm. induction fuel as [| fuel IH]; intros b w Hf Hg; [lia |]. cbn [loop_nat]. unfold bind.
  specialize (Hb b w Hg). specialize (Hm w). destruct (body w) as [[[a |] | e |] w1], Hb as (Hev & Hg1 & Hc & Hr);
    [by cbn | | done | done].
  specialize (Hm w1 eq_refl). specialize (IH b w1 ltac:(lia) Hg1). destruct (loop_nat fuel body w1) as [r w2], IH as (Hev2 & Hg2 & Hc2 & Hr2).
  split; [by eapply evo_trans | split; [done | split; [by rewrite Hc2 | done]]].
Qed.

(** A loop against the clock: every turn that goes on takes time. *)
Lemma spins_measure {E A} n b (R : E -> Prop) (body : SM Worker E (option A)) Q (deadline : Z) :
  (forall w, good n b w -> let '(r, w') := body w in
     evo w w' /\ good n b w' /\ conserved w' ≡ₚ conserved w /\
     match r with
     | Ok (Some a) => Q a
     | Ok None => now (wk_node w) < now (wk_node w') /\ now (wk_node w) < deadline
     | Err e => R e | Panic => False
     end) ->
  forall p w, good n b w -> let '(r, w') := spins p body w in
    evo w w' /\ good n b w' /\ conserved w' ≡ₚ conserved w /\
    match r with
    | Ok (Some a) => Q a
    | Ok None => now (wk_node w) + Z.pos p <= now (wk_node w') /\ now (wk_node w) + Z.pos p - 1 < deadline
    | Err e => R e | Panic => False
    end.
Proof.
  intros Hb p. induction p as [p IH | p IH |]; intros w Hg; cbn [spins].
  - unfold bind at 1. pose proof (Hb w Hg) as H1b. destruct (body w) as [[[a |] | e |] w1]; [by cbn | | done | done].
    destruct H1b as (Hev & Hg1 & Hc & Ht & Hd). unfold bind. pose proof (IH w1 Hg1) as H2b.
    destruct (spins p body w1) as [[[a |] | e |] w2]; destruct H2b as (Hev2 & Hg2 & Hc2 & Hr2); try (split; [by eapply evo_trans | split; [done | split; [by rewrite Hc2 | done]]]); try done.
    pose proof (IH w2 Hg2) as H3b. destruct (spins p body w2) as [r w3], H3b as (Hev3 & Hg3 & Hc3 & Hr3).
    split; [eapply evo_trans; [exact Hev |]; by eapply evo_trans | split; [done | split; [by rewrite Hc3, Hc2 |]]].
    destruct r as [[a |] | e |]; try done. lia.
  - unfold bind. pose proof (IH w Hg) as H2b.
    destruct (spins p body w) as [[[a |] | e |] w2]; destruct H2b as (Hev2 & Hg2 & Hc2 & Hr2); try done.
    pose proof (IH w2 Hg2) as H3b. destruct (spins p body w2) as [r w3], H3b as (Hev3 & Hg3 & Hc3 & Hr3).
    split; [by eapply evo_trans | split; [done | split; [by rewrite Hc3, Hc2 |]]].
    destruct r as [[a |] | e |]; try done. lia.
  - pose proof (Hb w Hg) as H1b. destruct (body w) as [[[a |] | e |] w1]; try done. destruct H1b as (? & ? & ? & ? & ?).
    split; [done | split; [done | split; [done | lia]]].
Qed.

(** ** Steps *)

(** A step that leaves commands, entities, identifiers and effects alone. *)
Lemma still_step w w' :
  all_commands w' = all_commands w -> wk_entities w' = wk_entities w -> wk_next_entity w' = wk_next_entity w ->
  wk_effects w' = wk_effects w -> now (wk_node w) <= now (wk_node w') -> rtc arrival (inbox w) (inbox w') ->
  evo w w' /\ conserved w' ≡ₚ conserved w /\ forall n b, good n b w -> good n b w'.
Proof.
  intros Hc He Hn Hf Ht Hx. split; [split | split].
  - exists []. by rewrite Hc.
  - done.
  - lia.
  - by rewrite He.
  - by rewrite He.
  - exists []. by rewrite Hf, app_nil_r.
  - intros lent. unfold balanced. by rewrite Hf, He.
  - done.
  - unfold conserved. by rewrite Hf, Hc.
  - intros n b [? ? ? ?]. split; by rewrite ?Hc, ?He, ?Hn.
Qed.

Lemma runs_modify {E} n b (R : E -> Prop) (f : Worker -> Worker) :
  (forall w, all_commands (f w) = all_commands w /\ wk_entities (f w) = wk_entities w /\ wk_next_entity (f w) = wk_next_entity w /\
     wk_effects (f w) = wk_effects w /\ wk_node (f w) = wk_node w /\ rtc arrival (inbox w) (inbox (f w))) -> runs n b b R (modify f) any.
Proof.
  intros Hf w Hg. cbn. destruct (Hf w) as (? & ? & ? & ? & Hn & ?).
  destruct (still_step w (f w)) as (Hev & Hc & Hgo); [done | done | done | done | by rewrite Hn | done |].
  split; [done | split; [by apply Hgo | by split]].
Qed.

Lemma node_runs {A} n c (m : SM Node bytes A) Q : tame c m Q -> serves_ n (on_node_ m) Q.
Proof.
  intros Hm b w Hg. unfold on_node_. specialize (Hm (wk_node w)). destruct (m (wk_node w)) as [r nd], Hm as (Ht & _ & Hr).
  destruct (still_step w (set_node nd w)) as (Hev & Hc & Hgo); [done | done | done | done | done | done |].
  split; [done | split; [by apply Hgo | split; [done |]]]. destruct r; done.
Qed.

Lemma map_rcl_text t : message_text t -> backend_text (map_rcl_error t).
Proof. intros Ht. split; [by right | done]. Qed.
Lemma rcl_runs {A} n c (m : SM Node bytes A) Q : tame c m Q -> serves n (rcl_ m) Q.
Proof. intros Hm b. unfold rcl_. eapply runs_map_err; [by eapply node_runs | apply map_rcl_text]. Qed.

Lemma found_runs {A} n (o : option A) message :
  utf8_valid (lit message) && (blen (lit message) <=? 4096) = true -> serves n (found o message) (fun a => o = Some a).
Proof.
  intros Hm b. unfold found. destruct o as [a |]; [by apply runs_ret |]. apply (runs_throw n b backend_text).
  by apply map_rcl_text, short_text.
Qed.

(** An effect that is neither an answer nor the life of an entity. *)
Lemma effect_runs {E} n b (R : E -> Prop) e :
  effect_ok e -> created_in [e] = [] -> finished_in [e] = [] -> replied_in [e] = [] -> runs n b b R (effect e) any.
Proof.
  intros He Hc Hf Hr w [? ? ? ?]. unfold effect. cbn. split; [split | split; [by split | split; [| done]]]; try done.
  - by exists [].
  - exists [e]. split; [done | by constructor].
  - intros lent. unfold balanced. cbn [wk_effects add_effect wk_entities]. unfold created_in, finished_in in *.
    rewrite !flat_map_app, Hc, Hf, !app_nil_r. done.
  - unfold conserved. cbn [wk_effects add_effect]. unfold replied_in in *. by rewrite flat_map_app, Hr, app_nil_r.
Qed.

(** A change of the entities that keeps their handles and identifiers. *)
Record neutral (f : Entities -> Entities) : Prop := {
  nt_handles e : handles (f e) ≡ₚ handles e;
  nt_ids e next : ids_ok e next -> ids_ok (f e) next;
  nt_clients e id : en_clients e !! id = None -> en_clients (f e) !! id = None;
  nt_action_clients e id : en_action_clients e !! id = None -> en_action_clients (f e) !! id = None
}.

Lemma entities_run {E} n b (R : E -> Prop) f : neutral f -> runs n b b R (on_entities f) any.
Proof.
  intros [Hh Hi Hc Ha] w [? ? ? ?]. cbn. split; [split | split; [| split; [done | done]]]; try done; cbn.
  - by exists [].
  - intros id _. apply Hc.
  - intros id _. apply Ha.
  - exists []. by rewrite app_nil_r.
  - intros lent. unfold balanced. cbn. by rewrite Hh.
  - split; cbn; auto.
Qed.

Lemma neutral_services entity f : (forall s, sv_service (f s) = sv_service s) -> neutral (on_services (alter f entity)).
Proof.
  intros Hf. split; cbn; try done.
  - intros e. unfold handles. cbn. rewrite (values_alter (fun x => (KService, sv_service x))); [done |]. intros s. by rewrite Hf.
  - intros e next (? & ? & Hs & ? & ?). repeat split; try done. by apply ids_alter.
Qed.

Lemma neutral_goals entity f : neutral (on_goals entity f).
Proof.
  unfold on_goals. split; cbn; try done.
  - intros e. unfold handles. cbn. by rewrite (values_alter (fun x => (KActionServer, as_server (sr_server x)))).
  - intros e next (? & ? & ? & ? & Hs). repeat split; try done. by apply ids_alter.
Qed.

(** ** Creation *)

Lemma typesupport_runs {A} n (load : SM Cache unit A) t :
  quiet load -> servable_name t -> serves n (typesupport load t) any.
Proof.
  intros Hl (Hu & Hlen & _) b w Hg. unfold typesupport. specialize (Hl (wk_cache w)). destruct (load (wk_cache w)) as [r c].
  destruct (still_step w (set_cache c w)) as (Hev & Hc & Hgo); [done | done | done | done | done | done |].
  split; [done | split; [by apply Hgo | split; [done |]]]. destruct r; [done | | done]. unfold map_err. split; [by left |].
  cbn [err_message]. split; [by apply utf8_valid_app |]. rewrite blen_app. change (blen (lit "no dynamic typesupport for ")) with 27. lia.
Qed.

(** [add] puts a new entity of handle [h] under the next identifier. *)
Record adds (kind : EntityKind) (h : Z) (add : Z -> Entities -> Entities) : Prop := {
  ad_handles e next : ids_ok e next -> handles (add (next + 1) e) ≡ₚ (kind, h) :: handles e;
  ad_ids e next : ids_ok e next -> ids_ok (add (next + 1) e) (next + 1);
  ad_clients e id next : id <= next -> en_clients e !! id = None -> en_clients (add (next + 1) e) !! id = None;
  ad_action_clients e id next : id <= next -> en_action_clients e !! id = None -> en_action_clients (add (next + 1) e) !! id = None
}.

Lemma registered {A} n b kind (h : A -> Z) (add : Z -> A -> Entities -> Entities) (m : Work A) :
  0 <= b -> serves n m any -> (forall x, adds kind (h x) (fun id => add id x)) ->
  runs n (b + 1) b backend_text
    (x <~ m ;; effect (Created kind (h x)) ;;~ entity <~ allocate ;; on_entities (add entity x) ;;~ ret entity) any.
Proof.
  intros Hb Hm Hadd. eapply runs_bind with (b1 := b + 1); [apply Hm | | lia]. cbn beta. intros x _ w [Hl Hs Hi Hr].
  specialize (Hadd x) as [Ah Ai Ac Aa]. unfold effect, allocate, on_entities, bind, modify, gets, ret.
  cbn [wk_next_entity add_effect set_next_entity wk_entities]. set (next := wk_next_entity w) in *.
  assert (En : as_unsigned 64 (next + 1) = next + 1).
  { apply as_unsigned_small. unfold is_unsigned, u64_max, blen in *. lia. }
  rewrite En. split; [split | split; [split | split]]; cbn; try done.
  - by exists [].
  - fold next. lia.
  - intros id Hid. by apply Ac.
  - intros id Hid. by apply Aa.
  - eexists. split; [reflexivity |]. by constructor.
  - intros lent. unfold balanced. cbn. intros Hbal. unfold created_in, finished_in in *. rewrite !flat_map_app. cbn [flat_map app].
    rewrite app_nil_r, (Ah _ _ Hi), Hbal. rewrite <- Permutation_cons_append. cbn [app]. by rewrite <- Permutation_middle.
  - by apply Ai.
  - unfold all_commands, blen in *. cbn. lia.
  - unfold conserved, replied_in. cbn. by rewrite flat_map_app, app_nil_r.
Qed.

(** The same with [created] inside. *)
Lemma created_bind {B} kind (m : Work Z) (k : Z -> Work B) w :
  bind (created kind m) k w = (h <~ m ;; effect (Created kind h) ;;~ k h) w.
Proof. unfold created, bind, ret, effect, modify. by destruct (m w) as [[h | e |] w1]. Qed.

Lemma runs_ext {E A} n b b' (R : E -> Prop) (m m' : SM Worker E A) Q : (forall w, m w = m' w) -> runs n b b' R m' Q -> runs n b b' R m Q.
Proof. intros He Hm w. rewrite He. apply Hm. Qed.

Lemma ids_insert {A} (m : gmap Z A) next x :
  map_Forall (fun j _ => j <= next) m -> map_Forall (fun j _ => j <= next + 1) (<[next + 1 := x]> m).
Proof. intros Hm. apply map_Forall_insert_2; [lia |]. intros j y Hj. specialize (Hm j y Hj). cbn in Hm. lia. Qed.
Lemma ids_more {A} (m : gmap Z A) next : map_Forall (fun j _ => j <= next) m -> map_Forall (fun j _ => j <= next + 1) m.
Proof. intros Hm j y Hj. specialize (Hm j y Hj). cbn in Hm. lia. Qed.
Lemma ids_free {A} (m : gmap Z A) next : map_Forall (fun j _ => j <= next) m -> m !! (next + 1) = None.
Proof. intros Hm. destruct (m !! (next + 1)) as [x |] eqn:E; [| done]. specialize (Hm _ _ E). cbn in Hm. lia. Qed.

Ltac adds_ids := intros e next (? & ? & ? & ? & ?); repeat split; first [by apply ids_insert | by apply ids_more].
Ltac adds_gone := cbn; intros e id next Hid Hn; first [done | rewrite lookup_insert_ne by lia; done].

Lemma adds_subscription h channel sink :
  adds KSubscription h (fun id => on_subscriptions (fun l => l ++ [mk_subscription id channel h sink])).
Proof.
  split; [| adds_ids | adds_gone | adds_gone]. intros e next Hi. unfold handles. cbn. rewrite map_app, <- app_assoc. cbn [map app].
  by rewrite <- Permutation_middle.
Qed.
Lemma adds_publisher h : adds KPublisher h (fun id => on_publishers (<[id := h]>)).
Proof.
  split; [| adds_ids | adds_gone | adds_gone]. intros e next (Hi & _). unfold handles. cbn.
  rewrite values_insert by (by apply ids_free). cbn [map]. by rewrite <- app_comm_cons, <- Permutation_middle.
Qed.
Lemma adds_client h ts : adds KClient h (fun id => on_clients (<[id := mk_client h ts]>)).
Proof.
  split; [| adds_ids | adds_gone | adds_gone]. intros e next (_ & Hi & _). unfold handles. cbn.
  rewrite values_insert by (by apply ids_free). cbn [map]. rewrite <- app_comm_cons. by rewrite <- !Permutation_middle.
Qed.
Lemma adds_service channel h ts sink : adds KService h (fun id => on_services (<[id := mk_service channel h ts sink ∅ 0]>)).
Proof.
  split; [| adds_ids | adds_gone | adds_gone]. intros e next (_ & _ & Hi & _). unfold handles. cbn.
  rewrite values_insert by (by apply ids_free). cbn [map]. rewrite <- app_comm_cons. by rewrite <- !Permutation_middle.
Qed.
Lemma adds_action_client h ts : adds KActionClient h (fun id => on_action_clients (<[id := mk_action_client h ts]>)).
Proof.
  split; [| adds_ids | adds_gone | adds_gone]. intros e next (_ & _ & _ & Hi & _). unfold handles. cbn.
  rewrite values_insert by (by apply ids_free). cbn [map]. rewrite <- app_comm_cons. by rewrite <- !Permutation_middle.
Qed.
Lemma adds_action_server channel s ts sink :
  adds KActionServer (as_server s) (fun id => on_action_servers (<[id := mk_server_entry channel s ts sink ∅]>)).
Proof.
  split; [| adds_ids | adds_gone | adds_gone]. intros e next (_ & _ & _ & _ & Hi). unfold handles. cbn.
  rewrite values_insert by (by apply ids_free). cbn [map]. by rewrite <- !Permutation_middle.
Qed.

Lemma create_runs {A} n b kind name (ts_of : A -> Z) qos (load : SM Cache unit A) t (add : Z -> Z -> A -> Entities -> Entities) :
  0 <= b -> quiet load -> servable_name t -> (forall h ts, adds kind h (fun id => add id h ts)) ->
  runs n (b + 1) b backend_text
    (ts <~ typesupport load t ;;
     h <~ created kind (rcl_ (entity_create kind name (ts_of ts) qos)) ;;
     entity <~ allocate ;;
     on_entities (add entity h ts) ;;~
     ret entity) any.
Proof.
  intros Hb Hl Ht Ha. eapply runs_bind with (b1 := b + 1); [by apply typesupport_runs | | lia]. intros ts _.
  eapply runs_ext; [intros w; apply created_bind |]. apply (registered n b kind id (fun id h => add id h ts)); [done | | by intros].
  apply (rcl_runs n true). apply tame_create.
Qed.

(** ** Pumps *)

Lemma each_runs {E A} n b (R : E -> Prop) (xs : list A) body :
  (forall x, runs n b b R (body x) any) -> runs n b b R (each xs body) any.
Proof.
  intros Hb. induction xs as [| x xs IH]; cbn [each]; [by apply runs_ret |]. eapply runs_bind with (b1 := b); [apply Hb | done | lia].
Qed.

(** A step after which there is no more to take than before. *)
Definition calm {E A} (m : SM Worker E A) : Prop := forall w, (backlog (wk_node (m w).2) <= backlog (wk_node w))%nat.

Lemma calm_then {E A B} (m : SM Worker E A) (k : A -> SM Worker E B) : calm m -> (forall a, calm (k a)) -> calm (bind m k).
Proof.
  intros Hm Hk w. unfold bind. specialize (Hm w). destruct (m w) as [[a | e |] w1]; cbn in Hm; [| done | done].
  specialize (Hk a w1). lia.
Qed.
Lemma calm_attempt {E A} (m : SM Worker E A) : calm m -> calm (attempt m).
Proof. intros Hm w. unfold attempt. specialize (Hm w). by destruct (m w) as [[a | e |] w1]. Qed.
Lemma calm_value {E A} (a : A) : calm (ret (E := E) a).
Proof. by intros w. Qed.
Lemma calm_gets {E A} (f : Worker -> A) : calm (gets (E := E) f).
Proof. by intros w. Qed.
Lemma calm_rcl {A} (m : SM Node bytes A) Q : tame true m Q -> calm (rcl_ m).
Proof.
  intros Hm w. unfold rcl_, map_err_, on_node_. specialize (Hm (wk_node w)). destruct (m (wk_node w)) as [r nd], Hm as (_ & Hb & _).
  cbn. auto.
Qed.
Lemma calm_effect {E} e : calm (effect (E := E) e).
Proof. by intros w. Qed.
Lemma calm_entities {E} f : calm (on_entities (E := E) f).
Proof. by intros w. Qed.
Lemma calm_lift {E A} (o : outcome E A) : calm (lift o).
Proof. by intros w. Qed.
Lemma calm_take {E} tb : calm (modify (E := E) (set_take tb)).
Proof. by intros w. Qed.

Ltac calm :=
  lazymatch goal with
  | |- calm (bind _ _) => apply calm_then; [calm | intros ?; calm]
  | |- calm (attempt _) => apply calm_attempt; calm
  | |- calm (ret _) => apply calm_value
  | |- calm (gets _) => apply calm_gets
  | |- calm (entities_ _) => apply calm_gets
  | |- calm (effect _) => apply calm_effect
  | |- calm (on_entities _) => apply calm_entities
  | |- calm (lift _) => apply calm_lift
  | |- calm (modify (set_take _)) => apply calm_take
  | |- calm (if _ then _ else _) => case_match; calm
  | |- calm (match ?x with _ => _ end) => destruct x; calm
  | |- calm (let _ := _ in _) => cbv zeta; calm
  | |- _ => idtac
  end.

Lemma take_all_runs {A} n (P : A -> Prop) (R : BackendError -> Prop) (take_ : Work (option A)) (use : A -> Work bool) :
  serves n take_ (fun r => match r with Some a => P a | None => True end) -> (forall w a w', take_ w = (Ok (Some a), w') -> (backlog (wk_node w') < backlog (wk_node w))%nat) ->
  (forall a, P a -> forall b, runs n b b R (use a) any) -> (forall a, calm (use a)) -> forall b, runs n b b R (take_all take_ use) any.
Proof.
  intros Ht Hl Hu Hc b w Hg. unfold take_all.
  apply (runs_loop n R _ any _ (fun w => backlog (wk_node w))); [| | lia | done].
  - intros b'. eapply runs_bind with (b1 := b'); [apply runs_attempt, Ht | | lia]. intros [[a |] | e] Ha; [| by apply runs_ret | by apply runs_ret].
    eapply runs_bind with (b1 := b'); [by apply Hu | | lia]. intros go _. destruct go; by apply runs_ret.
  - intros w1 w2. unfold bind, attempt. destruct (take_ w1) as [[[a |] | e |] w3] eqn:E; try done.
    specialize (Hl _ _ _ E). specialize (Hc a w3). destruct (use a w3) as [[go | e |] w4]; try done. cbn in Hc.
    unfold ret. destruct go; [| done]. intros Ek. injection Ek as <-. lia.
Qed.

Lemma taking_rcl {A} (m : SM Node bytes (option A)) w a w' :
  taking m -> rcl_ m w = (Ok (Some a), w') -> (backlog (wk_node w') < backlog (wk_node w))%nat.
Proof.
  intros [_ Hm]. unfold rcl_, map_err_, on_node_. destruct (m (wk_node w)) as [[r | e |] nd] eqn:E; cbn; try done.
  intros Ek. injection Ek as -> <-. by eapply Hm.
Qed.

Lemma taking_runs {A} n (m : SM Node bytes (option A)) : taking m -> serves n (rcl_ m) any.
Proof. intros [Hm _]. by eapply rcl_runs. Qed.

Lemma steal_fill payload tb :
  exists tb', steal_prefixed_frame (fill_payload payload tb) = (prefixed payload, tb').
Proof.
  eexists. unfold steal_prefixed_frame, fill_payload. cbn [tb_vec tb_length]. f_equal. unfold prefixed. f_equal.
  set (v := resize (tb_vec tb) SAMPLE_HEADER_PREFIX).
  assert (Hv : blen v = SAMPLE_HEADER_PREFIX).
  { unfold v, resize. rewrite blen_app. change SAMPLE_HEADER_PREFIX with 32. unfold blen. rewrite length_take. unfold zeros. rewrite length_replicate. lia. }
  unfold resize. rewrite blen_app, Hv, Z.sub_diag. cbn [zeros]. change (zeros 0) with (@nil Z). rewrite app_nil_r.
  rewrite take_ge by (unfold blen in *; rewrite length_app; lia).
  rewrite drop_app_ge by (unfold blen in *; lia). unfold blen in Hv. rewrite <- Hv. by replace (Z.to_nat _ - length v)%nat with 0%nat by lia.
Qed.

(** What is read of the state, and a simple sequence. *)
Lemma read_runs {A B} n b b2 (R : BackendError -> Prop) (f : Entities -> A) (k : A -> Work B) Q :
  b2 <= b -> (forall a, runs n b b2 R (k a) Q) -> runs n b b2 R (a <~ entities_ f ;; k a) Q.
Proof. intros Hb Hk. eapply runs_bind with (b1 := b); [by apply runs_gets with (Q := any) | by intros a _ | done]. Qed.
Lemma then_runs {A B} n b (R : BackendError -> Prop) (m : Work A) (k : A -> Work B) Q :
  (forall b, runs n b b R m any) -> (forall a, runs n b b R (k a) Q) -> runs n b b R (bind m k) Q.
Proof. intros Hm Hk. eapply runs_bind with (b1 := b); [apply Hm | by intros a _ | lia]. Qed.

Ltac pump_tac :=
  lazymatch goal with
  | |- runs _ _ _ _ (bind (entities_ _) _) _ => apply read_runs; [lia |]
  | |- runs _ _ _ _ (bind (on_entities _) _) _ => apply then_runs; [intros ?; apply entities_run | intros ?; pump_tac]
  | |- runs _ _ _ _ (bind (effect _) _) _ => apply then_runs; [intros ?; by apply effect_runs | intros ?; pump_tac]
  | |- runs _ _ _ _ (ret _) _ => by apply runs_ret
  | |- _ => idtac
  end.

(** A pump never fails. *)
Abbreviation pumps n m := (forall R b, runs n b b R m any).

Lemma pump_subscriptions_runs n ready : pumps n (pump_ready_subscriptions ready).
Proof.
  intros R b. apply each_runs. intros index. pump_tac. intros [entry |]; [| by apply runs_ret]. revert b.
  apply take_all_runs with (P := fun tb => exists payload tb0, tb = fill_payload payload tb0).
  - intros b. eapply runs_bind with (b1 := b); [by apply runs_gets with (Q := any) | | lia]. intros scratch _.
    apply (rcl_runs n true). unfold take_serialized. eapply tame_bind; [by apply tame_check | intros [payload |] _]; apply tame_ret; [by exists payload, scratch | done].
  - intros w tb w'. unfold bind, gets. by apply taking_rcl, taking_serialized.
  - intros tb (payload & tb0 & ->) b. destruct (steal_fill payload tb0) as [tb' ->].
    eapply runs_bind with (b1 := b); [by apply runs_modify | intros _ _ | lia].
    assert (Hf : from_prefixed_buffer (E := BackendError) (se_channel_id entry) (prefixed payload) = Ok (mk_sample (se_channel_id entry) (prefixed payload))).
    { unfold from_prefixed_buffer, prefixed. rewrite blen_app. change (blen (zeros SAMPLE_HEADER_PREFIX)) with 32.
      change SAMPLE_HEADER_PREFIX with 32. pose proof (blen_nonneg payload). by destruct (Z.leb_spec 32 (32 + blen payload)); [| lia]. }
    rewrite Hf. change (runs n b b R (effect (SendSample (se_sink entry) (mk_sample (se_channel_id entry) (prefixed payload))) ;;~ ret true) any).
    apply then_runs; [| intros; by apply runs_ret]. intros b'. apply effect_runs; [by exists payload | done | done | done].
  - intros tb. destruct (steal_prefixed_frame tb) as [buf tb']. calm.
Qed.

Lemma pump_services_runs n order ready : pumps n (pump_ready_services order ready).
Proof.
  intros R b. apply each_runs. intros index. destruct (order !! index) as [entity |]; [| by apply runs_ret]. pump_tac.
  intros [entry |]; [| by apply runs_ret]. revert b. apply take_all_runs with (P := any).
  - intros b. eapply runs_weaken; [by apply taking_runs, taking_request | lia | by intros [] _].
  - intros w a w'. apply taking_rcl, taking_request.
  - intros [header cdr] _ b. pump_tac. intros current. destruct (next_operation_id _) as [op counter]. pump_tac. by apply neutral_services.
  - intros [header cdr]. apply calm_then; [apply calm_gets | intros current]. destruct (next_operation_id _) as [op counter]. calm.
Qed.

Lemma pump_goals_runs n entity entry : pumps n (pump_goals entity entry).
Proof.
  intros R. unfold pump_goals. apply take_all_runs with (P := any).
  - intros b. eapply runs_weaken; [by apply taking_runs, taking_goal | lia | by intros [] _].
  - intros w a w'. apply taking_rcl, taking_goal.
  - intros [[header uuid] goal] _ b. apply then_runs; [| intros [handle | err]; pump_tac; by apply neutral_goals].
    intros b'. eapply runs_weaken; [eapply runs_attempt, (rcl_runs n true), tame_accept_goal | lia | done].
  - intros [[header uuid] goal]. calm. eapply calm_rcl, tame_accept_goal.
Qed.

Lemma neutral_mark entity uuid : neutral (mark_succeeded entity uuid).
Proof. apply neutral_goals. Qed.

Lemma attempt_rcl {A} n (m : SM Node bytes A) c Q : tame c m Q -> pumps n (attempt (rcl_ m)).
Proof. intros Hm R b. eapply runs_weaken; [by eapply runs_attempt, rcl_runs | lia | done]. Qed.

Lemma pump_results_runs n entity entry : pumps n (pump_results entity entry).
Proof.
  intros R. unfold pump_results. apply take_all_runs with (P := any).
  - intros b. eapply runs_weaken; [by apply taking_runs, taking_result_request | lia | by intros [] _].
  - intros w a w'. apply taking_rcl, taking_result_request.
  - intros [header uuid] _ b. pump_tac. intros [slot |]; [| by apply runs_ret]. cbv zeta. pump_tac; [apply neutral_goals |].
    destruct (gs_result_cdr slot) as [cdr |]; [| by apply runs_ret]. apply then_runs.
    + intros b'. destruct (gs_succeeded slot); [by apply runs_ret |]. apply then_runs; [by eapply attempt_rcl, (tame_succeed_goal true) |].
      intros [[] | err]; pump_tac. apply neutral_mark.
    + intros [|]; [| by apply runs_ret]. apply then_runs; [by eapply attempt_rcl, (tame_send_result true) | intros; by apply runs_ret].
  - intros [header uuid]. calm; [by eapply calm_rcl, tame_succeed_goal | by eapply calm_rcl, tame_send_result].
Qed.

Lemma pump_cancels_runs n entry : pumps n (pump_cancels entry).
Proof.
  intros R. unfold pump_cancels. apply take_all_runs with (P := any).
  - intros b. eapply runs_weaken; [by apply taking_runs, taking_cancel | lia | by intros [] _].
  - intros w a w'. apply taking_rcl, taking_cancel.
  - intros [[header uuid] cdr] _ b. pump_tac.
  - intros [[header uuid] cdr]. calm.
Qed.

Lemma pump_all_runs n : pumps n pump_all_services_and_subscriptions.
Proof.
  intros R b. unfold pump_all_services_and_subscriptions. pump_tac. intros subs. apply then_runs; [apply pump_subscriptions_runs | intros _].
  pump_tac. intros order. apply pump_services_runs.
Qed.

Lemma pump_servers_runs n : pumps n pump_action_servers.
Proof.
  intros R b. unfold pump_action_servers. pump_tac. intros order. apply each_runs. intros entity. unfold pump_one_action_server.
  pump_tac. intros [entry |]; [| by apply runs_ret]. apply then_runs; [apply pump_goals_runs | intros _].
  apply then_runs; [apply pump_results_runs | intros _]. apply pump_cancels_runs.
Qed.

End Safety.
