(* ===== verification/RosService.v ===== *)
(** * The ROS attachment thread: the loop

    Every command and every turn of the loop keeps the invariant of the worker,
    however its calls nest: waiting, the two kinds of call, an entity on loan to a
    call, destruction, and the loop itself. *)

From Stdlib Require Import Sorting.Permutation.
From stdpp Require Import gmap.
From S2P Require Import Prelude Utf8 Policy Backend Typesupport Rcl RosWorker RosProofs RosSafety.
#[local] Open Scope Z_scope.

Section Service.
#[local] Set Default Proof Using "Type*".
Context `{RclLaws} `{Linker}.
Abbreviation Work := (SM Worker BackendError).
Abbreviation serves n m Q := (forall b, runs n b b backend_text m Q).
Abbreviation serves_ n m Q := (forall b, runs n b b message_text m Q).
Variables (env : RosEnv) (domain_id pid : Z) (guard : option Z).

(** ** Waiting *)

Lemma arrive_does {E} n b (R : E -> Prop) : runs n b b R arrive any.
Proof.
  apply (runs_ext n b b R _ (modify (fun w =>
    match wk_arrivals w with
    | [] => w
    | (commands, hung_up) :: rest => set_inbox (wk_queue w ++ commands) (wk_hung_up w || hung_up) rest w
    end))); [done |].
  apply runs_modify. intros w. destruct (wk_arrivals w) as [| [cs h] rest] eqn:Ea; [done |].
  split_and!; try done; [unfold all_commands; cbn; by rewrite Ea, <- app_assoc | unfold inbox; rewrite Ea; by apply rtc_once].
Qed.
Lemma arrive_runs n : serves_ n arrive any.
Proof. intros b. apply arrive_does. Qed.

(** A wait that ends without an error took time. *)
Definition takes_time (m : SM Node bytes unit) : Prop := tame false m any /\ forall n u n', m n = (Ok u, n') -> now n < now n'.

Lemma await_runs {A} n pump timeout slice late wait_ (take_ : SM Node bytes (option A)) :
  serves_ n pump any -> 0 <= timeout -> (forall t, takes_time (wait_ t)) -> tame false take_ any ->
  utf8_valid (lit late) && (blen (lit late) <=? 4096) = true ->
  serves_ n (await_response (fun A => on_node_) arrive pump timeout slice late wait_ take_) any.
Proof.
  intros Hp Ht Hw Htk Hl b w Hg. unfold await_response. unfold bind at 1. unfold on_node_ at 1, gets. cbn [fst snd].
  replace (set_node (wk_node w) w) with w by (by destruct w). set (deadline := now (wk_node w) + timeout).
  unfold loop_ns, bind at 1.
  match goal with |- context [spins ?p ?body w] => pose proof (spins_measure n b message_text body any deadline) as Hm;
    set (turns := p) in *; set (turn := body) in * end.
  assert (Hbody : forall w, good n b w -> let '(r, w') := turn w in
     evo w w' /\ good n b w' /\ conserved w' ≡ₚ conserved w /\
     match r with
     | Ok (Some a) => any a
     | Ok None => now (wk_node w) < now (wk_node w') /\ now (wk_node w) < deadline
     | Err e => message_text e | Panic => False
     end).
  { clear Hm. clearbody deadline turns. intros v Hgv. clear w Hg. rename v into w, Hgv into Hg. unfold turn. unfold bind at 1. pose proof (Hp b w Hg) as H1p.
    destruct (pump w) as [[u | e |] w1]; [| done | done]. destruct H1p as (Hev & Hg1 & Hc & _).
    unfold bind at 1. unfold on_node_ at 1, gets. cbn [fst snd]. replace (set_node (wk_node w1) w1) with w1 by (by destruct w1). cbv zeta.
    pose proof (ev_clock _ _ Hev). destruct (Z.eqb_spec (Z.max 0 (deadline - now (wk_node w1))) 0) as [E | E].
    { cbn. split; [done | split; [done | split; [done |]]]. by apply short_text. }
    match goal with |- context [on_node_ (wait_ ?t)] => pose proof (Hw t) as [Htame Htime]; set (slice' := t) in * end.
    unfold bind at 1. pose proof (node_runs n false _ _ Htame b w1 Hg1) as H2p. unfold on_node_ at 1 in H2p. unfold on_node_ at 1.
    destruct (wait_ slice' (wk_node w1)) as [[u2 | e |] nd] eqn:Ew; destruct H2p as (Hev2 & Hg2 & Hc2 & Hr2); [| | done].
    2: { split; [by eapply evo_trans | split; [done | split; [by rewrite Hc2 | done]]]. }
    apply Htime in Ew. unfold bind at 1. pose proof (arrive_runs n b _ Hg2) as H3p. cbn [fst snd] in H3p |- *.
    destruct (arrive (set_node nd w1)) as [[u3 | e |] w3] eqn:Ea; [| done | done]. destruct H3p as (Hev3 & Hg3 & Hc3 & _).
    pose proof (node_runs n false _ _ Htk b w3 Hg3) as H4p. destruct (on_node_ take_ w3) as [r w4], H4p as (Hev4 & Hg4 & Hc4 & Hr4).
    split; [eapply evo_trans; [exact Hev |]; eapply evo_trans; [exact Hev2 |]; by eapply evo_trans |].
    split; [done | split; [by rewrite Hc4, Hc3, Hc2 |]]. destruct r as [[a |] | e |]; try done.
    pose proof (ev_clock _ _ Hev3). pose proof (ev_clock _ _ Hev4). cbn in Ew. cbn [wk_node set_node] in *. lia. }
  specialize (Hm Hbody turns w Hg). destruct (spins turns turn w) as [[[a |] | e |] w'], Hm as (Hev & Hg' & Hc & Hr); try done.
  exfalso. unfold turns, deadline in Hr. rewrite Z2Pos.id in Hr by lia. lia.
Qed.

Lemma takes_after {A} c (m : SM Node bytes A) (k : A -> SM Node bytes unit) Q :
  tame c m Q -> (forall a, takes_time (k a)) -> takes_time (bind m k).
Proof.
  intros Hm Hk. split.
  - apply (tame_bind _ _ _ any); [eapply tame_weaken; [exact Hm | done | done] | intros a _; apply Hk].
  - intros n u n'. unfold bind. specialize (Hm n). destruct (m n) as [[a | e |] n1]; [| done | done]. intros E.
    apply (proj2 (Hk a)) in E. destruct Hm as (? & _). lia.
Qed.
Lemma takes_before c (m k : SM Node bytes unit) Q : takes_time m -> tame c k Q -> takes_time (m ;;~ k).
Proof.
  intros [Hm Ht] Hk. split.
  - eapply tame_bind; [exact Hm | intros u _]. eapply tame_weaken; [exact Hk | done | by intros ? _].
  - intros n u n'. unfold bind. specialize (Ht n). destruct (m n) as [[a | e |] n1]; [| done | done]. specialize (Ht a n1 eq_refl).
    specialize (Hk n1). intros E. rewrite E in Hk. destruct Hk as (? & _). lia.
Qed.

Lemma takes_wait ws t : takes_time (rcl_wait_ns ws t ;;~ ret tt).
Proof.
  split; [eapply tame_bind; [by apply tame_check_wait | intros r _; by apply tame_ret] |]. intros n u n'.
  unfold rcl_wait_ns, bind, check, checked, ret. pose proof (law_wait (ws_handle ws) t n).
  destruct (c_call _ (rcl_wait (ws_handle ws) t) n) as [[r | code] n1]; [| done]. intros E. injection E as _ <-. done.
Qed.

Lemma takes_wait_one ws kind client t : takes_time (wait_one ws kind client guard t).
Proof.
  unfold wait_one. eapply (takes_after false); [by apply tame_check | intros _]. eapply (takes_after false); [apply tame_add_entity | intros _].
  eapply (takes_after false); [apply tame_add_guard | intros _]. apply takes_wait.
Qed.

Lemma takes_wait_action client t : takes_time (wait_action_ready client guard t).
Proof.
  unfold wait_action_ready. eapply (takes_after false); [by apply tame_check | intros [[[subs gcs] clients] services]].
  eapply (takes_after false); [apply tame_wait_set_new | intros ws]. eapply (takes_before false); [apply takes_wait_one | apply tame_wait_set_fini].
Qed.

(** ** Calls *)

Lemma node_then {A B} n b c (m : SM Node bytes A) (k : A -> SM Worker bytes B) P Q :
  tame c m P -> (forall a, P a -> runs n b b message_text (k a) Q) -> runs n b b message_text (bind (on_node_ m) k) Q.
Proof. intros Hm Hk. eapply runs_bind with (b1 := b); [by eapply node_runs | exact Hk | lia]. Qed.
Lemma work_then {A B} n b (m : SM Worker bytes A) (k : A -> SM Worker bytes B) P Q :
  runs n b b message_text m P -> (forall a, P a -> runs n b b message_text (k a) Q) -> runs n b b message_text (bind m k) Q.
Proof. intros Hm Hk. eapply runs_bind with (b1 := b); [exact Hm | exact Hk | lia]. Qed.

Lemma call_runs n pump client request_ts response_ts cdr timeout :
  serves_ n pump any -> 0 <= timeout ->
  serves_ n (call_with_pump (fun A => on_node_) guard arrive pump client request_ts response_ts cdr timeout) rust_slice.
Proof.
  intros Hp Ht b. unfold call_with_pump. do 2 (eapply node_then; [apply (tame_allocate true) | intros ? _]).
  eapply node_then; [apply (tame_wait_set_new true) | intros ws _]. eapply work_then.
  - apply runs_attempt. eapply node_then; [apply (tame_deserialize true) | intros _ _]. eapply node_then; [by apply (tame_check true) | intros _ _].
    eapply work_then; [| intros id _; by eapply node_runs, (tame_serialize true)].
    apply await_runs; [done | done | intros; apply takes_wait_one | by apply tame_check | done].
  - intros r Hr. do 2 (eapply node_then; [apply (tame_destroy true) | intros _ _]).
    eapply node_then; [apply (tame_wait_set_fini true) | intros _ _]. by apply runs_settle.
Qed.

Lemma await_action_runs n pump client timeout late take_ operation :
  serves_ n pump any -> 0 <= timeout -> utf8_valid (lit late) && (blen (lit late) <=? 4096) = true ->
  utf8_valid (lit operation) && (blen (lit operation) <=? 1000) && negb (is_wait take_) = true ->
  serves_ n (await_action (fun A => on_node_) guard arrive pump client timeout late take_ operation) any.
Proof.
  intros Hp Ht Hl Ho. unfold await_action. apply await_runs; [done | done | intros; apply takes_wait_action | by apply tame_check | done].
Qed.

Lemma goal_runs n pump client ts operation_id cdr timeout :
  serves_ n pump any -> 0 <= timeout ->
  serves_ n (send_goal_result_with_pump (fun A => on_node_) guard arrive pump client ts operation_id cdr timeout) rust_slice.
Proof.
  intros Hp Ht b. unfold send_goal_result_with_pump. do 4 (eapply node_then; [apply (tame_allocate true) | intros ? _]). eapply work_then.
  - apply runs_attempt. eapply node_then; [apply (tame_proc true) | intros _ _].
    eapply node_then; [apply (tame_deserialize true) | intros _ _]. eapply node_then; [by apply (tame_check true) | intros _ _].
    eapply work_then; [by apply await_action_runs | intros _ _].
    eapply node_then; [by apply (tame_gets true _ any) | intros accepted _].
    destruct (negb accepted); [apply runs_throw; by apply short_text |].
    eapply node_then; [apply (tame_proc true) | intros _ _]. eapply node_then; [by apply (tame_check true) | intros _ _].
    eapply work_then; [by apply await_action_runs | intros _ _]. by eapply node_runs, (tame_serialize true).
  - intros r Hr. do 4 (eapply node_then; [apply (tame_destroy true) | intros _ _]). by apply runs_settle.
Qed.

Lemma cancel_runs n client ts operation_id timeout :
  0 <= timeout -> serves_ n (cancel_goal (fun A => on_node_) guard arrive client ts operation_id timeout) rust_slice.
Proof.
  intros Ht b. unfold cancel_goal. do 2 (eapply node_then; [apply (tame_allocate true) | intros ? _]). eapply work_then.
  - apply runs_attempt. eapply node_then; [apply (tame_proc true) | intros _ _]. eapply node_then; [by apply (tame_check true) | intros _ _].
    eapply work_then; [apply await_action_runs; [intros b'; by apply runs_ret | done | done | done] | intros _ _].
    by eapply node_runs, (tame_serialize true).
  - intros r Hr. do 2 (eapply node_then; [apply (tame_destroy true) | intros _ _]). by apply runs_settle.
Qed.

(** ** Entities on loan *)

Lemma ids_remove {A} (m : gmap Z A) k next : map_Forall (fun j _ => j <= next) m -> map_Forall (fun j _ => j <= next) (delete k m).
Proof. intros Hm j x [_ Hj]%lookup_delete_Some. by eapply Hm. Qed.

(** An entity taken out for the time of [m] comes back, whatever [m] does. *)
Lemma loan {A} n b w (take_ put : Entities -> Entities) x (m : Work A) Q :
  good n b w -> runs n b b backend_text m Q -> let e := wk_entities w in
  handles e ≡ₚ x :: handles (take_ e) -> ids_ok (take_ e) (wk_next_entity w) ->
  (forall id, en_clients e !! id = None -> en_clients (take_ e) !! id = None) ->
  (forall id, en_action_clients e !! id = None -> en_action_clients (take_ e) !! id = None) ->
  (forall w2, evo (set_entities (take_ e) w) w2 -> ids_ok (wk_entities w2) (wk_next_entity w2) ->
     handles (put (wk_entities w2)) ≡ₚ x :: handles (wk_entities w2) /\ ids_ok (put (wk_entities w2)) (wk_next_entity w2) /\
     (forall id, en_clients e !! id = None -> en_clients (wk_entities w2) !! id = None -> en_clients (put (wk_entities w2)) !! id = None) /\
     (forall id, en_action_clients e !! id = None -> en_action_clients (wk_entities w2) !! id = None ->
        en_action_clients (put (wk_entities w2)) !! id = None)) ->
  let '(r, w') := (on_entities take_ ;;~ r <~ attempt m ;; on_entities put ;;~ settle r) w in
  evo w w' /\ good n b w' /\ conserved w' ≡ₚ conserved w /\
  match r with Ok a => Q a | Err e => backend_text e | Panic => False end.
Proof.
  intros [Hl Hs Hi Hr] Hm e Hh Hids Hc Ha Hput. set (w1 := set_entities (take_ e) w).
  assert (Hg1 : good n b w1) by (split; [exact Hl | exact Hs | exact Hids | exact Hr]).
  pose proof (runs_attempt _ _ _ _ backend_text _ _ Hm w1 Hg1) as Hrun. unfold bind at 1, on_entities at 1, modify. fold e w1.
  assert (Hback : forall w2 (r : A + BackendError), evo w1 w2 -> good n b w2 -> conserved w2 ≡ₚ conserved w1 ->
      let w3 := set_entities (put (wk_entities w2)) w2 in evo w w3 /\ good n b w3 /\ conserved w3 ≡ₚ conserved w).
  { intros w2 r Hev Hg2 Hcons w3. destruct (Hput w2 Hev (gd_ids _ _ _ Hg2)) as (Hph & Hpi & Hpc & Hpa).
    destruct Hev as [Hcom Hclk Hnx Hcl Hac Hef Hbal Hin]. split; [split | split; [| exact Hcons]]; cbn in *; try done.
    - intros id Hid Hn. apply Hpc; [done |]. apply Hcl; [done | by apply Hc].
    - intros id Hid Hn. apply Hpa; [done |]. apply Hac; [done | by apply Ha].
    - intros lent Hb. specialize (Hbal (x :: lent)). unfold balanced in *. cbn in *. rewrite Hph.
      rewrite Hbal by (rewrite Hb; fold e; rewrite Hh; cbn [app]; apply Permutation_app_head, Permutation_middle).
      cbn [app]. apply Permutation_app_head. symmetry. apply Permutation_middle.
    - destruct Hg2 as [? ? ? ?]. by split. }
  unfold bind at 1. unfold attempt in *. destruct (m w1) as [[r | er |] w2]; [| | by destruct Hrun as (_ & _ & _ & [])];
    destruct Hrun as (Hev & Hg2 & Hcons & Hr2); unfold bind, on_entities, modify, settle, ret, throw.
  - destruct (Hback w2 (inl r) Hev Hg2 Hcons) as (? & ? & ?). done.
  - destruct (Hback w2 (inr er) Hev Hg2 Hcons) as (? & ? & ?). done.
Qed.

Lemma missing_runs {X A} n b message (k : X -> Work A) Q :
  utf8_valid (lit message) && (blen (lit message) <=? 4096) = true -> runs n b b backend_text (x <~ found None message ;; k x) Q.
Proof. intros Hm. eapply runs_bind with (b1 := b); [by apply found_runs | done | lia]. Qed.

Lemma borrowed_client {A} n entity (m : ClientEntry -> Work A) Q :
  (forall entry, serves n (m entry) Q) ->
  serves n (entry <~ entities_ (fun e => en_clients e !! entity) ;;
            entry <~ found entry "unknown service client entity" ;;
            on_entities (on_clients (delete entity)) ;;~
            result <~ attempt (m entry) ;;
            on_entities (on_clients (<[entity := entry]>)) ;;~
            settle result) Q.
Proof.
  intros Hm b w Hg. destruct (en_clients (wk_entities w) !! entity) as [entry |] eqn:Ek.
  - pose proof Hg as [_ _ (Hi1 & Hi2 & Hi3 & Hi4 & Hi5) _].
    pose proof (loan n b w (on_clients (delete entity)) (on_clients (<[entity := entry]>)) (KClient, ce_client entry) (m entry) Q Hg (Hm entry b)) as Hl.
    unfold bind at 1, entities_, gets. rewrite Ek. unfold bind at 1, found, lift. cbn [ok_or]. apply Hl; clear Hl.
    + unfold handles. cbn. rewrite (values_delete _ _ _ Ek). cbn [map]. rewrite <- app_comm_cons. by rewrite <- !Permutation_middle.
    + repeat split; cbn; try done. by apply ids_remove.
    + cbn. intros id Hn. rewrite lookup_delete_None. by right.
    + done.
    + intros w2 Hev (Hj1 & Hj2 & Hj3 & Hj4 & Hj5).
      assert (Hn : en_clients (wk_entities w2) !! entity = None).
      { apply (ev_clients _ _ Hev); [by apply (Hi2 _ _ Ek) | apply lookup_delete_eq]. }
      split; [| split; [| split; [| done]]].
      * unfold handles. cbn. rewrite (values_insert _ _ _ Hn). cbn [map]. rewrite <- app_comm_cons. by rewrite <- !Permutation_middle.
      * repeat split; cbn; try done. apply map_Forall_insert_2; [| done]. pose proof (ev_next _ _ Hev) as Hx. cbn in Hx.
        specialize (Hi2 _ _ Ek). cbn in Hi2. lia.
      * cbn. intros id He Hn2. rewrite lookup_insert_ne; [done |]. intros <-. congruence.
  - unfold bind at 1, entities_, gets. rewrite Ek.
    by apply (missing_runs n b "unknown service client entity"%string).
Qed.

Lemma borrowed_action_client {A} n entity (m : ActionClientEntry -> Work A) Q :
  (forall entry, serves n (m entry) Q) ->
  serves n (entry <~ entities_ (fun e => en_action_clients e !! entity) ;;
            entry <~ found entry "unknown action client entity" ;;
            on_entities (on_action_clients (delete entity)) ;;~
            result <~ attempt (m entry) ;;
            on_entities (on_action_clients (<[entity := entry]>)) ;;~
            settle result) Q.
Proof.
  intros Hm b w Hg. destruct (en_action_clients (wk_entities w) !! entity) as [entry |] eqn:Ek.
  - pose proof Hg as [_ _ (Hi1 & Hi2 & Hi3 & Hi4 & Hi5) _].
    pose proof (loan n b w (on_action_clients (delete entity)) (on_action_clients (<[entity := entry]>)) (KActionClient, ac_client entry) (m entry) Q Hg (Hm entry b)) as Hl.
    unfold bind at 1, entities_, gets. rewrite Ek. unfold bind at 1, found, lift. cbn [ok_or]. apply Hl; clear Hl.
    + unfold handles. cbn. rewrite (values_delete _ _ _ Ek). cbn [map]. rewrite <- app_comm_cons. by rewrite <- !Permutation_middle.
    + repeat split; cbn; try done. by apply ids_remove.
    + done.
    + cbn. intros id Hn. rewrite lookup_delete_None. by right.
    + intros w2 Hev (Hj1 & Hj2 & Hj3 & Hj4 & Hj5).
      assert (Hn : en_action_clients (wk_entities w2) !! entity = None).
      { apply (ev_action_clients _ _ Hev); [by apply (Hi4 _ _ Ek) | apply lookup_delete_eq]. }
      split; [| split; [| split; [done |]]].
      * unfold handles. cbn. rewrite (values_insert _ _ _ Hn). cbn [map]. rewrite <- app_comm_cons. by rewrite <- !Permutation_middle.
      * repeat split; cbn; try done. apply map_Forall_insert_2; [| done]. pose proof (ev_next _ _ Hev) as Hx. cbn in Hx.
        specialize (Hi4 _ _ Ek). cbn in Hi4. lia.
      * cbn. intros id He Hn2. rewrite lookup_insert_ne; [done |]. intros <-. congruence.
  - unfold bind at 1, entities_, gets. rewrite Ek.
    by apply (missing_runs n b "unknown action client entity"%string).
Qed.

(** ** Commands *)

Lemma found_then {X A} n b (o : option X) message (k : X -> Work A) Q :
  utf8_valid (lit message) && (blen (lit message) <=? 4096) = true -> (forall x, o = Some x -> runs n b b backend_text (k x) Q) ->
  runs n b b backend_text (x <~ found o message ;; k x) Q.
Proof. intros Hm Hk. eapply runs_bind with (b1 := b); [by apply found_runs | exact Hk | lia]. Qed.

Lemma publish_runs n entity payload : serves n (publish_ entity payload) any.
Proof. intros b. apply read_runs; [lia |]. intros o. apply found_then; [done |]. intros p _. apply (rcl_runs n true), tame_publish. Qed.

Lemma call_client_runs n pump entity request : serves_ n pump any -> serves n (call_client guard pump entity request) rust_slice.
Proof.
  intros Hp. apply borrowed_client. intros entry b. eapply runs_map_err; [by apply call_runs | apply map_rcl_text].
Qed.

Lemma send_action_goal_runs n pump entity operation_id cdr :
  serves_ n pump any -> serves n (send_action_goal_ guard pump entity operation_id cdr) rust_slice.
Proof.
  intros Hp. apply borrowed_action_client. intros entry b. eapply runs_map_err; [by apply goal_runs | apply map_rcl_text].
Qed.

Lemma cancel_action_runs n entity operation_id : serves n (cancel_action_ guard entity operation_id) rust_slice.
Proof.
  intros b. apply read_runs; [lia |]. intros o. apply found_then; [done |]. intros entry _.
  eapply runs_map_err; [by apply cancel_runs | apply map_rcl_text].
Qed.

Lemma service_response_runs n entity operation_id response : serves n (send_service_response_ entity operation_id response) any.
Proof.
  intros b. apply read_runs; [lia |]. intros o. apply found_then; [done |]. intros entry _. apply found_then; [done |]. intros header _.
  apply then_runs; [intros b'; apply entities_run; by apply neutral_services | intros _]. apply (rcl_runs n true), tame_send_response.
Qed.

Lemma feedback_runs n entity operation_id payload : serves n (send_action_feedback_ entity operation_id payload) any.
Proof.
  intros b. apply read_runs; [lia |]. intros o. apply found_then; [done |]. intros entry _. apply found_then; [done |]. intros slot _.
  apply (rcl_runs n true), tame_publish_feedback.
Qed.

Lemma result_runs n entity operation_id payload : serves n (send_action_result_ entity operation_id payload) any.
Proof.
  intros b. apply read_runs; [lia |]. intros o. apply found_then; [done |]. intros entry _. apply found_then; [done |]. intros slot _.
  apply then_runs; [intros b'; apply entities_run, neutral_goals | intros _]. apply then_runs; [| intros _].
  - intros b'. destruct (gs_succeeded slot); [by apply runs_ret |]. apply then_runs; [intros b2; apply (rcl_runs n true), tame_succeed_goal | intros _].
    apply entities_run, neutral_mark.
  - destruct (gs_pending_result_header slot); [apply (rcl_runs n true), tame_send_result | by apply runs_ret].
Qed.

Lemma status_runs n entity : serves n (send_action_status_ entity) any.
Proof. intros b. apply read_runs; [lia |]. intros o. apply found_then; [done |]. intros entry _. apply (rcl_runs n true), tame_publish_status. Qed.

Lemma topics_runs n : serves n graph_topics any.
Proof. intros b. apply (rcl_runs n true). by apply tame_check. Qed.
Lemma view_runs n : serves n (build_graph_view domain_id pid) any.
Proof.
  intros b. unfold build_graph_view. apply then_runs; [apply topics_runs | intros topics].
  apply then_runs; [intros b'; apply (rcl_runs n true); by apply tame_check | intros services]. by apply runs_ret.
Qed.

(** Finalization cannot fail. *)
Definition ends (m : Work unit) (kind : EntityKind) (h : Z) : Prop :=
  forall w, exists nd, now (wk_node w) <= now nd /\ m w = (Ok tt, add_effect (Finished kind h) (set_node nd w)).

Lemma finish_ends kind h : ends (finish kind h) kind h.
Proof. intros w. exists (c_proc (rcl_fini kind h) (wk_node w)). split; [apply law_clock_proc | done]. Qed.
Lemma finish_server_ends s : ends (finish_server s) KActionServer (as_server s).
Proof.
  intros w. exists (c_proc (rcl_clock_fini (as_clock s)) (c_proc (rcl_fini KActionServer (as_server s)) (wk_node w))). split; [| done].
  pose proof (law_clock_proc (rcl_fini KActionServer (as_server s)) (wk_node w)).
  pose proof (law_clock_proc (rcl_clock_fini (as_clock s)) (c_proc (rcl_fini KActionServer (as_server s)) (wk_node w))). lia.
Qed.

(** An entity taken out and finalized. *)
Record drops (kind : EntityKind) (h : Z) (e rest : Entities) : Prop := {
  dr_handles : handles e ≡ₚ (kind, h) :: handles rest;
  dr_ids next : ids_ok e next -> ids_ok rest next;
  dr_clients id : en_clients e !! id = None -> en_clients rest !! id = None;
  dr_action_clients id : en_action_clients e !! id = None -> en_action_clients rest !! id = None
}.

Lemma finalize n b w kind h (m : Work unit) (f : Entities -> Entities) :
  good n b w -> ends m kind h -> drops kind h (wk_entities w) (f (wk_entities w)) ->
  let '(r, w') := (on_entities f ;;~ m) w in
  evo w w' /\ good n b w' /\ conserved w' ≡ₚ conserved w /\ match r with Ok a => any a | Err e => backend_text e | Panic => False end.
Proof.
  intros [Hl Hs Hi Hr] Hm [Hh Hd Hc Ha]. unfold bind, on_entities, modify.
  destruct (Hm (set_entities (f (wk_entities w)) w)) as (nd & Ht & ->). cbn in Ht.
  split; [split | split; [| split; [| done]]]; cbn; try done.
  - by exists [].
  - intros id _. apply Hc.
  - intros id _. apply Ha.
  - eexists. split; [reflexivity | by constructor].
  - intros lent. unfold balanced. cbn. unfold created_in, finished_in. rewrite !flat_map_app. cbn [flat_map]. rewrite app_nil_r.
    intros ->. rewrite Hh, <- app_assoc. done.
  - split; cbn; auto.
  - unfold conserved, replied_in. cbn. by rewrite flat_map_app, app_nil_r.
Qed.

Lemma remove_one_runs {A} n kind (h : A -> Z) get on entity (fini : A -> Work unit) :
  (forall x, ends (fini x) kind (h x)) ->
  (forall e x, get e !! entity = Some x -> drops kind (h x) e (on (delete entity) e)) ->
  serves n (remove_one get on entity fini) any.
Proof.
  intros Hf Hd b w Hg. unfold remove_one. unfold bind at 1, entities_, gets.
  destruct (get (wk_entities w) !! entity) as [x |] eqn:Ek; [| cbn; split; [apply evo_refl | by split]].
  apply (finalize n b w kind (h x)); [done | apply Hf | by apply Hd].
Qed.

Ltac drop_tac :=
  intros e x Hx; split; cbn;
  [unfold handles; cbn; rewrite (values_delete _ _ _ Hx); cbn [map]; rewrite <- ?app_comm_cons; by rewrite <- ?Permutation_middle
  | intros next (? & ? & ? & ? & ?); repeat split; cbn; try done; by apply ids_remove
  | intros id Hn; first [done | rewrite lookup_delete_None; by right]
  | intros id Hn; first [done | rewrite lookup_delete_None; by right]].

Lemma removed_subscription entity l x rest : remove_subscription entity l = Some (x, rest) -> l ≡ₚ x :: rest.
Proof.
  revert rest. induction l as [| y l IH]; intros rest; cbn [remove_subscription]; [done |]. destruct (se_entity y =? entity).
  - intros E. by injection E as -> ->.
  - destruct (remove_subscription entity l) as [[z zs] |]; [| done]. intros E. injection E as -> <-. rewrite (IH _ eq_refl).
    apply Permutation_swap.
Qed.

Lemma destroy_runs n entity : serves n (destroy_entity entity) any.
Proof.
  intros b. unfold destroy_entity. apply then_runs.
  { intros b' w Hg. unfold bind at 1, entities_, gets.
    destruct (remove_subscription entity (en_subscriptions (wk_entities w))) as [[x rest] |] eqn:Er; [| cbn; split; [apply evo_refl | by split]].
    apply (finalize n b' w KSubscription (se_subscription x)); [done | apply finish_ends |]. apply removed_subscription in Er.
    split; cbn; try done. unfold handles. cbn. by rewrite Er. }
  intros _. apply then_runs; [intros b'; apply (remove_one_runs n KPublisher id); [apply finish_ends | drop_tac] | intros _].
  apply then_runs; [intros b'; apply (remove_one_runs n KClient ce_client); [intros; apply finish_ends | drop_tac] | intros _].
  apply then_runs; [intros b'; apply (remove_one_runs n KService sv_service); [intros; apply finish_ends | drop_tac] | intros _].
  apply then_runs; [intros b'; apply (remove_one_runs n KActionClient ac_client); [intros; apply finish_ends | drop_tac] | intros _].
  apply (remove_one_runs n KActionServer (fun x => as_server (sr_server x))); [intros; apply finish_server_ends | drop_tac].
Qed.

(** ** Serving *)

(** A command is answered, within the contract. *)
Lemma answer_runs {A} n b b' channel kind (f : A + BackendError -> Answer) (m : Work A) Q :
  runs n b b' backend_text m Q -> (forall r, either Q r -> answer_ok (f r)) -> (forall r, answer_kind (f r) = kind) ->
  forall w, good n b w -> exists w', answer channel f m w = (Ok tt, w') /\ evo w w' /\ good n b' w' /\
    conserved w' ≡ₚ (channel, kind) :: conserved w.
Proof.
  intros Hm Hf Hk w Hg. pose proof (Hm w Hg) as Hr. unfold answer, bind, attempt, effect, modify.
  assert (Hrep : forall w1 r, evo w w1 -> good n b' w1 -> conserved w1 ≡ₚ conserved w -> either Q r ->
      let w' := add_effect (Reply channel (f r)) w1 in evo w w' /\ good n b' w' /\ conserved w' ≡ₚ (channel, kind) :: conserved w).
  { intros w1 r Hev [? ? ? ?] Hc Hq w'. split; [| split; [by split |]].
    - eapply evo_trans; [exact Hev |]. split; cbn; try done; [by exists [] | |].
      + eexists. split; [reflexivity |]. constructor; [by apply Hf | constructor].
      + intros lent. unfold balanced, created_in, finished_in. cbn. by rewrite !flat_map_app, !app_nil_r.
    - rewrite <- Hc. unfold conserved, replied_in. cbn. rewrite flat_map_app. cbn. rewrite Hk, <- app_assoc. cbn. symmetry. apply Permutation_middle. }
  destruct (m w) as [[a | e |] w1]; [| | by destruct Hr as (_ & _ & _ & [])]; destruct Hr as (Hev & Hg1 & Hc & Hq).
  - exists (add_effect (Reply channel (f (inl a))) w1). split; [done | by apply Hrep].
  - exists (add_effect (Reply channel (f (inr e))) w1). split; [done | by apply Hrep].
Qed.

Lemma handle_runs n b pump_call pump_goal c w :
  0 <= b -> serves_ n pump_call any -> serves_ n pump_goal any -> servable c -> good n (b + 1) w ->
  exists w', handle env domain_id pid guard pump_call pump_goal c w = (Ok tt, w') /\ evo w w' /\ good n b w' /\
    conserved w' ≡ₚ awaited c :: conserved w.
Proof.
  intros Hb Hpc Hpg Hc Hg. destruct c as [req reply]. unfold servable in Hc. unfold handle. cbn [cmd_request cmd_reply] in *.
  assert (Hold : forall A (m : Work A) Q, serves n m Q -> runs n (b + 1) b backend_text m Q).
  { intros A m Q Hm. eapply runs_weaken; [apply Hm | lia | done]. }
  destruct req; cbn [request_spec] in Hc;
    lazymatch goal with
    | |- context [answer _ AnEntity _] => eapply answer_runs with (Q := any); [| by intros [] ? | done | exact Hg]
    | |- context [answer _ SomeBytes _] => eapply answer_runs with (Q := rust_slice); [| by intros [] ? | done | exact Hg]; apply Hold
    | |- context [answer _ ?f _] => eapply answer_runs with (Q := any); [| by intros [] ? | done | exact Hg]; apply Hold
    end.
  - pose proof Hc as (_ & _ & Hn). unfold create_subscription_.
    apply (create_runs n b KSubscription _ mt_handle _ _ _ (fun id h _ => on_subscriptions (fun l => l ++ [mk_subscription id (cs_channel_id spec) h sink])));
      [done | by apply quiet_message_type | done | intros; apply adds_subscription].
  - pose proof Hc as (_ & _ & Hn). apply (create_runs n b KPublisher _ mt_handle _ _ _ (fun id h _ => on_publishers (<[id := h]>)));
      [done | by apply quiet_message_type | done | intros; apply adds_publisher].
  - apply publish_runs.
  - pose proof Hc as (_ & _ & Hn). apply (create_runs n b KClient _ st_handle _ _ _ (fun id h ts => on_clients (<[id := mk_client h ts]>)));
      [done | by apply quiet_service_type | done | intros; apply adds_client].
  - pose proof Hc as (_ & _ & Hn). apply (create_runs n b KService _ st_handle _ _ _ (fun id h ts => on_services (<[id := mk_service (cs_channel_id spec) h ts sink ∅ 0]>)));
      [done | by apply quiet_service_type | done | intros; apply adds_service].
  - by apply call_client_runs.
  - apply service_response_runs.
  - pose proof Hc as (_ & _ & Hn). apply (create_runs n b KActionClient _ at_handle _ _ _ (fun id h ts => on_action_clients (<[id := mk_action_client h ts]>)));
      [done | by apply quiet_action_type | done | intros; apply adds_action_client].
  - by apply send_action_goal_runs.
  - apply cancel_action_runs.
  - pose proof Hc as (_ & _ & Hn). unfold create_action_server_.
    eapply runs_bind with (b1 := b + 1); [apply typesupport_runs; [by apply quiet_action_type | done] | | lia]. intros ts _.
    apply (registered n b KActionServer as_server (fun id s => on_action_servers (<[id := mk_server_entry (cs_channel_id spec) s ts sink ∅]>)));
      [done | | intros; apply adds_action_server]. intros b'. apply (rcl_runs n true), tame_create_server.
  - apply feedback_runs.
  - apply result_runs.
  - apply status_runs.
  - apply destroy_runs.
  - apply topics_runs.
  - apply view_runs.
Qed.

(** A worker that is [good] for some fuel stays so. *)
Lemma good_evo n m b w w' : good n b w -> evo w w' -> good m b w' -> good n b w'.
Proof.
  intros [Hl _ _ _] [(served & Hs) _ _ _ _ _ _ _] [_ ? ? ?]. split; try done. rewrite Hs, length_app in Hl. lia.
Qed.

(** However calls nest, one unit of fuel for every command is enough. *)
Lemma drain_runs fuel b : runs fuel b b (fun _ => False) (drain env domain_id pid guard fuel) any.
Proof.
  revert b. induction fuel as [| fuel IH]; intros b w Hg; [destruct Hg as [Hl]; lia |].
  assert (Hserve : serves fuel (drain env domain_id pid guard fuel) any) by (intros b'; by apply runs_never).
  cbn [drain]. unfold bind at 1, try_recv. destruct (wk_queue w) as [| c queue] eqn:Eq.
  - cbn. split; [apply evo_refl | by split].
  - set (w1 := set_inbox queue (wk_hung_up w) (wk_arrivals w) w).
    assert (Eall : all_commands w = c :: all_commands w1) by (unfold all_commands; by rewrite Eq).
    pose proof Hg as [Hl Hs Hi Hr]. rewrite Eall in Hl, Hs, Hr. cbn [length] in Hl. apply Forall_cons in Hs as [Hc Hs].
    assert (Hg1 : good fuel (Z.max 0 b + 1) w1) by (split; [lia | done | exact Hi | rewrite blen_cons in Hr; change (wk_next_entity w1) with (wk_next_entity w); lia]).
    assert (Hw1 : evo w w1).
    { split; try done; cbn; [by exists [c] | exists []; by rewrite app_nil_r]. }
    set (pc := map_err_ _ (drain env domain_id pid guard fuel ;;~ pump_all_services_and_subscriptions)).
    set (pg := map_err_ _ (drain env domain_id pid guard fuel ;;~ pump_all_services_and_subscriptions ;;~ pump_action_servers)).
    destruct (handle_runs fuel (Z.max 0 b) pc pg c w1) as (w2 & Hh & Hev & Hg2 & Hcons); [lia | | | done | done |].
    { intros b'. apply (runs_map_err _ _ _ backend_text); [| by intros e [_ He]]. apply then_runs; [done | intros _; apply pump_all_runs]. }
    { intros b'. apply (runs_map_err _ _ _ backend_text); [| by intros e [_ He]]. apply then_runs; [done | intros _].
      apply then_runs; [apply pump_all_runs | intros _; apply pump_servers_runs]. }
    unfold bind. rewrite Hh. assert (Hg2' : good fuel b w2) by (eapply good_less; [done | lia]).
    pose proof (IH b w2 Hg2') as Hd. destruct (drain env domain_id pid guard fuel w2) as [r w3], Hd as (Hev3 & Hg3 & Hc3 & Hr3).
    assert (Hww : evo w w3) by (eapply evo_trans; [exact Hw1 |]; by eapply evo_trans).
    split; [done |]. split; [by eapply good_evo |]. split; [| done].
    rewrite Hc3, Hcons. unfold conserved. cbn. rewrite Eall. cbn [map]. apply Permutation_middle.
Qed.

Lemma drain_commands_runs n b : runs n b b (fun _ => False) (drain_commands env domain_id pid guard) any.
Proof.
  intros w Hg. unfold drain_commands. set (fuel := S (length (all_commands w))).
  assert (Hf : good fuel b w) by (destruct Hg as [? ? ? ?]; split; [unfold fuel; lia | done | done | done]).
  pose proof (drain_runs fuel b w Hf) as Hd. destruct (drain env domain_id pid guard fuel w) as [r w'], Hd as (Hev & Hg' & Hd).
  split; [done | split; [by eapply good_evo | done]].
Qed.

(** Draining ends with nothing queued, and says whether more can come. *)
Lemma drained fuel w r w' : drain env domain_id pid guard fuel w = (Ok r, w') -> wk_queue w' = [] /\ r = negb (wk_hung_up w').
Proof.
  revert w. induction fuel as [| fuel IH]; intros w; [done |]. cbn [drain]. unfold bind at 1, try_recv.
  destruct (wk_queue w) as [| c queue] eqn:Eq; [cbn; intros E; by injection E as <- <- |].
  unfold bind. destruct (handle _ _ _ _ _ _ c _) as [[u | e |] w2]; [apply IH | done | done].
Qed.

(** ** The loop *)

(** A library whose waits do not fail. *)
Definition is_waiting {A} (f : CFun A) : bool :=
  match f with
  | rcl_wait_set_init _ _ _ _ | rcl_wait_set_clear _ | rcl_wait_set_add _ _ _ | rcl_wait_set_add_guard_condition _ _ | rcl_wait _ _ => true
  | _ => false
  end.
Definition waits_work : Prop := forall A (f : CFun A) n, is_waiting f = true -> exists a, (c_call A f n).1 = inl a.
Definition never_fails {A} (m : SM Node bytes A) : Prop := forall n e n', m n <> (Err e, n').

Lemma never_bind {A B} (m : SM Node bytes A) (k : A -> SM Node bytes B) :
  never_fails m -> (forall a, never_fails (k a)) -> never_fails (bind m k).
Proof.
  intros Hm Hk n e n'. unfold bind. specialize (Hm n). destruct (m n) as [[a | e' |] n1]; [apply Hk | | done].
  intros E. injection E as -> <-. by eapply Hm.
Qed.
Lemma never_check {A} (f : CFun A) operation : waits_work -> is_waiting f = true -> never_fails (check f operation).
Proof.
  intros Hw Hf n e n'. unfold check, checked. destruct (Hw A f n Hf) as (a & E). destruct (c_call A f n) as [r n1]. cbn in E. by rewrite E.
Qed.

Lemma never_new a b c d : waits_work -> never_fails (WaitSet_new a b c d).
Proof. intros Hw. apply never_bind; [by apply never_check | by intros h n e n']. Qed.
Lemma never_add ws kind hs : waits_work -> never_fails (add_entities ws kind hs).
Proof. intros Hw. induction hs as [| h hs IH]; cbn [add_entities]; [by intros n e n' |]. apply never_bind; [by apply never_check | done]. Qed.
Lemma never_wait ws subs svcs t : waits_work -> never_fails (WaitSet_wait ws subs svcs guard t).
Proof.
  intros Hw. unfold WaitSet_wait. destruct (negb _); [by intros n e n' |]. apply never_bind; [by apply never_check | intros _].
  do 2 (apply never_bind; [by apply never_add | intros _]). apply never_bind; [| intros _].
  - destruct guard; [by apply never_check | by intros n e n'].
  - apply never_bind; [by apply never_check | by intros r n e n'].
Qed.

Lemma rcl_result {A} (m : SM Node bytes A) w r w' :
  rcl_ m w = (r, w') -> exists nd, w' = set_node nd w /\ (forall e, r = Err e -> never_fails m -> False).
Proof.
  unfold rcl_, map_err_, on_node_. destruct (m (wk_node w)) as [r' nd] eqn:E. intros Ek. injection Ek as <- <-. exists nd. split; [done |].
  intros e He Hn. destruct r' as [a | t |]; [done | by apply Hn in E | done].
Qed.

(** The wait set always has room for what is waited on. *)
Lemma resize_runs n b w : good n b w -> let '(r, w') := resize_wait_set_if_needed w in
  evo w w' /\ good n b w' /\ conserved w' ≡ₚ conserved w /\
  match r with
  | Ok _ => blen (en_subscriptions (wk_entities w')) <= ws_subscription_capacity (wk_wait_set w') /\
      Z.of_nat (size (en_services (wk_entities w'))) <= ws_service_capacity (wk_wait_set w') /\ wk_arrivals w' = wk_arrivals w
  | Err e => backend_text e /\ ~ waits_work | Panic => False
  end.
Proof.
  intros Hg. unfold resize_wait_set_if_needed. do 2 (unfold bind at 1, entities_ at 1, gets). unfold bind at 1, gets.
  set (subs := blen (en_subscriptions (wk_entities w))). set (svcs := Z.of_nat (size (en_services (wk_entities w)))).
  destruct (_ || _) eqn:E.
  - unfold bind at 1. set (new := WaitSet_new _ _ _ _).
    assert (Hnew : tame true new (fun ws => ws_subscription_capacity ws = Z.max subs 4 * 2 /\ ws_service_capacity ws = Z.max svcs 4 * 2))
      by apply tame_wait_set_new.
    pose proof (rcl_runs n true new _ Hnew b w Hg) as Hr. pose proof (rcl_result new w) as Hres.
    destruct (rcl_ new w) as [r w1]. destruct (Hres r w1 eq_refl) as (nd & -> & Herr). destruct r as [ws | e |]; [| | by destruct Hr as (_ & _ & _ & [])].
    + destruct Hr as (Hev & Hg1 & Hc & Hs & Hv). cbn. rewrite Hs, Hv. fold subs svcs.
      split; [| split; [destruct Hg1 as [? ? ? ?]; by split | split; [done | split; [lia | split; [lia | done]]]]].
      eapply evo_trans; [exact Hev |]. split; try done; cbn; [by exists [] | apply law_clock_proc | exists []; by rewrite app_nil_r].
    + destruct Hr as (Hev & Hg1 & Hc & Ht). do 4 (split; [done |]). intros Hw. by eapply Herr, never_new.
  - cbn. apply orb_false_elim in E as [E1%Z.ltb_ge E2%Z.ltb_ge]. split; [apply evo_refl | split; [done | split; [done |]]]. split; [lia | split; [lia | done]].
Qed.

(** What arrived was part of what was to come. *)
Lemma arrivals_less i i' : rtc arrival i i' -> (length i'.2 <= length i.2)%nat.
Proof. induction 1 as [| i1 i2 i3 Ha _ IH]; [lia |]. destruct Ha. cbn in *. lia. Qed.

(** A turn that ends well has waited. *)
Lemma wait_and_pump_runs n b w : good n b w -> let '(r, w') := wait_and_pump guard w in
  evo w w' /\ good n b w' /\ conserved w' ≡ₚ conserved w /\
  match r with
  | Ok _ => (length (wk_arrivals w') <= pred (length (wk_arrivals w)))%nat
  | Err e => backend_text e /\ ~ waits_work | Panic => False
  end.
Proof.
  intros Hg. unfold wait_and_pump. unfold bind at 1. pose proof (resize_runs n b w Hg) as Hr.
  destruct (resize_wait_set_if_needed w) as [[u | e |] w1]; [| done | done]. destruct Hr as (Hev & Hg1 & Hc & Hs & Hv & Ha).
  do 2 (unfold bind at 1, entities_ at 1, gets). unfold bind at 1, gets. unfold bind at 1.
  match goal with |- context [rcl_ ?m] => set (wait_ := m); assert (Hw : tame false m any) end.
  { apply tame_wait; unfold blen in *; rewrite length_map; [done | by rewrite length_map_to_list]. }
  pose proof (rcl_runs n false _ _ Hw b w1 Hg1) as Hr2. pose proof (rcl_result wait_ w1) as Hres. fold wait_ in Hr2.
  destruct (rcl_ wait_ w1) as [r w2]. destruct (Hres r w2 eq_refl) as (nd & -> & Herr). destruct r as [ready | e |]; [| | by destruct Hr2 as (_ & _ & _ & [])].
  2: { destruct Hr2 as (Hev2 & Hg2 & Hc2 & Ht). split; [by eapply evo_trans | split; [done | split; [by rewrite Hc2 | split; [done |]]]].
       intros Hww. by eapply Herr, never_wait. }
  destruct Hr2 as (Hev2 & Hg2 & Hc2 & _). unfold bind at 1.
  pose proof (arrive_does n b (fun _ : BackendError => False) _ Hg2) as Hr3.
  assert (Hless : (length (wk_arrivals (arrive (E := BackendError) (set_node nd w1)).2) <= pred (length (wk_arrivals w)))%nat).
  { unfold arrive, modify. cbn [snd wk_arrivals set_node]. rewrite <- Ha. destruct (wk_arrivals w1) as [| [cs h] rest] eqn:Ew; cbn; [by rewrite Ew | done]. }
  destruct (arrive (set_node nd w1)) as [[u3 | e |] w3]; [| by destruct Hr3 as (_ & _ & _ & []) | by destruct Hr3 as (_ & _ & _ & [])]. destruct Hr3 as (Hev3 & Hg3 & Hc3 & _).
  cbn [snd] in Hless.
  match goal with |- context [?m w3] => assert (Hrest : runs n b b (fun _ => False) m any) end.
  { do 2 (apply then_runs; [first [apply pump_subscriptions_runs | apply pump_services_runs] | intros _]). apply pump_servers_runs. }
  specialize (Hrest w3 Hg3). match goal with |- context [?m w3] => destruct (m w3) as [r4 w4] end.
  destruct Hrest as (Hev4 & Hg4 & Hc4 & Hr4).
  split; [eapply evo_trans; [exact Hev |]; eapply evo_trans; [exact Hev2 |]; by eapply evo_trans |].
  split; [done | split; [by rewrite Hc4, Hc3, Hc2 |]]. destruct r4; [| done | done].
  pose proof (arrivals_less _ _ (ev_inbox _ _ Hev4)) as Hl. cbn in Hl. lia.
Qed.

Lemma run_runs n turns b : runs n b b (fun _ => False) (run env domain_id pid guard turns) any.
Proof.
  induction turns as [| turns IH]; cbn [run]; [by apply runs_ret |].
  eapply runs_bind with (b1 := b); [apply drain_commands_runs | intros open _ | lia]. destruct open; [| by apply runs_ret].
  eapply runs_bind with (b1 := b) (P := any); [| intros [[] | e] _; [exact IH | by apply runs_ret] | lia].
  intros w Hg. unfold attempt. pose proof (wait_and_pump_runs n b w Hg) as Hw.
  destruct (wait_and_pump guard w) as [[u | e |] w']; destruct Hw as (? & ? & ? & Hr); done.
Qed.

End Service.
