(* ===== verification/Builders.v ===== *)
(** * The gateway's control messages

    The message builders of [rclwebd/src/control.rs] and
    [effective_budgets_map] of [budgets.rs].  Every builder returns the CBOR
    map the connection encodes; [BuilderProofs] shows that the receiver's parser
    accepts it. *)

From S2P Require Import Prelude Utf8 Cbor Extension ControlSchema Control Frame Bootstrap Session Policy Backend.
#[local] Open Scope Z_scope.

Definition ZERO_CORRELATION : bytes := zeros 16.

Definition hex_a64 : bytes := replicate 64 97.
Definition RIHS_DEMO : bytes := lit "RIHS01_" ++ hex_a64.
Definition BUNDLE_DEMO : bytes := hex_a64.

Definition bytes_value (b : bytes) : CborValue := Bytes b.
Definition text_value (t : bytes) : CborValue := Text t.

Definition effective_budgets_map (samples max_bytes max_message_bytes : Z) : CborValue :=
  Map [(1, Unsigned samples); (2, Unsigned max_bytes); (3, Unsigned max_message_bytes)].

Definition negotiated_capabilities_value (hello : ServerHello) : CborValue :=
  Map [(1, Map ([(1, Bool (webtransport_http3 (sh_transport hello))); (2, Bool (binary_wss (sh_transport hello)))] ++
                match max_datagram_size (sh_transport hello) with
                | Some size => [(3, Unsigned size)]
                | None => []
                end));
       (2, Map [(1, Bool (transferable_arraybuffer (sh_buffer hello)));
                (2, Bool (shared_arraybuffer (sh_buffer hello)))]);
       (3, Array (map Unsigned (sh_extensions hello)))].

Section Messages.
Variable config : GatewayConfig.

Definition session_ready (hello : ServerHello) (correlation session_id effective_identity : bytes) : CborValue :=
  let row := support_row config in
  Map [(1, Unsigned 2); (2, bytes_value correlation); (7, text_value (gateway_instance_id config));
       (8, text_value (row_id row)); (10, Array [Unsigned (gc_domain_id config)]);
       (12, effective_budgets_map (gc_max_channels config) (gc_max_session_bytes config) (gc_max_message_bytes config));
       (13, text_value (policy_revision config)); (18, text_value (row_ros_distro row));
       (19, text_value (row_rmw_identifier row)); (20, text_value (adapter_abi_version config));
       (21, text_value effective_identity); (53, bytes_value session_id);
       (54, negotiated_capabilities_value hello)].

(** The budgets of every ChannelReady. *)
Definition channel_budgets : CborValue :=
  effective_budgets_map (sample_queue_depth config) (sample_queue_max_bytes config) (gc_max_message_bytes config).

Definition channel_ready_allow (correlation : bytes) (channel_id effective_priority : Z) (effective_qos : EffectiveQos)
    : CborValue :=
  Map [(1, Unsigned 9); (2, bytes_value correlation); (29, Unsigned channel_id); (33, Unsigned 0);
       (12, channel_budgets); (59, Unsigned effective_priority); (57, EffectiveQos_to_wire effective_qos);
       (9, Unsigned (gc_domain_id config)); (8, text_value (row_id (support_row config)))].

Definition effective_service_qos_wire : CborValue :=
  Map [(1, Unsigned 1); (2, Unsigned 2); (3, Unsigned 1); (4, Unsigned 5); (7, Unsigned 1)].

Definition effective_action_qos_wire : CborValue :=
  let service := effective_service_qos_wire in
  let topic := Map [(1, Unsigned 1); (2, Unsigned 2); (3, Unsigned 1); (4, Unsigned 5); (7, Unsigned 1)] in
  Map [(1, service); (2, service); (3, service); (4, topic); (5, topic)].

Definition channel_ready_service_allow (correlation : bytes) (channel_id effective_priority : Z) : CborValue :=
  Map [(1, Unsigned 9); (2, bytes_value correlation); (29, Unsigned channel_id); (33, Unsigned 0);
       (12, channel_budgets); (59, Unsigned effective_priority); (60, effective_service_qos_wire);
       (9, Unsigned (gc_domain_id config)); (8, text_value (row_id (support_row config)))].

Definition channel_ready_action_allow (correlation : bytes) (channel_id effective_priority : Z) : CborValue :=
  Map [(1, Unsigned 9); (2, bytes_value correlation); (29, Unsigned channel_id); (33, Unsigned 0);
       (12, channel_budgets); (59, Unsigned effective_priority); (58, effective_action_qos_wire);
       (9, Unsigned (gc_domain_id config)); (8, text_value (row_id (support_row config)))].

Definition channel_ready_error (correlation : bytes) (channel_id code : Z) (message : bytes) : CborValue :=
  Map [(1, Unsigned 9); (2, bytes_value correlation); (29, Unsigned channel_id); (33, Unsigned 3);
       (15, Map [(48, Unsigned code); (49, Unsigned 1); (51, text_value message)])].

Definition demo_schema_identity (row : SupportRow) : CborValue :=
  Map [(1, text_value (schema_scheme row));
       (2, text_value (if starts_with (row_id row) (lit "H") then BUNDLE_DEMO else RIHS_DEMO))].

Definition advertised_topic_qos_wire : CborValue :=
  Map [(1, Unsigned 1); (2, Unsigned 2); (3, Unsigned 1); (4, Unsigned 5); (7, Unsigned 1)].

Definition advertised_action_qos_wire : CborValue :=
  let profile := advertised_topic_qos_wire in
  Map [(1, profile); (2, profile); (3, profile); (4, profile); (5, profile)].

(** The last 16 bytes of the id, behind zeros when it is shorter. *)
Definition pad_id16 (id : bytes) : bytes :=
  let n := Z.min (blen id) 16 in
  zeros (16 - n) ++ drop (Z.to_nat (blen id - n)) id.

Definition graph_node_value (node : GraphNodeInfo) : CborValue :=
  Map ([(55, bytes_value (pad_id16 (gn_id node))); (1, text_value (gn_name node))] ++
       match gn_namespace node with Some ns => [(2, text_value ns)] | None => [] end ++
       [(9, Unsigned (gn_domain_id node))]).

Definition graph_endpoint_value (endpoint : GraphEndpointInfo) (row : SupportRow) : CborValue :=
  Map ([(56, bytes_value (pad_id16 (ge_id endpoint))); (55, bytes_value (pad_id16 (ge_node_id endpoint)));
        (1, text_value (ge_name endpoint)); (2, Unsigned (ge_kind endpoint)); (3, text_value (ge_type_name endpoint));
        (4, demo_schema_identity row); (5, Unsigned 1); (6, Unsigned 0)] ++
       [if ge_kind endpoint <=? 3 then (7, advertised_topic_qos_wire) else (58, advertised_action_qos_wire)] ++
       [(9, Unsigned (ge_domain_id endpoint)); (8, text_value (row_id row))]).

(** [sort_by_key] on byte strings, which is stable. *)
Fixpoint insert_by_bytes {A} (key : A -> bytes) (x : A) (l : list A) : list A :=
  match l with
  | [] => [x]
  | y :: l' =>
      match bytes_cmp (key x) (key y) with
      | Gt => y :: insert_by_bytes key x l'
      | _ => x :: l
      end
  end.
Definition sort_by_bytes {A} (key : A -> bytes) (l : list A) : list A := foldr (insert_by_bytes key) [] l.

Definition sorted_graph_nodes (view : GraphView) : list CborValue :=
  map graph_node_value (sort_by_bytes (fun n => pad_id16 (gn_id n)) (gv_nodes view)).
Definition sorted_graph_endpoints (view : GraphView) (row : SupportRow) : list CborValue :=
  map (fun e => graph_endpoint_value e row) (sort_by_bytes (fun e => pad_id16 (ge_id e)) (gv_endpoints view)).

Definition graph_snapshot (correlation : bytes) (generation : Z) (view : GraphView) : CborValue :=
  let row := support_row config in
  Map [(1, Unsigned 3); (2, bytes_value correlation); (14, Unsigned generation);
       (7, text_value (gateway_instance_id config)); (8, text_value (row_id row));
       (22, Array (sorted_graph_nodes view)); (23, Array (sorted_graph_endpoints view row))].

Definition graph_delta (correlation : bytes) (base_generation generation : Z) (ops : list CborValue) : CborValue :=
  Map [(1, Unsigned 4); (2, bytes_value correlation); (14, Unsigned generation); (24, Unsigned base_generation);
       (7, text_value (gateway_instance_id config)); (8, text_value (row_id (support_row config))); (25, Array ops)].

Definition graph_delta_add_endpoint (endpoint : GraphEndpointInfo) (row : SupportRow) : CborValue :=
  Map [(1, Unsigned 2); (3, graph_endpoint_value endpoint row)].

Definition heartbeat (counter : Z) : CborValue :=
  Map [(1, Unsigned 12); (2, bytes_value ZERO_CORRELATION); (40, Unsigned counter)].

Definition session_error_with_correlation (correlation : bytes) (code : Z) (message : bytes) : CborValue :=
  Map [(1, Unsigned 15); (2, bytes_value correlation); (48, Unsigned code); (49, Unsigned 0); (51, text_value message)].
Definition session_error (code : Z) (message : bytes) : CborValue :=
  session_error_with_correlation ZERO_CORRELATION code message.

Definition channel_error (channel_id code : Z) (message : bytes) : CborValue :=
  Map [(1, Unsigned 15); (2, bytes_value ZERO_CORRELATION); (48, Unsigned code); (49, Unsigned 1);
       (29, Unsigned channel_id); (51, text_value message)].

End Messages.
