(* ===== verification/BuilderProofs.v ===== *)
(** * The gateway's control messages are accepted

    What the builders of [Builders] are called with, and the theorem that every
    message they make is one its receiver's parser accepts. *)

From Stdlib Require Import Sorted.
From S2P Require Import Prelude Utf8 Cbor Extension ControlSchema Control Frame Bootstrap Accept Session Policy Backend Builders.
Import ControlSchema.Schema(UTF8_TEXT_MAX, CONTROL_KIND_SESSION_READY, kind_schema, session_ready_schema,
  channel_ready_schema, graph_snapshot_schema, graph_delta_schema, heartbeat_schema, error_schema, graph_node,
  graph_endpoint, SIdentity, SQos, SEffectiveQos, SEffectiveServiceQos, SActionQos, SEffectiveActionQos, SUnion).
#[local] Open Scope Z_scope.

(** ** Sorted rows *)

Lemma bytes_cmp_flip a b : bytes_cmp a b = CompOpp (bytes_cmp b a).
Proof.
  revert b. induction a as [| x a IH]; intros [| y b]; cbn [bytes_cmp]; try done.
  rewrite (Z.compare_antisym y x). destruct (y ?= x) eqn:E; cbn; [apply IH | done | done].
Qed.

Section Sorting.
Context {A : Type} (key : A -> bytes).

Lemma insert_by_bytes_perm x l : Permutation (insert_by_bytes key x l) (x :: l).
Proof.
  induction l as [| y l IH]; [done |]. cbn [insert_by_bytes].
  destruct (bytes_cmp (key x) (key y)); [done | done |]. rewrite IH. apply perm_swap.
Qed.

Lemma sort_by_bytes_perm l : Permutation (sort_by_bytes key l) l.
Proof.
  unfold sort_by_bytes. induction l as [| x l IH]; [done |]. cbn [foldr]. by rewrite insert_by_bytes_perm, IH.
Qed.

Lemma sort_by_bytes_sorted l : NoDup (map key l) -> StronglySorted bytes_lt (map key (sort_by_bytes key l)).
Proof.
  unfold sort_by_bytes. induction l as [| x l IH]; [constructor |]. cbn [map foldr].
  rewrite NoDup_cons. intros [Hx Hn]. specialize (IH Hn).
  pose proof (sort_by_bytes_perm l) as Hp. unfold sort_by_bytes in Hp.
  assert (Hx' : key x ∉ map key (foldr (insert_by_bytes key) [] l)) by (by rewrite Hp).
  clear Hp Hx Hn. revert IH Hx'. generalize (foldr (insert_by_bytes key) [] l). clear l.
  induction l as [| y l IHl]; intros Hs Hx; cbn [insert_by_bytes map].
  { repeat constructor. }
  cbn [map] in Hs, Hx. apply not_elem_of_cons in Hx as [Hxy Hx]. inversion Hs as [| ? ? Hs' Hf]; subst.
  destruct (bytes_cmp (key x) (key y)) eqn:E; cbn [map].
  - by apply bytes_cmp_eq in E.
  - constructor; [done |]. constructor; [exact E |]. eapply Forall_impl; [exact Hf |].
    intros z Hz. by eapply bytes_lt_trans.
  - constructor; [by apply IHl |]. rewrite Forall_forall in *. intros z Hz.
    apply list_elem_of_fmap in Hz as (w & -> & Hw). rewrite insert_by_bytes_perm in Hw.
    apply elem_of_cons in Hw as [-> | Hw].
    + unfold bytes_lt. by rewrite bytes_cmp_flip, E.
    + apply Hf. by apply (list_elem_of_fmap_2 key).
Qed.

End Sorting.

(** ** What the builders are called with *)

Definition nonempty_text (t : bytes) : Prop := text_within 1 UTF8_TEXT_MAX t.
Definition any_text (t : bytes) : Prop := text_within 0 UTF8_TEXT_MAX t.
Definition id_bytes (n : Z) (b : bytes) : Prop := bytes_ok b /\ blen b = n.
Definition wire_code (code : Z) : Prop := 1 <= code <= 28 /\ code <> 20.

Record config_ok (c : GatewayConfig) : Prop := {
  co_instance : nonempty_text (gateway_instance_id c);
  co_policy : nonempty_text (policy_revision c);
  co_abi : nonempty_text (adapter_abi_version c);
  co_row : support_row c ∈ Policy.support_rows;
  co_domain : 0 <= gc_domain_id c <= 232;
  co_limits : config_limits_ok c;
  co_depth : 0 <= sample_queue_depth c <= u32_max;
  co_bytes : 0 <= sample_queue_max_bytes c <= u64_max
}.

Record node_ok (n : GraphNodeInfo) : Prop := {
  no_id : bytes_ok (gn_id n); no_name : nonempty_text (gn_name n);
  no_namespace : match gn_namespace n with Some ns => any_text ns | None => True end;
  no_domain : 0 <= gn_domain_id n <= 232
}.

Record endpoint_ok (e : GraphEndpointInfo) : Prop := {
  eo_id : bytes_ok (ge_id e); eo_node : bytes_ok (ge_node_id e); eo_name : nonempty_text (ge_name e);
  eo_kind : 0 <= ge_kind e <= 5; eo_type : nonempty_text (ge_type_name e); eo_domain : 0 <= ge_domain_id e <= 232
}.

(** Rows with distinct ids (as the wire pads them), within the array limits. *)
Record view_ok (v : GraphView) : Prop := {
  vo_nodes : Forall node_ok (gv_nodes v); vo_endpoints : Forall endpoint_ok (gv_endpoints v);
  vo_node_ids : NoDup (map (fun n => pad_id16 (gn_id n)) (gv_nodes v));
  vo_endpoint_ids : NoDup (map (fun e => pad_id16 (ge_id e)) (gv_endpoints v));
  vo_counts : blen (gv_nodes v) <= 65535 /\ blen (gv_endpoints v) <= 65535
}.

Definition effective_qos_ok (q : EffectiveQos) : Prop := eq_keep_all q = false -> 1 <= eq_depth q <= u32_max.

(** The messages of a gateway, by kind. *)
Inductive gateway_message (c : GatewayConfig) : Z -> CborValue -> Prop :=
| GM_session_ready hello corr sid ident :
    server_ok hello -> id_bytes 16 corr -> id_bytes 32 sid -> nonempty_text ident ->
    gateway_message c 2 (session_ready c hello corr sid ident)
| GM_graph_snapshot corr generation view :
    id_bytes 16 corr -> 0 <= generation <= u64_max -> view_ok view ->
    gateway_message c 3 (graph_snapshot c corr generation view)
| GM_graph_delta corr base generation endpoint :
    id_bytes 16 corr -> 0 <= base <= u64_max -> 0 <= generation <= u64_max -> endpoint_ok endpoint ->
    gateway_message c 4 (graph_delta c corr base generation [graph_delta_add_endpoint endpoint (support_row c)])
| GM_channel_ready corr id priority qos :
    id_bytes 16 corr -> 1 <= id <= u32_max -> 0 <= priority <= 4 -> effective_qos_ok qos ->
    gateway_message c 9 (channel_ready_allow c corr id priority qos)
| GM_service_ready corr id priority :
    id_bytes 16 corr -> 1 <= id <= u32_max -> 0 <= priority <= 4 ->
    gateway_message c 9 (channel_ready_service_allow c corr id priority)
| GM_action_ready corr id priority :
    id_bytes 16 corr -> 1 <= id <= u32_max -> 0 <= priority <= 4 ->
    gateway_message c 9 (channel_ready_action_allow c corr id priority)
| GM_channel_refused corr id code message :
    id_bytes 16 corr -> 1 <= id <= u32_max -> wire_code code -> any_text message ->
    gateway_message c 9 (channel_ready_error corr id code message)
| GM_heartbeat counter : 0 <= counter <= u64_max -> gateway_message c 12 (heartbeat counter)
| GM_session_error corr code message :
    id_bytes 16 corr -> wire_code code -> any_text message ->
    gateway_message c 15 (session_error_with_correlation corr code message)
| GM_channel_error id code message :
    1 <= id <= u32_max -> wire_code code -> any_text message ->
    gateway_message c 15 (channel_error id code message).

(** ** The pieces of the messages *)

Lemma row_cases row (P : SupportRow -> Prop) :
  row ∈ Policy.support_rows -> Forall P Policy.support_rows -> P row.
Proof. rewrite Forall_forall. auto. Qed.

Ltac each_row := match goal with H : ?row ∈ Policy.support_rows |- _ => pattern row; apply (row_cases row _ H) end;
  repeat (apply Forall_cons_2); try apply Forall_nil_2; cbv beta.

Lemma good_row_id row d : row ∈ Policy.support_rows -> good Schema.support_row_id d 4105 (Text (row_id row)).
Proof.
  intros H. eapply good_weaken; [| reflexivity].
  apply (good_text 1 4096); [| done |].
  - unfold text_within, blen. each_row; vm_compute; intuition congruence.
  - intros set [= <-]. each_row; apply (bool_decide_unpack _); by vm_compute.
Qed.

Lemma good_row_distro row d : row ∈ Policy.support_rows -> good Schema.ros_distro d 4105 (Text (row_ros_distro row)).
Proof.
  intros H. apply (good_text 1 4096); [| done |].
  - unfold text_within, blen. each_row; vm_compute; intuition congruence.
  - intros set [= <-]. each_row; apply (bool_decide_unpack _); by vm_compute.
Qed.

Lemma good_row_rmw row d : row ∈ Policy.support_rows -> good Schema.rmw_identifier d 4105 (Text (row_rmw_identifier row)).
Proof.
  intros H. apply (good_text 1 4096); [| done |].
  - unfold text_within, blen. each_row; vm_compute; intuition congruence.
  - intros set [= <-]. each_row; apply (bool_decide_unpack _); by vm_compute.
Qed.

Lemma row_triple row : row ∈ Policy.support_rows ->
  (row_id row, (row_ros_distro row, row_rmw_identifier row)) ∈ Control.support_rows.
Proof. intros H. each_row; apply (bool_decide_unpack _); by vm_compute. Qed.

Lemma good_identity row d : row ∈ Policy.support_rows -> d < 15 -> good SIdentity d 8237 (demo_schema_identity row).
Proof.
  intros H Hd. unfold demo_schema_identity, text_value.
  assert (Hi : identity_ok (schema_scheme row) (if starts_with (row_id row) (lit "H") then BUNDLE_DEMO else RIHS_DEMO)).
  { each_row; [| | | right | right | right]; try (left; split; [done |]; exists hex_a64); by vm_compute. }
  assert (Hb : text_within 0 4096 (schema_scheme row) /\
    text_within 0 4096 (if starts_with (row_id row) (lit "H") then BUNDLE_DEMO else RIHS_DEMO)).
  { unfold text_within, blen. each_row; vm_compute; intuition congruence. }
  destruct Hb as [Hb1 Hb2]. revert Hi Hb1 Hb2. generalize (schema_scheme row). intros scheme.
  generalize (if starts_with (row_id row) (lit "H") then BUNDLE_DEMO else RIHS_DEMO). intros val Hi H1 H2.
  assert (Hg : good (Schema.map_schema [(1, true, Schema.text4k); (2, true, Schema.text4k)]) d 8237
    (Map [(1, Text scheme); (2, Text val)])).
  { eapply good_weaken; [good |]. done. }
  destruct Hg as (_ & ? & ?). split_and!; [by constructor | done..].
Qed.

#[export] Hint Resolve good_row_id good_row_distro good_row_rmw good_identity : good_parts.
#[export] Hint Extern 3 (_ < _) => lia : good_parts.

Lemma good_budgets samples max_b max_message d :
  0 <= samples <= u32_max -> 0 <= max_b <= u64_max -> 0 <= max_message <= u32_max -> d < 15 ->
  good Schema.budgets d 63 (effective_budgets_map samples max_b max_message).
Proof.
  intros. unfold effective_budgets_map. eapply good_weaken; [good | good_side].
Qed.

Lemma good_capabilities hello d :
  server_ok hello -> d < 14 -> good Schema.negotiated_caps d 1300 (negotiated_capabilities_value hello).
Proof.
  intros (_ & Ht & _ & Hc & Hs & Hr) Hd. unfold negotiated_capabilities_value.
  unfold transport_ok in Ht. unfold CAPABILITY_IDS_MAX in Hc.
  assert (Htr : good Schema.transport_caps (d + 1) 63 (Map ([(1, Bool (webtransport_http3 (sh_transport hello)));
    (2, Bool (binary_wss (sh_transport hello)))] ++
    match max_datagram_size (sh_transport hello) with Some size => [(3, Unsigned size)] | None => [] end))).
  { destruct (max_datagram_size (sh_transport hello)) as [size |]; cbn [app].
    - unfold opt_in_range, in_range, u32_max in Ht. eapply good_weaken; [good |]; unfold u64_max; lia.
    - eapply good_weaken; [good | good_side]. }
  assert (Hb : good Schema.buffer_caps (d + 1) 45 (Map [(1, Bool (transferable_arraybuffer (sh_buffer hello)));
    (2, Bool (shared_arraybuffer (sh_buffer hello)))])) by (eapply good_weaken; [good | good_side]).
  assert (He : good Schema.capability_id_list (d + 1) (9 + 9 * blen (sh_extensions hello))
    (Array (map Unsigned (sh_extensions hello)))).
  { rewrite <- (blen_map Unsigned) at 1. apply good_array; [| rewrite blen_map; pose proof (blen_nonneg (sh_extensions hello)); unfold Schema.CAP_IDS_MAX; lia | by exists (sh_extensions hello) | lia | done].
    apply Forall_map. eapply Forall_impl; [exact Hr |]. intros n Hn.
    unfold in_range, CAPABILITY_ID_MIN, CAPABILITY_ID_MAX in Hn.
    apply good_uint; unfold Schema.CAP_ID_MAX, u64_max; lia. }
  eapply good_weaken; [eapply good_map |].
  - eapply EG_cons; [reflexivity | exact Htr |]. eapply EG_cons; [reflexivity | exact Hb |].
    eapply EG_cons; [reflexivity | exact He |]. apply EG_nil.
  - reflexivity.
  - lia.
  - lia.
Qed.

Lemma good_effective_qos q d :
  effective_qos_ok q -> d < 14 -> good SEffectiveQos d 99 (EffectiveQos_to_wire q).
Proof.
  unfold effective_qos_ok, u32_max. destruct q as [r t k depth m]; cbn [eq_keep_all eq_depth]. intros Hq Hd.
  unfold EffectiveQos_to_wire. cbn [eq_reliable eq_transient_local eq_keep_all eq_depth eq_manual_by_topic].
  destruct k; cbn [negb app].
  - eapply good_conforms; [apply C_effective_all |]. eapply good_weaken; [destruct r, t, m; good |]. lia.
  - specialize (Hq eq_refl). eapply good_conforms; [apply C_effective_last |].
    eapply good_weaken; [destruct r, t, m; good |]; unfold u64_max; lia.
Qed.

(** The fixed keep-last profile all the defaults share. *)
Definition keep_last_5 : CborValue :=
  Map [(1, Unsigned 1); (2, Unsigned 2); (3, Unsigned 1); (4, Unsigned 5); (7, Unsigned 1)].

Lemma good_keep_last d :
  d < 15 ->
  good SQos d 99 keep_last_5 /\ good SEffectiveQos d 99 keep_last_5 /\ good SEffectiveServiceQos d 99 keep_last_5.
Proof.
  intros Hd. unfold keep_last_5. split_and!.
  - eapply good_conforms; [apply C_qos_last |]. eapply good_weaken; [good | good_side].
  - eapply good_conforms; [apply C_effective_last |]. eapply good_weaken; [good | good_side].
  - eapply good_conforms; [apply C_service_last |]. eapply good_weaken; [good | good_side].
Qed.

Lemma good_service_wire d : d < 15 -> good SEffectiveServiceQos d 99 effective_service_qos_wire.
Proof. apply good_keep_last. Qed.

Lemma good_advertised_topic d : d < 15 -> good SQos d 99 advertised_topic_qos_wire.
Proof. apply good_keep_last. Qed.

Lemma good_action_wire d : d < 14 -> good SEffectiveActionQos d 549 effective_action_qos_wire.
Proof.
  intros Hd. destruct (good_keep_last (d + 1) ltac:(lia)) as (_ & He & Hs).
  eapply good_conforms; [apply C_effective_action |]. unfold effective_action_qos_wire. cbv zeta.
  eapply good_weaken; [eapply good_map |].
  - do 3 (eapply EG_cons; [reflexivity | exact Hs |]). do 2 (eapply EG_cons; [reflexivity | exact He |]). apply EG_nil.
  - reflexivity.
  - lia.
  - lia.
Qed.

Lemma good_advertised_action d : d < 14 -> good SActionQos d 549 advertised_action_qos_wire.
Proof.
  intros Hd. destruct (good_keep_last (d + 1) ltac:(lia)) as (Hq & _).
  eapply good_conforms; [apply C_action |]. unfold advertised_action_qos_wire. cbv zeta.
  eapply good_weaken; [eapply good_map |].
  - do 5 (eapply EG_cons; [reflexivity | exact Hq |]). apply EG_nil.
  - reflexivity.
  - lia.
  - lia.
Qed.

(** ** Graph rows *)

Lemma pad_id16_ok id : bytes_ok id -> id_bytes 16 (pad_id16 id).
Proof.
  intros Hi. unfold pad_id16. pose proof (blen_nonneg id). split.
  - apply bytes_ok_app. split; [apply bytes_ok_zeros | by apply Forall_drop].
  - rewrite blen_app, blen_zeros by lia. unfold blen in *. rewrite length_drop. lia.
Qed.

(** The row as the wire sorts it. *)
Definition node_entries (node : GraphNodeInfo) : list (Z * CborValue) :=
  [(1, Text (gn_name node))] ++ match gn_namespace node with Some ns => [(2, Text ns)] | None => [] end ++
  [(9, Unsigned (gn_domain_id node)); (55, Bytes (pad_id16 (gn_id node)))].

Lemma node_canon node : canon (graph_node_value node) = Map (node_entries node).
Proof. unfold graph_node_value, node_entries. by destruct (gn_namespace node). Qed.

Lemma good_node node d : node_ok node -> d < 15 -> good graph_node d 8290 (Map (node_entries node)).
Proof.
  intros [Hi Hn Hns Hd0] Hd. apply pad_id16_ok in Hi as [Hb Hl]. unfold node_entries.
  destruct (gn_namespace node) as [ns |]; cbn [app]; (eapply good_weaken; [good | good_side]).
Qed.

Definition endpoint_entries (e : GraphEndpointInfo) (row : SupportRow) : list (Z * CborValue) :=
  [(1, Text (ge_name e)); (2, Unsigned (ge_kind e)); (3, Text (ge_type_name e)); (4, demo_schema_identity row);
   (5, Unsigned 1); (6, Unsigned 0)] ++
  (if ge_kind e <=? 3
   then [(7, advertised_topic_qos_wire); (8, Text (row_id row)); (9, Unsigned (ge_domain_id e));
         (55, Bytes (pad_id16 (ge_node_id e))); (56, Bytes (pad_id16 (ge_id e)))]
   else [(8, Text (row_id row)); (9, Unsigned (ge_domain_id e)); (55, Bytes (pad_id16 (ge_node_id e)));
         (56, Bytes (pad_id16 (ge_id e))); (58, advertised_action_qos_wire)]).

Lemma endpoint_canon e row : canon (graph_endpoint_value e row) = Map (endpoint_entries e row).
Proof. unfold graph_endpoint_value, endpoint_entries. by destruct (ge_kind e <=? 3). Qed.

#[export] Hint Resolve good_advertised_topic good_advertised_action good_service_wire good_action_wire : good_parts.

Lemma good_endpoint e row d :
  endpoint_ok e -> row ∈ Policy.support_rows -> d < 13 -> good graph_endpoint d 22000 (Map (endpoint_entries e row)).
Proof.
  intros [Hi Hn Hname Hk Ht Hd0] Hrow Hd. apply pad_id16_ok in Hi as [Hb Hl], Hn as [Hb' Hl']. unfold endpoint_entries.
  destruct (Z.leb_spec (ge_kind e) 3); cbn [app].
  - eapply good_weaken; [eapply (good_union 0); [reflexivity | good] | good_side].
  - assert (ge_kind e = 4 \/ ge_kind e = 5) as [-> | ->] by lia;
      (eapply good_weaken; [eapply (good_union 1); [reflexivity | good] | good_side]).
Qed.

(** ** The messages *)

(** [v] encodes to a payload the parser reads as a message of [kind] with the
    entries [es]. *)
Record accepted (kind : Z) (v : CborValue) (es : list (Z * CborValue)) (n : Z) : Prop := {
  ac_canon : canon v = Map es;
  ac_good : exists s, kind_schema kind = Some s /\ good s 0 n (Map es);
  ac_kind : (1, Unsigned kind) ∈ es;
  ac_triple : kind = CONTROL_KIND_SESSION_READY -> triple_ok (list_to_map es)
}.

Lemma accepted_sorted kind l es s n :
  sort_by_key l = es -> kind_schema kind = Some s -> good s 0 n (Map es) -> hd_error es = Some (1, Unsigned kind) ->
  (kind = CONTROL_KIND_SESSION_READY -> triple_ok (list_to_map es)) ->
  accepted kind (Map l) es n.
Proof.
  intros <- Hs Hg H1 Ht. split; [| by exists s | | done].
  - destruct Hg as (_ & Hok & _). apply (canon_perm (sort_by_key l) l Hok). symmetry. apply sort_by_key_perm.
  - destruct (sort_by_key l); [done |]. injection H1 as <-. by left.
Qed.

(** Sort the literal entries of a message and check them against its schema. *)
Ltac accept_message alternative :=
  lazymatch goal with
  | |- exists es n, accepted _ (Map ?l) es n /\ _ =>
      let es := eval cbv [sort_by_key insert_by_key foldr fst Z.leb Z.compare Pos.compare Pos.compare_cont] in (sort_by_key l) in
      exists es; eexists; split;
        [ eapply accepted_sorted; [reflexivity | reflexivity | alternative | reflexivity | try discriminate] | ]
  end.

Ltac good_fields :=
  eapply good_map; [repeat (eapply EG_cons; [reflexivity | try good |]); try apply EG_nil | reflexivity | lia].

#[export] Hint Resolve good_capabilities good_effective_qos : good_parts.

Section Config.
Context (c : GatewayConfig) (Hc : config_ok c).

Lemma config_budgets d : d < 15 ->
  good Schema.budgets d 63 (effective_budgets_map (gc_max_channels c) (gc_max_session_bytes c) (gc_max_message_bytes c)) /\
  good Schema.budgets d 63 (channel_budgets c).
Proof using Hc.
  destruct Hc as [_ _ _ _ _ ((? & ?) & (? & ?) & (? & ?) & _) ? ?]. intros Hd.
  split; apply good_budgets; unfold u32_max, u64_max in *; lia.
Qed.

Lemma session_ready_accepted hello corr sid ident :
  server_ok hello -> id_bytes 16 corr -> id_bytes 32 sid -> nonempty_text ident ->
  exists es n, accepted 2 (session_ready c hello corr sid ident) es n /\ n <= CONTROL_PAYLOAD_MAX_BYTES.
Proof using Hc.
  intros Hh [Hc1 Hc2] [Hs1 Hs2] Hi. destruct (config_budgets 1 ltac:(lia)) as [Hb _].
  destruct Hc as [Hin Hp Ha Hr Hd _ _ _]. unfold session_ready, bytes_value, text_value. cbv zeta.
  accept_message good_fields.
  - eapply (good_array 1 Schema.DOMAIN_IDS_MAX Schema.domain_id _ _ 9 [Unsigned (gc_domain_id c)]); try done.
    + apply Forall_cons_2; [good | apply Forall_nil_2].
    + exists [gc_domain_id c]. split; [done | repeat constructor].
  - intros _. exists (row_id (support_row c)), (row_ros_distro (support_row c)), (row_rmw_identifier (support_row c)).
    split_and!; [done | done | done | by apply row_triple].
  - unfold UTF8_TEXT_MAX. vm_compute. discriminate.
Qed.

Ltac size_small := good_side || (unfold CONTROL_PAYLOAD_MAX_BYTES, UTF8_TEXT_MAX; lia).

Lemma channel_ready_accepted corr id priority qos :
  id_bytes 16 corr -> 1 <= id <= u32_max -> 0 <= priority <= 4 -> effective_qos_ok qos ->
  exists es n, accepted 9 (channel_ready_allow c corr id priority qos) es n /\ n <= CONTROL_PAYLOAD_MAX_BYTES.
Proof using Hc.
  intros [Hc1 Hc2] Hid Hpr Hq. destruct (config_budgets 1 ltac:(lia)) as [_ Hb]. destruct Hc as [_ _ _ Hr Hd _ _ _].
  unfold channel_ready_allow, bytes_value, text_value.
  accept_message ltac:(eapply (good_union 0); [reflexivity | good_fields]); size_small.
Qed.

Lemma service_ready_accepted corr id priority :
  id_bytes 16 corr -> 1 <= id <= u32_max -> 0 <= priority <= 4 ->
  exists es n, accepted 9 (channel_ready_service_allow c corr id priority) es n /\ n <= CONTROL_PAYLOAD_MAX_BYTES.
Proof using Hc.
  intros [Hc1 Hc2] Hid Hpr. destruct (config_budgets 1 ltac:(lia)) as [_ Hb]. destruct Hc as [_ _ _ Hr Hd _ _ _].
  unfold channel_ready_service_allow, bytes_value, text_value.
  accept_message ltac:(eapply (good_union 1); [reflexivity | good_fields]); size_small.
Qed.

Lemma action_ready_accepted corr id priority :
  id_bytes 16 corr -> 1 <= id <= u32_max -> 0 <= priority <= 4 ->
  exists es n, accepted 9 (channel_ready_action_allow c corr id priority) es n /\ n <= CONTROL_PAYLOAD_MAX_BYTES.
Proof using Hc.
  intros [Hc1 Hc2] Hid Hpr. destruct (config_budgets 1 ltac:(lia)) as [_ Hb]. destruct Hc as [_ _ _ Hr Hd _ _ _].
  unfold channel_ready_action_allow, bytes_value, text_value.
  accept_message ltac:(eapply (good_union 2); [reflexivity | good_fields]); size_small.
Qed.

Lemma channel_refused_accepted corr id code message :
  id_bytes 16 corr -> 1 <= id <= u32_max -> wire_code code -> any_text message ->
  exists es n, accepted 9 (channel_ready_error corr id code message) es n /\ n <= CONTROL_PAYLOAD_MAX_BYTES.
Proof.
  intros [Hc1 Hc2] Hid [Hcode Hne] Hm. unfold channel_ready_error, bytes_value, text_value.
  accept_message ltac:(eapply (good_union 4); [reflexivity | good_fields]); size_small.
Qed.

Lemma heartbeat_accepted counter :
  0 <= counter <= u64_max -> exists es n, accepted 12 (heartbeat counter) es n /\ n <= CONTROL_PAYLOAD_MAX_BYTES.
Proof.
  intros Hn. assert (Hz : bytes_ok (zeros 16) /\ blen (zeros 16) = 16) by (split; [apply bytes_ok_zeros | done]).
  destruct Hz. unfold heartbeat, bytes_value, ZERO_CORRELATION. accept_message good_fields; size_small.
Qed.

Lemma session_error_accepted corr code message :
  id_bytes 16 corr -> wire_code code -> any_text message ->
  exists es n, accepted 15 (session_error_with_correlation corr code message) es n /\ n <= CONTROL_PAYLOAD_MAX_BYTES.
Proof.
  intros [Hc1 Hc2] [Hcode Hne] Hm. unfold session_error_with_correlation, bytes_value, text_value.
  accept_message ltac:(eapply (good_union 0); [reflexivity | good_fields]); size_small.
Qed.

Lemma channel_error_accepted id code message :
  1 <= id <= u32_max -> wire_code code -> any_text message ->
  exists es n, accepted 15 (channel_error id code message) es n /\ n <= CONTROL_PAYLOAD_MAX_BYTES.
Proof.
  intros Hid [Hcode Hne] Hm. unfold channel_error, bytes_value, text_value, ZERO_CORRELATION.
  assert (Hz : bytes_ok (zeros 16) /\ blen (zeros 16) = 16) by (split; [apply bytes_ok_zeros | done]). destruct Hz.
  accept_message ltac:(eapply (good_union 1); [reflexivity | good_fields]); size_small.
Qed.

(** The entries of the two graph messages, sorted. *)
Definition delta_entries (corr : bytes) (base generation : Z) (endpoint : GraphEndpointInfo) : list (Z * CborValue) :=
  [(1, Unsigned 4); (2, Bytes corr); (7, Text (gateway_instance_id c)); (8, Text (row_id (support_row c)));
   (14, Unsigned generation); (24, Unsigned base);
   (25, Array [Map [(1, Unsigned 2); (3, Map (endpoint_entries endpoint (support_row c)))]])].

Lemma graph_delta_accepted corr base generation endpoint :
  id_bytes 16 corr -> 0 <= base <= u64_max -> 0 <= generation <= u64_max -> endpoint_ok endpoint ->
  exists n, accepted 4 (graph_delta c corr base generation [graph_delta_add_endpoint endpoint (support_row c)])
    (delta_entries corr base generation endpoint) n /\ n <= CONTROL_PAYLOAD_MAX_BYTES.
Proof using Hc.
  intros [Hc1 Hc2] Hb Hg He. destruct Hc as [Hin _ _ Hr _ _ _ _].
  pose proof (good_endpoint endpoint (support_row c) 3 He Hr ltac:(lia)) as Hend.
  assert (Hop : good Schema.graph_delta_op 2 22036 (Map [(1, Unsigned 2); (3, Map (endpoint_entries endpoint (support_row c)))])).
  { eapply good_weaken; [eapply (good_union 2); [reflexivity | good_fields] |]. lia. }
  eexists. split; [split |].
  - unfold graph_delta, graph_delta_add_endpoint. cbn [canon map]. by rewrite endpoint_canon.
  - exists graph_delta_schema. split; [done |]. unfold delta_entries. good_fields.
    eapply (good_array 1 Schema.GRAPH_DELTA_OPS_MAX Schema.graph_delta_op _ _ 22036
      [Map [(1, Unsigned 2); (3, Map (endpoint_entries endpoint (support_row c)))]]); try done.
    by apply Forall_cons_2; [| apply Forall_nil_2].
  - by left.
  - discriminate.
  - unfold UTF8_TEXT_MAX. vm_compute. discriminate.
Qed.

Definition snapshot_nodes (view : GraphView) : list CborValue :=
  map (fun n => Map (node_entries n)) (sort_by_bytes (fun n => pad_id16 (gn_id n)) (gv_nodes view)).
Definition snapshot_endpoints (view : GraphView) : list CborValue :=
  map (fun e => Map (endpoint_entries e (support_row c))) (sort_by_bytes (fun e => pad_id16 (ge_id e)) (gv_endpoints view)).
Definition snapshot_entries (corr : bytes) (generation : Z) (view : GraphView) : list (Z * CborValue) :=
  [(1, Unsigned 3); (2, Bytes corr); (7, Text (gateway_instance_id c)); (8, Text (row_id (support_row c)));
   (14, Unsigned generation); (22, Array (snapshot_nodes view)); (23, Array (snapshot_endpoints view))].

Lemma blen_sort_by_bytes {A} (key : A -> bytes) l : blen (sort_by_bytes key l) = blen l.
Proof. unfold blen. by rewrite sort_by_bytes_perm. Qed.

Lemma keyed_rows {A} (row : A -> list (Z * CborValue)) field (key : A -> bytes) l :
  (forall a, (field, Bytes (key a)) ∈ row a) -> keyed Bytes field (map (fun a => Map (row a)) l) (map key l).
Proof. intros Hr. unfold keyed. induction l as [| a l IH]; constructor; [by exists (row a) | done]. Qed.

Lemma good_nodes view : view_ok view ->
  exists n, good (Schema.arr 0 Schema.GRAPH_NODES_MAX graph_node (Some Schema.GraphNodesSorted)) 1 n
    (Array (snapshot_nodes view)).
Proof.
  intros [Hn _ Hi _ [Hl _]]. eexists. unfold snapshot_nodes. apply (good_array _ _ _ _ _ 8290); [| | | done | done].
  - apply Forall_map. rewrite sort_by_bytes_perm. eapply Forall_impl; [exact Hn |].
    intros n Hok. by apply good_node.
  - rewrite blen_map, blen_sort_by_bytes. pose proof (blen_nonneg (gv_nodes view)). unfold Schema.GRAPH_NODES_MAX. lia.
  - exists (map (fun n => pad_id16 (gn_id n)) (sort_by_bytes (fun n => pad_id16 (gn_id n)) (gv_nodes view))).
    split; [| by apply (sort_by_bytes_sorted (fun n => pad_id16 (gn_id n)))].
    apply (keyed_rows node_entries 55). intros n. unfold node_entries. rewrite !elem_of_app. right; right. right; left.
Qed.

Lemma good_endpoints view : view_ok view ->
  exists n, good (Schema.arr 0 Schema.GRAPH_ENDPOINTS_MAX graph_endpoint (Some Schema.GraphEndpointsSorted)) 1 n
    (Array (snapshot_endpoints view)).
Proof using Hc.
  intros [_ He _ Hi [_ Hl]]. eexists. unfold snapshot_endpoints. apply (good_array _ _ _ _ _ 22000); [| | | done | done].
  - apply Forall_map. rewrite sort_by_bytes_perm. eapply Forall_impl; [exact He |].
    intros e Hok. apply good_endpoint; [done | apply Hc | done].
  - rewrite blen_map, blen_sort_by_bytes. pose proof (blen_nonneg (gv_endpoints view)). unfold Schema.GRAPH_ENDPOINTS_MAX. lia.
  - exists (map (fun e => pad_id16 (ge_id e)) (sort_by_bytes (fun e => pad_id16 (ge_id e)) (gv_endpoints view))).
    split; [| by apply (sort_by_bytes_sorted (fun e => pad_id16 (ge_id e)))].
    apply (keyed_rows (fun e => endpoint_entries e (support_row c)) 56). intros e. unfold endpoint_entries.
    apply elem_of_app. right. destruct (ge_kind e <=? 3); rewrite !elem_of_cons; tauto.
Qed.

Lemma graph_snapshot_accepted corr generation view :
  id_bytes 16 corr -> 0 <= generation <= u64_max -> view_ok view ->
  exists n, accepted 3 (graph_snapshot c corr generation view) (snapshot_entries corr generation view) n.
Proof using Hc.
  intros [Hc1 Hc2] Hg Hv. destruct (good_nodes view Hv) as (n1 & H1). destruct (good_endpoints view Hv) as (n2 & H2).
  destruct Hc as [Hin _ _ Hr _ _ _ _]. eexists. split.
  - unfold graph_snapshot, sorted_graph_nodes, sorted_graph_endpoints. cbv zeta. cbn [canon map].
    rewrite !map_map, (map_ext _ _ node_canon).
    by rewrite (map_ext (fun e => canon (graph_endpoint_value e (support_row c)))
      (fun e => Map (endpoint_entries e (support_row c))) (fun e => endpoint_canon e (support_row c))).
  - exists graph_snapshot_schema. split; [done |]. unfold snapshot_entries. good_fields.
  - by left.
  - discriminate.
Qed.

End Config.

Lemma gateway_message_accepted c kind v :
  config_ok c -> gateway_message c kind v ->
  exists es n, accepted kind v es n /\ (kind <> 3 -> n <= CONTROL_PAYLOAD_MAX_BYTES).
Proof.
  intros Hc [].
  - destruct (session_ready_accepted c Hc hello corr sid ident) as (es & n & ? & ?); eauto.
  - destruct (graph_snapshot_accepted c Hc corr generation view) as (n & ?); eauto.
    by exists (snapshot_entries c corr generation view), n.
  - destruct (graph_delta_accepted c Hc corr base generation endpoint) as (n & ? & ?); eauto.
  - destruct (channel_ready_accepted c Hc corr id priority qos) as (es & n & ? & ?); eauto.
  - destruct (service_ready_accepted c Hc corr id priority) as (es & n & ? & ?); eauto.
  - destruct (action_ready_accepted c Hc corr id priority) as (es & n & ? & ?); eauto.
  - destruct (channel_refused_accepted corr id code message) as (es & n & ? & ?); eauto.
  - destruct (heartbeat_accepted counter) as (es & n & ? & ?); eauto.
  - destruct (session_error_accepted corr code message) as (es & n & ? & ?); eauto.
  - destruct (channel_error_accepted id code message) as (es & n & ? & ?); eauto.
Qed.

(** [blen] of the payload a message is encoded to. *)
Definition payload_size (v : CborValue) : Z := blen (cbor_bytes (canon v)).

Section Frames.
Context `{Target}.

(** Encoding an accepted value: a frame that reads back, or the size error. *)
Lemma accepted_frame opts sequence kind v es n :
  accepted kind v es n -> is_byte (selected_version opts) -> is_unsigned 64 sequence ->
  if payload_size v <=? CONTROL_PAYLOAD_MAX_BYTES
  then exists bs, encode_control_frame (selected_version opts) sequence v = Ok bs /\
    parse_frame bs (Some opts) = Ok (control_frame (selected_version opts) sequence (payload_size v)
      {| cm_kind := kind; cm_fields := list_to_map es |})
  else exists e, encode_control_frame (selected_version opts) sequence v = Err e.
Proof.
  intros [Hcan (s & Hs & Hg) H1 Ht] Hv Hq. unfold payload_size. rewrite Hcan.
  destruct (Z.leb_spec (blen (cbor_bytes (Map es))) CONTROL_PAYLOAD_MAX_BYTES) as [Hl | Hl].
  { by apply (good_message opts sequence v es kind s n). }
  unfold CONTROL_PAYLOAD_MAX_BYTES in Hl. unfold encode_control_frame. destruct Hg as (_ & Hok & _).
  assert (Hty : typed v = true) by (rewrite <- typed_canon, Hcan; by eapply cbor_okb_typed).
  pose proof (encode_cbor_spec v Hty) as He. rewrite Hcan in He.
  destruct (encode_deterministic_cbor v) as [payload | |]; [| congruence | done].
  destruct He as [_ ->]. cbn [obind]. fold (control_header (selected_version opts) sequence).
  pose proof (encode_frame_spec (control_header (selected_version opts) sequence) [] (cbor_bytes (Map es))) as Hf.
  destruct (encode_frame _ _ _) as [bs | e |]; [| by exists e | done].
  destruct Hf as (_ & _ & _ & _ & Hf). specialize (Hf eq_refl). lia.
Qed.

Lemma accepted_size kind v es n : accepted kind v es n -> payload_size v <= n.
Proof. intros [Hcan (s & _ & (_ & _ & Hn)) _ _]. unfold payload_size. by rewrite Hcan. Qed.


End Frames.

(** ** Concrete messages *)

Lemma default_config_ok : config_ok default_config.
Proof.
  assert (Ht : forall t, utf8_valid t && (1 <=? blen t) && (blen t <=? UTF8_TEXT_MAX) = true -> nonempty_text t).
  { intros t. rewrite !andb_true_iff, !Z.leb_le. intros [[? ?] ?]. by split. }
  assert (Hl : config_limits_ok default_config) by (unfold config_limits_ok, in_range; split_and!; by vm_compute).
  split; [apply Ht; by vm_compute | apply Ht; by vm_compute | apply Ht; by vm_compute | by left | | exact Hl | |];
    split; by vm_compute.
Qed.

Definition sample_view : GraphView :=
  mk_view [mk_node [2] (lit "talker") (Some (lit "/")) 0; mk_node [1] (lit "listener") None 0]
    [mk_endpoint [7] [2] (lit "/chatter") 0 (lit "std_msgs/msg/String") 0].

(** A channel message and the graph message of a concrete gateway, read back. *)
Example snapshot_reads_back :
  match encode_control_frame (H := Wasm32) 0 3 (graph_snapshot default_config ZERO_CORRELATION 1 sample_view) with
  | Ok bs => match parse_frame (H := Wasm32) bs (Some default_options) with
             | Ok f => match df_payload f with Frame.Control m => cm_kind m =? 3 | _ => false end
             | _ => false
             end
  | _ => false
  end = true.
Proof. by vm_compute. Qed.

