(* ===== verification/Auth.v ===== *)
(** * Session identity

    [rclwebd/src/auth.rs]: the evaluation of an Authenticate message.  The JWT
    library ([jsonwebtoken]) is a class of its operations; the audit line is
    not modelled. *)

From S2P Require Import Prelude Utf8 Policy.
#[local] Open Scope Z_scope.

Definition AUTHENTICATION_FAILED : Z := 26.
Definition ANONYMOUS_SUBJECT : bytes := lit "anonymous".

Inductive AuthMode := AuthOff | Oidc.

Definition AuthMode_parse (raw : bytes) : option AuthMode :=
  let t := to_ascii_lowercase (trim raw) in
  if text_eqb t [] || text_eqb t (lit "off") || text_eqb t (lit "dev") then Some AuthOff
  else if text_eqb t (lit "oidc") then Some Oidc
  else None.

Definition AuthMode_is_off (m : AuthMode) : bool := match m with AuthOff => true | Oidc => false end.

(** What the gateway uses of the JWT library. *)
Class JwtLibrary := {
  JwkSet : Type;
  Jwk : Type;
  Header : Type;
  DecodingKey : Type;
  decode_header : bytes -> option Header;
  is_hs256 : Header -> bool;
  kid : Header -> option bytes;
  jwks_find : JwkSet -> bytes -> option Jwk;
  from_secret : bytes -> DecodingKey;
  from_jwk : Jwk -> option DecodingKey;
  (** [decode] with a validation of the header's algorithm, no leeway, the
      issuer and the audience: the [sub] claim. *)
  decode_subject : bytes -> DecodingKey -> Header -> bytes -> bytes -> option bytes
}.

Record AuthResult := mk_auth { au_allow : bool; au_subject : bytes; au_reason : bytes }.

Definition deny (reason : string) : AuthResult := mk_auth false [] (lit reason).

Section Auth.
Context `{JwtLibrary}.

Record OidcSettings := { issuer : bytes; audience : bytes; hs_secret : option bytes; jwks : option JwkSet }.

Definition decoding_key (settings : OidcSettings) (header : Header) : option DecodingKey :=
  if is_hs256 header then option_map from_secret (hs_secret settings)
  else
    match jwks settings with
    | None => None
    | Some set =>
        match kid header with
        | None => None
        | Some id => match jwks_find set id with Some jwk => from_jwk jwk | None => None end
        end
    end.

Definition verify_jwt (settings : OidcSettings) (token : bytes) : AuthResult :=
  if negb (utf8_valid token) then deny "token_not_utf8"
  else
    match decode_header token with
    | None => deny "jwt_header"
    | Some header =>
        match decoding_key settings header with
        | None => deny "jwt_key"
        | Some key =>
            match decode_subject token key header (issuer settings) (audience settings) with
            | Some sub => mk_auth true sub (lit "oidc_ok")
            | None => deny "jwt_invalid"
            end
        end
    end.

(** The two fields of [GatewayConfig] it reads. *)
Record AuthConfig := { auth_mode : AuthMode; oidc : option OidcSettings }.

Definition authenticate (config : AuthConfig) (scheme token : bytes) : AuthResult :=
  match auth_mode config with
  | AuthOff => mk_auth true ANONYMOUS_SUBJECT (lit "auth_off")
  | Oidc =>
      match oidc config with
      | Some settings => verify_jwt settings token
      | None => deny "oidc_not_configured"
      end
  end.

End Auth.
