(* ===== verification/Connection.v ===== *)
(** * The gateway's connection engine

    [rclwebd/src/connection.rs]: one connection's state, the handlers of inbound
    bootstrap records and frames, the framing of samples, requests and goals
    that arrive from the ROS side, and the sample queue.  One task drives it,
    so a handler is a state transformer of the [World] it owns: the
    connection, the messages to send, the write queue, the process counters
    and the backend. *)

From stdpp Require Import gmap.
From S2P Require Import Prelude Utf8 ProtocolError Cbor Extension ControlSchema Control Frame Bootstrap Session.
From S2P Require Import Budgets Policy Backend Builders Auth.
Import ControlSchema.Schema(CONTROL_KIND_AUTHENTICATE, CONTROL_KIND_OPEN_CHANNEL, CONTROL_KIND_CLOSE_CHANNEL,
  CONTROL_KIND_HEARTBEAT, CONTROL_KIND_ERROR).
#[local] Open Scope Z_scope.

(** ** State *)

Record ChannelRuntime := mk_runtime {
  cr_kind : OperationKind;
  cr_entity : EntityId;
  cr_reliable : bool;
  cr_transient_local : bool;
  cr_priority : Z;
  cr_seq_out : Z;
  cr_seq_in : Z;
  cr_op_seq_out : gmap bytes Z;
  cr_op_seq_in : gmap bytes Z
}.

Definition with_seq_out (n : Z) (r : ChannelRuntime) : ChannelRuntime :=
  let 'mk_runtime k e rel tl p _ i oo oi := r in mk_runtime k e rel tl p n i oo oi.
Definition with_seq_in (n : Z) (r : ChannelRuntime) : ChannelRuntime :=
  let 'mk_runtime k e rel tl p o _ oo oi := r in mk_runtime k e rel tl p o n oo oi.
Definition with_op_seq_out (m : gmap bytes Z) (r : ChannelRuntime) : ChannelRuntime :=
  let 'mk_runtime k e rel tl p o i _ oi := r in mk_runtime k e rel tl p o i m oi.
Definition with_op_seq_in (m : gmap bytes Z) (r : ChannelRuntime) : ChannelRuntime :=
  let 'mk_runtime k e rel tl p o i oo _ := r in mk_runtime k e rel tl p o i oo m.

Record ConnState := mk_conn {
  cn_session : SessionState;
  cn_server_hello : option ServerHello;
  cn_control_seq_out : Z;
  cn_control_seq_in : Z;
  cn_heartbeat_counter : Z;
  cn_channels : gmap Z ChannelRuntime;
  cn_graph_generation : option Z;
  cn_subject : bytes
}.

Definition set_session (s : SessionState) (c : ConnState) : ConnState :=
  let 'mk_conn _ b d e f g h i := c in mk_conn s b d e f g h i.
Definition set_server_hello (v : option ServerHello) (c : ConnState) : ConnState :=
  let 'mk_conn a _ d e f g h i := c in mk_conn a v d e f g h i.
Definition set_control_seq_out (v : Z) (c : ConnState) : ConnState :=
  let 'mk_conn a b _ e f g h i := c in mk_conn a b v e f g h i.
Definition set_control_seq_in (v : Z) (c : ConnState) : ConnState :=
  let 'mk_conn a b d _ f g h i := c in mk_conn a b d v f g h i.
Definition set_heartbeat_counter (v : Z) (c : ConnState) : ConnState :=
  let 'mk_conn a b d e _ g h i := c in mk_conn a b d e v g h i.
Definition set_channels (v : gmap Z ChannelRuntime) (c : ConnState) : ConnState :=
  let 'mk_conn a b d e f _ h i := c in mk_conn a b d e f v h i.
Definition set_graph_generation (v : option Z) (c : ConnState) : ConnState :=
  let 'mk_conn a b d e f g _ i := c in mk_conn a b d e f g v i.
Definition set_subject (v : bytes) (c : ConnState) : ConnState :=
  let 'mk_conn a b d e f g h _ := c in mk_conn a b d e f g h v.

Record Outcome := mk_out { out_outbound : list bytes; out_close : bool }.
Definition no_outcome : Outcome := mk_out [] false.

(** The counters of [PROCESS_TELEMETRY] the connection moves ([fetch_add] wraps). *)
Record Telemetry := mk_telemetry {
  tm_samples_framed : Z; tm_delivered : Z; tm_sequence_gap : Z; tm_stale_sequence : Z; tm_reliable_queue_drop : Z
}.
Definition no_telemetry : Telemetry := mk_telemetry 0 0 0 0 0.
Definition fetch_add (n k : Z) : Z := as_unsigned 64 (n + k).
Definition record_sample_framed (t : Telemetry) : Telemetry :=
  let 'mk_telemetry a b c d e := t in mk_telemetry (fetch_add a 1) b c d e.
Definition add_delivered (n : Z) (t : Telemetry) : Telemetry :=
  let 'mk_telemetry a b c d e := t in mk_telemetry a (fetch_add b n) c d e.
Definition add_sequence_gap (n : Z) (t : Telemetry) : Telemetry :=
  let 'mk_telemetry a b c d e := t in mk_telemetry a b (fetch_add c n) d e.
Definition add_stale_sequence (n : Z) (t : Telemetry) : Telemetry :=
  let 'mk_telemetry a b c d e := t in mk_telemetry a b c (fetch_add d n) e.
Definition add_reliable_queue_drop (n : Z) (t : Telemetry) : Telemetry :=
  let 'mk_telemetry a b c d e := t in mk_telemetry a b c d (fetch_add e n).

Record World (B : Type) := mk_world {
  w_conn : ConnState;
  w_out : Outcome;
  w_queue : SampleWriteQueue;
  w_telemetry : Telemetry;
  w_session_counter : Z;
  w_backend : B
}.
Arguments mk_world {B}.
Arguments w_conn {B}. Arguments w_out {B}. Arguments w_queue {B}. Arguments w_telemetry {B}.
Arguments w_session_counter {B}. Arguments w_backend {B}.

(** ** Error codes *)

Definition BOOTSTRAP_CODES : list Z := [1; 2; 4; 16; 24; 25].

Definition bootstrap_error_code (err : ProtocolError) : Z :=
  let code := pe_code err in if existsb (Z.eqb code) BOOTSTRAP_CODES then code else 1.

Definition wire_error_code (err : ProtocolError) : Z :=
  let code := pe_code err in if (1 <=? code) && (code <=? 28) && negb (code =? 20) then code else 25.

Fixpoint operation_id_of (exts : list R2wpExtension) : option bytes :=
  match exts with
  | [] => None
  | ext :: exts' =>
      if (ext_type_id ext =? OPERATION_ID_EXTENSION_TYPE) && (blen (ext_value ext) =? 16) then Some (ext_value ext)
      else operation_id_of exts'
  end.
Definition conn_operation_id (frame : DecodedFrame) : option bytes := operation_id_of (df_extensions frame).

Definition conn_field_uint (msg : ControlMessage) (key : Z) : option Z :=
  match cm_fields msg !! key with Some (Unsigned v) => Some v | _ => None end.
Definition conn_field_bytes (msg : ControlMessage) (key : Z) : option bytes :=
  match cm_fields msg !! key with Some (Bytes b) => Some b | _ => None end.
Definition conn_field_text (msg : ControlMessage) (key : Z) : option bytes :=
  match cm_fields msg !! key with Some (Text t) => Some t | _ => None end.

Definition or_else {A} (o : option A) (d : A) : A := match o with Some a => a | None => d end.

(** ** Session ids *)

(** The SplitMix64 finalizer over time, counter and process id. *)
Definition splitmix (nanos count pid : Z) : Z :=
  let wrap := as_unsigned 64 in
  let z := wrap (wrap (nanos + wrap (count * 0x9e3779b97f4a7c15)) + pid) in
  let z := wrap (Z.lxor z (Z.shiftr z 30) * 0xbf58476d1ce4e5b9) in
  let z := wrap (Z.lxor z (Z.shiftr z 27) * 0x94d049bb133111eb) in
  Z.lxor z (Z.shiftr z 31).

(** [new_session_id], with the clock as a function of the draw. *)
Definition new_session_id (clock : Z -> Z) (pid counter : Z) : bytes :=
  flat_map (fun i => let n := as_unsigned 64 (counter + i) in to_be 8 (splitmix (clock n) n pid)) [0; 1; 2; 3].

(** ** The handlers *)

(** How integer overflow and debug assertions behave. *)
Inductive Build := DebugBuild | ReleaseBuild.

Section Connection.
Context `{Target} {B : Type} `{!RosBackend B} `{JwtLibrary}.
Variables (build : Build) (config : GatewayConfig) (auth_config : AuthConfig) (active : ActiveTransport).
Variables (clock : Z -> Z) (pid : Z).

(** [Err tt] is an early [return] of the enclosing function. *)
Abbreviation Conn := (SM (World B) unit).

Definition return_ {A} : Conn A := throw tt.
Definition panic {A} : Conn A := lift Panic.
Definition call_fn (m : Conn unit) : Conn unit :=
  fun w => match m w with (Err _, w') => (Ok tt, w') | r => r end.

Definition conn_ {A} (f : ConnState -> A) : Conn A := gets (fun w => f (w_conn w)).
Definition on_conn (f : ConnState -> ConnState) : Conn unit :=
  modify (fun w => mk_world (f (w_conn w)) (w_out w) (w_queue w) (w_telemetry w) (w_session_counter w) (w_backend w)).
Definition on_out (f : Outcome -> Outcome) : Conn unit :=
  modify (fun w => mk_world (w_conn w) (f (w_out w)) (w_queue w) (w_telemetry w) (w_session_counter w) (w_backend w)).
Definition set_queue (q : SampleWriteQueue) : Conn unit :=
  modify (fun w => mk_world (w_conn w) (w_out w) q (w_telemetry w) (w_session_counter w) (w_backend w)).
Definition telemetry (f : Telemetry -> Telemetry) : Conn unit :=
  modify (fun w => mk_world (w_conn w) (w_out w) (w_queue w) (f (w_telemetry w)) (w_session_counter w) (w_backend w)).

Definition push_out (b : bytes) : Conn unit := on_out (fun o => mk_out (out_outbound o ++ [b]) (out_close o)).
Definition close : Conn unit := on_out (fun o => mk_out (out_outbound o) true).

(** A call into the session: [inr] is its error. *)
Definition session_ {A} (m : SM SessionState ProtocolError A) : Conn (A + ProtocolError) := fun w =>
  let w' s := mk_world (set_session s (w_conn w)) (w_out w) (w_queue w) (w_telemetry w) (w_session_counter w) (w_backend w) in
  match m (cn_session (w_conn w)) with
  | (Ok a, s) => (Ok (inl a), w' s)
  | (Err e, s) => (Ok (inr e), w' s)
  | (Panic, s) => (Panic, w' s)
  end.

Definition backend_ {A} (m : Method B A) : Conn (A + BackendError) := fun w =>
  let '(r, b) := m (w_backend w) in
  (Ok r, mk_world (w_conn w) (w_out w) (w_queue w) (w_telemetry w) (w_session_counter w) b).
Definition destroy_ (entity : EntityId) : Conn unit :=
  modify (fun w => mk_world (w_conn w) (w_out w) (w_queue w) (w_telemetry w) (w_session_counter w)
                     (destroy entity (w_backend w))).

Definition assert_debug (c : bool) : Conn unit :=
  match build with DebugBuild => if c then ret tt else panic | ReleaseBuild => ret tt end.

(** [n += 1] on a [u64]. *)
Definition plus_one (n : Z) : Conn Z :=
  if n =? u64_max then match build with DebugBuild => panic | ReleaseBuild => ret 0 end else ret (n + 1).

Definition frame_options : FrameOptions := default_options.

Definition conn_new : ConnState :=
  mk_conn (Session_new Server) None 0 0 0 ∅ None ANONYMOUS_SUBJECT.

(** [match parse_frame(..) { Ok(frame) => record_send_frame(&frame).is_ok(), Err(_) => false }]. *)
Definition record_outbound (b : bytes) : Conn bool :=
  match parse_frame b (Some frame_options) with
  | Ok frame => r <~ session_ (record_send_frame frame) ;; ret (match r with inl _ => true | inr _ => false end)
  | Err _ => ret false
  | Panic => panic
  end.

Definition push_control (message : CborValue) : Conn bool :=
  seq <~ conn_ cn_control_seq_out ;;
  match encode_control_frame 0 seq message with
  | Err _ => close ;;~ ret false
  | Panic => panic
  | Ok b =>
      recorded <~ record_outbound b ;;
      assert_debug recorded ;;~
      if recorded then
        next <~ plus_one seq ;;
        on_conn (set_control_seq_out next) ;;~
        push_out b ;;~
        ret true
      else close ;;~ ret false
  end.

Definition push_app_frame (header : FrameHeader) (operation_id : option bytes) (payload : bytes) : Conn bool :=
  area <~ match operation_id with
          | Some opid =>
              match encode_extension_area
                      [{| ext_type_id := OPERATION_ID_EXTENSION_TYPE; ext_critical := true; ext_value := opid |}] with
              | Ok area => ret (Some area)
              | Err _ => close ;;~ ret None
              | Panic => panic
              end
          | None => ret (Some [])
          end ;;
  match area with
  | None => ret false
  | Some area =>
      match encode_frame header area payload with
      | Err _ => close ;;~ ret false
      | Panic => panic
      | Ok b =>
          recorded <~ record_outbound b ;;
          assert_debug recorded ;;~
          if recorded then push_out b ;;~ ret true else close ;;~ ret false
      end
  end.

Definition push_bootstrap_error (code : Z) (message : bytes) : Conn unit :=
  match encode_bootstrap_error {| be_code := code; be_message := Some message; be_detail := None |} with
  | Ok b => push_out b
  | Err _ => ret tt
  | Panic => panic
  end ;;~
  close.

Definition fail_session (err : ProtocolError) : Conn unit :=
  phase <~ conn_ (fun c => ss_phase (cn_session c)) ;;
  (if in_selected_plane phase then
     push_control (session_error (wire_error_code err) (lit (pe_reason err))) ;;~ ret tt
   else push_bootstrap_error (bootstrap_error_code err) (lit (pe_reason err))) ;;~
  close.

(** [{ self.fail_session(outcome, &err); return; }]. *)
Definition fail_with {A} (err : ProtocolError) : Conn A := fail_session err ;;~ return_.

Definition handle_bootstrap (b : bytes) : Conn unit :=
  record <~ match parse_bootstrap b with
            | Ok record => ret record
            | Err err => push_bootstrap_error (bootstrap_error_code err) (lit (pe_reason err)) ;;~ return_
            | Panic => panic
            end ;;
  r <~ session_ (ingest_bootstrap record) ;;
  match r with
  | inr err => push_bootstrap_error (bootstrap_error_code err) (lit (pe_reason err)) ;;~ return_
  | inl _ => ret tt
  end ;;~
  match record with
  | RClientHello hello =>
      match negotiate_server_hello hello config active with
      | Ok server_hello =>
          match encode_server_hello server_hello with
          | Ok response =>
              r <~ session_ (record_send_bootstrap (RServerHello server_hello)) ;;
              let recorded := match r with inl _ => true | inr _ => false end in
              assert_debug recorded ;;~
              if recorded then
                on_conn (set_server_hello (Some server_hello)) ;;~
                push_out response
              else close ;;~ return_
          | Err _ => close
          | Panic => panic
          end
      | Err code => push_bootstrap_error code (lit "hello_negotiation_failed")
      | Panic => panic
      end
  | _ => close ;;~ return_
  end.

Definition push_graph_snapshot (generation : Z) : Conn unit :=
  view <~ backend_ graph_view ;;
  match view with
  | inr err =>
      push_control (session_error (err_code err) (err_message err)) ;;~
      close ;;~
      return_
  | inl view =>
      sent <~ push_control (graph_snapshot config ZERO_CORRELATION generation view) ;;
      if sent then on_conn (set_graph_generation (Some generation)) else ret tt
  end.

Definition push_graph_delta_for_endpoint (endpoint : GraphEndpointInfo) : Conn unit :=
  base <~ conn_ cn_graph_generation ;;
  match base with
  | None => return_
  | Some base =>
      let generation := u64_saturating_add base 1 in
      let ops := [graph_delta_add_endpoint endpoint (support_row config)] in
      sent <~ push_control (graph_delta config ZERO_CORRELATION base generation ops) ;;
      if sent then on_conn (set_graph_generation (Some generation)) else ret tt
  end.

(** The channel kinds of OpenChannel, as [open_channel] reads field 30. *)
Definition open_kind (msg : ControlMessage) : option OperationKind :=
  match conn_field_uint msg 30 with
  | Some 0 => Some TopicSubscribe
  | Some 1 => Some TopicPublish
  | Some 2 => Some ServiceClient
  | Some 3 => Some ServiceServer
  | Some 4 => Some ActionClient
  | Some 5 => Some ActionServer
  | _ => None
  end.

Definition open_failure (msg : ControlMessage) : option (Z * string) :=
  if negb (bool_decide (conn_field_text msg 8 = Some (row_id (support_row config)))) then
    Some (25, "support_row_mismatch"%string)
  else if negb (bool_decide (conn_field_uint msg 9 = Some (gc_domain_id config))) then
    Some (12, "domain_not_served"%string)
  else if negb (bool_decide (conn_field_uint msg 5 = Some 1)) then
    Some (8, "unsupported_payload_encoding"%string)
  else None.

(** What the policy says of a channel (the audit line is not modelled). *)
Definition acl_admits (subject : bytes) (kind : OperationKind) (topic : bytes) : bool :=
  match acl_mode config with
  | AclOff => true
  | AclEnforce =>
      match acl config with
      | Some policy => acl_allow policy subject (AclOperation_from_kind kind) topic
      | None => false
      end
  end.

Definition create_entity (kind : OperationKind) (spec : ChannelSpec) : Method B EntityId :=
  match kind with
  | TopicSubscribe => create_subscription spec
  | TopicPublish => create_publisher spec
  | ServiceClient => create_client spec
  | ServiceServer => create_service spec
  | ActionClient => create_action_client spec
  | ActionServer => create_action_server spec
  end.

Definition channel_ready_reply (kind : OperationKind) (correlation : bytes) (channel_id priority : Z)
    (effective : EffectiveQos) : CborValue :=
  match kind with
  | ServiceClient | ServiceServer => channel_ready_service_allow config correlation channel_id priority
  | ActionClient | ActionServer => channel_ready_action_allow config correlation channel_id priority
  | _ => channel_ready_allow config correlation channel_id priority effective
  end.

Definition refuse_channel (correlation : bytes) (channel_id code : Z) (reason : bytes) : Conn unit :=
  push_control (channel_ready_error correlation channel_id code reason) ;;~ ret tt.

Definition open_channel (channel_id : Z) (msg : ControlMessage) : Conn unit :=
  let correlation := or_else (conn_field_bytes msg 2) ZERO_CORRELATION in
  kind <~ match open_kind msg with Some kind => ret kind | None => close ;;~ return_ end ;;
  let topic := or_else (conn_field_text msg 31) [] in
  let type_name := or_else (conn_field_text msg 4) [] in
  let priority := as_unsigned 8 (or_else (conn_field_uint msg 32) 2) in
  match open_failure msg with
  | Some (code, reason) => refuse_channel correlation channel_id code (lit reason) ;;~ return_
  | None => ret tt
  end ;;~
  subject <~ conn_ cn_subject ;;
  (if acl_admits subject kind topic then ret tt
   else refuse_channel correlation channel_id PERMISSION_DENIED (lit "permission_denied") ;;~ return_) ;;~
  let requested := match cm_fields msg !! 11 with Some v => RequestedQos_from_wire v | None => default_requested end in
  let effective := resolve_effective requested in
  created <~ backend_ (create_entity kind (mk_spec channel_id topic type_name effective)) ;;
  match created with
  | inr err => refuse_channel correlation channel_id (err_code err) (err_message err)
  | inl entity =>
      let reliable := match kind with TopicSubscribe | TopicPublish => eq_reliable effective | _ => true end in
      let runtime := mk_runtime kind entity reliable (eq_transient_local effective) priority 0 0 ∅ ∅ in
      on_conn (fun c => set_channels (<[channel_id := runtime]> (cn_channels c)) c) ;;~
      sent <~ push_control (channel_ready_reply kind correlation channel_id priority effective) ;;
      (if sent then ret tt
       else
         channels <~ conn_ cn_channels ;;
         match channels !! channel_id with
         | Some runtime =>
             on_conn (fun c => set_channels (delete channel_id (cn_channels c)) c) ;;~
             destroy_ (cr_entity runtime)
         | None => ret tt
         end ;;~
         return_) ;;~
      view <~ backend_ graph_view ;;
      match view with
      | inl view =>
          match List.find (fun ep => text_eqb (ge_name ep) topic && text_eqb (ge_type_name ep) type_name)
                  (gv_endpoints view) with
          | Some endpoint => call_fn (push_graph_delta_for_endpoint endpoint)
          | None => ret tt
          end
      | inr _ => ret tt
      end
  end.

Definition handle_authenticate (msg : ControlMessage) : Conn unit :=
  let correlation := or_else (conn_field_bytes msg 2) ZERO_CORRELATION in
  let scheme := or_else (conn_field_text msg 16) [] in
  let token := or_else (conn_field_bytes msg 17) [] in
  let decision := authenticate auth_config scheme token in
  (if au_allow decision then ret tt
   else
     push_control (session_error_with_correlation correlation AUTHENTICATION_FAILED (au_reason decision)) ;;~
     close ;;~
     return_) ;;~
  hello <~ conn_ cn_server_hello ;;
  match hello with
  | None => close ;;~ return_
  | Some server_hello =>
      on_conn (set_subject (au_subject decision)) ;;~
      counter <~ gets w_session_counter ;;
      let session_id := new_session_id clock pid counter in
      modify (fun w => mk_world (w_conn w) (w_out w) (w_queue w) (w_telemetry w)
                         (as_unsigned 64 (w_session_counter w + 4)) (w_backend w)) ;;~
      sent <~ push_control (session_ready config server_hello correlation session_id (au_subject decision)) ;;
      (if sent then ret tt else return_) ;;~
      call_fn (push_graph_snapshot 1)
  end.

Definition handle_control (msg : ControlMessage) (effects : SessionEffects) : Conn unit :=
  let kind := cm_kind msg in
  if kind =? CONTROL_KIND_AUTHENTICATE then handle_authenticate msg
  else if kind =? CONTROL_KIND_OPEN_CHANNEL then
    match fx_channel_opened effects with Some channel_id => call_fn (open_channel channel_id msg) | None => ret tt end
  else if kind =? CONTROL_KIND_CLOSE_CHANNEL then
    match fx_channel_closed effects with
    | Some channel_id =>
        channels <~ conn_ cn_channels ;;
        match channels !! channel_id with
        | Some runtime =>
            on_conn (fun c => set_channels (delete channel_id (cn_channels c)) c) ;;~
            destroy_ (cr_entity runtime)
        | None => ret tt
        end
    | None => ret tt
    end
  else if kind =? CONTROL_KIND_HEARTBEAT then
    counter <~ conn_ cn_heartbeat_counter ;;
    counter <~ plus_one counter ;;
    on_conn (set_heartbeat_counter counter) ;;~
    push_control (heartbeat counter) ;;~ ret tt
  else if (kind =? CONTROL_KIND_ERROR) && fx_session_error effects then close
  else ret tt.

(** The runtime of a channel, or the early return after closing. *)
Definition runtime_or_close (channel_id : Z) : Conn ChannelRuntime :=
  channels <~ conn_ cn_channels ;;
  match channels !! channel_id with Some runtime => ret runtime | None => close ;;~ return_ end.
Definition put_runtime (channel_id : Z) (runtime : ChannelRuntime) : Conn unit :=
  on_conn (fun c => set_channels (<[channel_id := runtime]> (cn_channels c)) c).

(** [frame_payload_bytes]: a slice of the inbound frame, which panics out of range. *)
Definition frame_payload_bytes (inbound : bytes) (frame : DecodedFrame) : Conn bytes :=
  let start := usize_add SAMPLE_HEADER_PREFIX (df_extension_len frame) in
  lift (slice inbound start (usize_add start (df_payload_len frame))).

Definition require_application (frame : DecodedFrame) : Conn unit :=
  match df_payload frame with Application _ => ret tt | Frame.Control _ => close ;;~ return_ end.

(** [if let Err(err) = ... { push_control(channel_error(..)) }]. *)
Definition report_backend_error {A} (channel_id : Z) (r : A + BackendError) : Conn unit :=
  match r with
  | inl _ => ret tt
  | inr err => push_control (channel_error channel_id (err_code err) (err_message err)) ;;~ ret tt
  end.

(** The sequence rules of an inbound sample. *)
Definition admit_sample_sequence (frame : DecodedFrame) (runtime : ChannelRuntime) : Conn unit :=
  let channel_id := df_channel_id frame in
  if cr_reliable runtime then
    if negb (df_sequence frame =? cr_seq_in runtime) then
      fail_with (protocol_violation "reliable_sequence_mismatch" 8 25)
    else
      next <~ plus_one (cr_seq_in runtime) ;;
      put_runtime channel_id (with_seq_in next runtime)
  else if cr_seq_in runtime <=? df_sequence frame then
    (if cr_seq_in runtime <? df_sequence frame then telemetry (add_sequence_gap 1) else ret tt) ;;~
    next <~ plus_one (df_sequence frame) ;;
    put_runtime channel_id (with_seq_in next runtime)
  else
    telemetry (add_stale_sequence 1) ;;~
    return_.

Definition handle_publish_sample (frame : DecodedFrame) (inbound : bytes) : Conn unit :=
  let channel_id := df_channel_id frame in
  runtime <~ runtime_or_close channel_id ;;
  assert_debug (bool_decide (cr_kind runtime = TopicPublish)) ;;~
  let reliable_flag := negb (Z.land (df_flags frame) FLAG_ROS_RELIABLE =? 0) in
  (if negb (eqb reliable_flag (cr_reliable runtime)) then
     fail_with (unsupported_flags "ros_reliable_iff_effective" 2 23)
   else ret tt) ;;~
  (if negb (Z.land (df_flags frame) FLAG_RETAINED =? 0) && negb (cr_transient_local runtime) then
     fail_with (unsupported_flags "retained_requires_transient_local" 2 24)
   else ret tt) ;;~
  admit_sample_sequence frame runtime ;;~
  require_application frame ;;~
  payload <~ frame_payload_bytes inbound frame ;;
  r <~ backend_ (publish (cr_entity runtime) payload) ;;
  report_backend_error channel_id r.

Definition next_op_seq_out (runtime : ChannelRuntime) (opid : bytes) : Z * ChannelRuntime :=
  let seq := or_else (cr_op_seq_out runtime !! opid) 0 in
  (seq, with_op_seq_out (<[opid := u64_saturating_add seq 1]> (cr_op_seq_out runtime)) runtime).

(** The entry is created even when the sequence is refused. *)
Definition admit_op_seq_in (runtime : ChannelRuntime) (opid : bytes) (sequence : Z) : bool * ChannelRuntime :=
  let entry := or_else (cr_op_seq_in runtime !! opid) 0 in
  if negb (sequence =? entry) then (false, with_op_seq_in (<[opid := entry]> (cr_op_seq_in runtime)) runtime)
  else (true, with_op_seq_in (<[opid := u64_saturating_add sequence 1]> (cr_op_seq_in runtime)) runtime).

(** What both operation handlers do first: the runtime, the operation id and
    the inbound sequence. *)
Definition admit_operation (frame : DecodedFrame) : Conn (ChannelRuntime * bytes) :=
  runtime <~ runtime_or_close (df_channel_id frame) ;;
  opid <~ match conn_operation_id frame with
          | Some opid => ret opid
          | None => fail_with (protocol_violation "missing_operation_id" 0 25)
          end ;;
  let '(admitted, runtime) := admit_op_seq_in runtime opid (df_sequence frame) in
  put_runtime (df_channel_id frame) runtime ;;~
  (if admitted then ret tt else fail_with (protocol_violation "reliable_sequence_mismatch" 8 25)) ;;~
  require_application frame ;;~
  ret (runtime, opid).

Definition app_header (opcode channel_id sequence priority : Z) : FrameHeader :=
  {| fh_version := 0; fh_opcode := opcode; fh_flags := FLAG_ROS_RELIABLE; fh_channel_id := channel_id;
     fh_sequence := sequence; fh_source_time_ns := 0; fh_priority := priority; fh_clock_id := 0 |}.

(** The answer of a call or a goal, framed under the next outbound sequence. *)
Definition push_answer (opcode channel_id priority : Z) (opid answer : bytes) : Conn unit :=
  channels <~ conn_ cn_channels ;;
  match channels !! channel_id with
  | None => return_
  | Some runtime =>
      let '(seq, runtime) := next_op_seq_out runtime opid in
      put_runtime channel_id runtime ;;~
      push_app_frame (app_header opcode channel_id seq priority) (Some opid) answer ;;~
      ret tt
  end.

Definition handle_service_frame (frame : DecodedFrame) (inbound : bytes) : Conn unit :=
  admitted <~ admit_operation frame ;;
  let '(runtime, opid) := admitted in
  let entity := cr_entity runtime in
  let channel_id := df_channel_id frame in
  payload <~ frame_payload_bytes inbound frame ;;
  match cr_kind runtime with
  | ServiceClient =>
      if df_opcode frame =? OPCODE_SERVICE_REQUEST then
        r <~ backend_ (call entity opid payload) ;;
        match r with
        | inl response => push_answer OPCODE_SERVICE_RESPONSE channel_id (cr_priority runtime) opid response
        | inr _ => report_backend_error channel_id r
        end
      else ret tt
  | ServiceServer =>
      if df_opcode frame =? OPCODE_SERVICE_RESPONSE then
        r <~ backend_ (send_service_response entity opid payload) ;;
        report_backend_error channel_id r
      else ret tt
  | _ => ret tt
  end.

Definition handle_action_frame (frame : DecodedFrame) (inbound : bytes) : Conn unit :=
  admitted <~ admit_operation frame ;;
  let '(runtime, opid) := admitted in
  let entity := cr_entity runtime in
  let channel_id := df_channel_id frame in
  let opcode := df_opcode frame in
  payload <~ frame_payload_bytes inbound frame ;;
  match cr_kind runtime with
  | ActionClient =>
      if opcode =? OPCODE_ACTION_GOAL then
        r <~ backend_ (send_action_goal entity opid payload) ;;
        match r with
        | inl result => push_answer OPCODE_ACTION_RESULT channel_id (cr_priority runtime) opid result
        | inr _ => report_backend_error channel_id r
        end
      else if opcode =? OPCODE_ACTION_CANCEL then
        r <~ backend_ (cancel_action entity opid payload) ;;
        report_backend_error channel_id r
      else ret tt
  | ActionServer =>
      if opcode =? OPCODE_ACTION_FEEDBACK then
        r <~ backend_ (send_action_feedback entity opid payload) ;; report_backend_error channel_id r
      else if opcode =? OPCODE_ACTION_RESULT then
        r <~ backend_ (send_action_result entity opid payload) ;; report_backend_error channel_id r
      else if opcode =? OPCODE_ACTION_STATUS then
        r <~ backend_ (send_action_status entity opid payload) ;; report_backend_error channel_id r
      else ret tt
  | _ => ret tt
  end.

Definition handle_frame (b : bytes) : Conn unit :=
  frame <~ match parse_frame b (Some frame_options) with
           | Ok frame => ret frame
           | Err err => fail_with err
           | Panic => panic
           end ;;
  r <~ session_ (ingest_frame frame) ;;
  effects <~ match r with inl effects => ret effects | inr err => fail_with err end ;;
  let opcode := df_opcode frame in
  if opcode =? OPCODE_CONTROL_CBOR then
    seq <~ conn_ cn_control_seq_in ;;
    (if negb (df_sequence frame =? seq) then fail_with (protocol_violation "control_sequence_mismatch" 8 25)
     else ret tt) ;;~
    next <~ plus_one seq ;;
    on_conn (set_control_seq_in next) ;;~
    match df_payload frame with
    | Frame.Control msg => call_fn (handle_control msg effects)
    | Application _ => close ;;~ return_
    end
  else if opcode =? OPCODE_ROS_SAMPLE then call_fn (handle_publish_sample frame b)
  else if (opcode =? OPCODE_SERVICE_REQUEST) || (opcode =? OPCODE_SERVICE_RESPONSE) then
    call_fn (handle_service_frame frame b)
  else if is_action_opcode opcode then call_fn (handle_action_frame frame b)
  else ret tt.

Definition handle_inbound (b : bytes) : Conn unit :=
  on_out (fun _ => no_outcome) ;;~
  phase <~ conn_ (fun c => ss_phase (cn_session c)) ;;
  if is_terminal phase then close ;;~ return_
  else if negb (in_selected_plane phase) then call_fn (handle_bootstrap b) ;;~ return_
  else call_fn (handle_frame b).

(** ** What arrives from the ROS side *)

Definition frame_sample (sample : SubscriptionSample) : Conn (option bytes) :=
  channels <~ conn_ cn_channels ;;
  match channels !! ss_channel_id sample with
  | None => ret None
  | Some runtime =>
      if negb (bool_decide (cr_kind runtime = TopicSubscribe)) then ret None
      else
        assert_debug (SAMPLE_HEADER_PREFIX <=? blen (ss_frame_buf sample)) ;;~
        let payload_len := usize_sub (blen (ss_frame_buf sample)) SAMPLE_HEADER_PREFIX in
        let header := {| fh_version := 0; fh_opcode := OPCODE_ROS_SAMPLE;
                         fh_flags := if cr_reliable runtime then FLAG_ROS_RELIABLE else 0;
                         fh_channel_id := ss_channel_id sample; fh_sequence := cr_seq_out runtime;
                         fh_source_time_ns := 0; fh_priority := cr_priority runtime; fh_clock_id := 0 |} in
        match write_frame_header header (as_unsigned 32 payload_len) 0 (ss_frame_buf sample) with
        | Err _ => ret None
        | Panic => panic
        | Ok frame_buf =>
            next <~ plus_one (cr_seq_out runtime) ;;
            put_runtime (ss_channel_id sample) (with_seq_out next runtime) ;;~
            telemetry record_sample_framed ;;~
            ret (Some frame_buf)
        end
  end.

(** A queue operation; its [debug_assert!] failures are the queue's panics. *)
Definition queue_ (m : SampleWriteQueue -> outcome Empty_set SampleWriteQueue) : Conn unit :=
  q <~ gets w_queue ;;
  match m q with Ok q' => set_queue q' | Err e => match e with end | Panic => panic end.

Definition admit_sample (sample : SubscriptionSample) : Conn unit :=
  channels <~ conn_ cn_channels ;;
  match channels !! ss_channel_id sample with
  | None => return_
  | Some runtime =>
      if negb (bool_decide (cr_kind runtime = TopicSubscribe)) then return_
      else
        let channel_id := ss_channel_id sample in
        let frame_len := blen (ss_frame_buf sample) in
        q <~ gets w_queue ;;
        if cr_reliable runtime then
          (if try_reserve_reliable q frame_len then ret tt
           else telemetry (add_reliable_queue_drop 1) ;;~ return_) ;;~
          frame <~ frame_sample sample ;;
          match frame with None => return_ | Some frame => queue_ (fun q => push_reliable q channel_id frame) end
        else
          frame <~ frame_sample sample ;;
          match frame with
          | None => return_
          | Some frame =>
              let before_gap := sequence_gap (dispositions q) in
              queue_ (fun q => admit_best_effort q channel_id frame) ;;~
              q <~ gets w_queue ;;
              let gap_delta := Z.max 0 (sequence_gap (dispositions q) - before_gap) in
              if 0 <? gap_delta then telemetry (add_sequence_gap gap_delta) else ret tt
          end
  end.

Definition push_service_request (request : ServiceRequest) : Conn unit :=
  let channel_id := sr_channel_id request in
  channels <~ conn_ cn_channels ;;
  match channels !! channel_id with
  | None => return_
  | Some runtime =>
      if negb (bool_decide (cr_kind runtime = ServiceServer)) then return_
      else
        let opid := sr_operation_id request in
        let '(seq, runtime) := next_op_seq_out runtime opid in
        put_runtime channel_id runtime ;;~
        payload <~ lift (request_payload request) ;;
        push_app_frame (app_header OPCODE_SERVICE_REQUEST channel_id seq (cr_priority runtime)) (Some opid) payload ;;~
        ret tt
  end.

Definition push_action_inbound (inbound : ActionInbound) : Conn unit :=
  let channel_id := inbound_channel_id inbound in
  channels <~ conn_ cn_channels ;;
  match channels !! channel_id with
  | None => return_
  | Some runtime =>
      if negb (bool_decide (cr_kind runtime = ActionServer)) then return_
      else
        let opid := inbound_operation_id inbound in
        let '(seq, runtime) := next_op_seq_out runtime opid in
        let opcode := match inbound with Goal_ _ _ _ => OPCODE_ACTION_GOAL | Cancel _ _ _ => OPCODE_ACTION_CANCEL end in
        put_runtime channel_id runtime ;;~
        payload <~ lift (inbound_payload inbound) ;;
        push_app_frame (app_header opcode channel_id seq (cr_priority runtime)) (Some opid) payload ;;~
        ret tt
  end.

Definition teardown : Conn unit :=
  channels <~ conn_ cn_channels ;;
  modify (fun w => mk_world (set_channels ∅ (w_conn w)) (w_out w) (w_queue w) (w_telemetry w) (w_session_counter w)
    (foldr (fun r b => destroy (cr_entity r) b) (w_backend w) (map snd (map_to_list channels)))).

(** ** The select loop *)

(** One branch of [tokio::select!]. *)
Inductive Event :=
| EInbound (b : bytes)
| ESample (sample : SubscriptionSample)
| ERequest (request : ServiceRequest)
| EAction (inbound : ActionInbound).

(** [flush_write_queue] over a transport that takes every message: the queued
    frames in order. *)
Fixpoint flush_write_queue (fuel : nat) (sent : list bytes) : Conn (list bytes) :=
  match fuel with
  | O => panic
  | S fuel' =>
      q <~ gets w_queue ;;
      match pop_front q with
      | (None, _) => ret sent
      | (Some frame, q') =>
          set_queue (record_delivered q') ;;~
          telemetry (add_delivered 1) ;;~
          flush_write_queue fuel' (sent ++ [frame])
      end
  end.

Definition flush_all : Conn (list bytes) :=
  q <~ gets w_queue ;; flush_write_queue (S (length (items q))) [].

(** One turn of the loop: what is sent, and whether the loop goes on.  The
    transport accepts every message here; a failed send leaves the loop. *)
Definition turn (e : Event) : Conn (list bytes * bool) :=
  match e with
  | EInbound b =>
      call_fn (handle_inbound b) ;;~
      o <~ gets w_out ;;
      if out_close o then ret (out_outbound o, false)
      else frames <~ flush_all ;; ret (out_outbound o ++ frames, true)
  | ESample sample =>
      call_fn (admit_sample sample) ;;~
      frames <~ flush_all ;;
      ret (frames, true)
  | ERequest request =>
      on_out (fun _ => no_outcome) ;;~
      call_fn (push_service_request request) ;;~
      o <~ gets w_out ;; ret (out_outbound o, negb (out_close o))
  | EAction inbound =>
      on_out (fun _ => no_outcome) ;;~
      call_fn (push_action_inbound inbound) ;;~
      o <~ gets w_out ;; ret (out_outbound o, negb (out_close o))
  end.

(** [run_connection]: the loop until a turn closes the connection or the input
    ends, then the teardown. *)
Fixpoint run_loop (events : list Event) (sent : list bytes) : Conn (list bytes) :=
  match events with
  | [] => ret sent
  | e :: events' =>
      r <~ turn e ;;
      let '(messages, go) := r in
      if go then run_loop events' (sent ++ messages) else ret (sent ++ messages)
  end.

Definition run_connection (events : list Event) : Conn (list bytes) :=
  sent <~ run_loop events [] ;; teardown ;;~ ret sent.

(** The world a connection starts in. *)
Definition connect (t : Telemetry) (session_counter : Z) (b : B) : World B :=
  mk_world conn_new no_outcome (queue_new (sample_queue_depth config) (sample_queue_max_bytes config)) t session_counter b.

End Connection.
