(* ===== verification/ConnectionSpec.v ===== *)
(** * The connection engine: contracts and invariant

    What the connection relies on (the ROS backend's answers, verified
    tokens), what a parsed frame guarantees its handlers, that every protocol
    error can be reported on the wire, and the invariant the connection keeps
    between turns with the session steps that preserve it. *)

From stdpp Require Import gmap.
From S2P Require Import Prelude Utf8 ProtocolError Cbor Extension ControlSchema Control Frame Bootstrap Accept Session.
From S2P Require Import SessionProofs Budgets Policy Backend Builders BuilderProofs Auth Connection.
Import ControlSchema.Schema(CONTROL_KIND_OPEN_CHANNEL, CONTROL_KIND_CLOSE_CHANNEL).
#[local] Open Scope Z_scope.

(** ** Contracts *)

Definition backend_error_ok (e : BackendError) : Prop := wire_code (err_code e) /\ any_text (err_message e).

(** Whatever the state, [m] answers a value satisfying [P] or a reportable error. *)
Definition answers {B A} (P : A -> Prop) (m : Method B A) : Prop :=
  forall b, match fst (m b) with inl a => P a | inr e => backend_error_ok e end.

Definition anything {A} (_ : A) : Prop := True.

(** What a ROS backend promises: error codes of the wire registry, messages the
    protocol can carry, byte answers, graph rows with distinct ids. *)
Class RosBackendLaws `{Target} (B : Type) `{!RosBackend B} : Prop := {
  law_create_subscription spec : answers anything (create_subscription (B := B) spec);
  law_create_publisher spec : answers anything (create_publisher (B := B) spec);
  law_publish entity payload : answers anything (publish (B := B) entity payload);
  law_create_client spec : answers anything (create_client (B := B) spec);
  law_create_service spec : answers anything (create_service (B := B) spec);
  law_call entity opid request : answers rust_slice (call (B := B) entity opid request);
  law_send_service_response entity opid response : answers anything (send_service_response (B := B) entity opid response);
  law_create_action_client spec : answers anything (create_action_client (B := B) spec);
  law_create_action_server spec : answers anything (create_action_server (B := B) spec);
  law_send_action_goal entity opid request : answers rust_slice (send_action_goal (B := B) entity opid request);
  law_cancel_action entity opid request : answers rust_slice (cancel_action (B := B) entity opid request);
  law_send_action_feedback entity opid payload : answers anything (send_action_feedback (B := B) entity opid payload);
  law_send_action_result entity opid payload : answers anything (send_action_result (B := B) entity opid payload);
  law_send_action_status entity opid payload : answers anything (send_action_status (B := B) entity opid payload);
  law_graph_view : answers view_ok (graph_view (B := B))
}.

(** What the gateway assumes of a verified token: a subject SessionReady can carry. *)
Class JwtLaws `{JwtLibrary} : Prop := {
  law_subject token key header iss aud sub :
    decode_subject token key header iss aud = Some sub -> nonempty_text sub
}.

Lemma create_entity_answers `{RosBackendLaws B} kind spec : answers anything (create_entity (B := B) kind spec).
Proof.
  destruct kind; [apply law_create_subscription | apply law_create_publisher | apply law_create_client
    | apply law_create_service | apply law_create_action_client | apply law_create_action_server].
Qed.

(** ** Every error can be reported *)

Definition reportable (reason : string) : Prop := any_text (lit reason).

Lemma reportable_check reason :
  utf8_valid (lit reason) && (blen (lit reason) <=? 4096) = true -> reportable reason.
Proof. rewrite andb_true_iff, Z.leb_le. intros [Hu Hl]. split; [done |]. split; [apply blen_nonneg | exact Hl]. Qed.

Definition reports {A} (m : outcome ProtocolError A) : Prop :=
  match m with Err e => reportable (pe_reason e) | _ => True end.

Lemma reports_bind {A A'} (m : outcome ProtocolError A) (k : A -> outcome ProtocolError A') :
  reports m -> (forall a, reports (k a)) -> reports (obind m k).
Proof. destruct m; cbn; auto. Qed.

Lemma reports_slice {A} (l : list A) i j : reports (slice l i j).
Proof. unfold slice. by case_match. Qed.

Lemma reports_index {A} (l : list A) i : reports (index l i).
Proof. unfold index. by repeat case_match. Qed.

Lemma reports_fail_if c e : reportable (pe_reason e) -> reports (fail_if c e).
Proof. by destruct c. Qed.

Lemma reports_guard c e : reportable (pe_reason e) -> reports (Prelude.guard c e).
Proof. by destruct c. Qed.

Lemma reports_ok_or {A} (o : option A) e : reportable (pe_reason e) -> reports (ok_or o e).
Proof. by destruct o. Qed.

Lemma reports_map_extension `{Target} e base step : reportable (pe_reason (map_extension_error e base step)).
Proof. unfold map_extension_error. repeat case_match; by apply reportable_check. Qed.

Lemma reports_map_control `{Target} e base : reportable (pe_reason (map_control_error e base)).
Proof. unfold map_control_error. case_match; by apply reportable_check. Qed.

Create HintDb reports.
#[local] Hint Resolve reports_slice reports_index reports_map_extension reports_map_control : reports.

Ltac reports :=
  repeat match goal with
  | |- reports (obind _ _) => apply reports_bind; [| intros]
  | |- reports (fail_if _ _) => apply reports_fail_if
  | |- reports (ok_or _ _) => apply reports_ok_or
  | |- reports (if ?c then _ else _) => destruct c
  | |- reports (match ?x with _ => _ end) => destruct x
  | |- reports (Ok _) => exact I
  | |- reports Panic => exact I
  | |- reports (Err _) => unfold reports
  | |- reports _ => solve [auto with reports]
  | |- reportable _ => first [solve [auto with reports] | by apply reportable_check]
  end.

Lemma reports_parse_frame `{Target} bs options : reports (parse_frame bs options).
Proof.
  unfold parse_frame, parse_frame_declared, read_header, read_i64_be, read_u16_be, read_u32_be, read_u64_be, read_at,
    check_sizes, checked_add_frame, check_header,
    parse_body. cbv zeta. reports.
Qed.

(** The same for a state transformer. *)
Definition sm_reports {S A} (m : SM S ProtocolError A) : Prop :=
  forall s, match m s with (Err e, _) => reportable (pe_reason e) | _ => True end.

Lemma sm_bind {S A A'} (m : SM S ProtocolError A) (k : A -> SM S ProtocolError A') :
  sm_reports m -> (forall a, sm_reports (k a)) -> sm_reports (bind m k).
Proof.
  intros Hm Hk s. specialize (Hm s). unfold bind. destruct (m s) as [[a | e |] s']; [apply Hk | done | done].
Qed.

Lemma sm_lift {S A} (o : outcome ProtocolError A) : reports o -> sm_reports (S := S) (lift o).
Proof. intros Ho s. unfold lift. by destruct o. Qed.

Lemma sm_throw {S A} e : reportable (pe_reason e) -> sm_reports (S := S) (A := A) (throw e).
Proof. intros Hr s. exact Hr. Qed.

Lemma sm_assert f : sm_reports (debug_assert f).
Proof. intros s. unfold debug_assert. by destruct (f _). Qed.

Lemma sm_with_effects h : sm_reports h -> sm_reports (with_effects h).
Proof. intros Hh s. specialize (Hh (mk_borrows s no_effects)). unfold with_effects. destruct (h (mk_borrows s no_effects)) as [[| |] ?]; exact Hh. Qed.

Lemma sm_expect id : sm_reports (expect_entry id).
Proof. intros s. unfold expect_entry. by destruct (_ !! _). Qed.

Ltac sm_reports :=
  repeat match goal with
  | |- sm_reports (bind _ _) => apply sm_bind; [| intros]
  | |- sm_reports (lift _) => apply sm_lift
  | |- sm_reports (check _ _) => apply sm_lift
  | |- sm_reports (require _ _) => apply sm_lift
  | |- sm_reports (throw _) => apply sm_throw
  | |- sm_reports (with_effects _) => apply sm_with_effects
  | |- sm_reports (debug_assert _) => apply sm_assert
  | |- sm_reports (expect_entry _) => apply sm_expect
  | |- sm_reports (if ?c then _ else _) => destruct c
  | |- sm_reports (match ?x with _ => _ end) => destruct x
  | |- sm_reports _ => solve [intros s; exact I]
  | |- reports (Prelude.guard _ _) => apply reports_guard
  | |- reports (ok_or _ _) => apply reports_ok_or
  | |- reportable _ => by apply reportable_check
  end.

Lemma sm_control_handler msg : sm_reports (control_handler msg).
Proof.
  unfold control_handler, apply_authenticate, apply_session_ready, apply_error, apply_error_ready, apply_open_channel,
    apply_channel_ready, apply_close_channel, apply_graph_snapshot, apply_graph_delta, note_channel_match, set_channel_state.
  cbv zeta. sm_reports.
Qed.

Lemma sm_apply_frame frame sender : sm_reports (apply_frame frame sender).
Proof.
  unfold apply_frame, apply_control, reject_if_wrong_sender, apply_ros_sample, apply_service_action_frame, check_ready,
    apply_data_channel_gates, check_operation_id. sm_reports; apply sm_control_handler.
Qed.

(** ** What the handlers know of a parsed frame *)

Record frame_ok `{Target} (b : bytes) (f : DecodedFrame) : Prop := {
  fo_channel : 0 <= df_channel_id f <= u32_max;
  fo_sequence : 0 <= df_sequence f <= u64_max;
  fo_parts : 0 <= df_extension_len f /\ 0 <= df_payload_len f;
  fo_size : 32 + df_extension_len f + df_payload_len f = blen b;
  fo_extensions : Forall ext_ok (df_extensions f);
  fo_payload : match df_payload f with
               | Frame.Control m => df_opcode f = OPCODE_CONTROL_CBOR /\
                   exists raw, rust_slice raw /\ decode_control_message raw = Ok m
               | Application data => df_opcode f <> OPCODE_CONTROL_CBOR /\
                   data = sub_list b (32 + df_extension_len f) (df_payload_len f)
               end
}.

Section Frames.
Context `{Target}.

Lemma parse_frame_total b opts : rust_slice b -> is_panic (parse_frame b (Some opts)) = false.
Proof.
  intros Hb. unfold parse_frame. destruct (parse_frame_spec opts b (blen b) Hb) as [Hc _].
  by destruct (parse_frame_declared b (blen b) (Some opts)).
Qed.

Lemma parsed_frame b opts f : rust_slice b -> parse_frame b (Some opts) = Ok f -> frame_ok b f.
Proof.
  intros Hb Hp. unfold parse_frame in Hp. destruct (parse_frame_spec opts b (blen b) Hb) as [Hc Hf]. rewrite Hp in Hc.
  destruct (Hf f Hp) as (p & body & Hpre & [Hext Hbody] & ->). pose proof (Hc 1 ltac:(lia)) as Hlen. cbn [step_ok] in Hlen.
  pose proof (header_of_typed b (proj1 Hb) Hlen) as [_ Hop _ Hch Hsq _ Hpl Hex _ _].
  unfold is_unsigned, is_byte in *. destruct (Hc 4 ltac:(lia)) as [Hsize _].
  assert (Hfull : p = false).
  { destruct p; [| done]. destruct (proj1 Hpre eq_refl) as (? & ? & _). lia. }
  destruct (area_slice opts b (blen b) Hb Hlen (Hc 4 ltac:(lia))) as (Har & _).
  split; cbn [frame_of df_channel_id df_sequence df_extension_len df_payload_len df_extensions df_payload df_opcode];
    try (unfold u32_max, u64_max; lia).
  - pose proof (decode_area_sound _ Har) as Ha. rewrite Hext in Ha. destruct Ha as (exts & (Hok & _) & _ & _ & ->).
    rewrite Forall_forall in *. intros e He. apply Hok. apply list_elem_of_In in He. apply filter_In in He as [He _].
    by apply list_elem_of_In.
  - destruct (Z.eqb_spec (h_opcode (header_of b)) 1) as [Ho | Ho].
    + destruct Hbody as (m & Hm & ->). split; [exact Ho |]. exists (payload_of b (header_of b)). split; [| done].
      apply (payload_slice opts b (blen b) p Hb Hlen (Hc 4 ltac:(lia)) Hpre). by left.
    + rewrite Hbody, Hfull. by split.
Qed.

Lemma operation_id_bytes exts opid : Forall ext_ok exts -> operation_id_of exts = Some opid -> id_bytes 16 opid.
Proof.
  induction 1 as [| e exts He _ IH]; cbn [operation_id_of]; [done |].
  destruct (_ && _) eqn:E; [| exact IH]. intros [= <-]. apply andb_true_iff in E as [_ El]. apply Z.eqb_eq in El.
  split; [apply He | done].
Qed.

End Frames.

(** ** The invariant between turns *)

(** What a sequence counter holds. *)
Definition is_sequence (n : Z) : Prop := 0 <= n <= u64_max.

Record runtime_ok (r : ChannelRuntime) : Prop := {
  rt_priority : 0 <= cr_priority r <= 4;
  rt_seq_out : is_sequence (cr_seq_out r);
  rt_seq_in : is_sequence (cr_seq_in r);
  rt_op_seq_out : map_Forall (fun _ n => is_sequence n) (cr_op_seq_out r);
  rt_op_seq_in : map_Forall (fun _ n => is_sequence n) (cr_op_seq_in r)
}.

(** The kind of an active channel. *)
Definition active_kind (s : SessionState) (id : Z) : option OperationKind :=
  match ss_channels s !! id with
  | Some e => if bool_decide (ce_state e = Active) then Some (ce_operation_kind e) else None
  | None => None
  end.

(** The runtimes are the active channels of the session, with their kind. *)
Definition channels_agree (channels : gmap Z ChannelRuntime) (s : SessionState) : Prop :=
  forall id, cr_kind <$> channels !! id = active_kind s id.

(** What holds of the connection state at any point of a turn. *)
Record conn_core (c : ConnState) : Prop := {
  cc_role : ss_role (cn_session c) = Server;
  cc_session : session_wf (cn_session c);
  cc_hello : match cn_server_hello c with Some h => server_ok h | None => True end;
  cc_channels : channels_agree (cn_channels c) (cn_session c);
  cc_runtimes : map_Forall (fun id r => 1 <= id <= u32_max /\ runtime_ok r) (cn_channels c);
  cc_out : is_sequence (cn_control_seq_out c);
  cc_in : is_sequence (cn_control_seq_in c);
  cc_heartbeat : is_sequence (cn_heartbeat_counter c)
}.

(** Between turns the gateway waits in one of three phases; once ready it has
    sent a graph snapshot whose generation it shares with the session. *)
Definition phase_ok (c : ConnState) : Prop :=
  cn_graph_generation c = ss_graph_generation (cn_session c) /\
  match ss_phase (cn_session c) with
  | AwaitClientHello => cn_server_hello c = None
  | SelectedAwaitAuthenticate => is_Some (cn_server_hello c)
  | Ready => exists g, cn_graph_generation c = Some g /\ 1 <= g <= u64_max
  | _ => False
  end.

Definition conn_wf (c : ConnState) : Prop := conn_core c /\ phase_ok c.

(** ** Session steps and the runtimes *)

Lemma active_kind_state s id k : active_kind s id = Some k -> channel_state s id = Active.
Proof. unfold active_kind, channel_state, table_state. destruct (_ !! id); [| done]. by case_bool_decide. Qed.

Lemma active_kind_entry s id e :
  ss_channels s !! id = Some e -> ce_state e = Active -> active_kind s id = Some (ce_operation_kind e).
Proof. unfold active_kind. intros -> ->. done. Qed.

Lemma active_kind_set s id e c i :
  ss_channels s !! id = Some e ->
  active_kind (set_channel id c s) i =
    if decide (i = id) then if bool_decide (c = Active) then Some (ce_operation_kind e) else None
    else active_kind s i.
Proof.
  intros He. unfold active_kind. destruct (decide (i = id)) as [-> |].
  - by rewrite (set_channel_at id c s e He).
  - by rewrite set_channel_other by done.
Qed.

(** A channel that was not active can be opened, or fail, without a runtime. *)
Lemma agree_unopened channels s s' id :
  channels_agree channels s -> active_kind s id = None -> active_kind s' id = None ->
  (forall i, i <> id -> active_kind s' i = active_kind s i) -> channels_agree channels s'.
Proof.
  intros Ha Hid Hid' Hs i. rewrite Ha. destruct (decide (i = id)) as [-> |]; [congruence | by rewrite Hs].
Qed.

Lemma agree_pending channels s id e :
  channels_agree channels s -> ss_channels s !! id = None -> ce_state e = Pending ->
  channels_agree channels (with_channels (<[id := e]> (ss_channels s)) s).
Proof.
  intros Ha Hn He. apply (agree_unopened channels s _ id Ha).
  - unfold active_kind. by rewrite Hn.
  - unfold active_kind. cbn. rewrite lookup_insert_eq. by rewrite He.
  - intros i Hi. unfold active_kind. cbn. by rewrite lookup_insert_ne.
Qed.

Lemma agree_failed channels s id e :
  channels_agree channels s -> ss_channels s !! id = Some e -> ce_state e = Pending ->
  channels_agree channels (set_channel id ChFailed s).
Proof.
  intros Ha He Hst. apply (agree_unopened channels s _ id Ha).
  - unfold active_kind. rewrite He. by rewrite Hst.
  - rewrite (active_kind_set s id e) by done. by destruct (decide (id = id)).
  - intros i Hi. rewrite (active_kind_set s id e) by done. by destruct (decide (i = id)).
Qed.

Lemma agree_active channels s id e r :
  channels_agree channels s -> ss_channels s !! id = Some e -> cr_kind r = ce_operation_kind e ->
  channels_agree (<[id := r]> channels) (set_channel id Active s).
Proof.
  intros Ha He Hk i. rewrite (active_kind_set s id e) by done. destruct (decide (i = id)) as [-> |].
  - rewrite lookup_insert_eq. cbn. by rewrite Hk.
  - by rewrite lookup_insert_ne, Ha.
Qed.

Lemma agree_closed channels s id e :
  channels_agree channels s -> ss_channels s !! id = Some e ->
  channels_agree (delete id channels) (set_channel id Closed s).
Proof.
  intros Ha He i. rewrite (active_kind_set s id e) by done. destruct (decide (i = id)) as [-> |].
  - by rewrite lookup_delete_eq.
  - by rewrite lookup_delete_ne, Ha.
Qed.

(** Updating a runtime in place. *)
Lemma agree_put channels s id r r' :
  channels_agree channels s -> channels !! id = Some r -> cr_kind r' = cr_kind r ->
  channels_agree (<[id := r']> channels) s.
Proof.
  intros Ha Hr Hk i. destruct (decide (i = id)) as [-> |].
  - rewrite lookup_insert_eq, <- Ha, Hr. cbn. by rewrite Hk.
  - by rewrite lookup_insert_ne.
Qed.

Lemma agree_same channels s s' :
  channels_agree channels s -> ss_channels s' = ss_channels s -> channels_agree channels s'.
Proof. intros Ha Hs i. rewrite Ha. unfold active_kind. by rewrite Hs. Qed.
