(* ===== verification/RosTheorems.v ===== *)
(** * The ROS attachment thread: theorems

    Whatever commands come and however its calls nest, the worker never panics, and
    answers every command once and as the connections rely on; it ends once the
    senders are gone, and then every entity it created has been finalized once. *)

From Stdlib Require Import Sorting.Permutation.
From stdpp Require Import gmap.
From S2P Require Import Prelude Utf8 Policy Backend ConnectionSpec Typesupport Rcl RosWorker RosProofs RosSafety RosService.
#[local] Open Scope Z_scope.

(** ** The contract of the connections *)

Section Contract.
Context `{Target}.

(** An answer the connections can rely on. *)
Definition meets {A} (P : A -> Prop) (r : A + BackendError) : Prop := match r with inl a => P a | inr e => backend_error_ok e end.
Definition effect_meets (e : Effect) : Prop :=
  match e with
  | Reply _ (AnEntity r) => meets anything r
  | Reply _ (Done r) => meets anything r
  | Reply _ (SomeBytes r) => meets rust_slice r
  | Reply _ (Topics r) => meets anything r
  | Reply _ (View r) => meets anything r
  | SendSample _ s => exists payload, ss_frame_buf s = prefixed payload
  | _ => True
  end.

Lemma backend_text_ok e : backend_text e -> backend_error_ok e.
Proof.
  intros [Hc [Hu Hl]]. split; [unfold BuilderProofs.wire_code; lia |]. split; [done |]. split; [apply blen_nonneg | done].
Qed.
Lemma either_meets {A} (P : A -> Prop) (r : A + BackendError) : either P r -> meets P r.
Proof. destruct r; [done | apply backend_text_ok]. Qed.
Lemma effect_ok_meets e : effect_ok e -> effect_meets e.
Proof. by destruct e as [c [r | r | r | r | r] | | | | |]; cbn; try apply either_meets. Qed.

End Contract.

(** ** The end of the worker *)

Section Ending.
#[local] Set Default Proof Using "Type*".
Context `{RclLaws} `{Linker}.
Abbreviation Work := (SM Worker BackendError).
Variables (env : RosEnv) (domain_id pid : Z) (guard : option Z).

Definition finishing (p : EntityKind * Z) : Effect := Finished p.1 p.2.

Lemma finishing_finished l : finished_in (map finishing l) = l.
Proof. induction l as [| [k h] l IH]; cbn; [done |]. f_equal. exact IH. Qed.
Lemma finishing_created l : created_in (map finishing l) = [].
Proof. by induction l as [| [k h] l IH]. Qed.
Lemma finishing_replied l : replied_in (map finishing l) = [].
Proof. by induction l as [| [k h] l IH]. Qed.
Lemma finishing_ok l : Forall effect_ok (map finishing l).
Proof. induction l as [| [k h] l IH]; cbn; [constructor | by constructor]. Qed.

(** [m] finalizes [l], in this order, and does nothing else. *)
Definition finalizes (m : Work unit) (l : list (EntityKind * Z)) : Prop :=
  forall w, exists w', m w = (Ok tt, w') /\ wk_effects w' = wk_effects w ++ map finishing l /\ all_commands w' = all_commands w.

Lemma finalizes_then m k l1 l2 : finalizes m l1 -> finalizes k l2 -> finalizes (m ;;~ k) (l1 ++ l2).
Proof.
  intros Hm Hk w. destruct (Hm w) as (w1 & E1 & F1 & C1). destruct (Hk w1) as (w2 & E2 & F2 & C2). exists w2. unfold bind. rewrite E1.
  split; [done |]. split; [by rewrite F2, F1, map_app, app_assoc | by rewrite C2].
Qed.

Lemma finalizes_each {A} kind (h : A -> Z) (f : A -> Work unit) xs :
  (forall x, ends (f x) kind (h x)) -> finalizes (each xs f) (map (fun x => (kind, h x)) xs).
Proof.
  intros Hf. induction xs as [| x xs IH]; cbn [each map].
  - intros w. exists w. by rewrite app_nil_r.
  - apply (finalizes_then _ _ [(kind, h x)]); [| done]. intros w. destruct (Hf x w) as (nd & _ & ->). by eexists.
Qed.

Lemma teardown_finalizes w : exists w', teardown w = (Ok tt, w') /\
  wk_effects w' = wk_effects w ++ map finishing (handles (wk_entities w)) /\ all_commands w' = all_commands w.
Proof.
  unfold teardown. unfold bind at 1, entities_ at 1, gets. unfold bind at 1, on_entities at 1, modify.
  set (e := wk_entities w). match goal with |- context [?m (set_entities _ w)] => assert (Hm : finalizes m (handles e)) end.
  { unfold handles. repeat (apply finalizes_then; [by apply finalizes_each; intros; first [apply finish_ends | apply finish_server_ends] |]).
    rewrite <- (app_nil_r (map _ (values (en_action_servers e)))).
    apply finalizes_then; [apply finalizes_each; intros; apply finish_server_ends |].
    intros w'. eexists. split; [reflexivity |]. cbn. by rewrite app_nil_r. }
  exact (Hm (set_entities no_entities w)).
Qed.

Lemma fresh_balanced node ws arrivals : balanced [] (worker_new node ws arrivals).
Proof. unfold balanced, handles, values. cbn. by rewrite !map_to_list_empty. Qed.

(** ** The loop ends *)

(** The senders go once, at the last arrival. *)
Inductive closing : bool * list (list Command * bool) -> Prop :=
| closing_gone : closing (true, [])
| closing_last commands : closing (false, [(commands, true)])
| closing_later commands rest : closing (false, rest) -> closing (false, (commands, false) :: rest).

Lemma closing_arrival i i' : rtc arrival i i' -> closing i -> closing i'.
Proof.
  induction 1 as [| i1 i2 i3 Ha _ IH]; [done |]. intros Hc. apply IH. destruct Ha. inversion Hc; subst; cbn; [constructor | done].
Qed.

Lemma closing_left w : closing (inbox w) -> wk_hung_up w = false -> wk_arrivals w <> [].
Proof. unfold inbox. intros Hc Hh. rewrite Hh in Hc. by inversion Hc. Qed.
Lemma closing_done w : closing (inbox w) -> wk_hung_up w = true -> wk_arrivals w = [].
Proof. unfold inbox. intros Hc Hh. rewrite Hh in Hc. by inversion Hc. Qed.

Lemma run_ends turns n b w : good n b w -> closing (inbox w) -> (length (wk_arrivals w) < turns)%nat ->
  exists w', run env domain_id pid guard turns w = (Ok true, w') /\ (waits_work -> all_commands w' = []).
Proof.
  revert w. induction turns as [| turns IH]; intros w Hg Hc Ht; [lia |]. cbn [run]. unfold bind at 1.
  pose proof (drain_commands_runs env domain_id pid guard n b w Hg) as Hd. pose proof (drained env domain_id pid guard (S (length (all_commands w))) w) as Hq.
  unfold drain_commands in *. destruct (drain _ _ _ _ _ w) as [[open | e |] w1]; [| by destruct Hd as (_ & _ & _ & []) | by destruct Hd as (_ & _ & _ & [])].
  destruct Hd as (Hev & Hg1 & _). destruct (Hq open w1 eq_refl) as [Hqueue ->].
  pose proof (closing_arrival _ _ (ev_inbox _ _ Hev) Hc) as Hc1. pose proof (arrivals_less _ _ (ev_inbox _ _ Hev)) as Hl. cbn in Hl.
  destruct (wk_hung_up w1) eqn:Eh; cbn [negb].
  - exists w1. split; [done |]. intros _. unfold all_commands. by rewrite Hqueue, closing_done.
  - pose proof (closing_left _ Hc1 Eh) as Hne. pose proof (wait_and_pump_runs guard n b w1 Hg1) as Hw. unfold bind, attempt.
    destruct (wait_and_pump guard w1) as [[u | e |] w2]; [| | by destruct Hw as (_ & _ & _ & [])].
    + destruct Hw as (Hev2 & Hg2 & _ & Hl2). apply IH; [done | by eapply closing_arrival; [apply Hev2 |] |].
      destruct (wk_arrivals w1) as [| a rest]; [done |]. cbn in *. lia.
    + destruct Hw as (_ & _ & _ & _ & Hnw). by exists w2.
Qed.

End Ending.

(** ** What the worker promises *)

Section Promises.
#[local] Set Default Proof Using "All".
Context `{RclLaws} `{Linker}.
Variables (env : RosEnv) (domain_id pid : Z) (guard : option Z) (node : Node) (ws : WaitSet).
Variable arrivals : list (list Command * bool).

Definition the_worker : Worker := worker_new node ws arrivals.
Definition the_commands : list Command := concat (map fst arrivals).

Hypothesis Hservable : Forall servable the_commands.
Hypothesis Hcount : blen the_commands <= u64_max.

Lemma the_worker_good : good (S (length the_commands)) 0 the_worker.
Proof.
  unfold the_commands in *. split; unfold all_commands; cbn -[u64_max]; [lia | done | | lia].
  repeat split; apply map_Forall_empty.
Qed.

Lemma entry_outcome turns : exists ended w, worker_entry env domain_id pid guard turns the_worker = (Ok ended, w) /\
  replied_in (wk_effects w) ++ map awaited (all_commands w) ≡ₚ map awaited the_commands /\
  Forall effect_meets (wk_effects w) /\
  (ended = true -> created_in (wk_effects w) ≡ₚ finished_in (wk_effects w)) /\
  (closing (false, arrivals) -> (length arrivals < turns)%nat -> ended = true /\ (waits_work -> all_commands w = [])).
Proof.
  unfold worker_entry, bind. pose proof the_worker_good as Hg. pose proof (run_runs env domain_id pid guard _ turns 0 _ Hg) as Hr.
  pose proof (run_ends env domain_id pid guard turns _ 0 _ Hg) as He.
  destruct (run env domain_id pid guard turns the_worker) as [[ended | e |] w]; [| by destruct Hr as (_ & _ & _ & []) | by destruct Hr as (_ & _ & _ & [])].
  destruct Hr as ([_ _ _ _ _ (new & Heff & Hok) Hbal _] & _ & Hc & _). cbn in Heff.
  specialize (Hbal [] (fresh_balanced node ws arrivals)). rewrite <- Heff in Hok.
  assert (Hend : closing (false, arrivals) -> (length arrivals < turns)%nat -> ended = true /\ (waits_work -> all_commands w = [])).
  { intros Hcl Hl. destruct (He Hcl Hl) as (w2 & E & Hall). injection E as -> ->. done. }
  destruct ended.
  - destruct (teardown_finalizes w) as (w' & -> & Hf & Ha). exists true, w'. split; [done |]. rewrite Hf, Ha. split_and!.
    + unfold replied_in. rewrite flat_map_app. fold (replied_in (map finishing (handles (wk_entities w)))).
      rewrite finishing_replied, app_nil_r. exact Hc.
    + apply Forall_app_2; eapply Forall_impl; [exact Hok | apply effect_ok_meets | apply finishing_ok | apply effect_ok_meets].
    + intros _. unfold created_in, finished_in. rewrite !flat_map_app. fold (created_in (map finishing (handles (wk_entities w)))).
      fold (finished_in (map finishing (handles (wk_entities w)))). rewrite finishing_created, finishing_finished, app_nil_r.
      unfold balanced in Hbal. rewrite app_nil_r in Hbal. exact Hbal.
    + done.
  - exists false, w. split; [done |]. split; [exact Hc |]. split; [eapply Forall_impl; [exact Hok | apply effect_ok_meets] |]. split; [done |].
    intros Hcl Hl. by destruct (Hend Hcl Hl).
Qed.



End Promises.

(** ** A small library *)

Module Demo.
Import Typesupport.DemoLinker.

(** The clock, the last handle, and the samples to take; every wait brings one. *)
Record DemoNode := demo_node { dn_clock : Z; dn_last : Z; dn_samples : list bytes }.

(** A call that works answers so. *)
Definition demo_answer (next : Z) {A} (f : CFun A) : A :=
  let header := mk_request_id (zeros 16) next in
  match f in CFun A return A with
  | ts_create _ => next | rmw_deserialize _ _ _ => tt | rmw_serialize _ _ => [0; 1; 0; 0; 5]
  | rcl_init _ _ _ _ => next | rcl_clock_init => next | rcl_publish_serialized_message _ _ => tt
  | rcl_take_serialized_message _ => None | rcl_send_request _ _ => next | rcl_take_response _ _ => Some header
  | rcl_take_request _ _ => None | rcl_send_response _ _ _ => tt
  | rcl_action_send_goal_request _ _ => next | rcl_action_take_goal_response _ _ => Some header
  | rcl_action_send_result_request _ _ => next | rcl_action_take_result_response _ _ => Some header
  | rcl_action_send_cancel_request _ _ => next | rcl_action_take_cancel_response _ _ => Some header
  | rcl_action_client_wait_set_get_num_entities _ => (0, 0, 3, 0)
  | rcl_action_take_goal_request _ _ => None | rcl_action_accept_new_goal _ _ => next
  | rcl_action_send_goal_response _ _ _ => tt | rcl_action_take_result_request _ _ => None
  | rcl_action_send_result_response _ _ _ => tt | rcl_action_update_goal_state _ _ => tt
  | rcl_action_notify_goal_done _ => tt | rcl_action_publish_feedback _ _ => tt
  | rcl_action_get_goal_status_array _ => next | rcl_action_publish_status _ _ => tt
  | rcl_action_take_cancel_request _ _ => None | rcl_action_process_cancel_request _ _ _ => tt
  | rcl_action_send_cancel_response _ _ _ => tt
  | rcl_wait_set_init _ _ _ _ => next | rcl_wait_set_clear _ => tt | rcl_wait_set_add _ _ _ => tt
  | rcl_wait_set_add_guard_condition _ _ => tt | rcl_wait _ _ => Some ([true], [])
  | rcl_names_and_types _ => [(lit "/chatter", [lit "std_msgs/msg/String"])]
  end.

Definition demo_call A (f : CFun A) (n : DemoNode) : (A + Z) * DemoNode :=
  let next := dn_last n + 1 in
  match f in CFun A return (A + Z) * DemoNode with
  | rcl_take_serialized_message _ =>
      match dn_samples n with
      | [] => (inl None, n)
      | x :: rest => (inl (Some x), demo_node (dn_clock n) (dn_last n) rest)
      end
  | rcl_wait ws t => (inl (demo_answer next (rcl_wait ws t)), demo_node (dn_clock n + 1) (dn_last n) ([7] :: dn_samples n))
  | f => (inl (demo_answer next f), demo_node (dn_clock n) next (dn_samples n))
  end.

#[export] Instance demo_target : Target := Native64.
#[export] Instance demo_rcl : RclLibrary := {|
  c_call := demo_call;
  c_proc _ n := n;
  now := dn_clock;
  error_string _ := lit "error not set";
  load16 _ _ := zeros 16;
  load_bool _ _ := true;
  zero_initialized_cancel_response _ := 0;
  backlog n := length (dn_samples n)
|}.
#[export] Instance demo_rcl_laws : RclLaws.
Proof.
  split.
  - intros n. split; [reflexivity | by vm_compute].
  - intros ts msg n bs n' E. cbn in E. injection E as <- _. split; [| by vm_compute]. repeat (apply Forall_cons_2; [unfold is_byte; lia |]). constructor.
  - intros A f n. destruct f; cbn; try lia. by destruct (dn_samples n).
  - intros f n. cbn. lia.
  - intros ws t n. cbn. lia.
  - intros A f n Hf. destruct f; cbn in *; try lia; try done. destruct (dn_samples n) eqn:Es; cbn; rewrite ?Es; cbn; lia.
  - intros f n. cbn. lia.
  - intros A f n a n' E Ht. destruct f; cbn in E, Ht; try done; try (injection E as <- <-; by vm_compute in Ht).
    destruct (dn_samples n) as [| x rest] eqn:Es; injection E as <- <-; [done |]. cbn. rewrite Es. cbn. lia.
Qed.

Lemma demo_waits_work : waits_work.
Proof. intros A f n Hf. destruct f; try done; by eexists. Qed.

Definition demo_env : RosEnv := mk_ros_env None None.
Definition demo_qos : EffectiveQos := mk_effective true false false 10 false.
Definition on_topic (name type_name : string) : ChannelSpec := mk_spec 1 (lit name) (lit type_name) demo_qos.

(** A subscription and a client; then a call with the client's destruction behind it. *)
Definition demo_arrivals : list (list Command * bool) :=
  [([mk_command (CreateSubscription (on_topic "/chatter" "std_msgs/msg/String") 1) 10;
     mk_command (CreateClient (on_topic "/add" "demo/srv/Add")) 11], false);
   ([mk_command (Call 2 (zeros 16) [0; 1; 0; 0; 9]) 12; mk_command (Destroy 2) 13], true)].
Definition demo_ws : WaitSet := mk_wait_set 1 4 4.
Definition demo_fresh : Node := demo_node 0 0 [].

Lemma demo_servable : Forall servable (the_commands demo_arrivals).
Proof.
  repeat (apply Forall_cons_2; [first [exact I | split; [reflexivity | split; [by vm_compute | by apply nul_lit]]] |]). constructor.
Qed.

End Demo.
Import Typesupport.DemoLinker Demo.



(** A destroyed client whose call still waits is answered for, and stays: its entry is
    out of the map when it is destroyed, and goes back after the call. *)
Example destroyed_during_a_call :
  let '(r, w) := run demo_env 0 42 (Some 5) 3 (the_worker demo_fresh demo_ws demo_arrivals) in
  r = Ok true /\ List.existsb (fun e => match e with Reply 13 (Done (inl _)) => true | _ => false end) (wk_effects w) = true /\
  is_Some (en_clients (wk_entities w) !! 2).
Proof. vm_compute. split; [done | split; [done | by eexists]]. Qed.
