(* ===== verification/RclBackend.v ===== *)
(** * The backend handle

    [rclwebd/src/ros/backend.rs]: [RclBackend], the [RosBackend] of the gateway.
    Every method sends a command to the attachment thread and waits for its reply.
    One connection that waits for every answer is modelled: its command ends the
    thread's wait, and the thread serves it before it waits again.  What the pumps
    send to the sinks meanwhile is among the effects. *)

From Stdlib Require Import Sorting.Permutation.
From stdpp Require Import gmap.
From S2P Require Import Prelude Utf8 Policy Backend ConnectionSpec Typesupport Rcl AdapterAbi RosWorker RosProofs RosSafety RosService RosTheorems.
#[local] Open Scope Z_scope.

Section Handle.
Context `{Target} `{RclLibrary} `{Linker}.
Variables (env : RosEnv) (domain_id pid : Z) (guard : option Z).

(** The thread until it stops, and the next reply channel. *)
Record RclBackend := mk_rcl_backend { rb_thread : option Worker; rb_next_reply : Z }.

(** [spawn], with what [Attachment::init] and [WaitSet::new] gave. *)
Definition spawn (process : ProcessEnv) (started : (Node * WaitSet) + BackendError) : RclBackend + BackendError :=
  match check_adapter_probe process with
  | Ok _ =>
      match started with
      | inl (node, ws) => inl (mk_rcl_backend (Some (worker_new node ws [])) 0)
      | inr err => inr err
      end
  | Err code => inr (mk_backend_error code (lit "adapter_profile_mismatch"))
  | Panic => inr (mk_backend_error 13 (lit "ros thread died during init"))
  end.

Definition stopped : BackendError := mk_backend_error 13 (lit "ros thread stopped").
Definition dropped : BackendError := mk_backend_error 13 (lit "ros thread dropped reply").

(** What was sent on a reply channel. *)
Fixpoint reply_on (channel : Z) (es : list Effect) : option Answer :=
  match es with
  | [] => None
  | Reply c a :: es' => if c =? channel then Some a else reply_on channel es'
  | _ :: es' => reply_on channel es'
  end.

(** [send], and [await_reply]: the reply of a thread that ended is dropped. *)
Definition submit {A} (request : Request) (get : Answer -> option (A + BackendError)) : Method RclBackend A := fun b =>
  match rb_thread b with
  | None => (inr stopped, b)
  | Some w =>
      let reply := rb_next_reply b in
      let sent := set_inbox (wk_queue w) (wk_hung_up w) (wk_arrivals w ++ [([mk_command request reply], false)]) w in
      match (wait_and_pump guard ;;~ drain_commands env domain_id pid guard) sent with
      | (Ok _, w') =>
          (match reply_on reply (drop (length (wk_effects w)) (wk_effects w')) with
           | Some a => default (inr dropped) (get a)
           | None => inr dropped
           end, mk_rcl_backend (Some w') (reply + 1))
      | (_, _) => (inr dropped, mk_rcl_backend None (reply + 1))
      end
  end.

Definition an_entity (a : Answer) := match a with AnEntity r => Some r | _ => None end.
Definition a_unit (a : Answer) := match a with Done r => Some r | _ => None end.
Definition some_bytes (a : Answer) := match a with SomeBytes r => Some r | _ => None end.
Definition the_topics (a : Answer) := match a with Topics r => Some r | _ => None end.
Definition the_view (a : Answer) := match a with View r => Some r | _ => None end.

(** The connection's sinks: one identifier stands for its channel. *)
Variable sink : Z.

#[export] Instance rcl_ros_backend : RosBackend RclBackend := {|
  create_subscription spec := submit (CreateSubscription spec sink) an_entity;
  create_publisher spec := submit (CreatePublisher spec) an_entity;
  publish entity payload := submit (Publish entity payload) a_unit;
  destroy entity b := (submit (Destroy entity) a_unit b).2;
  create_client spec := submit (CreateClient spec) an_entity;
  create_service spec := submit (CreateService spec sink) an_entity;
  call entity operation_id request := submit (Call entity operation_id request) some_bytes;
  send_service_response entity operation_id response := submit (SendServiceResponse entity operation_id response) a_unit;
  create_action_client spec := submit (CreateActionClient spec) an_entity;
  create_action_server spec := submit (CreateActionServer spec sink) an_entity;
  send_action_goal entity operation_id request := submit (SendActionGoal entity operation_id request) some_bytes;
  cancel_action entity operation_id request := submit (CancelAction entity operation_id request) some_bytes;
  send_action_feedback entity operation_id payload := submit (SendActionFeedback entity operation_id payload) a_unit;
  send_action_result entity operation_id payload := submit (SendActionResult entity operation_id payload) a_unit;
  send_action_status entity _ _ := submit (SendActionStatus entity) a_unit;
  graph_view := submit AskGraphView the_view
|}.

(** [RclBackend::graph_topics], which the class has no method for. *)
Definition backend_graph_topics : Method RclBackend GraphTopics := submit AskGraphTopics the_topics.

(** [drop]: the channel closes, the thread ends after what is queued. *)
Definition drop_backend (b : RclBackend) : option Worker :=
  match rb_thread b with
  | None => None
  | Some w =>
      let closed := set_inbox (wk_queue w) true (wk_arrivals w) w in
      Some ((drain_commands env domain_id pid guard ;;~ teardown) closed).2
  end.

End Handle.

Section HandleTheorems.
#[local] Set Default Proof Using "Type*".
Context `{RclLaws} `{Linker}.
Variables (env : RosEnv) (domain_id pid : Z) (guard : option Z) (sink : Z).

(** A handle whose thread waits, with room for [n] entities. *)
Definition live (n : Z) (b : RclBackend) : Prop :=
  0 <= n /\ match rb_thread b with None => True | Some w => good 1 n w /\ wk_arrivals w = [] /\ balanced [] w end.

Lemma reply_found channel kind es : replied_in es = [(channel, kind)] ->
  exists a, reply_on channel es = Some a /\ answer_kind a = kind /\ Reply channel a ∈ es.
Proof.
  induction es as [| e es IH]; [done |]. cbn. destruct e as [c a | | | | |]; cbn; intros E.
  2-6: destruct (IH E) as (a & ? & ? & ?); exists a; split; [done | split; [done | by right]].
  injection E as -> <- _. rewrite Z.eqb_refl. exists a. split; [done | split; [done | by left]].
Qed.

Lemma submit_meets {A} n b request (get : Answer -> option (A + BackendError)) (P : A -> Prop) :
  live (n + 1) b -> 0 <= n -> servable (mk_command request 0) ->
  (forall c a, answer_kind a = request_kind request -> effect_meets (Reply c a) -> exists r, get a = Some r /\ meets P r) ->
  meets P (submit env domain_id pid guard request get b).1 /\ live n (submit env domain_id pid guard request get b).2.
Proof.
  intros [_ Hb] Hn Hs Hget. unfold submit. destruct (rb_thread b) as [w |] eqn:Et.
  2: { split; [split; [by vm_compute | by repeat split] |]. split; [done |]. cbn; by rewrite Et. }
  destruct Hb as ([Hl _ Hi Hr] & Ha & Hbal). set (cmd := mk_command request (rb_next_reply b)). cbv zeta. rewrite Ha. cbn [app].
  set (sent := set_inbox _ _ _ w).
  assert (Hq : wk_queue w = []) by (unfold all_commands in Hl; destruct (wk_queue w); [done | cbn in Hl; lia]).
  assert (Hall : all_commands sent = [cmd]) by (unfold all_commands; cbn; by rewrite Hq).
  assert (Hg : good 2 n sent).
  { split; rewrite ?Hall; [cbn; lia | by repeat constructor | exact Hi |]. unfold blen. cbn. unfold blen in Hr. lia. }
  assert (Hev0 : balanced [] sent) by exact Hbal.
  pose proof (wait_and_pump_runs guard 2 n sent Hg) as Hw. unfold bind. destruct (wait_and_pump guard sent) as [[u | e |] w2].
  2-3: split; [split; [by vm_compute | by repeat split] | by split].
  destruct Hw as (Hev & Hg2 & Hc & Hl2). pose proof (drain_commands_runs env domain_id pid guard 2 n w2 Hg2) as Hdr.
  pose proof (drained env domain_id pid guard (S (length (all_commands w2))) w2) as Hd. fold (drain_commands env domain_id pid guard w2) in Hd.
  change (drain env domain_id pid guard (S (length (all_commands w2))) w2) with (drain_commands env domain_id pid guard w2) in Hd.
  destruct (drain_commands env domain_id pid guard w2) as [[open | e |] w3]; [| by destruct Hdr as (_ & _ & _ & []) | by destruct Hdr as (_ & _ & _ & [])].
  destruct Hdr as (Hev2 & Hg3 & Hc2 & _). destruct (Hd open w3 eq_refl) as [Hq3 _].
  pose proof (evo_trans _ _ _ Hev Hev2) as Hww. pose proof (arrivals_less _ _ (ev_inbox _ _ Hev2)) as Hl3. cbn in Hl2, Hl3.
  assert (Ha3 : wk_arrivals w3 = []) by (destruct (wk_arrivals w3); [done | cbn in Hl3; lia]).
  assert (Hall3 : all_commands w3 = []) by (unfold all_commands; by rewrite Hq3, Ha3).
  destruct (ev_effects _ _ Hww) as (new & Hnew & Hok). cbn in Hnew. rewrite Hnew, drop_app_length.
  assert (Hrep : replied_in new = [awaited cmd]).
  { apply Permutation_singleton_r. apply (Permutation_app_inv_l (replied_in (wk_effects w))).
    rewrite Hc in Hc2. unfold conserved in Hc2. rewrite Hall3, Hall, Hnew, app_nil_r in Hc2. unfold replied_in in *. by rewrite flat_map_app in Hc2. }
  destruct (reply_found _ _ _ Hrep) as (a & Ea & Hk & Hin). change (cmd_reply cmd) with (rb_next_reply b) in Ea. rewrite Ea. rewrite Forall_forall in Hok. pose proof (effect_ok_meets _ (Hok _ Hin)) as Hm.
  destruct (Hget _ a Hk Hm) as (r & -> & Hmr). split; [done |]. split; [done |].
  split; [| split; [done | by apply (ev_balance _ _ Hww)]]. destruct Hg3 as [? ? ? ?]. split; [| done | done | done]. rewrite Hall3. cbn. lia.
Qed.

(** [m] answers as [RosBackendLaws] asks, and leaves a handle with room for [n]. *)
Definition keeps {A} (n : Z) (P : A -> Prop) (m : Method RclBackend A) (b : RclBackend) : Prop :=
  match (m b).1 with inl a => P a | inr e => backend_error_ok e end /\ live n (m b).2.

Lemma submit_keeps {A} n b request (get : Answer -> option (A + BackendError)) (P : A -> Prop) :
  live (n + 1) b -> 0 <= n -> servable (mk_command request 0) ->
  (forall c a, answer_kind a = request_kind request -> effect_meets (Reply c a) -> exists r, get a = Some r /\ meets P r) ->
  keeps n P (submit env domain_id pid guard request get) b.
Proof. intros Hb Hn Hs Hget. by apply submit_meets. Qed.

Ltac by_submit := apply submit_keeps; [done | done | done | intros c [r | r | r | r | r] Hk Hm; try discriminate Hk; by exists r].


End HandleTheorems.

Import Typesupport.DemoLinker Demo.

Definition demo_backend : RclBackend := mk_rcl_backend (Some (worker_new demo_fresh demo_ws [])) 0.

Lemma demo_backend_live : live 8 demo_backend.
Proof.
  split; [lia |]. split; [| split; [done | apply fresh_balanced]]. split; unfold all_commands; cbn -[u64_max]; [lia | done | repeat split; apply map_Forall_empty |].
  change (u64_max) with 18446744073709551615. unfold blen. cbn. lia.
Qed.


(** A client created and called, through the handle. *)
Example create_and_call :
  let backend := rcl_ros_backend demo_env 0 42 (Some 5) 1 in
  let '(r, b) := create_client (B := RclBackend) (on_topic "/add" "demo/srv/Add") demo_backend in
  r = inl 1 /\ (call (B := RclBackend) 1 (zeros 16) [0; 1; 0; 0; 9] b).1 = inl [0; 1; 0; 0; 5].
Proof. by vm_compute. Qed.

(** The error for a long type name is longer than a message of the wire may be. *)
Example long_type_name_unreportable :
  let backend := rcl_ros_backend demo_env 0 42 (Some 5) 1 in
  match (create_publisher (B := RclBackend) (mk_spec 1 (lit "/t") (replicate 4096 97) demo_qos) demo_backend).1 with
  | inr e => err_code e = 10 /\ blen (err_message e) = 4123
  | inl _ => False
  end.
Proof. by vm_compute. Qed.
