(* ===== verification/ConnectionProofs.v ===== *)
(** * The connection engine: safety and sequencing

    Every turn of the select loop is total and keeps the connection's
    invariant, whatever bytes arrive and whatever the ROS side answers within
    its contract; and what a turn sends is what the sequence rules of the
    protocol ask for. *)

From stdpp Require Import gmap.
From S2P Require Import Prelude Utf8 ProtocolError Cbor Extension ControlSchema Control Frame Bootstrap Accept Session.
From S2P Require Import SessionProofs Budgets Policy Backend Builders BuilderProofs Auth Connection ConnectionSpec.
Import ControlSchema.Schema(CONTROL_KIND_AUTHENTICATE, CONTROL_KIND_OPEN_CHANNEL, CONTROL_KIND_CLOSE_CHANNEL,
  CONTROL_KIND_HEARTBEAT, CONTROL_KIND_ERROR, CONTROL_KIND_SESSION_READY, CONTROL_KIND_CHANNEL_READY,
  CONTROL_KIND_GRAPH_SNAPSHOT, CONTROL_KIND_GRAPH_DELTA, CONTROL_KIND_SCHEMA_REQUEST, CONTROL_KIND_CLOCK_SYNC).
#[local] Open Scope Z_scope.

(** ** The fields of a builder's message *)

Lemma accepted_entries kind l es n :
  accepted kind (Map l) es n -> es = map (prod_map id canon) (sort_by_key l) /\ ascending (map fst es) = true.
Proof.
  intros [Hcan (s & _ & (_ & Hok & _)) _ _]. rewrite canon_map in Hcan.
  split; [congruence | by apply cbor_okb_map in Hok as [Ha _]].
Qed.

Lemma accepted_field kind l es n k v :
  accepted kind (Map l) es n -> (k, v) ∈ l -> (list_to_map es : fields_map) !! k = Some (canon v).
Proof.
  intros Ha Hin. destruct (accepted_entries _ _ _ _ Ha) as [-> Hasc]. apply lookup_entries; [done |].
  apply (list_elem_of_fmap_2 (prod_map id canon) _ (k, v)). by rewrite sort_by_key_perm.
Qed.

Lemma accepted_no_field kind l es n k :
  accepted kind (Map l) es n -> k ∉ map fst l -> (list_to_map es : fields_map) !! k = None.
Proof.
  intros Ha Hk. destruct (accepted_entries _ _ _ _ Ha) as [-> _]. apply not_elem_of_list_to_map_1.
  rewrite map_map. intros Hin. apply Hk. apply list_elem_of_fmap in Hin as ([k' v] & -> & Hin).
  rewrite sort_by_key_perm in Hin. by apply (list_elem_of_fmap_2 fst _ (k', v)).
Qed.

Definition message_of (kind : Z) (es : list (Z * CborValue)) : ControlMessage :=
  {| cm_kind := kind; cm_fields := list_to_map es |}.

Lemma control_frame_accepts s seq len m s' eff :
  frame_accepts s Server (Frame.control_frame 0 seq len m) s' eff -> control_accepts s Server m s' eff.
Proof.
  intros Hac. inversion Hac as [? ? m' ? ? _ Hm Ha | ? ? ? Ho | ? ? ? Ho]; subst; [| done |].
  - cbn in Hm. by simplify_eq.
  - change (2 < 1) in Ho || (cbn in Ho; unfold OPCODE_CONTROL_CBOR, OPCODE_SERVICE_REQUEST in Ho; lia).
Qed.

Lemma message_uint kind l es n k v :
  accepted kind (Map l) es n -> (k, Unsigned v) ∈ l -> Session.field_uint (message_of kind es) k = Some v.
Proof.
  intros Ha Hin. unfold Session.field_uint, message_of. cbn [cm_fields]. by rewrite (accepted_field _ _ _ _ _ _ Ha Hin).
Qed.

Lemma message_channel kind l es n id :
  accepted kind (Map l) es n -> (29, Unsigned id) ∈ l -> 1 <= id <= u32_max ->
  msg_channel (message_of kind es) = Some id.
Proof.
  intros Ha Hin Hid. unfold msg_channel, FIELD_CHANNEL_ID. rewrite (message_uint _ _ _ _ _ _ Ha Hin). cbn.
  by rewrite as_unsigned_small by (unfold is_unsigned, u32_max in *; lia).
Qed.

Ltac in_entries :=
  lazymatch goal with |- _ ∈ _ => repeat first [apply list_elem_of_here | apply list_elem_of_further] end.

Lemma session_error_fields corr code message es n :
  accepted 15 (session_error_with_correlation corr code message) es n ->
  Session.field_uint (message_of 15 es) FIELD_ERROR_SCOPE = Some 0 /\
  Session.field_uint (message_of 15 es) FIELD_CHANNEL_ID = None.
Proof.
  intros Ha. split; [eapply (message_uint _ _ _ _ _ 0 Ha); in_entries |].
  unfold Session.field_uint, message_of. cbn [cm_fields].
  rewrite (accepted_no_field _ _ _ _ FIELD_CHANNEL_ID Ha); [done |]. cbn. unfold FIELD_CHANNEL_ID. set_solver.
Qed.

(** A session error ends the session before Ready and is noted after. *)
Lemma session_error_accepts s corr code message es n :
  accepted 15 (session_error_with_correlation corr code message) es n ->
  in_selected_plane (ss_phase s) = true -> ss_phase s <> Failed ->
  exists s' eff, control_accepts s Server (message_of 15 es) s' eff /\ (ss_phase s = Ready -> s' = s).
Proof.
  intros Ha Hp Hf. destruct (session_error_fields _ _ _ _ _ Ha) as [Hsc Hch].
  destruct (ss_phase s) eqn:E; try done; eexists _, _.
  - split; [by apply acc_early_error | done].
  - split; [by apply acc_auth_error | done].
  - split; [apply acc_session_error; try done |].
    + unfold error_scope. by rewrite Hsc.
    + intros id. unfold msg_channel. by rewrite Hch.
    + done.
Qed.

(** [n + 1], wrapping. *)
Definition next (n : Z) : Z := if n =? u64_max then 0 else n + 1.

Lemma next_sequence n : is_sequence n -> is_sequence (next n).
Proof. unfold is_sequence, next. destruct (Z.eqb_spec n u64_max); unfold u64_max in *; lia. Qed.

Lemma small_sequence n : is_sequence n -> is_unsigned 64 n.
Proof. unfold is_sequence, is_unsigned, u64_max. lia. Qed.

Lemma channel_error_accepts s id code message es n :
  accepted 15 (channel_error id code message) es n -> 1 <= id <= u32_max ->
  ss_phase s = Ready -> channel_state s id = Active ->
  control_accepts s Server (message_of 15 es) s (with_session_error no_effects).
Proof.
  intros Ha Hid Hp Hact. apply acc_session_error; [done | done | |].
  - unfold error_scope. rewrite (message_uint _ _ _ _ FIELD_ERROR_SCOPE 1 Ha) by in_entries. done.
  - rewrite (message_channel _ _ _ _ id Ha) by (in_entries || done). intros i [= <-]. congruence.
Qed.

Lemma graph_snapshot_accepts s config corr g view es n :
  accepted 3 (graph_snapshot config corr g view) es n -> ss_phase s = Ready ->
  control_accepts s Server (message_of 3 es) (with_generation (Some g) s) (with_graph_snapshot g no_effects).
Proof. intros Ha Hp. apply acc_graph_snapshot; [done | done |]. eapply (message_uint _ _ _ _ _ _ Ha). in_entries. Qed.

Lemma graph_delta_accepts s config corr base ops es n :
  accepted 4 (graph_delta config corr base (u64_saturating_add base 1) ops) es n -> ss_phase s = Ready ->
  ss_graph_generation s = Some base ->
  control_accepts s Server (message_of 4 es) (with_generation (Some (u64_saturating_add base 1)) s)
    (with_graph_delta (u64_saturating_add base 1) no_effects).
Proof.
  intros Ha Hp Hg. apply acc_graph_delta; [done | done | done | |]; eapply (message_uint _ _ _ _ _ _ Ha); in_entries.
Qed.

(** A ChannelReady of result [raw], by its effect on the channel. *)
Lemma channel_ready_accepts s l id e raw result es n :
  accepted 9 (Map l) es n -> (29, Unsigned id) ∈ l -> (33, Unsigned raw) ∈ l -> 1 <= id <= u32_max -> 0 <= raw <= 255 ->
  ChannelResult_from_u8 raw = Some result -> ss_phase s = Ready -> ss_channels s !! id = Some e -> ce_state e = Pending ->
  exists eff, control_accepts s Server (message_of 9 es)
    (set_channel id (if is_success result then Active else ChFailed) s) eff.
Proof.
  intros Ha Hc Hr Hid Hraw Hres Hp He Hst. pose proof (message_channel _ _ _ _ id Ha Hc Hid) as Hmc.
  pose proof (message_uint _ _ _ _ _ _ Ha Hr) as Hmr.
  assert (Hres' : ChannelResult_from_u8 (as_unsigned 8 raw) = Some result)
    by (rewrite as_unsigned_small by (unfold is_unsigned; lia); done).
  destruct (is_success result) eqn:E; eexists.
  - eapply (acc_channel_ready _ _ id e raw result); try done. lia.
  - eapply (acc_channel_refused _ _ id e raw result); try done. lia.
Qed.

Lemma control_keeps s sender m s' eff :
  control_accepts s sender m s' eff -> session_wf s -> session_wf s' /\ ss_role s' = ss_role s.
Proof.
  intros Ha Hwf.
  assert (He : event_accepts s sender (EvFrame (Frame.control_frame 0 0 0 m)) s' eff) by by eapply acc_control.
  split; [by eapply event_wf | by apply event_phase in He as [? _]].
Qed.

(** ** Keeping the invariant *)

(** A control message was recorded, in either direction. *)
Lemma core_session c s' eff sender m :
  conn_core c -> control_accepts (cn_session c) sender m s' eff -> channels_agree (cn_channels c) s' ->
  conn_core (set_session s' c).
Proof.
  intros [] Ha Hag. destruct (control_keeps _ _ _ _ _ Ha) as [Hwf Hr]; [done |].
  destruct c. split; try done; cbn in *; congruence.
Qed.

Lemma core_out c n : conn_core c -> is_sequence n -> conn_core (set_control_seq_out n c).
Proof. intros [] Hn. by destruct c. Qed.

Lemma core_in c n : conn_core c -> is_sequence n -> conn_core (set_control_seq_in n c).
Proof. intros [] Hn. by destruct c. Qed.

Lemma core_heartbeat c n : conn_core c -> is_sequence n -> conn_core (set_heartbeat_counter n c).
Proof. intros [] Hn. by destruct c. Qed.

Lemma core_generation c g : conn_core c -> conn_core (set_graph_generation g c).
Proof. intros []. by destruct c. Qed.

Lemma core_subject c u : conn_core c -> conn_core (set_subject u c).
Proof. intros []. by destruct c. Qed.

Lemma core_put c id r r' :
  conn_core c -> cn_channels c !! id = Some r -> cr_kind r' = cr_kind r -> runtime_ok r' ->
  conn_core (set_channels (<[id := r']> (cn_channels c)) c).
Proof.
  intros Hc Hr Hk Hok. destruct (cc_runtimes c Hc id r Hr) as [Hid _]. destruct Hc, c as [s h o i hb ch g u].
  split; cbn in *; try done; [by eapply agree_put |]. by apply map_Forall_insert_2.
Qed.

(** What the phase says does not depend on the counters and the runtimes. *)
Lemma phase_counters c f :
  (cn_session (f c), cn_server_hello (f c), cn_graph_generation (f c)) = (cn_session c, cn_server_hello c, cn_graph_generation c) ->
  phase_ok c -> phase_ok (f c).
Proof. unfold phase_ok. by intros [= -> -> ->]. Qed.

Lemma wf_put c id r r' :
  conn_wf c -> cn_channels c !! id = Some r -> cr_kind r' = cr_kind r -> runtime_ok r' ->
  conn_wf (set_channels (<[id := r']> (cn_channels c)) c).
Proof. intros [Hc Hp] Hr Hk Hok. split; [by eapply core_put | by destruct c]. Qed.

Lemma wf_in c n : conn_wf c -> is_sequence n -> conn_wf (set_control_seq_in n c).
Proof. intros [Hc Hp] Hn. split; [by apply core_in | by destruct c]. Qed.

Lemma wf_out c n : conn_wf c -> is_sequence n -> conn_wf (set_control_seq_out n c).
Proof. intros [Hc Hp] Hn. split; [by apply core_out | by destruct c]. Qed.

Lemma wf_heartbeat c n : conn_wf c -> is_sequence n -> conn_wf (set_heartbeat_counter n c).
Proof. intros [Hc Hp] Hn. split; [by apply core_heartbeat | by destruct c]. Qed.

Lemma set_same_session c : set_session (cn_session c) c = c.
Proof. by destruct c. Qed.

(** An active channel has its runtime. *)
Lemma core_runtime c id k :
  conn_core c -> active_kind (cn_session c) id = Some k ->
  exists r, cn_channels c !! id = Some r /\ cr_kind r = k /\ runtime_ok r /\ 1 <= id <= u32_max.
Proof.
  intros Hc Hk. pose proof (cc_channels c Hc id) as Ha. rewrite Hk in Ha.
  apply fmap_Some in Ha as (r & Hr & ->). exists r. destruct (cc_runtimes c Hc id r Hr). done.
Qed.

Section Proofs.
Context `{Target} {B : Type} `{!RosBackend B} {Hlaws : RosBackendLaws B} `{JwtLibrary} {Hjwt : JwtLaws}.
Variables (build : Build) (config : GatewayConfig) (auth_config : AuthConfig) (active : ActiveTransport).
Variables (clock : Z -> Z) (pid : Z).
Hypothesis Hconfig : config_ok config.
Implicit Types w : World B.

Abbreviation Conn := (SM (World B) unit).

(** ** The primitive steps *)

(** A debug build has room for [k] more control messages. *)
Definition room (k : Z) w : Prop :=
  build = DebugBuild -> cn_control_seq_out (w_conn w) + k <= u64_max.

(** The world with another connection state, and after a control message went
    out and moved the session to [s']. *)
Definition with_conn (c : ConnState) w : World B :=
  mk_world c (w_out w) (w_queue w) (w_telemetry w) (w_session_counter w) (w_backend w).
Definition with_out (o : Outcome) w : World B :=
  mk_world (w_conn w) o (w_queue w) (w_telemetry w) (w_session_counter w) (w_backend w).
Definition sent (b : bytes) (o : Outcome) : Outcome := mk_out (out_outbound o ++ [b]) (out_close o).
Definition control_sent (s' : SessionState) (b : bytes) w : World B :=
  with_out (sent b (w_out w))
    (with_conn (set_control_seq_out (next (cn_control_seq_out (w_conn w))) (set_session s' (w_conn w))) w).

Lemma wp_plus_one n Q X w :
  (build = DebugBuild -> n < u64_max) -> Q (next n) w -> wp (plus_one (B := B) build n) Q X w.
Proof.
  intros Hb. unfold next, plus_one. destruct (Z.eqb_spec n u64_max) as [-> |]; [| done].
  destruct build; [specialize (Hb eq_refl); lia | done].
Qed.

Lemma wp_assert c Q X w :
  (build = DebugBuild -> c = true) -> Q tt w -> wp (assert_debug (B := B) build c) Q X w.
Proof. intros Hb. unfold assert_debug. destruct build; [by rewrite Hb | done]. Qed.

(** Closing the connection. *)
Lemma wp_close Q X w :
  Q tt (with_out (mk_out (out_outbound (w_out w)) true) w) -> wp (close (B := B)) Q X w.
Proof. done. Qed.

Lemma wp_call_fn (m : Conn unit) Q X w :
  wp m Q (fun _ w' => Q tt w') w -> wp (call_fn m) Q X w.
Proof. unfold wp, call_fn. by destruct (m w) as [[[] | [] |] w']. Qed.

Lemma wp_backend {A} (P : A -> Prop) (m : Method B A) Q X w :
  answers P m ->
  (forall a b, P a -> Q (inl a) (mk_world (w_conn w) (w_out w) (w_queue w) (w_telemetry w) (w_session_counter w) b)) ->
  (forall e b, backend_error_ok e ->
     Q (inr e) (mk_world (w_conn w) (w_out w) (w_queue w) (w_telemetry w) (w_session_counter w) b)) ->
  wp (backend_ m) Q X w.
Proof.
  intros Ha Hl Hr. specialize (Ha (w_backend w)). unfold wp, backend_. destruct (m (w_backend w)) as [[a | e] b]; auto.
Qed.

(** Recording an outbound frame the session accepts, or refuses. *)
Lemma wp_record_ok frame b eff s' Q X w :
  parse_frame b (Some frame_options) = Ok frame -> ss_role (cn_session (w_conn w)) = Server ->
  frame_accepts (cn_session (w_conn w)) Server frame s' eff -> Q true (with_conn (set_session s' (w_conn w)) w) ->
  wp (record_outbound b) Q X w.
Proof.
  intros Hp Hr Ha Hq. unfold wp, record_outbound. rewrite Hp. unfold bind, session_, record_send_frame, bind, gets.
  rewrite Hr. change (apply_frame frame Server) with (apply_event (EvFrame frame) Server).
  by rewrite (event_complete (EvFrame frame) _ _ _ _ Ha).
Qed.

Lemma wp_record_refused frame b Q X w :
  parse_frame b (Some frame_options) = Ok frame -> ss_role (cn_session (w_conn w)) = Server ->
  (forall s' eff, ~ frame_accepts (cn_session (w_conn w)) Server frame s' eff) -> Q false w ->
  wp (record_outbound b) Q X w.
Proof.
  intros Hp Hr Hn Hq. unfold wp, record_outbound. rewrite Hp. unfold bind, session_, record_send_frame, bind, gets.
  rewrite Hr. pose proof (event_implements (EvFrame frame) Server (cn_session (w_conn w))) as Hi. unfold implements in Hi.
  cbn [apply_event event_accepts] in Hi. destruct (apply_frame frame Server _) as [[eff | e |] s']; [by destruct (Hn s' eff) | | done].
  destruct Hi as [-> _]. destruct w as [[]]. exact Hq.
Qed.

(** ** Sending *)

(** Encoding an accepted message: the frame its receiver parses, or no frame. *)
Lemma control_encodes kind v es n seq :
  accepted kind v es n -> is_sequence seq ->
  if payload_size v <=? CONTROL_PAYLOAD_MAX_BYTES
  then exists b, encode_control_frame 0 seq v = Ok b /\
    parse_frame b (Some frame_options) = Ok (Frame.control_frame 0 seq (payload_size v) (message_of kind es))
  else exists e, encode_control_frame 0 seq v = Err e.
Proof.
  intros Ha Hq. by apply (accepted_frame frame_options seq kind v es n Ha ltac:(by vm_compute)), small_sequence.
Qed.

(** The message goes out under the next sequence number and the session records
    it; only an oversized one closes the connection. *)
Lemma wp_push_control kind v es n s' eff Q X w :
  accepted kind v es n ->
  control_accepts (cn_session (w_conn w)) Server (message_of kind es) s' eff ->
  ss_role (cn_session (w_conn w)) = Server -> is_sequence (cn_control_seq_out (w_conn w)) -> room 1 w ->
  (forall b, encode_control_frame 0 (cn_control_seq_out (w_conn w)) v = Ok b -> Q true (control_sent s' b w)) ->
  (CONTROL_PAYLOAD_MAX_BYTES < payload_size v -> Q false (with_out (mk_out (out_outbound (w_out w)) true) w)) ->
  wp (push_control (B := B) build v) Q X w.
Proof.
  intros Ha Hs Hrole Hseq Hroom Hok Hbig. unfold push_control, conn_. wp_step. wp_step.
  pose proof (control_encodes kind v es n _ Ha Hseq) as Hf.
  destruct (Z.leb_spec (payload_size v) CONTROL_PAYLOAD_MAX_BYTES) as [Hl | Hl].
  2: { destruct Hf as (e & ->). wp_step. apply wp_close. wp_step. by apply Hbig. }
  destruct Hf as (b & He & Hp). rewrite He. wp_step.
  eapply wp_record_ok; [exact Hp | done | eapply acc_control; [reflexivity | reflexivity | exact Hs] |].
  wp_step. apply wp_assert; [done |]. wp_step. apply wp_plus_one; [intros Hd; specialize (Hroom Hd); lia |].
  wp_step. unfold on_conn. wp_step. wp_step. unfold push_out, on_out. wp_step. wp_step. by apply Hok.
Qed.

(** A message the session refuses to record closes a release build. *)
Lemma wp_push_refused kind v es n Q X w :
  build = ReleaseBuild -> accepted kind v es n ->
  (forall s' eff, ~ control_accepts (cn_session (w_conn w)) Server (message_of kind es) s' eff) ->
  ss_role (cn_session (w_conn w)) = Server -> is_sequence (cn_control_seq_out (w_conn w)) ->
  Q false (with_out (mk_out (out_outbound (w_out w)) true) w) ->
  wp (push_control (B := B) build v) Q X w.
Proof.
  intros Hb Ha Hs Hrole Hseq Hq. unfold push_control, conn_. wp_step. wp_step.
  pose proof (control_encodes kind v es n _ Ha Hseq) as Hf.
  destruct (payload_size v <=? CONTROL_PAYLOAD_MAX_BYTES).
  2: { destruct Hf as (e & ->). wp_step. apply wp_close. by wp_step. }
  destruct Hf as (b & -> & Hp). wp_step. eapply wp_record_refused; [exact Hp | done | |].
  { intros s' eff Hac. by apply control_frame_accepts, Hs in Hac. }
  wp_step. apply wp_assert; [by rewrite Hb |]. wp_step. apply wp_close. by wp_step.
Qed.

(** An accepted message that cannot be too large. *)
Lemma wp_push_small kind v es n s' eff Q X w :
  accepted kind v es n -> n <= CONTROL_PAYLOAD_MAX_BYTES ->
  control_accepts (cn_session (w_conn w)) Server (message_of kind es) s' eff ->
  ss_role (cn_session (w_conn w)) = Server -> is_sequence (cn_control_seq_out (w_conn w)) -> room 1 w ->
  (forall b, encode_control_frame 0 (cn_control_seq_out (w_conn w)) v = Ok b -> Q true (control_sent s' b w)) ->
  wp (push_control (B := B) build v) Q X w.
Proof.
  intros Ha Hn Hs Hrole Hseq Hroom Hok. eapply wp_push_control; try done.
  pose proof (accepted_size _ _ _ _ Ha). lia.
Qed.

(** ** Failing the session *)

(** The connection is closing; the queue is as it was. *)
Definition closing (q : SampleWriteQueue) w : Prop := w_queue w = q /\ out_close (w_out w) = true.

Lemma wire_error_code_ok err : wire_code (wire_error_code err).
Proof.
  unfold wire_error_code, wire_code. cbv zeta.
  destruct (Z.leb_spec 1 (pe_code err)), (Z.leb_spec (pe_code err) 28), (Z.eqb_spec (pe_code err) 20); cbn; lia.
Qed.

Lemma zero_correlation_ok : id_bytes 16 ZERO_CORRELATION.
Proof. split; [apply bytes_ok_zeros | done]. Qed.

Lemma wp_fail_session err Q X w :
  in_selected_plane (ss_phase (cn_session (w_conn w))) = true -> reportable (pe_reason err) ->
  ss_role (cn_session (w_conn w)) = Server -> is_sequence (cn_control_seq_out (w_conn w)) -> room 1 w ->
  (build = DebugBuild -> ss_phase (cn_session (w_conn w)) <> Failed) ->
  (forall w', closing (w_queue w) w' -> Q tt w') ->
  wp (fail_session (B := B) build err) Q X w.
Proof.
  intros Hp Hr Hrole Hseq Hroom Hf Hq. unfold fail_session, conn_. wp_step. wp_step. rewrite Hp.
  destruct (session_error_accepted ZERO_CORRELATION (wire_error_code err) (lit (pe_reason err)) zero_correlation_ok
    (wire_error_code_ok err) Hr) as (es & n & Ha & Hn).
  wp_step. wp_step.
  destruct (decide (ss_phase (cn_session (w_conn w)) = Failed)) as [Ef | Ef].
  - apply (wp_push_refused 15 _ es n); try done; [destruct build; [by destruct (Hf eq_refl) | done] | |].
    + intros s' eff Hac. destruct (control_accepts_phase _ _ _ _ _ Hac) as [Ht _]. by rewrite Ef in Ht.
    + wp_step. apply wp_close. by apply Hq.
  - destruct (session_error_accepts (cn_session (w_conn w)) _ _ _ _ _ Ha Hp Ef) as (s' & eff & Hac & _).
    apply (wp_push_small 15 _ es n s' eff); try done.
    intros b _. wp_step. apply wp_close. by apply Hq.
Qed.

(** ** Replies that leave the session as it is *)

(** A turn may stop here: the connection closes, or keeps its invariant. *)
Definition settled (q : SampleWriteQueue) w : Prop :=
  w_queue w = q /\ (out_close (w_out w) = true \/ conn_wf (w_conn w)).

Lemma closing_settled q w : closing q w -> settled q w.
Proof. intros [? ?]. split; [done | by left]. Qed.

Lemma control_sent_same b w : conn_wf (w_conn w) -> conn_wf (w_conn (control_sent (cn_session (w_conn w)) b w)).
Proof.
  intros Hwf. cbn. rewrite set_same_session. apply wf_out; [done |]. apply next_sequence, (cc_out _ (proj1 Hwf)).
Qed.

Lemma wp_report {A} id (r : A + BackendError) Q X w :
  conn_wf (w_conn w) -> ss_phase (cn_session (w_conn w)) = Ready ->
  channel_state (cn_session (w_conn w)) id = Active -> 1 <= id <= u32_max ->
  match r with inl _ => True | inr e => backend_error_ok e end -> room 1 w ->
  (forall w', settled (w_queue w) w' -> Q tt w') ->
  wp (report_backend_error (B := B) build id r) Q X w.
Proof.
  intros Hwf Hp Hact Hid Hr Hroom Hq. destruct r as [a | e]; cbn [report_backend_error].
  { wp_step. apply Hq. split; [done | by right]. }
  destruct Hr as [Hcode Hmsg]. destruct (channel_error_accepted id (err_code e) (err_message e) Hid Hcode Hmsg) as (es & n & Ha & Hn).
  wp_step. eapply (wp_push_small 15); try done.
  - by eapply channel_error_accepts.
  - apply (cc_role _ (proj1 Hwf)).
  - apply (cc_out _ (proj1 Hwf)).
  - intros b _. wp_step. apply Hq. split; [done | right]. by apply control_sent_same.
Qed.

(** An early return after failing the session. *)
Lemma wp_fail_with {A} err (Q : A -> World B -> Prop) X w :
  in_selected_plane (ss_phase (cn_session (w_conn w))) = true -> reportable (pe_reason err) ->
  ss_role (cn_session (w_conn w)) = Server -> is_sequence (cn_control_seq_out (w_conn w)) -> room 1 w ->
  (build = DebugBuild -> ss_phase (cn_session (w_conn w)) <> Failed) ->
  (forall w', closing (w_queue w) w' -> X tt w') ->
  wp (fail_with (B := B) build err) Q X w.
Proof. intros. unfold fail_with, return_. wp_step. by apply wp_fail_session. Qed.

(** The state a data handler starts from, and what its results must satisfy. *)
Record data_turn (w : World B) : Prop := {
  dt_wf : conn_wf (w_conn w);
  dt_ready : ss_phase (cn_session (w_conn w)) = Ready;
  dt_room : room 1 w
}.

Lemma wp_violation {A} reason off step (Q : A -> World B -> Prop) X w :
  data_turn w -> reportable reason -> (forall w', settled (w_queue w) w' -> X tt w') ->
  wp (fail_with (B := B) build (protocol_violation reason off step)) Q X w.
Proof.
  intros [Hwf Hp Hroom] Hr Hx. apply wp_fail_with; try done; try by rewrite Hp.
  - apply (cc_role _ (proj1 Hwf)).
  - apply (cc_out _ (proj1 Hwf)).
  - intros w' Hc. by apply Hx, closing_settled.
Qed.

Lemma wp_bad_flags {A} reason off step (Q : A -> World B -> Prop) X w :
  data_turn w -> reportable reason -> (forall w', settled (w_queue w) w' -> X tt w') ->
  wp (fail_with (B := B) build (unsupported_flags reason off step)) Q X w.
Proof.
  intros [Hwf Hp Hroom] Hr Hx. apply wp_fail_with; try done; try by rewrite Hp.
  - apply (cc_role _ (proj1 Hwf)).
  - apply (cc_out _ (proj1 Hwf)).
  - intros w' Hc. by apply Hx, closing_settled.
Qed.

Lemma wp_runtime id r Q X w :
  cn_channels (w_conn w) !! id = Some r -> Q r w -> wp (runtime_or_close (B := B) id) Q X w.
Proof. intros Hr Hq. unfold runtime_or_close, conn_. wp_step. wp_step. by rewrite Hr. Qed.

Lemma data_turn_put id r r' w :
  data_turn w -> cn_channels (w_conn w) !! id = Some r -> cr_kind r' = cr_kind r -> runtime_ok r' ->
  data_turn (with_conn (set_channels (<[id := r']> (cn_channels (w_conn w))) (w_conn w)) w).
Proof.
  intros [Hwf Hp Hroom] Hr Hk Hok. split; [by eapply wf_put | |]; destruct w as [[]]; done.
Qed.

Lemma data_turn_telemetry t w :
  data_turn w -> data_turn (mk_world (w_conn w) (w_out w) (w_queue w) t (w_session_counter w) (w_backend w)).
Proof. by intros []. Qed.

Lemma data_turn_backend b w :
  data_turn w -> data_turn (mk_world (w_conn w) (w_out w) (w_queue w) (w_telemetry w) (w_session_counter w) b).
Proof. by intros []. Qed.

Lemma data_turn_settled w : data_turn w -> settled (w_queue w) w.
Proof. intros []. split; [done | by right]. Qed.

Lemma seq_in_ok n r : runtime_ok r -> is_sequence n -> runtime_ok (with_seq_in n r).
Proof. intros [] Hn. by destruct r. Qed.
Lemma seq_out_ok n r : runtime_ok r -> is_sequence n -> runtime_ok (with_seq_out n r).
Proof. intros [] Hn. by destruct r. Qed.

Lemma wp_payload b f Q X w :
  rust_slice b -> frame_ok b f ->
  Q (sub_list b (32 + df_extension_len f) (df_payload_len f)) w ->
  wp (frame_payload_bytes (B := B) b f) Q X w.
Proof.
  intros [_ Hl] [_ _ [He Hp] Hs _ _] Hq. pose proof isize_le_usize as Hu. unfold frame_payload_bytes.
  change SAMPLE_HEADER_PREFIX with 32. usz. eapply wp_lift_ok; [apply slice_ok; lia |].
  by replace (32 + df_extension_len f + df_payload_len f - (32 + df_extension_len f)) with (df_payload_len f) by lia.
Qed.

Lemma frame_application b f :
  frame_ok b f -> df_opcode f <> OPCODE_CONTROL_CBOR -> exists data, df_payload f = Application data.
Proof. intros [_ _ _ _ _ Hp] Ho. destruct (df_payload f) as [data | m]; [by exists data | by destruct Hp]. Qed.

Lemma wp_application f (Q : unit -> World B -> Prop) X w :
  (exists data, df_payload f = Application data) -> Q tt w -> wp (require_application (B := B) f) Q X w.
Proof. intros [data E]. unfold require_application. by rewrite E. Qed.

(** ** Inbound samples *)

(** Neither the backend nor a runtime moves. *)
Definition kept w w' : Prop := w_backend w' = w_backend w /\ cn_channels (w_conn w') = cn_channels (w_conn w).
Definition keeps {A} (m : Conn A) : Prop := forall w, kept w (snd (m w)).

Lemma keeps_bind {A A'} (m : Conn A) (k : A -> Conn A') : keeps m -> (forall a, keeps (k a)) -> keeps (bind m k).
Proof.
  intros Hm Hk w. unfold bind. specialize (Hm w). destruct (m w) as [[a | e |] w1]; [| done | done].
  specialize (Hk a w1). unfold kept in *. cbn in *. destruct Hm as [<- <-], Hk as [<- <-]. done.
Qed.

Lemma keeps_modify f :
  (forall w, kept w (f w)) -> keeps (modify f).
Proof. intros Hf w. exact (Hf w). Qed.

Lemma keeps_on_conn f : (forall c, cn_channels (f c) = cn_channels c) -> keeps (on_conn f).
Proof. intros Hf. apply keeps_modify. intros w. split; [done | exact (Hf (w_conn w))]. Qed.

Lemma keeps_record b : keeps (record_outbound b).
Proof.
  unfold record_outbound. destruct (parse_frame _ _); try (intros w; by split).
  apply keeps_bind; [| intros [] w; by split].
  intros w. unfold session_. destruct (record_send_frame _ _) as [[| |] s']; destruct w as [[]]; by split.
Qed.

Ltac keeps :=
  repeat match goal with
  | |- keeps (bind _ _) => apply keeps_bind; [| intros ?]
  | |- keeps (if ?c then _ else _) => destruct c
  | |- keeps (match ?x with _ => _ end) => destruct x
  | |- keeps (record_outbound _) => apply keeps_record
  | |- keeps (on_conn _) => apply keeps_on_conn; by intros []
  | |- keeps (on_out _) => intros w; by split
  | |- keeps (ret _) => intros w; by split
  | |- keeps panic => intros w; by split
  | |- keeps (conn_ _) => intros w; by split
  | |- keeps close => intros w; by split
  | |- keeps (push_out _) => intros w; by split
  | |- keeps (assert_debug _ _) => unfold assert_debug
  | |- keeps (plus_one _ _) => unfold plus_one
  end.

Lemma keeps_push_control v : keeps (push_control build v).
Proof. unfold push_control. keeps. Qed.

Lemma keeps_fail_session err : keeps (fail_session build err).
Proof. unfold fail_session, push_bootstrap_error. keeps; apply keeps_push_control. Qed.

Lemma keeps_report {A} id (r : A + BackendError) : keeps (report_backend_error build id r).
Proof. unfold report_backend_error. keeps. apply keeps_push_control. Qed.

Lemma wp_keeps {A} (m : Conn A) Q X w :
  keeps m -> wp m (fun a w' => kept w w' -> Q a w') (fun e w' => kept w w' -> X e w') w -> wp m Q X w.
Proof. intros Hk. specialize (Hk w). unfold wp. destruct (m w) as [[a | e |] w']; auto. Qed.

(** A sample is in sequence when it is exactly the next on a reliable channel,
    and not older than the next on a best-effort one. *)
Definition in_sequence (r : ChannelRuntime) (seq : Z) : bool :=
  if cr_reliable r then seq =? cr_seq_in r else cr_seq_in r <=? seq.

Definition flags_agree (r : ChannelRuntime) (flags : Z) : bool :=
  eqb (negb (Z.land flags FLAG_ROS_RELIABLE =? 0)) (cr_reliable r) &&
  negb (negb (Z.land flags FLAG_RETAINED =? 0) && negb (cr_transient_local r)).

(** What a sample frame does: it is published and moves the sequence on, or it
    ends the session, or (stale on a best-effort channel) it is dropped. *)
Definition publish_result (f : DecodedFrame) (r : ChannelRuntime) (payload : bytes) w w' : Prop :=
  settled (w_queue w) w' /\
  if flags_agree r (df_flags f) && in_sequence r (df_sequence f) then
    w_backend w' = snd (publish (cr_entity r) payload (w_backend w)) /\
    cn_channels (w_conn w') !! df_channel_id f = Some (with_seq_in (next (df_sequence f)) r)
  else if flags_agree r (df_flags f) && negb (cr_reliable r) then
    (w_backend w', w_conn w', w_out w') = (w_backend w, w_conn w, w_out w)
  else w_backend w' = w_backend w /\ out_close (w_out w') = true.

(** Failing the session reaches neither the backend nor the queue. *)
Lemma wp_violation_keeps {A} err (Q : A -> World B -> Prop) X w :
  data_turn w -> reportable (pe_reason err) ->
  (forall w', closing (w_queue w) w' -> w_backend w' = w_backend w -> X tt w') ->
  wp (fail_with (B := B) build err) Q X w.
Proof.
  intros [Hwf Hp Hroom] Hr Hx. unfold fail_with, return_. wp_step. apply wp_keeps; [apply keeps_fail_session |].
  apply wp_fail_session; try done; try by rewrite Hp.
  - apply (cc_role _ (proj1 Hwf)).
  - apply (cc_out _ (proj1 Hwf)).
  - intros w' Hc [Hb _]. by apply Hx.
Qed.

(** The part after the sequence is admitted. *)
Lemma wp_publish_admitted f b r t (Q X : unit -> World B -> Prop) w :
  data_turn w -> rust_slice b -> frame_ok b f -> df_opcode f <> OPCODE_CONTROL_CBOR ->
  cn_channels (w_conn w) !! df_channel_id f = Some r -> cr_kind r = TopicPublish ->
  flags_agree r (df_flags f) = true -> in_sequence r (df_sequence f) = true ->
  (forall w', publish_result f r (sub_list b (32 + df_extension_len f) (df_payload_len f)) w w' -> Q tt w' /\ X tt w') ->
  wp (require_application (B := B) f ;;~
      payload <~ frame_payload_bytes b f ;;
      res <~ backend_ (publish (cr_entity r) payload) ;;
      report_backend_error build (df_channel_id f) res) Q X
    (mk_world (set_channels (<[df_channel_id f := with_seq_in (next (df_sequence f)) r]> (cn_channels (w_conn w))) (w_conn w))
      (w_out w) (w_queue w) t (w_session_counter w) (w_backend w)).
Proof using Hlaws.
  intros Hd Hb Hf Hop Hr Hk Hfl Hsq Hq. destruct (cc_runtimes _ (proj1 (dt_wf _ Hd)) _ _ Hr) as [Hid Hok].
  pose proof (cc_channels _ (proj1 (dt_wf _ Hd)) (df_channel_id f)) as Hact. rewrite Hr in Hact. symmetry in Hact.
  wp_step. apply wp_application; [by eapply frame_application |].
  wp_step. eapply wp_payload; [done | done |]. wp_step.
  set (w1 := mk_world _ _ _ t _ _).
  assert (Hd1 : data_turn w1).
  { apply (data_turn_telemetry t (with_conn _ w)). apply (data_turn_put _ r); try done; [by destruct r |].
    apply seq_in_ok; [done |]. apply next_sequence. destruct Hf. done. }
  pose proof (law_publish (cr_entity r) (sub_list b (32 + df_extension_len f) (df_payload_len f)) (w_backend w)) as Hans.
  unfold wp at 1, backend_. subst w1. cbn [w_conn w_out w_queue w_telemetry w_session_counter w_backend] in *.
  destruct (publish (cr_entity r) _ (w_backend w)) as [res bk] eqn:Epub. cbn [fst] in Hans.
  set (w2 := mk_world _ _ _ t _ bk).
  apply wp_keeps; [apply keeps_report |].
  assert (Hd2 : data_turn w2) by (apply (data_turn_backend bk _ Hd1)).
  eapply wp_report; [apply (dt_wf _ Hd2) | apply (dt_ready _ Hd2) | | exact Hid | by destruct res | apply (dt_room _ Hd2) |].
  { eapply active_kind_state. cbn. destruct (w_conn w); exact Hact. }
  intros w' Hs [Hbk Hch]. apply Hq. split; [exact Hs |]. rewrite Hfl, Hsq. cbn [andb]. rewrite Hbk, Hch, Epub.
  split; [done |]. subst w2. cbn. destruct (w_conn w); cbn. apply lookup_insert_eq.
Qed.

Lemma wp_publish_sample f b r (Q X : unit -> World B -> Prop) w :
  data_turn w -> rust_slice b -> frame_ok b f -> df_opcode f <> OPCODE_CONTROL_CBOR ->
  cn_channels (w_conn w) !! df_channel_id f = Some r -> cr_kind r = TopicPublish ->
  (build = DebugBuild -> df_sequence f < u64_max) ->
  (forall w', publish_result f r (sub_list b (32 + df_extension_len f) (df_payload_len f)) w w' -> Q tt w' /\ X tt w') ->
  wp (handle_publish_sample (B := B) build f b) Q X w.
Proof using Hlaws.
  intros Hd Hb Hf Hop Hr Hk Hroom Hq. pose proof (dt_wf _ Hd) as Hwf.
  unfold handle_publish_sample. cbv zeta. wp_step. eapply wp_runtime; [exact Hr |].
  wp_step. apply wp_assert; [intros _; by rewrite Hk |]. wp_step.
  assert (Hbad : flags_agree r (df_flags f) && in_sequence r (df_sequence f) = false ->
    flags_agree r (df_flags f) && negb (cr_reliable r) = false ->
    forall w', closing (w_queue w) w' -> w_backend w' = w_backend w -> X tt w').
  { intros E1 E2 w' Hc Hbk. apply Hq. split; [by apply closing_settled |]. rewrite E1, E2. split; [done | apply Hc]. }
  pose proof (fun t H1 H2 => wp_publish_admitted f b r t Q X w Hd Hb Hf Hop Hr Hk H1 H2 Hq) as Hgo.
  unfold flags_agree in *.
  destruct (eqb _ (cr_reliable r)) eqn:Erel; cbn [negb andb] in *.
  2: { apply wp_violation_keeps; [done | by apply reportable_check | by apply Hbad]. }
  wp_step. wp_step. destruct (_ && negb (cr_transient_local r)) eqn:Eret; cbn [negb andb] in *.
  { apply wp_violation_keeps; [done | by apply reportable_check | by apply Hbad]. }
  wp_step. wp_step. unfold admit_sample_sequence, put_runtime, on_conn, telemetry. unfold in_sequence in *. cbv zeta.
  destruct (cr_reliable r) eqn:Er.
  - destruct (Z.eqb_spec (df_sequence f) (cr_seq_in r)) as [Es |]; cbn [negb] in *.
    2: { apply wp_violation_keeps; [done | by apply reportable_check | by apply Hbad]. }
    rewrite <- Es. wp_step. apply wp_plus_one; [exact Hroom |]. wp_step. by apply Hgo.
  - destruct (Z.leb_spec (cr_seq_in r) (df_sequence f)).
    + wp_step. destruct (cr_seq_in r <? df_sequence f); wp_step; wp_step; apply wp_plus_one; try exact Hroom; wp_step; by apply Hgo.
    + wp_step. wp_step. unfold return_. wp_step. apply Hq. split; [split; [done | by right] |].
      unfold flags_agree, in_sequence. rewrite Er, Erel, Eret. cbn [andb negb].
      destruct (Z.leb_spec (cr_seq_in r) (df_sequence f)); [lia | done].
Qed.

(** ** Service and action frames *)

Lemma operation_ids_agree exts : Forall ext_ok exts -> operation_id_of exts = operation_id_in exts.
Proof.
  induction 1 as [| e exts He _ IH]; [done |]. cbn [operation_id_of operation_id_in].
  destruct (Z.eqb_spec (ext_type_id e) OPERATION_ID_EXTENSION_TYPE) as [E |]; [| exact IH].
  destruct He as (_ & _ & _ & Hlen & _). rewrite (Hlen 16) by (rewrite E; done). done.
Qed.

Lemma admit_op_runtime r opid seq admitted r' :
  admit_op_seq_in r opid seq = (admitted, r') -> runtime_ok r -> is_sequence seq ->
  runtime_ok r' /\ cr_kind r' = cr_kind r /\ cr_entity r' = cr_entity r /\ cr_priority r' = cr_priority r.
Proof.
  intros E Hok Hs. pose proof (rt_op_seq_in _ Hok) as Hin.
  assert (Hn : is_sequence (or_else (cr_op_seq_in r !! opid) 0)).
  { destruct (cr_op_seq_in r !! opid) eqn:El; [by apply (Hin opid) | unfold is_sequence, u64_max; cbn; lia]. }
  assert (Hn' : is_sequence (u64_saturating_add seq 1)) by (unfold is_sequence, u64_saturating_add, u64_max in *; lia).
  unfold admit_op_seq_in in E. cbv zeta in E. destruct Hok, r. destruct (negb _); simplify_eq; cbn in *;
    (split; [split; cbn in *; try done; by apply map_Forall_insert_2 | done]).
Qed.

Lemma next_op_runtime r opid seq r' :
  next_op_seq_out r opid = (seq, r') -> runtime_ok r ->
  runtime_ok r' /\ is_sequence seq /\ cr_kind r' = cr_kind r /\ cr_priority r' = cr_priority r.
Proof.
  intros E Hok. pose proof (rt_op_seq_out _ Hok) as Hin.
  assert (Hn : is_sequence (or_else (cr_op_seq_out r !! opid) 0)).
  { destruct (cr_op_seq_out r !! opid) eqn:El; [by apply (Hin opid) | unfold is_sequence, u64_max; cbn; lia]. }
  unfold next_op_seq_out in E. cbv zeta in E. simplify_eq.
  assert (Hn' : is_sequence (u64_saturating_add (or_else (cr_op_seq_out r !! opid) 0) 1))
    by (unfold is_sequence, u64_saturating_add, u64_max in *; lia).
  destruct Hok, r. cbn in *. split_and!; try done. split; cbn in *; try done. by apply map_Forall_insert_2.
Qed.

(** Admission: the runtime with its operation entry, or the end of the turn. *)
Lemma wp_admit_operation f r opid (Q : ChannelRuntime * bytes -> World B -> Prop) X w :
  data_turn w -> cn_channels (w_conn w) !! df_channel_id f = Some r -> runtime_ok r ->
  is_sequence (df_sequence f) -> conn_operation_id f = Some opid -> (exists data, df_payload f = Application data) ->
  (forall r', cr_kind r' = cr_kind r -> cr_entity r' = cr_entity r -> runtime_ok r' ->
     let w' := with_conn (set_channels (<[df_channel_id f := r']> (cn_channels (w_conn w))) (w_conn w)) w in
     data_turn w' -> Q (r', opid) w') ->
  (forall w', settled (w_queue w) w' -> X tt w') ->
  wp (admit_operation (B := B) build f) Q X w.
Proof.
  intros Hd Hr Hok Hseq Ho Happ Hq Hx. unfold admit_operation, put_runtime, on_conn. wp_step. eapply wp_runtime; [exact Hr |].
  rewrite Ho. wp_step. wp_step. destruct (admit_op_seq_in r opid (df_sequence f)) as [admitted r'] eqn:Ea.
  destruct (admit_op_runtime _ _ _ _ _ Ea Hok Hseq) as (Hok' & Hk & He & _).
  pose proof (data_turn_put _ r r' w Hd Hr Hk Hok') as Hd'.
  wp_step. wp_step. wp_step. destruct admitted.
  - wp_step. wp_step. apply wp_application; [done |]. wp_step. by apply Hq.
  - by apply wp_violation; [exact Hd' | apply reportable_check |].
Qed.

(** The opcodes of service and action frames the header rules allow. *)
Lemma app_frame_parses opcode id seq priority opid payload area b :
  OPCODE_SERVICE_REQUEST <= opcode <= OPCODE_ACTION_CANCEL -> 1 <= id <= u32_max -> is_sequence seq ->
  0 <= priority <= 4 -> id_bytes 16 opid -> bytes_ok payload ->
  let ext := {| ext_type_id := OPERATION_ID_EXTENSION_TYPE; ext_critical := true; ext_value := opid |} in
  encode_extension_area [ext] = Ok area -> encode_frame (app_header opcode id seq priority) area payload = Ok b ->
  exists len elen, parse_frame b (Some frame_options) =
    Ok (frame_of (wire_header (app_header opcode id seq priority) len elen) ([ext], Application payload)).
Proof.
  intros Hop Hid Hs Hpr [Hob Hol] Hpay ext Ha He. pose proof (encode_area_spec [ext]) as Hspec. rewrite Ha in Hspec.
  destruct Hspec as (Hasc & Hlen & Hfit & Harea).
  assert (Hext : ext_ok ext).
  { split; [unfold is_byte; cbn; unfold OPERATION_ID_EXTENSION_TYPE; lia |]. split; [done |]. split; [by apply (Forall_inv Hlen) |].
    split; [| done]. intros n. cbn. by intros [= <-]. }
  assert (Hdec : decode_extension_area area = Ok [ext]).
  { rewrite Harea. rewrite decode_area_complete; [done | by constructor | done | exact Hfit]. }
  assert (Hab : bytes_ok area).
  { rewrite Harea. unfold area_bytes, tlv_bytes. cbn [map concat]. rewrite app_nil_r, !bytes_ok_app. split_and!; try done.
    - by apply bytes_ok_check.
    - by apply bytes_ok_check.
    - apply bytes_ok_to_be.
    - apply bytes_ok_zeros. }
  eexists _, _. eapply (encoded_frame_parses frame_options _ area payload b [ext] (Application payload)); try done.
  - unfold fields_typed, is_byte, is_unsigned, is_signed, is_sequence, u32_max, u64_max, app_header, FLAG_ROS_RELIABLE,
      OPCODE_SERVICE_REQUEST, OPCODE_ACTION_CANCEL in *. cbn. lia.
  - unfold check_header, app_header, wire_header. cbn [fh_opcode fh_flags fh_channel_id fh_priority fh_clock_id
      fh_source_time_ns h_opcode h_flags h_channel_id h_priority h_clock_id h_source_time_ns].
    assert (Hcases : opcode = 3 \/ opcode = 4 \/ opcode = 5 \/ opcode = 6 \/ opcode = 7 \/ opcode = 8 \/ opcode = 9)
      by (unfold OPCODE_SERVICE_REQUEST, OPCODE_ACTION_CANCEL in *; lia).
    destruct_or! Hcases; subst opcode; cbn; (destruct (Z.eqb_spec id 0); [lia |]); cbn;
      (destruct (Z.ltb_spec 4 priority); [lia |]); done.
  - cbn. unfold OPCODE_SERVICE_REQUEST in Hop. split; [lia | done].
Qed.

(** An application frame of an active channel goes out, or the connection closes. *)
Lemma wp_push_app kind opcode id seq priority opid payload (Q : bool -> World B -> Prop) X w :
  data_turn w -> active_kind (cn_session (w_conn w)) id = Some kind -> opcode_sender kind opcode = Some Server ->
  OPCODE_SERVICE_REQUEST <= opcode <= OPCODE_ACTION_CANCEL -> 1 <= id <= u32_max -> is_sequence seq ->
  0 <= priority <= 4 -> id_bytes 16 opid -> opid <> zeros 16 -> bytes_ok payload ->
  (forall ok w', settled (w_queue w) w' -> Q ok w') ->
  wp (push_app_frame (B := B) build (app_header opcode id seq priority) (Some opid) payload) Q X w.
Proof.
  intros [Hwf Hp Hroom] Hact Hs Hop Hid Hseq Hpr Ho Hz Hpay Hq. unfold push_app_frame.
  set (ext := {| ext_type_id := OPERATION_ID_EXTENSION_TYPE; ext_critical := true; ext_value := opid |}).
  assert (Hclose : forall o, settled (w_queue w) (with_out (mk_out o true) w)) by (intros o; split; [done | by left]).
  wp_step. pose proof (encode_area_spec [ext]) as Hspec. destruct (encode_extension_area [ext]) as [area | e |] eqn:Ea; [| | done].
  2: { wp_step. apply wp_close. wp_step. wp_step. apply Hq, Hclose. }
  wp_step. pose proof (encode_frame_spec (app_header opcode id seq priority) area payload) as Hspec2.
  destruct (encode_frame _ _ _) as [b | e |] eqn:Ee; [| | done].
  2: { wp_step. apply wp_close. wp_step. apply Hq, Hclose. }
  destruct (app_frame_parses opcode id seq priority opid payload area b Hop Hid Hseq Hpr Ho Hpay Ea Ee) as (len & elen & Hparse).
  unfold active_kind in Hact. destruct (ss_channels (cn_session (w_conn w)) !! id) as [entry |] eqn:He; [| done].
  case_bool_decide as Hst; [| done]. injection Hact as Hkind.
  wp_step. eapply wp_record_ok; [exact Hparse | apply (cc_role _ (proj1 Hwf)) | |].
  { eapply (acc_service_action _ _ _ entry); try done.
    - by rewrite Hkind.
    - exists opid. split; [| done]. unfold Session.frame_operation_id. cbn. by rewrite (proj2 Ho).
    - by right; right. }
  wp_step. apply wp_assert; [done |]. wp_step. unfold push_out, on_out. wp_step. wp_step.
  apply Hq. split; [done | right]. cbn. by rewrite set_same_session.
Qed.

Lemma wp_push_answer kind opcode id priority opid answer (Q : unit -> World B -> Prop) X w :
  data_turn w -> active_kind (cn_session (w_conn w)) id = Some kind -> opcode_sender kind opcode = Some Server ->
  OPCODE_SERVICE_REQUEST <= opcode <= OPCODE_ACTION_CANCEL ->
  0 <= priority <= 4 -> id_bytes 16 opid -> opid <> zeros 16 -> bytes_ok answer ->
  (forall w', settled (w_queue w) w' -> Q tt w') ->
  wp (push_answer (B := B) build opcode id priority opid answer) Q X w.
Proof.
  intros Hd Hact Hs Hop Hpr Ho Hz Hpay Hq.
  destruct (core_runtime _ _ _ (proj1 (dt_wf _ Hd)) Hact) as (r & Hr & Hk & Hok & Hid).
  unfold push_answer, conn_, put_runtime, on_conn. wp_step. wp_step. rewrite Hr.
  destruct (next_op_seq_out r opid) as [seq r'] eqn:En. destruct (next_op_runtime _ _ _ _ En Hok) as (Hok' & Hseq & Hk' & _).
  pose proof (data_turn_put _ r r' w Hd Hr Hk' Hok') as Hd'.
  wp_step. wp_step. wp_step. eapply (wp_push_app kind); try done.
  by destruct w as [[]].
Qed.

(** What the session guarantees of an accepted service or action frame. *)
Record operation_frame (w : World B) (f : DecodedFrame) (kind : OperationKind) (opid : bytes) : Prop := {
  of_kind : active_kind (cn_session (w_conn w)) (df_channel_id f) = Some kind;
  of_sender : opcode_sender kind (df_opcode f) = Some Client;
  of_opid : conn_operation_id f = Some opid;
  of_opid_bytes : id_bytes 16 opid;
  of_nonzero : opid = zeros 16 -> df_opcode f = OPCODE_ACTION_STATUS;
  of_opcode : df_opcode f <> OPCODE_CONTROL_CBOR
}.

(** The common part of both operation handlers: admission, then the backend. *)
Lemma wp_operation f b kind opid (k : ChannelRuntime -> bytes -> bytes -> Conn unit) (Q X : unit -> World B -> Prop) w :
  data_turn w -> rust_slice b -> frame_ok b f -> operation_frame w f kind opid ->
  (forall r payload w', data_turn w' -> w_queue w' = w_queue w -> cr_kind r = kind -> 0 <= cr_priority r <= 4 ->
     active_kind (cn_session (w_conn w')) (df_channel_id f) = Some kind -> 1 <= df_channel_id f <= u32_max ->
     wp (k r opid payload) Q X w') ->
  (forall w', settled (w_queue w) w' -> Q tt w' /\ X tt w') ->
  wp (admitted <~ admit_operation (B := B) build f ;;
      let '(runtime, opid) := admitted in
      payload <~ frame_payload_bytes b f ;; k runtime opid payload) Q X w.
Proof.
  intros Hd Hb Hf [Hact Hsend Hoid Hob Hnz Hop] Hk Hq.
  destruct (core_runtime _ _ _ (proj1 (dt_wf _ Hd)) Hact) as (r & Hr & Hkr & Hok & Hid).
  wp_step. apply (wp_admit_operation f r opid); try done; [apply (fo_sequence _ _ Hf) | by eapply frame_application | | apply Hq].
  intros r' Hk' _ Hok' w' Hd'. cbn. wp_step. apply wp_payload; [done | done |].
  apply Hk; try done; [congruence | apply Hok' |]. subst w'. destruct w as [[]]. exact Hact.
Qed.

(** A backend answer that is only reported when it is an error. *)
Lemma wp_backend_report {A} (P : A -> Prop) (m : Method B A) kind id (Q : unit -> World B -> Prop) X w :
  answers P m -> data_turn w -> active_kind (cn_session (w_conn w)) id = Some kind -> 1 <= id <= u32_max ->
  (forall w', settled (w_queue w) w' -> Q tt w') ->
  wp (r <~ backend_ m ;; report_backend_error (B := B) build id r) Q X w.
Proof.
  intros Ha [Hwf Hp Hrm] Hact Hid Hq. wp_step. apply active_kind_state in Hact.
  apply (wp_backend P); [done | |]; intros; by apply wp_report.
Qed.

(** A call whose answer is framed. *)
Lemma wp_backend_answer (m : Method B bytes) kind opcode id priority opid (Q : unit -> World B -> Prop) X w :
  answers rust_slice m -> data_turn w -> active_kind (cn_session (w_conn w)) id = Some kind -> 1 <= id <= u32_max ->
  opcode_sender kind opcode = Some Server -> OPCODE_SERVICE_REQUEST <= opcode <= OPCODE_ACTION_CANCEL ->
  0 <= priority <= 4 -> id_bytes 16 opid -> opid <> zeros 16 ->
  (forall w', settled (w_queue w) w' -> Q tt w') ->
  wp (r <~ backend_ m ;;
      match r with
      | inl answer => push_answer (B := B) build opcode id priority opid answer
      | inr _ => report_backend_error build id r
      end) Q X w.
Proof.
  intros Ha Hd Hact Hid Hs Hop Hpr Ho Hz Hq. wp_step. apply (wp_backend rust_slice); [done | |].
  - intros answer b' [Hbytes _]. eapply wp_push_answer; try done. by apply data_turn_backend.
  - intros e b' He. destruct Hd as [Hwf Hp Hrm]. apply wp_report; try done. by eapply active_kind_state.
Qed.

Lemma wp_done (Q : unit -> World B -> Prop) X w :
  data_turn w -> (forall w', settled (w_queue w) w' -> Q tt w') -> wp (S := World B) (E := unit) (ret tt) Q X w.
Proof. intros Hd Hq. by apply Hq, data_turn_settled. Qed.

Lemma wp_service_frame f b kind opid (Q X : unit -> World B -> Prop) w :
  data_turn w -> rust_slice b -> frame_ok b f -> operation_frame w f kind opid ->
  (forall w', settled (w_queue w) w' -> Q tt w' /\ X tt w') ->
  wp (handle_service_frame (B := B) build f b) Q X w.
Proof using Hlaws.
  intros Hd Hb Hf Ho Hq. unfold handle_service_frame. cbv zeta.
  apply (wp_operation f b kind opid (fun runtime opid payload =>
    match cr_kind runtime with
    | ServiceClient => if df_opcode f =? OPCODE_SERVICE_REQUEST then _ else ret tt
    | ServiceServer => if df_opcode f =? OPCODE_SERVICE_RESPONSE then _ else ret tt
    | _ => ret tt
    end)); try done.
  intros r payload w' Hd' Hqu Hkr Hpr Hact Hid. rewrite <- Hqu in Hq. destruct Ho as [_ Hs _ Hob Hnz _]. rewrite Hkr.
  destruct kind; try (apply wp_done; [done | apply Hq]).
  - destruct (Z.eqb_spec (df_opcode f) OPCODE_SERVICE_REQUEST) as [E |]; [| apply wp_done; [done | apply Hq]].
    eapply (wp_backend_answer _ ServiceClient); try done; [apply law_call | intros Hz | apply Hq].
    apply Hnz in Hz. by rewrite E in Hz.
  - destruct (_ =? _); [| apply wp_done; [done | apply Hq]].
    eapply (wp_backend_report anything); try done; [apply law_send_service_response | apply Hq].
Qed.

Lemma wp_action_frame f b kind opid (Q X : unit -> World B -> Prop) w :
  data_turn w -> rust_slice b -> frame_ok b f -> operation_frame w f kind opid ->
  (forall w', settled (w_queue w) w' -> Q tt w' /\ X tt w') ->
  wp (handle_action_frame (B := B) build f b) Q X w.
Proof using Hlaws.
  intros Hd Hb Hf Ho Hq. unfold handle_action_frame. cbv zeta.
  apply (wp_operation f b kind opid (fun runtime opid payload =>
    match cr_kind runtime with
    | ActionClient => if df_opcode f =? OPCODE_ACTION_GOAL then _ else _
    | ActionServer => if df_opcode f =? OPCODE_ACTION_FEEDBACK then _ else _
    | _ => ret tt
    end)); try done.
  intros r payload w' Hd' Hqu Hkr Hpr Hact Hid. rewrite <- Hqu in Hq. destruct Ho as [_ Hs _ Hob Hnz _]. rewrite Hkr.
  destruct kind; try (apply wp_done; [done | apply Hq]).
  - destruct (Z.eqb_spec (df_opcode f) OPCODE_ACTION_GOAL) as [E |].
    { eapply (wp_backend_answer _ ActionClient); try done; [apply law_send_action_goal | intros Hz | apply Hq].
      apply Hnz in Hz. by rewrite E in Hz. }
    destruct (_ =? _); [| apply wp_done; [done | apply Hq]].
    eapply (wp_backend_report rust_slice); try done; [apply law_cancel_action | apply Hq].
  - repeat destruct (_ =? _); try (apply wp_done; [done | apply Hq]).
    all: eapply (wp_backend_report anything); try done; [| apply Hq].
    + apply law_send_action_feedback.
    + apply law_send_action_result.
    + apply law_send_action_status.
Qed.

(** ** Authentication *)

Lemma decoded_correlation_id raw msg :
  rust_slice raw -> decode_control_message raw = Ok msg -> id_bytes 16 (or_else (conn_field_bytes msg 2) ZERO_CORRELATION).
Proof.
  intros Hr Hm. destruct (decoded_correlation raw msg Hr Hm) as (sid & Hs & Hl). unfold conn_field_bytes. rewrite Hs.
  pose proof (decoded_value raw msg 2 _ Hr Hm Hs) as Hok. cbn [cbor_okb] in Hok. apply andb_true_iff in Hok as [Hb _].
  split; [by apply bytes_ok_check | exact Hl].
Qed.

Lemma authenticate_texts scheme token :
  let d := authenticate auth_config scheme token in
  any_text (au_reason d) /\ (au_allow d = true -> nonempty_text (au_subject d)).
Proof using Hjwt.
  cbv zeta. unfold authenticate, verify_jwt, deny.
  repeat case_match; cbn [au_allow au_subject au_reason];
    (split; [by apply reportable_check | try done; intros _]).
  by eapply law_subject.
Qed.

Lemma new_session_id_ok counter : id_bytes 32 (new_session_id clock pid counter).
Proof.
  unfold new_session_id, id_bytes. cbn [flat_map]. rewrite app_nil_r, !bytes_ok_app, !blen_app, !blen_to_be.
  split; [split_and!; apply bytes_ok_to_be | done].
Qed.

Lemma room_less k j w : room k w -> j <= k -> room j w.
Proof. intros Hr Hj Hd. specialize (Hr Hd). lia. Qed.

Lemma room_sent k s' b w : room (k + 1) w -> 0 <= k -> room k (control_sent s' b w).
Proof.
  intros Hr Hk Hd. specialize (Hr Hd). cbn. destruct (w_conn w). cbn in *. unfold next.
  destruct (Z.eqb_spec cn_control_seq_out u64_max); lia.
Qed.

(** The snapshot that follows SessionReady. *)
Lemma wp_push_snapshot (Q X : unit -> World B -> Prop) w :
  conn_core (w_conn w) -> ss_phase (cn_session (w_conn w)) = Ready -> room 1 w ->
  (forall w', settled (w_queue w) w' -> Q tt w' /\ X tt w') ->
  wp (push_graph_snapshot (B := B) build config 1) Q X w.
Proof using Hconfig Hlaws.
  intros Hc Hp Hroom Hq. unfold push_graph_snapshot. wp_step. apply (wp_backend view_ok); [apply law_graph_view | |].
  - intros view b' Hv.
    destruct (graph_snapshot_accepted config Hconfig ZERO_CORRELATION 1 view zero_correlation_ok ltac:(unfold u64_max; lia) Hv)
      as (n & Ha).
    wp_step. eapply (wp_push_control 3); [exact Ha | by eapply graph_snapshot_accepts | | | done | |].
    + apply (cc_role _ Hc).
    + apply (cc_out _ Hc).
    + intros b _. unfold on_conn. wp_step. apply Hq. split; [done | right].
      pose proof (graph_snapshot_accepts _ _ _ _ _ _ _ Ha Hp) as Hac.
      split.
      * apply core_generation, core_out; [| by apply next_sequence, (cc_out _ Hc)].
        eapply core_session; [exact Hc | exact Hac |]. by apply (agree_same _ (cn_session (w_conn w))); [apply Hc |].
      * destruct w as [[]]. cbn in *. split; [done |]. cbn. rewrite Hp. exists 1. split; [done | unfold u64_max; lia].
    + intros _. wp_step. apply Hq, closing_settled. done.
  - intros e b' [Hcode Hmsg]. destruct (session_error_accepted ZERO_CORRELATION (err_code e) (err_message e)
      zero_correlation_ok Hcode Hmsg) as (es & n & Ha & Hn).
    destruct (session_error_accepts (cn_session (w_conn w)) _ _ _ _ _ Ha) as (s' & eff & Hac & _); [by rewrite Hp .. |].
    wp_step. eapply (wp_push_small 15 _ es n s'); try done; [apply (cc_role _ Hc) | apply (cc_out _ Hc) |].
    intros b _. wp_step. apply wp_close. apply wp_throw, Hq, closing_settled. done.
Qed.

Lemma wp_authenticate raw msg hello (Q X : unit -> World B -> Prop) w :
  rust_slice raw -> decode_control_message raw = Ok msg ->
  conn_core (w_conn w) -> ss_phase (cn_session (w_conn w)) = SelectedAwaitSessionReady ->
  cn_server_hello (w_conn w) = Some hello -> room 3 w ->
  (forall w', settled (w_queue w) w' -> Q tt w' /\ X tt w') ->
  wp (handle_authenticate (B := B) build config auth_config clock pid msg) Q X w.
Proof using Hconfig Hjwt Hlaws.
  intros Hraw Hm Hc Hp Hh Hroom Hq. pose proof (decoded_correlation_id raw msg Hraw Hm) as Hcorr.
  unfold handle_authenticate. cbv zeta. set (corr := or_else (conn_field_bytes msg 2) ZERO_CORRELATION) in *.
  set (d := authenticate _ _ _).
  destruct (authenticate_texts (or_else (conn_field_text msg 16) []) (or_else (conn_field_bytes msg 17) [])) as [Hreason Hsub].
  fold d in Hreason, Hsub. wp_step. destruct (au_allow d) eqn:Ed; cbn [negb].
  2: { destruct (session_error_accepted corr AUTHENTICATION_FAILED (au_reason d) Hcorr
         ltac:(unfold wire_code, AUTHENTICATION_FAILED; lia) Hreason) as (es & n & Ha & Hn).
       destruct (session_error_accepts (cn_session (w_conn w)) _ _ _ _ _ Ha) as (s' & eff & Hac & _); [by rewrite Hp .. |].
       wp_step. eapply (wp_push_small 15 _ es n s'); try done;
         [apply (cc_role _ Hc) | apply (cc_out _ Hc) | by eapply room_less |].
       intros b _. wp_step. apply wp_close. apply wp_throw, Hq, closing_settled. done. }
  wp_step. unfold conn_, on_conn. wp_step. wp_step. rewrite Hh. wp_step. wp_step. wp_step. wp_step. wp_step. wp_step.
  destruct (session_ready_accepted config Hconfig hello corr (new_session_id clock pid (w_session_counter w)) (au_subject d))
    as (es & n & Ha & Hn); [| done | apply new_session_id_ok | by apply Hsub |].
  { pose proof (cc_hello _ Hc) as Hok. by rewrite Hh in Hok. }
  set (w1 := mk_world _ _ _ _ _ _).
  assert (Hc1 : conn_core (w_conn w1)) by by apply core_subject.
  assert (Hs1 : cn_session (w_conn w1) = cn_session (w_conn w)) by (cbn; by destruct (w_conn w)).
  assert (Hac := acc_session_ready (cn_session (w_conn w1)) (message_of 2 es) eq_refl ltac:(by rewrite Hs1)).
  wp_step. eapply (wp_push_small 2); [exact Ha | exact Hn | exact Hac | apply (cc_role _ Hc1) | apply (cc_out _ Hc1) | |].
  { unfold room. cbn. destruct (w_conn w) eqn:E. intros Hd. specialize (Hroom Hd). rewrite E in Hroom. cbn in *. lia. }
  intros b _. wp_step. wp_step. apply wp_call_fn. apply wp_push_snapshot; [| by cbn; destruct (w_conn w) | |].
  - apply core_out; [| by apply next_sequence, (cc_out _ Hc1)]. eapply core_session; [exact Hc1 | exact Hac |].
    by apply (agree_same _ (cn_session (w_conn w1))); [apply Hc1 |].
  - apply (room_sent 1); [| lia]. unfold room. cbn. destruct (w_conn w) eqn:E. intros Hd. specialize (Hroom Hd).
    rewrite E in Hroom. cbn in *. lia.
  - intros w' Hs. split; by apply Hq.
Qed.

(** ** Opening a channel *)

Lemma find_elem {A} (p : A -> bool) l x : List.find p l = Some x -> x ∈ l.
Proof. intros Hf. apply List.find_some in Hf as [Hin _]. by apply list_elem_of_In. Qed.

Lemma wp_push_delta endpoint (Q X : unit -> World B -> Prop) w :
  conn_wf (w_conn w) -> ss_phase (cn_session (w_conn w)) = Ready -> endpoint_ok endpoint -> room 1 w ->
  (forall w', settled (w_queue w) w' -> Q tt w' /\ X tt w') ->
  wp (push_graph_delta_for_endpoint (B := B) build config endpoint) Q X w.
Proof using Hconfig.
  intros [Hc Hph] Hp He Hroom Hq. pose proof Hph as [Hgen Hph']. rewrite Hp in Hph'. destruct Hph' as (g & Hg & Hgr).
  unfold push_graph_delta_for_endpoint, conn_, on_conn. wp_step. wp_step. rewrite Hg. cbv zeta.
  assert (Hnext : 1 <= u64_saturating_add g 1 <= u64_max) by (unfold u64_saturating_add, u64_max in *; lia).
  destruct (graph_delta_accepted config Hconfig ZERO_CORRELATION g (u64_saturating_add g 1) endpoint zero_correlation_ok
    ltac:(lia) ltac:(lia) He) as (n & Ha & Hn).
  pose proof (graph_delta_accepts (cn_session (w_conn w)) _ _ _ _ _ _ Ha Hp ltac:(congruence)) as Hac.
  wp_step. eapply (wp_push_small 4); [exact Ha | exact Hn | exact Hac | apply (cc_role _ Hc) | apply (cc_out _ Hc) | done |].
  intros b _. wp_step. apply Hq. split; [done | right]. split.
  - apply core_generation, core_out; [| by apply next_sequence, (cc_out _ Hc)].
    eapply core_session; [exact Hc | exact Hac |]. by apply (agree_same _ (cn_session (w_conn w))); [apply Hc |].
  - destruct w as [[]]. cbn in *. split; [done |]. cbn. rewrite Hp. by exists (u64_saturating_add g 1).
Qed.

(** The state in which the gateway answers OpenChannel. *)
Record opening (w : World B) (id : Z) (e : ChannelEntry) : Prop := {
  op_wf : conn_wf (w_conn w);
  op_ready : ss_phase (cn_session (w_conn w)) = Ready;
  op_entry : ss_channels (cn_session (w_conn w)) !! id = Some e;
  op_pending : ce_state e = Pending;
  op_id : 1 <= id <= u32_max
}.

Lemma set_channel_wf c id e s eff m state n channels :
  conn_wf c -> ss_phase (cn_session c) = Ready -> s = set_channel id state (cn_session c) ->
  ss_channels (cn_session c) !! id = Some e ->
  control_accepts (cn_session c) Server m s eff -> is_sequence n -> channels_agree channels s ->
  map_Forall (fun id r => 1 <= id <= u32_max /\ runtime_ok r) channels ->
  conn_wf (set_channels channels (set_control_seq_out n (set_session s c))).
Proof.
  intros [[] Hph] Hp -> He Ha Hn Hag Hch. destruct (control_keeps _ _ _ _ _ Ha) as [Hwf Hr]; [done |]. destruct c. cbn in *.
  split; [split; cbn in *; try done; congruence |]. unfold phase_ok in *. cbn in *. by rewrite Hp in *.
Qed.

Lemma wp_refuse corr id e code reason (Q X : unit -> World B -> Prop) w :
  opening w id e -> id_bytes 16 corr -> wire_code code -> any_text reason -> room 1 w ->
  (forall w', settled (w_queue w) w' -> Q tt w' /\ X tt w') ->
  wp (refuse_channel (B := B) build corr id code reason) Q X w.
Proof.
  intros [Hwf Hp He Hst Hid] Hcorr Hcode Hreason Hroom Hq. unfold refuse_channel.
  destruct (channel_refused_accepted corr id code reason Hcorr Hid Hcode Hreason) as (es & n & Ha & Hn).
  destruct (channel_ready_accepts (cn_session (w_conn w)) _ id e 3 RError es n Ha) as (eff & Hac); try done; try in_entries; try lia.
  wp_step. eapply (wp_push_small 9); [exact Ha | exact Hn | exact Hac | apply (cc_role _ (proj1 Hwf))
    | apply (cc_out _ (proj1 Hwf)) | done |].
  intros b _. wp_step. apply Hq. split; [done | right]. cbn.
  pose proof (set_channel_wf (w_conn w) id e _ eff _ ChFailed (next (cn_control_seq_out (w_conn w))) (cn_channels (w_conn w))
    Hwf Hp eq_refl He Hac) as Hwf'. destruct (w_conn w). cbn in *. apply Hwf'.
  - apply next_sequence, (cc_out _ (proj1 Hwf)).
  - eapply agree_failed; [apply (cc_channels _ (proj1 Hwf)) | exact He | exact Hst].
  - apply (cc_runtimes _ (proj1 Hwf)).
Qed.

(** The reply that opens the channel. *)
Lemma reply_accepts s kind corr id e priority effective :
  id_bytes 16 corr -> 1 <= id <= u32_max -> 0 <= priority <= 4 -> effective_qos_ok effective ->
  ss_phase s = Ready -> ss_channels s !! id = Some e -> ce_state e = Pending ->
  exists es n eff, accepted 9 (channel_ready_reply config kind corr id priority effective) es n /\
    n <= CONTROL_PAYLOAD_MAX_BYTES /\ control_accepts s Server (message_of 9 es) (set_channel id Active s) eff.
Proof using Hconfig.
  intros Hcorr Hid Hpr Hq Hp He Hst.
  assert (Hall : forall l es n, accepted 9 (Map l) es n -> (29, Unsigned id) ∈ l -> (33, Unsigned 0) ∈ l ->
    exists eff, control_accepts s Server (message_of 9 es) (set_channel id Active s) eff).
  { intros l es n Ha H1 H2. by apply (channel_ready_accepts s l id e 0 Allow es n); try lia. }
  destruct kind; cbn [channel_ready_reply].
  1, 2: destruct (BuilderProofs.channel_ready_accepted config Hconfig corr id priority effective) as (es & n & Ha & Hn); try done.
  3, 4: destruct (service_ready_accepted config Hconfig corr id priority) as (es & n & Ha & Hn); try done.
  5, 6: destruct (action_ready_accepted config Hconfig corr id priority) as (es & n & Ha & Hn); try done.
  all: destruct (Hall _ es n Ha) as (eff & Hac); [in_entries | in_entries | by exists es, n, eff].
Qed.

Lemma open_failure_ok msg code reason :
  open_failure config msg = Some (code, reason) -> wire_code code /\ reportable reason.
Proof.
  unfold open_failure. repeat case_match; intros [= <- <-];
    (split; [unfold wire_code; lia | by apply reportable_check]).
Qed.

Lemma fresh_runtime_ok kind entity rel tl priority :
  0 <= priority <= 4 -> runtime_ok (mk_runtime kind entity rel tl priority 0 0 ∅ ∅).
Proof. intros Hp. split; cbn; try (unfold is_sequence, u64_max; lia); try exact Hp; apply map_Forall_empty. Qed.

(** What the handler does once the entity exists. *)
Lemma wp_opened corr id e priority effective entity rel tl (k : Conn unit) (Q X : unit -> World B -> Prop) w :
  opening w id e -> id_bytes 16 corr -> 0 <= priority <= 4 -> effective_qos_ok effective -> room 2 w ->
  (forall w', conn_wf (w_conn w') -> ss_phase (cn_session (w_conn w')) = Ready -> room 1 w' -> w_queue w' = w_queue w ->
     wp k Q X w') ->
  wp (on_conn (fun c => set_channels (<[id := mk_runtime (ce_operation_kind e) entity rel tl priority 0 0 ∅ ∅]> (cn_channels c)) c) ;;~
      sent <~ push_control (B := B) build (channel_ready_reply config (ce_operation_kind e) corr id priority effective) ;;
      (if sent then ret tt
       else
         channels <~ conn_ cn_channels ;;
         match channels !! id with
         | Some runtime =>
             on_conn (fun c => set_channels (delete id (cn_channels c)) c) ;;~
             destroy_ (cr_entity runtime)
         | None => ret tt
         end ;;~
         return_) ;;~
      k) Q X w.
Proof using Hconfig.
  intros [Hwf Hp He Hst Hid] Hcorr Hpr Hqos Hroom Hk. unfold on_conn at 1. wp_step. wp_step.
  destruct (reply_accepts (cn_session (w_conn w)) (ce_operation_kind e) corr id e priority effective)
    as (es & n & eff & Ha & Hn & Hac); try done.
  set (runtime := mk_runtime _ entity rel tl priority 0 0 ∅ ∅).
  set (w1 := mk_world _ _ _ _ _ _).
  assert (Hs1 : cn_session (w_conn w1) = cn_session (w_conn w)) by (cbn; by destruct (w_conn w)).
  assert (Ho1 : cn_control_seq_out (w_conn w1) = cn_control_seq_out (w_conn w)) by (cbn; by destruct (w_conn w)).
  assert (Hroom1 : room 2 w1) by (intros Hd; rewrite Ho1; by apply Hroom).
  wp_step. eapply (wp_push_small 9); [exact Ha | exact Hn | rewrite Hs1; exact Hac | | | by eapply room_less |].
  { rewrite Hs1. apply (cc_role _ (proj1 Hwf)). }
  { rewrite Ho1. apply (cc_out _ (proj1 Hwf)). }
  intros b _. wp_step. wp_step. apply Hk; [| | by apply (room_sent 1) | done].
  - pose proof (set_channel_wf (w_conn w) id e _ eff _ Active (next (cn_control_seq_out (w_conn w)))
      (<[id := runtime]> (cn_channels (w_conn w))) Hwf Hp eq_refl He Hac) as Hwf'.
    subst w1. cbn. destruct (w_conn w) eqn:Ec. cbn in *. apply Hwf'.
    + apply next_sequence, (cc_out _ (proj1 Hwf)).
    + apply (agree_active _ _ id e); [apply (cc_channels _ (proj1 Hwf)) | exact He | done].
    + apply map_Forall_insert_2; [| apply (cc_runtimes _ (proj1 Hwf))]. split; [done | by apply fresh_runtime_ok].
  - subst w1. cbn. by destruct (w_conn w).
Qed.

Lemma wp_open_channel msg id e (Q X : unit -> World B -> Prop) w :
  opening w id e -> open_kind msg = Some (ce_operation_kind e) ->
  id_bytes 16 (or_else (conn_field_bytes msg 2) ZERO_CORRELATION) ->
  0 <= as_unsigned 8 (or_else (conn_field_uint msg 32) 2) <= 4 -> room 2 w ->
  (forall w', settled (w_queue w) w' -> Q tt w' /\ X tt w') ->
  wp (open_channel (B := B) build config id msg) Q X w.
Proof using Hconfig Hlaws.
  intros Hop Hkind Hcorr Hpr Hroom Hq. pose proof (room_less 2 1 w Hroom ltac:(lia)) as Hroom1.
  unfold open_channel. cbv zeta. rewrite Hkind. wp_step. wp_step. wp_step.
  destruct (open_failure config msg) as [[code reason] |] eqn:Ef.
  { destruct (open_failure_ok _ _ _ Ef) as [Hcode Hreason]. wp_step. eapply wp_refuse; try done.
    intros w' Hs. split; by apply Hq. }
  wp_step. unfold conn_ at 1. wp_step. wp_step. wp_step. destruct (acl_admits _ _ _ _).
  2: { wp_step. eapply wp_refuse; try done; try (by apply reportable_check).
       intros w' Hs. split; by apply Hq. }
  wp_step. wp_step. set (requested := match cm_fields msg !! 11 with Some v => _ | None => _ end).
  assert (Hqos : effective_qos_ok (resolve_effective requested)).
  { unfold effective_qos_ok. apply resolve_depth. subst requested. destruct (cm_fields msg !! 11); [apply from_wire_depth | done]. }
  apply (wp_backend anything); [apply create_entity_answers | |].
  2: { intros err b' [Hcode Hmsg]. eapply wp_refuse; [by destruct Hop; split | done .. |]. intros w' Hs. by apply Hq. }
  intros entity b' _. apply wp_opened; [by destruct Hop; split | done .. |].
  intros w' Hwf Hp Hrm Hqu. cbn in Hqu. rewrite <- Hqu in Hq. wp_step. apply (wp_backend view_ok); [apply law_graph_view | |].
  - intros view b'' Hview. destruct (List.find _ _) as [endpoint |] eqn:Efind.
    2: { wp_step. apply Hq. split; [done | by right]. }
    apply find_elem in Efind. apply wp_call_fn. apply wp_push_delta; try done.
    + pose proof (vo_endpoints _ Hview) as Hall. rewrite Forall_forall in Hall. by apply Hall.
    + intros w'' Hs. split; by apply Hq.
  - intros err b'' _. wp_step. apply Hq. split; [done | by right].
Qed.

(** ** Control messages *)

Definition is_priority (s : Schema.Schema) : bool :=
  match s with Schema.SUint min max => (min =? 0) && (max =? 4) | _ => false end.

Lemma decoded_priority raw msg :
  rust_slice raw -> decode_control_message raw = Ok msg -> cm_kind msg = CONTROL_KIND_OPEN_CHANNEL ->
  0 <= as_unsigned 8 (or_else (conn_field_uint msg 32) 2) <= 4.
Proof.
  intros Hr Hm Hk. destruct (decoded_field raw msg 32 is_priority Hr Hm) as (s & v & Hp & Hc & Hf).
  { intros s. rewrite Hk. intros [= <-]. by vm_compute. }
  destruct s; try done. cbn [is_priority] in Hp. apply andb_true_iff in Hp as [Hp1%Z.eqb_eq Hp2%Z.eqb_eq]. subst.
  inversion Hc; subst. unfold conn_field_uint. rewrite Hf. cbn [or_else].
  rewrite as_unsigned_small by (unfold is_unsigned; lia). lia.
Qed.

Lemma open_kind_agrees raw msg op kind :
  rust_slice raw -> decode_control_message raw = Ok msg -> Session.field_uint msg FIELD_OPERATION_KIND = Some op ->
  op <= 255 -> OperationKind_from_u8 (as_unsigned 8 op) = Some kind -> open_kind msg = Some kind.
Proof.
  intros Hr Hm Hf Hle Hk. unfold Session.field_uint, FIELD_OPERATION_KIND in Hf. unfold open_kind, conn_field_uint.
  destruct (cm_fields msg !! 30) as [v |] eqn:E; [| done]. pose proof (decoded_value raw msg 30 v Hr Hm E) as Hok.
  destruct v as [| | n | n | | | |]; try done; cbn [cbor_okb] in Hok.
  - injection Hf as <-. rewrite as_unsigned_small in Hk by (unfold is_unsigned; lia). exact Hk.
  - destruct (Z.leb_spec 0 n); [lia | done].
Qed.

(** A control message the session accepted from the client, before it is handled. *)
Record control_turn (w : World B) (msg : ControlMessage) (eff : SessionEffects) (c : ConnState) : Prop := {
  ct_wf : conn_wf c;
  ct_raw : exists raw, rust_slice raw /\ decode_control_message raw = Ok msg;
  ct_accepts : control_accepts (cn_session c) Client msg (cn_session (w_conn w)) eff;
  ct_conn : exists n, is_sequence n /\ w_conn w = set_control_seq_in n (set_session (cn_session (w_conn w)) c)
}.

Lemma set_session_twice s s' c : set_session s (set_session s' c) = set_session s c.
Proof. by destruct c. Qed.

(** The session did not change. *)
Lemma control_turn_same w msg eff c :
  control_turn w msg eff c -> cn_session (w_conn w) = cn_session c -> conn_wf (w_conn w).
Proof.
  intros [Hwf _ _ (n & Hn & Hw)] Hs. rewrite Hw, Hs, set_same_session. by apply wf_in.
Qed.

(** The session changed one channel, not to active or from active. *)
Lemma control_turn_core w msg eff c :
  control_turn w msg eff c -> channels_agree (cn_channels c) (cn_session (w_conn w)) -> conn_core (w_conn w).
Proof.
  intros [[Hc _] _ Ha (n & Hn & Hw)] Hag. rewrite Hw. apply core_in; [| done]. by eapply core_session.
Qed.

Lemma control_turn_channel w msg eff c :
  control_turn w msg eff c -> channels_agree (cn_channels c) (cn_session (w_conn w)) ->
  ss_phase (cn_session c) = Ready -> ss_phase (cn_session (w_conn w)) = Ready ->
  ss_graph_generation (cn_session (w_conn w)) = ss_graph_generation (cn_session c) -> conn_wf (w_conn w).
Proof.
  intros Ht Hag Hp Hp' Hg. split; [by eapply control_turn_core |]. destruct Ht as [[_ Hph] _ _ (n & Hn & Hw)].
  unfold phase_ok in *. rewrite Hp', Hg. rewrite Hp in Hph. rewrite Hw. by destruct c.
Qed.

Lemma control_turn_channels w msg eff c : control_turn w msg eff c -> cn_channels (w_conn w) = cn_channels c.
Proof. intros [_ _ _ (n & _ & ->)]. by destruct c. Qed.

Lemma wp_heartbeat (Q X : unit -> World B -> Prop) w :
  conn_wf (w_conn w) -> ss_phase (cn_session (w_conn w)) = Ready -> room 1 w ->
  (build = DebugBuild -> cn_heartbeat_counter (w_conn w) < u64_max) ->
  (forall w', settled (w_queue w) w' -> Q tt w') ->
  wp (counter <~ conn_ cn_heartbeat_counter ;;
      counter <~ plus_one (B := B) build counter ;;
      on_conn (set_heartbeat_counter counter) ;;~
      push_control build (heartbeat counter) ;;~ ret tt) Q X w.
Proof.
  intros Hwf Hp Hroom Hb Hq. unfold conn_, on_conn. wp_step. wp_step. wp_step. apply wp_plus_one; [done |].
  wp_step. wp_step. pose proof (next_sequence _ (cc_heartbeat _ (proj1 Hwf))) as Hn.
  set (counter := next _) in *. destruct (heartbeat_accepted counter Hn) as (es & n & Ha & Hle).
  pose proof (wf_heartbeat _ _ Hwf Hn) as Hwf1. set (w1 := mk_world _ _ _ _ _ _).
  assert (Hs1 : cn_session (w_conn w1) = cn_session (w_conn w)) by (cbn; by destruct (w_conn w)).
  wp_step. eapply (wp_push_small 12); [exact Ha | exact Hle | by apply acc_heartbeat; rewrite ?Hs1 | | | |].
  - apply (cc_role _ (proj1 Hwf1)).
  - apply (cc_out _ (proj1 Hwf1)).
  - intros Hd. specialize (Hroom Hd). cbn. by destruct (w_conn w).
  - intros b _. wp_step. apply Hq. split; [done | right]. by apply (control_sent_same b w1).
Qed.

Ltac at_kind Hk := rewrite Hk; unfold CONTROL_KIND_AUTHENTICATE, CONTROL_KIND_OPEN_CHANNEL, CONTROL_KIND_CLOSE_CHANNEL,
  CONTROL_KIND_HEARTBEAT, CONTROL_KIND_ERROR, CONTROL_KIND_SCHEMA_REQUEST, CONTROL_KIND_CLOCK_SYNC;
  cbn [Z.eqb Pos.eqb andb].

Lemma wp_control msg eff c (Q X : unit -> World B -> Prop) w :
  control_turn w msg eff c -> room 3 w ->
  (build = DebugBuild -> cn_heartbeat_counter (w_conn w) < u64_max) ->
  (forall w', settled (w_queue w) w' -> Q tt w' /\ X tt w') ->
  wp (handle_control (B := B) build config auth_config clock pid msg eff) Q X w.
Proof using Hconfig Hjwt Hlaws.
  intros Ht Hroom Hb Hq. pose proof Ht as [Hwf (raw & Hraw & Hm) Ha _]. unfold handle_control. cbv zeta.
  assert (Hcl : wp (close (B := B)) Q X w) by (apply wp_close; by apply Hq, closing_settled).
  assert (Hok : conn_wf (w_conn w) -> wp (S := World B) (E := unit) (ret tt) Q X w).
  { intros Hw. wp_step. apply Hq. split; [done | by right]. }
  pose proof (proj2 Hwf) as Hph. destruct Hph as [Hgen Hph].
  remember (cn_session (w_conn w)) as s' eqn:Es'. remember Client as sender eqn:Esender.
  destruct Ha as [msg Hk Hp | msg Hk Hp | sender msg Hk Hp | sender msg Hk Hp | sender msg id Hk Hp Hsc Hc Hst
    | sender msg id e Hk Hp Hsc Hc He Hst | sender msg Hk Hp Hsc Hst | msg id op kind Hk Hp Hc Hid Hnone Hf Hle Hkind
    | msg id e raw' res Hk Hp | msg id e raw' res Hk Hp | sender msg id Hk Hp Hc Hst | sender msg Hk Hp
    | msg g Hk Hp | msg g Hk Hp | msg Hk Hp | msg Hk Hp | sender msg Hk Hp];
    try done; try (by rewrite Hp in Hph).
  - at_kind Hk. rewrite Hp in Hph. destruct Hph as [hello Hh].
    apply (wp_authenticate raw msg hello); try done.
    + eapply control_turn_core; [exact Ht |]. rewrite <- Es'. by apply (agree_same _ (cn_session c)); [apply Hwf |].
    + by rewrite <- Es'.
    + destruct Ht as [_ _ _ (n & _ & ->)]. by destruct c.
  - at_kind Hk. exact Hcl.
  - at_kind Hk. apply Hok, (control_turn_same _ _ _ _ Ht). by rewrite <- Es'.
  - at_kind Hk. destruct (matched_cases with_channel_matched (Some (ce_open_correlation e)) msg) as [-> | ->];
      (apply Hok, (control_turn_channel _ _ _ _ Ht); rewrite <- ?Es'; try done;
       eapply agree_failed; [apply Hwf | exact He | exact Hst]).
  - at_kind Hk. exact Hcl.
  - at_kind Hk. cbn [fx_channel_opened with_channel_opened no_effects]. apply wp_call_fn.
    assert (Hrange : 1 <= id <= u32_max) by (apply msg_channel_range in Hc; lia).
    apply (wp_open_channel msg id (mk_entry Pending kind (correlation_vec msg))).
    + split; rewrite <- ?Es'; try done.
      * apply (control_turn_channel _ _ _ _ Ht); rewrite <- ?Es'; try done. by apply agree_pending; [apply Hwf | |].
      * cbn. by rewrite lookup_insert_eq.
    + by eapply open_kind_agrees.
    + by eapply decoded_correlation_id.
    + by eapply decoded_priority.
    + by eapply room_less.
    + intros w' Hs. split; by apply Hq.
  - at_kind Hk. cbn [fx_channel_closed with_channel_closed no_effects]. unfold conn_. wp_step. wp_step.
    destruct (table_state_entry _ _ _ Hst) as (e & He & Hes); [done |].
    pose proof (control_turn_channels _ _ _ _ Ht) as Hch.
    destruct (core_runtime c id (ce_operation_kind e) (proj1 Hwf)) as (r & Hr & _); [by apply active_kind_entry |].
    rewrite Hch, Hr. unfold on_conn, destroy_. wp_step. wp_step. wp_step. apply Hq. split; [done | right]. cbn.
    rewrite Hch. destruct Ht as [_ _ _ (n & Hn & Hw)]. rewrite <- Es' in Hw.
    pose proof (acc_close_channel (cn_session c) Client msg id Hk Hp Hc Hst) as Hac.
    destruct (control_keeps _ _ _ _ _ Hac) as [Hswf Hrole]; [apply Hwf |]. rewrite Hw.
    destruct Hwf as [[] _]. destruct c. cbn in *. split; [split; cbn in *; try done |].
    + by eapply agree_closed.
    + by apply map_Forall_delete.
    + split; [done |]. cbn. by rewrite Hp in *.
  - at_kind Hk. apply wp_heartbeat; try done.
    + apply (control_turn_same _ _ _ _ Ht). by rewrite <- Es'.
    + by rewrite <- Es'.
    + by eapply room_less.
    + intros w' Hs. by apply Hq.
  - at_kind Hk. apply Hok, (control_turn_same _ _ _ _ Ht). by rewrite <- Es'.
  - at_kind Hk. apply Hok, (control_turn_same _ _ _ _ Ht). by rewrite <- Es'.
Qed.

(** ** Inbound frames *)

Lemma with_same_session w : with_conn (set_session (cn_session (w_conn w)) (w_conn w)) w = w.
Proof. unfold with_conn. rewrite set_same_session. by destruct w. Qed.

(** The session's verdict on an inbound frame. *)
Lemma wp_ingest_frame frame Q X w :
  ss_role (cn_session (w_conn w)) = Server ->
  (forall s' eff, frame_accepts (cn_session (w_conn w)) Client frame s' eff ->
     Q (inl eff) (with_conn (set_session s' (w_conn w)) w)) ->
  (forall e, reportable (pe_reason e) -> Q (inr e) w) ->
  wp (session_ (B := B) (ingest_frame frame)) Q X w.
Proof.
  intros Hr Hok Herr. unfold wp, session_, ingest_frame, bind, gets. rewrite Hr. cbn [peer].
  pose proof (sm_apply_frame frame Client (cn_session (w_conn w))) as Hrep.
  pose proof (event_implements (EvFrame frame) Client (cn_session (w_conn w))) as Hi. unfold implements in Hi.
  cbn [apply_event event_accepts] in Hi. destruct (apply_frame frame Client _) as [[eff | e |] s']; [by apply Hok | | done].
  destruct Hi as [-> _]. specialize (Herr e Hrep). by rewrite <- (with_same_session w) in Herr.
Qed.

Lemma control_accepts_plane s sender m s' eff :
  control_accepts s sender m s' eff ->
  in_selected_plane (ss_phase s') = true /\ (ss_phase s = Ready -> ss_phase s' = Ready).
Proof.
  intros Ha. destruct Ha; cbn; split; try done; try congruence;
    match goal with E : ss_phase s = _ |- _ => by rewrite E end.
Qed.

(** What a debug build needs of an inbound frame: no sequence number at the
    limit, and before Ready no control message out of order. *)
Definition frame_in_order (b : bytes) w : Prop :=
  build = DebugBuild -> forall f, parse_frame b (Some frame_options) = Ok f ->
    df_sequence f < u64_max /\
    (ss_phase (cn_session (w_conn w)) <> Ready -> df_sequence f = cn_control_seq_in (w_conn w)).

Definition counters_room w : Prop :=
  room 3 w /\ (build = DebugBuild -> cn_heartbeat_counter (w_conn w) < u64_max).

Lemma wp_control_frame f m s' eff (Q X : unit -> World B -> Prop) w :
  conn_wf (w_conn w) -> in_selected_plane (ss_phase (cn_session (w_conn w))) = true ->
  (exists raw, rust_slice raw /\ decode_control_message raw = Ok m) -> df_payload f = Frame.Control m ->
  control_accepts (cn_session (w_conn w)) Client m s' eff -> is_sequence (df_sequence f) -> counters_room w ->
  (build = DebugBuild -> df_sequence f < u64_max /\
    (ss_phase (cn_session (w_conn w)) <> Ready -> df_sequence f = cn_control_seq_in (w_conn w))) ->
  (forall w', settled (w_queue w) w' -> Q tt w' /\ X tt w') ->
  wp (seq <~ conn_ cn_control_seq_in ;;
      (if negb (df_sequence f =? seq) then fail_with (B := B) build (protocol_violation "control_sequence_mismatch" 8 25)
       else ret tt) ;;~
      next <~ plus_one build seq ;;
      on_conn (set_control_seq_in next) ;;~
      match df_payload f with
      | Frame.Control msg => call_fn (handle_control build config auth_config clock pid msg eff)
      | Application _ => close ;;~ return_
      end) Q X (with_conn (set_session s' (w_conn w)) w).
Proof using Hconfig Hjwt Hlaws.
  intros Hwf Hpl Hraw Hpay Ha Hseq [Hroom Hhb] Hdbg Hq. set (w1 := with_conn _ w).
  destruct (control_accepts_plane _ _ _ _ _ Ha) as [Hpl' Hready].
  destruct (control_keeps _ _ _ _ _ Ha) as [_ Hrole]; [apply Hwf |].
  assert (Hin : cn_control_seq_in (w_conn w1) = cn_control_seq_in (w_conn w)) by (cbn; by destruct (w_conn w)).
  assert (Hs1 : cn_session (w_conn w1) = s') by (cbn; by destruct (w_conn w)).
  assert (Hout : cn_control_seq_out (w_conn w1) = cn_control_seq_out (w_conn w)) by (cbn; by destruct (w_conn w)).
  assert (Hhb1 : cn_heartbeat_counter (w_conn w1) = cn_heartbeat_counter (w_conn w)) by (cbn; by destruct (w_conn w)).
  assert (Hroom1 : room 3 w1) by (intros Hd; rewrite Hout; by apply Hroom).
  unfold conn_. wp_step. wp_step. rewrite Hin. wp_step.
  destruct (Z.eqb_spec (df_sequence f) (cn_control_seq_in (w_conn w))) as [E | E]; cbn [negb].
  2: { apply wp_fail_with; rewrite ?Hs1; try done.
       - rewrite Hrole. apply (cc_role _ (proj1 Hwf)).
       - rewrite Hout. apply (cc_out _ (proj1 Hwf)).
       - by eapply room_less.
       - intros Hd. destruct (decide (ss_phase (cn_session (w_conn w)) = Ready)) as [Hp | Hp]; [by rewrite Hready |].
         exfalso. by apply E, (Hdbg Hd).
       - intros w' Hc. by apply Hq, closing_settled. }
  wp_step. wp_step. apply wp_plus_one; [rewrite <- E; by apply Hdbg |]. unfold on_conn. wp_step. wp_step. rewrite Hpay.
  apply wp_call_fn. apply (wp_control m eff (w_conn w)).
  - split; try done.
    + cbn. by destruct (w_conn w).
    + exists (next (cn_control_seq_in (w_conn w))). split; [apply next_sequence, (cc_in _ (proj1 Hwf)) |]. cbn.
      by destruct (w_conn w).
  - intros Hd. specialize (Hroom1 Hd). rewrite Hout in Hroom1. cbn. by destruct (w_conn w).
  - intros Hd. specialize (Hhb Hd). cbn. by destruct (w_conn w).
  - intros w' Hs. split; by apply Hq.
Qed.

Lemma sample_from_client kind : opcode_sender kind OPCODE_ROS_SAMPLE = Some Client -> kind = TopicPublish.
Proof. by destruct kind. Qed.

Lemma accepted_operation b f entry w :
  frame_ok b f -> ss_channels (cn_session (w_conn w)) !! df_channel_id f = Some entry -> ce_state entry = Active ->
  opcode_sender (ce_operation_kind entry) (df_opcode f) = Some Client -> operation_id_ok f ->
  df_opcode f <> OPCODE_CONTROL_CBOR ->
  exists opid, operation_frame w f (ce_operation_kind entry) opid.
Proof.
  intros Hf He Hst Hs (opid & Ho & Hz) Hop. unfold Session.frame_operation_id in Ho.
  rewrite <- (operation_ids_agree _ (fo_extensions _ _ Hf)) in Ho. exists opid.
  split; try done; [by apply active_kind_entry | by eapply operation_id_bytes, Ho; apply Hf].
Qed.

Lemma wp_frame b (Q X : unit -> World B -> Prop) w :
  conn_wf (w_conn w) -> in_selected_plane (ss_phase (cn_session (w_conn w))) = true -> rust_slice b ->
  counters_room w -> frame_in_order b w ->
  (forall w', settled (w_queue w) w' -> Q tt w' /\ X tt w') ->
  wp (handle_frame (B := B) build config auth_config clock pid b) Q X w.
Proof using Hconfig Hjwt Hlaws.
  intros Hwf Hpl Hb Hroom Hord Hq. unfold handle_frame.
  assert (Hnf : ss_phase (cn_session (w_conn w)) <> Failed).
  { intros E. pose proof (proj2 Hwf) as [_ Hph]. by rewrite E in Hph. }
  assert (Hfail : forall A (Q' : A -> World B -> Prop) e, reportable (pe_reason e) ->
    wp (fail_with (B := B) build e) Q' X w).
  { intros A Q' e He. apply wp_fail_with; try done; [apply (cc_role _ (proj1 Hwf)) | apply (cc_out _ (proj1 Hwf)) | |].
    - apply (room_less 3); [apply Hroom | lia].
    - intros w' Hc. by apply Hq, closing_settled. }
  pose proof (reports_parse_frame b (Some frame_options)) as Hrep. pose proof (parse_frame_total b frame_options Hb) as Htot.
  wp_step. destruct (parse_frame b (Some frame_options)) as [f | e |] eqn:Ep; [| by apply Hfail | done].
  pose proof (parsed_frame b _ f Hb Ep) as Hf. wp_step. wp_step. apply wp_ingest_frame; [apply (cc_role _ (proj1 Hwf)) | |].
  2: { intros e He. wp_step. by apply Hfail. }
  intros s' eff Ha. wp_step. wp_step. cbv zeta.
  remember Client as sender eqn:Esender.
  destruct Ha as [sender f m s' eff Hop Hpay Ha | sender f entry Hop Hp He Hst Hs
    | sender f entry Hop Hp He Hst Hs Hopid Hrel]; subst sender.
  - rewrite Hop. change (OPCODE_CONTROL_CBOR =? OPCODE_CONTROL_CBOR) with true. cbn iota.
    apply (wp_control_frame f m s' eff); try done.
    + pose proof (fo_payload _ _ Hf) as Hpl'. rewrite Hpay in Hpl'. apply Hpl'.
    + apply (fo_sequence _ _ Hf).
    + intros Hd. by apply Hord.
  - rewrite with_same_session, Hop. change (OPCODE_ROS_SAMPLE =? OPCODE_CONTROL_CBOR) with false.
    change (OPCODE_ROS_SAMPLE =? OPCODE_ROS_SAMPLE) with true. cbn iota. apply sample_from_client in Hs.
    destruct (core_runtime _ _ _ (proj1 Hwf) (active_kind_entry _ _ _ He Hst)) as (r & Hr & Hk & _).
    apply wp_call_fn, (wp_publish_sample f b r); try done.
    + split; [done | done |]. apply (room_less 3); [apply Hroom | lia].
    + by rewrite Hop.
    + by rewrite Hk.
    + intros Hd. by apply Hord.
    + intros w' [Hset _]. split; by apply Hq.
  - rewrite with_same_session. assert (Hd : data_turn w).
    { split; [done | done |]. apply (room_less 3); [apply Hroom | lia]. }
    unfold OPCODE_SERVICE_REQUEST, OPCODE_ACTION_CANCEL in Hop. unfold OPCODE_CONTROL_CBOR at 1, OPCODE_ROS_SAMPLE at 1.
    destruct (accepted_operation b f entry w) as (opid & Hof); try done; [unfold OPCODE_CONTROL_CBOR; lia |].
    destruct (Z.eqb_spec (df_opcode f) 1); [lia |]. destruct (Z.eqb_spec (df_opcode f) 2); [lia |].
    destruct (_ || _); [| destruct (is_action_opcode _)].
    + apply wp_call_fn. eapply wp_service_frame; try done. intros w' Hset. split; by apply Hq.
    + apply wp_call_fn. eapply wp_action_frame; try done. intros w' Hset. split; by apply Hq.
    + wp_step. apply Hq. by apply data_turn_settled.
Qed.

(** ** The hello exchange *)

Lemma bootstrap_error_encodes code message :
  is_panic (encode_bootstrap_error {| be_code := code; be_message := Some message; be_detail := None |}) = false.
Proof.
  unfold encode_bootstrap_error, bootstrap_record, bootstrap_error_value. cbn [be_code be_message be_detail text_entry app].
  pose proof usize_max_ge. unfold u32_max in *. unfold encode_deterministic_cbor. cbn [encode_value map].
  unfold MAX_NESTING_DEPTH, MAX_MAP_ENTRIES. usz. cbn -[blen write_head]. by repeat (case_match; cbn).
Qed.

Lemma wp_bootstrap_error code message (Q X : unit -> World B -> Prop) w :
  (forall w', closing (w_queue w) w' -> Q tt w') -> wp (push_bootstrap_error (B := B) code message) Q X w.
Proof.
  intros Hq. unfold push_bootstrap_error. pose proof (bootstrap_error_encodes code message) as He. wp_step.
  destruct (encode_bootstrap_error _) as [b | e |]; [| | done].
  - unfold push_out, on_out. wp_step. apply wp_close. by apply Hq.
  - wp_step. apply wp_close. by apply Hq.
Qed.

(** A bootstrap record the session accepts, or refuses. *)
Lemma wp_apply_bootstrap record sender Q X w :
  (forall s' eff, bootstrap_accepts (cn_session (w_conn w)) sender record s' eff ->
     Q (inl eff) (with_conn (set_session s' (w_conn w)) w)) ->
  (forall e, (forall s' eff, ~ bootstrap_accepts (cn_session (w_conn w)) sender record s' eff) -> Q (inr e) w) ->
  wp (session_ (B := B) (apply_bootstrap record sender)) Q X w.
Proof.
  intros Hok Herr. unfold wp, session_. pose proof (bootstrap_implements record sender (cn_session (w_conn w))) as Hi.
  unfold implements in Hi. destruct (apply_bootstrap record sender _) as [[eff | e |] s']; [by apply Hok | | done].
  destruct Hi as [-> Hn]. specialize (Herr e Hn). by rewrite <- (with_same_session w) in Herr.
Qed.

Lemma hello_wf c client server :
  conn_wf c -> ss_phase (cn_session c) = AwaitClientHello -> server_ok server ->
  forall s1 e1 s2 e2,
  bootstrap_accepts (cn_session c) Client (RClientHello client) s1 e1 ->
  bootstrap_accepts s1 Server (RServerHello server) s2 e2 ->
  conn_wf (set_server_hello (Some server) (set_session s2 c)).
Proof.
  intros [[] [Hg Hph]] Hp Hok s1 e1 s2 e2 H1 H2.
  pose proof (event_wf (cn_session c) Client (EvBootstrap _) s1 e1 ltac:(done) H1) as Hwf1.
  pose proof (event_wf s1 Server (EvBootstrap _) s2 e2 Hwf1 H2) as Hwf2.
  inversion H1; subst. inversion H2; subst. destruct c. cbn in *.
  split; [split; cbn in *; try done |].
  split; [done |]. cbn. by eexists.
Qed.

Lemma wp_bootstrap b (Q X : unit -> World B -> Prop) w :
  conn_wf (w_conn w) -> ss_phase (cn_session (w_conn w)) = AwaitClientHello -> rust_slice b ->
  (forall w', settled (w_queue w) w' -> Q tt w' /\ X tt w') ->
  wp (handle_bootstrap (B := B) build config active b) Q X w.
Proof using Hconfig.
  intros Hwf Hp Hb Hq. unfold handle_bootstrap. destruct (parse_bootstrap_spec b Hb) as [Hchk Hrec].
  assert (Hcl : forall w', closing (w_queue w) w' -> Q tt w' /\ X tt w') by (intros w' Hc; by apply Hq, closing_settled).
  wp_step. destruct (parse_bootstrap b) as [record | e |]; [| | done].
  2: { wp_step. apply wp_bootstrap_error. intros w' Hc. apply wp_throw. by apply Hcl. }
  wp_step. wp_step.
  assert (Hrole : ss_role (cn_session (w_conn w)) = Server) by apply (cc_role _ (proj1 Hwf)).
  assert (Heq : ingest_bootstrap record (cn_session (w_conn w)) = apply_bootstrap record Client (cn_session (w_conn w))).
  { unfold ingest_bootstrap, bind, gets. by rewrite Hrole. }
  assert (Hing : forall Q', wp (session_ (B := B) (apply_bootstrap record Client)) Q' X w ->
    wp (session_ (B := B) (ingest_bootstrap record)) Q' X w).
  { intros Q'. unfold wp, session_. by rewrite Heq. }
  apply Hing, wp_apply_bootstrap.
  2: { intros e _. wp_step. wp_step. apply wp_bootstrap_error. intros w' Hc. apply wp_throw. by apply Hcl. }
  intros s1 e1 Ha1. wp_step. wp_step.
  remember Client as sender eqn:Esender. destruct Ha1 as [client Hp1 | h Hp1 | e Hp1]; try done; clear Esender.
  pose proof (acc_client_hello _ client Hp1) as Ha1.
  destruct (Hrec _ eq_refl) as [Hclient _]. cbn [record_ok] in Hclient.
  pose proof (negotiate_spec client config active Hclient (co_limits _ Hconfig)) as Hneg.
  destruct (negotiate_server_hello client config active) as [server | code |] eqn:En; [| | done].
  2: { apply wp_bootstrap_error. intros w' Hc. by apply Hcl. }
  assert (Hserver : server_ok server) by apply Hneg.
  pose proof (encode_bootstrap_ok (RServerHello server) Hserver) as Henc. cbn [encode_bootstrap] in Henc. rewrite Henc.
  set (w1 := with_conn _ w). wp_step.
  assert (Hs1 : cn_session (w_conn w1) = with_phase AwaitServerHello (cn_session (w_conn w))) by (cbn; by destruct (w_conn w)).
  assert (Hsend : forall Q', wp (session_ (B := B) (apply_bootstrap (RServerHello server) Server)) Q' X w1 ->
    wp (session_ (B := B) (record_send_bootstrap (RServerHello server))) Q' X w1).
  { intros Q'. unfold wp, session_, record_send_bootstrap, bind, gets. rewrite Hs1. cbn [ss_role with_phase]. by rewrite Hrole. }
  apply Hsend, wp_apply_bootstrap; rewrite Hs1.
  2: { intros e Hn. exfalso. eapply Hn. by apply acc_server_hello. }
  intros s2 e2 Ha2. cbv zeta. wp_step. apply wp_assert; [done |]. unfold on_conn, push_out, on_out. wp_step. wp_step. wp_step.
  apply Hq. split; [done | right].
  pose proof (hello_wf (w_conn w) client server Hwf Hp Hserver _ _ _ _ Ha1 Ha2) as Hfin. cbn. by destruct (w_conn w).
Qed.

Lemma wp_inbound b (Q X : unit -> World B -> Prop) w :
  conn_wf (w_conn w) -> rust_slice b -> counters_room w -> frame_in_order b w ->
  (forall w', settled (w_queue w) w' -> Q tt w' /\ X tt w') ->
  wp (handle_inbound (B := B) build config auth_config active clock pid b) Q X w.
Proof using Hconfig Hjwt Hlaws.
  intros Hwf Hb Hroom Hord Hq. unfold handle_inbound, on_out at 1, conn_. wp_step. wp_step. wp_step. wp_step.
  pose proof (proj2 Hwf) as [_ Hph]. cbn [w_conn]. set (w1 := mk_world (w_conn w) _ _ _ _ _).
  destruct (ss_phase (cn_session (w_conn w))) eqn:Ep; try done; cbn [is_terminal in_selected_plane negb].
  - wp_step. apply wp_call_fn. apply (wp_bootstrap b _ _ w1); try done. intros w' Hs. by split; apply Hq.
  - apply wp_call_fn. apply (wp_frame b _ _ w1); try done; [by cbn; rewrite Ep |]. intros w' Hs. by split; apply Hq.
  - apply wp_call_fn. apply (wp_frame b _ _ w1); try done; [by cbn; rewrite Ep |]. intros w' Hs. by split; apply Hq.
Qed.

(** ** The sample queue between turns *)

(** Empty, with its invariant. *)
Record queue_ok (q : SampleWriteQueue) : Prop := {
  qo_wf : queue_wf q;
  qo_gap : sequence_gap (dispositions q) <= u64_max
}.
Definition idle (q : SampleWriteQueue) : Prop := queue_ok q /\ items q = [].

Lemma u64_incr_max n : n <= u64_max -> u64_incr n <= u64_max.
Proof. unfold u64_incr, u64_max. lia. Qed.

Lemma wp_flush fuel frames (Q : list bytes -> World B -> Prop) X w :
  queue_ok (w_queue w) -> (length (items (w_queue w)) < fuel)%nat ->
  (forall q t, idle q -> Q (frames ++ map qf_bytes (items (w_queue w)))
     (mk_world (w_conn w) (w_out w) q t (w_session_counter w) (w_backend w))) ->
  wp (flush_write_queue (B := B) fuel frames) Q X w.
Proof.
  revert frames w. induction fuel as [| fuel IH]; intros frames w Hok Hfuel Hq; [lia |]. cbn [flush_write_queue].
  wp_step. wp_step. unfold pop_front. destruct (pop_front_raw (w_queue w)) as [[item |] q'] eqn:Ep; cbn [option_map].
  - destruct Hok as [Hwf Hgap]. destruct (pop_wf _ _ _ Hwf Ep) as [Hwf' Hitems].
    unfold pop_front_raw in Ep. destruct (items (w_queue w)) as [| it rest] eqn:Ei; [done |]. injection Ep as <- <-.
    unfold set_queue, telemetry. wp_step. wp_step. wp_step. wp_step. apply IH.
    + split; [by apply note_wf |]. cbn. exact Hgap.
    + cbn in *. lia.
    + intros q t Hi. cbn [map] in Hq. specialize (Hq q t Hi). by rewrite <- app_assoc.
  - unfold pop_front_raw in Ep. destruct (items (w_queue w)) eqn:Ei; [| done]. injection Ep as <-. wp_step.
    specialize (Hq (w_queue w) (w_telemetry w)). cbn [map] in Hq. rewrite app_nil_r in Hq. destruct w. apply Hq. by split.
Qed.

Lemma wp_flush_all (Q : list bytes -> World B -> Prop) X w :
  queue_ok (w_queue w) ->
  (forall q t, idle q -> Q (map qf_bytes (items (w_queue w)))
     (mk_world (w_conn w) (w_out w) q t (w_session_counter w) (w_backend w))) ->
  wp (flush_all (B := B)) Q X w.
Proof. intros Hok Hq. unfold flush_all. wp_step. wp_step. apply wp_flush; [done | lia | done]. Qed.

(** An idle queue takes what fits the byte budget. *)
Lemma idle_within q c r frame :
  idle q -> within q (items q ++ [mk_queued c r frame]) = (blen frame <=? max_bytes q).
Proof.
  intros [[[Hs Hm _ _] _] ->]. unfold within. change (blen ([] ++ [mk_queued c r frame])) with 1.
  change (total_bytes ([] ++ [mk_queued c r frame])) with (blen frame + 0).
  destruct (Z.leb_spec 1 (max_samples q)); [| lia]. by rewrite Z.add_0_r.
Qed.

Lemma idle_push_reliable q c frame :
  idle q -> can_fit q (blen frame) = true ->
  exists q', push_reliable q c frame = Ok q' /\ queue_ok q' /\ map qf_bytes (items q') = [frame].
Proof.
  intros Hi Hf. unfold push_reliable. rewrite Hf. eexists. split; [done |]. pose proof Hi as [[Hwf Hg] He].
  split; [| cbn; by rewrite He]. split; [| done]. apply push_wf; [done |]. by rewrite <- can_fit_spec.
Qed.

Lemma idle_admit q c frame :
  idle q ->
  exists q', admit_best_effort q c frame = Ok q' /\ queue_ok q' /\
    map qf_bytes (items q') = if blen frame <=? max_bytes q then [frame] else [].
Proof.
  intros [[Hwf Hg] He]. destruct (admit_spec q c frame Hwf Hg) as (q' & Ha & Hwf' & _ & _ & Hc). exists q'.
  split; [done |]. destruct (Z.ltb_spec (max_bytes q) (blen frame)), (Z.leb_spec (blen frame) (max_bytes q)); try lia.
  - destruct Hc as [Hi Hd]. rewrite Hi, He. split; [split; [done | rewrite Hd; cbn; lia] | done].
  - destruct Hc as (n & Hn & Hi & Hd & _). rewrite He in Hn, Hi. cbn in Hn. assert (n = 0%nat) as -> by lia.
    rewrite Hi. split; [split; [done | rewrite Hd; cbn; lia] | done].
Qed.

(** ** Subscription samples *)

Definition forward_header (id : Z) (r : ChannelRuntime) : FrameHeader :=
  {| fh_version := 0; fh_opcode := OPCODE_ROS_SAMPLE; fh_flags := if cr_reliable r then FLAG_ROS_RELIABLE else 0;
     fh_channel_id := id; fh_sequence := cr_seq_out r; fh_source_time_ns := 0; fh_priority := cr_priority r;
     fh_clock_id := 0 |}.

(** The frame a sample becomes: the header over the prefix, the payload in place. *)
Definition framed (id : Z) (r : ChannelRuntime) (buf : bytes) : bytes :=
  header_bytes (wire_header (forward_header id r) (blen buf - 32) 0) ++ drop 32 buf.

Lemma blen_drop32 (buf : bytes) : 32 <= blen buf -> blen (drop 32 buf) = blen buf - 32.
Proof. unfold blen. rewrite length_drop. lia. Qed.

Lemma framed_len id r buf : 32 <= blen buf -> blen (framed id r buf) = blen buf.
Proof. intros Hl. unfold framed. rewrite blen_app, header_bytes_len, blen_drop32 by done. lia. Qed.

Lemma framed_parses id r buf :
  1 <= id <= u32_max -> runtime_ok r -> rust_slice buf -> 32 <= blen buf -> blen buf - 32 <= FRAME_PAYLOAD_MAX_BYTES ->
  parse_frame (framed id r buf) (Some frame_options) =
    Ok (frame_of (wire_header (forward_header id r) (blen buf - 32) 0) ([], Application (drop 32 buf))).
Proof.
  intros Hid [Hpr Hso _ _ _] [Hb _] Hl Hmax.
  pose proof (blen_drop32 buf Hl) as Hd.
  assert (He : encode_frame (forward_header id r) [] (drop 32 buf) = Ok (framed id r buf)).
  { pose proof (encode_frame_spec (forward_header id r) [] (drop 32 buf)) as Hs. unfold FRAME_PAYLOAD_MAX_BYTES in Hmax.
    destruct (encode_frame _ _ _) as [b | |]; [| | done].
    - destruct Hs as (-> & _). unfold framed. by rewrite Hd.
    - destruct Hs. split_and!; try done. rewrite Hd. lia. }
  rewrite <- Hd. apply (encoded_frame_parses frame_options _ [] (drop 32 buf) _ [] (Application (drop 32 buf))); try done.
  - unfold fields_typed, is_byte, is_unsigned, is_signed, is_sequence, u32_max, u64_max, forward_header, FLAG_ROS_RELIABLE,
      OPCODE_ROS_SAMPLE in *. cbn. destruct (cr_reliable r); cbn; lia.
  - apply bytes_ok_nil.
  - by apply Forall_drop.
  - unfold check_header, forward_header, wire_header. cbn [fh_opcode fh_flags fh_channel_id fh_priority fh_clock_id
      fh_source_time_ns h_opcode h_flags h_channel_id h_priority h_clock_id h_source_time_ns].
    destruct (cr_reliable r); cbn; (destruct (Z.eqb_spec id 0); [lia |]); cbn;
      (destruct (Z.ltb_spec 4 (cr_priority r)); [lia |]); done.
  - unfold forward_header. cbn [fh_flags]. by destruct (cr_reliable r).
Qed.

(** What a sample's buffer is: a reserved prefix and a payload below 4 GiB. *)
Definition sample_ok (s : SubscriptionSample) : Prop :=
  rust_slice (ss_frame_buf s) /\ 32 <= blen (ss_frame_buf s) <= 32 + u32_max.

(** The connection after a sample took a sequence number. *)
Definition sample_taken (id : Z) (r : ChannelRuntime) (c : ConnState) : ConnState :=
  set_channels (<[id := with_seq_out (next (cr_seq_out r)) r]> (cn_channels c)) c.

Lemma wp_frame_sample s r (Q : option bytes -> World B -> Prop) X w :
  cn_channels (w_conn w) !! ss_channel_id s = Some r -> cr_kind r = TopicSubscribe -> sample_ok s ->
  (build = DebugBuild -> cr_seq_out r < u64_max) ->
  (blen (ss_frame_buf s) - 32 <= FRAME_PAYLOAD_MAX_BYTES -> forall t,
     Q (Some (framed (ss_channel_id s) r (ss_frame_buf s)))
       (mk_world (sample_taken (ss_channel_id s) r (w_conn w)) (w_out w) (w_queue w) t (w_session_counter w) (w_backend w))) ->
  (FRAME_PAYLOAD_MAX_BYTES < blen (ss_frame_buf s) - 32 -> Q None w) ->
  wp (frame_sample (B := B) build s) Q X w.
Proof.
  intros Hr Hk [[_ Hlen] Hl] Hroom Hok Hbig. unfold frame_sample, conn_. wp_step. wp_step. rewrite Hr, Hk. rewrite bool_decide_true by done. cbn [negb]. wp_step.
  apply wp_assert; [intros _; unfold SAMPLE_HEADER_PREFIX, FRAME_HEADER_LENGTH; lia |]. cbv zeta.
  pose proof isize_le_usize. pose proof isize_max_ge. change SAMPLE_HEADER_PREFIX with 32. usz.
  rewrite as_unsigned_small by (unfold is_unsigned, u32_max in *; lia).
  rewrite (write_frame_header_spec _ _ _ (ss_frame_buf s)) by lia.
  destruct (Z.ltb_spec FRAME_PAYLOAD_MAX_BYTES (blen (ss_frame_buf s) - 32)); cbv iota; [wp_step; auto |].
  change (_ && _) with false at 1. cbv iota. wp_step. apply wp_plus_one; [done |]. unfold put_runtime, on_conn, telemetry.
  wp_step. wp_step. wp_step. wp_step. wp_step. by apply Hok.
Qed.

(** What a turn sends for a sample, and the connection it leaves: nothing for a
    channel that does not subscribe or a payload no frame can carry; a frame
    over the byte budget is refused on a reliable channel and costs a sequence
    number on a best-effort one. *)
Definition sample_sent (s : SubscriptionSample) w : list bytes * ConnState :=
  let id := ss_channel_id s in
  let len := blen (ss_frame_buf s) in
  let c := w_conn w in
  match cn_channels c !! id with
  | None => ([], c)
  | Some r =>
      if negb (bool_decide (cr_kind r = TopicSubscribe)) || (FRAME_PAYLOAD_MAX_BYTES <? len - 32) then ([], c)
      else if len <=? max_bytes (w_queue w) then ([framed id r (ss_frame_buf s)], sample_taken id r c)
      else if cr_reliable r then ([], c)
      else ([], sample_taken id r c)
  end.

Definition seq_out_room (id : Z) w : Prop :=
  build = DebugBuild -> forall r, cn_channels (w_conn w) !! id = Some r -> cr_seq_out r < u64_max.

(** What the queue holds after the admission. *)
Definition admitted (s : SubscriptionSample) w w' : Prop :=
  queue_ok (w_queue w') /\ map qf_bytes (items (w_queue w')) = fst (sample_sent s w) /\ w_conn w' = snd (sample_sent s w).

Lemma wp_admit_sample s (Q X : unit -> World B -> Prop) w :
  idle (w_queue w) -> sample_ok s -> seq_out_room (ss_channel_id s) w ->
  (forall w', admitted s w w' -> Q tt w' /\ X tt w') ->
  wp (admit_sample (B := B) build s) Q X w.
Proof.
  intros Hidle Hs Hroom Hq. pose proof (blen_nonneg (ss_frame_buf s)) as Hlen.
  assert (Hsame : sample_sent s w = ([], w_conn w) -> forall t,
    admitted s w (mk_world (w_conn w) (w_out w) (w_queue w) t (w_session_counter w) (w_backend w))).
  { intros E t. unfold admitted. rewrite E. destruct Hidle as [Hok Hi]. cbn. by rewrite Hi. }
  assert (Hw : mk_world (w_conn w) (w_out w) (w_queue w) (w_telemetry w) (w_session_counter w) (w_backend w) = w)
    by by destruct w.
  unfold admit_sample, conn_. wp_step. wp_step. unfold sample_sent in Hsame.
  destruct (cn_channels (w_conn w) !! ss_channel_id s) as [r |] eqn:Hr.
  2: { apply wp_throw, Hq. rewrite <- Hw. by apply Hsame. }
  destruct (bool_decide_reflect (cr_kind r = TopicSubscribe)) as [Hk | Hk]; cbn [negb orb] in Hsame |- *.
  2: { apply wp_throw, Hq. rewrite <- Hw. by apply Hsame. }
  assert (Hroom' : build = DebugBuild -> cr_seq_out r < u64_max) by (intros Hd; by apply (Hroom Hd)).
  assert (Hfit : can_fit (w_queue w) (blen (ss_frame_buf s)) = (blen (ss_frame_buf s) <=? max_bytes (w_queue w))).
  { rewrite (can_fit_spec _ _ 0 false) by apply Hidle. by apply idle_within. }
  pose proof (proj2 (proj1 Hs)) as Hi. destruct Hs as [Hslice Hbounds]. pose proof (conj Hslice Hbounds) as Hs.
  cbv zeta. wp_step. wp_step. destruct (cr_reliable r) eqn:Hrel.
  - unfold try_reserve_reliable. wp_step. rewrite Hfit.
    destruct (Z.leb_spec (blen (ss_frame_buf s)) (max_bytes (w_queue w))) as [Hle | Hle].
    2: { unfold telemetry. wp_step. wp_step. apply wp_throw, Hq, Hsame. by destruct (FRAME_PAYLOAD_MAX_BYTES <? _). }
    wp_step. wp_step. eapply wp_frame_sample; try done.
    + intros Hmax t. unfold queue_. wp_step. wp_step. cbn [w_queue].
      destruct (idle_push_reliable (w_queue w) (ss_channel_id s) (framed (ss_channel_id s) r (ss_frame_buf s)) Hidle)
        as (q' & -> & Hok & Hitems); [rewrite framed_len by apply Hbounds; rewrite Hfit; lia |].
      unfold set_queue. wp_step. apply Hq. unfold admitted, sample_sent. cbn [w_queue w_conn]. rewrite Hr, Hitems.
      rewrite bool_decide_true by done. destruct (Z.ltb_spec FRAME_PAYLOAD_MAX_BYTES (blen (ss_frame_buf s) - 32)); [lia |].
      destruct (Z.leb_spec (blen (ss_frame_buf s)) (max_bytes (w_queue w))); [done | lia].
    + intros Hbig. apply wp_throw, Hq. rewrite <- Hw. apply Hsame.
      destruct (Z.ltb_spec FRAME_PAYLOAD_MAX_BYTES (blen (ss_frame_buf s) - 32)); [done | lia].
  - wp_step. eapply wp_frame_sample; try done.
    + intros Hmax t. cbv zeta. unfold queue_. wp_step. wp_step. wp_step. cbn [w_queue].
      destruct (idle_admit (w_queue w) (ss_channel_id s) (framed (ss_channel_id s) r (ss_frame_buf s)) Hidle)
        as (q' & -> & Hok & Hitems). rewrite framed_len in Hitems by apply Hbounds.
      assert (Hadm : forall t', admitted s w (mk_world (sample_taken (ss_channel_id s) r (w_conn w)) (w_out w) q' t'
        (w_session_counter w) (w_backend w))).
      { intros t'. unfold admitted, sample_sent. cbn [w_queue w_conn]. rewrite Hr, Hitems, Hrel.
        rewrite bool_decide_true by done. destruct (Z.ltb_spec FRAME_PAYLOAD_MAX_BYTES (blen (ss_frame_buf s) - 32)); [lia |].
        cbn [negb orb]. by destruct (_ <=? _). }
      unfold set_queue, telemetry. wp_step. wp_step. wp_step.
      cbn [w_conn w_out w_queue w_telemetry w_session_counter w_backend].
      destruct (0 <? _); wp_step; apply Hq, Hadm.
    + intros Hbig. apply wp_throw, Hq. rewrite <- Hw. apply Hsame.
      destruct (Z.ltb_spec FRAME_PAYLOAD_MAX_BYTES (blen (ss_frame_buf s) - 32)); [done | lia].
Qed.

Lemma sample_sent_wf s w : conn_wf (w_conn w) -> conn_wf (snd (sample_sent s w)).
Proof.
  intros Hwf. unfold sample_sent. destruct (cn_channels (w_conn w) !! ss_channel_id s) as [r |] eqn:Hr; [| done].
  assert (Ht : conn_wf (sample_taken (ss_channel_id s) r (w_conn w))).
  { destruct (cc_runtimes _ (proj1 Hwf) _ _ Hr) as [_ Hok]. eapply wf_put; [done | exact Hr | by destruct r |].
    apply seq_out_ok; [done |]. apply next_sequence, Hok. }
  by repeat case_match.
Qed.

(** ** Requests and goals *)

(** What the ROS side hands over with an operation id: 16 bytes, not all zero,
    and a buffer with the reserved prefix. *)
Definition operation_ok (opid buf : bytes) : Prop :=
  id_bytes 16 opid /\ opid <> zeros 16 /\ rust_slice buf /\ 32 <= blen buf.

Lemma payload_after_prefix_ok {E} buf :
  rust_slice buf -> 32 <= blen buf -> exists payload, payload_after_prefix (E := E) buf = Ok payload /\ bytes_ok payload.
Proof.
  intros [Hb _] Hl. eexists. unfold payload_after_prefix. change SAMPLE_HEADER_PREFIX with 32. split; [apply slice_ok; lia |].
  by apply bytes_ok_sub_list.
Qed.

Lemma wp_push_operation kind id opid opcode (payload : outcome unit bytes) (Q X : unit -> World B -> Prop) w r :
  data_turn w -> cn_channels (w_conn w) !! id = Some r -> cr_kind r = kind -> opcode_sender kind opcode = Some Server ->
  OPCODE_SERVICE_REQUEST <= opcode <= OPCODE_ACTION_CANCEL -> id_bytes 16 opid -> opid <> zeros 16 ->
  (exists p, payload = Ok p /\ bytes_ok p) -> (forall w', settled (w_queue w) w' -> Q tt w') ->
  wp (let '(seq, r') := next_op_seq_out r opid in
      put_runtime (B := B) id r' ;;~
      payload <~ lift payload ;;
      push_app_frame build (app_header opcode id seq (cr_priority r')) (Some opid) payload ;;~
      ret tt) Q X w.
Proof.
  intros Hd Hr Hk Hs Hop Ho Hz (p & -> & Hp) Hq. destruct (cc_runtimes _ (proj1 (dt_wf _ Hd)) _ _ Hr) as [Hid Hok].
  destruct (next_op_seq_out r opid) as [seq r'] eqn:En. destruct (next_op_runtime _ _ _ _ En Hok) as (Hok' & Hseq & Hk' & Hpr).
  pose proof (data_turn_put _ r r' w Hd Hr Hk' Hok') as Hd'. unfold put_runtime, on_conn.
  wp_step. wp_step. wp_step. eapply wp_lift_ok; [done |]. wp_step. eapply (wp_push_app kind); try done.
  - pose proof (cc_channels _ (proj1 (dt_wf _ Hd)) id) as Ha. rewrite Hr in Ha. cbn in Ha. rewrite Hk in Ha.
    cbn. destruct (w_conn w). by cbn in *.
  - apply Hok'.
Qed.

Lemma active_ready w id r :
  conn_wf (w_conn w) -> cn_channels (w_conn w) !! id = Some r -> ss_phase (cn_session (w_conn w)) = Ready.
Proof.
  intros [Hc _] Hr. pose proof (cc_channels _ Hc id) as Ha. rewrite Hr in Ha. cbn in Ha.
  destruct (decide (ss_phase (cn_session (w_conn w)) = Ready)) as [| Hp]; [done |].
  destruct (wf_before_ready _ (cc_session _ Hc) Hp) as [He _]. unfold active_kind in Ha. by rewrite He in Ha.
Qed.

Lemma wp_service_request request (Q X : unit -> World B -> Prop) w :
  conn_wf (w_conn w) -> room 1 w -> operation_ok (sr_operation_id request) (sr_frame_buf request) ->
  (forall w', settled (w_queue w) w' -> Q tt w' /\ X tt w') ->
  wp (push_service_request (B := B) build request) Q X w.
Proof.
  intros Hwf Hroom (Ho & Hz & Hb & Hl) Hq. unfold push_service_request, conn_. cbv zeta. wp_step. wp_step.
  destruct (cn_channels (w_conn w) !! sr_channel_id request) as [r |] eqn:Hr.
  2: { apply wp_throw, Hq. split; [done | by right]. }
  destruct (bool_decide_reflect (cr_kind r = ServiceServer)) as [Hk | Hk]; cbn [negb].
  2: { apply wp_throw, Hq. split; [done | by right]. }
  eapply (wp_push_operation ServiceServer); try done.
  - split; [done | by eapply active_ready | done].
  - by apply payload_after_prefix_ok.
  - intros w' Hs. by apply Hq.
Qed.

Lemma wp_action_inbound inbound (Q X : unit -> World B -> Prop) w :
  conn_wf (w_conn w) -> room 1 w -> operation_ok (inbound_operation_id inbound) (inbound_frame_buf inbound) ->
  (forall w', settled (w_queue w) w' -> Q tt w' /\ X tt w') ->
  wp (push_action_inbound (B := B) build inbound) Q X w.
Proof.
  intros Hwf Hroom (Ho & Hz & Hb & Hl) Hq. unfold push_action_inbound, conn_. cbv zeta. wp_step. wp_step.
  destruct (cn_channels (w_conn w) !! inbound_channel_id inbound) as [r |] eqn:Hr.
  2: { apply wp_throw, Hq. split; [done | by right]. }
  destruct (bool_decide_reflect (cr_kind r = ActionServer)) as [Hk | Hk]; cbn [negb].
  2: { apply wp_throw, Hq. split; [done | by right]. }
  eapply (wp_push_operation ActionServer); try done.
  - split; [done | by eapply active_ready | done].
  - by destruct inbound.
  - by destruct inbound.
  - by apply payload_after_prefix_ok.
  - intros w' Hs. by apply Hq.
Qed.

(** ** Turns and runs *)

Definition input_ok (e : Event) : Prop :=
  match e with
  | EInbound b => rust_slice b
  | ESample s => sample_ok s
  | ERequest r => operation_ok (sr_operation_id r) (sr_frame_buf r)
  | EAction a => operation_ok (inbound_operation_id a) (inbound_frame_buf a)
  end.

(** What a debug build needs before a turn: counters below their limit. *)
Definition turn_room (e : Event) w : Prop :=
  counters_room w /\
  match e with
  | EInbound b => frame_in_order b w
  | ESample s => seq_out_room (ss_channel_id s) w
  | _ => True
  end.

(** The invariant between turns. *)
Definition loop_wf w : Prop := conn_wf (w_conn w) /\ idle (w_queue w).

Lemma wp_turn e w :
  loop_wf w -> input_ok e -> turn_room e w ->
  wp (turn (B := B) build config auth_config active clock pid e)
    (fun '(_, go) w' => idle (w_queue w') /\ (go = true -> conn_wf (w_conn w'))) (fun _ _ => False) w.
Proof using Hconfig Hjwt Hlaws.
  intros [Hwf Hidle] He [Hroom Hev].
  assert (Hout : forall w', settled (w_queue w) w' ->
    wp (E := unit) (o <~ gets w_out ;; ret (out_outbound o, negb (out_close o)))
      (fun '(_, go) w' => idle (w_queue w') /\ (go = true -> conn_wf (w_conn w'))) (fun _ _ => False) w').
  { intros w' [Hqu Hs]. wp_step. wp_step. wp_step. rewrite Hqu. split; [done |]. destruct Hs as [-> |]; done. }
  assert (Hr1 : room 1 w) by (apply (room_less 3); [apply Hroom | lia]).
  destruct e as [b | s | request | inbound]; cbn [turn input_ok] in *.
  - wp_step. apply wp_call_fn, (wp_inbound b); try done. intros w' [Hqu Hs]. cut (
      wp (E := unit) (o <~ gets w_out ;;
          if out_close o then ret (out_outbound o, false) else frames <~ flush_all ;; ret (out_outbound o ++ frames, true))
        (fun '(_, go) w' => idle (w_queue w') /\ (go = true -> conn_wf (w_conn w'))) (fun _ _ => False) w'); [done |].
    wp_step. wp_step. destruct (out_close (w_out w')) eqn:Ec.
    + wp_step. by rewrite Hqu.
    + destruct Hs as [| Hs]; [done |]. wp_step. apply wp_flush_all; [rewrite Hqu; apply Hidle |].
      intros q t Hi. by wp_step.
  - wp_step. apply wp_call_fn, wp_admit_sample; try done. intros w' (Hok & _ & Hc).
    cut (wp (E := unit) (frames <~ flush_all ;; ret (frames, true))
      (fun '(_, go) w' => idle (w_queue w') /\ (go = true -> conn_wf (w_conn w'))) (fun _ _ => False) w'); [done |].
    wp_step. apply wp_flush_all; [done |]. intros q t Hi. wp_step. split; [done |]. intros _. cbn. rewrite Hc.
    by apply sample_sent_wf.
  - unfold on_out. wp_step. wp_step. wp_step. apply wp_call_fn, wp_service_request; try done.
    intros w' Hs. split; by apply Hout.
  - unfold on_out. wp_step. wp_step. wp_step. apply wp_call_fn, wp_action_inbound; try done.
    intros w' Hs. split; by apply Hout.
Qed.

End Proofs.
