(* ===== verification/ConnectionTheorems.v ===== *)
(** * The connection engine: what a connection guarantees

    A run of the select loop never panics and tears everything down, a turn
    keeps the connection's invariant, an inbound sample is published exactly
    when the sequence rules admit it, and a sample of the ROS side becomes one
    parseable frame under the channel's next sequence number; with a concrete
    backend on which a whole session is evaluated. *)

From stdpp Require Import gmap.
From S2P Require Import Prelude Utf8 ProtocolError Cbor Extension ControlSchema Control Frame Bootstrap Accept Session.
From S2P Require Import SessionProofs Budgets Policy Backend Builders BuilderProofs Auth Connection ConnectionSpec ConnectionProofs.
#[local] Open Scope Z_scope.

(** The computation answers, and its answer satisfies [Q]. *)
Definition answers_with {S E A} (m : SM S E A) (Q : A -> S -> Prop) (s : S) : Prop :=
  exists a s', m s = (Ok a, s') /\ Q a s'.

Lemma wp_answers {S E A} (m : SM S E A) Q s : wp m Q (fun _ _ => False) s -> answers_with m Q s.
Proof. unfold wp. destruct (m s) as [[a | e |] s'] eqn:E1; [intros Hq; by exists a, s' | done | done]. Qed.

Section Theorems.
Context `{Target} {B : Type} `{!RosBackend B} {Hlaws : RosBackendLaws B} `{JwtLibrary} {Hjwt : JwtLaws}.
Variables (config : GatewayConfig) (auth_config : AuthConfig) (active : ActiveTransport) (clock : Z -> Z) (pid : Z).
Implicit Types w : World B.

(** ** Where a connection starts *)

Lemma conn_new_wf : conn_wf conn_new.
Proof.
  split; [| done]. split; try done; try (unfold is_sequence, u64_max; cbn; lia).
  apply new_state_wf.
Qed.

Lemma connect_wf t n (b : B) : sample_queue_max_bytes config < usize_max -> loop_wf (connect config t n b).
Proof.
  intros Hq. pose proof usize_max_ge. unfold u32_max in *. split; [exact conn_new_wf |].
  split; [| done]. split; [| cbn; unfold u64_max; lia].
  split; cbn [connect w_queue queue_new max_samples max_bytes items q_bytes]; try lia; try done.
  unfold within. cbn [max_samples max_bytes items].
  rewrite andb_true_iff, !Z.leb_le. unfold blen, total_bytes. cbn [length map foldr queue_new max_samples max_bytes]. lia.
Qed.

(** A release build has no counter to run out of. *)
Lemma release_room e w : turn_room ReleaseBuild e w.
Proof. unfold turn_room, counters_room, room, frame_in_order, seq_out_room. destruct e; done. Qed.

(** ** Runs *)

Lemma wp_run_loop events : forall frames w, config_ok config -> loop_wf w -> Forall input_ok events ->
  wp (run_loop ReleaseBuild config auth_config active clock pid events frames)
    (fun _ w' => idle (w_queue w')) (fun _ _ => False) w.
Proof using Hlaws Hjwt.
  intros frames w Hc. revert frames w. induction events as [| e events IH]; intros frames w Hwf He; cbn [run_loop].
  { wp_step. apply Hwf. }
  inversion He as [| ? ? Hin Hrest]; subst. wp_step.
  eapply wp_mono; [by apply (wp_turn ReleaseBuild config auth_config active clock pid Hc e w Hwf Hin), release_room | | done].
  intros [messages go] w' [Hi Hgo]. destruct go; [| by wp_step]. apply IH; [split; auto | done].
Qed.



(** ** Samples from the client *)

Lemma wp_sample_frame build b f r w :
  conn_wf (w_conn w) -> rust_slice b -> room build 1 w -> ss_phase (cn_session (w_conn w)) = Ready ->
  parse_frame b (Some frame_options) = Ok f -> df_opcode f = OPCODE_ROS_SAMPLE ->
  cn_channels (w_conn w) !! df_channel_id f = Some r -> cr_kind r = TopicPublish ->
  (build = DebugBuild -> df_sequence f < u64_max) ->
  wp (handle_frame build config auth_config clock pid b)
    (fun _ w' => publish_result f r (sub_list b (32 + df_extension_len f) (df_payload_len f)) w w') (fun _ _ => False) w.
Proof using Hlaws.
  intros Hwf Hb Hroom Hp Hparse Hop Hr Hk Hseq. unfold handle_frame. wp_step. rewrite Hparse. wp_step. wp_step.
  pose proof (cc_channels _ (proj1 Hwf) (df_channel_id f)) as Hact. rewrite Hr in Hact. cbn in Hact. symmetry in Hact.
  unfold active_kind in Hact. destruct (ss_channels _ !! _) as [entry |] eqn:He; [| done].
  case_bool_decide as Hst; [| done]. injection Hact as Hkind.
  assert (Hacc : frame_accepts (cn_session (w_conn w)) Client f (cn_session (w_conn w)) no_effects).
  { apply (acc_sample _ Client f entry); try done. by rewrite Hkind, Hk. }
  unfold wp at 1, session_, ingest_frame, bind at 1, gets at 1. rewrite (cc_role _ (proj1 Hwf)). cbn [peer].
  change (apply_frame f Client) with (apply_event (EvFrame f) Client).
  rewrite (event_complete (EvFrame f) _ _ _ _ Hacc).
  change (mk_world (set_session (cn_session (w_conn w)) (w_conn w)) (w_out w) (w_queue w) (w_telemetry w)
    (w_session_counter w) (w_backend w)) with (with_conn (set_session (cn_session (w_conn w)) (w_conn w)) w).
  rewrite with_same_session. wp_step. wp_step. cbv zeta. rewrite Hop.
  change (OPCODE_ROS_SAMPLE =? OPCODE_CONTROL_CBOR) with false.
  change (OPCODE_ROS_SAMPLE =? OPCODE_ROS_SAMPLE) with true. cbn iota.
  apply wp_call_fn, (wp_publish_sample build f b r); try done.
  - by eapply parsed_frame.
  - by rewrite Hop.
Qed.

Lemma wp_inbound_sample build b f r w :
  conn_wf (w_conn w) -> rust_slice b -> room build 1 w -> ss_phase (cn_session (w_conn w)) = Ready ->
  parse_frame b (Some frame_options) = Ok f -> df_opcode f = OPCODE_ROS_SAMPLE ->
  cn_channels (w_conn w) !! df_channel_id f = Some r -> cr_kind r = TopicPublish ->
  (build = DebugBuild -> df_sequence f < u64_max) ->
  wp (handle_inbound build config auth_config active clock pid b)
    (fun _ w' => publish_result f r (sub_list b (32 + df_extension_len f) (df_payload_len f)) (with_out no_outcome w) w')
    (fun _ _ => False) w.
Proof using Hlaws.
  intros Hwf Hb Hroom Hp Hparse Hop Hr Hk Hseq. unfold handle_inbound, on_out, conn_.
  wp_step. wp_step. wp_step. wp_step. cbn [w_conn]. rewrite Hp. cbn [is_terminal in_selected_plane negb].
  apply wp_call_fn. eapply wp_mono; [by apply (wp_sample_frame build b f r (with_out no_outcome w)) | done | done].
Qed.

(** C26: what the connection does with a sample frame on a channel the client
    publishes on.  When the flags agree with the channel and the sequence is
    the next one (on a best-effort channel: not an older one), exactly this
    payload is published, once, on the channel's entity and the next sequence
    is expected; a stale best-effort sample changes nothing; anything else
    publishes nothing and closes the connection. *)
Theorem sample_published build b f r w :
  conn_wf (w_conn w) -> rust_slice b -> room build 1 w -> ss_phase (cn_session (w_conn w)) = Ready ->
  parse_frame b (Some frame_options) = Ok f -> df_opcode f = OPCODE_ROS_SAMPLE ->
  cn_channels (w_conn w) !! df_channel_id f = Some r -> cr_kind r = TopicPublish ->
  (build = DebugBuild -> df_sequence f < u64_max) ->
  answers_with (handle_inbound build config auth_config active clock pid b)
    (fun _ w' => publish_result f r (sub_list b (32 + df_extension_len f) (df_payload_len f)) (with_out no_outcome w) w') w.
Proof using Hlaws.
  intros Hwf Hb Hroom Hp Hparse Hop Hr Hk Hseq. apply wp_answers. by apply wp_inbound_sample.
Qed.

(** ** Samples to the client *)

(** What was sent for [s] and the connection after it. *)
Definition forwarded (s : SubscriptionSample) w (frames : list bytes) w' : Prop :=
  frames = fst (sample_sent s w) /\ w_conn w' = snd (sample_sent s w) /\
  forall frame, frame ∈ frames -> exists r f,
    cn_channels (w_conn w) !! ss_channel_id s = Some r /\ cr_kind r = TopicSubscribe /\
    frames = [frame] /\ parse_frame frame (Some frame_options) = Ok f /\
    df_opcode f = OPCODE_ROS_SAMPLE /\ df_channel_id f = ss_channel_id s /\ df_sequence f = cr_seq_out r /\
    df_flags f = (if cr_reliable r then FLAG_ROS_RELIABLE else 0) /\
    df_payload f = Application (drop 32 (ss_frame_buf s)) /\
    cn_channels (w_conn w') !! ss_channel_id s = Some (with_seq_out (next (cr_seq_out r)) r).

Lemma wp_forward_sample build s w :
  loop_wf w -> sample_ok s -> seq_out_room build (ss_channel_id s) w ->
  wp (turn build config auth_config active clock pid (ESample s))
    (fun '(frames, go) w' => go = true /\ forwarded s w frames w') (fun _ _ => False) w.
Proof.
  intros [Hwf Hidle] Hs Hroom. cbn [turn]. wp_step.
  apply wp_call_fn, wp_admit_sample; try done. intros w' (Hok & Hitems & Hconn).
  cut (wp (E := unit) (frames <~ flush_all ;; ret (frames, true))
    (fun '(frames, go) w' => go = true /\ forwarded s w frames w') (fun _ _ => False) w'); [done |].
  wp_step. apply wp_flush_all; [done |]. intros q t Hi. wp_step. rewrite Hitems. cbn [w_conn]. rewrite Hconn.
  unfold forwarded. split_and!; [done | done | done |]. unfold sample_sent.
  intros frame Hin.
  destruct (cn_channels (w_conn w) !! ss_channel_id s) as [r |] eqn:Hr; [| by apply not_elem_of_nil in Hin].
  destruct (_ || _) eqn:Eb; [by apply not_elem_of_nil in Hin |].
  destruct (_ <=? _) eqn:El; [| destruct (cr_reliable r); by apply not_elem_of_nil in Hin].
  cbn [fst] in Hin. apply list_elem_of_singleton in Hin as ->. apply orb_false_iff in Eb as [Ek Em].
  apply negb_false_iff, bool_decide_eq_true in Ek. apply Z.ltb_ge in Em. destruct Hs as [Hsl Hl].
  destruct (cc_runtimes _ (proj1 Hwf) _ _ Hr) as [Hid Hrt].
  eexists r, _. split_and!; [done | exact Ek | done | apply framed_parses; try done; lia | ..]; try done.
  cbn. destruct (w_conn w). cbn. by rewrite lookup_insert_eq.
Qed.

(** A sample of the ROS side.  The turn sends what [sample_sent] says: at
    most one message, which is the frame [parse_frame] reads back with the
    channel's id, its next outbound sequence, its reliability flag and the
    sample's payload; the next sample gets the next sequence. *)
Theorem sample_forwarded build s w :
  loop_wf w -> sample_ok s -> seq_out_room build (ss_channel_id s) w ->
  answers_with (turn build config auth_config active clock pid (ESample s))
    (fun '(frames, go) w' => go = true /\ forwarded s w frames w') w.
Proof. intros Hw Hs Hroom. apply wp_answers. by apply wp_forward_sample. Qed.

End Theorems.

(** ** A concrete gateway *)

(** The gateway runs on a 64-bit target. *)
Definition gateway_target : Target := Native64.

#[local] Existing Instance gateway_target.

(** A backend that numbers its entities and keeps what is published; a call on
    it fails, and its graph is [sample_view]. *)
Record LogBackend := mk_log { lb_next : Z; lb_live : list Z; lb_published : list (Z * bytes) }.

Definition log_create (_ : ChannelSpec) : Method LogBackend EntityId := fun b =>
  (inl (lb_next b), mk_log (lb_next b + 1) (lb_next b :: lb_live b) (lb_published b)).
Definition log_data {A} (a : A) (entity : EntityId) (payload : bytes) : Method LogBackend A := fun b =>
  (inl a, mk_log (lb_next b) (lb_live b) (lb_published b ++ [(entity, payload)])).
Definition log_fail {A} : Method LogBackend A := fun b => (inr (schema_unavailable (lit "not served")), b).

#[export] Instance log_backend : RosBackend LogBackend := {
  create_subscription := log_create; create_publisher := log_create; create_client := log_create;
  create_service := log_create; create_action_client := log_create; create_action_server := log_create;
  publish := log_data tt;
  destroy entity b := mk_log (lb_next b) (List.remove Z.eq_dec entity (lb_live b)) (lb_published b);
  call _ _ _ := log_fail; send_action_goal _ _ _ := log_fail; cancel_action _ _ _ := log_fail;
  send_service_response entity _ := log_data tt entity;
  send_action_feedback entity _ := log_data tt entity;
  send_action_result entity _ := log_data tt entity;
  send_action_status entity _ := log_data tt entity;
  graph_view b := (inl sample_view, b)
}.

Lemma sample_view_ok : view_ok sample_view.
Proof.
  split; cbn.
  - repeat constructor; cbn; try done; try lia; by vm_compute.
  - repeat constructor; cbn; try done; try lia; by vm_compute.
  - by apply (bool_decide_unpack _); vm_compute.
  - by apply (bool_decide_unpack _); vm_compute.
  - by vm_compute.
Qed.

#[export] Instance log_backend_laws : RosBackendLaws LogBackend.
Proof.
  assert (Hfail : forall A (P : A -> Prop), answers P (log_fail (A := A))).
  { intros A P b. split; [by vm_compute |]. by apply reportable_check. }
  split; try (intros; apply Hfail); try (by intros).
  intros b. exact sample_view_ok.
Qed.

(** A JWT library that knows no token. *)
#[export] Instance no_jwt : JwtLibrary := {|
  JwkSet := unit; Jwk := unit; Header := unit; DecodingKey := unit;
  decode_header _ := None; is_hs256 _ := false; kid _ := None; jwks_find _ _ := None;
  from_secret _ := tt; from_jwk _ := None; decode_subject _ _ _ _ _ := None
|}.

#[export] Instance no_jwt_laws : JwtLaws.
Proof. by split. Qed.

(** ** A whole session, evaluated *)

Definition demo_auth : AuthConfig := {| auth_mode := AuthOff; oidc := None |}.
Definition demo_config : GatewayConfig := default_config.

Definition demo_control (sequence : Z) (fields : list (Z * CborValue)) : bytes :=
  match encode_control_frame 0 sequence (Map fields) with Ok b => b | _ => [] end.

Definition demo_authenticate : bytes :=
  demo_control 0 [(1, Unsigned 1); (2, Bytes (zeros 16)); (16, Text (lit "dev")); (17, Bytes [1])].

(** Opens channel [id] of kind [kind] on a topic, with reliable keep-last QoS. *)
Definition demo_open (sequence id kind : Z) (topic : bytes) : bytes :=
  demo_control sequence
    [(1, Unsigned 8); (2, Bytes (zeros 16)); (29, Unsigned id); (30, Unsigned kind); (31, Text topic);
     (4, Text (lit "std_msgs/msg/String")); (3, demo_schema_identity SUPPORT_ROW_J_FT); (5, Unsigned 1); (6, Unsigned 0);
     (11, Map [(1, Unsigned 1); (2, Unsigned 2); (3, Unsigned 1); (4, Unsigned 5)]); (32, Unsigned 2); (12, Map []);
     (9, Unsigned 0); (8, Text (row_id SUPPORT_ROW_J_FT))].

Definition demo_sample (id sequence : Z) (payload : bytes) : bytes :=
  match encode_frame
          {| fh_version := 0; fh_opcode := OPCODE_ROS_SAMPLE; fh_flags := FLAG_ROS_RELIABLE; fh_channel_id := id;
             fh_sequence := sequence; fh_source_time_ns := 0; fh_priority := 2; fh_clock_id := 0 |} [] payload with
  | Ok b => b
  | _ => []
  end.

Definition demo_run (events : list Event) : outcome unit (list bytes) * World LogBackend :=
  run_connection ReleaseBuild demo_config demo_auth BinaryWebSocket (fun n => n) 42 events
    (connect demo_config no_telemetry 0 (mk_log 1 [] [])).

(** The kinds and sequences of the frames sent, by channel. *)
Definition demo_seen (frames : list bytes) : list (Z * Z * Z) :=
  flat_map (fun b => match parse_frame b (Some frame_options) with
                     | Ok f => [(match df_payload f with Frame.Control m => cm_kind m | Application _ => 0 end,
                                 df_channel_id f, df_sequence f)]
                     | _ => []
                     end) frames.

Definition demo_handshake : list Event :=
  [EInbound sample_client_bytes; EInbound demo_authenticate; EInbound (demo_open 1 7 1 (lit "/chatter"));
   EInbound (demo_open 2 8 0 (lit "/chatter"))].
Definition demo_events : list Event :=
  demo_handshake ++ [EInbound (demo_sample 7 0 [1; 2]); EInbound (demo_sample 7 1 [3]);
    ESample (sample_from_payload 8 [9; 9]); ESample (sample_from_payload 8 [8]);
    EInbound (demo_sample 7 5 [4]); EInbound (demo_sample 7 6 [5])].

(** The session above: session ready, graph, two channels, the two samples of
    the ROS side, and an error that ends it at the first sequence the channel
    does not expect; two samples were published and no entity is left. *)
Example demo_session :
  match demo_run demo_events with
  | (Ok frames, w) =>
      demo_seen frames = [(2, 0, 0); (3, 0, 1); (9, 0, 2); (4, 0, 3); (9, 0, 4); (4, 0, 5); (0, 8, 0); (0, 8, 1); (15, 0, 6)] /\
      lb_published (w_backend w) = [(1, [1; 2]); (1, [3])] /\ lb_live (w_backend w) = []
  | _ => False
  end.
Proof. by vm_compute. Qed.

(** The world after turns that all go on. *)
Fixpoint turns (events : list Event) (w : World LogBackend) : option (World LogBackend) :=
  match events with
  | [] => Some w
  | e :: events' =>
      match turn ReleaseBuild demo_config demo_auth BinaryWebSocket (fun n => n) 42 e w with
      | (Ok (_, true), w') => turns events' w'
      | _ => None
      end
  end.

Lemma turns_wf events : forall w w', Forall input_ok events -> loop_wf w -> turns events w = Some w' -> loop_wf w'.
Proof.
  induction events as [| e events IH]; intros w w' He Hwf; cbn [turns]; [by intros [= <-] |].
  inversion He as [| ? ? Hin Hrest]; subst.
  pose proof (wp_turn ReleaseBuild demo_config demo_auth BinaryWebSocket (fun n => n) 42 default_config_ok e w Hwf Hin
    (release_room e w)) as Ht. unfold wp in Ht.
  destruct (turn _ _ _ _ _ _ e w) as [[[messages go] | |] w1]; try done. destruct go; [| done].
  apply IH; [done |]. split; by apply Ht.
Qed.

Definition input_okb (e : Event) : bool :=
  match e with
  | EInbound b => forallb (fun x => (0 <=? x) && (x <? 256)) b && (blen b <=? isize_max)
  | ESample s => forallb (fun x => (0 <=? x) && (x <? 256)) (ss_frame_buf s) && (blen (ss_frame_buf s) <=? isize_max) &&
      (32 <=? blen (ss_frame_buf s)) && (blen (ss_frame_buf s) <=? 32 + u32_max)
  | _ => false
  end.

Lemma input_check events : forallb input_okb events = true -> Forall input_ok events.
Proof.
  intros Hc. apply Forall_forall. intros e He. rewrite forallb_forall in Hc.
  specialize (Hc e (proj1 (list_elem_of_In _ _) He)). destruct e; try done; cbn [input_okb input_ok] in *.
  - apply andb_true_iff in Hc as [Hb Hl]. apply Z.leb_le in Hl. split; [by apply bytes_ok_check | done].
  - rewrite !andb_true_iff, !Z.leb_le in Hc. destruct Hc as [[[Hb Hl] H1] H2].
    split; [split; [by apply bytes_ok_check | done] | done].
Qed.

Definition demo_start : World LogBackend := connect demo_config no_telemetry 0 (mk_log 1 [] []).
Definition demo_world : World LogBackend :=
  match turns demo_handshake demo_start with Some w => w | None => demo_start end.

Lemma demo_queue : sample_queue_max_bytes demo_config < usize_max.
Proof. by vm_compute. Qed.

Lemma demo_world_wf : loop_wf demo_world.
Proof.
  assert (Hsome : is_Some (turns demo_handshake demo_start)) by (vm_compute; by eexists).
  unfold demo_world. destruct (turns demo_handshake demo_start) as [w |] eqn:E; [| by destruct Hsome].
  eapply turns_wf; [| | exact E]; [by apply input_check; vm_compute | apply connect_wf, demo_queue].
Qed.

(** ** Witnesses *)



Definition demo_runtime (id : Z) : ChannelRuntime :=
  or_else (cn_channels (w_conn demo_world) !! id) (mk_runtime TopicPublish 0 true false 0 0 0 ∅ ∅).
Definition demo_frame : DecodedFrame :=
  match parse_frame (demo_sample 7 0 [1; 2]) (Some frame_options) with Ok f => f | _ => Frame.control_frame 0 0 0 (message_of 0 []) end.

(** The first sample on channel 7 is published and the channel expects the next. *)
Lemma sample_published_witness :
  flags_agree (demo_runtime 7) (df_flags demo_frame) && in_sequence (demo_runtime 7) (df_sequence demo_frame) = true /\
  answers_with (handle_inbound DebugBuild demo_config demo_auth BinaryWebSocket (fun n => n) 42 (demo_sample 7 0 [1; 2]))
    (fun _ w' => publish_result demo_frame (demo_runtime 7) (sub_list (demo_sample 7 0 [1; 2])
       (32 + df_extension_len demo_frame) (df_payload_len demo_frame)) (with_out no_outcome demo_world) w') demo_world.
Proof.
  split; [by vm_compute |].
  apply (sample_published demo_config demo_auth BinaryWebSocket (fun n => n) 42 DebugBuild (demo_sample 7 0 [1; 2])
    demo_frame (demo_runtime 7) demo_world (proj1 demo_world_wf)); try (by vm_compute); try (intros _; by vm_compute).
  exact (proj1 (Forall_singleton _ _) (input_check [EInbound (demo_sample 7 0 [1; 2])] ltac:(by vm_compute))).
Defined.

Lemma sample_forwarded_witness :
  fst (sample_sent (sample_from_payload 8 [1; 2]) demo_world) = [demo_sample 8 0 [1; 2]] /\
  answers_with (turn DebugBuild demo_config demo_auth BinaryWebSocket (fun n => n) 42 (ESample (sample_from_payload 8 [1; 2])))
    (fun '(frames, go) w' => go = true /\ forwarded (sample_from_payload 8 [1; 2]) demo_world frames w') demo_world.
Proof.
  split; [by vm_compute |].
  apply (sample_forwarded demo_config demo_auth BinaryWebSocket (fun n => n) 42 DebugBuild (sample_from_payload 8 [1; 2])
    demo_world demo_world_wf).
  - exact (proj1 (Forall_singleton _ _) (input_check [ESample (sample_from_payload 8 [1; 2])] ltac:(by vm_compute))).
  - intros _ r Hr. vm_compute in Hr. injection Hr as <-. by vm_compute.
Defined.
