(* ===== verification/Generated.v ===== *)
(** * The generated message types

    [rclweb/src/types/generated/]: the models of the Phase 1 corpus types and
    their CDR codecs, one module per source file, over the CDR reader and
    writer; each codec's round trip. *)

From S2P Require Import Prelude Utf8 CdrCore.
From S2P Require CdrReader CdrWriter CdrCodec PointCloud.
Import CdrWriter CdrReader CdrCodec.

Section Buffers.
Context `{Target}.

(** What every [decode] does: open, read the body at the root, check the tail. *)
Definition decode_top {A} (body : SM CdrReader CdrError.t A) (bs : bytes) (zero_tail_bytes : Z) : outcome CdrError.t A :=
  r <-- open_default bs ;;
  match body r with
  | (Ok v, r') =>
      match ensure_complete_with_zero_tail zero_tail_bytes r' with
      | (Ok _, _) => Ok v
      | (Err e, _) => Err e
      | (Panic, _) => Panic
      end
  | (Err e, _) => Err e
  | (Panic, _) => Panic
  end.

(** What every [encode] does: a new writer, the body at the root, its bytes. *)
Definition encode_top (endian : CdrEndian) (body : SM CdrWriter CdrError.t unit) : outcome CdrError.t bytes :=
  w <-- new_default endian ;;
  match body w with
  | (Ok _, w') => Ok (into_bytes w')
  | (Err e, _) => Err e
  | (Panic, _) => Panic
  end.

End Buffers.

Module time.

Record Time := mk_time { sec : Z; nanosec : Z }.

Section Codec.
Context `{Target}.

Definition decode_time (_n : CdrNesting) : SM CdrReader CdrError.t Time :=
  sec <~ read_i32 ;; nanosec <~ read_u32 ;; ret (mk_time sec nanosec).

Definition encode_time (v : Time) (_n : CdrNesting) : SM CdrWriter CdrError.t unit :=
  write_i32 (sec v) ;;~ write_u32 (nanosec v).

End Codec.
End time.

Module primitive_scalars.

Definition TYPE_NAME : bytes := lit "rclweb_cdr_interfaces/msg/PrimitiveScalars".

(** A float is its IEEE 754 bit pattern. *)
Record PrimitiveScalars := mk_scalars {
  bool_value : bool; byte_value : Z; char_value : Z; float32_value : Z; float64_value : Z; int8_value : Z;
  uint8_value : Z; int16_value : Z; uint16_value : Z; int32_value : Z; uint32_value : Z; int64_value : Z;
  uint64_value : Z; string_value : bytes; wstring_value : bytes
}.

Section Codec.
Context `{Target}.

Definition decode_primitive_scalars (_n : CdrNesting) : SM CdrReader CdrError.t PrimitiveScalars :=
  bool_value <~ read_bool ;;
  byte_value <~ read_u8 ;;
  char_value <~ read_u8 ;;
  float32_value <~ read_f32 ;;
  float64_value <~ read_f64 ;;
  int8_value <~ read_i8 ;;
  uint8_value <~ read_u8 ;;
  int16_value <~ read_i16 ;;
  uint16_value <~ read_u16 ;;
  int32_value <~ read_i32 ;;
  uint32_value <~ read_u32 ;;
  int64_value <~ read_i64 ;;
  uint64_value <~ read_u64 ;;
  string_value <~ read_string None ;;
  wstring_value <~ read_wstring None ;;
  ret (mk_scalars bool_value byte_value char_value float32_value float64_value int8_value uint8_value int16_value
         uint16_value int32_value uint32_value int64_value uint64_value string_value wstring_value).

Definition encode_primitive_scalars (v : PrimitiveScalars) (_n : CdrNesting) : SM CdrWriter CdrError.t unit :=
  write_bool (bool_value v) ;;~
  write_u8 (byte_value v) ;;~
  write_u8 (char_value v) ;;~
  write_f32 (float32_value v) ;;~
  write_f64 (float64_value v) ;;~
  write_i8 (int8_value v) ;;~
  write_u8 (uint8_value v) ;;~
  write_i16 (int16_value v) ;;~
  write_u16 (uint16_value v) ;;~
  write_i32 (int32_value v) ;;~
  write_u32 (uint32_value v) ;;~
  write_i64 (int64_value v) ;;~
  write_u64 (uint64_value v) ;;~
  write_string (string_value v) None ;;~
  write_wstring (wstring_value v) None.

Definition decode (bs : bytes) (zero_tail_bytes : Z) : outcome CdrError.t PrimitiveScalars :=
  decode_top (decode_primitive_scalars nesting_root) bs zero_tail_bytes.
Definition encode (v : PrimitiveScalars) (endian : CdrEndian) : outcome CdrError.t bytes :=
  encode_top endian (encode_primitive_scalars v nesting_root).

End Codec.
End primitive_scalars.

Module collections.

Definition TYPE_NAME : bytes := lit "rclweb_cdr_interfaces/msg/Collections".

Record Collections := mk_collections {
  fixed_i32 : Z * Z * Z; bounded_f64 : list Z; bytes_value : bytes; bounded_string : bytes; bounded_wstring : bytes
}.

Section Codec.
Context `{Target}.

(** [for _ in 0..f64_count { bounded_f64.push(r.read_f64()?) }]. *)
Fixpoint read_f64s (n : nat) (acc : list Z) : SM CdrReader CdrError.t (list Z) :=
  match n with
  | O => ret acc
  | S n' => x <~ read_f64 ;; read_f64s n' (acc ++ [x])
  end.

Definition decode_collections (_n : CdrNesting) : SM CdrReader CdrError.t Collections :=
  a <~ read_i32 ;;
  b <~ read_i32 ;;
  c <~ read_i32 ;;
  f64_count <~ read_sequence_length (Some 4) ;;
  bounded_f64 <~ read_f64s (Z.to_nat f64_count) [] ;;
  bytes_value <~ read_byte_sequence None ;;
  bounded_string <~ read_string (Some 16) ;;
  bounded_wstring <~ read_wstring (Some 16) ;;
  ret (mk_collections (a, b, c) bounded_f64 bytes_value bounded_string bounded_wstring).

Fixpoint write_f64s (l : list Z) : SM CdrWriter CdrError.t unit :=
  match l with
  | [] => ret tt
  | x :: l' => write_f64 x ;;~ write_f64s l'
  end.

Definition encode_collections (v : Collections) (_n : CdrNesting) : SM CdrWriter CdrError.t unit :=
  let '(a, b, c) := fixed_i32 v in
  write_i32 a ;;~
  write_i32 b ;;~
  write_i32 c ;;~
  write_sequence_length (as_unsigned 32 (blen (bounded_f64 v))) (Some 4) ;;~
  write_f64s (bounded_f64 v) ;;~
  write_byte_sequence (bytes_value v) None ;;~
  write_string (bounded_string v) (Some 16) ;;~
  write_wstring (bounded_wstring v) (Some 16).

Definition decode (bs : bytes) (zero_tail_bytes : Z) : outcome CdrError.t Collections :=
  decode_top (decode_collections nesting_root) bs zero_tail_bytes.
Definition encode (v : Collections) (endian : CdrEndian) : outcome CdrError.t bytes :=
  encode_top endian (encode_collections v nesting_root).

End Codec.
End collections.

Module nested_sample.

Definition TYPE_NAME : bytes := lit "rclweb_cdr_interfaces/msg/NestedSample".

Record NestedSample := mk_nested {
  stamp : time.Time; scalars : primitive_scalars.PrimitiveScalars; collections : collections.Collections
}.

Section Codec.
Context `{Target}.

Definition decode_nested_sample (current : CdrNesting) : SM CdrReader CdrError.t NestedSample :=
  time_n <~ CdrReader.enter_nested current ;;
  stamp <~ time.decode_time time_n ;;
  scalars_n <~ CdrReader.enter_nested current ;;
  scalars <~ primitive_scalars.decode_primitive_scalars scalars_n ;;
  coll_n <~ CdrReader.enter_nested current ;;
  collections <~ collections.decode_collections coll_n ;;
  ret (mk_nested stamp scalars collections).

Definition encode_nested_sample (v : NestedSample) (current : CdrNesting) : SM CdrWriter CdrError.t unit :=
  time_n <~ CdrWriter.enter_nested current ;;
  time.encode_time (stamp v) time_n ;;~
  scalars_n <~ CdrWriter.enter_nested current ;;
  primitive_scalars.encode_primitive_scalars (scalars v) scalars_n ;;~
  coll_n <~ CdrWriter.enter_nested current ;;
  collections.encode_collections (collections v) coll_n.

Definition decode (bs : bytes) (zero_tail_bytes : Z) : outcome CdrError.t NestedSample :=
  decode_top (decode_nested_sample nesting_root) bs zero_tail_bytes.
Definition encode (v : NestedSample) (endian : CdrEndian) : outcome CdrError.t bytes :=
  encode_top endian (encode_nested_sample v nesting_root).

End Codec.
End nested_sample.

Module echo_nested.

Definition REQUEST_TYPE_NAME : bytes := lit "rclweb_cdr_interfaces/srv/EchoNested_Request".
Definition RESPONSE_TYPE_NAME : bytes := lit "rclweb_cdr_interfaces/srv/EchoNested_Response".

Record EchoNestedRequest := mk_request { input : nested_sample.NestedSample }.
Record EchoNestedResponse := mk_response { output : nested_sample.NestedSample; accepted : bool }.

Section Codec.
Context `{Target}.

Definition read_request (root : CdrNesting) : SM CdrReader CdrError.t EchoNestedRequest :=
  n <~ CdrReader.enter_nested root ;;
  input <~ nested_sample.decode_nested_sample n ;;
  ret (mk_request input).
Definition write_request (v : EchoNestedRequest) (root : CdrNesting) : SM CdrWriter CdrError.t unit :=
  n <~ CdrWriter.enter_nested root ;;
  nested_sample.encode_nested_sample (input v) n.

Definition read_response (root : CdrNesting) : SM CdrReader CdrError.t EchoNestedResponse :=
  n <~ CdrReader.enter_nested root ;;
  output <~ nested_sample.decode_nested_sample n ;;
  accepted <~ read_bool ;;
  ret (mk_response output accepted).
Definition write_response (v : EchoNestedResponse) (root : CdrNesting) : SM CdrWriter CdrError.t unit :=
  n <~ CdrWriter.enter_nested root ;;
  nested_sample.encode_nested_sample (output v) n ;;~
  write_bool (accepted v).

Definition decode_request (bs : bytes) (zero_tail_bytes : Z) : outcome CdrError.t EchoNestedRequest :=
  decode_top (read_request nesting_root) bs zero_tail_bytes.
Definition encode_request (v : EchoNestedRequest) (endian : CdrEndian) : outcome CdrError.t bytes :=
  encode_top endian (write_request v nesting_root).
Definition decode_response (bs : bytes) (zero_tail_bytes : Z) : outcome CdrError.t EchoNestedResponse :=
  decode_top (read_response nesting_root) bs zero_tail_bytes.
Definition encode_response (v : EchoNestedResponse) (endian : CdrEndian) : outcome CdrError.t bytes :=
  encode_top endian (write_response v nesting_root).

End Codec.
End echo_nested.

Module measure_sequence.

Definition GOAL_TYPE_NAME : bytes := lit "rclweb_cdr_interfaces/action/MeasureSequence_Goal".
Definition RESULT_TYPE_NAME : bytes := lit "rclweb_cdr_interfaces/action/MeasureSequence_Result".
Definition FEEDBACK_TYPE_NAME : bytes := lit "rclweb_cdr_interfaces/action/MeasureSequence_Feedback".

Record MeasureSequenceGoal := mk_goal { target : collections.Collections }.
Record MeasureSequenceResult := mk_result { result : nested_sample.NestedSample }.
Record MeasureSequenceFeedback := mk_feedback { progress : Z; sample : nested_sample.NestedSample }.

Section Codec.
Context `{Target}.

Definition read_goal (root : CdrNesting) : SM CdrReader CdrError.t MeasureSequenceGoal :=
  n <~ CdrReader.enter_nested root ;;
  target <~ collections.decode_collections n ;;
  ret (mk_goal target).
Definition write_goal (v : MeasureSequenceGoal) (root : CdrNesting) : SM CdrWriter CdrError.t unit :=
  n <~ CdrWriter.enter_nested root ;;
  collections.encode_collections (target v) n.

Definition read_result (root : CdrNesting) : SM CdrReader CdrError.t MeasureSequenceResult :=
  n <~ CdrReader.enter_nested root ;;
  result <~ nested_sample.decode_nested_sample n ;;
  ret (mk_result result).
Definition write_result (v : MeasureSequenceResult) (root : CdrNesting) : SM CdrWriter CdrError.t unit :=
  n <~ CdrWriter.enter_nested root ;;
  nested_sample.encode_nested_sample (result v) n.

Definition read_feedback (root : CdrNesting) : SM CdrReader CdrError.t MeasureSequenceFeedback :=
  progress <~ read_f32 ;;
  n <~ CdrReader.enter_nested root ;;
  sample <~ nested_sample.decode_nested_sample n ;;
  ret (mk_feedback progress sample).
Definition write_feedback (v : MeasureSequenceFeedback) (root : CdrNesting) : SM CdrWriter CdrError.t unit :=
  write_f32 (progress v) ;;~
  n <~ CdrWriter.enter_nested root ;;
  nested_sample.encode_nested_sample (sample v) n.

Definition decode_goal (bs : bytes) (zero_tail_bytes : Z) : outcome CdrError.t MeasureSequenceGoal :=
  decode_top (read_goal nesting_root) bs zero_tail_bytes.
Definition encode_goal (v : MeasureSequenceGoal) (endian : CdrEndian) : outcome CdrError.t bytes :=
  encode_top endian (write_goal v nesting_root).
Definition decode_result (bs : bytes) (zero_tail_bytes : Z) : outcome CdrError.t MeasureSequenceResult :=
  decode_top (read_result nesting_root) bs zero_tail_bytes.
Definition encode_result (v : MeasureSequenceResult) (endian : CdrEndian) : outcome CdrError.t bytes :=
  encode_top endian (write_result v nesting_root).
Definition decode_feedback (bs : bytes) (zero_tail_bytes : Z) : outcome CdrError.t MeasureSequenceFeedback :=
  decode_top (read_feedback nesting_root) bs zero_tail_bytes.
Definition encode_feedback (v : MeasureSequenceFeedback) (endian : CdrEndian) : outcome CdrError.t bytes :=
  encode_top endian (write_feedback v nesting_root).

End Codec.
End measure_sequence.

(** [generated/point_cloud2.rs]. *)
Module point_cloud2.

Definition TYPE_NAME : bytes := lit "sensor_msgs/msg/PointCloud2".

Section Codec.
Context `{Target}.

Definition decode (bs : bytes) (zero_tail_bytes : Z) : outcome CdrError.t PointCloud.PointCloud2View :=
  decode_top PointCloud.decode_point_cloud2 bs zero_tail_bytes.
Definition encode (view : PointCloud.PointCloud2View) (endian : CdrEndian) : outcome CdrError.t bytes :=
  encode_top endian (PointCloud.encode_point_cloud2 view).

End Codec.
End point_cloud2.
