(* ===== verification/HostReader.v ===== *)
(** * Reading and writing the packed host layouts

    What [rclweb/src/types/host_value.rs] and [rclweb/src/host/batch.rs] do to
    their buffers: the bound check before a field, the little-endian fields and
    counted texts, and the field writers.  A reader is a state transformer over
    the offset into the input; a length that wraps [usize] wraps here.  [reads]
    composes round trips, [decodes] and [fits] the safety of decoding any input. *)

From S2P Require Import Prelude Utf8.

(** ** Fields *)

(** [v as u8] and [v.to_le_bytes()] of a signed integer. *)
Definition signed_le (n : nat) (v : Z) : bytes := to_le n (as_unsigned (8 * Z.of_nat n) v).
Definition flag (b : bool) : bytes := [if b then 1 else 0].

Section Reader.
Context `{Target} {E : Type}.

(** The state is [*offset], the argument [bytes]. *)
Definition Read (A : Type) : Type := bytes -> SM Z E A.

(** [if *offset + n > bytes.len() { return Err(truncated); }]. *)
Definition need (truncated : E) (n : Z) : Read unit := fun bs =>
  offset <~ gets id ;;
  if blen bs <? usize_add offset n then throw truncated else ret tt.

(** [bytes[*offset..*offset + n]], then [*offset += n]; out of range it panics. *)
Definition take_bytes (n : Z) : Read bytes := fun bs =>
  offset <~ gets id ;;
  s <~ lift (slice bs offset (usize_add offset n)) ;;
  modify (fun _ => usize_add offset n) ;;~
  ret s.

(** [bytes[*offset]], then [*offset += 1]. *)
Definition take_byte : Read Z := fun bs =>
  offset <~ gets id ;;
  b <~ lift (index bs offset) ;;
  modify (fun _ => usize_add offset 1) ;;~
  ret b.

(** [from_le_bytes] of the next [n] bytes. *)
Definition take_le (n : Z) : Read Z := fun bs => s <~ take_bytes n bs ;; ret (of_le s).
Definition take_signed (n : Z) : Read Z := fun bs => v <~ take_le n bs ;; ret (as_signed (8 * n) v).

(** [str::from_utf8] of the next [n] bytes; [invalid] is the error for other bytes. *)
Definition take_text (invalid : E) (n : Z) : Read bytes := fun bs =>
  offset <~ gets id ;;
  s <~ lift (slice bs offset (usize_add offset n)) ;;
  (if utf8_valid s then ret tt else throw invalid) ;;~
  modify (fun _ => usize_add offset n) ;;~
  ret s.

(** [*offset += n] over padding. *)
Definition skip (n : Z) : Read unit := fun _ => modify (fun offset => usize_add offset n).

(** [for _ in 0..n { acc.push(m) }]. *)
Fixpoint repeated {A} (m : Read A) (n : nat) (acc : list A) (bs : bytes) : SM Z E (list A) :=
  match n with
  | O => ret acc
  | S n' => x <~ m bs ;; repeated m n' (acc ++ [x]) bs
  end.

End Reader.
Arguments Read E A : clear implicits.

(** A text with a 16-bit length. *)
Definition text16 (s : bytes) : Prop := utf8_valid s = true /\ blen s <= 65535.

(** ** Round trips *)

Section Reads.
Context `{Target} {E : Type}.
#[local] Abbreviation Read := (Read E).

(** [m] reads [a] off the encoding [s], wherever it stands. *)
Definition reads {A} (m : Read A) (s : bytes) (a : A) : Prop :=
  forall pre post, blen (pre ++ s ++ post) <= isize_max ->
    m (pre ++ s ++ post) (blen pre) = (Ok a, blen pre + blen s).

Lemma reads_ret {A} (a : A) : reads (fun _ => ret a) [] a.
Proof. intros pre post _. unfold ret. f_equal. rewrite blen_nil. lia. Qed.

Lemma reads_bind {A B} (m : Read A) (k : A -> Read B) s1 s2 a b :
  reads m s1 a -> reads (k a) s2 b -> reads (fun bs => x <~ m bs ;; k x bs) (s1 ++ s2) b.
Proof.
  intros Hm Hk pre post Hl. unfold bind. rewrite <- (app_assoc s1) in *. rewrite (Hm pre (s2 ++ post)) by done.
  specialize (Hk (pre ++ s1) post). rewrite <- !app_assoc, (blen_app pre s1) in Hk.
  rewrite Hk by done. rewrite blen_app. f_equal. lia.
Qed.

(** The last read of a sequence. *)
Lemma reads_last {A B} (m : Read A) (k : A -> Read B) s a b :
  reads m s a -> reads (k a) [] b -> reads (fun bs => x <~ m bs ;; k x bs) s b.
Proof. intros Hm Hk. rewrite <- (app_nil_r s). by eapply reads_bind. Qed.

Lemma reads_need {B} e n (k : Read B) s b :
  0 <= n <= blen s -> reads k s b -> reads (fun bs => need e n bs ;;~ k bs) s b.
Proof.
  intros Hn Hk pre post Hl. pose proof isize_le_usize. pose proof (blen_nonneg pre). pose proof (blen_nonneg post).
  pose proof Hl as Hl'. rewrite !blen_app in Hl'. unfold need, bind at 1, bind at 1, gets, id. usz.
  rewrite !blen_app. destruct (Z.ltb_spec (blen pre + (blen s + blen post)) (blen pre + n)); [lia |]. by apply Hk.
Qed.

Lemma reads_take n s : blen s = n -> reads (take_bytes n) s s.
Proof.
  intros <- pre post Hl. pose proof isize_le_usize. pose proof (blen_nonneg pre). pose proof (blen_nonneg post).
  pose proof (blen_nonneg s). pose proof Hl as Hl'. rewrite !blen_app in Hl'. unfold take_bytes, bind, gets, lift, modify, id, ret. usz.
  rewrite slice_ok by (rewrite ?blen_app; lia). f_equal. f_equal.
  apply sub_list_mid. lia.
Qed.

Lemma reads_skip n s : blen s = n -> reads (skip n) s tt.
Proof.
  intros <- pre post Hl. pose proof isize_le_usize. pose proof (blen_nonneg pre). pose proof (blen_nonneg post).
  pose proof (blen_nonneg s). pose proof Hl as Hl'. rewrite !blen_app in Hl'. unfold skip, modify. by usz.
Qed.

Lemma reads_byte b : is_byte b -> reads take_byte [b] b.
Proof.
  intros Hb pre post Hl. pose proof isize_le_usize. pose proof (blen_nonneg pre). pose proof (blen_nonneg post).
  pose proof Hl as Hl'. rewrite !blen_app, blen_single in Hl'.
  unfold take_byte, bind, gets, lift, modify, id, ret. usz. by rewrite (index_app_mid pre b post).
Qed.

Lemma reads_le n v : 0 <= v < 256 ^ Z.of_nat n -> reads (take_le (Z.of_nat n)) (to_le n v) v.
Proof.
  intros Hv. unfold take_le. eapply reads_last; [apply reads_take, blen_to_le |].
  rewrite of_le_to_le by done. apply reads_ret.
Qed.

Lemma reads_signed n w v :
  w = 8 * Z.of_nat n -> 1 <= w -> is_signed w v -> reads (take_signed (Z.of_nat n)) (signed_le n v) v.
Proof.
  intros -> Hw Hv. unfold take_signed. eapply reads_last.
  - unfold signed_le. apply reads_le. pose proof (as_unsigned_range (8 * Z.of_nat n) v ltac:(lia)) as Hr.
    unfold is_unsigned in Hr. by rewrite Z.pow_mul_r in Hr by lia.
  - rewrite as_signed_unsigned by done. apply reads_ret.
Qed.

Lemma reads_text e s : utf8_valid s = true -> reads (take_text e (blen s)) s s.
Proof.
  intros Hu pre post Hb. pose proof isize_le_usize. pose proof (blen_nonneg pre). pose proof (blen_nonneg post). pose proof (blen_nonneg s).
  pose proof Hb as Hb'. rewrite !blen_app in Hb'. unfold take_text, bind, gets, lift, modify, id, ret. usz.
  rewrite slice_ok by (rewrite ?blen_app; lia). rewrite (sub_list_mid pre s post) by lia. by rewrite Hu.
Qed.

Lemma reads_flag b : reads (fun bs => x <~ take_byte bs ;; ret (negb (x =? 0))) (flag b) b.
Proof. eapply reads_last; [apply reads_byte; by destruct b | destruct b; apply reads_ret]. Qed.

Lemma reads_assoc {A B C} (m : Read A) (f : A -> Read B) (g : B -> Read C) s c :
  reads (fun bs => x <~ m bs ;; y <~ f x bs ;; g y bs) s c -> reads (fun bs => y <~ (x <~ m bs ;; f x bs) ;; g y bs) s c.
Proof.
  intros Hm pre post Hb. rewrite <- (Hm pre post Hb). unfold bind. by destruct (m _ _) as [[] ?].
Qed.

Lemma reads_group {A B C} (m : Read A) (f : A -> Read B) (g : B -> Read C) s c :
  reads (fun bs => y <~ (x <~ m bs ;; f x bs) ;; g y bs) s c -> reads (fun bs => x <~ m bs ;; y <~ f x bs ;; g y bs) s c.
Proof.
  intros Hm pre post Hb. rewrite <- (Hm pre post Hb). unfold bind. by destruct (m _ _) as [[] ?].
Qed.

(** The end of a record: what was read is the record's fields. *)
Lemma reads_done {A} (a b : A) : a = b -> reads (fun _ => ret a) [] b.
Proof. intros ->. apply reads_ret. Qed.

Lemma reads_each {A B} (m : Read B) (enc : A -> bytes) (f : A -> B) l acc :
  Forall (fun x => reads m (enc x) (f x)) l -> reads (repeated m (length l) acc) (concat (map enc l)) (acc ++ map f l).
Proof.
  intros Hl. revert acc. induction Hl as [| x l Hx _ IH]; intros acc; cbn [length repeated map concat].
  - rewrite app_nil_r. apply reads_ret.
  - eapply (reads_bind m (fun x bs => repeated m (length l) (acc ++ [x]) bs)); [exact Hx |].
    specialize (IH (acc ++ [f x])). by rewrite <- app_assoc in IH.
Qed.

Lemma reads_repeated {A} (m : Read A) (enc : A -> bytes) l acc :
  Forall (fun x => reads m (enc x) x) l -> reads (repeated m (length l) acc) (concat (map enc l)) (acc ++ l).
Proof. intros Hl. pose proof (reads_each m enc (fun x => x) l acc Hl) as Hr. by rewrite map_id in Hr. Qed.

(** A check that succeeds. *)
Lemma reads_guard {A} c e (k : Read A) s a :
  c = true -> reads k s a -> reads (fun bs => lift (guard c e) ;;~ k bs) s a.
Proof. by intros -> Hk. Qed.

End Reads.

Create HintDb reads.
#[export] Hint Resolve reads_byte : reads.
#[export] Hint Extern 4 (reads (take_le 2) (to_le 2 _) _) => apply (reads_le 2) : reads.
#[export] Hint Extern 4 (reads (take_le 4) (to_le 4 _) _) => apply (reads_le 4) : reads.
#[export] Hint Extern 4 (reads (take_le 8) (to_le 8 _) _) => apply (reads_le 8) : reads.
#[export] Hint Extern 4 (reads (take_signed 2) _ _) => apply (reads_signed 2 16) : reads.
#[export] Hint Extern 4 (reads (take_signed 4) _ _) => apply (reads_signed 4 32) : reads.
#[export] Hint Extern 4 (reads (take_signed 8) _ _) => apply (reads_signed 8 64) : reads.
#[export] Hint Extern 1 (1 <= _) => lia : reads.

(** One read after the other; the last one closes with [ret]. *)
Ltac reads_step :=
  lazymatch goal with
  | |- reads (fun bs => bind (need ?e _ bs) (fun _ => @?k bs)) _ _ => apply (reads_need e _ k)
  | |- reads (fun bs => bind _ _) (_ ++ _) _ => eapply reads_bind; [solve [auto with reads] |]; cbv beta
  | |- reads (fun bs => bind _ _) _ _ => eapply reads_last; [solve [auto with reads] |]; cbv beta
  end.

(** ** Decoding any input *)

(** A 64-bit target has room for any 32-bit count of 8-byte elements. *)
Definition wide `{Target} : Prop := usize_max = u64_max.

(** An input in the memory of a 64-bit target. *)
Class Input `{Target} (bs : bytes) : Prop := { input_slice : rust_slice bs; input_wide : wide }.

Section Decoding.
#[local] Set Default Proof Using "All".
Context `{Target} {E : Type} {bs : bytes} {Hinput : Input bs}.
#[local] Abbreviation Read := (Read E).

(** The offset stays in the input. *)
Definition inside (o : Z) : Prop := 0 <= o <= blen bs.

(** [m] does not panic and keeps the offset inside; a result satisfies [P]. *)
Definition decodes {A} (P : A -> Prop) (m : Read A) : Prop :=
  forall o, inside o -> wp (m bs) (fun a o' => P a /\ inside o') (fun _ _ => True) o.

Lemma decodes_bind {A B} (P : A -> Prop) (R : B -> Prop) (m : Read A) (k : A -> Read B) :
  decodes P m -> (forall a, P a -> decodes R (k a)) -> decodes R (fun bs => x <~ m bs ;; k x bs).
Proof.
  intros Hm Hk o Ho. apply wp_bind. eapply wp_mono; [by apply Hm | | done].
  intros a o' [Ha Ho']. by apply Hk.
Qed.

Lemma decodes_ret {A} (P : A -> Prop) a : P a -> decodes P (fun _ => ret a).
Proof. by intros Ha o Ho. Qed.

(** After a check of [n] bytes, the reads of these bytes: [fits k P m] runs [m]
    with [k] bytes left. *)
Definition fits {A} (k : Z) (P : A -> Prop) (m : Read A) : Prop :=
  forall o, 0 <= o -> o + k <= blen bs -> wp (m bs) (fun a o' => P a /\ inside o') (fun _ _ => True) o.

Lemma fits_decodes {A} (P : A -> Prop) (m : Read A) : decodes P m -> fits 0 P m.
Proof. intros Hm o H1 H2. apply Hm. split; lia. Qed.

Lemma need_fits {A} e n (P : A -> Prop) (m : Read A) :
  0 <= n -> blen bs + n <= usize_max -> fits n P m -> decodes P (fun bs => need e n bs ;;~ m bs).
Proof.
  intros Hn Hu Hm o [H1 H2]. unfold need. do 2 apply wp_bind. apply wp_gets. unfold id. usz.
  destruct (Z.ltb_spec (blen bs) (o + n)); [done |]. apply wp_ret, Hm; lia.
Qed.

Lemma wp_take n o (Q : bytes -> Z -> Prop) (X : E -> Z -> Prop) :
  0 <= n -> 0 <= o -> o + n <= blen bs -> (forall s, blen s = n -> bytes_ok s -> Q s (o + n)) -> wp (take_bytes n bs) Q X o.
Proof.
  intros Hn Ho Hl Hq. destruct input_slice as [Hb Hlen]. pose proof isize_le_usize. unfold take_bytes.
  apply wp_bind, wp_gets. unfold id. usz. apply wp_bind. eapply wp_lift_ok; [apply slice_ok; lia |].
  apply wp_bind, wp_modify, wp_ret. replace (o + n - o) with n by lia.
  apply Hq; [by apply blen_sub_list | by apply bytes_ok_sub_list].
Qed.

Lemma wp_take_le n o (Q : Z -> Z -> Prop) (X : E -> Z -> Prop) :
  0 <= n -> 0 <= o -> o + n <= blen bs -> (forall v, is_unsigned (8 * n) v -> Q v (o + n)) -> wp (take_le n bs) Q X o.
Proof.
  intros Hn Ho Hl Hq. unfold take_le. apply wp_bind, wp_take; [lia.. |]. intros s Hs Hb. apply wp_ret, Hq.
  pose proof (of_le_bound s Hb) as Hv. rewrite Hs in Hv. unfold is_unsigned. by rewrite Z.pow_mul_r by lia.
Qed.

Lemma fits_le {A} n k (P : A -> Prop) (f : Z -> Read A) :
  0 <= n <= k -> (forall v, is_unsigned (8 * n) v -> fits (k - n) P (f v)) ->
  fits k P (fun bs => v <~ take_le n bs ;; f v bs).
Proof. intros Hn Hf o Ho Hl. apply wp_bind, wp_take_le; [lia.. |]. intros v Hv. apply Hf; [done | lia | lia]. Qed.

Lemma fits_signed {A} n k (P : A -> Prop) (f : Z -> Read A) :
  1 <= n <= k -> (forall v, is_signed (8 * n) v -> fits (k - n) P (f v)) ->
  fits k P (fun bs => v <~ take_signed n bs ;; f v bs).
Proof.
  intros Hn Hf o Ho Hl. unfold take_signed. apply wp_bind, wp_bind, wp_take_le; [lia.. |]. intros v Hv. apply wp_ret.
  apply Hf; [apply as_signed_range; lia | lia | lia].
Qed.

Lemma fits_byte {A} k (P : A -> Prop) (f : Z -> Read A) :
  1 <= k -> (forall v, is_byte v -> fits (k - 1) P (f v)) -> fits k P (fun bs => v <~ take_byte bs ;; f v bs).
Proof.
  intros Hk Hf o Ho Hl. destruct input_slice as [Hb Hlen]. pose proof isize_le_usize. unfold take_byte.
  do 2 apply wp_bind. apply wp_gets. unfold id. usz. apply wp_bind.
  eapply wp_lift_ok; [apply (index_ok bs o 0); lia |]. apply wp_bind, wp_modify, wp_ret.
  apply Hf; [| lia | lia]. apply Forall_nth; [done | unfold blen in *; lia].
Qed.

Lemma fits_take {A} n k (P : A -> Prop) (f : bytes -> Read A) :
  0 <= n <= k -> (forall s, blen s = n -> bytes_ok s -> fits (k - n) P (f s)) ->
  fits k P (fun bs => s <~ take_bytes n bs ;; f s bs).
Proof. intros Hn Hf o Ho Hl. apply wp_bind, wp_take; [lia.. |]. intros s Hs Hb. apply Hf; [done | done | lia | lia]. Qed.

Lemma fits_skip {A} n k (P : A -> Prop) (m : Read A) :
  0 <= n <= k -> fits (k - n) P m -> fits k P (fun bs => skip n bs ;;~ m bs).
Proof.
  intros Hn Hm o Ho Hl. pose proof isize_le_usize. pose proof (proj2 (input_slice (bs := bs))). unfold skip.
  apply wp_bind, wp_modify. usz. apply Hm; lia.
Qed.

Lemma fits_end {A} k (P : A -> Prop) (m : Read A) : 0 <= k -> decodes P m -> fits k P m.
Proof. intros Hk Hm o H1 H2. apply Hm. split; lia. Qed.

Lemma fits_bind {A B} k (P : A -> Prop) (R : B -> Prop) (m : Read A) (f : A -> Read B) :
  fits k P m -> (forall a, P a -> decodes R (f a)) -> fits k R (fun bs => x <~ m bs ;; f x bs).
Proof.
  intros Hm Hf o H1 H2. apply wp_bind. eapply wp_mono; [by apply Hm | | done].
  intros a o' [Ha Ho']. by apply Hf.
Qed.

Lemma decodes_take n : 0 <= n -> fits n (fun s => blen s = n /\ bytes_ok s) (take_bytes n).
Proof. intros Hn o H1 H2. apply wp_take; [lia.. |]. intros s Hs Hb. split; [done | split; lia]. Qed.

Lemma wp_text e n o (Q : bytes -> Z -> Prop) (X : E -> Z -> Prop) :
  0 <= n -> 0 <= o -> o + n <= blen bs -> (forall s, utf8_valid s = true -> blen s = n -> Q s (o + n)) -> X e o ->
  wp (take_text e n bs) Q X o.
Proof.
  intros Hn Ho Hl Hq Hx. pose proof isize_le_usize. pose proof (proj2 (input_slice (bs := bs))). unfold take_text.
  apply wp_bind, wp_gets. unfold id. usz. apply wp_bind. eapply wp_lift_ok; [apply slice_ok; lia |].
  replace (o + n - o) with n by lia. apply wp_bind. destruct (utf8_valid _) eqn:Hu; [| done].
  apply wp_ret, wp_bind, wp_modify, wp_ret. apply Hq; [done | by apply blen_sub_list; lia].
Qed.

Lemma decodes_text e n : 0 <= n -> fits n (fun s => utf8_valid s = true /\ blen s = n) (take_text e n).
Proof. intros Hn o Ho Hl. apply wp_text; [lia.. | | done]. intros s Hs Hb. split; [done | split; lia]. Qed.

Lemma fits_text {A} e n k (P : A -> Prop) (f : bytes -> Read A) :
  0 <= n <= k -> (forall s, utf8_valid s = true -> blen s = n -> fits (k - n) P (f s)) ->
  fits k P (fun bs => s <~ take_text e n bs ;; f s bs).
Proof. intros Hn Hf o Ho Hl. apply wp_bind, wp_text; [lia.. | | done]. intros s Hs Hb. apply Hf; [done | done | lia | lia]. Qed.

Lemma decodes_repeated {A} (P : A -> Prop) (m : Read A) n acc :
  decodes P m -> Forall P acc -> decodes (fun l => Forall P l /\ length l = (length acc + n)%nat) (repeated m n acc).
Proof.
  intros Hm. revert acc. induction n as [| n IH]; intros acc Ha; cbn [repeated].
  - apply decodes_ret. split; [done | lia].
  - apply (decodes_bind P _ m (fun x bs => repeated m n (acc ++ [x]) bs)); [exact Hm |]. intros x Hx o Ho.
    eapply wp_mono; [apply (IH (acc ++ [x])); [| exact Ho] | | done].
    + apply Forall_app. split; [done | by apply Forall_singleton].
    + intros l o' [[Hf Hl] Hin]. rewrite length_app in Hl. cbn in Hl. split; [split; [done | lia] | done].
Qed.

Lemma room_for n : n <= 8 * u32_max -> blen bs + n <= usize_max.
Proof.
  pose proof (input_wide (bs := bs)) as Hwide. unfold wide in Hwide.
  pose proof (proj2 (input_slice (bs := bs))). unfold isize_max, usize_max, u32_max, u64_max in *.
  destruct the_target; lia.
Qed.

Lemma decodes_need {A} e n (P : A -> Prop) (m : Read A) :
  0 <= n <= 8 * u32_max -> fits n P m -> decodes P (fun bs => need e n bs ;;~ m bs).
Proof. intros Hn. apply need_fits; [lia | apply room_for; lia]. Qed.

End Decoding.
Arguments decodes {E} bs {A} P m.
Arguments fits {E} bs {A} k P m.
Arguments inside bs o : assert.

(** One field after the other. *)
Ltac field_step :=
  lazymatch goal with
  | |- fits _ _ _ (fun bs => bind (take_le _ bs) _) => apply fits_le; [lia |]; intros ? ?
  | |- fits _ _ _ (fun bs => bind (take_signed _ bs) _) => apply fits_signed; [lia |]; intros ? ?
  | |- fits _ _ _ (fun bs => bind (take_byte bs) _) => apply fits_byte; [lia |]; intros ? ?
  end.

