(* ===== verification/HostValue.v ===== *)
(** * Host values of the generated messages

    [rclweb/src/types/host_value.rs]: the packed little-endian layout the SDK
    and the engine share, its encoder and decoder, and the dispatch of a ROS
    type name to its CDR codec. *)

From S2P Require Import Prelude Utf8 CdrCore.
From S2P Require CdrReader CdrWriter CdrCodec.
From S2P Require Import Generated HostReader.
Import CdrReader.

Definition ECHO_NESTED_TYPE_NAME : bytes := lit "rclweb_cdr_interfaces/srv/EchoNested".
Definition MEASURE_SEQUENCE_TYPE_NAME : bytes := lit "rclweb_cdr_interfaces/action/MeasureSequence".

Inductive GeneratedOpKind := Request | Response | Goal_ | Result_ | Feedback.

(** [==] on strings. *)
Definition str_eqb (a b : bytes) : bool := bool_decide (a = b).

Definition generated_op_type_name (channel_type : bytes) (op : GeneratedOpKind) : option bytes :=
  if str_eqb channel_type ECHO_NESTED_TYPE_NAME then
    match op with
    | Request => Some echo_nested.REQUEST_TYPE_NAME
    | Response => Some echo_nested.RESPONSE_TYPE_NAME
    | _ => None
    end
  else if str_eqb channel_type MEASURE_SEQUENCE_TYPE_NAME then
    match op with
    | Goal_ => Some measure_sequence.GOAL_TYPE_NAME
    | Result_ => Some measure_sequence.RESULT_TYPE_NAME
    | Feedback => Some measure_sequence.FEEDBACK_TYPE_NAME
    | _ => None
    end
  else None.

Inductive GeneratedMessage :=
| PrimitiveScalars (v : primitive_scalars.PrimitiveScalars)
| Collections (v : collections.Collections)
| NestedSample (v : nested_sample.NestedSample)
| EchoNestedRequest (v : echo_nested.EchoNestedRequest)
| EchoNestedResponse (v : echo_nested.EchoNestedResponse)
| MeasureSequenceGoal (v : measure_sequence.MeasureSequenceGoal)
| MeasureSequenceResult (v : measure_sequence.MeasureSequenceResult)
| MeasureSequenceFeedback (v : measure_sequence.MeasureSequenceFeedback).

Inductive GeneratedValueError := Truncated | UnknownType | Cdr.

Definition type_name (m : GeneratedMessage) : bytes :=
  match m with
  | PrimitiveScalars _ => primitive_scalars.TYPE_NAME
  | Collections _ => collections.TYPE_NAME
  | NestedSample _ => nested_sample.TYPE_NAME
  | EchoNestedRequest _ => echo_nested.REQUEST_TYPE_NAME
  | EchoNestedResponse _ => echo_nested.RESPONSE_TYPE_NAME
  | MeasureSequenceGoal _ => measure_sequence.GOAL_TYPE_NAME
  | MeasureSequenceResult _ => measure_sequence.RESULT_TYPE_NAME
  | MeasureSequenceFeedback _ => measure_sequence.FEEDBACK_TYPE_NAME
  end.

Section HostValue.
Context `{Target}.

(** ** CDR *)

Definition decode_live {A} (bs : bytes) (body : CdrNesting -> SM CdrReader CdrError.t A)
    : outcome GeneratedValueError A :=
  r <-- map_err (fun _ => Cdr) (open_default bs) ;;
  match body nesting_root r with
  | (Ok v, r') =>
      let rem := remaining r' in
      let tail := if (rem =? 0) || (rem =? 4) || (rem =? 12) then rem else 0 in
      match ensure_complete_with_zero_tail tail r' with
      | (Ok _, _) => Ok v
      | (Err _, _) => Err Cdr
      | (Panic, _) => Panic
      end
  | (Err _, _) => Err Cdr
  | (Panic, _) => Panic
  end.

Definition decode_generated_cdr (name : bytes) (bs : bytes) : outcome GeneratedValueError GeneratedMessage :=
  if str_eqb name primitive_scalars.TYPE_NAME then
    omap PrimitiveScalars (decode_live bs primitive_scalars.decode_primitive_scalars)
  else if str_eqb name collections.TYPE_NAME then
    omap Collections (decode_live bs collections.decode_collections)
  else if str_eqb name nested_sample.TYPE_NAME then
    omap NestedSample (decode_live bs nested_sample.decode_nested_sample)
  else if str_eqb name echo_nested.REQUEST_TYPE_NAME then
    omap EchoNestedRequest (decode_live bs echo_nested.read_request)
  else if str_eqb name echo_nested.RESPONSE_TYPE_NAME then
    omap EchoNestedResponse (decode_live bs echo_nested.read_response)
  else if str_eqb name measure_sequence.GOAL_TYPE_NAME then
    omap MeasureSequenceGoal (decode_live bs measure_sequence.read_goal)
  else if str_eqb name measure_sequence.RESULT_TYPE_NAME then
    omap MeasureSequenceResult (decode_live bs measure_sequence.read_result)
  else if str_eqb name measure_sequence.FEEDBACK_TYPE_NAME then
    omap MeasureSequenceFeedback (decode_live bs measure_sequence.read_feedback)
  else Err UnknownType.

Definition encode_generated_cdr (m : GeneratedMessage) : outcome CdrError.t bytes :=
  match m with
  | PrimitiveScalars v => primitive_scalars.encode v Little
  | Collections v => collections.encode v Little
  | NestedSample v => nested_sample.encode v Little
  | EchoNestedRequest v => echo_nested.encode_request v Little
  | EchoNestedResponse v => echo_nested.encode_response v Little
  | MeasureSequenceGoal v => measure_sequence.encode_goal v Little
  | MeasureSequenceResult v => measure_sequence.encode_result v Little
  | MeasureSequenceFeedback v => measure_sequence.encode_feedback v Little
  end.

(** ** Writing the packed layout *)

Definition write_u16 (v : Z) : bytes := to_le 2 v.
Definition write_u32 (v : Z) : bytes := to_le 4 v.

(** [bytes.len() as u16] keeps the low 16 bits of the length. *)
Definition write_u16_str (value : bytes) : bytes := write_u16 (as_unsigned 16 (blen value)) ++ value.

Definition write_primitive_scalars (v : primitive_scalars.PrimitiveScalars) : bytes :=
  flag (primitive_scalars.bool_value v) ++
  [primitive_scalars.byte_value v] ++
  [primitive_scalars.char_value v] ++
  to_le 4 (primitive_scalars.float32_value v) ++
  to_le 8 (primitive_scalars.float64_value v) ++
  signed_le 1 (primitive_scalars.int8_value v) ++
  [primitive_scalars.uint8_value v] ++
  signed_le 2 (primitive_scalars.int16_value v) ++
  to_le 2 (primitive_scalars.uint16_value v) ++
  signed_le 4 (primitive_scalars.int32_value v) ++
  to_le 4 (primitive_scalars.uint32_value v) ++
  signed_le 8 (primitive_scalars.int64_value v) ++
  to_le 8 (primitive_scalars.uint64_value v) ++
  write_u16_str (primitive_scalars.string_value v) ++
  write_u16_str (primitive_scalars.wstring_value v).

Definition write_collections (v : collections.Collections) : bytes :=
  let '(a, b, c) := collections.fixed_i32 v in
  signed_le 4 a ++ signed_le 4 b ++ signed_le 4 c ++
  write_u32 (as_unsigned 32 (blen (collections.bounded_f64 v))) ++
  concat (map (to_le 8) (collections.bounded_f64 v)) ++
  write_u32 (as_unsigned 32 (blen (collections.bytes_value v))) ++
  collections.bytes_value v ++
  write_u16_str (collections.bounded_string v) ++
  write_u16_str (collections.bounded_wstring v).

Definition write_nested_sample (v : nested_sample.NestedSample) : bytes :=
  signed_le 4 (time.sec (nested_sample.stamp v)) ++
  to_le 4 (time.nanosec (nested_sample.stamp v)) ++
  write_primitive_scalars (nested_sample.scalars v) ++
  write_collections (nested_sample.collections v).

Definition write_echo_nested_response (v : echo_nested.EchoNestedResponse) : bytes :=
  write_nested_sample (echo_nested.output v) ++ flag (echo_nested.accepted v).

Definition write_measure_sequence_feedback (v : measure_sequence.MeasureSequenceFeedback) : bytes :=
  to_le 4 (measure_sequence.progress v) ++ write_nested_sample (measure_sequence.sample v).

Definition encode_host_value (m : GeneratedMessage) : bytes :=
  match m with
  | PrimitiveScalars v => write_primitive_scalars v
  | Collections v => write_collections v
  | NestedSample v => write_nested_sample v
  | EchoNestedRequest v => write_nested_sample (echo_nested.input v)
  | EchoNestedResponse v => write_echo_nested_response v
  | MeasureSequenceGoal v => write_collections (measure_sequence.target v)
  | MeasureSequenceResult v => write_nested_sample (measure_sequence.result v)
  | MeasureSequenceFeedback v => write_measure_sequence_feedback v
  end.

(** ** Reading it: the state is [*offset], the argument [bytes] *)

#[local] Abbreviation Read := (HostReader.Read GeneratedValueError).
#[local] Abbreviation need := (HostReader.need Truncated).

Definition read_u16 : Read Z := fun bs => need 2 bs ;;~ take_le 2 bs.
Definition read_u32 : Read Z := fun bs => need 4 bs ;;~ take_le 4 bs.

Definition read_u16_str : Read bytes := fun bs =>
  len <~ read_u16 bs ;;
  need len bs ;;~
  take_text Truncated len bs.

Definition read_primitive_scalars : Read primitive_scalars.PrimitiveScalars := fun bs =>
  need 45 bs ;;~
  bool_byte <~ take_byte bs ;;
  byte_value <~ take_byte bs ;;
  char_value <~ take_byte bs ;;
  float32_value <~ take_le 4 bs ;;
  float64_value <~ take_le 8 bs ;;
  int8_byte <~ take_byte bs ;;
  uint8_value <~ take_byte bs ;;
  int16_value <~ take_signed 2 bs ;;
  uint16_value <~ take_le 2 bs ;;
  int32_value <~ take_signed 4 bs ;;
  uint32_value <~ take_le 4 bs ;;
  int64_value <~ take_signed 8 bs ;;
  uint64_value <~ take_le 8 bs ;;
  string_value <~ read_u16_str bs ;;
  wstring_value <~ read_u16_str bs ;;
  ret (primitive_scalars.mk_scalars (negb (bool_byte =? 0)) byte_value char_value float32_value float64_value
         (as_signed 8 int8_byte) uint8_value int16_value uint16_value int32_value uint32_value int64_value uint64_value
         string_value wstring_value).

(** [Vec::with_capacity(n)] of 8-byte elements: more than [isize::MAX] bytes panics. *)
Definition reserve_f64 (n : Z) : SM Z GeneratedValueError unit :=
  if n * 8 <=? isize_max then ret tt else lift Panic.

Fixpoint read_f64s (n : nat) (acc : list Z) (bs : bytes) : SM Z GeneratedValueError (list Z) :=
  match n with
  | O => ret acc
  | S n' => x <~ take_le 8 bs ;; read_f64s n' (acc ++ [x]) bs
  end.

Definition read_collections : Read collections.Collections := fun bs =>
  need 12 bs ;;~
  a <~ take_signed 4 bs ;;
  b <~ take_signed 4 bs ;;
  c <~ take_signed 4 bs ;;
  f64_len <~ read_u32 bs ;;
  need (Z.min usize_max (f64_len * 8)) bs ;;~
  reserve_f64 f64_len ;;~
  bounded_f64 <~ read_f64s (Z.to_nat f64_len) [] bs ;;
  bytes_len <~ read_u32 bs ;;
  need bytes_len bs ;;~
  bytes_value <~ take_bytes bytes_len bs ;;
  bounded_string <~ read_u16_str bs ;;
  bounded_wstring <~ read_u16_str bs ;;
  ret (collections.mk_collections (a, b, c) bounded_f64 bytes_value bounded_string bounded_wstring).

Definition read_nested_sample : Read nested_sample.NestedSample := fun bs =>
  need 8 bs ;;~
  sec <~ take_signed 4 bs ;;
  nanosec <~ take_le 4 bs ;;
  scalars <~ read_primitive_scalars bs ;;
  collections <~ read_collections bs ;;
  ret (nested_sample.mk_nested (time.mk_time sec nanosec) scalars collections).

Definition read_echo_nested_response : Read echo_nested.EchoNestedResponse := fun bs =>
  output <~ read_nested_sample bs ;;
  offset <~ gets id ;;
  (if blen bs <=? offset then throw Truncated else ret tt) ;;~
  b <~ take_byte bs ;;
  ret (echo_nested.mk_response output (negb (b =? 0))).

Definition read_measure_sequence_feedback : Read measure_sequence.MeasureSequenceFeedback := fun bs =>
  need 4 bs ;;~
  progress <~ take_le 4 bs ;;
  sample <~ read_nested_sample bs ;;
  ret (measure_sequence.mk_feedback progress sample).

(** The arms of the [match type_name] of [decode_host_value]. *)
Definition read_host_value (name : bytes) : Read GeneratedMessage := fun bs =>
  if str_eqb name primitive_scalars.TYPE_NAME then v <~ read_primitive_scalars bs ;; ret (PrimitiveScalars v)
  else if str_eqb name collections.TYPE_NAME then v <~ read_collections bs ;; ret (Collections v)
  else if str_eqb name nested_sample.TYPE_NAME then v <~ read_nested_sample bs ;; ret (NestedSample v)
  else if str_eqb name echo_nested.REQUEST_TYPE_NAME then
    v <~ read_nested_sample bs ;; ret (EchoNestedRequest (echo_nested.mk_request v))
  else if str_eqb name echo_nested.RESPONSE_TYPE_NAME then
    v <~ read_echo_nested_response bs ;; ret (EchoNestedResponse v)
  else if str_eqb name measure_sequence.GOAL_TYPE_NAME then
    v <~ read_collections bs ;; ret (MeasureSequenceGoal (measure_sequence.mk_goal v))
  else if str_eqb name measure_sequence.RESULT_TYPE_NAME then
    v <~ read_nested_sample bs ;; ret (MeasureSequenceResult (measure_sequence.mk_result v))
  else if str_eqb name measure_sequence.FEEDBACK_TYPE_NAME then
    v <~ read_measure_sequence_feedback bs ;; ret (MeasureSequenceFeedback v)
  else throw UnknownType.

Definition decode_host_value (name : bytes) (bs : bytes) : outcome GeneratedValueError GeneratedMessage :=
  match read_host_value name bs 0 with
  | (Ok m, offset) => if negb (offset =? blen bs) then Err Truncated else Ok m
  | (Err e, _) => Err e
  | (Panic, _) => Panic
  end.

End HostValue.
