(* ===== verification/HostTheorems.v ===== *)
(** * Host values: theorems

    The packed layout round-trips, its decoder yields only well-typed messages
    and never panics on a 64-bit target, and a value that travels host to CDR
    and back is unchanged. *)

From S2P Require Import Prelude Utf8 CdrCore.
From S2P Require CdrReader CdrWriter CdrCodec.
From S2P Require Import Generated HostReader HostValue.
Import CdrWriter CdrReader CdrCodec.

(** ** The values of the types *)


Record scalars_ok (v : primitive_scalars.PrimitiveScalars) : Prop := {
  ok_byte : is_byte (primitive_scalars.byte_value v);
  ok_char : is_byte (primitive_scalars.char_value v);
  ok_f32 : is_unsigned 32 (primitive_scalars.float32_value v);
  ok_f64 : is_unsigned 64 (primitive_scalars.float64_value v);
  ok_i8 : is_signed 8 (primitive_scalars.int8_value v);
  ok_u8 : is_byte (primitive_scalars.uint8_value v);
  ok_i16 : is_signed 16 (primitive_scalars.int16_value v);
  ok_u16 : is_unsigned 16 (primitive_scalars.uint16_value v);
  ok_i32 : is_signed 32 (primitive_scalars.int32_value v);
  ok_u32 : is_unsigned 32 (primitive_scalars.uint32_value v);
  ok_i64 : is_signed 64 (primitive_scalars.int64_value v);
  ok_u64 : is_unsigned 64 (primitive_scalars.uint64_value v);
  ok_string : text16 (primitive_scalars.string_value v);
  ok_wstring : text16 (primitive_scalars.wstring_value v)
}.

Record collections_ok (v : collections.Collections) : Prop := {
  ok_fixed : let '(a, b, c) := collections.fixed_i32 v in is_signed 32 a /\ is_signed 32 b /\ is_signed 32 c;
  ok_f64s : Forall (is_unsigned 64) (collections.bounded_f64 v);
  ok_count : blen (collections.bounded_f64 v) <= u32_max;
  ok_bytes : bytes_ok (collections.bytes_value v);
  ok_length : blen (collections.bytes_value v) <= u32_max;
  ok_bounded : text16 (collections.bounded_string v);
  ok_wbounded : text16 (collections.bounded_wstring v)
}.

Record nested_ok (v : nested_sample.NestedSample) : Prop := {
  ok_sec : is_signed 32 (time.sec (nested_sample.stamp v));
  ok_nanosec : is_unsigned 32 (time.nanosec (nested_sample.stamp v));
  ok_scalars : scalars_ok (nested_sample.scalars v);
  ok_collections : collections_ok (nested_sample.collections v)
}.

Definition message_ok (m : GeneratedMessage) : Prop :=
  match m with
  | PrimitiveScalars v => scalars_ok v
  | Collections v => collections_ok v
  | NestedSample v => nested_ok v
  | EchoNestedRequest v => nested_ok (echo_nested.input v)
  | EchoNestedResponse v => nested_ok (echo_nested.output v)
  | MeasureSequenceGoal v => collections_ok (measure_sequence.target v)
  | MeasureSequenceResult v => nested_ok (measure_sequence.result v)
  | MeasureSequenceFeedback v =>
      is_unsigned 32 (measure_sequence.progress v) /\ nested_ok (measure_sequence.sample v)
  end.

Section Reads.
Context `{Target}.

Lemma reads_u16 v : is_unsigned 16 v -> reads HostValue.read_u16 (HostValue.write_u16 v) v.
Proof. intros Hv. apply (reads_need _ 2 (take_le 2)); [by vm_compute | by apply (reads_le 2)]. Qed.
Lemma reads_u32 v : is_unsigned 32 v -> reads HostValue.read_u32 (HostValue.write_u32 v) v.
Proof. intros Hv. apply (reads_need _ 4 (take_le 4)); [by vm_compute | by apply (reads_le 4)]. Qed.

Lemma reads_u16_str s : text16 s -> reads read_u16_str (write_u16_str s) s.
Proof.
  intros [Hu Hl]. pose proof (blen_nonneg s). unfold read_u16_str, write_u16_str.
  rewrite as_unsigned_small by (unfold is_unsigned; lia).
  eapply reads_bind; [apply reads_u16; unfold is_unsigned; lia |]. cbv beta. apply reads_need; [lia |]. by apply reads_text.
Qed.

End Reads.

#[local] Hint Resolve reads_u16 reads_u32 reads_u16_str : reads.

Section Messages.
Context `{Target}.

Lemma blen_signed_le n v : blen (signed_le n v) = Z.of_nat n.
Proof. apply blen_to_le. Qed.

Lemma signed_le_1 v : signed_le 1 v = [as_unsigned 8 v].
Proof. unfold signed_le, as_unsigned. cbn [to_le Z.of_nat Z.mul Pos.mul]. f_equal. apply (Z.mod_mod v 256). lia. Qed.

Lemma reads_primitive_scalars v : scalars_ok v -> reads read_primitive_scalars (write_primitive_scalars v) v.
Proof.
  intros []. unfold read_primitive_scalars, write_primitive_scalars. rewrite signed_le_1. reads_step.
  { rewrite !blen_app, !blen_signed_le, !blen_to_le, !blen_single. unfold flag. rewrite blen_single.
    pose proof (blen_nonneg (write_u16_str (primitive_scalars.string_value v))).
    pose proof (blen_nonneg (write_u16_str (primitive_scalars.wstring_value v))). lia. }
  unfold flag. eapply reads_bind; [apply reads_byte; by destruct (primitive_scalars.bool_value v) |]. cbv beta.
  do 4 reads_step. eapply reads_bind; [apply reads_byte, as_unsigned_range; lia |]. cbv beta.
  do 9 reads_step. apply reads_done. rewrite as_signed_unsigned by (done || lia). destruct v as [[]]; done.
Qed.

Lemma reads_f64s l acc :
  Forall (is_unsigned 64) l -> reads (read_f64s (length l) acc) (concat (map (to_le 8) l)) (acc ++ l).
Proof.
  intros Hl. revert acc. induction Hl as [| x l Hx _ IH]; intros acc; cbn [length read_f64s map concat].
  - rewrite app_nil_r. apply reads_ret.
  - eapply (reads_bind (take_le 8) (fun x bs => read_f64s (length l) (acc ++ [x]) bs)); [by apply (reads_le 8) |].
    specialize (IH (acc ++ [x])). by rewrite <- app_assoc in IH.
Qed.

Lemma blen_f64s l : blen (concat (map (to_le 8) l)) = 8 * blen l.
Proof.
  induction l as [| x l IH]; [done |]. cbn [map concat]. rewrite blen_app, blen_to_le, blen_cons, IH. lia.
Qed.

(** The element bytes are in memory, so neither the check nor the allocation fails. *)
Lemma reads_reserve {B} (k : Read GeneratedValueError B) n s b :
  0 <= n -> 8 * n <= blen s -> reads k s b ->
  reads (fun bs => need Truncated (Z.min usize_max (n * 8)) bs ;;~ reserve_f64 n ;;~ k bs) s b.
Proof.
  intros Hn Hs Hk pre post Hl. pose proof isize_le_usize. pose proof (blen_nonneg pre). pose proof (blen_nonneg post).
  pose proof Hl as Hl'. rewrite !blen_app in Hl'. revert pre post Hl H0 H1 H2 Hl'. intros pre post Hl Hu Hp Hq Hl'.
  assert (Hmin : Z.min usize_max (n * 8) = n * 8) by lia. rewrite Hmin.
  apply (reads_need _ (n * 8) (fun bs => reserve_f64 n ;;~ k bs)); [lia | | done].
  intros pre' post' Hb. unfold reserve_f64. pose proof Hb as Hb'. rewrite !blen_app in Hb'.
  pose proof (blen_nonneg pre'). pose proof (blen_nonneg post').
  destruct (Z.leb_spec (n * 8) isize_max); [| lia]. by apply Hk.
Qed.

Lemma reads_collections v : collections_ok v -> reads read_collections (write_collections v) v.
Proof.
  intros []. unfold read_collections, write_collections. destruct (collections.fixed_i32 v) as [[a b] c] eqn:Efix.
  destruct ok_fixed0 as (Ha & Hb & Hc). pose proof (blen_nonneg (collections.bounded_f64 v)) as Hn1.
  pose proof (blen_nonneg (collections.bytes_value v)) as Hn2.
  pose proof (blen_nonneg (write_u16_str (collections.bounded_string v))) as Hs1.
  pose proof (blen_nonneg (write_u16_str (collections.bounded_wstring v))) as Hs2.
  rewrite !as_unsigned_small by (unfold is_unsigned, u32_max in *; lia). reads_step.
  { rewrite !blen_app, !blen_signed_le. unfold HostValue.write_u32. rewrite !blen_to_le, blen_f64s. lia. }
  do 3 reads_step. eapply reads_bind; [apply reads_u32; unfold is_unsigned, u32_max in *; lia |]. cbv beta.
  apply reads_reserve; [lia | rewrite !blen_app, blen_f64s; unfold HostValue.write_u32; rewrite blen_to_le; lia |].
  replace (Z.to_nat (blen (collections.bounded_f64 v))) with (length (collections.bounded_f64 v)) by (unfold blen; lia).
  eapply (reads_bind (read_f64s _ [])); [by apply reads_f64s |]. cbv beta.
  eapply reads_bind; [apply reads_u32; unfold is_unsigned, u32_max in *; lia |]. cbv beta.
  reads_step; [rewrite !blen_app; lia |].
  eapply reads_bind; [by apply reads_take |]. cbv beta. do 2 reads_step.
  apply reads_done. rewrite <- Efix, app_nil_l. by destruct v.
Qed.

Lemma reads_nested_sample v : nested_ok v -> reads read_nested_sample (write_nested_sample v) v.
Proof.
  intros []. unfold read_nested_sample, write_nested_sample. reads_step.
  { rewrite !blen_app, !blen_signed_le, !blen_to_le.
    pose proof (blen_nonneg (write_primitive_scalars (nested_sample.scalars v))).
    pose proof (blen_nonneg (write_collections (nested_sample.collections v))). lia. }
  do 2 reads_step. eapply reads_bind; [by apply reads_primitive_scalars |]. cbv beta.
  eapply reads_last; [by apply reads_collections |]. cbv beta. apply reads_done. by destruct v as [[]].
Qed.

Lemma reads_response v :
  nested_ok (echo_nested.output v) -> reads read_echo_nested_response (write_echo_nested_response v) v.
Proof.
  intros Hv. unfold read_echo_nested_response, write_echo_nested_response.
  eapply reads_bind; [by apply reads_nested_sample |]. cbv beta.
  intros pre post Hl. unfold bind at 1, gets at 1, id.
  assert (Hlt : (blen (pre ++ flag (echo_nested.accepted v) ++ post) <=? blen pre) = false).
  { unfold flag. rewrite !blen_app, blen_single. pose proof (blen_nonneg post). destruct (Z.leb_spec (blen pre + (1 + blen post)) (blen pre)); [lia | done]. }
  rewrite Hlt. unfold bind at 1, ret at 1.
  apply (reads_last take_byte (fun b _ => ret (echo_nested.mk_response (echo_nested.output v) (negb (b =? 0))))
    _ (if echo_nested.accepted v then 1 else 0)); [| | done].
  - unfold flag. apply reads_byte. by destruct (echo_nested.accepted v).
  - apply reads_done. destruct v as [o []]; done.
Qed.

Lemma reads_feedback v :
  is_unsigned 32 (measure_sequence.progress v) -> nested_ok (measure_sequence.sample v) ->
  reads read_measure_sequence_feedback (write_measure_sequence_feedback v) v.
Proof.
  intros Hp Hv. unfold read_measure_sequence_feedback, write_measure_sequence_feedback. reads_step.
  { rewrite blen_app, blen_to_le. pose proof (blen_nonneg (write_nested_sample (measure_sequence.sample v))). lia. }
  reads_step. eapply reads_last; [by apply reads_nested_sample |]. cbv beta. apply reads_done. by destruct v.
Qed.

(** A reader of one constructor. *)
Lemma reads_as {A} (m : Read GeneratedValueError A) (c : A -> GeneratedMessage) s a :
  reads m s a -> reads (fun bs => v <~ m bs ;; ret (c v)) s (c a).
Proof. intros Hm. eapply reads_last; [exact Hm | apply reads_ret]. Qed.

Lemma host_value_reads m : message_ok m -> reads (read_host_value (type_name m)) (encode_host_value m) m.
Proof.
  intros Hm. destruct m as [v | v | v | [v] | v | [v] | [v] | v]; cbn [message_ok encode_host_value] in *;
    unfold read_host_value; cbn [type_name];
    repeat match goal with |- context [str_eqb ?a ?b] =>
      let e := eval vm_compute in (str_eqb a b) in change (str_eqb a b) with e; cbn iota end.
  - by apply (reads_as _ PrimitiveScalars), reads_primitive_scalars.
  - by apply (reads_as _ Collections), reads_collections.
  - by apply (reads_as _ NestedSample), reads_nested_sample.
  - by apply (reads_as _ (fun v => EchoNestedRequest (echo_nested.mk_request v))), reads_nested_sample.
  - by apply (reads_as _ EchoNestedResponse), reads_response.
  - by apply (reads_as _ (fun v => MeasureSequenceGoal (measure_sequence.mk_goal v))), reads_collections.
  - by apply (reads_as _ (fun v => MeasureSequenceResult (measure_sequence.mk_result v))), reads_nested_sample.
  - apply (reads_as _ MeasureSequenceFeedback), reads_feedback; apply Hm.
Qed.

End Messages.

(** ** Decoding any input *)

Section Decoding.
#[local] Set Default Proof Using "All".
Context `{Target}.
Context {bs : bytes} {Hinput : Input bs}.
#[local] Abbreviation decodes := (HostReader.decodes (E := GeneratedValueError) bs).
#[local] Abbreviation fits := (HostReader.fits (E := GeneratedValueError) bs).

Lemma decodes_u16 : decodes (is_unsigned 16) HostValue.read_u16.
Proof.
  apply (decodes_need _ 2 _ (take_le 2)); [by vm_compute |]. intros o Ho Hl. apply wp_take_le; [lia.. |].
  intros v Hv. split; [exact Hv | split; lia].
Qed.

Lemma decodes_u32 : decodes (is_unsigned 32) HostValue.read_u32.
Proof.
  apply (decodes_need _ 4 _ (take_le 4)); [by vm_compute |]. intros o Ho Hl. apply wp_take_le; [lia.. |].
  intros v Hv. split; [exact Hv | split; lia].
Qed.

Lemma decodes_u16_str : decodes text16 read_u16_str.
Proof.
  apply (decodes_bind (is_unsigned 16) text16); [apply decodes_u16 |]. intros len Hlen. unfold is_unsigned in Hlen.
  apply decodes_need; [unfold u32_max; lia |].
  intros o Ho Hl. apply wp_text; [lia.. | | done]. intros s Hs Hb. split; [split; [done | lia] | split; lia].
Qed.

Lemma decodes_scalars : decodes scalars_ok read_primitive_scalars.
Proof.
  unfold read_primitive_scalars. apply decodes_need; [by vm_compute |]. do 13 field_step.
  apply fits_end; [lia |]. do 2 (eapply decodes_bind; [apply decodes_u16_str |]; intros ? ?).
  apply decodes_ret. split; cbn; try done. apply as_signed_range. lia.
Qed.

Lemma fits_f64s n acc :
  Forall (is_unsigned 64) acc ->
  fits (8 * Z.of_nat n) (fun l => Forall (is_unsigned 64) l /\ length l = (length acc + n)%nat) (read_f64s n acc).
Proof.
  revert acc. induction n as [| n IH]; intros acc Ha o Ho Hl; cbn [read_f64s].
  - apply wp_ret. split; [split; [done | lia] | split; lia].
  - apply wp_bind, wp_take_le; [lia.. |]. intros v Hv.
    eapply wp_mono; [apply (IH (acc ++ [v])); [| lia | lia] | | done].
    + apply Forall_app. split; [done | by apply Forall_singleton].
    + intros l o' [[Hf Hlen] Hin]. rewrite length_app in Hlen. cbn in Hlen. split; [split; [done | lia] | done].
Qed.

Lemma fits_reserve {A} n (P : A -> Prop) (m : Read GeneratedValueError A) :
  0 <= n -> fits (8 * n) P m -> fits (n * 8) P (fun bs => reserve_f64 n ;;~ m bs).
Proof.
  intros Hn Hm o H1 H2. apply wp_bind. unfold reserve_f64. pose proof (proj2 (input_slice (bs := bs))).
  destruct (Z.leb_spec (n * 8) isize_max); [| lia]. apply wp_ret, Hm; lia.
Qed.

Lemma decodes_collections : decodes collections_ok read_collections.
Proof.
  unfold read_collections. apply decodes_need; [by vm_compute |]. do 3 field_step. apply fits_end; [lia |].
  eapply decodes_bind; [apply decodes_u32 |]. intros n Hn. unfold is_unsigned in Hn.
  rewrite Z.min_r by (pose proof (input_wide (bs := bs)) as Hwide; unfold wide in Hwide; rewrite Hwide; unfold u64_max; lia).
  apply decodes_need; [unfold u32_max; lia |]. apply fits_reserve; [lia |].
  eapply (fits_bind _ (fun l => Forall (is_unsigned 64) l /\ blen l = n) _ (read_f64s (Z.to_nat n) [])).
  { replace (8 * n) with (8 * Z.of_nat (Z.to_nat n)) by lia. intros o Ho Hl.
    eapply wp_mono; [apply (fits_f64s (Z.to_nat n) []); [constructor | done | done] | | done].
    intros l o' [[Hf Hlen] Hin]. split; [split; [done | unfold blen; cbn in Hlen; lia] | done]. }
  intros l [Hf Hl]. eapply decodes_bind; [apply decodes_u32 |]. intros k Hk. unfold is_unsigned in Hk.
  apply decodes_need; [unfold u32_max; lia |]. eapply fits_bind; [apply decodes_take; lia |]. intros s [Hs Hb].
  do 2 (eapply decodes_bind; [apply decodes_u16_str |]; intros ? ?).
  apply decodes_ret. split; cbn; try done; unfold u32_max; lia.
Qed.

Lemma decodes_nested : decodes nested_ok read_nested_sample.
Proof.
  unfold read_nested_sample. apply decodes_need; [by vm_compute |]. do 2 field_step. apply fits_end; [lia |].
  eapply decodes_bind; [apply decodes_scalars |]. intros ? ?. eapply decodes_bind; [apply decodes_collections |].
  intros ? ?. by apply decodes_ret.
Qed.

Lemma decodes_response : decodes (fun v => nested_ok (echo_nested.output v)) read_echo_nested_response.
Proof.
  unfold read_echo_nested_response. eapply decodes_bind; [apply decodes_nested |]. intros v Hv o [H1 H2].
  apply wp_bind, wp_gets, wp_bind. unfold id. destruct (Z.leb_spec (blen bs) o); [done |]. apply wp_ret.
  apply (fits_byte 1 _ (fun b _ => ret (echo_nested.mk_response v (negb (b =? 0))))); [lia | | lia | lia].
  intros b Hb. apply fits_end; [lia |]. by apply decodes_ret.
Qed.

Lemma decodes_feedback :
  decodes (fun v => is_unsigned 32 (measure_sequence.progress v) /\ nested_ok (measure_sequence.sample v))
    read_measure_sequence_feedback.
Proof.
  unfold read_measure_sequence_feedback. apply decodes_need; [by vm_compute |]. field_step. apply fits_end; [lia |].
  eapply decodes_bind; [apply decodes_nested |]. intros ? ?. by apply decodes_ret.
Qed.

Lemma decodes_as {A} (P : A -> Prop) (R : GeneratedMessage -> Prop) (m : Read GeneratedValueError A) (c : A -> GeneratedMessage) :
  decodes P m -> (forall a, P a -> R (c a)) -> decodes R (fun bs => v <~ m bs ;; ret (c v)).
Proof. intros Hm Hc. eapply decodes_bind; [exact Hm |]. intros a Ha. by apply decodes_ret, Hc. Qed.

Lemma decodes_host_value name : decodes (fun m => type_name m = name /\ message_ok m) (read_host_value name).
Proof.
  intros o Ho. unfold read_host_value, str_eqb. repeat case_bool_decide; subst.
  - by apply (decodes_as _ _ _ PrimitiveScalars decodes_scalars).
  - by apply (decodes_as _ _ _ Collections decodes_collections).
  - by apply (decodes_as _ _ _ NestedSample decodes_nested).
  - by apply (decodes_as _ _ _ (fun v => EchoNestedRequest (echo_nested.mk_request v)) decodes_nested).
  - by apply (decodes_as _ _ _ EchoNestedResponse decodes_response).
  - by apply (decodes_as _ _ _ (fun v => MeasureSequenceGoal (measure_sequence.mk_goal v)) decodes_collections).
  - by apply (decodes_as _ _ _ (fun v => MeasureSequenceResult (measure_sequence.mk_result v)) decodes_nested).
  - by apply (decodes_as _ _ _ MeasureSequenceFeedback decodes_feedback).
  - done.
Qed.

Lemma decode_host_value_typed name :
  match decode_host_value name bs with
  | Ok m => type_name m = name /\ message_ok m
  | Err _ => True
  | Panic => False
  end.
Proof.
  unfold decode_host_value. pose proof (decodes_host_value name 0) as Hd. unfold wp in Hd.
  destruct (read_host_value name bs 0) as [[m | |] o]; [| done | apply Hd; split; [lia | apply blen_nonneg]].
  destruct (negb _); [done |]. apply Hd. split; [lia | apply blen_nonneg].
Qed.

End Decoding.

(** ** The CDR codecs *)

Section CdrRoundTrip.
Context `{Target}.

(** The reader limits these types need; the default ones satisfy it. *)
Definition budget (l : CdrLimits) : Prop :=
  4 <= max_stream_bytes l /\ max_temporary_allocation l = 67108864 /\ max_nesting_depth l = 64.

Lemma bounded_by n : 0 <= n <= u32_max -> bound_u32 (Some n).
Proof. done. Qed.
#[local] Hint Resolve PointCloud.no_bound_u32 : cdr.
#[local] Hint Extern 1 (bound_u32 (Some _)) => by apply bounded_by : cdr.

Lemma text_budget s : text16 s -> 2 * blen s <= 67108864 /\ 4 * blen (chars s) <= 67108864.
Proof.
  intros [Hu Hl]. pose proof (utf8_encode_length (chars s)) as Hc. rewrite (utf8_valid_chars s Hu) in Hc.
  unfold blen in *. lia.
Qed.

(** A bounded sequence length needs no budget beyond its bound. *)
Lemma round_trip_bounded_length n b :
  is_unsigned 32 n -> round_trip (fun l => b <= max_stream_bytes l)
    (write_sequence_length n (Some b)) (read_sequence_length (Some b)) n.
Proof.
  intros Hn.
  apply (round_trip_field _ _ _ _ (fun w => bound_ok (Some b) n /\ n <= max_stream_bytes (wlimits w)) 4
    (fun w => to_stream w 4 n) (fun r => sequence_length_at r (Some b)));
    [lia | | intros; by apply read_sequence_length_spec | | |].
  - intros w Hw. by apply write_sequence_length_spec.
  - intros. apply bytes_ok_to_stream.
  - intros r a a' o o' [Ha _] [Ha' _]. by apply (uint_at_fun r 4).
  - intros w r o _ _ [Hok _] HL He -> H4 Hle Hsub. rewrite blen_to_stream in *. unfold bound_ok in Hok.
    split_and!; [| done | lia]. exists (to_stream w 4 n). split; [by split_and! |]. by rewrite of_stream_to_stream.
Qed.

Lemma round_trip_scalars v n :
  scalars_ok v ->
  round_trip budget (primitive_scalars.encode_primitive_scalars v n) (primitive_scalars.decode_primitive_scalars n) v.
Proof.
  intros []. pose proof (text_budget _ ok_string0) as [Hb1 _]. pose proof (text_budget _ ok_wstring0) as [_ Hb2].
  destruct ok_string0 as [Hu1 _], ok_wstring0 as [Hu2 _].
  destruct v as [bool byte char f32 f64 i8 u8 i16 u16 i32 u32 i64 u64 str wstr]. cbn in *.
  eapply round_trip_weaken; cycle 1.
  { unfold primitive_scalars.encode_primitive_scalars, primitive_scalars.decode_primitive_scalars.
    cbn [primitive_scalars.bool_value primitive_scalars.byte_value primitive_scalars.char_value
      primitive_scalars.float32_value primitive_scalars.float64_value primitive_scalars.int8_value
      primitive_scalars.uint8_value primitive_scalars.int16_value primitive_scalars.uint16_value
      primitive_scalars.int32_value primitive_scalars.uint32_value primitive_scalars.int64_value
      primitive_scalars.uint64_value primitive_scalars.string_value primitive_scalars.wstring_value].
    unfold write_f32, write_f64, read_f32, read_f64. rt.
    apply (round_trip_map _ _ _ (primitive_scalars.mk_scalars bool byte char f32 f64 i8 u8 i16 u16 i32 u32 i64 u64 str)).
    eauto with cdr. }
  intros l _ (? & Ht & Hd). simpl. split_and!; lia || done.
Qed.

Lemma round_trip_f64s l acc :
  Forall (is_unsigned 64) l ->
  round_trip budget (collections.write_f64s l) (collections.read_f64s (length l) acc) (acc ++ l).
Proof.
  intros Hl. revert acc. induction Hl as [| x l Hx Hl IH]; intros acc; cbn [length collections.write_f64s collections.read_f64s].
  { rewrite app_nil_r. apply round_trip_weaken with (fun _ => True); [done |]. apply round_trip_ret. }
  eapply round_trip_weaken; cycle 1.
  { eapply round_trip_bind; [by apply round_trip_u64 |]. cbv beta. specialize (IH (acc ++ [x])).
    rewrite <- app_assoc in IH. exact IH. }
  by intros l' _ Hb.
Qed.

Lemma round_trip_collections v n :
  collections_ok v ->
  round_trip budget (collections.encode_collections v n) (collections.decode_collections n) v.
Proof.
  intros []. pose proof (text_budget _ ok_bounded0) as [Hb1 _]. pose proof (text_budget _ ok_wbounded0) as [_ Hb2].
  destruct ok_bounded0 as [Hu1 _], ok_wbounded0 as [Hu2 _].
  destruct v as [[[a b] c] f64s bs str wstr]. cbn in *. destruct ok_fixed0 as (Ha & Hb & Hc).
  pose proof (blen_nonneg f64s). unfold u32_max in *.
  eapply round_trip_weaken; cycle 1.
  { unfold collections.encode_collections, collections.decode_collections.
    cbn [collections.fixed_i32 collections.bounded_f64 collections.bytes_value collections.bounded_string
      collections.bounded_wstring].
    rewrite as_unsigned_small by (unfold is_unsigned; lia). rt.
    eapply round_trip_bind; [apply round_trip_bounded_length; unfold is_unsigned; lia |]. cbv beta.
    replace (Z.to_nat (blen f64s)) with (length f64s) by (unfold blen; lia).
    eapply round_trip_bind; [by apply (round_trip_f64s f64s []) |]. cbv beta. rewrite app_nil_l. rt.
    apply (round_trip_map _ _ _ (collections.mk_collections (a, b, c) f64s bs str)). eauto with cdr. }
  intros l _ Hl. pose proof Hl as (H4 & Ht & Hd). simpl. split_and!; lia || done.
Qed.

Lemma round_trip_nested_sample v d :
  0 <= d <= 4 -> nested_ok v ->
  round_trip budget (nested_sample.encode_nested_sample v d) (nested_sample.decode_nested_sample d) v.
Proof.
  intros Hd []. destruct v as [[sec nanosec] scalars coll]. cbn in *.
  eapply round_trip_weaken; cycle 1.
  { unfold nested_sample.encode_nested_sample, nested_sample.decode_nested_sample, time.encode_time, time.decode_time.
    cbn [nested_sample.stamp nested_sample.scalars nested_sample.collections time.sec time.nanosec].
    eapply round_trip_nested; [unfold u32_max; lia |]. cbv beta.
    eapply (round_trip_bind _ _ (write_i32 sec ;;~ write_u32 nanosec)).
    { eapply round_trip_bind; [eauto with cdr |]. cbv beta. eapply (round_trip_map _ _ _ (time.mk_time sec)). eauto with cdr. }
    cbv beta. eapply round_trip_nested; [unfold u32_max; lia |]. cbv beta.
    eapply round_trip_bind; [by apply round_trip_scalars |]. cbv beta.
    eapply round_trip_nested; [unfold u32_max; lia |]. cbv beta.
    apply (round_trip_map _ _ _ (nested_sample.mk_nested (time.mk_time sec nanosec) scalars)).
    by apply round_trip_collections. }
  intros l _ Hl. pose proof Hl as (H4 & Ht & Hn). simpl. split_and!; lia || done.
Qed.

(** A buffer a fresh writer made is decoded back, whatever tail is allowed. *)
Lemma live_round_trip {A} (body : CdrNesting -> SM CdrReader CdrError.t A) put v bs :
  round_trip budget put (body nesting_root) v -> encode_top Little put = Ok bs -> decode_live bs body = Ok v.
Proof.
  intros Hrt. unfold encode_top, decode_live, open_default, new_default.
  destruct (new Little limits_defaults) as [w | |] eqn:Hnew; [| done..]. cbn [obind].
  destruct (put w) as [[[] | |] w'] eqn:Hput; [| done..]. intros [= <-].
  assert (HL : budget limits_defaults) by by split_and!.
  destruct (round_trip_buffer _ _ _ _ _ _ _ _ limits_defaults_ok HL Hrt Hnew Hput) as (r & Ho & Hrwf & Hg & Hb).
  unfold into_bytes. rewrite Ho. cbn [map_err obind]. rewrite Hg, <- Hb.
  assert (Hend : reader_wf (set_offset (blen (bytes_of r)) r)).
  { apply reader_wf_advance; [done |]. apply reader_wf_small in Hrwf. lia. }
  rewrite remaining_wf by done. cbn [set_offset bytes_of offset].
  replace (blen (bytes_of r) - blen (bytes_of r)) with 0 by lia. cbn [Z.eqb orb].
  rewrite zero_tail_at_end; [done | done | done |]. apply reader_wf_stream in Hrwf. simpl.
  pose proof (blen_nonneg (bytes_of r)). lia.
Qed.

Ltac nested_field :=
  eapply round_trip_nested; [unfold u32_max, nesting_root; lia |]; cbv beta.

Lemma generated_round_trip m bs :
  message_ok m -> encode_generated_cdr m = Ok bs -> decode_generated_cdr (type_name m) bs = Ok m.
Proof.
  intros Hm He. unfold decode_generated_cdr.
  destruct m as [v | v | v | [v] | [v acc] | [v] | [v] | [p v]]; cbn [type_name message_ok encode_generated_cdr] in *;
    repeat match goal with |- context [str_eqb ?a ?b] =>
      let e := eval vm_compute in (str_eqb a b) in change (str_eqb a b) with e; cbn iota end;
    (erewrite live_round_trip; [reflexivity | | exact He]); clear He.
  - by apply round_trip_scalars.
  - by apply round_trip_collections.
  - by apply round_trip_nested_sample; [unfold nesting_root; lia |].
  - eapply round_trip_weaken; cycle 1.
    { unfold echo_nested.write_request, echo_nested.read_request. nested_field.
      apply (round_trip_map _ _ _ echo_nested.mk_request). by apply round_trip_nested_sample. }
    intros l _ Hl. pose proof Hl as (? & ? & ?). simpl. split_and!; unfold nesting_root; lia || done.
  - eapply round_trip_weaken; cycle 1.
    { unfold echo_nested.write_response, echo_nested.read_response. cbn [echo_nested.output echo_nested.accepted].
      nested_field. eapply round_trip_bind; [by apply round_trip_nested_sample |]. cbv beta.
      apply (round_trip_map _ _ _ (echo_nested.mk_response v)). apply round_trip_bool. }
    intros l _ Hl. pose proof Hl as (? & ? & ?). simpl. split_and!; unfold nesting_root; lia || done.
  - eapply round_trip_weaken; cycle 1.
    { unfold measure_sequence.write_goal, measure_sequence.read_goal. nested_field.
      apply (round_trip_map _ _ _ measure_sequence.mk_goal). by apply round_trip_collections. }
    intros l _ Hl. pose proof Hl as (? & ? & ?). simpl. split_and!; unfold nesting_root; lia || done.
  - eapply round_trip_weaken; cycle 1.
    { unfold measure_sequence.write_result, measure_sequence.read_result. nested_field.
      apply (round_trip_map _ _ _ measure_sequence.mk_result). by apply round_trip_nested_sample. }
    intros l _ Hl. pose proof Hl as (? & ? & ?). simpl. split_and!; unfold nesting_root; lia || done.
  - destruct Hm as [Hp Hv]. eapply round_trip_weaken; cycle 1.
    { unfold measure_sequence.write_feedback, measure_sequence.read_feedback.
      cbn [measure_sequence.progress measure_sequence.sample]. unfold write_f32, read_f32. rt. nested_field.
      apply (round_trip_map _ _ _ (measure_sequence.mk_feedback p)). by apply round_trip_nested_sample. }
    intros l _ Hl. pose proof Hl as (? & ? & ?). simpl. split_and!; unfold nesting_root; lia || done.
Qed.

End CdrRoundTrip.

(** ** The theorems *)

Section Theorems.
Context `{Target}.

(** C37: the host layout round-trips: the decoder of the message's type reads
    back what the encoder wrote, for every well-typed message whose texts fit
    their 16-bit length (on 32- and 64-bit targets). *)
Theorem host_value_round_trip m :
  message_ok m -> blen (encode_host_value m) <= isize_max ->
  decode_host_value (type_name m) (encode_host_value m) = Ok m.
Proof.
  intros Hm Hl. unfold decode_host_value. pose proof (host_value_reads m Hm [] []) as Hr.
  rewrite app_nil_l, app_nil_r in Hr. change (blen (A := Z) []) with 0 in Hr. rewrite Hr by done.
  by rewrite Z.add_0_l, Z.eqb_refl.
Qed.

(** C38: on a 64-bit target the host decoder returns on every input, without a
    panic, and what it accepts is a well-typed message of the type asked for. *)
Theorem host_value_typed name bs :
  usize_max = u64_max -> rust_slice bs ->
  match decode_host_value name bs with
  | Ok m => type_name m = name /\ message_ok m
  | Err _ => True
  | Panic => False
  end.
Proof. intros Hw Hb. pose proof (Build_Input _ bs Hb Hw). by apply decode_host_value_typed. Qed.

(** What the engine sends for a host value is read back unchanged: a value
    it decodes and encodes as CDR is decoded from that CDR as the same message. *)
Theorem host_value_transcodes name bs m cdr :
  usize_max = u64_max -> rust_slice bs -> decode_host_value name bs = Ok m -> encode_generated_cdr m = Ok cdr ->
  decode_generated_cdr name cdr = Ok m.
Proof.
  intros Hw Hb Hd He. pose proof (decode_host_value_typed (Hinput := Build_Input _ bs Hb Hw) name) as Ht. rewrite Hd in Ht.
  destruct Ht as [<- Hm]. by apply generated_round_trip.
Qed.

End Theorems.

(** ** Concrete messages *)

(** The bit patterns of 1.5, 2.25, 1.0, 2.0 and 0.5. *)
Definition sample_scalars : primitive_scalars.PrimitiveScalars :=
  primitive_scalars.mk_scalars true 7 65 0x3FC00000 0x4002000000000000 (-3) 9 (-300) 400 (-50000) 60000 (-70000) 80000
    (lit "hello-scalars") (lit "wide").
Definition sample_collections : collections.Collections :=
  collections.mk_collections (1, 2, 3) [0x3FF0000000000000; 0x4000000000000000] [10; 20; 30] (lit "abc") (lit "xyz").
Definition sample_primitive_scalars : primitive_scalars.PrimitiveScalars := sample_scalars.
Definition sample_nested_sample : nested_sample.NestedSample :=
  nested_sample.mk_nested (time.mk_time 11 22) sample_scalars sample_collections.
Definition sample_echo_nested_request : echo_nested.EchoNestedRequest := echo_nested.mk_request sample_nested_sample.
Definition sample_echo_nested_response : echo_nested.EchoNestedResponse :=
  echo_nested.mk_response sample_nested_sample true.
Definition sample_measure_sequence_goal : measure_sequence.MeasureSequenceGoal :=
  measure_sequence.mk_goal sample_collections.
Definition sample_measure_sequence_result : measure_sequence.MeasureSequenceResult :=
  measure_sequence.mk_result sample_nested_sample.
Definition sample_measure_sequence_feedback : measure_sequence.MeasureSequenceFeedback :=
  measure_sequence.mk_feedback 0x3F000000 sample_nested_sample.

(** A length word near 2^32 wraps the offset check of a 32-bit [usize]: the
    decoder panics where a 64-bit one reports a truncated value. *)
Definition wrapping_value : bytes := zeros 12 ++ [255; 255; 255; 255].

Example host_value_wraps_on_wasm32 :
  decode_host_value (H := Wasm32) collections.TYPE_NAME wrapping_value = Panic /\
  decode_host_value (H := Native64) collections.TYPE_NAME wrapping_value = Err Truncated.
Proof. split; [by vm_compute |]. by vm_compute. Qed.

Lemma sample_nested_ok : nested_ok sample_nested_sample.
Proof.
  split; [by vm_compute | by vm_compute | |].
  - split; first [by vm_compute | split; by vm_compute].
  - split; [by vm_compute | | by vm_compute | | by vm_compute | by split; vm_compute | by split; vm_compute].
    + repeat (apply Forall_cons; split; [by vm_compute |]). apply Forall_nil_2.
    + by apply bytes_ok_check; vm_compute.
Qed.

Definition sample_message : GeneratedMessage := MeasureSequenceFeedback sample_measure_sequence_feedback.

Lemma sample_message_ok : message_ok sample_message.
Proof. split; [by vm_compute | exact sample_nested_ok]. Qed.

Lemma host_value_round_trip_witness :
  decode_host_value (H := Wasm32) (type_name sample_message) (encode_host_value sample_message) = Ok sample_message.
Proof. apply (host_value_round_trip (H := Wasm32) sample_message sample_message_ok). by vm_compute. Defined.

Lemma native_wide : usize_max (H := Native64) = u64_max.
Proof. done. Qed.

Lemma sample_host_slice : rust_slice (H := Native64) (encode_host_value sample_message).
Proof. split; [by apply bytes_ok_check; vm_compute | by vm_compute]. Qed.

Lemma host_value_typed_witness :
  match decode_host_value (H := Native64) (type_name sample_message) (encode_host_value sample_message) with
  | Ok m => type_name m = type_name sample_message /\ message_ok m
  | Err _ => True
  | Panic => False
  end.
Proof. exact (host_value_typed (H := Native64) (type_name sample_message) (encode_host_value sample_message) native_wide sample_host_slice). Defined.

Lemma host_value_transcodes_witness :
  exists cdr, encode_generated_cdr (H := Native64) sample_message = Ok cdr /\
    decode_generated_cdr (H := Native64) (type_name sample_message) cdr = Ok sample_message.
Proof.
  destruct (encode_generated_cdr (H := Native64) sample_message) as [cdr | |] eqn:He; [| by vm_compute in He | by vm_compute in He].
  exists cdr. split; [done |].
  apply (host_value_transcodes (H := Native64) (type_name sample_message) (encode_host_value sample_message) sample_message
    cdr native_wide sample_host_slice); [by vm_compute | exact He].
Defined.
