(* ===== verification/Registry.v ===== *)
(** * The schema registry

    [rclweb/src/types/{error,limits,key,registry}.rs]: schema faults, the
    validation of registry keys, the builder with its four tables, the frozen
    registry and its lookups, and the metadata of
    [rclweb/generated/metadata/] the crate embeds (the JSON reader is not
    modelled: its rows are the data below). *)

From stdpp Require Import gmap sorting.
From stdpp Require pretty.
From S2P Require Import Prelude Utf8 CdrCore.

(** ** Faults *)

Inductive SchemaErrorCode :=
| InvalidSchemaKey | SchemaUnavailable | SchemaConflict | SchemaBoundsExceeded | SchemaInputInvalid
| SchemaGenerationDrift.

#[export] Instance SchemaErrorCode_eq_dec : EqDecision SchemaErrorCode.
Proof. solve_decision. Defined.

Definition SchemaErrorCode_as_str (c : SchemaErrorCode) : bytes :=
  match c with
  | InvalidSchemaKey => lit "invalid_schema_key"
  | SchemaUnavailable => lit "schema_unavailable"
  | SchemaConflict => lit "schema_conflict"
  | SchemaBoundsExceeded => lit "schema_bounds_exceeded"
  | SchemaInputInvalid => lit "schema_input_invalid"
  | SchemaGenerationDrift => lit "schema_generation_drift"
  end.

Definition wire_error_code (c : SchemaErrorCode) : option Z :=
  match c with SchemaUnavailable => Some 10 | _ => None end.

Record SchemaError := mk_schema_error {
  se_code : SchemaErrorCode;
  se_field : option bytes;
  se_message : bytes;
  se_needed : option Z;
  se_remaining : option Z
}.

Definition SchemaError_new (code : SchemaErrorCode) (message : bytes) : SchemaError :=
  mk_schema_error code None message None None.
Definition with_field (field : string) (e : SchemaError) : SchemaError :=
  let 'mk_schema_error c _ m n r := e in mk_schema_error c (Some (lit field)) m n r.
Definition with_sizes (needed remaining : Z) (e : SchemaError) : SchemaError :=
  let 'mk_schema_error c f m _ _ := e in mk_schema_error c f m (Some needed) (Some remaining).
Definition invalid_schema_key (message : bytes) : SchemaError :=
  with_field "schema_key" (SchemaError_new InvalidSchemaKey message).
Definition schema_unavailable (message : bytes) : SchemaError := SchemaError_new SchemaUnavailable message.
Definition schema_conflict (message : bytes) : SchemaError := SchemaError_new SchemaConflict message.
Definition schema_bounds_exceeded (field : string) (needed remaining : Z) (message : bytes) : SchemaError :=
  with_sizes needed remaining (with_field field (SchemaError_new SchemaBoundsExceeded message)).
Definition schema_input_invalid (message : bytes) : SchemaError := SchemaError_new SchemaInputInvalid message.

(** [Display]: the code, the message and the field in parentheses. *)
Definition SchemaError_display (e : SchemaError) : bytes :=
  SchemaErrorCode_as_str (se_code e) ++ lit ": " ++ se_message e ++
  match se_field e with Some f => lit " (" ++ f ++ lit ")" | None => [] end.

(** ** Formatting and strings *)

(** [{n}]: decimal digits. *)
Definition decimal (n : Z) : bytes := lit (pretty.pretty (Z.to_N n)).

(** [{n:04x}] of a [u16]. *)
Definition hex_digit (d : Z) : Z := if d <? 10 then 48 + d else 87 + d.
Definition hex4 (n : Z) : bytes := map (fun k => hex_digit (n / 16 ^ k mod 16)) [3; 2; 1; 0].

(** [s.chars().count()]. *)
Definition chars_count (s : bytes) : Z := blen (chars s).

Definition text_is (a b : bytes) : bool := bool_decide (a = b).

Fixpoint has_prefix (s prefix : bytes) : bool :=
  match prefix, s with
  | [], _ => true
  | p :: prefix', c :: s' => (p =? c) && has_prefix s' prefix'
  | _ :: _, [] => false
  end.

(** ** Ceilings *)

Definition MAX_REGISTRY_ENTRIES : Z := 256.
Definition MAX_SOURCES_PER_BUNDLE : Z := 64.
Definition MAX_DEPENDENCY_EDGES : Z := 256.
Definition MAX_SOURCE_BYTES : Z := 1048576.
Definition MAX_BUNDLE_BYTES : Z := 1048576.
Definition MAX_SCHEME_CHARS : Z := 64.
Definition MAX_VALUE_CHARS : Z := 128.
Definition MAX_TYPE_NAME_CHARS : Z := 256.
Definition MAX_SUPPORT_ROW_ID_CHARS : Z := 16.
Definition ENCODING_CDR1 : Z := 1.
Definition PHASE1_SCHEMA_GENERATION : Z := 1.

(** ** Keys *)

Definition SCHEME_RCLWEB_SCHEMA_V1 : bytes := lit "rclweb-schema-v1".
Definition SCHEME_REP2011_RIHS : bytes := lit "rep2011-rihs".

Record SchemaKey := mk_key {
  sk_scheme : bytes; sk_value : bytes; sk_type_name : bytes; sk_encoding : Z; sk_schema_generation : Z
}.

#[export] Instance SchemaKey_eq_dec : EqDecision SchemaKey.
Proof. solve_decision. Defined.

Definition is_lowercase_hex (s : bytes) : bool :=
  negb (blen s =? 0) && forallb (fun b => ((48 <=? b) && (b <=? 57)) || ((97 <=? b) && (b <=? 102))) s.

Abbreviation V := (outcome SchemaError).

(** [format!("{what} length {n} outside 1..={max}")] with its field. *)
Definition length_fault (what : string) (n max : Z) : SchemaError :=
  with_field what (invalid_schema_key (lit what ++ lit " length " ++ decimal n ++ lit " outside 1..=" ++ decimal max)).

Definition check_length (what : string) (s : bytes) (max : Z) : V unit :=
  let n := chars_count s in
  if (blen s =? 0) || (max <? n) then Err (length_fault what n max) else Ok tt.

Definition validate_scheme_value (scheme value : bytes) : V unit :=
  check_length "scheme" scheme MAX_SCHEME_CHARS ;;?
  check_length "value" value MAX_VALUE_CHARS ;;?
  if text_is scheme SCHEME_RCLWEB_SCHEMA_V1 then
    if negb (blen value =? 64) || negb (is_lowercase_hex value) then
      Err (with_field "value" (invalid_schema_key (lit "rclweb-schema-v1 value must be exactly 64 lowercase hex characters")))
    else Ok tt
  else if text_is scheme SCHEME_REP2011_RIHS then
    if negb (has_prefix value (lit "RIHS01_")) || negb (blen value =? 71) || negb (is_lowercase_hex (drop 7 value)) then
      Err (with_field "value"
        (invalid_schema_key (lit "rep2011-rihs value must be RIHS01_ plus 64 lowercase hex characters")))
    else Ok tt
  else Err (with_field "scheme" (invalid_schema_key (lit "unsupported scheme `" ++ scheme ++ lit "`"))).

Definition SchemaKey_validate (key : SchemaKey) : V unit :=
  validate_scheme_value (sk_scheme key) (sk_value key) ;;?
  check_length "type_name" (sk_type_name key) MAX_TYPE_NAME_CHARS ;;?
  if negb (sk_encoding key =? ENCODING_CDR1) then
    Err (with_field "encoding"
      (invalid_schema_key (lit "encoding " ++ decimal (sk_encoding key) ++ lit " is not Phase 1 CDR1 (" ++
         decimal ENCODING_CDR1 ++ lit ")")))
  else if negb (sk_schema_generation key =? PHASE1_SCHEMA_GENERATION) then
    Err (with_field "schema_generation"
      (invalid_schema_key (lit "schema_generation " ++ decimal (sk_schema_generation key) ++
         lit " is not Phase 1 value " ++ decimal PHASE1_SCHEMA_GENERATION)))
  else Ok tt.

Definition SchemaKey_new (scheme value type_name : bytes) (encoding schema_generation : Z) : V SchemaKey :=
  let key := mk_key scheme value type_name encoding schema_generation in
  SchemaKey_validate key ;;?
  Ok key.

(** ** Representations *)

Inductive CdrRepresentation := Be | Le.

Definition as_u16 (r : CdrRepresentation) : Z :=
  match r with Be => REPRESENTATION_CDR_BE | Le => REPRESENTATION_CDR_LE end.

Definition from_u16 (value : Z) : V CdrRepresentation :=
  if value =? REPRESENTATION_CDR_LE then Ok Le
  else if value =? REPRESENTATION_CDR_BE then Ok Be
  else Err (with_field "cdr_representation" (invalid_schema_key (lit "unknown cdr_representation 0x" ++ hex4 value))).

(** ** The builder *)

Record LookupResult := mk_lookup { lr_type_name : bytes; lr_descriptor_id : bytes; lr_zero_tail_bytes : Z }.

Record DescriptorRow := mk_descriptor { dr_descriptor_id : bytes; dr_type_name : bytes }.
Record IdentityRow := mk_identity { ir_key : SchemaKey; ir_descriptor_id : bytes }.
Record WireProfileRow := mk_profile {
  wr_type_name : bytes; wr_support_row_id : bytes; wr_cdr_representation : CdrRepresentation; wr_zero_tail_bytes : Z
}.
Record ProvenanceRow := mk_provenance { pr_rihs : bytes; pr_bundle_sha256 : bytes; pr_type_name : bytes }.

Record SchemaRegistryBuilder := mk_builder {
  b_descriptors : gmap bytes DescriptorRow;
  b_identities : gmap (bytes * bytes) IdentityRow;
  b_wire_profiles : gmap (bytes * bytes * Z) WireProfileRow;
  b_provenance : gmap bytes ProvenanceRow
}.

Definition builder_new : SchemaRegistryBuilder := mk_builder ∅ ∅ ∅ ∅.

Definition map_len {K A} `{Countable K} (m : gmap K A) : Z := Z.of_nat (size m).

Definition validate_type_name_len (type_name : bytes) : V unit :=
  check_length "type_name" type_name MAX_TYPE_NAME_CHARS.
Definition validate_support_row_id (support_row_id : bytes) : V unit :=
  check_length "support_row_id" support_row_id MAX_SUPPORT_ROW_ID_CHARS.

Definition register_descriptor (b : SchemaRegistryBuilder) (descriptor_id type_name : bytes) : V SchemaRegistryBuilder :=
  validate_type_name_len type_name ;;?
  if blen descriptor_id =? 0 then Err (schema_input_invalid (lit "descriptor_id must be non-empty"))
  else
    match b_descriptors b !! descriptor_id with
    | Some existing =>
        if negb (text_is (dr_type_name existing) type_name) then
          Err (schema_conflict (lit "descriptor `" ++ descriptor_id ++ lit "` already maps to `" ++
                 dr_type_name existing ++ lit "`"))
        else Ok b
    | None =>
        if MAX_REGISTRY_ENTRIES <=? map_len (b_descriptors b) then
          Err (schema_bounds_exceeded "max_registry_entries" (map_len (b_descriptors b) + 1) MAX_REGISTRY_ENTRIES
                 (lit "descriptor registration would exceed max_registry_entries"))
        else
          Ok (mk_builder (<[descriptor_id := mk_descriptor descriptor_id type_name]> (b_descriptors b))
                (b_identities b) (b_wire_profiles b) (b_provenance b))
    end.

Definition register_identity (b : SchemaRegistryBuilder) (key : SchemaKey) (descriptor_id : bytes)
    : V SchemaRegistryBuilder :=
  SchemaKey_validate key ;;?
  match b_descriptors b !! descriptor_id with
  | None => Err (schema_unavailable (lit "descriptor `" ++ descriptor_id ++ lit "` is not registered"))
  | Some _ =>
      let map_key := (sk_scheme key, sk_value key) in
      match b_identities b !! map_key with
      | Some existing =>
          if negb (text_is (ir_descriptor_id existing) descriptor_id) || negb (bool_decide (ir_key existing = key)) then
            Err (schema_conflict (lit "identity " ++ sk_scheme key ++ lit ":" ++ sk_value key ++
                   lit " already registered with conflicting material"))
          else Ok b
      | None =>
          if MAX_REGISTRY_ENTRIES <=? map_len (b_identities b) then
            Err (schema_bounds_exceeded "max_registry_entries" (map_len (b_identities b) + 1) MAX_REGISTRY_ENTRIES
                   (lit "identity registration would exceed max_registry_entries"))
          else
            Ok (mk_builder (b_descriptors b) (<[map_key := mk_identity key descriptor_id]> (b_identities b))
                  (b_wire_profiles b) (b_provenance b))
      end
  end.

Definition register_wire_profile (b : SchemaRegistryBuilder) (type_name support_row_id : bytes)
    (representation : CdrRepresentation) (zero_tail_bytes : Z) : V SchemaRegistryBuilder :=
  validate_type_name_len type_name ;;?
  validate_support_row_id support_row_id ;;?
  let map_key := (type_name, support_row_id, as_u16 representation) in
  match b_wire_profiles b !! map_key with
  | Some existing =>
      if negb (wr_zero_tail_bytes existing =? zero_tail_bytes) then
        Err (schema_conflict (lit "wire profile for `" ++ type_name ++ lit "` already has zero_tail " ++
               decimal (wr_zero_tail_bytes existing)))
      else Ok b
  | None =>
      Ok (mk_builder (b_descriptors b) (b_identities b)
            (<[map_key := mk_profile type_name support_row_id representation zero_tail_bytes]> (b_wire_profiles b))
            (b_provenance b))
  end.

Definition register_provenance (b : SchemaRegistryBuilder) (rihs bundle_sha256 type_name : bytes)
    : V SchemaRegistryBuilder :=
  validate_scheme_value SCHEME_REP2011_RIHS rihs ;;?
  validate_scheme_value SCHEME_RCLWEB_SCHEMA_V1 bundle_sha256 ;;?
  validate_type_name_len type_name ;;?
  match b_provenance b !! rihs with
  | Some existing =>
      if negb (text_is (pr_bundle_sha256 existing) bundle_sha256) || negb (text_is (pr_type_name existing) type_name) then
        Err (schema_conflict (lit "provenance for `" ++ rihs ++ lit "` already maps to conflicting material"))
      else Ok b
  | None =>
      Ok (mk_builder (b_descriptors b) (b_identities b) (b_wire_profiles b)
            (<[rihs := mk_provenance rihs bundle_sha256 type_name]> (b_provenance b)))
  end.

(** ** The frozen registry *)

(** Its fields are the builder's. *)
Record SchemaRegistry := mk_registry {
  r_descriptors : gmap bytes DescriptorRow;
  r_identities : gmap (bytes * bytes) IdentityRow;
  r_wire_profiles : gmap (bytes * bytes * Z) WireProfileRow;
  r_provenance : gmap bytes ProvenanceRow
}.

Definition freeze (b : SchemaRegistryBuilder) : V SchemaRegistry :=
  if map_len (b_descriptors b) =? 0 then Err (schema_input_invalid (lit "cannot freeze an empty descriptor set"))
  else Ok (mk_registry (b_descriptors b) (b_identities b) (b_wire_profiles b) (b_provenance b)).

Definition identity_count (r : SchemaRegistry) : Z := map_len (r_identities r).
Definition descriptor_count (r : SchemaRegistry) : Z := map_len (r_descriptors r).

Definition lookup (r : SchemaRegistry) (key : SchemaKey) (support_row_id : bytes) (representation : CdrRepresentation)
    : V LookupResult :=
  SchemaKey_validate key ;;?
  validate_support_row_id support_row_id ;;?
  identity <-- ok_or (r_identities r !! (sk_scheme key, sk_value key))
    (schema_unavailable (lit "no identity for " ++ sk_scheme key ++ lit ":" ++ sk_value key)) ;;
  if negb (text_is (sk_type_name (ir_key identity)) (sk_type_name key)) ||
     negb (sk_encoding (ir_key identity) =? sk_encoding key) ||
     negb (sk_schema_generation (ir_key identity) =? sk_schema_generation key) then
    Err (schema_unavailable (lit "SchemaKey fields do not match registered identity material"))
  else
    descriptor <-- ok_or (r_descriptors r !! ir_descriptor_id identity)
      (schema_unavailable (lit "descriptor `" ++ ir_descriptor_id identity ++ lit "` missing")) ;;
    if negb (text_is (dr_type_name descriptor) (sk_type_name key)) then
      Err (schema_unavailable (lit "descriptor type_name does not match SchemaKey"))
    else
      profile <-- ok_or (r_wire_profiles r !! (sk_type_name key, support_row_id, as_u16 representation))
        (schema_unavailable (lit "no wire profile for " ++ sk_type_name key ++ lit " / " ++ support_row_id ++ lit " / 0x" ++
           hex4 (as_u16 representation))) ;;
      Ok (mk_lookup (dr_type_name descriptor) (dr_descriptor_id descriptor) (wr_zero_tail_bytes profile)).

(** The order of a [BTreeMap] on pairs of strings. *)
Fixpoint bytes_leb (a b : bytes) : bool :=
  match a, b with
  | [], _ => true
  | _ :: _, [] => false
  | x :: a', y :: b' => (x <? y) || ((x =? y) && bytes_leb a' b')
  end.
Definition key_leb (p q : bytes * bytes) : bool :=
  if text_is p.1 q.1 then bytes_leb p.2 q.2 else bytes_leb p.1 q.1.
Fixpoint insert_ordered {A} (x : bytes * bytes * A) (l : list (bytes * bytes * A)) : list (bytes * bytes * A) :=
  match l with
  | [] => [x]
  | y :: l' => if key_leb x.1 y.1 then x :: l else y :: insert_ordered x l'
  end.
Definition values_in_order {A} (m : gmap (bytes * bytes) A) : list A :=
  map snd (foldr insert_ordered [] (map_to_list m)).

Definition identity_value_for_type (r : SchemaRegistry) (type_name scheme : bytes) : V bytes :=
  validate_type_name_len type_name ;;?
  match List.find (fun row => text_is (sk_type_name (ir_key row)) type_name && text_is (sk_scheme (ir_key row)) scheme)
          (values_in_order (r_identities r)) with
  | Some row => Ok (sk_value (ir_key row))
  | None => Err (schema_unavailable (lit "no " ++ scheme ++ lit " identity for `" ++ type_name ++ lit "`"))
  end.

Definition is_phase1_root (r : SchemaRegistry) (type_name : bytes) : bool :=
  existsb (fun d => text_is (dr_type_name d) type_name) (map snd (map_to_list (r_descriptors r))).

Definition provenance_for_rihs (r : SchemaRegistry) (rihs : bytes) : option (bytes * bytes) :=
  match r_provenance r !! rihs with
  | Some p => Some (pr_bundle_sha256 p, pr_type_name p)
  | None => None
  end.

(** ** The embedded metadata *)

Record DescriptorJson := mk_descriptor_json { dj_descriptor_id : bytes; dj_type_name : bytes }.
Record IdentityJson := mk_identity_json {
  ij_scheme : bytes; ij_value : bytes; ij_type_name : bytes; ij_encoding : Z; ij_schema_generation : Z;
  ij_descriptor_id : bytes
}.
Inductive CdrRepresentationJson := Name (s : bytes) | Number (n : Z).
Record WireProfileJson := mk_wire_profile_json {
  wj_type_name : bytes; wj_support_row_id : bytes; wj_cdr_representation : CdrRepresentationJson; wj_zero_tail_bytes : Z
}.
Record ProvenanceJson := mk_provenance_json { pj_rihs : bytes; pj_bundle_sha256 : bytes; pj_type_name : bytes }.

Definition into_rep (r : CdrRepresentationJson) : V CdrRepresentation :=
  match r with
  | Name s =>
      if text_is s (lit "CDR_LE") then Ok Le
      else if text_is s (lit "CDR_BE") then Ok Be
      else Err (with_field "cdr_representation" (invalid_schema_key (lit "unknown cdr_representation `" ++ s ++ lit "`")))
  | Number n => from_u16 n
  end.

Definition DESCRIPTORS_JSON : list DescriptorJson := [
  mk_descriptor_json (lit "rclweb_cdr_interfaces/action/MeasureSequence_Feedback") (lit "rclweb_cdr_interfaces/action/MeasureSequence_Feedback");
  mk_descriptor_json (lit "rclweb_cdr_interfaces/action/MeasureSequence_Goal") (lit "rclweb_cdr_interfaces/action/MeasureSequence_Goal");
  mk_descriptor_json (lit "rclweb_cdr_interfaces/action/MeasureSequence_Result") (lit "rclweb_cdr_interfaces/action/MeasureSequence_Result");
  mk_descriptor_json (lit "rclweb_cdr_interfaces/msg/Collections") (lit "rclweb_cdr_interfaces/msg/Collections");
  mk_descriptor_json (lit "rclweb_cdr_interfaces/msg/NestedSample") (lit "rclweb_cdr_interfaces/msg/NestedSample");
  mk_descriptor_json (lit "rclweb_cdr_interfaces/msg/PrimitiveScalars") (lit "rclweb_cdr_interfaces/msg/PrimitiveScalars");
  mk_descriptor_json (lit "rclweb_cdr_interfaces/srv/EchoNested_Request") (lit "rclweb_cdr_interfaces/srv/EchoNested_Request");
  mk_descriptor_json (lit "rclweb_cdr_interfaces/srv/EchoNested_Response") (lit "rclweb_cdr_interfaces/srv/EchoNested_Response");
  mk_descriptor_json (lit "sensor_msgs/msg/PointCloud2") (lit "sensor_msgs/msg/PointCloud2")].

Definition IDENTITIES_JSON : list IdentityJson := [
  mk_identity_json (lit "rclweb-schema-v1")
    (lit "d2081aa35743fabf07c7c10c91bd2aa3b9a359028c7ac4c5a15a3ec9bf7ff969")
    (lit "rclweb_cdr_interfaces/action/MeasureSequence_Feedback") 1 1
    (lit "rclweb_cdr_interfaces/action/MeasureSequence_Feedback");
  mk_identity_json (lit "rep2011-rihs")
    (lit "RIHS01_0a9d749108b3db136f0bf90cbfe4c797c4580beea8b49329e5016e18b7ddde32")
    (lit "rclweb_cdr_interfaces/action/MeasureSequence_Feedback") 1 1
    (lit "rclweb_cdr_interfaces/action/MeasureSequence_Feedback");
  mk_identity_json (lit "rclweb-schema-v1")
    (lit "82cf112e24d661548cb2f22fbef5e12e46abecbc08aa8ccdd7b97b59af7b3410")
    (lit "rclweb_cdr_interfaces/action/MeasureSequence_Goal") 1 1
    (lit "rclweb_cdr_interfaces/action/MeasureSequence_Goal");
  mk_identity_json (lit "rep2011-rihs")
    (lit "RIHS01_0b448dd8d3c307b4432e83757dcb7c866ca5a4b1dc5251c353c1bc357718831f")
    (lit "rclweb_cdr_interfaces/action/MeasureSequence_Goal") 1 1
    (lit "rclweb_cdr_interfaces/action/MeasureSequence_Goal");
  mk_identity_json (lit "rclweb-schema-v1")
    (lit "73f8dc76a92d7776c7ca3c422da79d98fc62d0a36ff17714e809b14affdcf89c")
    (lit "rclweb_cdr_interfaces/action/MeasureSequence_Result") 1 1
    (lit "rclweb_cdr_interfaces/action/MeasureSequence_Result");
  mk_identity_json (lit "rep2011-rihs")
    (lit "RIHS01_4aeb18ab839da6cb72cb3d6689ed8900cf2a333bc652691bffa0186ba0267a44")
    (lit "rclweb_cdr_interfaces/action/MeasureSequence_Result") 1 1
    (lit "rclweb_cdr_interfaces/action/MeasureSequence_Result");
  mk_identity_json (lit "rclweb-schema-v1")
    (lit "413d09e0d961f4d727a2345316d615bdc67df3f7d4aaaf458682b38deab1e5e5")
    (lit "rclweb_cdr_interfaces/msg/Collections") 1 1
    (lit "rclweb_cdr_interfaces/msg/Collections");
  mk_identity_json (lit "rep2011-rihs")
    (lit "RIHS01_e6bf92925264144744c345f1cb13fba0c4189c02a5b8afdf68326a084ea768e3")
    (lit "rclweb_cdr_interfaces/msg/Collections") 1 1
    (lit "rclweb_cdr_interfaces/msg/Collections");
  mk_identity_json (lit "rclweb-schema-v1")
    (lit "c72c1f0832821c4893e78a6de5513e8ec0b49a690232ef168610ad758f16b83f")
    (lit "rclweb_cdr_interfaces/msg/NestedSample") 1 1
    (lit "rclweb_cdr_interfaces/msg/NestedSample");
  mk_identity_json (lit "rep2011-rihs")
    (lit "RIHS01_4ea14613956492167209ed78febea89be53fdb174082c1d59fd4f73ecd2136e8")
    (lit "rclweb_cdr_interfaces/msg/NestedSample") 1 1
    (lit "rclweb_cdr_interfaces/msg/NestedSample");
  mk_identity_json (lit "rclweb-schema-v1")
    (lit "d5d0a3d49f52d81a21b93f6d49e9f64f37de0057ef387189740d6510e9048280")
    (lit "rclweb_cdr_interfaces/msg/PrimitiveScalars") 1 1
    (lit "rclweb_cdr_interfaces/msg/PrimitiveScalars");
  mk_identity_json (lit "rep2011-rihs")
    (lit "RIHS01_db44c373c05fc055970958730d7cb835f816b091b68bfdf93d6ed50086092cea")
    (lit "rclweb_cdr_interfaces/msg/PrimitiveScalars") 1 1
    (lit "rclweb_cdr_interfaces/msg/PrimitiveScalars");
  mk_identity_json (lit "rclweb-schema-v1")
    (lit "076a7cc7e74f71868d8ac29377d352e27fe4467f9902c02c576a7b7139b33e4c")
    (lit "rclweb_cdr_interfaces/srv/EchoNested_Request") 1 1
    (lit "rclweb_cdr_interfaces/srv/EchoNested_Request");
  mk_identity_json (lit "rep2011-rihs")
    (lit "RIHS01_b9b2265bac2539a16b26ce2672ce68536db8c069948757b9b8647e843af5a06a")
    (lit "rclweb_cdr_interfaces/srv/EchoNested_Request") 1 1
    (lit "rclweb_cdr_interfaces/srv/EchoNested_Request");
  mk_identity_json (lit "rclweb-schema-v1")
    (lit "68fe0af8467e4494f73a4ed317f365ead279ca9eb58abd75fe6c817806d9f69d")
    (lit "rclweb_cdr_interfaces/srv/EchoNested_Response") 1 1
    (lit "rclweb_cdr_interfaces/srv/EchoNested_Response");
  mk_identity_json (lit "rep2011-rihs")
    (lit "RIHS01_5018c51e449db53278796f65adaa2dcf36ed821fcc55f938693e824716738352")
    (lit "rclweb_cdr_interfaces/srv/EchoNested_Response") 1 1
    (lit "rclweb_cdr_interfaces/srv/EchoNested_Response");
  mk_identity_json (lit "rclweb-schema-v1")
    (lit "5cac773adf5161dbc3be02a8a3eac96ed3fcba58253b5504d58fba2175b47efb")
    (lit "sensor_msgs/msg/PointCloud2") 1 1
    (lit "sensor_msgs/msg/PointCloud2");
  mk_identity_json (lit "rep2011-rihs")
    (lit "RIHS01_9198cabf7da3796ae6fe19c4cb3bdd3525492988c70522628af5daa124bae2b5")
    (lit "sensor_msgs/msg/PointCloud2") 1 1
    (lit "sensor_msgs/msg/PointCloud2")].

Definition WIRE_PROFILES_JSON : list WireProfileJson := [
  mk_wire_profile_json (lit "rclweb_cdr_interfaces/action/MeasureSequence_Feedback") (lit "H-CY") (Name (lit "CDR_LE")) 0;
  mk_wire_profile_json (lit "rclweb_cdr_interfaces/action/MeasureSequence_Feedback") (lit "H-FT") (Name (lit "CDR_LE")) 12;
  mk_wire_profile_json (lit "rclweb_cdr_interfaces/action/MeasureSequence_Feedback") (lit "H-ZN") (Name (lit "CDR_LE")) 12;
  mk_wire_profile_json (lit "rclweb_cdr_interfaces/action/MeasureSequence_Feedback") (lit "J-CY") (Name (lit "CDR_LE")) 0;
  mk_wire_profile_json (lit "rclweb_cdr_interfaces/action/MeasureSequence_Feedback") (lit "J-FT") (Name (lit "CDR_LE")) 12;
  mk_wire_profile_json (lit "rclweb_cdr_interfaces/action/MeasureSequence_Feedback") (lit "J-ZN") (Name (lit "CDR_LE")) 12;
  mk_wire_profile_json (lit "rclweb_cdr_interfaces/action/MeasureSequence_Goal") (lit "H-CY") (Name (lit "CDR_LE")) 0;
  mk_wire_profile_json (lit "rclweb_cdr_interfaces/action/MeasureSequence_Goal") (lit "H-FT") (Name (lit "CDR_LE")) 4;
  mk_wire_profile_json (lit "rclweb_cdr_interfaces/action/MeasureSequence_Goal") (lit "H-ZN") (Name (lit "CDR_LE")) 4;
  mk_wire_profile_json (lit "rclweb_cdr_interfaces/action/MeasureSequence_Goal") (lit "J-CY") (Name (lit "CDR_LE")) 0;
  mk_wire_profile_json (lit "rclweb_cdr_interfaces/action/MeasureSequence_Goal") (lit "J-FT") (Name (lit "CDR_LE")) 4;
  mk_wire_profile_json (lit "rclweb_cdr_interfaces/action/MeasureSequence_Goal") (lit "J-ZN") (Name (lit "CDR_LE")) 4;
  mk_wire_profile_json (lit "rclweb_cdr_interfaces/action/MeasureSequence_Result") (lit "H-CY") (Name (lit "CDR_LE")) 0;
  mk_wire_profile_json (lit "rclweb_cdr_interfaces/action/MeasureSequence_Result") (lit "H-FT") (Name (lit "CDR_LE")) 12;
  mk_wire_profile_json (lit "rclweb_cdr_interfaces/action/MeasureSequence_Result") (lit "H-ZN") (Name (lit "CDR_LE")) 12;
  mk_wire_profile_json (lit "rclweb_cdr_interfaces/action/MeasureSequence_Result") (lit "J-CY") (Name (lit "CDR_LE")) 0;
  mk_wire_profile_json (lit "rclweb_cdr_interfaces/action/MeasureSequence_Result") (lit "J-FT") (Name (lit "CDR_LE")) 12;
  mk_wire_profile_json (lit "rclweb_cdr_interfaces/action/MeasureSequence_Result") (lit "J-ZN") (Name (lit "CDR_LE")) 12;
  mk_wire_profile_json (lit "rclweb_cdr_interfaces/msg/Collections") (lit "H-CY") (Name (lit "CDR_LE")) 0;
  mk_wire_profile_json (lit "rclweb_cdr_interfaces/msg/Collections") (lit "H-FT") (Name (lit "CDR_LE")) 4;
  mk_wire_profile_json (lit "rclweb_cdr_interfaces/msg/Collections") (lit "H-ZN") (Name (lit "CDR_LE")) 4;
  mk_wire_profile_json (lit "rclweb_cdr_interfaces/msg/Collections") (lit "J-CY") (Name (lit "CDR_LE")) 0;
  mk_wire_profile_json (lit "rclweb_cdr_interfaces/msg/Collections") (lit "J-FT") (Name (lit "CDR_LE")) 4;
  mk_wire_profile_json (lit "rclweb_cdr_interfaces/msg/Collections") (lit "J-ZN") (Name (lit "CDR_LE")) 4;
  mk_wire_profile_json (lit "rclweb_cdr_interfaces/msg/NestedSample") (lit "H-CY") (Name (lit "CDR_LE")) 0;
  mk_wire_profile_json (lit "rclweb_cdr_interfaces/msg/NestedSample") (lit "H-FT") (Name (lit "CDR_LE")) 12;
  mk_wire_profile_json (lit "rclweb_cdr_interfaces/msg/NestedSample") (lit "H-ZN") (Name (lit "CDR_LE")) 12;
  mk_wire_profile_json (lit "rclweb_cdr_interfaces/msg/NestedSample") (lit "J-CY") (Name (lit "CDR_LE")) 0;
  mk_wire_profile_json (lit "rclweb_cdr_interfaces/msg/NestedSample") (lit "J-FT") (Name (lit "CDR_LE")) 12;
  mk_wire_profile_json (lit "rclweb_cdr_interfaces/msg/NestedSample") (lit "J-ZN") (Name (lit "CDR_LE")) 12;
  mk_wire_profile_json (lit "rclweb_cdr_interfaces/msg/PrimitiveScalars") (lit "H-CY") (Name (lit "CDR_LE")) 0;
  mk_wire_profile_json (lit "rclweb_cdr_interfaces/msg/PrimitiveScalars") (lit "H-FT") (Name (lit "CDR_BE")) 0;
  mk_wire_profile_json (lit "rclweb_cdr_interfaces/msg/PrimitiveScalars") (lit "H-FT") (Name (lit "CDR_LE")) 4;
  mk_wire_profile_json (lit "rclweb_cdr_interfaces/msg/PrimitiveScalars") (lit "H-ZN") (Name (lit "CDR_LE")) 4;
  mk_wire_profile_json (lit "rclweb_cdr_interfaces/msg/PrimitiveScalars") (lit "J-CY") (Name (lit "CDR_LE")) 0;
  mk_wire_profile_json (lit "rclweb_cdr_interfaces/msg/PrimitiveScalars") (lit "J-FT") (Name (lit "CDR_BE")) 0;
  mk_wire_profile_json (lit "rclweb_cdr_interfaces/msg/PrimitiveScalars") (lit "J-FT") (Name (lit "CDR_LE")) 4;
  mk_wire_profile_json (lit "rclweb_cdr_interfaces/msg/PrimitiveScalars") (lit "J-ZN") (Name (lit "CDR_LE")) 4;
  mk_wire_profile_json (lit "rclweb_cdr_interfaces/srv/EchoNested_Request") (lit "H-CY") (Name (lit "CDR_LE")) 0;
  mk_wire_profile_json (lit "rclweb_cdr_interfaces/srv/EchoNested_Request") (lit "H-FT") (Name (lit "CDR_LE")) 12;
  mk_wire_profile_json (lit "rclweb_cdr_interfaces/srv/EchoNested_Request") (lit "H-ZN") (Name (lit "CDR_LE")) 12;
  mk_wire_profile_json (lit "rclweb_cdr_interfaces/srv/EchoNested_Request") (lit "J-CY") (Name (lit "CDR_LE")) 0;
  mk_wire_profile_json (lit "rclweb_cdr_interfaces/srv/EchoNested_Request") (lit "J-FT") (Name (lit "CDR_LE")) 12;
  mk_wire_profile_json (lit "rclweb_cdr_interfaces/srv/EchoNested_Request") (lit "J-ZN") (Name (lit "CDR_LE")) 12;
  mk_wire_profile_json (lit "rclweb_cdr_interfaces/srv/EchoNested_Response") (lit "H-CY") (Name (lit "CDR_LE")) 0;
  mk_wire_profile_json (lit "rclweb_cdr_interfaces/srv/EchoNested_Response") (lit "H-FT") (Name (lit "CDR_LE")) 12;
  mk_wire_profile_json (lit "rclweb_cdr_interfaces/srv/EchoNested_Response") (lit "H-ZN") (Name (lit "CDR_LE")) 12;
  mk_wire_profile_json (lit "rclweb_cdr_interfaces/srv/EchoNested_Response") (lit "J-CY") (Name (lit "CDR_LE")) 0;
  mk_wire_profile_json (lit "rclweb_cdr_interfaces/srv/EchoNested_Response") (lit "J-FT") (Name (lit "CDR_LE")) 12;
  mk_wire_profile_json (lit "rclweb_cdr_interfaces/srv/EchoNested_Response") (lit "J-ZN") (Name (lit "CDR_LE")) 12;
  mk_wire_profile_json (lit "sensor_msgs/msg/PointCloud2") (lit "H-CY") (Name (lit "CDR_LE")) 0;
  mk_wire_profile_json (lit "sensor_msgs/msg/PointCloud2") (lit "H-FT") (Name (lit "CDR_LE")) 0;
  mk_wire_profile_json (lit "sensor_msgs/msg/PointCloud2") (lit "H-ZN") (Name (lit "CDR_LE")) 0;
  mk_wire_profile_json (lit "sensor_msgs/msg/PointCloud2") (lit "J-CY") (Name (lit "CDR_LE")) 0;
  mk_wire_profile_json (lit "sensor_msgs/msg/PointCloud2") (lit "J-FT") (Name (lit "CDR_LE")) 0;
  mk_wire_profile_json (lit "sensor_msgs/msg/PointCloud2") (lit "J-ZN") (Name (lit "CDR_LE")) 0].

Definition PROVENANCE_JSON : list ProvenanceJson := [
  mk_provenance_json
    (lit "RIHS01_0a9d749108b3db136f0bf90cbfe4c797c4580beea8b49329e5016e18b7ddde32")
    (lit "d2081aa35743fabf07c7c10c91bd2aa3b9a359028c7ac4c5a15a3ec9bf7ff969")
    (lit "rclweb_cdr_interfaces/action/MeasureSequence_Feedback");
  mk_provenance_json
    (lit "RIHS01_0b448dd8d3c307b4432e83757dcb7c866ca5a4b1dc5251c353c1bc357718831f")
    (lit "82cf112e24d661548cb2f22fbef5e12e46abecbc08aa8ccdd7b97b59af7b3410")
    (lit "rclweb_cdr_interfaces/action/MeasureSequence_Goal");
  mk_provenance_json
    (lit "RIHS01_4aeb18ab839da6cb72cb3d6689ed8900cf2a333bc652691bffa0186ba0267a44")
    (lit "73f8dc76a92d7776c7ca3c422da79d98fc62d0a36ff17714e809b14affdcf89c")
    (lit "rclweb_cdr_interfaces/action/MeasureSequence_Result");
  mk_provenance_json
    (lit "RIHS01_e6bf92925264144744c345f1cb13fba0c4189c02a5b8afdf68326a084ea768e3")
    (lit "413d09e0d961f4d727a2345316d615bdc67df3f7d4aaaf458682b38deab1e5e5")
    (lit "rclweb_cdr_interfaces/msg/Collections");
  mk_provenance_json
    (lit "RIHS01_4ea14613956492167209ed78febea89be53fdb174082c1d59fd4f73ecd2136e8")
    (lit "c72c1f0832821c4893e78a6de5513e8ec0b49a690232ef168610ad758f16b83f")
    (lit "rclweb_cdr_interfaces/msg/NestedSample");
  mk_provenance_json
    (lit "RIHS01_db44c373c05fc055970958730d7cb835f816b091b68bfdf93d6ed50086092cea")
    (lit "d5d0a3d49f52d81a21b93f6d49e9f64f37de0057ef387189740d6510e9048280")
    (lit "rclweb_cdr_interfaces/msg/PrimitiveScalars");
  mk_provenance_json
    (lit "RIHS01_b9b2265bac2539a16b26ce2672ce68536db8c069948757b9b8647e843af5a06a")
    (lit "076a7cc7e74f71868d8ac29377d352e27fe4467f9902c02c576a7b7139b33e4c")
    (lit "rclweb_cdr_interfaces/srv/EchoNested_Request");
  mk_provenance_json
    (lit "RIHS01_5018c51e449db53278796f65adaa2dcf36ed821fcc55f938693e824716738352")
    (lit "68fe0af8467e4494f73a4ed317f365ead279ca9eb58abd75fe6c817806d9f69d")
    (lit "rclweb_cdr_interfaces/srv/EchoNested_Response");
  mk_provenance_json
    (lit "RIHS01_9198cabf7da3796ae6fe19c4cb3bdd3525492988c70522628af5daa124bae2b5")
    (lit "5cac773adf5161dbc3be02a8a3eac96ed3fcba58253b5504d58fba2175b47efb")
    (lit "sensor_msgs/msg/PointCloud2")].
Fixpoint load_descriptors (rows : list DescriptorJson) (b : SchemaRegistryBuilder) : V SchemaRegistryBuilder :=
  match rows with
  | [] => Ok b
  | row :: rows' => b <-- register_descriptor b (dj_descriptor_id row) (dj_type_name row) ;; load_descriptors rows' b
  end.

Fixpoint load_identities (rows : list IdentityJson) (b : SchemaRegistryBuilder) : V SchemaRegistryBuilder :=
  match rows with
  | [] => Ok b
  | row :: rows' =>
      key <-- SchemaKey_new (ij_scheme row) (ij_value row) (ij_type_name row) (ij_encoding row) (ij_schema_generation row) ;;
      b <-- register_identity b key (ij_descriptor_id row) ;;
      load_identities rows' b
  end.

Fixpoint load_wire_profiles (rows : list WireProfileJson) (b : SchemaRegistryBuilder) : V SchemaRegistryBuilder :=
  match rows with
  | [] => Ok b
  | row :: rows' =>
      rep <-- into_rep (wj_cdr_representation row) ;;
      b <-- register_wire_profile b (wj_type_name row) (wj_support_row_id row) rep (wj_zero_tail_bytes row) ;;
      load_wire_profiles rows' b
  end.

Fixpoint load_provenance (rows : list ProvenanceJson) (b : SchemaRegistryBuilder) : V SchemaRegistryBuilder :=
  match rows with
  | [] => Ok b
  | row :: rows' =>
      b <-- register_provenance b (pj_rihs row) (pj_bundle_sha256 row) (pj_type_name row) ;;
      load_provenance rows' b
  end.

Definition phase1 : V SchemaRegistry :=
  b <-- load_descriptors DESCRIPTORS_JSON builder_new ;;
  b <-- load_identities IDENTITIES_JSON b ;;
  b <-- load_wire_profiles WIRE_PROFILES_JSON b ;;
  b <-- load_provenance PROVENANCE_JSON b ;;
  freeze b.

(** [.expect(..)]: corrupt metadata panics. *)
Definition phase1_cached {E} : outcome E SchemaRegistry :=
  match phase1 with Ok r => Ok r | _ => Panic end.

Definition schema_identity_for_type (type_name scheme : bytes) : V (option (bytes * bytes)) :=
  registry <-- phase1_cached ;;
  if negb (is_phase1_root registry type_name) then Ok None
  else
    value <-- identity_value_for_type registry type_name scheme ;;
    Ok (Some (scheme, value)).

Definition lookup_phase1_root_for_open (type_name support_row_id : bytes) (representation : CdrRepresentation)
    : V (option (LookupResult * SchemaKey)) :=
  registry <-- phase1_cached ;;
  if negb (is_phase1_root registry type_name) then Ok None
  else
    let scheme := if has_prefix support_row_id (lit "J") then SCHEME_REP2011_RIHS else SCHEME_RCLWEB_SCHEMA_V1 in
    value <-- identity_value_for_type registry type_name scheme ;;
    key <-- SchemaKey_new scheme value type_name ENCODING_CDR1 PHASE1_SCHEMA_GENERATION ;;
    result <-- lookup registry key support_row_id representation ;;
    Ok (Some (result, key)).

Definition WIRE_ERROR_SCHEMA_UNAVAILABLE : Z := 10.
