(* ===== verification/RegistryTheorems.v ===== *)
(** * The schema registry: theorems

    Registration only adds material and can be repeated, whatever is registered;
    the embedded metadata loads, and the lookup before a channel is opened
    answers for every root on every support row of the gateway. *)

From stdpp Require Import gmap.
From S2P Require Import Prelude Utf8 Policy Registry.

(** ** What a builder holds *)

Record builder_wf (b : SchemaRegistryBuilder) : Prop := {
  bw_descriptors : map_Forall (fun id row => dr_descriptor_id row = id /\ id <> [] /\
    validate_type_name_len (dr_type_name row) = Ok tt) (b_descriptors b);
  bw_identities : map_Forall (fun k row => k = (sk_scheme (ir_key row), sk_value (ir_key row)) /\
    SchemaKey_validate (ir_key row) = Ok tt /\ is_Some (b_descriptors b !! ir_descriptor_id row)) (b_identities b);
  bw_profiles : map_Forall (fun k row => k = (wr_type_name row, wr_support_row_id row, as_u16 (wr_cdr_representation row)))
    (b_wire_profiles b);
  bw_provenance : map_Forall (fun k row => k = pr_rihs row) (b_provenance b);
  bw_sizes : map_len (b_descriptors b) <= MAX_REGISTRY_ENTRIES /\ map_len (b_identities b) <= MAX_REGISTRY_ENTRIES
}.

(** One registration. *)
Inductive registration :=
| RDescriptor (descriptor_id type_name : bytes)
| RIdentity (key : SchemaKey) (descriptor_id : bytes)
| RWireProfile (type_name support_row_id : bytes) (representation : CdrRepresentation) (zero_tail_bytes : Z)
| RProvenance (rihs bundle_sha256 type_name : bytes).

Definition register (b : SchemaRegistryBuilder) (r : registration) : V SchemaRegistryBuilder :=
  match r with
  | RDescriptor id t => register_descriptor b id t
  | RIdentity key id => register_identity b key id
  | RWireProfile t row rep z => register_wire_profile b t row rep z
  | RProvenance rihs sha t => register_provenance b rihs sha t
  end.

(** Everything [b] holds, [b'] holds. *)
Definition contains (b' b : SchemaRegistryBuilder) : Prop :=
  b_descriptors b ⊆ b_descriptors b' /\ b_identities b ⊆ b_identities b' /\
  b_wire_profiles b ⊆ b_wire_profiles b' /\ b_provenance b ⊆ b_provenance b'.

Lemma contains_refl b : contains b b.
Proof. by split_and!. Qed.

Lemma builder_new_wf : builder_wf builder_new.
Proof. split; try apply map_Forall_empty. by vm_compute. Qed.

Lemma text_is_true a b : text_is a b = true <-> a = b.
Proof. apply bool_decide_eq_true. Qed.

Lemma text_is_refl a : text_is a a = true.
Proof. by apply text_is_true. Qed.

Lemma map_len_insert {K A} `{Countable K} (m : gmap K A) k a :
  m !! k = None -> map_len (<[k := a]> m) = map_len m + 1.
Proof. intros Hk. unfold map_len. rewrite map_size_insert_None by done. lia. Qed.

(** A negated test that failed. *)
Ltac passed H := apply negb_false_iff in H.

Lemma register_descriptor_spec b id t b' :
  builder_wf b -> register_descriptor b id t = Ok b' ->
  builder_wf b' /\ contains b' b /\ register_descriptor b' id t = Ok b'.
Proof.
  intros Hwf E. pose proof E as E0. unfold register_descriptor in E.
  destruct (validate_type_name_len t) as [[] | |] eqn:Et; [| done..]. cbn [obind] in E.
  destruct (blen id =? 0) eqn:Eid; [done |]. destruct (b_descriptors b !! id) as [row |] eqn:Er.
  - destruct (negb _); [done |]. injection E as <-. split_and!; try done; apply contains_refl.
  - destruct (Z.leb_spec MAX_REGISTRY_ENTRIES (map_len (b_descriptors b))); [done |]. injection E as <-.
    destruct Hwf as [Hd Hi Hp Hv [Hs1 Hs2]]. split; [| split].
    + split; cbn; try done.
      * apply map_Forall_insert_2; [| done]. cbn. split_and!; [done | by intros -> | done].
      * eapply map_Forall_impl; [exact Hi |]. cbn. intros k row (? & ? & [d Hdr]). split_and!; [done | done |].
        destruct (decide (ir_descriptor_id row = id)) as [-> |]; [by rewrite lookup_insert_eq | by rewrite lookup_insert_ne].
      * rewrite map_len_insert by done. lia.
    + split_and!; try done. cbn. by apply insert_subseteq.
    + unfold register_descriptor. rewrite Et. cbn [obind b_descriptors]. by rewrite Eid, lookup_insert_eq, text_is_refl.
Qed.

Lemma register_identity_spec b key id b' :
  builder_wf b -> register_identity b key id = Ok b' ->
  builder_wf b' /\ contains b' b /\ register_identity b' key id = Ok b'.
Proof.
  intros Hwf E. pose proof E as E0. unfold register_identity in E.
  destruct (SchemaKey_validate key) as [[] | |] eqn:Ek; [| done..]. cbn [obind] in E.
  destruct (b_descriptors b !! id) as [d |] eqn:Ed; [| done].
  destruct (b_identities b !! _) as [row |] eqn:Er.
  - destruct (_ || _); [done |]. injection E as <-. split_and!; try done; apply contains_refl.
  - destruct (Z.leb_spec MAX_REGISTRY_ENTRIES (map_len (b_identities b))); [done |]. injection E as <-.
    destruct Hwf as [Hd Hi Hp Hv [Hs1 Hs2]]. split; [| split].
    + split; cbn; try done.
      * apply map_Forall_insert_2; [by split_and! | done].
      * rewrite map_len_insert by done. lia.
    + split_and!; try done. cbn. by apply insert_subseteq.
    + unfold register_identity. rewrite Ek. cbn [obind b_descriptors b_identities]. rewrite Ed, lookup_insert_eq. cbn.
      by rewrite text_is_refl, bool_decide_true.
Qed.

Lemma register_wire_profile_spec b t row rep z b' :
  builder_wf b -> register_wire_profile b t row rep z = Ok b' ->
  builder_wf b' /\ contains b' b /\ register_wire_profile b' t row rep z = Ok b'.
Proof.
  intros Hwf E. pose proof E as E0. unfold register_wire_profile in E.
  destruct (validate_type_name_len t) as [[] | |] eqn:Et; [| done..].
  destruct (validate_support_row_id row) as [[] | |] eqn:Es; [| done..]. cbn [obind] in E.
  destruct (b_wire_profiles b !! _) as [p |] eqn:Er.
  - destruct (negb _); [done |]. injection E as <-. split_and!; try done; apply contains_refl.
  - injection E as <-. destruct Hwf as [Hd Hi Hp Hv Hs]. split; [| split].
    + split; cbn; try done. by apply map_Forall_insert_2.
    + split_and!; try done. cbn. by apply insert_subseteq.
    + unfold register_wire_profile. rewrite Et, Es. cbn [obind b_wire_profiles]. rewrite lookup_insert_eq. cbn.
      by rewrite Z.eqb_refl.
Qed.

Lemma register_provenance_spec b rihs sha t b' :
  builder_wf b -> register_provenance b rihs sha t = Ok b' ->
  builder_wf b' /\ contains b' b /\ register_provenance b' rihs sha t = Ok b'.
Proof.
  intros Hwf E. pose proof E as E0. unfold register_provenance in E.
  destruct (validate_scheme_value SCHEME_REP2011_RIHS rihs) as [[] | |] eqn:E1; [| done..].
  destruct (validate_scheme_value SCHEME_RCLWEB_SCHEMA_V1 sha) as [[] | |] eqn:E2; [| done..].
  destruct (validate_type_name_len t) as [[] | |] eqn:Et; [| done..]. cbn [obind] in E.
  destruct (b_provenance b !! _) as [p |] eqn:Er.
  - destruct (_ || _); [done |]. injection E as <-. split_and!; try done; apply contains_refl.
  - injection E as <-. destruct Hwf as [Hd Hi Hp Hv Hs]. split; [| split].
    + split; cbn; try done. by apply map_Forall_insert_2.
    + split_and!; try done. cbn. by apply insert_subseteq.
    + unfold register_provenance. rewrite E1, E2, Et. cbn [obind b_provenance]. rewrite lookup_insert_eq. cbn.
      by rewrite !text_is_refl.
Qed.

Lemma register_spec b r b' :
  builder_wf b -> register b r = Ok b' -> builder_wf b' /\ contains b' b /\ register b' r = Ok b'.
Proof.
  destruct r; cbn [register];
    [apply register_descriptor_spec | apply register_identity_spec | apply register_wire_profile_spec
    | apply register_provenance_spec].
Qed.

(** A registration with material that conflicts with what is there fails. *)
Definition conflicts (b : SchemaRegistryBuilder) (r : registration) : Prop :=
  match r with
  | RDescriptor id t => exists row, b_descriptors b !! id = Some row /\ dr_type_name row <> t
  | RIdentity key id => exists row, b_identities b !! (sk_scheme key, sk_value key) = Some row /\
      (ir_key row <> key \/ ir_descriptor_id row <> id)
  | RWireProfile t s rep z => exists row, b_wire_profiles b !! (t, s, as_u16 rep) = Some row /\ wr_zero_tail_bytes row <> z
  | RProvenance rihs sha t => exists row, b_provenance b !! rihs = Some row /\
      (pr_bundle_sha256 row <> sha \/ pr_type_name row <> t)
  end.

Lemma conflicts_refused b r b' : conflicts b r -> register b r <> Ok b'.
Proof.
  destruct r as [id t | key id | t s rep z | rihs sha t]; cbn [conflicts register]; intros (row & Hrow & Hne) E.
  - unfold register_descriptor in E. rewrite Hrow in E. unfold text_is in E.
    rewrite (bool_decide_false _ Hne) in E. destruct (validate_type_name_len t); [| done..]. cbn in E.
    by destruct (blen id =? 0).
  - unfold register_identity in E. rewrite Hrow in E. unfold text_is in E.
    destruct (SchemaKey_validate key); [| done..]. cbn [obind] in E. destruct (b_descriptors b !! id); [| done].
    destruct Hne as [Hne | Hne]; rewrite (bool_decide_false _ Hne) in E; cbn [negb orb] in E; [| done].
    by rewrite orb_true_r in E.
  - unfold register_wire_profile in E. destruct (validate_type_name_len t); [| done..].
    destruct (validate_support_row_id s); [| done..]. cbn [obind] in E. rewrite Hrow in E.
    by rewrite (proj2 (Z.eqb_neq _ _) Hne) in E.
  - unfold register_provenance in E. destruct (validate_scheme_value _ rihs); [| done..].
    destruct (validate_scheme_value _ sha); [| done..]. destruct (validate_type_name_len t); [| done..].
    cbn [obind] in E. rewrite Hrow in E. unfold text_is in E.
    destruct Hne as [Hne | Hne]; rewrite (bool_decide_false _ Hne) in E; cbn [negb orb] in E; [done |].
    by rewrite orb_true_r in E.
Qed.

(** ** Faults *)

(** No panic, and a fault says that the key is invalid or the material missing. *)
Definition lookup_faults {A} (m : V A) : Prop :=
  match m with
  | Ok _ => True
  | Err e => se_code e = InvalidSchemaKey \/ se_code e = SchemaUnavailable
  | Panic => False
  end.

Lemma faults_bind {A B} (m : V A) (k : A -> V B) :
  lookup_faults m -> (forall a, lookup_faults (k a)) -> lookup_faults (obind m k).
Proof. destruct m; cbn; auto. Qed.

Lemma faults_length what s max : lookup_faults (check_length what s max).
Proof. unfold check_length. destruct (_ || _); [by left | done]. Qed.

Ltac faults :=
  repeat match goal with
  | |- lookup_faults (obind _ _) => apply faults_bind; [| intros]
  | |- lookup_faults (check_length _ _ _) => apply faults_length
  | |- lookup_faults (if ?c then _ else _) => destruct c
  | |- lookup_faults (match ?x with _ => _ end) => destruct x
  | |- lookup_faults (ok_or ?o _) => destruct o; cbn [ok_or]
  | |- lookup_faults (Ok _) => exact I
  | |- lookup_faults (Err _) => first [by left | by right]
  end.

Lemma faults_scheme_value scheme value : lookup_faults (validate_scheme_value scheme value).
Proof. unfold validate_scheme_value. faults. Qed.

Lemma faults_key key : lookup_faults (SchemaKey_validate key).
Proof. unfold SchemaKey_validate. faults. apply faults_scheme_value. Qed.

Lemma faults_lookup r key row rep : lookup_faults (lookup r key row rep).
Proof. unfold lookup, validate_support_row_id. faults. apply faults_key. Qed.

Lemma faults_identity_value r t scheme : lookup_faults (identity_value_for_type r t scheme).
Proof. unfold identity_value_for_type, validate_type_name_len. faults. Qed.

Lemma no_panic {A} (m : V A) : lookup_faults m -> m <> Panic.
Proof. by destruct m. Qed.

Lemma settled_bind {A B} (m : V A) (k : A -> V B) : m <> Panic -> (forall a, k a <> Panic) -> obind m k <> Panic.
Proof. destruct m; cbn; auto. Qed.

Lemma register_total b r : register b r <> Panic.
Proof.
  destruct r; cbn [register];
    unfold register_descriptor, register_identity, register_wire_profile, register_provenance, validate_type_name_len,
      validate_support_row_id;
    repeat match goal with
      | |- obind _ _ <> Panic => apply settled_bind; [| intros]
      | |- check_length _ _ _ <> Panic => apply no_panic, faults_length
      | |- validate_scheme_value _ _ <> Panic => apply no_panic, faults_scheme_value
      | |- SchemaKey_validate _ <> Panic => apply no_panic, faults_key
      | |- (if ?c then _ else _) <> Panic => destruct c
      | |- (match ?x with _ => _ end) <> Panic => destruct x
      | |- _ <> Panic => discriminate
      end.
Qed.

(** ** The embedded registry *)

Definition roots : list bytes := map dj_type_name DESCRIPTORS_JSON.

(** What [phase1_cached] answers. *)
Definition registry_of (m : V SchemaRegistry) : SchemaRegistry :=
  match m with Ok r => r | _ => mk_registry ∅ ∅ ∅ ∅ end.
Definition the_registry : SchemaRegistry := registry_of phase1.

Definition loaded (m : V SchemaRegistry) : bool := match m with Ok _ => true | _ => false end.

Lemma loaded_phase1 : loaded phase1 = true.
Proof. by vm_compute. Qed.

Lemma phase1_loads : phase1 = Ok the_registry.
Proof. unfold the_registry. pose proof loaded_phase1 as H. revert H. generalize phase1. by intros []. Qed.

Lemma cached_loads {E} : phase1_cached (E := E) = Ok the_registry.
Proof. unfold phase1_cached. by rewrite phase1_loads. Qed.

#[local] Opaque phase1_cached the_registry.

Lemma cached_bind {A} (k : SchemaRegistry -> V A) : obind phase1_cached k = k the_registry.
Proof. exact (f_equal (fun m => obind m k) cached_loads). Qed.

#[local] Transparent the_registry.

Definition registered_names : list bytes := map dr_type_name (map snd (map_to_list (r_descriptors the_registry))).

Lemma text_in x l : existsb (text_is x) l = true <-> x ∈ l.
Proof.
  rewrite existsb_exists. split.
  - intros (y & Hy & ->%text_is_true). by apply list_elem_of_In.
  - intros Hx. exists x. split; [by apply list_elem_of_In | apply text_is_refl].
Qed.

Lemma covered_by l l' : forallb (fun x => existsb (text_is x) l) l' = true -> forall t, t ∈ l' -> t ∈ l.
Proof. rewrite forallb_forall. intros H t Ht%list_elem_of_In. apply text_in. auto. Qed.

Lemma registered_roots t : t ∈ registered_names <-> t ∈ roots.
Proof. split; apply covered_by; by vm_compute. Qed.

#[local] Opaque the_registry phase1 phase1_cached roots.

Lemma named_in (t : bytes) (l : list DescriptorRow) :
  existsb (fun d => text_is (dr_type_name d) t) l = true <-> t ∈ map dr_type_name l.
Proof.
  rewrite existsb_exists, list_elem_of_fmap. split.
  - intros (d & Hd & Ht%text_is_true). exists d. split; [exact (eq_sym Ht) | by apply list_elem_of_In].
  - intros (d & -> & Hd). exists d. split; [by apply list_elem_of_In | apply text_is_refl].
Qed.

Lemma root_test t : is_phase1_root the_registry t = bool_decide (t ∈ roots).
Proof. apply eq_iff_eq_true. rewrite bool_decide_eq_true, <- registered_roots. exact (named_in t _). Qed.

Lemma lookup_type r key row rep res : lookup r key row rep = Ok res -> lr_type_name res = sk_type_name key.
Proof.
  unfold lookup. destruct (SchemaKey_validate key); [| done..]. destruct (validate_support_row_id row); [| done..].
  cbn [obind]. destruct (r_identities r !! _) as [i |]; [| done]. cbn [ok_or obind]. destruct (_ || _); [done |].
  destruct (r_descriptors r !! _) as [d |]; [| done]. cbn [ok_or obind].
  destruct (text_is (dr_type_name d) (sk_type_name key)) eqn:E; [| done]. apply text_is_true in E. cbn [negb].
  destruct (r_wire_profiles r !! _); [| done]. cbn [ok_or obind]. by intros [= <-].
Qed.

Lemma open_faults t row rep : lookup_faults (lookup_phase1_root_for_open t row rep).
Proof.
  unfold lookup_phase1_root_for_open. rewrite cached_bind. destruct (negb _); [exact I |].
  apply faults_bind; [apply faults_identity_value | intros v].
  apply faults_bind.
  - unfold SchemaKey_new. apply faults_bind; [apply faults_key | done].
  - intros key. apply faults_bind; [apply faults_lookup | done].
Qed.

(** What a channel that opens root [t] on the support row [row] of the gateway gets. *)
Definition answer_ok (t : bytes) (row : SupportRow) (answer : V (option (LookupResult * SchemaKey))) : bool :=
  match answer with
  | Ok (Some (res, key)) =>
      text_is (sk_scheme key) (schema_scheme row) && text_is (lr_type_name res) t &&
      existsb (fun w => text_is (wj_type_name w) t && text_is (wj_support_row_id w) (row_id row) &&
        (wj_zero_tail_bytes w =? lr_zero_tail_bytes res)) WIRE_PROFILES_JSON &&
      existsb (fun i => text_is (ij_type_name i) t && text_is (ij_scheme i) (sk_scheme key) &&
        text_is (ij_value i) (sk_value key)) IDENTITIES_JSON
  | _ => false
  end.
Definition answers (t : bytes) (row : SupportRow) : bool :=
  answer_ok t row (lookup_phase1_root_for_open t (row_id row) Le).

Lemma roots_answer t row : t ∈ roots -> row ∈ support_rows -> answers t row = true.
Proof.
  intros Ht%list_elem_of_In Hr%list_elem_of_In.
  assert (H : forallb (fun t => forallb (answers t) support_rows) roots = true) by (by vm_compute).
  rewrite forallb_forall in H. specialize (H t Ht). rewrite forallb_forall in H. by apply H.
Qed.

(** A test of the answer, for roots the registry has been seen to hold. *)
Lemma open_none t row rep : lookup_phase1_root_for_open t row rep = Ok None <-> t ∉ roots.
Proof.
  unfold lookup_phase1_root_for_open. rewrite cached_bind, root_test.
  destruct (decide (t ∈ roots)) as [Ht | Ht].
  - rewrite bool_decide_true by done. cbn [negb]. split; [| done].
    destruct (identity_value_for_type _ t _); [| done..]. cbn [obind]. destruct (SchemaKey_new _ _ _ _ _); [| done..].
    cbn [obind]. by destruct (lookup _ _ _ _).
  - by rewrite bool_decide_false.
Qed.

Lemma key_new_type scheme value t e g key : SchemaKey_new scheme value t e g = Ok key -> sk_type_name key = t.
Proof. unfold SchemaKey_new. destruct (SchemaKey_validate _); [| done..]. cbn. by intros [= <-]. Qed.

Lemma open_type t row rep res key :
  lookup_phase1_root_for_open t row rep = Ok (Some (res, key)) -> lr_type_name res = t /\ sk_type_name key = t.
Proof.
  unfold lookup_phase1_root_for_open. rewrite cached_bind. destruct (negb _); [done |].
  destruct (identity_value_for_type _ t _); [| done..]. cbn [obind].
  destruct (SchemaKey_new _ _ _ _ _) as [k | |] eqn:Ek; [| done..].
  cbn [obind]. destruct (lookup _ _ _ _) as [r | |] eqn:Er; [| done..]. cbn. intros [= <- <-].
  apply key_new_type in Ek. by rewrite (lookup_type _ _ _ _ _ Er), Ek.
Qed.

(** ** Theorems *)

(** What the result of a registration promises. *)
Definition registration_sound (b : SchemaRegistryBuilder) (r : registration) (result : V SchemaRegistryBuilder) : Prop :=
  match result with
  | Ok b' => builder_wf b' /\ contains b' b /\ register b' r = Ok b' /\ ~ conflicts b r
  | Err _ => True
  | Panic => False
  end.

(** C39: whatever is registered and in whatever order, a registration never
    panics; one that succeeds keeps the tables consistent (every row under its
    own key, every identity validated and with its descriptor, no table above
    its ceiling), loses nothing that was registered, can be repeated without
    effect, and did not contradict the material that was there. *)
Theorem registry_append_only b r : builder_wf b -> registration_sound b r (register b r).
Proof.
  intros Hwf. unfold registration_sound. pose proof (register_total b r) as Hp. pose proof (fun b' C => conflicts_refused b r b' C) as Hc.
  destruct (register b r) as [b' | |] eqn:E; [| done | by destruct Hp].
  destruct (register_spec b r b' Hwf E) as (? & ? & ?). split_and!; [done.. |]. intros C. by apply (Hc b' C).
Qed.

Definition point_cloud_row : registration :=
  RDescriptor (lit "sensor_msgs/msg/PointCloud2") (lit "sensor_msgs/msg/PointCloud2").

Lemma registry_append_only_witness :
  builder_wf builder_new /\ registration_sound builder_new point_cloud_row (register builder_new point_cloud_row).
Proof. split; [exact builder_new_wf | exact (registry_append_only _ _ builder_new_wf)]. Defined.

(** What the result of a lookup for [t] promises. *)
Definition lookup_sound (t : bytes) (answer : V (option (LookupResult * SchemaKey))) : Prop :=
  match answer with
  | Ok None => True
  | Ok (Some (res, key)) => lr_type_name res = t /\ sk_type_name key = t
  | Err e => se_code e = InvalidSchemaKey \/ se_code e = SchemaUnavailable
  | Panic => False
  end.

(** The lookup before a channel is opened never panics. It answers
    nothing exactly for the types the metadata does not list; for a listed type
    it faults only because the key is invalid or the material missing, an
    answer is about the type asked for, and on each of the six support rows of
    the gateway there is an answer: the identity of the scheme the gateway
    uses on that row, with the zero tail the wire profile states. *)
Theorem open_lookup t row_text :
  (lookup_phase1_root_for_open t row_text Le = Ok None <-> t ∉ roots) /\
  lookup_sound t (lookup_phase1_root_for_open t row_text Le) /\
  (forall row, t ∈ roots -> row ∈ support_rows -> answers t row = true).
Proof.
  split; [apply open_none | split; [| intros; by apply roots_answer]].
  unfold lookup_sound. pose proof (open_faults t row_text Le) as Hf. pose proof (open_type t row_text Le) as Ht.
  destruct (lookup_phase1_root_for_open t row_text Le) as [[[res key] |] | |]; [by apply Ht | done | exact Hf | done].
Qed.
