(* ===== verification/EngineTypes.v ===== *)
(** * What the client engine exchanges with its host

    [rclweb/src/engine/types.rs] (host events, commands, application events,
    poll results, telemetry) and the control message builders of
    [rclweb/src/engine/control.rs]. *)

From S2P Require Import Prelude Utf8 Cbor Session Registry.
From S2P Require PointCloud.
#[local] Open Scope Z_scope.

Definition STD_MSGS_STRING : bytes := lit "std_msgs/msg/String".
Definition MAX_HOST_EVENTS_PER_POLL : nat := 64.
Definition MAX_OUTBOUND_PER_POLL : Z := 64.

Module AppCommand.

Inductive t :=
| Start (transferable_arraybuffer webtransport : bool)
| Authenticate (correlation scheme token : bytes)
| Subscribe (correlation : bytes) (channel_id : Z) (topic type_name : bytes) (qos_reliability qos_depth domain_id : Z)
| Publish (correlation : bytes) (channel_id : Z) (topic type_name : bytes) (qos_reliability qos_depth domain_id : Z)
| SendSample (channel_id : Z) (string_data : bytes)
| SendPointCloud2 (channel_id : Z) (header : PointCloud.Header) (height width : Z) (fields : list PointCloud.PointField)
    (point_step row_step : Z) (is_bigendian is_dense : bool) (data : bytes)
| SendGenerated (channel_id : Z) (type_name value : bytes)
| OpenService (correlation : bytes) (channel_id : Z) (name type_name : bytes) (domain_id : Z) (client : bool)
| CallService (channel_id : Z) (operation_id request : bytes)
| SendServiceResponse (channel_id : Z) (operation_id response : bytes)
| OpenAction (correlation : bytes) (channel_id : Z) (name type_name : bytes) (domain_id : Z) (client : bool)
| SendActionGoal (channel_id : Z) (operation_id goal : bytes)
| CancelAction (channel_id : Z) (operation_id : bytes)
| SendActionFeedback (channel_id : Z) (operation_id feedback : bytes)
| SendActionResult (channel_id : Z) (operation_id result : bytes)
| SendActionStatus (channel_id : Z) (operation_id status : bytes)
| Unsubscribe (correlation : bytes) (channel_id : Z)
| Close.

End AppCommand.

Module HostEvent.

Inductive t :=
| WsBytes (buffer_id : Z) (bs : bytes)
| Timer (now_ms : Z)
| Command (cmd : AppCommand.t)
| ReleaseLease (lease_id : Z).

End HostEvent.

Module AppEvent.

Inductive t :=
| BootstrapComplete (selected_wire_version : Z)
| SessionReady (support_row : bytes) (domain_id : Z) (gateway_instance_id : bytes)
| Subscribed (channel_id : Z) (topic type_name : bytes)
| SubscribeFailed (channel_id code : Z) (message : bytes)
| Published (channel_id : Z) (topic type_name : bytes) (qos_reliability : Z)
| PublishFailed (channel_id code : Z) (message : bytes)
| Sample (channel_id lease_id sequence source_time_ns : Z) (string_data : option bytes)
| Heartbeat (counter : Z)
| ServiceReady (channel_id : Z) (name type_name : bytes) (client : bool)
| ServiceFailed (channel_id code : Z) (message : bytes)
| ServiceRequest (channel_id : Z) (operation_id : bytes) (lease_id sequence : Z)
| ServiceResponse (channel_id : Z) (operation_id : bytes) (lease_id sequence : Z)
| ActionReady (channel_id : Z) (name type_name : bytes) (client : bool)
| ActionFailed (channel_id code : Z) (message : bytes)
| ActionGoal (channel_id : Z) (operation_id : bytes) (lease_id sequence : Z)
| ActionFeedback (channel_id : Z) (operation_id : bytes) (lease_id sequence : Z)
| ActionResult (channel_id : Z) (operation_id : bytes) (lease_id sequence : Z)
| ActionStatus (channel_id : Z) (operation_id : bytes) (lease_id sequence : Z)
| GraphSnapshot (generation : Z) (nodes_json endpoints_json : bytes)
| GraphDelta (generation : Z)
| OperationCancelled (channel_id code : Z) (message : bytes)
| Error (code : Z) (message : bytes)
| Closed (phase : SessionPhase).

End AppEvent.

Record OutboundMessage := mk_outbound { om_buffer_id : Z; om_bytes : bytes }.
Record ReleasedBuffer := mk_released { rb_buffer_id : Z; rb_len : Z }.

Record PollOutcome := mk_outcome {
  po_outbound : list OutboundMessage;
  po_events : list AppEvent.t;
  po_released_buffers : list ReleasedBuffer;
  po_next_deadline_ms : option Z
}.
Definition default_outcome : PollOutcome := mk_outcome [] [] [] None.

Record EngineTelemetry := mk_engine_telemetry {
  et_copies_into_engine : Z;
  et_bytes_copied_into_engine : Z;
  et_poll_turns : Z;
  et_poll_nanos_total : Z;
  et_samples_emitted : Z;
  et_leases_released : Z;
  et_samples_sent : Z
}.
Definition default_engine_telemetry : EngineTelemetry := mk_engine_telemetry 0 0 0 0 0 0 0.

(** ** The control messages of the client *)

Module Builder.

Definition DEMO_BUNDLE_HASH : bytes := replicate 64 97.
Definition DEMO_SCHEMA_HASH : bytes := lit "RIHS01_" ++ replicate 64 97.
Definition ZERO_CORRELATION : bytes := zeros 16.

Definition bytes_val (b : bytes) : CborValue := Bytes b.
Definition text_val (t : bytes) : CborValue := Text t.

Definition starts_with_H (support_row_id : bytes) : bool := has_prefix support_row_id (lit "H").

Definition schema_scheme_for_support_row (support_row_id : bytes) : bytes :=
  if starts_with_H support_row_id then SCHEME_RCLWEB_SCHEMA_V1 else SCHEME_REP2011_RIHS.

(** The identity of a type on a row, from the answer of the registry. *)
Definition schema_identity_or_demo (support_row_id : bytes) (answer : V (option (bytes * bytes))) : V (bytes * bytes) :=
  match answer with
  | Ok (Some (scheme, value)) => Ok (scheme, value)
  | Panic => Panic
  | _ => if starts_with_H support_row_id then Ok (SCHEME_RCLWEB_SCHEMA_V1, DEMO_BUNDLE_HASH)
         else Ok (SCHEME_REP2011_RIHS, DEMO_SCHEMA_HASH)
  end.
Definition resolve_open_schema_identity (type_name support_row_id : bytes) : V (bytes * bytes) :=
  schema_identity_or_demo support_row_id
    (schema_identity_for_type type_name (schema_scheme_for_support_row support_row_id)).

Definition authenticate (correlation scheme token : bytes) : CborValue :=
  Map [(1, Unsigned 1); (2, bytes_val correlation); (16, text_val scheme); (17, bytes_val token)].

Definition DEFAULT_QOS_DEPTH : Z := 5.

(** The fields before and after the QoS of an OpenChannel message. *)
Definition open_message (correlation : bytes) (channel_id operation_kind : Z) (name type_name : bytes)
    (identity : bytes * bytes) (qos : Z * CborValue) (domain_id : Z) (support_row_id : bytes) : CborValue :=
  Map [(1, Unsigned 8); (2, bytes_val correlation); (29, Unsigned channel_id); (30, Unsigned operation_kind);
       (31, text_val name); (4, text_val type_name);
       (3, Map [(1, text_val identity.1); (2, text_val identity.2)]); (5, Unsigned 1); (6, Unsigned 0);
       qos; (32, Unsigned 2); (12, Map []); (9, Unsigned domain_id); (8, text_val support_row_id)].

Definition open_topic (correlation : bytes) (channel_id operation_kind : Z) (topic type_name : bytes)
    (qos_reliability qos_depth domain_id : Z) (support_row_id : bytes) : V CborValue :=
  let depth := Z.max qos_depth 1 in
  identity <-- resolve_open_schema_identity type_name support_row_id ;;
  Ok (open_message correlation channel_id operation_kind topic type_name identity
        (11, Map [(1, Unsigned qos_reliability); (2, Unsigned 0); (3, Unsigned 1); (4, Unsigned depth)])
        domain_id support_row_id).

Definition open_service (correlation : bytes) (channel_id : Z) (client : bool) (name type_name : bytes) (domain_id : Z)
    (support_row_id : bytes) : V CborValue :=
  let operation_kind := if client then 2 else 3 in
  open_topic correlation channel_id operation_kind name type_name 1 DEFAULT_QOS_DEPTH domain_id support_row_id.

Definition reliable_keep_last_qos (depth : Z) : CborValue :=
  Map [(1, Unsigned 1); (2, Unsigned 0); (3, Unsigned 1); (4, Unsigned depth)].

Definition open_action (correlation : bytes) (channel_id : Z) (client : bool) (name type_name : bytes) (domain_id : Z)
    (support_row_id : bytes) : V CborValue :=
  let operation_kind := if client then 4 else 5 in
  let qos := reliable_keep_last_qos DEFAULT_QOS_DEPTH in
  identity <-- resolve_open_schema_identity type_name support_row_id ;;
  Ok (open_message correlation channel_id operation_kind name type_name identity
        (58, Map [(1, qos); (2, qos); (3, qos); (4, qos); (5, qos)]) domain_id support_row_id).

Definition close_channel (correlation : bytes) (channel_id : Z) : CborValue :=
  Map [(1, Unsigned 10); (2, bytes_val correlation); (29, Unsigned channel_id); (34, Unsigned 1)].

Definition heartbeat (counter : Z) : CborValue :=
  Map [(1, Unsigned 12); (2, bytes_val ZERO_CORRELATION); (40, Unsigned counter)].

End Builder.
