(* ===== verification/Batch.v ===== *)
(** * The flat poll batches of the WASM host

    [rclweb/src/host/batch.rs]: the layout in which the host hands its events to
    [ClientEngine::poll] and gets the result of the poll back.  Decoding is a
    reader over the batch ([HostReader]); an encoder is the bytes it appends. *)

From S2P Require Import Prelude Utf8 HostReader Session EngineTypes.
From S2P Require PointCloud.
#[local] Open Scope Z_scope.

Definition BATCH_MAGIC : Z := 0x52434C42.
Definition RESULT_MAGIC : Z := 0x52434C52.
Definition LAYOUT_VERSION : Z := 1.
Definition FLAG_INLINE_WS_BYTES : Z := 0x0001.

Definition EVENT_WS_BYTES : Z := 1.
Definition EVENT_TIMER : Z := 2.
Definition EVENT_COMMAND : Z := 3.
Definition EVENT_RELEASE : Z := 4.

Definition CMD_START : Z := 1.
Definition CMD_AUTHENTICATE : Z := 2.
Definition CMD_SUBSCRIBE : Z := 3.
Definition CMD_UNSUBSCRIBE : Z := 4.
Definition CMD_CLOSE : Z := 5.
Definition CMD_PUBLISH : Z := 6.
Definition CMD_SEND_SAMPLE : Z := 7.
Definition CMD_OPEN_SERVICE : Z := 8.
Definition CMD_CALL_SERVICE : Z := 9.
Definition CMD_SEND_SERVICE_RESPONSE : Z := 10.
Definition CMD_OPEN_ACTION : Z := 11.
Definition CMD_SEND_ACTION_GOAL : Z := 12.
Definition CMD_CANCEL_ACTION : Z := 13.
Definition CMD_SEND_ACTION_FEEDBACK : Z := 14.
Definition CMD_SEND_ACTION_RESULT : Z := 15.
Definition CMD_SEND_ACTION_STATUS : Z := 16.
Definition CMD_SEND_POINT_CLOUD2 : Z := 17.
Definition CMD_SEND_GENERATED : Z := 18.

Definition APP_BOOTSTRAP_COMPLETE : Z := 1.
Definition APP_SESSION_READY : Z := 2.
Definition APP_SUBSCRIBED : Z := 3.
Definition APP_SUBSCRIBE_FAILED : Z := 4.
Definition APP_SAMPLE : Z := 5.
Definition APP_HEARTBEAT : Z := 6.
Definition APP_ERROR : Z := 7.
Definition APP_CLOSED : Z := 8.
Definition APP_PUBLISHED : Z := 9.
Definition APP_PUBLISH_FAILED : Z := 10.
Definition APP_SERVICE_READY : Z := 11.
Definition APP_SERVICE_FAILED : Z := 12.
Definition APP_SERVICE_REQUEST : Z := 13.
Definition APP_SERVICE_RESPONSE : Z := 14.
Definition APP_ACTION_READY : Z := 15.
Definition APP_ACTION_FAILED : Z := 16.
Definition APP_ACTION_GOAL : Z := 17.
Definition APP_ACTION_FEEDBACK : Z := 18.
Definition APP_ACTION_RESULT : Z := 19.
Definition APP_ACTION_STATUS : Z := 20.
Definition APP_GRAPH_SNAPSHOT : Z := 21.
Definition APP_GRAPH_DELTA : Z := 22.
Definition APP_OPERATION_CANCELLED : Z := 23.

Inductive BatchError := Truncated | BadMagic | BadVersion | BadKind | Limit.

(** The sizes rustc gives the elements of the two vectors the decoder reserves. *)
Class Sizes := { size_of_HostEvent : Z; size_of_PointField : Z }.

Section Batch.
Context `{Target} `{Sizes}.

(** ** Fields *)

Definition write_u16 (v : Z) : bytes := to_le 2 v.
Definition write_u32 (v : Z) : bytes := to_le 4 v.
Definition write_u64 (v : Z) : bytes := to_le 8 v.
Definition write_i32 (v : Z) : bytes := signed_le 4 v.
Definition write_i64 (v : Z) : bytes := signed_le 8 v.

(** [write_u16(out, s.len() as u16)] and the bytes; likewise with 32 bits. *)
Definition counted16 (s : bytes) : bytes := write_u16 (as_unsigned 16 (blen s)) ++ s.
Definition counted32 (s : bytes) : bytes := write_u32 (as_unsigned 32 (blen s)) ++ s.
(** The tag of a record: [[kind, 0, 0, 0]]. *)
Definition tag (kind : Z) : bytes := [kind; 0; 0; 0].

(** ** Encoding a batch *)

Definition encode_open_service_or_action (cmd : Z) (correlation : bytes) (channel_id : Z) (client : bool) (domain_id : Z)
    (name type_name : bytes) : bytes :=
  tag cmd ++ correlation ++ write_u32 channel_id ++ (flag client ++ [domain_id; 0; 0]) ++
  counted16 name ++ counted16 type_name.

Definition encode_opid_payload (cmd channel_id : Z) (operation_id payload : bytes) : bytes :=
  tag cmd ++ write_u32 channel_id ++ operation_id ++ counted32 payload.

(** The body [Subscribe] and [Publish] share. *)
Definition encode_open_topic (correlation : bytes) (channel_id : Z) (topic type_name : bytes)
    (qos_reliability qos_depth domain_id : Z) : bytes :=
  let depth := as_unsigned 16 (Z.min qos_depth u16_max) in
  correlation ++ write_u32 channel_id ++ [qos_reliability; domain_id] ++ write_u16 depth ++
  counted16 topic ++ counted16 type_name.

Definition encode_field (field : PointCloud.PointField) : bytes :=
  counted16 (PointCloud.pf_name field) ++ write_u32 (PointCloud.pf_offset field) ++
  [PointCloud.pf_datatype field] ++ write_u32 (PointCloud.pf_count field).

Definition encode_point_cloud (channel_id : Z) (header : PointCloud.Header) (height width : Z)
    (fields : list PointCloud.PointField) (point_step row_step : Z) (is_bigendian is_dense : bool) (data : bytes) : bytes :=
  write_u32 channel_id ++ write_u32 height ++ write_u32 width ++ write_u32 point_step ++ write_u32 row_step ++
  (flag is_bigendian ++ flag is_dense ++ [0; 0]) ++
  write_i32 (PointCloud.stamp_sec header) ++ write_u32 (PointCloud.stamp_nanosec header) ++
  counted16 (PointCloud.frame_id header) ++
  write_u32 (as_unsigned 32 (blen fields)) ++ concat (map encode_field fields) ++
  counted32 data.

Definition encode_command (cmd : AppCommand.t) : bytes :=
  match cmd with
  | AppCommand.Start transferable_arraybuffer webtransport =>
      tag CMD_START ++ flag transferable_arraybuffer ++ flag webtransport ++ [0; 0]
  | AppCommand.Authenticate correlation scheme token =>
      tag CMD_AUTHENTICATE ++ correlation ++ counted16 scheme ++ counted16 token
  | AppCommand.Subscribe correlation channel_id topic type_name qos_reliability qos_depth domain_id =>
      tag CMD_SUBSCRIBE ++ encode_open_topic correlation channel_id topic type_name qos_reliability qos_depth domain_id
  | AppCommand.Publish correlation channel_id topic type_name qos_reliability qos_depth domain_id =>
      tag CMD_PUBLISH ++ encode_open_topic correlation channel_id topic type_name qos_reliability qos_depth domain_id
  | AppCommand.SendSample channel_id string_data =>
      tag CMD_SEND_SAMPLE ++ write_u32 channel_id ++ counted32 string_data
  | AppCommand.OpenService correlation channel_id name type_name domain_id client =>
      encode_open_service_or_action CMD_OPEN_SERVICE correlation channel_id client domain_id name type_name
  | AppCommand.OpenAction correlation channel_id name type_name domain_id client =>
      encode_open_service_or_action CMD_OPEN_ACTION correlation channel_id client domain_id name type_name
  | AppCommand.CallService channel_id operation_id request =>
      encode_opid_payload CMD_CALL_SERVICE channel_id operation_id request
  | AppCommand.SendServiceResponse channel_id operation_id response =>
      encode_opid_payload CMD_SEND_SERVICE_RESPONSE channel_id operation_id response
  | AppCommand.SendActionGoal channel_id operation_id goal =>
      encode_opid_payload CMD_SEND_ACTION_GOAL channel_id operation_id goal
  | AppCommand.CancelAction channel_id operation_id =>
      tag CMD_CANCEL_ACTION ++ write_u32 channel_id ++ operation_id
  | AppCommand.SendActionFeedback channel_id operation_id feedback =>
      encode_opid_payload CMD_SEND_ACTION_FEEDBACK channel_id operation_id feedback
  | AppCommand.SendActionResult channel_id operation_id result =>
      encode_opid_payload CMD_SEND_ACTION_RESULT channel_id operation_id result
  | AppCommand.SendActionStatus channel_id operation_id status =>
      encode_opid_payload CMD_SEND_ACTION_STATUS channel_id operation_id status
  | AppCommand.SendPointCloud2 channel_id header height width fields point_step row_step is_bigendian is_dense data =>
      tag CMD_SEND_POINT_CLOUD2 ++
      encode_point_cloud channel_id header height width fields point_step row_step is_bigendian is_dense data
  | AppCommand.SendGenerated channel_id type_name value =>
      tag CMD_SEND_GENERATED ++ write_u32 channel_id ++ counted16 type_name ++ counted32 value
  | AppCommand.Unsubscribe correlation channel_id =>
      tag CMD_UNSUBSCRIBE ++ correlation ++ write_u32 channel_id
  | AppCommand.Close => tag CMD_CLOSE
  end.

Definition encode_host_event (event : HostEvent.t) : bytes :=
  match event with
  | HostEvent.WsBytes buffer_id bs => tag EVENT_WS_BYTES ++ write_u32 buffer_id ++ write_u32 0 ++ counted32 bs
  | HostEvent.Timer now_ms => tag EVENT_TIMER ++ write_u64 now_ms
  | HostEvent.Command cmd => tag EVENT_COMMAND ++ encode_command cmd
  | HostEvent.ReleaseLease lease_id => tag EVENT_RELEASE ++ write_u32 lease_id
  end.

Definition encode_host_batch_inline (events : list HostEvent.t) : bytes :=
  write_u32 BATCH_MAGIC ++ write_u16 LAYOUT_VERSION ++ write_u16 FLAG_INLINE_WS_BYTES ++
  write_u32 (as_unsigned 32 (blen events)) ++ concat (map encode_host_event events).

(** ** Decoding it: the state is [*offset], the argument [bytes] *)

#[local] Abbreviation Read := (HostReader.Read BatchError).
#[local] Abbreviation need := (HostReader.need Truncated).
#[local] Abbreviation take_str := (HostReader.take_text BadKind).

(** [Vec::with_capacity(n)]: more than [isize::MAX] bytes panics. *)
Definition with_capacity (size n : Z) : SM Z BatchError unit :=
  if n * size <=? isize_max then ret tt else lift Panic.

(** A byte read as a boolean. *)
Definition take_bool : Read bool := fun bs => b <~ take_byte bs ;; ret (negb (b =? 0)).

(** A counted text whose length was within the checked bytes; [rest] more bytes
    must follow it. *)
Definition read_counted_text (rest : Z) : Read bytes := fun bs =>
  len <~ take_le 2 bs ;;
  need (len + rest) bs ;;~
  take_str len bs.

(** [let len = read_u32(..); ...; bytes[*offset..*offset + len].to_vec()], with a
    length of [n] bytes. *)
Definition read_counted_bytes (n : Z) : Read bytes := fun bs =>
  len <~ take_le n bs ;;
  need len bs ;;~
  take_bytes len bs.

(** The text of [CMD_SEND_SAMPLE]. *)
Definition read_counted_text32 : Read bytes := fun bs =>
  string_len <~ take_le 4 bs ;;
  need string_len bs ;;~
  take_str string_len bs.

Definition read_u16_string : Read bytes := fun bs =>
  need 2 bs ;;~
  read_counted_text 0 bs.

Definition decode_opid_payload : Read (Z * bytes * bytes) := fun bs =>
  need 24 bs ;;~
  channel_id <~ take_le 4 bs ;;
  operation_id <~ take_bytes 16 bs ;;
  payload <~ read_counted_bytes 4 bs ;;
  ret (channel_id, operation_id, payload).

(** The body of [CMD_SUBSCRIBE] and [CMD_PUBLISH]. *)
Definition decode_open_topic
    (build : bytes -> Z -> bytes -> bytes -> Z -> Z -> Z -> AppCommand.t) : Read AppCommand.t := fun bs =>
  need 26 bs ;;~
  correlation <~ take_bytes 16 bs ;;
  channel_id <~ take_le 4 bs ;;
  qos_reliability <~ take_byte bs ;;
  domain_id <~ take_byte bs ;;
  qos_depth <~ take_le 2 bs ;;
  topic <~ read_counted_text 2 bs ;;
  type_name <~ read_counted_text 0 bs ;;
  ret (build correlation channel_id topic type_name qos_reliability qos_depth domain_id).

Definition decode_open_service_or_action (cmd : Z) : Read AppCommand.t := fun bs =>
  need 26 bs ;;~
  correlation <~ take_bytes 16 bs ;;
  channel_id <~ take_le 4 bs ;;
  client <~ take_bool bs ;;
  domain_id <~ take_byte bs ;;
  skip 2 bs ;;~
  name <~ read_counted_text 2 bs ;;
  type_name <~ read_counted_text 0 bs ;;
  ret (if cmd =? CMD_OPEN_SERVICE
       then AppCommand.OpenService correlation channel_id name type_name domain_id client
       else AppCommand.OpenAction correlation channel_id name type_name domain_id client).

Definition read_field : Read PointCloud.PointField := fun bs =>
  name <~ read_u16_string bs ;;
  need 9 bs ;;~
  field_offset <~ take_le 4 bs ;;
  datatype <~ take_byte bs ;;
  count <~ take_le 4 bs ;;
  ret {| PointCloud.pf_name := name; PointCloud.pf_offset := field_offset; PointCloud.pf_datatype := datatype;
         PointCloud.pf_count := count |}.

(** [Vec::with_capacity(n)], then [n] elements. *)
Definition read_vec {A} (size : Z) (m : Read A) (n : Z) : Read (list A) := fun bs =>
  with_capacity size n ;;~
  repeated m (Z.to_nat n) [] bs.

Definition decode_point_cloud : Read AppCommand.t := fun bs =>
  need 34 bs ;;~
  channel_id <~ take_le 4 bs ;;
  height <~ take_le 4 bs ;;
  width <~ take_le 4 bs ;;
  point_step <~ take_le 4 bs ;;
  row_step <~ take_le 4 bs ;;
  is_bigendian <~ take_bool bs ;;
  is_dense <~ take_bool bs ;;
  skip 2 bs ;;~
  stamp_sec <~ take_signed 4 bs ;;
  stamp_nanosec <~ take_le 4 bs ;;
  frame_id <~ read_u16_string bs ;;
  need 4 bs ;;~
  field_count <~ take_le 4 bs ;;
  fields <~ read_vec size_of_PointField read_field field_count bs ;;
  need 4 bs ;;~
  data <~ read_counted_bytes 4 bs ;;
  ret (AppCommand.SendPointCloud2 channel_id
         {| PointCloud.stamp_sec := stamp_sec; PointCloud.stamp_nanosec := stamp_nanosec; PointCloud.frame_id := frame_id |}
         height width fields point_step row_step is_bigendian is_dense data).

(** [let (channel_id, operation_id, payload) = decode_opid_payload(bytes, offset)?]. *)
Definition decode_operation (build : Z -> bytes -> bytes -> AppCommand.t) : Read AppCommand.t := fun bs =>
  r <~ decode_opid_payload bs ;;
  ret (build r.1.1 r.1.2 r.2).

Definition decode_command (cmd : Z) : Read AppCommand.t :=
  if cmd =? CMD_START then fun bs =>
    need 4 bs ;;~
    transferable <~ take_bool bs ;;
    webtransport <~ take_bool bs ;;
    skip 2 bs ;;~
    ret (AppCommand.Start transferable webtransport)
  else if cmd =? CMD_AUTHENTICATE then fun bs =>
    need 18 bs ;;~
    correlation <~ take_bytes 16 bs ;;
    scheme <~ read_counted_text 2 bs ;;
    token <~ read_counted_bytes 2 bs ;;
    ret (AppCommand.Authenticate correlation scheme token)
  else if cmd =? CMD_SUBSCRIBE then decode_open_topic AppCommand.Subscribe
  else if cmd =? CMD_PUBLISH then decode_open_topic AppCommand.Publish
  else if cmd =? CMD_SEND_SAMPLE then fun bs =>
    need 8 bs ;;~
    channel_id <~ take_le 4 bs ;;
    string_data <~ read_counted_text32 bs ;;
    ret (AppCommand.SendSample channel_id string_data)
  else if (cmd =? CMD_OPEN_SERVICE) || (cmd =? CMD_OPEN_ACTION) then decode_open_service_or_action cmd
  else if cmd =? CMD_CALL_SERVICE then decode_operation AppCommand.CallService
  else if cmd =? CMD_SEND_SERVICE_RESPONSE then decode_operation AppCommand.SendServiceResponse
  else if cmd =? CMD_SEND_ACTION_GOAL then decode_operation AppCommand.SendActionGoal
  else if cmd =? CMD_CANCEL_ACTION then fun bs =>
    need 20 bs ;;~
    channel_id <~ take_le 4 bs ;;
    operation_id <~ take_bytes 16 bs ;;
    ret (AppCommand.CancelAction channel_id operation_id)
  else if cmd =? CMD_SEND_ACTION_FEEDBACK then decode_operation AppCommand.SendActionFeedback
  else if cmd =? CMD_SEND_ACTION_RESULT then decode_operation AppCommand.SendActionResult
  else if cmd =? CMD_SEND_ACTION_STATUS then decode_operation AppCommand.SendActionStatus
  else if cmd =? CMD_UNSUBSCRIBE then fun bs =>
    need 20 bs ;;~
    correlation <~ take_bytes 16 bs ;;
    channel_id <~ take_le 4 bs ;;
    ret (AppCommand.Unsubscribe correlation channel_id)
  else if cmd =? CMD_CLOSE then fun _ => ret AppCommand.Close
  else if cmd =? CMD_SEND_POINT_CLOUD2 then decode_point_cloud
  else if cmd =? CMD_SEND_GENERATED then fun bs =>
    need 6 bs ;;~
    channel_id <~ take_le 4 bs ;;
    type_name <~ read_u16_string bs ;;
    need 4 bs ;;~
    value <~ read_counted_bytes 4 bs ;;
    ret (AppCommand.SendGenerated channel_id type_name value)
  else fun _ => throw BadKind.

(** A kind byte and its three bytes of padding. *)
Definition take_kind : Read Z := fun bs =>
  need 4 bs ;;~
  kind <~ take_byte bs ;;
  skip 3 bs ;;~
  ret kind.

Section Decode.
Context (resolve_ws : Z -> Z -> Z -> outcome BatchError bytes).

(** The body of the loop of [decode_host_batch]. *)
Definition decode_host_event (inline_ws : bool) : Read HostEvent.t := fun bs =>
  kind <~ take_kind bs ;;
  if kind =? EVENT_WS_BYTES then
    need 12 bs ;;~
    buffer_id <~ take_le 4 bs ;;
    ptr <~ take_le 4 bs ;;
    len <~ take_le 4 bs ;;
    payload <~ (if inline_ws then need len bs ;;~ take_bytes len bs else lift (resolve_ws buffer_id ptr len)) ;;
    ret (HostEvent.WsBytes buffer_id payload)
  else if kind =? EVENT_TIMER then
    need 8 bs ;;~
    now_ms <~ take_le 8 bs ;;
    ret (HostEvent.Timer now_ms)
  else if kind =? EVENT_COMMAND then
    cmd <~ take_kind bs ;;
    command <~ decode_command cmd bs ;;
    ret (HostEvent.Command command)
  else if kind =? EVENT_RELEASE then
    need 4 bs ;;~
    lease_id <~ take_le 4 bs ;;
    ret (HostEvent.ReleaseLease lease_id)
  else throw BadKind.

Definition read_host_batch : Read (list HostEvent.t) := fun bs =>
  need 12 bs ;;~
  magic <~ take_le 4 bs ;;
  lift (guard (magic =? BATCH_MAGIC) BadMagic) ;;~
  version <~ take_le 2 bs ;;
  lift (guard (version =? LAYOUT_VERSION) BadVersion) ;;~
  flags <~ take_le 2 bs ;;
  count <~ take_le 4 bs ;;
  read_vec size_of_HostEvent (decode_host_event (negb (Z.land flags FLAG_INLINE_WS_BYTES =? 0))) count bs.

Definition decode_host_batch (bs : bytes) : outcome BatchError (list HostEvent.t) := (read_host_batch bs 0).1.

End Decode.

(** ** Encoding the result of a poll *)

Definition phase_to_u8 (phase : SessionPhase) : Z :=
  match phase with
  | AwaitClientHello => 0
  | AwaitServerHello => 1
  | SelectedAwaitAuthenticate => 2
  | SelectedAwaitSessionReady => 3
  | Ready => 4
  | BootstrapFailed => 5
  | Failed => 6
  end.

Section Result.
Context (payload_view : Z -> Z * Z).

(** [let (ptr, len) = payload_view(lease_id); write_u32(out, ptr); write_u32(out, len);]. *)
Definition write_view (lease_id : Z) : bytes :=
  write_u32 (payload_view lease_id).1 ++ write_u32 (payload_view lease_id).2.

Definition encode_leased_opid_event (kind channel_id : Z) (operation_id : bytes) (lease_id sequence : Z) : bytes :=
  tag kind ++ write_u32 channel_id ++ operation_id ++ write_u32 lease_id ++ write_u64 sequence ++ write_view lease_id.

(** The arms of the failures and of the openings. *)
Definition encode_failed (kind channel_id code : Z) (message : bytes) : bytes :=
  tag kind ++ write_u32 channel_id ++ tag code ++ counted16 message.
Definition encode_ready (kind channel_id : Z) (name type_name : bytes) (client : bool) : bytes :=
  tag kind ++ write_u32 channel_id ++ (flag client ++ [0; 0; 0]) ++ counted16 name ++ counted16 type_name.

Definition encode_app_event (event : AppEvent.t) : bytes :=
  match event with
  | AppEvent.BootstrapComplete selected_wire_version => tag APP_BOOTSTRAP_COMPLETE ++ tag selected_wire_version
  | AppEvent.SessionReady support_row domain_id gateway_instance_id =>
      tag APP_SESSION_READY ++ tag domain_id ++ counted16 support_row ++ counted16 gateway_instance_id
  | AppEvent.Subscribed channel_id topic type_name =>
      tag APP_SUBSCRIBED ++ write_u32 channel_id ++ counted16 topic ++ counted16 type_name
  | AppEvent.SubscribeFailed channel_id code message => encode_failed APP_SUBSCRIBE_FAILED channel_id code message
  | AppEvent.Published channel_id topic type_name qos_reliability =>
      tag APP_PUBLISHED ++ write_u32 channel_id ++ tag qos_reliability ++ counted16 topic ++ counted16 type_name
  | AppEvent.PublishFailed channel_id code message => encode_failed APP_PUBLISH_FAILED channel_id code message
  | AppEvent.Sample channel_id lease_id sequence source_time_ns string_data =>
      tag APP_SAMPLE ++ write_u32 channel_id ++ write_u32 lease_id ++ write_u64 sequence ++ write_i64 source_time_ns ++
      write_view lease_id ++
      match string_data with
      | Some s => write_i32 (as_signed 32 (blen s)) ++ s
      | None => write_i32 (-1)
      end
  | AppEvent.Heartbeat counter => tag APP_HEARTBEAT ++ write_u64 counter
  | AppEvent.Error code message => tag APP_ERROR ++ tag code ++ counted16 message
  | AppEvent.Closed phase => tag APP_CLOSED ++ tag (phase_to_u8 phase)
  | AppEvent.ServiceReady channel_id name type_name client => encode_ready APP_SERVICE_READY channel_id name type_name client
  | AppEvent.ServiceFailed channel_id code message => encode_failed APP_SERVICE_FAILED channel_id code message
  | AppEvent.ServiceRequest channel_id operation_id lease_id sequence =>
      encode_leased_opid_event APP_SERVICE_REQUEST channel_id operation_id lease_id sequence
  | AppEvent.ServiceResponse channel_id operation_id lease_id sequence =>
      encode_leased_opid_event APP_SERVICE_RESPONSE channel_id operation_id lease_id sequence
  | AppEvent.ActionReady channel_id name type_name client => encode_ready APP_ACTION_READY channel_id name type_name client
  | AppEvent.ActionFailed channel_id code message => encode_failed APP_ACTION_FAILED channel_id code message
  | AppEvent.ActionGoal channel_id operation_id lease_id sequence =>
      encode_leased_opid_event APP_ACTION_GOAL channel_id operation_id lease_id sequence
  | AppEvent.ActionFeedback channel_id operation_id lease_id sequence =>
      encode_leased_opid_event APP_ACTION_FEEDBACK channel_id operation_id lease_id sequence
  | AppEvent.ActionResult channel_id operation_id lease_id sequence =>
      encode_leased_opid_event APP_ACTION_RESULT channel_id operation_id lease_id sequence
  | AppEvent.ActionStatus channel_id operation_id lease_id sequence =>
      encode_leased_opid_event APP_ACTION_STATUS channel_id operation_id lease_id sequence
  | AppEvent.GraphSnapshot generation nodes_json endpoints_json =>
      tag APP_GRAPH_SNAPSHOT ++ write_u64 generation ++ counted32 nodes_json ++ counted32 endpoints_json
  | AppEvent.GraphDelta generation => tag APP_GRAPH_DELTA ++ write_u64 generation
  | AppEvent.OperationCancelled channel_id code message => encode_failed APP_OPERATION_CANCELLED channel_id code message
  end.

Definition encode_outbound (msg : OutboundMessage) : bytes :=
  write_u32 (om_buffer_id msg) ++ write_u32 0 ++ counted32 (om_bytes msg).

Definition encode_released (released : ReleasedBuffer) : bytes :=
  write_u32 (rb_buffer_id released) ++ write_u32 (rb_len released).

Definition encode_poll_result_into (out : bytes) (outcome : PollOutcome) : bytes :=
  out ++
  write_u32 RESULT_MAGIC ++ write_u16 LAYOUT_VERSION ++ write_u16 0 ++
  write_u32 (as_unsigned 32 (blen (po_outbound outcome))) ++
  write_u32 (as_unsigned 32 (blen (po_events outcome))) ++
  write_u32 (as_unsigned 32 (blen (po_released_buffers outcome))) ++
  write_i64 (match po_next_deadline_ms outcome with Some ms => as_signed 64 ms | None => -1 end) ++
  concat (map encode_outbound (po_outbound outcome)) ++
  concat (map encode_app_event (po_events outcome)) ++
  concat (map encode_released (po_released_buffers outcome)).

End Result.
End Batch.
