(* ===== verification/BatchProofs.v ===== *)
(** * Poll batches: what they carry

    The typing of host events in a batch, that the decoder reads back what the
    encoder writes, and that it handles any bytes on a 64-bit target. *)

From S2P Require Import Prelude Utf8 HostReader Session EngineTypes Batch.
From S2P Require PointCloud BuilderProofs.
Import BuilderProofs(id_bytes).
#[local] Open Scope Z_scope.

(** ** The events a batch can carry *)

Definition text32 (s : bytes) : Prop := utf8_valid s = true /\ blen s <= u32_max.
Definition bytes16 (s : bytes) : Prop := bytes_ok s /\ blen s <= 65535.
Definition bytes32 (s : bytes) : Prop := bytes_ok s /\ blen s <= u32_max.

Section Typing.
Context `{Target} `{Sizes}.

(** A vector in memory takes at most [isize::MAX] bytes. *)
Definition vec_ok {A} (size : Z) (l : list A) : Prop := blen l <= u32_max /\ blen l * size <= isize_max.

Record field_typed (f : PointCloud.PointField) : Prop := {
  ft_name : text16 (PointCloud.pf_name f);
  ft_offset : is_unsigned 32 (PointCloud.pf_offset f);
  ft_datatype : is_byte (PointCloud.pf_datatype f);
  ft_count : is_unsigned 32 (PointCloud.pf_count f)
}.

Definition topic_typed (correlation : bytes) (id : Z) (topic type_name : bytes) (reliability depth domain_id : Z) : Prop :=
  id_bytes 16 correlation /\ is_unsigned 32 id /\ text16 topic /\ text16 type_name /\ is_byte reliability /\
  is_unsigned 16 depth /\ is_byte domain_id.
Definition endpoint_typed (correlation : bytes) (id : Z) (name type_name : bytes) (domain_id : Z) : Prop :=
  id_bytes 16 correlation /\ is_unsigned 32 id /\ text16 name /\ text16 type_name /\ is_byte domain_id.
Definition operation_typed (id : Z) (operation_id payload : bytes) : Prop :=
  is_unsigned 32 id /\ id_bytes 16 operation_id /\ bytes32 payload.

Definition command_typed (cmd : AppCommand.t) : Prop :=
  match cmd with
  | AppCommand.Start _ _ | AppCommand.Close => True
  | AppCommand.Authenticate correlation scheme token =>
      id_bytes 16 correlation /\ text16 scheme /\ bytes16 token
  | AppCommand.Subscribe correlation id topic type_name reliability depth domain_id
  | AppCommand.Publish correlation id topic type_name reliability depth domain_id =>
      topic_typed correlation id topic type_name reliability depth domain_id
  | AppCommand.SendSample id string_data => is_unsigned 32 id /\ text32 string_data
  | AppCommand.SendPointCloud2 id header height width fields point_step row_step _ _ data =>
      (is_unsigned 32 id /\ is_unsigned 32 height /\ is_unsigned 32 width /\ is_unsigned 32 point_step /\
       is_unsigned 32 row_step) /\
      (is_signed 32 (PointCloud.stamp_sec header) /\ is_unsigned 32 (PointCloud.stamp_nanosec header) /\
       text16 (PointCloud.frame_id header)) /\
      Forall field_typed fields /\ vec_ok size_of_PointField fields /\ bytes32 data
  | AppCommand.SendGenerated id type_name value => is_unsigned 32 id /\ text16 type_name /\ bytes32 value
  | AppCommand.OpenService correlation id name type_name domain_id _
  | AppCommand.OpenAction correlation id name type_name domain_id _ => endpoint_typed correlation id name type_name domain_id
  | AppCommand.CallService id operation_id payload | AppCommand.SendServiceResponse id operation_id payload
  | AppCommand.SendActionGoal id operation_id payload | AppCommand.SendActionFeedback id operation_id payload
  | AppCommand.SendActionResult id operation_id payload | AppCommand.SendActionStatus id operation_id payload =>
      operation_typed id operation_id payload
  | AppCommand.CancelAction id operation_id => is_unsigned 32 id /\ id_bytes 16 operation_id
  | AppCommand.Unsubscribe correlation id => id_bytes 16 correlation /\ is_unsigned 32 id
  end.

Definition event_typed (event : HostEvent.t) : Prop :=
  match event with
  | HostEvent.WsBytes buffer_id bs => is_unsigned 32 buffer_id /\ bytes32 bs
  | HostEvent.Timer now_ms => is_unsigned 64 now_ms
  | HostEvent.Command cmd => command_typed cmd
  | HostEvent.ReleaseLease lease_id => is_unsigned 32 lease_id
  end.

End Typing.

(** ** Reading back what was written *)

Section Reads.
Context `{Target} `{Sizes}.

Lemma blen_tag k : blen (tag k) = 4.
Proof. done. Qed.

Lemma blen_flag b : blen (flag b) = 1.
Proof. done. Qed.

Lemma blen_counted16 s : blen (counted16 s) = 2 + blen s.
Proof. unfold counted16, write_u16. by rewrite blen_app, blen_to_le. Qed.

Lemma blen_counted32 s : blen (counted32 s) = 4 + blen s.
Proof. unfold counted32, write_u32. by rewrite blen_app, blen_to_le. Qed.

Lemma reads_bool b : reads take_bool (flag b) b.
Proof. apply reads_flag. Qed.

Lemma reads_word16 v : is_unsigned 16 v -> reads (E := BatchError) (take_le 2) (write_u16 v) v.
Proof. apply (reads_le 2). Qed.
Lemma reads_word32 v : is_unsigned 32 v -> reads (E := BatchError) (take_le 4) (write_u32 v) v.
Proof. apply (reads_le 4). Qed.
Lemma reads_word64 v : is_unsigned 64 v -> reads (E := BatchError) (take_le 8) (write_u64 v) v.
Proof. apply (reads_le 8). Qed.
Lemma reads_i32 v : is_signed 32 v -> reads (E := BatchError) (take_signed 4) (write_i32 v) v.
Proof. by apply (reads_signed 4 32). Qed.
Lemma reads_id n s : id_bytes n s -> reads (E := BatchError) (take_bytes n) s s.
Proof. intros [_ Hl]. by apply reads_take. Qed.

Lemma reads_kind k : is_byte k -> reads take_kind (tag k) k.
Proof.
  intros Hk. unfold take_kind. apply (reads_need _ 4 (fun bs => kind <~ take_byte bs ;; skip 3 bs ;;~ ret kind)); [done |].
  apply (reads_bind take_byte _ [k] [0; 0; 0] k); [by apply reads_byte |].
  apply (reads_last (skip 3) (fun _ _ => ret k) [0; 0; 0] tt); [by apply reads_skip | apply reads_ret].
Qed.

(** A text and the bytes the check after its length also asks for. *)
Lemma reads_text_then {A} rest s s' (k : bytes -> Read BatchError A) a :
  text16 s -> 0 <= rest <= blen s' -> reads (k s) s' a ->
  reads (fun bs => x <~ read_counted_text rest bs ;; k x bs) (counted16 s ++ s') a.
Proof.
  intros [Hu Hl] Hr Hk. pose proof (blen_nonneg s). assert (Hw : is_unsigned 16 (blen s)) by (unfold is_unsigned; lia).
  unfold counted16. rewrite <- app_assoc, as_unsigned_small by done.
  apply (reads_assoc (take_le 2)). eapply reads_bind; [by apply reads_word16 |]. cbv beta.
  apply (reads_assoc (need Truncated (blen s + rest)) (fun _ => take_text BadKind (blen s)) k).
  apply (reads_need _ _ (fun bs => x <~ take_text BadKind (blen s) bs ;; k x bs)); [rewrite blen_app; lia |].
  eapply reads_bind; [by apply reads_text | done].
Qed.

Lemma reads_text16 s : text16 s -> reads (read_counted_text 0) (counted16 s) s.
Proof.
  intros Hs pre post Hb. pose proof (reads_text_then 0 s [] (fun x _ => ret x) s Hs ltac:(done) (reads_ret s)) as Hr.
  rewrite app_nil_r in Hr. specialize (Hr pre post Hb). unfold bind at 1 in Hr. by destruct (read_counted_text _ _ _) as [[] ?].
Qed.

Lemma reads_u16_string s : text16 s -> reads read_u16_string (counted16 s) s.
Proof.
  intros Hs. apply reads_need; [| by apply reads_text16]. rewrite blen_counted16. pose proof (blen_nonneg s). lia.
Qed.

Lemma reads_bytes16 s : bytes16 s -> reads (read_counted_bytes 2) (counted16 s) s.
Proof.
  intros [_ Hl]. pose proof (blen_nonneg s). unfold read_counted_bytes, counted16.
  rewrite as_unsigned_small by (unfold is_unsigned; lia).
  eapply reads_bind; [apply reads_word16; unfold is_unsigned; lia |]. cbv beta.
  apply reads_need; [lia |]. by apply reads_take.
Qed.

Lemma reads_text32 s : text32 s -> reads read_counted_text32 (counted32 s) s.
Proof.
  intros [Hu Hl]. pose proof (blen_nonneg s). unfold read_counted_text32, counted32.
  rewrite as_unsigned_small by (unfold is_unsigned, u32_max in *; lia).
  eapply reads_bind; [apply reads_word32; unfold is_unsigned, u32_max in *; lia |]. cbv beta.
  apply reads_need; [lia |]. by apply reads_text.
Qed.

Lemma reads_bytes32 s : bytes32 s -> reads (read_counted_bytes 4) (counted32 s) s.
Proof.
  intros [_ Hl]. pose proof (blen_nonneg s). unfold read_counted_bytes, counted32.
  rewrite as_unsigned_small by (unfold is_unsigned, u32_max in *; lia).
  eapply reads_bind; [apply reads_word32; unfold is_unsigned, u32_max in *; lia |]. cbv beta.
  apply reads_need; [lia |]. by apply reads_take.
Qed.

End Reads.

#[export] Hint Resolve reads_bool reads_word16 reads_word32 reads_word64 reads_i32 reads_id reads_kind reads_text16
  reads_u16_string reads_bytes16 reads_bytes32 reads_text32 : reads.

(** The lengths of what an encoder wrote. *)
Ltac batch_len :=
  rewrite ?blen_app, ?blen_tag, ?blen_flag, ?blen_counted16, ?blen_counted32;
  unfold write_u16, write_u32, write_u64, write_i32, write_i64, signed_le in *; rewrite ?blen_to_le, ?blen_cons, ?blen_nil;
  repeat match goal with H : id_bytes _ _ |- _ => destruct H as [_ H] end;
  repeat match goal with |- context [blen ?s] => lazymatch goal with H : 0 <= blen s |- _ => fail | _ => pose proof (blen_nonneg s) end end;
  lia.

(** One field after the other, texts with what follows them. *)
Ltac batch_step :=
  cbv beta;
  lazymatch goal with
  | |- reads (fun bs => bind (need ?e _ bs) (fun _ => @?k bs)) _ _ => apply (reads_need e _ k); [batch_len |]
  | |- reads (fun bs => bind (read_counted_text ?r bs) _) (_ ++ _) _ => apply reads_text_then; [done | batch_len |]
  | |- reads (fun bs => bind (skip ?n bs) (fun _ => @?k bs)) (_ ++ _) _ =>
      apply (reads_bind (skip n) (fun _ => k) _ _ tt); [by apply reads_skip |]
  | |- reads (fun bs => bind (skip ?n bs) (fun _ => @?k bs)) _ _ =>
      apply (reads_last (skip n) (fun _ => k) _ tt); [by apply reads_skip |]
  | |- reads (fun bs => bind _ _) (_ ++ _) _ => eapply reads_bind; [solve [auto with reads] |]
  | |- reads (fun bs => bind _ _) _ _ => eapply reads_last; [solve [auto with reads] |]
  | |- reads (fun _ => ret _) [] _ => apply reads_done
  end.

Section Commands.
Context `{Target} `{Sizes}.

Lemma cons_app {A} (x : A) l : x :: l = [x] ++ l.
Proof. done. Qed.

Lemma reads_open_topic build correlation id topic type_name reliability depth domain_id :
  topic_typed correlation id topic type_name reliability depth domain_id ->
  reads (decode_open_topic build) (encode_open_topic correlation id topic type_name reliability depth domain_id)
    (build correlation id topic type_name reliability depth domain_id).
Proof.
  intros (Hc & Hi & Ht & Hn & Hr & Hd & Hb). unfold decode_open_topic, encode_open_topic.
  assert (Hmin : as_unsigned 16 (Z.min depth u16_max) = depth)
    by (unfold is_unsigned, u16_max in *; rewrite Z.min_l by lia; by apply as_unsigned_small).
  rewrite Hmin, (cons_app reliability), <- !app_assoc. do 6 batch_step. repeat batch_step. done.
Qed.

Lemma reads_open_endpoint cmd correlation id name type_name domain_id client :
  endpoint_typed correlation id name type_name domain_id ->
  reads (fun bs => decode_open_service_or_action cmd bs)
    (correlation ++ write_u32 id ++ (flag client ++ [domain_id; 0; 0]) ++ counted16 name ++ counted16 type_name)
    (if cmd =? CMD_OPEN_SERVICE then AppCommand.OpenService correlation id name type_name domain_id client
     else AppCommand.OpenAction correlation id name type_name domain_id client).
Proof.
  intros (Hc & Hi & Hn & Ht & Hd). unfold decode_open_service_or_action. rewrite (cons_app domain_id), <- !app_assoc.
  repeat batch_step. done.
Qed.

Lemma reads_opid_payload id operation_id payload :
  operation_typed id operation_id payload ->
  reads decode_opid_payload (write_u32 id ++ operation_id ++ counted32 payload) (id, operation_id, payload).
Proof. intros (Hi & Ho & Hp). unfold decode_opid_payload. repeat batch_step. done. Qed.

Lemma reads_operation build id operation_id payload :
  operation_typed id operation_id payload ->
  reads (decode_operation build) (write_u32 id ++ operation_id ++ counted32 payload) (build id operation_id payload).
Proof. intros Ho. eapply reads_last; [by apply reads_opid_payload |]. by apply reads_done. Qed.

Lemma reads_field f : field_typed f -> reads read_field (encode_field f) f.
Proof. intros []. unfold read_field, encode_field. repeat batch_step. by destruct f. Qed.

(** The whole vector, allocated first. *)
Lemma reads_vec {A} size (m : Read BatchError A) (enc : A -> bytes) l :
  vec_ok size l -> Forall (fun x => reads m (enc x) x) l -> reads (read_vec size m (blen l)) (concat (map enc l)) l.
Proof.
  intros [_ Hv] Hl. unfold read_vec, with_capacity. destruct (Z.leb_spec (blen l * size) isize_max); [| lia].
  replace (Z.to_nat (blen l)) with (length l) by (unfold blen; lia). by apply (reads_repeated m enc l []).
Qed.

Lemma reads_point_cloud id header height width fields point_step row_step be dense data :
  command_typed (AppCommand.SendPointCloud2 id header height width fields point_step row_step be dense data) ->
  reads decode_point_cloud (encode_point_cloud id header height width fields point_step row_step be dense data)
    (AppCommand.SendPointCloud2 id header height width fields point_step row_step be dense data).
Proof.
  intros ((Hi & Hh & Hw & Hp & Hr) & (Hs & Hn & Hf) & Hfs & Hv & Hd). unfold decode_point_cloud, encode_point_cloud.
  pose proof (blen_nonneg fields). rewrite (as_unsigned_small 32 (blen fields)) by (destruct Hv; unfold is_unsigned, u32_max in *; lia).
  rewrite <- !app_assoc. do 13 batch_step.
  eapply reads_bind; [apply reads_word32; destruct Hv; unfold is_unsigned, u32_max in *; lia |]. cbv beta.
  eapply reads_bind; [apply (reads_vec _ _ encode_field); [done | by eapply Forall_impl; [exact Hfs | apply reads_field]] |].
  repeat batch_step. by destruct header.
Qed.

Lemma reads_command cmd :
  command_typed cmd -> reads (fun bs => c <~ take_kind bs ;; decode_command c bs) (encode_command cmd) cmd.
Proof.
  destruct cmd; cbn [command_typed encode_command]; intros Hc;
    unfold encode_opid_payload, encode_open_service_or_action;
    first [eapply reads_bind; [by apply reads_kind |]
          | rewrite <- (app_nil_r (tag _)); eapply reads_bind; [by apply reads_kind |]];
    cbv beta; match goal with |- reads (decode_command ?c) _ _ =>
      let d := eval cbv [decode_command Z.eqb Pos.eqb orb CMD_START CMD_AUTHENTICATE CMD_SUBSCRIBE CMD_UNSUBSCRIBE CMD_CLOSE
        CMD_PUBLISH CMD_SEND_SAMPLE CMD_OPEN_SERVICE CMD_CALL_SERVICE CMD_SEND_SERVICE_RESPONSE CMD_OPEN_ACTION
        CMD_SEND_ACTION_GOAL CMD_CANCEL_ACTION CMD_SEND_ACTION_FEEDBACK CMD_SEND_ACTION_RESULT CMD_SEND_ACTION_STATUS
        CMD_SEND_POINT_CLOUD2 CMD_SEND_GENERATED] in (decode_command c) in change (decode_command c) with d end.
  all: try by apply reads_operation.
  all: try by apply reads_open_topic.
  all: try by apply reads_point_cloud.
  all: try by apply (reads_open_endpoint CMD_OPEN_SERVICE).
  all: try by apply (reads_open_endpoint CMD_OPEN_ACTION).
  all: try by (destruct_and?; repeat batch_step).
Qed.

Section Events.
Context (resolve_ws : Z -> Z -> Z -> outcome BatchError bytes).

Lemma reads_event event : event_typed event -> reads (decode_host_event resolve_ws true) (encode_host_event event) event.
Proof.
  unfold decode_host_event.
  destruct event as [buffer_id b | now_ms | cmd | lease_id]; cbn [event_typed encode_host_event]; intros He;
    (eapply reads_bind; [by apply reads_kind |]);
    cbn [Z.eqb Pos.eqb EVENT_WS_BYTES EVENT_TIMER EVENT_COMMAND EVENT_RELEASE].
  - destruct He as [Hb [Hok Hl]]. pose proof (blen_nonneg b). unfold counted32.
    rewrite as_unsigned_small by (unfold is_unsigned, u32_max in *; lia). do 2 batch_step.
    eapply reads_bind; [by apply reads_word32 |]. eapply reads_bind; [apply reads_word32; unfold is_unsigned, u32_max in *; lia |].
    cbv beta. eapply reads_last; [apply reads_need; [lia |]; by apply reads_take |]. by apply reads_done.
  - by repeat batch_step.
  - apply (reads_group take_kind decode_command (fun c _ => ret (HostEvent.Command c))).
    eapply reads_last; [by apply reads_command |]. by apply reads_done.
  - by repeat batch_step.
Qed.

Lemma reads_batch events :
  Forall event_typed events -> vec_ok size_of_HostEvent events ->
  reads (read_host_batch resolve_ws) (encode_host_batch_inline events) events.
Proof.
  intros He Hv. pose proof (blen_nonneg events). unfold read_host_batch, encode_host_batch_inline.
  rewrite (as_unsigned_small 32 (blen events)) by (destruct Hv; unfold is_unsigned, u32_max in *; lia).
  batch_step. eapply reads_bind; [by apply reads_word32 |].
  apply reads_guard; [done |].
  eapply reads_bind; [by apply reads_word16 |].
  apply reads_guard; [done |].
  eapply reads_bind; [by apply reads_word16 |].
  eapply reads_bind; [apply reads_word32; destruct Hv; unfold is_unsigned, u32_max in *; lia |]. cbv beta.
  change (negb (Z.land FLAG_INLINE_WS_BYTES FLAG_INLINE_WS_BYTES =? 0)) with true.
  apply (reads_vec _ _ encode_host_event); [done |].
  eapply Forall_impl; [exact He | apply reads_event].
Qed.

Lemma batch_read_back events :
  Forall event_typed events -> vec_ok size_of_HostEvent events -> blen (encode_host_batch_inline events) <= isize_max ->
  decode_host_batch resolve_ws (encode_host_batch_inline events) = Ok events.
Proof.
  intros He Hv Hl. unfold decode_host_batch. pose proof (reads_batch events He Hv [] []) as Hr.
  rewrite app_nil_l, app_nil_r in Hr. change (blen (@nil Z)) with 0 in Hr. by rewrite Hr.
Qed.

End Events.
End Commands.

(** ** Decoding any input *)

(** rustc's element sizes are far below this bound. *)
Definition small_sizes `{Sizes} : Prop := 0 <= size_of_HostEvent <= 2147483648 /\ 0 <= size_of_PointField <= 2147483648.

Section Decoding.
#[local] Set Default Proof Using "All".
Context `{Target} `{Sizes} {bs : bytes} {Hinput : Input bs}.
#[local] Abbreviation decodes := (HostReader.decodes (E := BatchError) bs).
#[local] Abbreviation fits := (HostReader.fits (E := BatchError) bs).

Lemma wp_counted_text rest o :
  0 <= rest <= 65535 -> 0 <= o -> o + 2 <= blen bs ->
  wp (read_counted_text rest bs) (fun s o' => text16 s /\ 0 <= o' /\ o' + rest <= blen bs) (fun _ _ => True) o.
Proof.
  intros Hr Ho Hl. unfold read_counted_text. apply wp_bind, wp_take_le; [lia.. |]. intros n Hn. unfold is_unsigned in Hn.
  pose proof (input_wide (bs := bs)) as Hw. pose proof (proj2 (input_slice (bs := bs))). pose proof isize_le_usize.
  unfold wide, u64_max in Hw. apply wp_bind. unfold need. apply wp_bind, wp_gets. unfold id. usz.
  destruct (Z.ltb_spec (blen bs) (o + 2 + (n + rest))); [done |]. apply wp_ret, wp_text; [lia.. | | done].
  intros s Hu Hs. split; [split; [done | lia] | lia].
Qed.

Lemma fits_counted_text {A} rest k (P : A -> Prop) (f : bytes -> Read BatchError A) :
  2 <= k -> 0 <= rest <= 65535 -> (forall s, text16 s -> fits rest P (f s)) ->
  fits k P (fun bs => s <~ read_counted_text rest bs ;; f s bs).
Proof.
  intros Hk Hr Hf o Ho Hl. apply wp_bind. eapply wp_mono; [apply wp_counted_text; lia | | done].
  intros s o' (Hs & H1 & H2). by apply Hf.
Qed.

Lemma fits_bool {A} k (P : A -> Prop) (f : bool -> Read BatchError A) :
  1 <= k -> (forall b, fits (k - 1) P (f b)) -> fits k P (fun bs => b <~ take_bool bs ;; f b bs).
Proof.
  intros Hk Hf o Ho Hl. apply wp_bind. unfold take_bool. apply wp_bind.
  pose proof (fits_byte k P (fun b => f (negb (b =? 0))) Hk (fun v _ => Hf _) o Ho Hl) as Hb.
  revert Hb. unfold wp, bind, ret. by destruct (take_byte bs o) as [[] ?].
Qed.

Lemma decodes_u16_string : decodes text16 read_u16_string.
Proof.
  apply decodes_need; [unfold u32_max; lia |]. intros o Ho Hl.
  eapply wp_mono; [apply wp_counted_text; lia | | done]. intros s o' (Hs & H1 & H2). split; [done | split; lia].
Qed.

Lemma fits_counted_bytes n k : 1 <= n <= 4 -> n <= k -> fits k (fun s => bytes_ok s /\ blen s < 256 ^ n) (read_counted_bytes n).
Proof.
  intros Hn Hk. apply fits_le; [lia |]. intros len Hlen. unfold is_unsigned in Hlen. apply fits_end; [lia |].
  assert (2 ^ (8 * n) <= 2 ^ 32) by (apply Z.pow_le_mono_r; lia).
  apply decodes_need; [unfold u32_max; lia |]. intros o Ho Hl. apply wp_take; [lia.. |]. intros s Hs Hb.
  split; [split; [done |] | split; lia]. rewrite Hs. change 256 with (2 ^ 8). rewrite <- Z.pow_mul_r by lia. lia.
Qed.

Lemma fits_counted_text32 : fits 4 text32 read_counted_text32.
Proof.
  apply fits_le; [lia |]. intros len Hlen. unfold is_unsigned in Hlen. apply fits_end; [lia |].
  apply decodes_need; [unfold u32_max; lia |]. intros o Ho Hl. apply wp_text; [lia.. | | done].
  intros s Hs Hb. split; [split; [done | unfold u32_max; lia] | split; lia].
Qed.

(** A vector of a 32-bit count is allocated, then filled. *)
Lemma decodes_vec {A} size n (P : A -> Prop) (m : Read BatchError A) :
  0 <= size <= 2147483648 -> is_unsigned 32 n -> decodes P m ->
  decodes (fun l => Forall P l /\ vec_ok size l) (read_vec size m n).
Proof.
  intros Hs Hn Hm. unfold is_unsigned in Hn. pose proof (input_wide (bs := bs)) as Hw. pose proof isize_le_usize as Hi.
  unfold wide, u64_max in Hw. assert (Hsize : n * size <= 4294967295 * 2147483648) by (apply Z.mul_le_mono_nonneg; lia).
  unfold read_vec, with_capacity. destruct (Z.leb_spec (n * size) isize_max) as [Hc |]; [| lia]. intros o Ho.
  eapply wp_mono; [apply (decodes_repeated P m (Z.to_nat n) [] Hm ltac:(constructor) o Ho) | | done].
  intros l o' [[Hf Hl] Hin]. split; [| done]. split; [done |]. unfold vec_ok.
  assert (blen l = n) as -> by (unfold blen; cbn in Hl; lia). split; [unfold u32_max; lia | done].
Qed.

Lemma decodes_field : decodes field_typed read_field.
Proof.
  apply (decodes_bind text16 _ read_u16_string); [apply decodes_u16_string |]. intros name Hname.
  apply decodes_need; [unfold u32_max; lia |]. do 3 field_step. apply fits_end; [lia |]. by apply decodes_ret.
Qed.

End Decoding.

(** The fields of a batch record. *)
Ltac batch_field :=
  lazymatch goal with
  | |- fits _ _ _ (fun bs => bind (take_bool bs) _) => apply fits_bool; [lia |]; intros ?
  | |- fits _ _ _ (fun bs => bind (take_bytes _ bs) _) => apply fits_take; [lia |]; intros ? ? ?
  | |- fits _ _ _ (fun bs => bind (skip ?n bs) (fun _ => @?k bs)) => apply (fits_skip n _ _ k); [lia |]
  | |- fits _ _ _ (fun bs => bind (read_counted_text _ bs) _) => apply fits_counted_text; [lia | lia |]; intros ? ?
  | |- fits _ _ _ (fun bs => ret _) => apply fits_end; [lia | apply decodes_ret]
  | |- fits _ _ _ (fun bs => bind (need _ _ bs) _) => apply fits_end; [lia |]
  | |- fits _ _ _ (fun bs => bind (read_u16_string bs) _) => apply fits_end; [lia |]
  | |- decodes _ _ (fun bs => bind (read_u16_string bs) _) =>
      eapply decodes_bind; [apply decodes_u16_string |]; intros ? ?
  | |- decodes _ _ (fun bs => bind (need _ _ bs) _) => apply decodes_need; [unfold u32_max; lia |]
  | |- fits _ _ _ (fun bs => bind (read_counted_bytes ?n bs) _) =>
      eapply fits_bind; [apply fits_counted_bytes; lia |]; intros ? []
  | |- fits _ _ _ (fun bs => bind (read_counted_text32 bs) _) =>
      eapply fits_bind; [apply fits_counted_text32; lia |]; intros ? ?
  | |- decodes _ _ (fun bs => ret _) => apply decodes_ret
  | |- _ => field_step
  end.

Section Commands.
#[local] Set Default Proof Using "All".
Context `{Target} `{Sizes} {bs : bytes} {Hinput : Input bs} (Hsizes : small_sizes).
#[local] Abbreviation decodes := (HostReader.decodes (E := BatchError) bs).

Lemma bytes32_of s : bytes_ok s -> blen s < 256 ^ 4 -> bytes32 s.
Proof. intros Hb Hl. split; [done | unfold u32_max; lia]. Qed.

Lemma decodes_open_topic (build : bytes -> Z -> bytes -> bytes -> Z -> Z -> Z -> AppCommand.t) (P : AppCommand.t -> Prop) :
  (forall c i t n r d dom, topic_typed c i t n r d dom -> P (build c i t n r d dom)) -> decodes P (decode_open_topic build).
Proof. intros Hb. unfold decode_open_topic. repeat batch_field. apply Hb. done. Qed.

Lemma decodes_open_endpoint cmd : decodes command_typed (decode_open_service_or_action cmd).
Proof. unfold decode_open_service_or_action. repeat batch_field. destruct (cmd =? CMD_OPEN_SERVICE); done. Qed.

Lemma decodes_operation (build : Z -> bytes -> bytes -> AppCommand.t) (P : AppCommand.t -> Prop) :
  (forall i o p, operation_typed i o p -> P (build i o p)) -> decodes P (decode_operation build).
Proof.
  intros Hb. unfold decode_operation.
  apply (decodes_bind (fun r => operation_typed r.1.1 r.1.2 r.2) _ decode_opid_payload).
  - unfold decode_opid_payload. repeat batch_field. split; [done | split; [done |]]. by apply bytes32_of.
  - intros r Hr. by apply decodes_ret, Hb.
Qed.

Lemma decodes_point_cloud : decodes command_typed decode_point_cloud.
Proof.
  unfold decode_point_cloud. repeat batch_field. apply fits_end; [lia |].
  eapply decodes_bind; [apply (decodes_vec size_of_PointField _ field_typed); [apply Hsizes | done | apply decodes_field] |].
  intros fields [Hf Hv]. repeat batch_field. cbn. split_and?; try done. by apply bytes32_of.
Qed.

Lemma decodes_command cmd : decodes command_typed (decode_command cmd).
Proof.
  unfold decode_command.
  repeat match goal with |- HostReader.decodes _ _ (if ?c then _ else _) => destruct c end.
  all: try apply decodes_point_cloud.
  all: try by apply decodes_operation.
  all: try by apply decodes_open_topic.
  all: try apply decodes_open_endpoint.
  all: try by (repeat batch_field).
  - repeat batch_field. split; [done | split; [done |]]. split; [done | lia].
  - repeat batch_field. split; [done | split; [done |]]. by apply bytes32_of.
Qed.

Lemma decodes_kind : decodes is_byte take_kind.
Proof. unfold take_kind. repeat batch_field. done. Qed.

(** What the host resolves is a byte vector of the length it was asked for. *)
Context (resolve_ws : Z -> Z -> Z -> outcome BatchError bytes)
  (Hresolve : forall id ptr len, match resolve_ws id ptr len with
                                 | Ok b => bytes_ok b /\ blen b <= u32_max
                                 | Err _ => True
                                 | Panic => False
                                 end).

Lemma decodes_event inline_ws : decodes event_typed (decode_host_event resolve_ws inline_ws).
Proof.
  unfold decode_host_event. eapply decodes_bind; [apply decodes_kind |]. intros kind _.
  destruct (kind =? EVENT_WS_BYTES); [| destruct (kind =? EVENT_TIMER); [| destruct (kind =? EVENT_COMMAND);
    [| destruct (kind =? EVENT_RELEASE)]]].
  - repeat batch_field. apply fits_end; [lia |]. apply (decodes_bind bytes32).
    + destruct inline_ws.
      * unfold is_unsigned in *. batch_field. intros o Ho Hl. apply wp_take; [lia.. |]. intros s Hs Hb.
        split; [split; [done | unfold u32_max; lia] | split; lia].
      * intros o Ho. unfold wp, lift. specialize (Hresolve v v0 v1). by destruct (resolve_ws v v0 v1).
    + intros payload Hp. by batch_field.
  - by repeat batch_field.
  - eapply decodes_bind; [apply decodes_kind |]. intros cmd _. eapply decodes_bind; [apply decodes_command |].
    intros c Hc. by batch_field.
  - by repeat batch_field.
  - by intros o Ho.
Qed.

Lemma fits_guard {A} c (e : BatchError) k (P : A -> Prop) (m : Read BatchError A) :
  HostReader.fits bs k P m -> HostReader.fits bs k P (fun bs => lift (guard c e) ;;~ m bs).
Proof. intros Hm o Ho Hl. destruct c; [by apply Hm | done]. Qed.

Lemma decodes_batch : decodes (fun es => Forall event_typed es /\ vec_ok size_of_HostEvent es) (read_host_batch resolve_ws).
Proof.
  unfold read_host_batch. repeat batch_field. apply (fits_guard _ _ _ _ (fun bs => bind (take_le 2 bs) _)).
  batch_field. apply (fits_guard _ _ _ _ (fun bs => bind (take_le 2 bs) _)). repeat batch_field. apply fits_end; [lia |].
  apply (decodes_vec size_of_HostEvent); [apply Hsizes | done | apply decodes_event].
Qed.

Lemma batch_typed :
  match decode_host_batch resolve_ws bs with
  | Ok es => Forall event_typed es /\ vec_ok size_of_HostEvent es
  | Err _ => True
  | Panic => False
  end.
Proof.
  unfold decode_host_batch. pose proof (decodes_batch 0) as Hd. unfold wp in Hd.
  destruct (read_host_batch resolve_ws bs 0) as [[es | |] o]; [| done |];
    apply Hd; (split; [lia | apply blen_nonneg]).
Qed.

End Commands.
