(* ===== verification/Sdk.v ===== *)
(** * How the SDK reads the result of a poll

    [decodePollResult] of [typescript/src/wasm/abi.ts], the reader of what
    [encode_poll_result_into] writes.  Where the SDK would read [undefined] past
    the end of the result the model panics; [decode_invalid] is what
    [TextDecoder] makes of bytes that are not UTF-8. *)

From S2P Require Import Prelude Utf8 HostReader Session EngineTypes Batch.
#[local] Open Scope Z_scope.

Inductive SdkError := PollResultTruncated | PollResultBadMagic | PollResultBadVersion | UnknownAppEventKind (kind : Z).

Module SdkEvent.

Inductive t :=
| bootstrapComplete (selectedWireVersion : Z)
| sessionReady (domainId : Z) (supportRow gatewayInstanceId : bytes)
| subscribed (channelId : Z) (topic typeName : bytes)
| subscribeFailed (channelId code : Z) (message : bytes)
| published (channelId : Z) (topic typeName : bytes) (qosReliability : Z)
| publishFailed (channelId code : Z) (message : bytes)
| sample (channelId leaseId sequence sourceTimeNs payloadPtr payloadLen : Z) (stringData : option bytes)
| heartbeat (counter : Z)
| error (code : Z) (message : bytes)
| closed (phase : Z)
| serviceReady (channelId : Z) (name typeName : bytes) (client : bool)
| serviceFailed (channelId code : Z) (message : bytes)
| serviceRequest (channelId : Z) (operationId : bytes) (leaseId sequence payloadPtr payloadLen : Z)
| serviceResponse (channelId : Z) (operationId : bytes) (leaseId sequence payloadPtr payloadLen : Z)
| actionReady (channelId : Z) (name typeName : bytes) (client : bool)
| actionFailed (channelId code : Z) (message : bytes)
| actionGoal (channelId : Z) (operationId : bytes) (leaseId sequence payloadPtr payloadLen : Z)
| actionFeedback (channelId : Z) (operationId : bytes) (leaseId sequence payloadPtr payloadLen : Z)
| actionResult (channelId : Z) (operationId : bytes) (leaseId sequence payloadPtr payloadLen : Z)
| actionStatus (channelId : Z) (operationId : bytes) (leaseId sequence payloadPtr payloadLen : Z)
| graphSnapshot (generation : Z) (nodesJson endpointsJson : bytes)
| graphDelta (generation : Z)
| operationCancelled (channelId code : Z) (message : bytes).

End SdkEvent.

Record PollResult := mk_poll_result {
  outbound : list (Z * bytes);
  events : list SdkEvent.t;
  released : list (Z * Z);
  nextDeadlineMs : option Z
}.

Section Sdk.
Context `{Target} (decode_invalid : bytes -> bytes).
#[local] Abbreviation Read := (HostReader.Read SdkError).

(** [new TextDecoder().decode(b)]: a byte order mark at the start is dropped. *)
Definition BOM : bytes := [239; 187; 191].
Definition td_decode (b : bytes) : bytes :=
  if utf8_valid b then (if bool_decide (take 3 b = BOM) then drop 3 b else b) else decode_invalid b.

Definition readU16 : Read Z := take_le 2.
Definition readU32 : Read Z := take_le 4.
Definition readU64 : Read Z := take_le 8.
Definition readI64 : Read Z := take_signed 8.
Definition readI32 : Read Z := take_signed 4.

(** [bytes[offset]!], then [offset += 4]. *)
Definition padded : Read Z := fun bs =>
  b <~ take_byte bs ;;
  skip 3 bs ;;~
  ret b.

(** A length read before it, then [td.decode(bytes.subarray(offset, offset + len))]. *)
Definition sdk_text (len : Read Z) : Read bytes := fun bs =>
  n <~ len bs ;;
  s <~ take_bytes n bs ;;
  ret (td_decode s).
Definition sdk_text16 : Read bytes := sdk_text readU16.
Definition sdk_text32 : Read bytes := sdk_text readU32.

(** [case APP_SUBSCRIBE_FAILED] and the other failures. *)
Definition read_failed (event : Z -> Z -> bytes -> SdkEvent.t) : Read SdkEvent.t := fun bs =>
  channelId <~ readU32 bs ;;
  code <~ padded bs ;;
  message <~ sdk_text16 bs ;;
  ret (event channelId code message).

Definition read_ready (event : Z -> bytes -> bytes -> bool -> SdkEvent.t) : Read SdkEvent.t := fun bs =>
  channelId <~ readU32 bs ;;
  client <~ padded bs ;;
  name <~ sdk_text16 bs ;;
  typeName <~ sdk_text16 bs ;;
  ret (event channelId name typeName (negb (client =? 0))).

Definition read_operation (event : Z -> bytes -> Z -> Z -> Z -> Z -> SdkEvent.t) : Read SdkEvent.t := fun bs =>
  channelId <~ readU32 bs ;;
  operationId <~ take_bytes 16 bs ;;
  leaseId <~ readU32 bs ;;
  sequence <~ readU64 bs ;;
  payloadPtr <~ readU32 bs ;;
  payloadLen <~ readU32 bs ;;
  ret (event channelId operationId leaseId sequence payloadPtr payloadLen).

Definition read_sample : Read SdkEvent.t := fun bs =>
  channelId <~ readU32 bs ;;
  leaseId <~ readU32 bs ;;
  sequence <~ readU64 bs ;;
  sourceTimeNs <~ readI64 bs ;;
  payloadPtr <~ readU32 bs ;;
  payloadLen <~ readU32 bs ;;
  stringLen <~ readI32 bs ;;
  stringData <~ (if 0 <=? stringLen then s <~ take_bytes stringLen bs ;; ret (Some (td_decode s)) else ret None) ;;
  ret (SdkEvent.sample channelId leaseId sequence sourceTimeNs payloadPtr payloadLen stringData).

(** The arms of the [switch (kind)]. *)
Definition read_app_event (kind : Z) : Read SdkEvent.t :=
  if kind =? APP_BOOTSTRAP_COMPLETE then fun bs => v <~ padded bs ;; ret (SdkEvent.bootstrapComplete v)
  else if kind =? APP_SESSION_READY then fun bs =>
    domainId <~ padded bs ;;
    supportRow <~ sdk_text16 bs ;;
    gatewayInstanceId <~ sdk_text16 bs ;;
    ret (SdkEvent.sessionReady domainId supportRow gatewayInstanceId)
  else if kind =? APP_SUBSCRIBED then fun bs =>
    channelId <~ readU32 bs ;;
    topic <~ sdk_text16 bs ;;
    typeName <~ sdk_text16 bs ;;
    ret (SdkEvent.subscribed channelId topic typeName)
  else if kind =? APP_SUBSCRIBE_FAILED then read_failed SdkEvent.subscribeFailed
  else if kind =? APP_PUBLISHED then fun bs =>
    channelId <~ readU32 bs ;;
    qosReliability <~ padded bs ;;
    topic <~ sdk_text16 bs ;;
    typeName <~ sdk_text16 bs ;;
    ret (SdkEvent.published channelId topic typeName qosReliability)
  else if kind =? APP_PUBLISH_FAILED then read_failed SdkEvent.publishFailed
  else if kind =? APP_SAMPLE then read_sample
  else if kind =? APP_HEARTBEAT then fun bs => counter <~ readU64 bs ;; ret (SdkEvent.heartbeat counter)
  else if kind =? APP_ERROR then fun bs =>
    code <~ padded bs ;;
    message <~ sdk_text16 bs ;;
    ret (SdkEvent.error code message)
  else if kind =? APP_CLOSED then fun bs => phase <~ padded bs ;; ret (SdkEvent.closed phase)
  else if kind =? APP_SERVICE_READY then read_ready SdkEvent.serviceReady
  else if kind =? APP_ACTION_READY then read_ready SdkEvent.actionReady
  else if kind =? APP_SERVICE_FAILED then read_failed SdkEvent.serviceFailed
  else if kind =? APP_ACTION_FAILED then read_failed SdkEvent.actionFailed
  else if kind =? APP_OPERATION_CANCELLED then read_failed SdkEvent.operationCancelled
  else if kind =? APP_SERVICE_REQUEST then read_operation SdkEvent.serviceRequest
  else if kind =? APP_SERVICE_RESPONSE then read_operation SdkEvent.serviceResponse
  else if kind =? APP_ACTION_GOAL then read_operation SdkEvent.actionGoal
  else if kind =? APP_ACTION_FEEDBACK then read_operation SdkEvent.actionFeedback
  else if kind =? APP_ACTION_RESULT then read_operation SdkEvent.actionResult
  else if kind =? APP_ACTION_STATUS then read_operation SdkEvent.actionStatus
  else if kind =? APP_GRAPH_SNAPSHOT then fun bs =>
    generation <~ readU64 bs ;;
    nodesJson <~ sdk_text32 bs ;;
    endpointsJson <~ sdk_text32 bs ;;
    ret (SdkEvent.graphSnapshot generation nodesJson endpointsJson)
  else if kind =? APP_GRAPH_DELTA then fun bs => generation <~ readU64 bs ;; ret (SdkEvent.graphDelta generation)
  else fun _ => throw (UnknownAppEventKind kind).

Definition read_event : Read SdkEvent.t := fun bs => kind <~ padded bs ;; read_app_event kind bs.

Definition read_outbound : Read (Z * bytes) := fun bs =>
  bufferId <~ readU32 bs ;;
  ptr <~ readU32 bs ;;
  len <~ readU32 bs ;;
  payload <~ take_bytes len bs ;;
  ret (bufferId, payload).

Definition read_released : Read (Z * Z) := fun bs =>
  bufferId <~ readU32 bs ;;
  len <~ readU32 bs ;;
  ret (bufferId, len).

Definition deadline_ms (raw : Z) : option Z := if raw <? 0 then None else Some raw.

(** A field at a fixed offset. *)
Definition peek {A} (m : Read A) (offset : Z) : Read A := fun bs => lift (m bs offset).1.

(** The shortcut for a result that holds one sample and nothing else. *)
Definition lone_sample (bs : bytes) (outboundCount eventCount releasedCount : Z) : bool :=
  (outboundCount =? 0) && (eventCount =? 1) && (releasedCount =? 0) && (blen bs =? 68) &&
  match get bs 28 with Some b => b =? APP_SAMPLE | None => false end &&
  match (readI32 bs 64).1 with Ok n => n <? 0 | _ => false end.

Definition read_lone_sample : Read PollResult := fun bs =>
  deadlineRaw <~ peek readI64 20 bs ;;
  channelId <~ peek readU32 32 bs ;;
  leaseId <~ peek readU32 36 bs ;;
  sequence <~ peek readU64 40 bs ;;
  sourceTimeNs <~ peek readI64 48 bs ;;
  payloadPtr <~ peek readU32 56 bs ;;
  payloadLen <~ peek readU32 60 bs ;;
  ret (mk_poll_result [] [SdkEvent.sample channelId leaseId sequence sourceTimeNs payloadPtr payloadLen None] []
         (deadline_ms deadlineRaw)).

(** The loops, from the deadline on. *)
Definition read_result_body (outboundCount eventCount releasedCount : Z) : Read PollResult := fun bs =>
  deadlineRaw <~ readI64 bs ;;
  sent <~ repeated read_outbound (Z.to_nat outboundCount) [] bs ;;
  evs <~ repeated read_event (Z.to_nat eventCount) [] bs ;;
  rel <~ repeated read_released (Z.to_nat releasedCount) [] bs ;;
  ret (mk_poll_result sent evs rel (deadline_ms deadlineRaw)).

(** The checks and the counts. *)
Definition read_counts : Read (Z * Z * Z) := fun bs =>
  need PollResultTruncated 28 bs ;;~
  magic <~ readU32 bs ;;
  lift (guard (magic =? RESULT_MAGIC) PollResultBadMagic) ;;~
  version <~ readU16 bs ;;
  lift (guard (version =? LAYOUT_VERSION) PollResultBadVersion) ;;~
  skip 2 bs ;;~
  outboundCount <~ readU32 bs ;;
  eventCount <~ readU32 bs ;;
  releasedCount <~ readU32 bs ;;
  ret (outboundCount, eventCount, releasedCount).

Definition read_poll_result : Read PollResult := fun bs =>
  c <~ read_counts bs ;;
  if lone_sample bs c.1.1 c.1.2 c.2 then read_lone_sample bs else read_result_body c.1.1 c.1.2 c.2 bs.

Definition decodePollResult (bs : bytes) : outcome SdkError PollResult := (read_poll_result bs 0).1.

(** ** What the SDK should see *)

Definition sdk_event (view : Z -> Z * Z) (event : AppEvent.t) : SdkEvent.t :=
  match event with
  | AppEvent.BootstrapComplete v => SdkEvent.bootstrapComplete v
  | AppEvent.SessionReady row domain gateway => SdkEvent.sessionReady domain (td_decode row) (td_decode gateway)
  | AppEvent.Subscribed id topic type_name => SdkEvent.subscribed id (td_decode topic) (td_decode type_name)
  | AppEvent.SubscribeFailed id code message => SdkEvent.subscribeFailed id code (td_decode message)
  | AppEvent.Published id topic type_name r => SdkEvent.published id (td_decode topic) (td_decode type_name) r
  | AppEvent.PublishFailed id code message => SdkEvent.publishFailed id code (td_decode message)
  | AppEvent.Sample id lease seq time s =>
      SdkEvent.sample id lease seq time (view lease).1 (view lease).2 (option_map td_decode s)
  | AppEvent.Heartbeat counter => SdkEvent.heartbeat counter
  | AppEvent.ServiceReady id name type_name client => SdkEvent.serviceReady id (td_decode name) (td_decode type_name) client
  | AppEvent.ServiceFailed id code message => SdkEvent.serviceFailed id code (td_decode message)
  | AppEvent.ServiceRequest id op lease seq => SdkEvent.serviceRequest id op lease seq (view lease).1 (view lease).2
  | AppEvent.ServiceResponse id op lease seq => SdkEvent.serviceResponse id op lease seq (view lease).1 (view lease).2
  | AppEvent.ActionReady id name type_name client => SdkEvent.actionReady id (td_decode name) (td_decode type_name) client
  | AppEvent.ActionFailed id code message => SdkEvent.actionFailed id code (td_decode message)
  | AppEvent.ActionGoal id op lease seq => SdkEvent.actionGoal id op lease seq (view lease).1 (view lease).2
  | AppEvent.ActionFeedback id op lease seq => SdkEvent.actionFeedback id op lease seq (view lease).1 (view lease).2
  | AppEvent.ActionResult id op lease seq => SdkEvent.actionResult id op lease seq (view lease).1 (view lease).2
  | AppEvent.ActionStatus id op lease seq => SdkEvent.actionStatus id op lease seq (view lease).1 (view lease).2
  | AppEvent.GraphSnapshot generation nodes endpoints =>
      SdkEvent.graphSnapshot generation (td_decode nodes) (td_decode endpoints)
  | AppEvent.GraphDelta generation => SdkEvent.graphDelta generation
  | AppEvent.OperationCancelled id code message => SdkEvent.operationCancelled id code (td_decode message)
  | AppEvent.Error code message => SdkEvent.error code (td_decode message)
  | AppEvent.Closed phase => SdkEvent.closed (phase_to_u8 phase)
  end.

Definition sdk_result (view : Z -> Z * Z) (o : PollOutcome) : PollResult :=
  mk_poll_result (map (fun m => (om_buffer_id m, om_bytes m)) (po_outbound o))
    (map (sdk_event view) (po_events o))
    (map (fun r => (rb_buffer_id r, rb_len r)) (po_released_buffers o))
    (po_next_deadline_ms o).

End Sdk.
