(* ===== verification/SdkProofs.v ===== *)
(** * The SDK reads what the engine wrote

    Whatever a poll hands out, within the widths of the layout, [decodePollResult]
    reads back; the shortcut for a lone sample agrees with the loops. *)

From S2P Require Import Prelude Utf8 HostReader Session EngineTypes Batch BatchProofs Sdk.
From S2P Require BuilderProofs.
Import BuilderProofs(id_bytes).
#[local] Open Scope Z_scope.

(** A length the layout has 16 bits for. *)
Definition short (s : bytes) : Prop := blen s <= 65535.

Section Widths.
Context `{Target} (view : Z -> Z * Z).

Definition failed_fits (id code : Z) (message : bytes) : Prop := is_unsigned 32 id /\ is_byte code /\ short message.
Definition ready_fits (id : Z) (name type_name : bytes) : Prop := is_unsigned 32 id /\ short name /\ short type_name.
Definition lease_fits (id lease sequence : Z) : Prop :=
  is_unsigned 32 id /\ is_unsigned 32 lease /\ is_unsigned 64 sequence /\
  is_unsigned 32 (view lease).1 /\ is_unsigned 32 (view lease).2.

Definition app_event_fits (event : AppEvent.t) : Prop :=
  match event with
  | AppEvent.BootstrapComplete v => is_byte v
  | AppEvent.SessionReady row domain gateway => is_byte domain /\ short row /\ short gateway
  | AppEvent.Subscribed id topic type_name => ready_fits id topic type_name
  | AppEvent.Published id topic type_name r => ready_fits id topic type_name /\ is_byte r
  | AppEvent.SubscribeFailed id code message | AppEvent.PublishFailed id code message
  | AppEvent.ServiceFailed id code message | AppEvent.ActionFailed id code message
  | AppEvent.OperationCancelled id code message => failed_fits id code message
  | AppEvent.Sample id lease seq time s =>
      lease_fits id lease seq /\ is_signed 64 time /\ match s with Some s => blen s <= 2147483647 | None => True end
  | AppEvent.Heartbeat n | AppEvent.GraphDelta n => is_unsigned 64 n
  | AppEvent.ServiceReady id name type_name _ | AppEvent.ActionReady id name type_name _ => ready_fits id name type_name
  | AppEvent.ServiceRequest id op lease seq | AppEvent.ServiceResponse id op lease seq
  | AppEvent.ActionGoal id op lease seq | AppEvent.ActionFeedback id op lease seq
  | AppEvent.ActionResult id op lease seq | AppEvent.ActionStatus id op lease seq =>
      lease_fits id lease seq /\ blen op = 16
  | AppEvent.GraphSnapshot generation nodes endpoints =>
      is_unsigned 64 generation /\ blen nodes <= u32_max /\ blen endpoints <= u32_max
  | AppEvent.Error code message => is_byte code /\ short message
  | AppEvent.Closed _ => True
  end.

Record outcome_fits (o : PollOutcome) : Prop := {
  of_outbound : Forall (fun m => is_unsigned 32 (om_buffer_id m) /\ blen (om_bytes m) <= u32_max) (po_outbound o);
  of_outbound_count : blen (po_outbound o) <= u32_max;
  of_events : Forall app_event_fits (po_events o);
  of_event_count : blen (po_events o) <= u32_max;
  of_released : Forall (fun r => is_unsigned 32 (rb_buffer_id r) /\ is_unsigned 32 (rb_len r)) (po_released_buffers o);
  of_released_count : blen (po_released_buffers o) <= u32_max;
  of_deadline : match po_next_deadline_ms o with Some ms => 0 <= ms < 2 ^ 63 | None => True end
}.

End Widths.

Section Reads.
Context `{Target} (decode_invalid : bytes -> bytes).
#[local] Abbreviation td_decode := (Sdk.td_decode decode_invalid).

Lemma reads_readU16 v : is_unsigned 16 v -> reads readU16 (write_u16 v) v.
Proof. apply (reads_le 2). Qed.
Lemma reads_readU32 v : is_unsigned 32 v -> reads readU32 (write_u32 v) v.
Proof. apply (reads_le 4). Qed.
Lemma reads_readU64 v : is_unsigned 64 v -> reads readU64 (write_u64 v) v.
Proof. apply (reads_le 8). Qed.
Lemma reads_readI64 v : is_signed 64 v -> reads readI64 (write_i64 v) v.
Proof. by apply (reads_signed 8 64). Qed.
Lemma reads_readI32 v : is_signed 32 v -> reads readI32 (write_i32 v) v.
Proof. by apply (reads_signed 4 32). Qed.
Lemma reads_opid s : blen s = 16 -> reads (E := SdkError) (take_bytes 16) s s.
Proof. apply reads_take. Qed.

Lemma reads_padded v s : is_byte v -> blen s = 3 -> reads padded ([v] ++ s) v.
Proof.
  intros Hv Hs. unfold padded. apply (reads_bind take_byte _ [v] s v); [by apply reads_byte |].
  apply (reads_last (skip 3) (fun _ _ => ret v) s tt); [by apply reads_skip | apply reads_ret].
Qed.

Lemma reads_tag v : is_byte v -> reads padded (tag v) v.
Proof. intros Hv. by apply (reads_padded v [0; 0; 0]). Qed.

Lemma reads_flagged b : reads padded (flag b ++ [0; 0; 0]) (if b then 1 else 0).
Proof. destruct b; by apply reads_tag. Qed.

Lemma reads_text16_sdk s : short s -> reads (Sdk.sdk_text16 decode_invalid) (counted16 s) (td_decode s).
Proof.
  unfold short. intros Hl. pose proof (blen_nonneg s). unfold Sdk.sdk_text16, Sdk.sdk_text, counted16.
  assert (is_unsigned 16 (blen s)) by (unfold is_unsigned; lia). rewrite as_unsigned_small by done.
  eapply reads_bind; [by apply reads_readU16 |]. eapply reads_last; [by apply reads_take |]. apply reads_ret.
Qed.

Lemma reads_text32_sdk s : blen s <= u32_max -> reads (Sdk.sdk_text32 decode_invalid) (counted32 s) (td_decode s).
Proof.
  unfold u32_max. intros Hl. pose proof (blen_nonneg s). unfold Sdk.sdk_text32, Sdk.sdk_text, counted32.
  assert (is_unsigned 32 (blen s)) by (unfold is_unsigned; lia). rewrite as_unsigned_small by done.
  eapply reads_bind; [by apply reads_readU32 |]. eapply reads_last; [by apply reads_take |]. apply reads_ret.
Qed.

End Reads.

#[export] Hint Resolve reads_readU16 reads_readU32 reads_readU64 reads_readI64 reads_readI32 reads_opid reads_tag
  reads_flagged reads_text16_sdk reads_text32_sdk : reads.

(** One field of a record after the other. *)
Ltac sdk_step :=
  cbv beta;
  lazymatch goal with
  | |- reads (fun bs => bind _ _) (_ ++ _) _ => eapply reads_bind; [solve [auto with reads] |]
  | |- reads (fun bs => bind _ _) _ _ => eapply reads_last; [solve [auto with reads] |]
  | |- reads (fun _ => ret _) [] _ => apply reads_done
  end.

Section Events.
Context `{Target} (decode_invalid : bytes -> bytes) (view : Z -> Z * Z).
#[local] Abbreviation sdk_event := (Sdk.sdk_event decode_invalid view).

Lemma reads_failed event id code message :
  failed_fits id code message ->
  reads (read_failed decode_invalid event) (write_u32 id ++ tag code ++ counted16 message)
    (event id code (td_decode decode_invalid message)).
Proof. intros (Hi & Hc & Hm). unfold read_failed. by repeat sdk_step. Qed.

Lemma reads_ready event id name type_name client :
  ready_fits id name type_name ->
  reads (read_ready decode_invalid event)
    (write_u32 id ++ (flag client ++ [0; 0; 0]) ++ counted16 name ++ counted16 type_name)
    (event id (td_decode decode_invalid name) (td_decode decode_invalid type_name) client).
Proof. intros (Hi & Hn & Ht). unfold read_ready. repeat sdk_step. by destruct client. Qed.

Lemma reads_leased event id op lease seq :
  lease_fits view id lease seq -> blen op = 16 ->
  reads (read_operation event) (write_u32 id ++ op ++ write_u32 lease ++ write_u64 seq ++ write_view view lease)
    (event id op lease seq (view lease).1 (view lease).2).
Proof. intros (Hi & Hl & Hs & Hp & Hn) Ho. unfold read_operation, write_view. by repeat sdk_step. Qed.

Lemma reads_sample id lease seq time s :
  app_event_fits view (AppEvent.Sample id lease seq time s) ->
  reads (read_sample decode_invalid)
    (write_u32 id ++ write_u32 lease ++ write_u64 seq ++ write_i64 time ++ write_view view lease ++
     match s with Some s => write_i32 (as_signed 32 (blen s)) ++ s | None => write_i32 (-1) end)
    (sdk_event (AppEvent.Sample id lease seq time s)).
Proof.
  intros ((Hi & Hl & Hs & Hp & Hn) & Ht & Hd). unfold read_sample, write_view. rewrite <- !app_assoc. do 6 sdk_step.
  destruct s as [s |].
  - pose proof (blen_nonneg s). assert (Hsg : as_signed 32 (blen s) = blen s).
    { unfold as_signed. rewrite Z.mod_small by lia. destruct (Z.ltb_spec (blen s) (2 ^ (32 - 1))); lia. }
    rewrite Hsg. eapply reads_bind; [apply reads_readI32; split; lia |]. cbv beta.
    destruct (Z.leb_spec 0 (blen s)); [| lia].
    eapply reads_last; [eapply reads_last; [by apply reads_take | apply reads_ret] |]. by apply reads_done.
  - rewrite <- (app_nil_r (write_i32 (-1))). eapply reads_bind; [by apply reads_readI32 |]. cbv beta.
    change (0 <=? -1) with false. by apply reads_done.
Qed.

Lemma reads_app_event event : app_event_fits view event -> reads (read_event decode_invalid) (encode_app_event view event) (sdk_event event).
Proof.
  unfold read_event.
  destruct event; cbn [app_event_fits encode_app_event Sdk.sdk_event]; intros He;
    unfold encode_failed, encode_ready, encode_leased_opid_event;
    (eapply reads_bind; [by apply reads_tag |]);
    cbv beta; match goal with |- reads (read_app_event ?d ?c) _ _ =>
      let r := eval cbv [read_app_event Z.eqb Pos.eqb APP_BOOTSTRAP_COMPLETE APP_SESSION_READY APP_SUBSCRIBED
        APP_SUBSCRIBE_FAILED APP_SAMPLE APP_HEARTBEAT APP_ERROR APP_CLOSED APP_PUBLISHED APP_PUBLISH_FAILED APP_SERVICE_READY
        APP_SERVICE_FAILED APP_SERVICE_REQUEST APP_SERVICE_RESPONSE APP_ACTION_READY APP_ACTION_FAILED APP_ACTION_GOAL
        APP_ACTION_FEEDBACK APP_ACTION_RESULT APP_ACTION_STATUS APP_GRAPH_SNAPSHOT APP_GRAPH_DELTA APP_OPERATION_CANCELLED]
        in (read_app_event d c) in change (read_app_event d c) with r end.
  all: lazymatch goal with
    | |- reads (read_failed _ _) _ _ => by apply reads_failed
    | |- reads (read_ready _ _) _ _ => by apply reads_ready
    | |- reads (read_operation _) _ _ => destruct He; by apply reads_leased
    | |- reads (read_sample _) _ _ => by apply reads_sample
    | |- _ => unfold ready_fits in He; destruct_and?; repeat sdk_step; try done
    end.
  assert (is_byte (phase_to_u8 phase)) by (by destruct phase). by repeat sdk_step.
Qed.

Lemma reads_outbound m :
  is_unsigned 32 (om_buffer_id m) /\ blen (om_bytes m) <= u32_max ->
  reads read_outbound (encode_outbound m) (om_buffer_id m, om_bytes m).
Proof.
  unfold u32_max. intros [Hb Hl]. pose proof (blen_nonneg (om_bytes m)). unfold read_outbound, encode_outbound, counted32.
  assert (is_unsigned 32 (blen (om_bytes m))) by (unfold is_unsigned; lia). rewrite as_unsigned_small by done.
  assert (is_unsigned 32 0) by done. do 3 sdk_step. eapply reads_last; [by apply reads_take |]. by apply reads_done.
Qed.

Lemma reads_released r :
  is_unsigned 32 (rb_buffer_id r) /\ is_unsigned 32 (rb_len r) ->
  reads read_released (encode_released r) (rb_buffer_id r, rb_len r).
Proof. intros [Hb Hl]. unfold read_released, encode_released. by repeat sdk_step. Qed.

(** What follows the counts. *)
Definition result_tail (o : PollOutcome) : bytes :=
  write_i64 (match po_next_deadline_ms o with Some ms => as_signed 64 ms | None => -1 end) ++
  concat (map encode_outbound (po_outbound o)) ++
  concat (map (encode_app_event view) (po_events o)) ++
  concat (map encode_released (po_released_buffers o)).

Lemma reads_result_body o :
  outcome_fits view o ->
  reads (read_result_body decode_invalid (blen (po_outbound o)) (blen (po_events o)) (blen (po_released_buffers o)))
    (result_tail o) (sdk_result decode_invalid view o).
Proof.
  intros []. unfold read_result_body, result_tail. set (raw := match po_next_deadline_ms o with Some _ => _ | None => _ end).
  assert (Hraw : is_signed 64 raw /\ deadline_ms raw = po_next_deadline_ms o).
  { unfold raw, deadline_ms. destruct (po_next_deadline_ms o) as [ms |]; [| done]. unfold as_signed.
    rewrite Z.mod_small by lia. destruct (Z.ltb_spec ms (2 ^ (64 - 1))); [| lia].
    split; [unfold is_signed; lia |]. by destruct (Z.ltb_spec ms 0); [lia |]. }
  destruct Hraw as [Hraw Hdead]. unfold blen. rewrite !Nat2Z.id. eapply reads_bind; [by apply reads_readI64 |]. cbv beta.
  eapply reads_bind; [apply (reads_each _ _ (fun m => (om_buffer_id m, om_bytes m)) (po_outbound o) []);
    eapply Forall_impl; [exact of_outbound0 | apply reads_outbound] |]. cbv beta.
  eapply reads_bind; [apply (reads_each _ _ sdk_event (po_events o) []);
    eapply Forall_impl; [exact of_events0 | apply reads_app_event] |]. cbv beta.
  eapply reads_last; [apply (reads_each _ _ (fun r => (rb_buffer_id r, rb_len r)) (po_released_buffers o) []);
    eapply Forall_impl; [exact of_released0 | apply reads_released] |].
  apply reads_done. by rewrite Hdead.
Qed.

End Events.

(** ** The shortcut *)

Section Shortcut.
Context `{Target} (decode_invalid : bytes -> bytes).

Lemma take_le_at {E} n (bs : bytes) o :
  0 <= n -> 0 <= o -> o + n <= blen bs -> blen bs <= isize_max ->
  take_le (E := E) n bs o = (Ok (of_le (sub_list bs o n)), o + n).
Proof.
  intros Hn Ho Hl Hb. pose proof isize_le_usize. unfold take_le, take_bytes, bind, gets, lift, modify, id, ret. usz.
  rewrite slice_ok by lia. by replace (o + n - o) with n by lia.
Qed.

Lemma take_signed_at {E} n (bs : bytes) o :
  0 <= n -> 0 <= o -> o + n <= blen bs -> blen bs <= isize_max ->
  take_signed (E := E) n bs o = (Ok (as_signed (8 * n) (of_le (sub_list bs o n))), o + n).
Proof. intros Hn Ho Hl Hb. unfold take_signed, bind. by rewrite take_le_at. Qed.

Lemma take_byte_at {E} (bs : bytes) o b :
  0 <= o -> get bs o = Some b -> blen bs <= isize_max -> take_byte (E := E) bs o = (Ok b, o + 1).
Proof.
  intros Ho Hg Hb. pose proof isize_le_usize. unfold get in Hg. destruct (Z.leb_spec 0 o); [| lia].
  assert (o < blen bs) by (apply lookup_lt_Some in Hg; unfold blen; lia).
  unfold take_byte, bind, gets, lift, modify, id, ret. usz. unfold index. destruct (Z.leb_spec 0 o); [| lia]. by rewrite Hg.
Qed.

Lemma shortcut_agrees bs o e r x :
  blen bs <= isize_max -> lone_sample bs o e r = true ->
  (read_lone_sample bs x).1 = (read_result_body decode_invalid o e r bs 20).1.
Proof.
  intros Hb Hl. unfold lone_sample in Hl. rewrite !andb_true_iff in Hl. destruct Hl as (((((Ho & He) & Hr) & Hlen) & Hk) & Hs).
  apply Z.eqb_eq in Ho as ->, He as ->, Hr as ->, Hlen. destruct (get bs 28) as [k |] eqn:Hget; [| done].
  apply Z.eqb_eq in Hk as ->. unfold readI32 in Hs. rewrite take_signed_at in Hs by lia. cbn [fst] in Hs.
  unfold read_result_body, read_lone_sample, readI64, readU32, readU64, peek, lift.
  change (Z.to_nat 0) with 0%nat. change (Z.to_nat 1) with 1%nat. cbn [repeated].
  unfold read_event, padded, skip.
  pose proof isize_le_usize. unfold bind, ret, modify.
  rewrite !take_signed_at by lia. cbn [fst]. rewrite !take_le_at by lia. cbn [fst].
  rewrite (take_byte_at bs (20 + 8) APP_SAMPLE) by (exact Hget || lia). usz.
  change (read_app_event decode_invalid APP_SAMPLE) with (read_sample decode_invalid). change (20 + 8 + 1 + 3) with 32.
  unfold read_sample, readI64, readU32, readU64, readI32, bind, ret.
  repeat first [rewrite take_signed_at by lia | rewrite take_le_at by lia].
  change (32 + 4 + 4 + 8 + 8 + 4 + 4) with 64. apply Z.ltb_lt in Hs.
  destruct (Z.leb_spec 0 (as_signed (8 * 4) (of_le (sub_list bs 64 4)))); [lia | done].
Qed.

End Shortcut.

(** ** The whole result *)

Section Result.
Context `{Target} (decode_invalid : bytes -> bytes) (view : Z -> Z * Z).

Definition counts_bytes (o : PollOutcome) : bytes :=
  write_u32 RESULT_MAGIC ++ write_u16 LAYOUT_VERSION ++ write_u16 0 ++
  write_u32 (as_unsigned 32 (blen (po_outbound o))) ++
  write_u32 (as_unsigned 32 (blen (po_events o))) ++
  write_u32 (as_unsigned 32 (blen (po_released_buffers o))).

Lemma result_split o : encode_poll_result_into view [] o = counts_bytes o ++ result_tail view o.
Proof. unfold encode_poll_result_into, counts_bytes, result_tail. by rewrite app_nil_l, <- !app_assoc. Qed.

Lemma counts_read o bs :
  outcome_fits view o -> bs = counts_bytes o ++ result_tail view o -> blen bs <= isize_max ->
  read_counts bs 0 = (Ok (blen (po_outbound o), blen (po_events o), blen (po_released_buffers o)), 20).
Proof.
  intros [] -> Hb. pose proof (blen_nonneg (po_outbound o)). pose proof (blen_nonneg (po_events o)).
  pose proof (blen_nonneg (po_released_buffers o)). unfold u32_max in *. unfold read_counts, bind at 1, need, bind at 1, gets, id.
  assert (Hlen : 28 <= blen (counts_bytes o ++ result_tail view o)).
  { unfold counts_bytes, result_tail. batch_len. }
  pose proof isize_le_usize. usz. destruct (Z.ltb_spec (blen (counts_bytes o ++ result_tail view o)) (0 + 28)); [lia |].
  unfold ret at 1.
  enough (Hr : reads (fun bs => magic <~ readU32 bs ;; lift (guard (magic =? RESULT_MAGIC) PollResultBadMagic) ;;~
      version <~ readU16 bs ;; lift (guard (version =? LAYOUT_VERSION) PollResultBadVersion) ;;~ skip 2 bs ;;~
      outboundCount <~ readU32 bs ;; eventCount <~ readU32 bs ;; releasedCount <~ readU32 bs ;;
      ret (outboundCount, eventCount, releasedCount)) (counts_bytes o)
      (blen (po_outbound o), blen (po_events o), blen (po_released_buffers o)))
    by (apply (Hr [] (result_tail view o)); exact Hb).
  unfold counts_bytes. rewrite !as_unsigned_small by (unfold is_unsigned; lia).
  eapply reads_bind; [by apply reads_readU32 |]. apply reads_guard; [done |].
  eapply reads_bind; [by apply reads_readU16 |]. apply reads_guard; [done |].
  eapply reads_bind; [by apply reads_skip |].
  do 2 (eapply reads_bind; [apply reads_readU32; unfold is_unsigned; lia |]).
  eapply reads_last; [apply reads_readU32; unfold is_unsigned; lia |]. apply reads_ret.
Qed.

Lemma result_read_back o :
  outcome_fits view o -> blen (encode_poll_result_into view [] o) <= isize_max ->
  decodePollResult decode_invalid (encode_poll_result_into view [] o) = Ok (sdk_result decode_invalid view o).
Proof.
  intros Ho Hb. unfold decodePollResult, read_poll_result. rewrite result_split in *. unfold bind.
  rewrite (counts_read o) by done. cbn [fst snd].
  assert (Hbody : (read_result_body decode_invalid (blen (po_outbound o)) (blen (po_events o)) (blen (po_released_buffers o))
      (counts_bytes o ++ result_tail view o) 20).1 = Ok (sdk_result decode_invalid view o)).
  { pose proof (reads_result_body decode_invalid view o Ho (counts_bytes o) []) as Hr. rewrite app_nil_r in Hr.
    change 20 with (blen (counts_bytes o)). by rewrite Hr. }
  destruct (lone_sample _ _ _ _) eqn:Hs; [| exact Hbody]. by rewrite (shortcut_agrees decode_invalid _ _ _ _ 20 Hb Hs).
Qed.

End Result.
