(* ===== verification/Engine.v ===== *)
(** * The client connection engine

    [rclweb/src/engine/mod.rs]: the state of a [ClientEngine], the commands of
    the application, the handlers of inbound messages and the timer, and the
    poll that drives them.  A handler is a state transformer of the engine and
    of the [PollOutcome] under construction.  A [HashMap] is a [gmap]; the
    order in which [sweep_released] reports buffers is the map's order here and
    unspecified in the code. *)

From stdpp Require Import gmap.
From S2P Require Import Prelude Utf8 ProtocolError Cbor Extension ControlSchema Control Frame Bootstrap Session.
From S2P Require Import Registry EngineTypes.
From S2P Require CdrCore CdrReader CdrWriter PointCloud HostValue.
Import ControlSchema.Schema(CONTROL_KIND_SESSION_READY, CONTROL_KIND_CHANNEL_READY, CONTROL_KIND_HEARTBEAT,
  CONTROL_KIND_GRAPH_SNAPSHOT, CONTROL_KIND_GRAPH_DELTA, CONTROL_KIND_ERROR).
#[local] Open Scope Z_scope.

Definition HEARTBEAT_INTERVAL_MS : Z := 15000.

(** ** State *)

Module PendingKind.

Inductive t := Subscribe | Publish | ServiceClient | ServiceServer | ActionClient | ActionServer.

End PendingKind.

#[export] Instance PendingKind_eq_dec : EqDecision PendingKind.t.
Proof. solve_decision. Defined.

Record PendingOpen := mk_pending {
  pd_kind : PendingKind.t; pd_topic : bytes; pd_type_name : bytes; pd_qos_reliability : Z
}.
Record ActivePublish := mk_publish { ap_topic : bytes; ap_type_name : bytes; ap_reliable : bool; ap_seq_out : Z }.
Record ActiveService := mk_service {
  as_name : bytes; as_type_name : bytes; as_client : bool; as_next_seq : Z; as_seq_out : gmap bytes Z
}.
Record ActiveAction := mk_action {
  aa_name : bytes; aa_type_name : bytes; aa_client : bool; aa_next_seq : Z; aa_seq_out : gmap bytes Z
}.
Record RetainedBuffer := mk_retained {
  rt_bytes : bytes; rt_declared_len : Z; rt_lease_refs : Z; rt_ingest_done : bool
}.
Record Lease := mk_lease { le_buffer_id : Z; le_payload_offset : Z; le_payload_len : Z }.

Record ClientEngine := mk_engine {
  en_session : SessionState;
  en_frame_options : FrameOptions;
  en_control_seq_out : Z;
  en_control_seq_in : Z;
  en_next_buffer_id : Z;
  en_next_lease_id : Z;
  en_retained : gmap Z RetainedBuffer;
  en_leases : gmap Z Lease;
  en_pending_opens : gmap Z PendingOpen;
  en_active_subscribes : gmap Z PendingOpen;
  en_active_publishes : gmap Z ActivePublish;
  en_active_services : gmap Z ActiveService;
  en_active_actions : gmap Z ActiveAction;
  en_support_row_id : bytes;
  en_started : bool;
  en_closed : bool;
  en_last_timer_ms : option Z;
  en_next_heartbeat_ms : option Z;
  en_heartbeat_counter : Z;
  en_telemetry : EngineTelemetry
}.

Definition set_session (v : SessionState) (e : ClientEngine) : ClientEngine :=
  let 'mk_engine _ a1 a2 a3 a4 a5 a6 a7 a8 a9 a10 a11 a12 a13 a14 a15 a16 a17 a18 a19 := e in
  mk_engine v a1 a2 a3 a4 a5 a6 a7 a8 a9 a10 a11 a12 a13 a14 a15 a16 a17 a18 a19.
Definition set_control_seq_out (v : Z) (e : ClientEngine) : ClientEngine :=
  let 'mk_engine a0 a1 _ a3 a4 a5 a6 a7 a8 a9 a10 a11 a12 a13 a14 a15 a16 a17 a18 a19 := e in
  mk_engine a0 a1 v a3 a4 a5 a6 a7 a8 a9 a10 a11 a12 a13 a14 a15 a16 a17 a18 a19.
Definition set_control_seq_in (v : Z) (e : ClientEngine) : ClientEngine :=
  let 'mk_engine a0 a1 a2 _ a4 a5 a6 a7 a8 a9 a10 a11 a12 a13 a14 a15 a16 a17 a18 a19 := e in
  mk_engine a0 a1 a2 v a4 a5 a6 a7 a8 a9 a10 a11 a12 a13 a14 a15 a16 a17 a18 a19.
Definition set_next_buffer_id (v : Z) (e : ClientEngine) : ClientEngine :=
  let 'mk_engine a0 a1 a2 a3 _ a5 a6 a7 a8 a9 a10 a11 a12 a13 a14 a15 a16 a17 a18 a19 := e in
  mk_engine a0 a1 a2 a3 v a5 a6 a7 a8 a9 a10 a11 a12 a13 a14 a15 a16 a17 a18 a19.
Definition set_next_lease_id (v : Z) (e : ClientEngine) : ClientEngine :=
  let 'mk_engine a0 a1 a2 a3 a4 _ a6 a7 a8 a9 a10 a11 a12 a13 a14 a15 a16 a17 a18 a19 := e in
  mk_engine a0 a1 a2 a3 a4 v a6 a7 a8 a9 a10 a11 a12 a13 a14 a15 a16 a17 a18 a19.
Definition set_retained (v : gmap Z RetainedBuffer) (e : ClientEngine) : ClientEngine :=
  let 'mk_engine a0 a1 a2 a3 a4 a5 _ a7 a8 a9 a10 a11 a12 a13 a14 a15 a16 a17 a18 a19 := e in
  mk_engine a0 a1 a2 a3 a4 a5 v a7 a8 a9 a10 a11 a12 a13 a14 a15 a16 a17 a18 a19.
Definition set_leases (v : gmap Z Lease) (e : ClientEngine) : ClientEngine :=
  let 'mk_engine a0 a1 a2 a3 a4 a5 a6 _ a8 a9 a10 a11 a12 a13 a14 a15 a16 a17 a18 a19 := e in
  mk_engine a0 a1 a2 a3 a4 a5 a6 v a8 a9 a10 a11 a12 a13 a14 a15 a16 a17 a18 a19.
Definition set_pending_opens (v : gmap Z PendingOpen) (e : ClientEngine) : ClientEngine :=
  let 'mk_engine a0 a1 a2 a3 a4 a5 a6 a7 _ a9 a10 a11 a12 a13 a14 a15 a16 a17 a18 a19 := e in
  mk_engine a0 a1 a2 a3 a4 a5 a6 a7 v a9 a10 a11 a12 a13 a14 a15 a16 a17 a18 a19.
Definition set_active_subscribes (v : gmap Z PendingOpen) (e : ClientEngine) : ClientEngine :=
  let 'mk_engine a0 a1 a2 a3 a4 a5 a6 a7 a8 _ a10 a11 a12 a13 a14 a15 a16 a17 a18 a19 := e in
  mk_engine a0 a1 a2 a3 a4 a5 a6 a7 a8 v a10 a11 a12 a13 a14 a15 a16 a17 a18 a19.
Definition set_active_publishes (v : gmap Z ActivePublish) (e : ClientEngine) : ClientEngine :=
  let 'mk_engine a0 a1 a2 a3 a4 a5 a6 a7 a8 a9 _ a11 a12 a13 a14 a15 a16 a17 a18 a19 := e in
  mk_engine a0 a1 a2 a3 a4 a5 a6 a7 a8 a9 v a11 a12 a13 a14 a15 a16 a17 a18 a19.
Definition set_active_services (v : gmap Z ActiveService) (e : ClientEngine) : ClientEngine :=
  let 'mk_engine a0 a1 a2 a3 a4 a5 a6 a7 a8 a9 a10 _ a12 a13 a14 a15 a16 a17 a18 a19 := e in
  mk_engine a0 a1 a2 a3 a4 a5 a6 a7 a8 a9 a10 v a12 a13 a14 a15 a16 a17 a18 a19.
Definition set_active_actions (v : gmap Z ActiveAction) (e : ClientEngine) : ClientEngine :=
  let 'mk_engine a0 a1 a2 a3 a4 a5 a6 a7 a8 a9 a10 a11 _ a13 a14 a15 a16 a17 a18 a19 := e in
  mk_engine a0 a1 a2 a3 a4 a5 a6 a7 a8 a9 a10 a11 v a13 a14 a15 a16 a17 a18 a19.
Definition set_support_row_id (v : bytes) (e : ClientEngine) : ClientEngine :=
  let 'mk_engine a0 a1 a2 a3 a4 a5 a6 a7 a8 a9 a10 a11 a12 _ a14 a15 a16 a17 a18 a19 := e in
  mk_engine a0 a1 a2 a3 a4 a5 a6 a7 a8 a9 a10 a11 a12 v a14 a15 a16 a17 a18 a19.
Definition set_started (v : bool) (e : ClientEngine) : ClientEngine :=
  let 'mk_engine a0 a1 a2 a3 a4 a5 a6 a7 a8 a9 a10 a11 a12 a13 _ a15 a16 a17 a18 a19 := e in
  mk_engine a0 a1 a2 a3 a4 a5 a6 a7 a8 a9 a10 a11 a12 a13 v a15 a16 a17 a18 a19.
Definition set_closed (v : bool) (e : ClientEngine) : ClientEngine :=
  let 'mk_engine a0 a1 a2 a3 a4 a5 a6 a7 a8 a9 a10 a11 a12 a13 a14 _ a16 a17 a18 a19 := e in
  mk_engine a0 a1 a2 a3 a4 a5 a6 a7 a8 a9 a10 a11 a12 a13 a14 v a16 a17 a18 a19.
Definition set_last_timer_ms (v : option Z) (e : ClientEngine) : ClientEngine :=
  let 'mk_engine a0 a1 a2 a3 a4 a5 a6 a7 a8 a9 a10 a11 a12 a13 a14 a15 _ a17 a18 a19 := e in
  mk_engine a0 a1 a2 a3 a4 a5 a6 a7 a8 a9 a10 a11 a12 a13 a14 a15 v a17 a18 a19.
Definition set_next_heartbeat_ms (v : option Z) (e : ClientEngine) : ClientEngine :=
  let 'mk_engine a0 a1 a2 a3 a4 a5 a6 a7 a8 a9 a10 a11 a12 a13 a14 a15 a16 _ a18 a19 := e in
  mk_engine a0 a1 a2 a3 a4 a5 a6 a7 a8 a9 a10 a11 a12 a13 a14 a15 a16 v a18 a19.
Definition set_heartbeat_counter (v : Z) (e : ClientEngine) : ClientEngine :=
  let 'mk_engine a0 a1 a2 a3 a4 a5 a6 a7 a8 a9 a10 a11 a12 a13 a14 a15 a16 a17 _ a19 := e in
  mk_engine a0 a1 a2 a3 a4 a5 a6 a7 a8 a9 a10 a11 a12 a13 a14 a15 a16 a17 v a19.
Definition set_telemetry (v : EngineTelemetry) (e : ClientEngine) : ClientEngine :=
  let 'mk_engine a0 a1 a2 a3 a4 a5 a6 a7 a8 a9 a10 a11 a12 a13 a14 a15 a16 a17 a18 _ := e in
  mk_engine a0 a1 a2 a3 a4 a5 a6 a7 a8 a9 a10 a11 a12 a13 a14 a15 a16 a17 a18 v.

Definition engine_new : ClientEngine :=
  mk_engine (Session_new Client) default_options 0 0 1 1 ∅ ∅ ∅ ∅ ∅ ∅ ∅ (lit "J-FT") false false None None 0
    default_engine_telemetry.

Definition engine_phase (e : ClientEngine) : SessionPhase := ss_phase (en_session e).
Definition engine_channel_state (e : ClientEngine) (id : Z) : ChannelState := channel_state (en_session e) id.

(** [saturating_add] on [u32]; on [u64] it is [u64_saturating_add]. *)
Definition u32_saturating_add (a b : Z) : Z := Z.min u32_max (a + b).

Definition count_ingest (n : Z) (t : EngineTelemetry) : EngineTelemetry :=
  let 'mk_engine_telemetry a b c d e f g := t in
  mk_engine_telemetry (u64_saturating_add a 1) (u64_saturating_add b n) c d e f g.
Definition count_poll (nanos : Z) (t : EngineTelemetry) : EngineTelemetry :=
  let 'mk_engine_telemetry a b c d e f g := t in
  mk_engine_telemetry a b (u64_saturating_add c 1) (u64_saturating_add d nanos) e f g.
Definition count_sample_emitted (t : EngineTelemetry) : EngineTelemetry :=
  let 'mk_engine_telemetry a b c d e f g := t in mk_engine_telemetry a b c d (u64_saturating_add e 1) f g.
Definition count_lease_released (t : EngineTelemetry) : EngineTelemetry :=
  let 'mk_engine_telemetry a b c d e f g := t in mk_engine_telemetry a b c d e (u64_saturating_add f 1) g.
Definition count_sample_sent (t : EngineTelemetry) : EngineTelemetry :=
  let 'mk_engine_telemetry a b c d e f g := t in mk_engine_telemetry a b c d e f (u64_saturating_add g 1).

(** ** Reading control messages *)

Abbreviation fields_t := (gmap Z CborValue).

Definition eng_field_uint (fields : fields_t) (key : Z) : option Z :=
  match fields !! key with Some (Unsigned v) => Some v | _ => None end.
Definition eng_field_text (fields : fields_t) (key : Z) : option bytes :=
  match fields !! key with Some (Text t) => Some t | _ => None end.

Definition field_domain (fields : fields_t) : option Z :=
  match fields !! 10 with
  | Some (Array (Unsigned v :: _)) => if v <=? 255 then Some v else None
  | Some (Unsigned v) => if v <=? 255 then Some v else None
  | _ => None
  end.

Fixpoint reliability_entry (entries : list (Z * CborValue)) : option Z :=
  match entries with
  | [] => None
  | (k, Unsigned n) :: entries' => if (k =? 1) && (n <=? 255) then Some n else reliability_entry entries'
  | _ :: entries' => reliability_entry entries'
  end.
Definition field_effective_reliability (fields : fields_t) : option Z :=
  match fields !! 57 with Some (Map entries) => reliability_entry entries | _ => None end.

(** The last entry of each key counts. *)
Fixpoint error_entries (entries : list (Z * CborValue)) (code : Z) (message : bytes) : Z * bytes :=
  match entries with
  | [] => (code, message)
  | (k, Unsigned c) :: entries' => error_entries entries' (if (k =? 48) && (c <=? 255) then c else code) message
  | (k, Text t) :: entries' => error_entries entries' code (if k =? 51 then t else message)
  | _ :: entries' => error_entries entries' code message
  end.
Definition channel_ready_error_body (fields : fields_t) : Z * bytes :=
  match fields !! 15 with
  | Some (Map entries) => error_entries entries 3 (lit "channel_ready_failed")
  | _ => (3, lit "channel_ready_failed")
  end.

(** ** JSON for the SDK *)

Definition quoted (s : bytes) : bytes := [34] ++ s ++ [34].
Definition hex_encode (bs : bytes) : bytes := flat_map (fun b => [hex_digit (b / 16); hex_digit (b mod 16)]) bs.

Definition is_control (c : Z) : bool := (c <? 32) || ((127 <=? c) && (c <=? 159)).
Definition json_escape_char (c : Z) : bytes :=
  if c =? 34 then [92; 34]
  else if c =? 92 then [92; 92]
  else if c =? 10 then lit "\n"
  else if c =? 13 then lit "\r"
  else if c =? 9 then lit "\t"
  else if is_control c then lit "\u" ++ hex4 c
  else utf8_char c.
Definition json_escape (s : bytes) : bytes := flat_map json_escape_char (chars s).

(** The first entry of the key decides. *)
Fixpoint map_field (entries : list (Z * CborValue)) (key : Z) : option CborValue :=
  match entries with
  | [] => None
  | (k, v) :: entries' => if k =? key then Some v else map_field entries' key
  end.
Definition map_field_text (entries : list (Z * CborValue)) (key : Z) : option bytes :=
  match map_field entries key with Some (Text t) => Some t | _ => None end.
Definition map_field_bytes (entries : list (Z * CborValue)) (key : Z) : option bytes :=
  match map_field entries key with Some (Bytes b) => Some b | _ => None end.
Definition map_field_uint (entries : list (Z * CborValue)) (key : Z) : option Z :=
  match map_field entries key with Some (Unsigned n) => Some n | _ => None end.

Definition hex_field (entries : list (Z * CborValue)) (key : Z) : bytes :=
  match map_field_bytes entries key with Some b => hex_encode b | None => [] end.
Definition text_field (entries : list (Z * CborValue)) (key : Z) : bytes :=
  match map_field_text entries key with Some t => t | None => [] end.
Definition uint_field (entries : list (Z * CborValue)) (key : Z) : Z :=
  match map_field_uint entries key with Some n => n | None => 0 end.

Fixpoint comma_separated (items : list bytes) : bytes :=
  match items with
  | [] => []
  | [x] => x
  | x :: items' => x ++ lit "," ++ comma_separated items'
  end.

Definition graph_node_json (node : CborValue) : bytes :=
  match node with
  | Map entries =>
      lit "{" ++ quoted (lit "id") ++ lit ":" ++ quoted (hex_field entries 55) ++
      lit "," ++ quoted (lit "name") ++ lit ":" ++ quoted (json_escape (text_field entries 1)) ++
      lit "," ++ quoted (lit "domain_id") ++ lit ":" ++ decimal (uint_field entries 9) ++ lit "}"
  | _ => lit "{}"
  end.
Definition graph_nodes_json (fields : fields_t) : bytes :=
  match fields !! 22 with
  | Some (Array nodes) => lit "[" ++ comma_separated (map graph_node_json nodes) ++ lit "]"
  | _ => lit "[]"
  end.

Definition graph_endpoint_json (ep : CborValue) : bytes :=
  match ep with
  | Map entries =>
      lit "{" ++ quoted (lit "id") ++ lit ":" ++ quoted (hex_field entries 56) ++
      lit "," ++ quoted (lit "node_id") ++ lit ":" ++ quoted (hex_field entries 55) ++
      lit "," ++ quoted (lit "name") ++ lit ":" ++ quoted (json_escape (text_field entries 1)) ++
      lit "," ++ quoted (lit "kind") ++ lit ":" ++ decimal (uint_field entries 2) ++
      lit "," ++ quoted (lit "type_name") ++ lit ":" ++ quoted (json_escape (text_field entries 3)) ++
      lit "," ++ quoted (lit "domain_id") ++ lit ":" ++ decimal (uint_field entries 9) ++ lit "}"
  | _ => lit "{}"
  end.
Definition graph_endpoints_json (fields : fields_t) : bytes :=
  match fields !! 23 with
  | Some (Array endpoints) => lit "[" ++ comma_separated (map graph_endpoint_json endpoints) ++ lit "]"
  | _ => lit "[]"
  end.

(** ** Handlers *)

Record EngineWorld := mk_ew { ew_engine : ClientEngine; ew_outcome : PollOutcome }.

(** How [+=] on an integer behaves on overflow. *)
Inductive EngineBuild := Checked | Wrapping.

Section Engine.
Context `{Target}.
Variable build : EngineBuild.

(** [Err tt] is an early [return] of the enclosing function. *)
Abbreviation Eng := (SM EngineWorld unit).

Definition eng_return {A} : Eng A := throw tt.
Definition eng_panic {A} : Eng A := lift Panic.
Definition eng_fn (m : Eng unit) : Eng unit :=
  fun w => match m w with (Err _, w') => (Ok tt, w') | r => r end.

Definition eng {A} (f : ClientEngine -> A) : Eng A := gets (fun w => f (ew_engine w)).
Definition on_eng (f : ClientEngine -> ClientEngine) : Eng unit :=
  modify (fun w => mk_ew (f (ew_engine w)) (ew_outcome w)).
Definition on_outcome (f : PollOutcome -> PollOutcome) : Eng unit :=
  modify (fun w => mk_ew (ew_engine w) (f (ew_outcome w))).
Definition count (f : EngineTelemetry -> EngineTelemetry) : Eng unit :=
  on_eng (fun e => set_telemetry (f (en_telemetry e)) e).

Definition emit (event : AppEvent.t) : Eng unit :=
  on_outcome (fun o => mk_outcome (po_outbound o) (po_events o ++ [event]) (po_released_buffers o) (po_next_deadline_ms o)).

(** A call into the session: [inr] is its error. *)
Definition eng_session {A} (m : SM SessionState ProtocolError A) : Eng (A + ProtocolError) := fun w =>
  match m (en_session (ew_engine w)) with
  | (Ok a, s) => (Ok (inl a), mk_ew (set_session s (ew_engine w)) (ew_outcome w))
  | (Err e, s) => (Ok (inr e), mk_ew (set_session s (ew_engine w)) (ew_outcome w))
  | (Panic, s) => (Panic, mk_ew (set_session s (ew_engine w)) (ew_outcome w))
  end.

(** A call that may fail: [None] on its error. *)
Definition try_ {E A} (m : outcome E A) : Eng (option A) :=
  match m with Ok a => ret (Some a) | Err _ => ret None | Panic => eng_panic end.

Definition fail (code : Z) (message : bytes) : Eng unit :=
  on_eng (set_closed true) ;;~
  emit (AppEvent.Error code message) ;;~
  phase <~ eng engine_phase ;;
  emit (AppEvent.Closed phase).

(** [self.fail(outcome, err.code as u8, err.reason); return]. *)
Definition fail_with {A} (err : ProtocolError) : Eng A :=
  fail (as_unsigned 8 (pe_code err)) (lit (pe_reason err)) ;;~ eng_return.

Definition push_outbound (b : bytes) : Eng unit :=
  outbound <~ gets (fun w => po_outbound (ew_outcome w)) ;;
  if MAX_OUTBOUND_PER_POLL <=? blen outbound then ret tt
  else
    id <~ eng en_next_buffer_id ;;
    on_eng (set_next_buffer_id (u32_saturating_add id 1)) ;;~
    on_outcome (fun o => mk_outcome (po_outbound o ++ [mk_outbound id b]) (po_events o) (po_released_buffers o)
                           (po_next_deadline_ms o)).

(** [parse_frame(..)] and [record_send_frame]: whether the engine may send the frame. *)
Inductive Recorded := Sendable | Unparsable | Unrecorded.
Definition record_outbound_frame (b : bytes) : Eng Recorded :=
  options <~ eng en_frame_options ;;
  frame <~ try_ (parse_frame b (Some options)) ;;
  match frame with
  | None => ret Unparsable
  | Some frame =>
      r <~ eng_session (record_send_frame frame) ;;
      ret (match r with inl _ => Sendable | inr _ => Unrecorded end)
  end.

Definition eng_push_control (message : CborValue) : Eng bool :=
  seq <~ eng en_control_seq_out ;;
  b <~ try_ (encode_control_frame 0 seq message) ;;
  match b with
  | None => ret false
  | Some b =>
      recorded <~ record_outbound_frame b ;;
      match recorded with
      | Sendable =>
          on_eng (set_control_seq_out (u64_saturating_add seq 1)) ;;~
          push_outbound b ;;~
          ret true
      | _ => ret false
      end
  end.

Definition push_bootstrap_outbound (b : bytes) : Eng bool :=
  record <~ try_ (parse_bootstrap b) ;;
  match record with
  | None => ret false
  | Some record =>
      r <~ eng_session (record_send_bootstrap record) ;;
      match r with
      | inr _ => ret false
      | inl _ => push_outbound b ;;~ ret true
      end
  end.

(** *** Buffers and leases *)

Definition new_retained (b : bytes) : Eng RetainedBuffer :=
  match retain_declared_len (E := unit) b with
  | Ok declared_len => ret (mk_retained b declared_len 0 false)
  | Err e => throw e
  | Panic => eng_panic
  end.

Definition alloc_buffer (b : bytes) : Eng Z :=
  id <~ eng en_next_buffer_id ;;
  on_eng (set_next_buffer_id (u32_saturating_add id 1)) ;;~
  buf <~ new_retained b ;;
  on_eng (fun e => set_retained (<[id := buf]> (en_retained e)) e) ;;~
  ret id.

Definition with_lease_refs (f : Z -> Z) (buf : RetainedBuffer) : RetainedBuffer :=
  mk_retained (rt_bytes buf) (rt_declared_len buf) (f (rt_lease_refs buf)) (rt_ingest_done buf).
Definition mark_ingest_done (buf : RetainedBuffer) : RetainedBuffer :=
  mk_retained (rt_bytes buf) (rt_declared_len buf) (rt_lease_refs buf) true.

Definition release_lease (lease_id : Z) : Eng unit :=
  leases <~ eng en_leases ;;
  match leases !! lease_id with
  | None => ret tt
  | Some lease =>
      on_eng (set_leases (delete lease_id leases)) ;;~
      on_eng (fun e => set_retained
        (alter (with_lease_refs (fun n => Z.max 0 (n - 1))) (le_buffer_id lease) (en_retained e)) e) ;;~
      count count_lease_released
  end.

(** The lease an inbound payload is handed out under. *)
Definition issue_lease (buffer_id payload_offset payload_len : Z) : Eng Z :=
  lease_id <~ eng en_next_lease_id ;;
  on_eng (set_next_lease_id (u32_saturating_add lease_id 1)) ;;~
  on_eng (fun e => set_retained
    (alter (with_lease_refs (fun n => u32_saturating_add n 1)) buffer_id (en_retained e)) e) ;;~
  on_eng (fun e => set_leases (<[lease_id := mk_lease buffer_id payload_offset payload_len]> (en_leases e)) e) ;;~
  ret lease_id.

Definition idle (buf : RetainedBuffer) : bool := rt_ingest_done buf && (rt_lease_refs buf =? 0).

Definition sweep_released : Eng unit :=
  retained <~ eng en_retained ;;
  let swept := filter (fun p => idle p.2 = true) (map_to_list retained) in
  on_outcome (fun o => mk_outcome (po_outbound o) (po_events o)
    (po_released_buffers o ++ map (fun p => mk_released p.1 (as_unsigned 32 (blen (rt_bytes p.2)))) swept)
    (po_next_deadline_ms o)) ;;~
  on_eng (set_retained (filter (fun p => idle p.2 = false) retained)).

(** *** Commands *)

Definition encode_std_msgs_string (text : bytes) : outcome CdrCore.CdrError.t bytes :=
  writer <-- CdrWriter.new_default CdrCore.Little ;;
  match CdrWriter.write_string text None writer with
  | (Ok _, writer') => Ok (CdrWriter.into_bytes writer')
  | (Err e, _) => Err e
  | (Panic, _) => Panic
  end.

Definition decode_std_msgs_string (payload : bytes) : outcome CdrCore.CdrError.t bytes :=
  reader <-- CdrReader.open_default payload ;;
  fst (CdrReader.read_string None reader).

(** The failure event of a kind of channel. *)
Definition failed_event (kind : PendingKind.t) (channel_id code : Z) (message : bytes) : AppEvent.t :=
  match kind with
  | PendingKind.Subscribe => AppEvent.SubscribeFailed channel_id code message
  | PendingKind.Publish => AppEvent.PublishFailed channel_id code message
  | PendingKind.ServiceClient | PendingKind.ServiceServer => AppEvent.ServiceFailed channel_id code message
  | PendingKind.ActionClient | PendingKind.ActionServer => AppEvent.ActionFailed channel_id code message
  end.

Definition schema_fault_code (err : SchemaError) : Z :=
  match Registry.wire_error_code (se_code err) with Some code => code | None => WIRE_ERROR_SCHEMA_UNAVAILABLE end.

Definition emit_schema_unavailable_if_needed (type_name : bytes) (channel_id : Z) (kind : PendingKind.t) : Eng bool :=
  row <~ eng en_support_row_id ;;
  match lookup_phase1_root_for_open type_name row Le with
  | Ok _ => ret false
  | Err err => emit (failed_event kind channel_id (schema_fault_code err) (SchemaError_display err)) ;;~ ret true
  | Panic => eng_panic
  end.

(** Build an OpenChannel message (no fault of the registry reaches it) and send
    it; the engine fails with [reason] when it cannot. *)
Definition push_open (message : V CborValue) (reason : string) : Eng unit :=
  msg <~ match message with Ok msg => ret msg | _ => eng_panic end ;;
  pushed <~ eng_push_control msg ;;
  if pushed then ret tt else fail 1 (lit reason) ;;~ eng_return.

Definition insert_pending_open (channel_id : Z) (p : PendingOpen) : Eng unit :=
  on_eng (fun e => set_pending_opens (<[channel_id := p]> (en_pending_opens e)) e).

Definition open_channel_cmd (correlation : bytes) (channel_id operation_kind : Z) (topic type_name : bytes)
    (qos_reliability qos_depth domain_id : Z) (kind : PendingKind.t) : Eng unit := eng_fn (
  unavailable <~ emit_schema_unavailable_if_needed type_name channel_id kind ;;
  (if unavailable then eng_return else ret tt) ;;~
  let depth := if qos_depth =? 0 then Builder.DEFAULT_QOS_DEPTH else qos_depth in
  row <~ eng en_support_row_id ;;
  push_open (Builder.open_topic correlation channel_id operation_kind topic type_name qos_reliability depth domain_id row)
    "open_channel_encode_failed" ;;~
  insert_pending_open channel_id (mk_pending kind topic type_name qos_reliability)).

Definition open_service_cmd (correlation : bytes) (channel_id : Z) (name type_name : bytes) (domain_id : Z)
    (client : bool) : Eng unit := eng_fn (
  let kind := if client then PendingKind.ServiceClient else PendingKind.ServiceServer in
  unavailable <~ emit_schema_unavailable_if_needed type_name channel_id kind ;;
  (if unavailable then eng_return else ret tt) ;;~
  row <~ eng en_support_row_id ;;
  push_open (Builder.open_service correlation channel_id client name type_name domain_id row)
    "open_service_encode_failed" ;;~
  insert_pending_open channel_id (mk_pending kind name type_name 1)).

Definition open_action_cmd (correlation : bytes) (channel_id : Z) (name type_name : bytes) (domain_id : Z)
    (client : bool) : Eng unit := eng_fn (
  let kind := if client then PendingKind.ActionClient else PendingKind.ActionServer in
  unavailable <~ emit_schema_unavailable_if_needed type_name channel_id kind ;;
  (if unavailable then eng_return else ret tt) ;;~
  row <~ eng en_support_row_id ;;
  push_open (Builder.open_action correlation channel_id client name type_name domain_id row)
    "open_action_encode_failed" ;;~
  insert_pending_open channel_id (mk_pending kind name type_name 1)).

Definition publish_failed (channel_id code : Z) (reason : string) : Eng unit :=
  emit (AppEvent.PublishFailed channel_id code (lit reason)).
Definition service_failed (channel_id code : Z) (reason : string) : Eng unit :=
  emit (AppEvent.ServiceFailed channel_id code (lit reason)).
Definition fail_service (channel_id : Z) : Eng unit := service_failed channel_id 1 "cdr_encode_failed".
Definition fail_action (channel_id : Z) : Eng unit :=
  emit (AppEvent.ActionFailed channel_id 1 (lit "cdr_encode_failed")).

Definition publish_header (channel_id : Z) (pub : ActivePublish) : FrameHeader :=
  {| fh_version := 0; fh_opcode := OPCODE_ROS_SAMPLE; fh_flags := if ap_reliable pub then FLAG_ROS_RELIABLE else 0;
     fh_channel_id := channel_id; fh_sequence := ap_seq_out pub; fh_source_time_ns := 0; fh_priority := 2;
     fh_clock_id := 0 |}.

Definition send_sample_payload (channel_id : Z) (payload : bytes) : Eng unit :=
  publishes <~ eng en_active_publishes ;;
  match publishes !! channel_id with
  | None => publish_failed channel_id 25 "publish_channel_not_ready"
  | Some pub =>
      b <~ try_ (encode_frame (publish_header channel_id pub) [] payload) ;;
      match b with
      | None => publish_failed channel_id 1 "sample_frame_encode_failed"
      | Some b =>
          recorded <~ record_outbound_frame b ;;
          match recorded with
          | Unparsable => publish_failed channel_id 1 "sample_frame_parse_failed"
          | Unrecorded => publish_failed channel_id 25 "sample_frame_record_failed"
          | Sendable =>
              let next := mk_publish (ap_topic pub) (ap_type_name pub) (ap_reliable pub)
                            (u64_saturating_add (ap_seq_out pub) 1) in
              on_eng (fun e => set_active_publishes (<[channel_id := next]> (en_active_publishes e)) e) ;;~
              push_outbound b ;;~
              count count_sample_sent
          end
      end
  end.

Definition send_sample (channel_id : Z) (string_data : bytes) : Eng unit :=
  payload <~ try_ (encode_std_msgs_string string_data) ;;
  match payload with
  | Some payload => send_sample_payload channel_id payload
  | None => publish_failed channel_id 1 "cdr_encode_failed"
  end.

Definition send_point_cloud2 (channel_id : Z) (view : PointCloud.PointCloud2View) : Eng unit :=
  payload <~ try_ (PointCloud.encode_point_cloud2_from_sdk_meta view) ;;
  match payload with
  | Some payload => send_sample_payload channel_id payload
  | None => publish_failed channel_id 1 "cdr_encode_failed"
  end.

(** A host value of a type, as CDR. *)
Definition transcode (type_name value : bytes) : outcome unit bytes :=
  msg <-- map_err (fun _ => tt) (HostValue.decode_host_value type_name value) ;;
  map_err (fun _ => tt) (HostValue.encode_generated_cdr msg).

Definition send_generated (channel_id : Z) (type_name value : bytes) : Eng unit :=
  payload <~ try_ (transcode type_name value) ;;
  match payload with
  | Some payload => send_sample_payload channel_id payload
  | None => publish_failed channel_id 1 "cdr_encode_failed"
  end.

(** [None] is the code's [Err(())]. *)
Definition encode_op_payload (channel_id : Z) (op : HostValue.GeneratedOpKind) (b : bytes) : Eng (option bytes) :=
  services <~ eng en_active_services ;;
  actions <~ eng en_active_actions ;;
  let type_name := match services !! channel_id with
                   | Some s => Some (as_type_name s)
                   | None => option_map aa_type_name (actions !! channel_id)
                   end in
  match type_name with
  | None => ret (Some b)
  | Some type_name =>
      match HostValue.generated_op_type_name type_name op with
      | None => ret (Some b)
      | Some section => try_ (transcode section b)
      end
  end.

(** The next channel-wide sequence of a service or action channel, taken before
    the frame is built. *)
Definition take_sequence (channel_id : Z) (operation_id : bytes) : Eng Z :=
  services <~ eng en_active_services ;;
  actions <~ eng en_active_actions ;;
  match services !! channel_id with
  | Some svc =>
      let seq := as_next_seq svc in
      on_eng (set_active_services (<[channel_id := mk_service (as_name svc) (as_type_name svc) (as_client svc)
        (u64_saturating_add seq 1) (<[operation_id := seq]> (as_seq_out svc))]> services)) ;;~
      ret seq
  | None =>
      match actions !! channel_id with
      | Some act =>
          let seq := aa_next_seq act in
          on_eng (set_active_actions (<[channel_id := mk_action (aa_name act) (aa_type_name act) (aa_client act)
            (u64_saturating_add seq 1) (<[operation_id := seq]> (aa_seq_out act))]> actions)) ;;~
          ret seq
      | None =>
          pending <~ eng en_pending_opens ;;
          match option_map pd_kind (pending !! channel_id) with
          | Some PendingKind.ActionClient | Some PendingKind.ActionServer =>
              emit (AppEvent.ActionFailed channel_id 25 (lit "action_channel_not_ready"))
          | _ => service_failed channel_id 25 "service_action_channel_not_ready"
          end ;;~
          eng_return
      end
  end.

Definition operation_header (channel_id opcode sequence : Z) (reliable : bool) : FrameHeader :=
  {| fh_version := 0; fh_opcode := opcode; fh_flags := if reliable then FLAG_ROS_RELIABLE else 0;
     fh_channel_id := channel_id; fh_sequence := sequence; fh_source_time_ns := 0; fh_priority := 2; fh_clock_id := 0 |}.

Definition operation_extension (operation_id : bytes) : R2wpExtension :=
  {| ext_type_id := OPERATION_ID_EXTENSION_TYPE; ext_critical := true; ext_value := operation_id |}.

Definition send_service_action_frame (channel_id opcode : Z) (operation_id payload : bytes) (reliable : bool)
    : Eng unit := eng_fn (
  sequence <~ take_sequence channel_id operation_id ;;
  area <~ try_ (encode_extension_area [operation_extension operation_id]) ;;
  match area with
  | None => service_failed channel_id 1 "operation_id_encode_failed"
  | Some area =>
      b <~ try_ (encode_frame (operation_header channel_id opcode sequence reliable) area payload) ;;
      match b with
      | None => service_failed channel_id 1 "service_action_frame_encode_failed"
      | Some b =>
          recorded <~ record_outbound_frame b ;;
          match recorded with
          | Unparsable => service_failed channel_id 1 "service_action_frame_parse_failed"
          | Unrecorded => service_failed channel_id 25 "service_action_frame_record_failed"
          | Sendable => push_outbound b
          end
      end
  end).

(** A service or action payload of the application, transcoded when its type is generated. *)
Definition send_op (channel_id opcode : Z) (op : HostValue.GeneratedOpKind) (operation_id value : bytes) (reliable : bool)
    (on_failure : Eng unit) : Eng unit :=
  payload <~ encode_op_payload channel_id op value ;;
  match payload with
  | Some payload => send_service_action_frame channel_id opcode operation_id payload reliable
  | None => on_failure
  end.

Definition client_hello (transferable webtransport : bool) : ClientHello :=
  {| wire_versions := [0];
     ch_transport := {| webtransport_http3 := webtransport; binary_wss := true; max_datagram_size := None |};
     ch_buffer := {| transferable_arraybuffer := transferable; shared_arraybuffer := false |};
     requested_limits := {| rl_max_channels := None; rl_max_session_bytes := None; rl_max_message_bytes := None;
                            rl_max_control_payload_bytes := None |};
     ch_extensions := [] |}.

Definition start (transferable webtransport : bool) : Eng unit := eng_fn (
  started <~ eng en_started ;;
  (if started then eng_return else ret tt) ;;~
  on_eng (set_started true) ;;~
  b <~ try_ (encode_client_hello (client_hello transferable webtransport)) ;;
  match b with
  | None => fail 1 (lit "client_hello_encode_failed")
  | Some b =>
      pushed <~ push_bootstrap_outbound b ;;
      if pushed then ret tt else fail 1 (lit "client_hello_record_failed")
  end).

Definition forget_channel (channel_id : Z) : Eng unit :=
  on_eng (fun e => set_pending_opens (delete channel_id (en_pending_opens e)) e) ;;~
  on_eng (fun e => set_active_subscribes (delete channel_id (en_active_subscribes e)) e) ;;~
  on_eng (fun e => set_active_publishes (delete channel_id (en_active_publishes e)) e) ;;~
  on_eng (fun e => set_active_services (delete channel_id (en_active_services e)) e) ;;~
  on_eng (fun e => set_active_actions (delete channel_id (en_active_actions e)) e).

Definition unsubscribe (correlation : bytes) (channel_id : Z) : Eng unit := eng_fn (
  pushed <~ eng_push_control (Builder.close_channel correlation channel_id) ;;
  (if pushed then ret tt else fail 1 (lit "close_channel_encode_failed") ;;~ eng_return) ;;~
  forget_channel channel_id).

Definition close_command : Eng unit :=
  on_eng (set_closed true) ;;~
  phase <~ eng engine_phase ;;
  emit (AppEvent.Closed phase).

Definition handle_command (cmd : AppCommand.t) : Eng unit :=
  match cmd with
  | AppCommand.Start transferable webtransport => start transferable webtransport
  | AppCommand.Authenticate correlation scheme token =>
      pushed <~ eng_push_control (Builder.authenticate correlation scheme token) ;;
      if pushed then ret tt else fail 1 (lit "authenticate_encode_failed")
  | AppCommand.Subscribe correlation id topic type_name reliability depth domain_id =>
      open_channel_cmd correlation id 0 topic type_name reliability depth domain_id PendingKind.Subscribe
  | AppCommand.Publish correlation id topic type_name reliability depth domain_id =>
      open_channel_cmd correlation id 1 topic type_name reliability depth domain_id PendingKind.Publish
  | AppCommand.SendSample id string_data => send_sample id string_data
  | AppCommand.SendPointCloud2 id header height width fields point_step row_step is_bigendian is_dense data =>
      send_point_cloud2 id
        {| PointCloud.pc_header := header; PointCloud.height := height; PointCloud.width := width;
           PointCloud.fields := fields; PointCloud.is_bigendian := is_bigendian; PointCloud.point_step := point_step;
           PointCloud.row_step := row_step; PointCloud.data := data; PointCloud.is_dense := is_dense |}
  | AppCommand.SendGenerated id type_name value => send_generated id type_name value
  | AppCommand.OpenService correlation id name type_name domain_id client =>
      open_service_cmd correlation id name type_name domain_id client
  | AppCommand.CallService id operation_id request =>
      send_op id OPCODE_SERVICE_REQUEST HostValue.Request operation_id request true (fail_service id)
  | AppCommand.SendServiceResponse id operation_id response =>
      send_op id OPCODE_SERVICE_RESPONSE HostValue.Response operation_id response true (fail_service id)
  | AppCommand.OpenAction correlation id name type_name domain_id client =>
      open_action_cmd correlation id name type_name domain_id client
  | AppCommand.SendActionGoal id operation_id goal =>
      send_op id OPCODE_ACTION_GOAL HostValue.Goal_ operation_id goal true (fail_action id)
  | AppCommand.CancelAction id operation_id => send_service_action_frame id OPCODE_ACTION_CANCEL operation_id [] true
  | AppCommand.SendActionFeedback id operation_id feedback =>
      send_op id OPCODE_ACTION_FEEDBACK HostValue.Feedback operation_id feedback false (fail_action id)
  | AppCommand.SendActionResult id operation_id result =>
      send_op id OPCODE_ACTION_RESULT HostValue.Result_ operation_id result true (fail_action id)
  | AppCommand.SendActionStatus id operation_id status =>
      send_service_action_frame id OPCODE_ACTION_STATUS operation_id status false
  | AppCommand.Unsubscribe correlation id => unsubscribe correlation id
  | AppCommand.Close => close_command
  end.

(** *** Inbound messages *)

(** [self.control_seq_in += 1]. *)
Definition eng_plus_one (n : Z) : Eng Z :=
  if n =? u64_max then match build with Checked => eng_panic | Wrapping => ret 0 end else ret (n + 1).

Definition or_default {A} (o : option A) (d : A) : A := match o with Some a => a | None => d end.

Definition handle_bootstrap (buffer_id : Z) : Eng unit := eng_fn (
  retained <~ eng en_retained ;;
  match retained !! buffer_id with
  | None => ret tt
  | Some buf =>
      record <~ match parse_bootstrap (rt_bytes buf) with
                | Ok record => ret record | Err err => fail_with err | Panic => eng_panic end ;;
      ingested <~ eng_session (ingest_bootstrap record) ;;
      effects <~ match ingested with inl effects => ret effects | inr err => fail_with err end ;;
      (if fx_bootstrap_failed effects then fail 1 (lit "bootstrap_failed") ;;~ eng_return else ret tt) ;;~
      if fx_entered_selected_plane effects then
        version <~ eng (fun e => ss_selected_wire_version (en_session e)) ;;
        emit (AppEvent.BootstrapComplete (or_default version 0))
      else ret tt
  end).

Definition session_ready_event (fields : fields_t) : Eng unit :=
  let support_row := or_default (eng_field_text fields 8) (lit "J-FT") in
  on_eng (set_support_row_id support_row) ;;~
  emit (AppEvent.SessionReady support_row (or_default (field_domain fields) 0)
          (or_default (eng_field_text fields 7) [])) ;;~
  now <~ eng en_last_timer_ms ;;
  match now with
  | Some now => on_eng (set_next_heartbeat_ms (Some (u64_saturating_add now HEARTBEAT_INTERVAL_MS)))
  | None => ret tt
  end.

(** A channel that became ready moves from the pending opens to the table of its kind. *)
Definition activate (channel_id : Z) (p : PendingOpen) (effective_rel : Z) : Eng unit :=
  let topic := pd_topic p in
  let type_name := pd_type_name p in
  match pd_kind p with
  | PendingKind.Subscribe =>
      emit (AppEvent.Subscribed channel_id topic type_name) ;;~
      on_eng (fun e => set_active_subscribes
        (<[channel_id := mk_pending PendingKind.Subscribe topic type_name effective_rel]> (en_active_subscribes e)) e)
  | PendingKind.Publish =>
      emit (AppEvent.Published channel_id topic type_name effective_rel) ;;~
      on_eng (fun e => set_active_publishes
        (<[channel_id := mk_publish topic type_name (negb (effective_rel =? 2)) 0]> (en_active_publishes e)) e)
  | PendingKind.ServiceClient | PendingKind.ServiceServer =>
      let client := bool_decide (pd_kind p = PendingKind.ServiceClient) in
      emit (AppEvent.ServiceReady channel_id topic type_name client) ;;~
      on_eng (fun e => set_active_services
        (<[channel_id := mk_service topic type_name client 0 ∅]> (en_active_services e)) e)
  | PendingKind.ActionClient | PendingKind.ActionServer =>
      let client := bool_decide (pd_kind p = PendingKind.ActionClient) in
      emit (AppEvent.ActionReady channel_id topic type_name client) ;;~
      on_eng (fun e => set_active_actions
        (<[channel_id := mk_action topic type_name client 0 ∅]> (en_active_actions e)) e)
  end.

(** [self.pending_opens.remove(&channel_id)]. *)
Definition remove_pending_open (channel_id : Z) : Eng (option PendingOpen) :=
  pending <~ eng en_pending_opens ;;
  on_eng (set_pending_opens (delete channel_id pending)) ;;~
  ret (pending !! channel_id).

Definition channel_ready_event (fields : fields_t) (effects : SessionEffects) : Eng unit :=
  let field_id := option_map (as_unsigned 32) (eng_field_uint fields 29) in
  let channel_id := or_default (match fx_channel_failed effects with Some id => Some id | None => field_id end) 0 in
  let result := or_default (eng_field_uint fields 33) 3 in
  pending <~ remove_pending_open channel_id ;;
  if (result =? 0) || (result =? 2) then
    let p := or_default pending (mk_pending PendingKind.Subscribe [] [] 1) in
    activate channel_id p (or_default (field_effective_reliability fields) (pd_qos_reliability p))
  else
    let '(code, message) := channel_ready_error_body fields in
    emit (failed_event (or_default (option_map pd_kind pending) PendingKind.Subscribe) channel_id code message).

Definition heartbeat_event (fields : fields_t) : Eng unit :=
  emit (AppEvent.Heartbeat (or_default (eng_field_uint fields 40) 0)) ;;~
  counter <~ eng en_heartbeat_counter ;;
  let counter := u64_saturating_add counter 1 in
  on_eng (set_heartbeat_counter counter) ;;~
  eng_push_control (Builder.heartbeat counter) ;;~
  ret tt.

Definition error_event (fields : fields_t) (effects : SessionEffects) : Eng unit :=
  let code d := as_unsigned 8 (or_default (eng_field_uint fields 48) d) in
  let message d := or_default (eng_field_text fields 51) d in
  if fx_session_error effects then fail (code 25) (message (lit "session_error"))
  else
    match fx_operation_cancelled effects, fx_channel_failed effects with
    | Some channel_id, _ =>
        emit (AppEvent.OperationCancelled channel_id (code 15) (message (lit "operation_cancelled")))
    | None, Some channel_id =>
        let body := channel_ready_error_body fields in
        pending <~ remove_pending_open channel_id ;;
        emit (failed_event (or_default (option_map pd_kind pending) PendingKind.Subscribe) channel_id (code body.1)
                (message body.2))
    | None, None => ret tt
    end.

Definition handle_control (kind : Z) (fields : fields_t) (effects : SessionEffects) : Eng unit :=
  if (kind =? CONTROL_KIND_SESSION_READY) && fx_entered_ready effects then session_ready_event fields
  else if kind =? CONTROL_KIND_CHANNEL_READY then channel_ready_event fields effects
  else if kind =? CONTROL_KIND_HEARTBEAT then heartbeat_event fields
  else if (kind =? CONTROL_KIND_GRAPH_SNAPSHOT) && bool_decide (is_Some (fx_graph_snapshot effects)) then
    emit (AppEvent.GraphSnapshot (or_default (fx_graph_snapshot effects) 0) (graph_nodes_json fields)
            (graph_endpoints_json fields))
  else if (kind =? CONTROL_KIND_GRAPH_DELTA) && bool_decide (is_Some (fx_graph_delta effects)) then
    emit (AppEvent.GraphDelta (or_default (fx_graph_delta effects) 0))
  else if kind =? CONTROL_KIND_ERROR then error_event fields effects
  else ret tt.

(** [payload_offset.checked_add(payload_len).is_none_or(|end| end > declared_len)]. *)
Definition payload_out_of_bounds (payload_offset payload_len declared_len : Z) : bool :=
  match checked_add usize_max payload_offset payload_len with
  | Some end_ => declared_len <? end_
  | None => true
  end.

(** The text of an inline [std_msgs/msg/String] sample; on wasm32 the host decodes it. *)
Definition sample_text (frame : DecodedFrame) (payload : bytes) (payload_len : Z) : Eng (option bytes) :=
  match the_target with
  | Wasm32 => ret None
  | Native64 =>
      if blen payload =? payload_len then
        subscribes <~ eng en_active_subscribes ;;
        let type_name := or_default (option_map pd_type_name (subscribes !! df_channel_id frame)) [] in
        if text_is type_name STD_MSGS_STRING || text_is type_name (lit "std_msgs/String") || (blen type_name =? 0)
        then try_ (decode_std_msgs_string payload)
        else ret None
      else ret None
  end.

Definition handle_sample (buffer_id : Z) (frame : DecodedFrame) (declared_len : Z) : Eng unit := eng_fn (
  match df_payload frame with
  | Frame.Control _ => ret tt
  | Application payload =>
      let payload_offset := FRAME_HEADER_LENGTH + df_extension_len frame in
      let payload_len := df_payload_len frame in
      (if payload_out_of_bounds payload_offset payload_len declared_len
       then fail 25 (lit "sample_payload_out_of_bounds") ;;~ eng_return else ret tt) ;;~
      string_data <~ sample_text frame payload payload_len ;;
      lease_id <~ issue_lease buffer_id payload_offset payload_len ;;
      emit (AppEvent.Sample (df_channel_id frame) lease_id (df_sequence frame) (df_source_time_ns frame) string_data) ;;~
      count count_sample_emitted
  end).

Definition operation_event (frame : DecodedFrame) (operation_id : bytes) (lease_id : Z) : option AppEvent.t :=
  let opcode := df_opcode frame in
  let id := df_channel_id frame in
  let sequence := df_sequence frame in
  if opcode =? OPCODE_SERVICE_REQUEST then Some (AppEvent.ServiceRequest id operation_id lease_id sequence)
  else if opcode =? OPCODE_SERVICE_RESPONSE then Some (AppEvent.ServiceResponse id operation_id lease_id sequence)
  else if opcode =? OPCODE_ACTION_GOAL then Some (AppEvent.ActionGoal id operation_id lease_id sequence)
  else if opcode =? OPCODE_ACTION_FEEDBACK then Some (AppEvent.ActionFeedback id operation_id lease_id sequence)
  else if opcode =? OPCODE_ACTION_RESULT then Some (AppEvent.ActionResult id operation_id lease_id sequence)
  else if opcode =? OPCODE_ACTION_STATUS then Some (AppEvent.ActionStatus id operation_id lease_id sequence)
  else None.

(** The same extension walk as the session's. *)
Definition eng_operation_id (frame : DecodedFrame) : option bytes := operation_id_in (df_extensions frame).

Definition handle_service_action (buffer_id : Z) (frame : DecodedFrame) (declared_len : Z) : Eng unit := eng_fn (
  match df_payload frame with
  | Frame.Control _ => ret tt
  | Application _ =>
      let payload_offset := FRAME_HEADER_LENGTH + df_extension_len frame in
      let payload_len := df_payload_len frame in
      (if payload_out_of_bounds payload_offset payload_len declared_len
       then fail 25 (lit "service_action_payload_out_of_bounds") ;;~ eng_return else ret tt) ;;~
      (if df_opcode frame =? OPCODE_ACTION_CANCEL then eng_return else ret tt) ;;~
      operation_id <~ match eng_operation_id frame with
                      | Some id => ret id
                      | None => if df_opcode frame =? OPCODE_ACTION_STATUS then ret (zeros 16)
                                else fail 25 (lit "missing_operation_id") ;;~ eng_return
                      end ;;
      lease_id <~ issue_lease buffer_id payload_offset payload_len ;;
      match operation_event frame operation_id lease_id with
      | Some event => emit event
      | None => release_lease lease_id
      end
  end).

Definition is_operation_opcode (opcode : Z) : bool :=
  existsb (Z.eqb opcode)
    [OPCODE_SERVICE_REQUEST; OPCODE_SERVICE_RESPONSE; OPCODE_ACTION_GOAL; OPCODE_ACTION_FEEDBACK;
     OPCODE_ACTION_RESULT; OPCODE_ACTION_STATUS; OPCODE_ACTION_CANCEL].

(** A control frame: the next sequence, then its message. *)
Definition handle_control_frame (frame : DecodedFrame) (effects : SessionEffects) : Eng unit :=
  expected <~ eng en_control_seq_in ;;
  (if negb (df_sequence frame =? expected)
   then fail 25 (lit "control_sequence_mismatch") ;;~ eng_return else ret tt) ;;~
  next <~ eng_plus_one expected ;;
  on_eng (set_control_seq_in next) ;;~
  match df_payload frame with
  | Application _ => fail 25 (lit "missing_control_payload") ;;~ eng_return
  | Frame.Control msg => handle_control (cm_kind msg) (cm_fields msg) effects
  end.

Definition handle_frame (buffer_id : Z) : Eng unit := eng_fn (
  retained <~ eng en_retained ;;
  match retained !! buffer_id with
  | None => ret tt
  | Some buf =>
      options <~ eng en_frame_options ;;
      let declared_len := rt_declared_len buf in
      frame <~ match parse_frame_declared (rt_bytes buf) declared_len (Some options) with
               | Ok frame => ret frame | Err err => fail_with err | Panic => eng_panic end ;;
      ingested <~ eng_session (ingest_frame frame) ;;
      effects <~ match ingested with inl effects => ret effects | inr err => fail_with err end ;;
      if df_opcode frame =? OPCODE_CONTROL_CBOR then handle_control_frame frame effects
      else if df_opcode frame =? OPCODE_ROS_SAMPLE then handle_sample buffer_id frame declared_len
      else if is_operation_opcode (df_opcode frame) then handle_service_action buffer_id frame declared_len
      else ret tt
  end).

(** Retain the bytes under the host's buffer id, or a fresh one for 0. *)
Definition retain_buffer (buffer_id : Z) (b : bytes) : Eng Z :=
  if buffer_id =? 0 then alloc_buffer b
  else
    buf <~ new_retained b ;;
    on_eng (fun e => set_retained (<[buffer_id := buf]> (en_retained e)) e) ;;~
    on_eng (fun e => set_next_buffer_id (Z.max (en_next_buffer_id e) (u32_saturating_add buffer_id 1)) e) ;;~
    ret buffer_id.

Definition handle_ws_bytes (buffer_id : Z) (b : bytes) : Eng unit :=
  count (count_ingest (blen b)) ;;~
  id <~ retain_buffer buffer_id b ;;
  phase <~ eng engine_phase ;;
  (if negb (in_selected_plane phase) then handle_bootstrap id else handle_frame id) ;;~
  on_eng (fun e => set_retained (alter mark_ingest_done id (en_retained e)) e).

(** *** Timer and poll *)

Definition handle_timer (now_ms : Z) : Eng unit := eng_fn (
  on_eng (set_last_timer_ms (Some now_ms)) ;;~
  phase <~ eng engine_phase ;;
  (if is_ready phase then ret tt else eng_return) ;;~
  let next := Some (u64_saturating_add now_ms HEARTBEAT_INTERVAL_MS) in
  deadline <~ eng en_next_heartbeat_ms ;;
  match deadline with
  | None => on_eng (set_next_heartbeat_ms next)
  | Some deadline =>
      if deadline <=? now_ms then
        counter <~ eng en_heartbeat_counter ;;
        let counter := u64_saturating_add counter 1 in
        on_eng (set_heartbeat_counter counter) ;;~
        eng_push_control (Builder.heartbeat counter) ;;~
        on_eng (set_next_heartbeat_ms next)
      else ret tt
  end).

Definition handle_event (event : HostEvent.t) : Eng unit := eng_fn (
  match event with
  | HostEvent.Command cmd => handle_command cmd
  | HostEvent.WsBytes buffer_id b => handle_ws_bytes buffer_id b
  | HostEvent.Timer now_ms => handle_timer now_ms
  | HostEvent.ReleaseLease lease_id => release_lease lease_id
  end).

Fixpoint handle_events (events : list HostEvent.t) : Eng unit :=
  match events with
  | [] => ret tt
  | event :: events' =>
      handle_event event ;;~
      closed <~ eng en_closed ;;
      if closed then ret tt else handle_events events'
  end.

(** The time a turn took is what the host's clock says; a wasm32 build has none. *)
Definition poll_nanos (nanos : Z) : Z := match the_target with Wasm32 => 0 | Native64 => as_unsigned 64 nanos end.

(** The lines of [run_poll] around its body. *)
Definition poll_turn (nanos : Z) (body : Eng unit) : Eng unit :=
  closed <~ eng en_closed ;;
  (if closed then phase <~ eng engine_phase ;; emit (AppEvent.Closed phase)
   else
     eng_fn body ;;~
     sweep_released ;;~
     deadline <~ eng en_next_heartbeat_ms ;;
     on_outcome (fun o => mk_outcome (po_outbound o) (po_events o) (po_released_buffers o) deadline)) ;;~
  count (count_poll (poll_nanos nanos)).

Definition run_poll (nanos : Z) (body : Eng unit) (e : ClientEngine) : outcome unit PollOutcome * ClientEngine :=
  let '(r, w) := poll_turn nanos body (mk_ew e default_outcome) in
  (Prelude.omap (fun _ => ew_outcome w) r, ew_engine w).

Definition poll (nanos : Z) (events : list HostEvent.t) (e : ClientEngine) : outcome unit PollOutcome * ClientEngine :=
  run_poll nanos (handle_events (take MAX_HOST_EVENTS_PER_POLL events)) e.

Definition poll_ws_bytes (nanos buffer_id : Z) (b : bytes) (e : ClientEngine) : outcome unit PollOutcome * ClientEngine :=
  run_poll nanos (handle_ws_bytes buffer_id b) e.

(** ** What the host reads through a lease *)

Definition buffer_bytes (e : ClientEngine) (buffer_id : Z) : option bytes := option_map rt_bytes (en_retained e !! buffer_id).
Definition lease_buffer_id (e : ClientEngine) (lease_id : Z) : option Z := option_map le_buffer_id (en_leases e !! lease_id).

(** [bytes.get(i..j)]. *)
Definition get_range (l : bytes) (i j : Z) : option bytes :=
  if (i <=? j) && (j <=? blen l) then Some (sub_list l i (j - i)) else None.

Definition lease_payload_view (e : ClientEngine) (lease_id : Z) : option bytes :=
  match en_leases e !! lease_id with
  | None => None
  | Some lease =>
      match en_retained e !! le_buffer_id lease with
      | None => None
      | Some buf =>
          get_range (rt_bytes buf) (le_payload_offset lease) (usize_add (le_payload_offset lease) (le_payload_len lease))
      end
  end.

(** The address of a view in the engine's memory is a parameter. *)
Definition lease_payload_abi (as_ptr : bytes -> Z) (e : ClientEngine) (lease_id : Z) : Z * Z :=
  match en_leases e !! lease_id with
  | None => (0, 0)
  | Some lease =>
      match lease_payload_view e lease_id with
      | Some view => (as_unsigned 32 (as_ptr view), as_unsigned 32 (blen view))
      | None => (0, as_unsigned 32 (le_payload_len lease))
      end
  end.

Definition lease_point_cloud2_view (e : ClientEngine) (lease_id : Z)
    : option (outcome CdrCore.CdrError.t PointCloud.PointCloud2View) :=
  option_map PointCloud.decode_point_cloud2_le (lease_payload_view e lease_id).

End Engine.
