(* ===== verification/EngineCodecs.v ===== *)
(** * The payload encoders of the client engine are total

    [calm m]: a CDR writer operation that never panics and keeps the writer well
    formed; what it wrote is a buffer of bytes.  With it, the encoders behind
    the application's commands answer a byte buffer or a fault, and the host
    layout's transcoding does on a 64-bit target. *)

From S2P Require Import Prelude Utf8 CdrCore Generated HostReader HostValue HostTheorems EngineTypes Engine.
From S2P Require CdrReader CdrWriter PointCloud.
Import CdrWriter.
#[local] Open Scope Z_scope.

(** An outcome that is a byte buffer or a fault. *)
Definition tame {E} (m : outcome E bytes) : Prop :=
  match m with Ok b => bytes_ok b | Err _ => True | Panic => False end.

Lemma tame_map_err {E F} (f : E -> F) (m : outcome E bytes) : tame m -> tame (map_err f m).
Proof. by destruct m. Qed.

Section Calm.
Context `{Target}.

Definition calm {A} (m : SM CdrWriter CdrError.t A) : Prop :=
  forall w, writer_wf w -> wp m (fun _ w' => writer_wf w') (fun _ _ => True) w.

Lemma calm_bind {A B} (m : SM CdrWriter CdrError.t A) (k : A -> SM CdrWriter CdrError.t B) :
  calm m -> (forall a, calm (k a)) -> calm (bind m k).
Proof.
  intros Hm Hk w Hw. apply wp_bind. eapply wp_mono; [by apply Hm | | done]. intros a w' Hw'. by apply Hk.
Qed.

Lemma calm_ret {A} (a : A) : calm (ret a).
Proof. by intros w Hw. Qed.

Lemma calm_nested n : calm (CdrWriter.enter_nested n).
Proof. intros w Hw. unfold CdrWriter.enter_nested, wp. by destruct (_ <? _). Qed.

Lemma calm_put m ok align (body : CdrWriter -> bytes) :
  (forall w, writer_wf w -> put_spec m w (ok w) align (body w)) -> 1 <= align <= 8 -> (forall w, bytes_ok (body w)) ->
  calm m.
Proof.
  intros Hput Ha Hb w Hw. eapply wp_mono; [by apply Hput | | done]. intros _ w' (_ & -> & Hle).
  pose proof (wpadding_wf w align Hw Ha) as Hpad. destruct Hw as (Hl & Hc & Hbuf & Hcap).
  split; [done |]. split; [done |]. cbn [set_buf buf capacity].
  split; [by rewrite !bytes_ok_app; split_and!; [| apply bytes_ok_zeros |] |].
  rewrite !blen_app, blen_zeros by lia. pose proof (blen_nonneg (body w)). lia.
Qed.

Lemma to_stream_ok w n v : bytes_ok (to_stream w n v).
Proof. unfold to_stream. case_match; [apply bytes_ok_to_le | apply bytes_ok_to_be]. Qed.

Lemma calm_span n v : (1 <= n <= 8)%nat -> calm (write_span n v).
Proof.
  intros Hn. eapply (calm_put _ (fun _ => True)); [intros; by apply write_span_spec | lia | intros; apply to_stream_ok].
Qed.

Lemma calm_u16 v : calm (write_u16 v).
Proof. apply (calm_span 2). lia. Qed.
Lemma calm_u32 v : calm (write_u32 v).
Proof. apply (calm_span 4). lia. Qed.
Lemma calm_u64 v : calm (write_u64 v).
Proof. apply (calm_span 8). lia. Qed.

Lemma calm_u8 v : is_byte v -> calm (write_u8 v).
Proof.
  intros Hv. eapply (calm_put _ (fun _ => True)); [intros; by apply write_u8_spec | lia |]. intros w. constructor; [done | constructor].
Qed.

Lemma calm_bool b : calm (write_bool b).
Proof. apply calm_u8. by destruct b. Qed.

Lemma calm_i8 v : calm (write_i8 v).
Proof. apply calm_u8. unfold as_unsigned, is_byte. apply Z.mod_pos_bound. lia. Qed.

Lemma calm_string s : bytes_ok s -> calm (write_string s None).
Proof.
  intros Hs. eapply calm_put; [intros; by apply write_string_spec | lia |]. intros w. unfold string_body.
  rewrite !bytes_ok_app. split_and!; [apply to_stream_ok | done | by repeat constructor].
Qed.

Lemma bytes_ok_concat {A} (f : A -> bytes) l : (forall a, bytes_ok (f a)) -> bytes_ok (concat (map f l)).
Proof. intros Hf. induction l as [| a l IH]; [constructor |]. cbn [map concat]. by apply bytes_ok_app. Qed.

Lemma calm_wstring s mb : CdrWriter.bound_u32 mb -> calm (write_wstring s mb).
Proof.
  intros Hm. eapply calm_put; [intros; by apply write_wstring_spec | lia |]. intros w. unfold wstring_body.
  apply bytes_ok_app. split; [apply to_stream_ok | apply bytes_ok_concat; intros; apply to_stream_ok].
Qed.

Lemma calm_string_bound s mb : CdrWriter.bound_u32 mb -> bytes_ok s -> calm (write_string s mb).
Proof.
  intros Hm Hs. eapply calm_put; [intros; by apply write_string_spec | lia |]. intros w. unfold string_body.
  rewrite !bytes_ok_app. split_and!; [apply to_stream_ok | done | by repeat constructor].
Qed.

Lemma calm_sequence_length n mb : calm (write_sequence_length n mb).
Proof.
  eapply calm_put; [intros; by apply write_sequence_length_spec | lia |]. intros w. apply to_stream_ok.
Qed.

Lemma calm_byte_sequence s mb : bytes_ok s -> calm (write_byte_sequence s mb).
Proof.
  intros Hs. eapply calm_put; [intros; by apply write_byte_sequence_spec | lia |]. intros w.
  apply bytes_ok_app. split; [apply to_stream_ok | done].
Qed.

Lemma bounded_16 : CdrWriter.bound_u32 (Some 16).
Proof. by unfold CdrWriter.bound_u32, u32_max. Qed.

Lemma text16_bytes s : text16 s -> bytes_ok s.
Proof. intros [Hs _]. by apply utf8_valid_bytes. Qed.

(** A fresh writer, an operation, its bytes. *)
Lemma calm_buffer (m : SM CdrWriter CdrError.t unit) e :
  calm m -> tame (w <-- new_default e ;;
    match m w with (Ok _, w') => Ok (into_bytes w') | (Err e, _) => Err e | (Panic, _) => Panic end).
Proof.
  intros Hm. destruct (new_default_ok e) as (w & E). rewrite E. cbn [obind].
  destruct (new_wf e limits_defaults w limits_defaults_ok E) as (Hw & _). specialize (Hm w Hw). unfold wp in Hm.
  destruct (m w) as [[[] | |] w']; [apply Hm | done | done].
Qed.

End Calm.

(** Walk a field-by-field encoder. *)
Ltac calm_field :=
  first
    [ apply calm_bool | apply calm_i8 | apply calm_nested | apply calm_sequence_length
    | apply calm_u16 | apply calm_u32 | apply calm_u64 | apply calm_u8 | apply calm_string | apply calm_string_bound; [apply bounded_16 |]
    | apply calm_wstring; first [done | apply bounded_16] | apply calm_byte_sequence ].
Ltac calm :=
  repeat lazymatch goal with
    | |- calm (ret _) => apply calm_ret
    | |- calm (bind _ _) => apply calm_bind; [| intros]
    | |- calm _ => calm_field
    end; try assumption.

Section Encoders.
Context `{Target}.

Lemma tame_std_msgs_string text : bytes_ok text -> tame (encode_std_msgs_string text).
Proof. intros Ht. apply (calm_buffer (write_string text None)). by calm. Qed.

(** *** PointCloud2 *)

Definition cloud_bytes_ok (v : PointCloud.PointCloud2View) : Prop :=
  bytes_ok (PointCloud.frame_id (PointCloud.pc_header v)) /\ bytes_ok (PointCloud.data v) /\
  Forall (fun f => bytes_ok (PointCloud.pf_name f) /\ is_byte (PointCloud.pf_datatype f)) (PointCloud.fields v).

Lemma calm_fields fs n :
  Forall (fun f => bytes_ok (PointCloud.pf_name f) /\ is_byte (PointCloud.pf_datatype f)) fs ->
  calm (PointCloud.encode_fields fs n).
Proof.
  induction 1 as [| f fs [Hn Hd] _ IH]; cbn [PointCloud.encode_fields]; [by calm |].
  unfold PointCloud.encode_point_field. calm.
Qed.

Lemma tame_point_cloud2 v : cloud_bytes_ok v -> tame (PointCloud.encode_point_cloud2_from_sdk_meta v).
Proof.
  intros (Hf & Hd & Hfs). unfold PointCloud.encode_point_cloud2_from_sdk_meta.
  destruct (checked_mul _ _ _); [| done]. cbn [ok_or obind]. destruct (negb _); [done |].
  apply (calm_buffer (PointCloud.encode_point_cloud2 v)).
  unfold PointCloud.encode_point_cloud2, PointCloud.encode_point_cloud2_nested, PointCloud.encode_header.
  calm; by apply calm_fields.
Qed.

(** *** The generated types *)

Lemma calm_scalars v n : scalars_ok v -> calm (primitive_scalars.encode_primitive_scalars v n).
Proof. intros []. unfold primitive_scalars.encode_primitive_scalars. calm; by apply text16_bytes. Qed.

Lemma calm_f64s l : calm (collections.write_f64s l).
Proof. induction l; cbn [collections.write_f64s]; calm. Qed.

Lemma calm_collections v n : collections_ok v -> calm (collections.encode_collections v n).
Proof.
  intros []. unfold collections.encode_collections. destruct (collections.fixed_i32 v) as [[a b] c].
  calm; [apply calm_f64s | by apply text16_bytes].
Qed.

Lemma calm_nested_sample v n : nested_ok v -> calm (nested_sample.encode_nested_sample v n).
Proof.
  intros []. unfold nested_sample.encode_nested_sample, time.encode_time.
  calm; [by apply calm_scalars | by apply calm_collections].
Qed.

Lemma tame_generated m : message_ok m -> tame (encode_generated_cdr m).
Proof.
  intros Hm. destruct m as [v | v | v | [v] | [v acc] | [v] | [v] | [p v]]; cbn [encode_generated_cdr message_ok] in *.
  - apply calm_buffer. by apply calm_scalars.
  - apply calm_buffer. by apply calm_collections.
  - apply calm_buffer. by apply calm_nested_sample.
  - apply calm_buffer. unfold echo_nested.write_request. calm. by apply calm_nested_sample.
  - apply calm_buffer. unfold echo_nested.write_response. calm. by apply calm_nested_sample.
  - apply calm_buffer. unfold measure_sequence.write_goal. calm. by apply calm_collections.
  - apply calm_buffer. unfold measure_sequence.write_result. calm. by apply calm_nested_sample.
  - destruct Hm as [_ Hm]. apply calm_buffer. unfold measure_sequence.write_feedback. calm. by apply calm_nested_sample.
Qed.

(** Transcoding a host value: on a 64-bit target whatever the bytes; everywhere
    for a value the encoder of the host layout wrote. *)
Lemma tame_transcode name value : usize_max = u64_max -> rust_slice value -> tame (transcode name value).
Proof.
  intros Hw Hv. unfold transcode. pose proof (decode_host_value_typed (Hinput := Build_Input _ value Hv Hw) name) as Ht.
  destruct (decode_host_value name value) as [m | |]; [| done..]. cbn [map_err obind].
  destruct Ht as [_ Ht]. by apply tame_map_err, tame_generated.
Qed.

Lemma tame_honest m :
  message_ok m -> blen (encode_host_value m) <= isize_max -> tame (transcode (type_name m) (encode_host_value m)).
Proof.
  intros Hm Hl. unfold transcode, decode_host_value. pose proof (host_value_reads m Hm [] []) as Hr.
  rewrite app_nil_l, app_nil_r in Hr. change (blen (A := Z) []) with 0 in Hr. rewrite Hr by done.
  rewrite Z.add_0_l, Z.eqb_refl. cbn. by apply tame_map_err, tame_generated.
Qed.

(** Reading a string back is total as well. *)
Lemma decode_string_total payload : bytes_ok payload -> decode_std_msgs_string payload <> Panic.
Proof.
  intros Hb. unfold decode_std_msgs_string. pose proof (CdrReader.open_spec payload limits_defaults limits_defaults_ok Hb) as Ho.
  unfold CdrReader.open_default. destruct (CdrReader.open payload limits_defaults) as [r | |]; [| done..]. cbn [obind].
  destruct Ho as (_ & _ & _ & _ & _ & Hr). pose proof (CdrReader.read_string_spec r None Hr) as Hs.
  unfold CdrReader.field_spec, wp in Hs. by destruct (CdrReader.read_string None r) as [[| |] r'].
Qed.

End Encoders.
