(* ===== verification/EngineSpec.v ===== *)
(** * The client engine: contracts and invariant

    What the types of the application's commands guarantee, how the messages a
    poll hands to the host relate to the session's history, and the invariant
    the engine keeps between polls and within one. *)

From stdpp Require Import gmap.
From S2P Require Import Prelude Utf8 ProtocolError Cbor Extension ControlSchema Control Frame Bootstrap Session SessionProofs.
From S2P Require Import Registry RegistryTheorems EngineTypes Engine EngineCodecs.
From S2P Require PointCloud HostValue BuilderProofs ConnectionSpec.
Import BuilderProofs(id_bytes).
Import ConnectionSpec(is_sequence).
#[local] Open Scope Z_scope.

(** ** Inputs *)

(** Texts and byte strings whose length a 53-bit CBOR head can carry; no memory
    holds longer ones. *)
Definition carried_text (t : bytes) : Prop := utf8_valid t = true /\ blen t <= MAX_SAFE_INTEGER.
Definition carried_bytes (b : bytes) : Prop := bytes_ok b /\ blen b <= MAX_SAFE_INTEGER.
Definition is_u32 (n : Z) : Prop := 0 <= n <= u32_max.

Section Inputs.
Context `{Target}.

(** A host value: its transcoding is a byte buffer or a fault. *)
Definition host_value_ok (v : bytes) : Prop := bytes_ok v /\ forall name, tame (transcode name v).

Definition open_ok (correlation : bytes) (id : Z) (name type_name : bytes) (domain_id : Z) : Prop :=
  id_bytes 16 correlation /\ is_u32 id /\ carried_text name /\ carried_text type_name /\ is_byte domain_id.
Definition operation_ok (id : Z) (operation_id payload : bytes) : Prop :=
  is_u32 id /\ id_bytes 16 operation_id /\ host_value_ok payload.

(** What the Rust types guarantee of a command. *)
Definition command_ok (cmd : AppCommand.t) : Prop :=
  match cmd with
  | AppCommand.Start _ _ | AppCommand.Close => True
  | AppCommand.Authenticate correlation scheme token =>
      id_bytes 16 correlation /\ carried_text scheme /\ carried_bytes token
  | AppCommand.Subscribe correlation id topic type_name reliability depth domain_id
  | AppCommand.Publish correlation id topic type_name reliability depth domain_id =>
      open_ok correlation id topic type_name domain_id /\ is_byte reliability /\ is_u32 depth
  | AppCommand.SendSample id string_data => is_u32 id /\ bytes_ok string_data
  | AppCommand.SendPointCloud2 id header height width fields point_step row_step is_bigendian is_dense data =>
      is_u32 id /\
      cloud_bytes_ok
        {| PointCloud.pc_header := header; PointCloud.height := height; PointCloud.width := width;
           PointCloud.fields := fields; PointCloud.is_bigendian := is_bigendian; PointCloud.point_step := point_step;
           PointCloud.row_step := row_step; PointCloud.data := data; PointCloud.is_dense := is_dense |}
  | AppCommand.SendGenerated id type_name value => is_u32 id /\ tame (transcode type_name value)
  | AppCommand.OpenService correlation id name type_name domain_id _
  | AppCommand.OpenAction correlation id name type_name domain_id _ => open_ok correlation id name type_name domain_id
  | AppCommand.CallService id operation_id payload | AppCommand.SendServiceResponse id operation_id payload
  | AppCommand.SendActionGoal id operation_id payload | AppCommand.SendActionFeedback id operation_id payload
  | AppCommand.SendActionResult id operation_id payload => operation_ok id operation_id payload
  | AppCommand.SendActionStatus id operation_id payload => is_u32 id /\ id_bytes 16 operation_id /\ bytes_ok payload
  | AppCommand.CancelAction id operation_id => is_u32 id /\ id_bytes 16 operation_id
  | AppCommand.Unsubscribe correlation id => id_bytes 16 correlation /\ is_u32 id
  end.

Definition event_ok (event : HostEvent.t) : Prop :=
  match event with
  | HostEvent.WsBytes _ b => rust_slice b
  | HostEvent.Timer _ | HostEvent.ReleaseLease _ => True
  | HostEvent.Command cmd => command_ok cmd
  end.

(** On a 64-bit target every value in memory will do. *)
Lemma host_value_native v : usize_max = u64_max -> rust_slice v -> host_value_ok v.
Proof. intros Hw Hv. split; [apply Hv |]. intros name. by apply tame_transcode. Qed.

End Inputs.

(** ** The messages of a turn and the session's history *)

Section History.
Context `{Target}.

(** The session event the bytes of a message stand for. *)
Definition sent_as (b : bytes) (ev : Event) : Prop :=
  match ev with
  | EvBootstrap record => parse_bootstrap b = Ok record
  | EvFrame frame => parse_frame b (Some default_options) = Ok frame
  end.

Definition by_role (r : Role) (a : Accepted) : bool := bool_decide (a.1.1 = r).
Definition sent (tr : list Accepted) : list Event := map (fun a => a.1.2) (List.filter (by_role Client) tr).

(** The control frames among [evs] are numbered from [n]; [m] is the next number. *)
Fixpoint numbered (n : Z) (evs : list Event) (m : Z) : Prop :=
  match evs with
  | [] => m = n
  | EvFrame f :: evs' =>
      if df_opcode f =? OPCODE_CONTROL_CBOR then df_sequence f = n /\ numbered (u64_saturating_add n 1) evs' m
      else numbered n evs' m
  | EvBootstrap _ :: evs' => numbered n evs' m
  end.

(** The number after [ev], when it is one the sender may send under [n]. *)
Definition number_after (n : Z) (ev : Event) (m : Z) : Prop := numbered n [ev] m.

Lemma numbered_snoc n evs m ev k : numbered n evs m -> number_after m ev k -> numbered n (evs ++ [ev]) k.
Proof.
  revert n. induction evs as [| [record | f] evs IH]; intros n; cbn [numbered app]; [by intros -> | by apply IH |].
  destruct (_ =? _); [| by apply IH]. intros [E Hn] Hk. split; [exact E | by apply IH].
Qed.

Lemma sent_snoc tr r ev eff : sent (tr ++ [(r, ev, eff)]) = sent tr ++ (if bool_decide (r = Client) then [ev] else []).
Proof.
  unfold sent. rewrite List.filter_app, map_app. cbn. unfold by_role at 2. cbn [fst]. by case_bool_decide.
Qed.

(** ** The invariant *)

Record engine_ok (e : ClientEngine) : Prop := {
  eo_role : ss_role (en_session e) = Client;
  eo_session : session_wf (en_session e);
  eo_options : en_frame_options e = default_options;
  eo_out : is_sequence (en_control_seq_out e);
  eo_in : is_sequence (en_control_seq_in e);
  eo_heartbeat : is_sequence (en_heartbeat_counter e);
  eo_row : carried_text (en_support_row_id e);
  eo_publishes : map_Forall (fun _ p => is_sequence (ap_seq_out p)) (en_active_publishes e);
  eo_services : map_Forall (fun _ s => is_sequence (as_next_seq s)) (en_active_services e);
  eo_actions : map_Forall (fun _ a => is_sequence (aa_next_seq a)) (en_active_actions e);
  eo_retained : map_Forall (fun _ b => rust_slice (rt_bytes b)) (en_retained e)
}.

(** Within a turn that started in session [s0] with control number [n0], with
    room for [a] more inbound control frames (in a build that checks overflow)
    and [b] more outbound messages: what was sent so far is what the session
    recorded, in order, and the control frames carry consecutive numbers. *)
Record turn_ok (build : EngineBuild) (s0 : SessionState) (n0 a b : Z) (w : EngineWorld) : Prop := {
  to_engine : engine_ok (ew_engine w);
  to_in : build = Checked -> en_control_seq_in (ew_engine w) + a <= u64_max;
  to_room : blen (po_outbound (ew_outcome w)) + b <= MAX_OUTBOUND_PER_POLL;
  to_trace : exists tr, run s0 tr (en_session (ew_engine w)) /\
    Forall2 sent_as (map om_bytes (po_outbound (ew_outcome w))) (sent tr) /\
    numbered n0 (sent tr) (en_control_seq_out (ew_engine w))
}.

Lemma engine_new_ok : engine_ok engine_new.
Proof.
  split; try done; try apply map_Forall_empty. apply new_state_wf.
Qed.

End History.

Create HintDb engine.
#[export] Hint Resolve eo_role eo_session eo_options eo_out eo_in eo_heartbeat eo_row eo_publishes eo_services
  eo_actions eo_retained : engine.
