(* ===== verification/EngineMessages.v ===== *)
(** * What the client engine puts on the wire

    The control messages of [engine/control.rs] are values the encoder accepts
    as typed, whatever the application passes; a frame the engine encodes is a
    byte buffer its own parser reads back with the header the engine wrote; and
    what parsing an inbound buffer yields. *)

From stdpp Require Import gmap.
From S2P Require Import Prelude Utf8 ProtocolError Cbor Extension ControlSchema Control Frame Bootstrap Session SessionProofs.
From S2P Require Import Registry RegistryTheorems EngineTypes Engine EngineCodecs EngineSpec.
From S2P Require PointCloud HostValue BuilderProofs ConnectionSpec.
Import BuilderProofs(id_bytes).
Import ConnectionSpec(is_sequence).
#[local] Open Scope Z_scope.

(** ** Typed messages *)

Lemma typed_text t : carried_text t -> typed (Text t) = true.
Proof. intros [Hu Hl]. cbn [typed]. rewrite Hu. by apply Z.leb_le in Hl as ->. Qed.

Lemma typed_bytes b : carried_bytes b -> typed (Bytes b) = true.
Proof.
  intros [Hb Hl]. cbn [typed]. apply Z.leb_le in Hl as ->. rewrite andb_true_r. apply forallb_Forall.
  eapply Forall_impl; [exact Hb |]. intros x. unfold is_byte. cbv beta. lia.
Qed.

Lemma typed_unsigned n : 0 <= n <= u64_max -> typed (Unsigned n) = true.
Proof. intros Hn. cbn [typed]. lia. Qed.

Lemma carried_id b : id_bytes 16 b -> carried_bytes b.
Proof. intros [Hb Hl]. split; [done |]. rewrite Hl. by vm_compute. Qed.

Lemma carried_check t : utf8_valid t && (blen t <=? MAX_SAFE_INTEGER) = true -> carried_text t.
Proof. rewrite andb_true_iff, Z.leb_le. done. Qed.

Definition entry_typed (e : Z * CborValue) : bool := let '(k, v) := e in (0 <=? k) && (k <=? u64_max) && typed v.

Lemma typed_map entries : Forall (fun e => entry_typed e = true) entries -> typed (Map entries) = true.
Proof. intros He. cbn [typed]. apply forallb_Forall. eapply Forall_impl; [exact He |]. by intros [k v]. Qed.

Lemma typed_entry k v : 0 <= k <= 255 -> typed v = true -> entry_typed (k, v) = true.
Proof. intros Hk Hv. unfold entry_typed, u64_max. rewrite Hv. lia. Qed.

Ltac typed_message :=
  repeat match goal with
  | |- typed (Map _) = true => apply typed_map
  | |- Forall _ (_ :: _) => apply Forall_cons; split
  | |- Forall _ [] => apply Forall_nil
  | |- entry_typed (_, _) = true => apply typed_entry; [lia |]
  | |- typed (Text _) = true => apply typed_text
  | |- typed (Bytes _) = true => apply typed_bytes
  | |- typed (Unsigned _) = true => apply typed_unsigned
  | |- typed (Builder.text_val _) = true => apply typed_text
  | |- typed (Builder.bytes_val _) = true => apply typed_bytes
  | |- carried_bytes _ => apply carried_id; done
  end; try assumption; try (unfold is_u32, is_byte, u32_max, u64_max in *; lia).

Lemma heartbeat_typed counter : is_sequence counter -> typed (Builder.heartbeat counter) = true.
Proof.
  intros Hc. unfold Builder.heartbeat, is_sequence in *. typed_message. apply carried_id. split; [apply bytes_ok_zeros | done].
Qed.

Lemma authenticate_typed correlation scheme token :
  id_bytes 16 correlation -> carried_text scheme -> carried_bytes token ->
  typed (Builder.authenticate correlation scheme token) = true.
Proof. intros. unfold Builder.authenticate. typed_message. Qed.

Lemma close_channel_typed correlation id :
  id_bytes 16 correlation -> is_u32 id -> typed (Builder.close_channel correlation id) = true.
Proof. intros. unfold Builder.close_channel. typed_message. Qed.

Lemma open_message_typed correlation id kind name type_name identity qos domain_id row :
  open_ok correlation id name type_name domain_id -> 0 <= kind <= 255 -> carried_text identity.1 ->
  carried_text identity.2 -> entry_typed qos = true -> carried_text row ->
  typed (Builder.open_message correlation id kind name type_name identity qos domain_id row) = true.
Proof. intros (? & ? & ? & ? & ?) Hk Hscheme Hvalue Hq Hr. unfold Builder.open_message. typed_message. Qed.

(** ** The schema identity of a channel *)

Definition identity_row_ok (row : IdentityRow) : bool :=
  let value := sk_value (ir_key row) in utf8_valid value && (blen value <=? MAX_SAFE_INTEGER).

Lemma registry_identities_ok : forallb identity_row_ok (values_in_order (r_identities the_registry)) = true.
Proof. by vm_compute. Qed.

#[local] Opaque the_registry phase1 phase1_cached.

Lemma identity_value_carried t scheme v :
  identity_value_for_type the_registry t scheme = Ok v -> carried_text v.
Proof.
  unfold identity_value_for_type. destruct (validate_type_name_len t); [| done..]. cbn [obind].
  destruct (List.find _ _) as [row |] eqn:Ef; [| done]. intros [= <-]. apply find_some in Ef as [Hin _].
  pose proof registry_identities_ok as Hall. rewrite forallb_forall in Hall. by apply carried_check, (Hall row).
Qed.

(** Either the registry's identity or the demo's, never a panic. *)
Lemma identity_resolves type_name row :
  exists scheme value, Builder.resolve_open_schema_identity type_name row = Ok (scheme, value) /\
    carried_text scheme /\ carried_text value.
Proof.
  unfold Builder.resolve_open_schema_identity, schema_identity_for_type. rewrite cached_bind.
  set (scheme := Builder.schema_scheme_for_support_row row).
  assert (Hs : carried_text scheme) by (subst scheme; unfold Builder.schema_scheme_for_support_row; case_match; by apply carried_check).
  assert (Hdemo : exists s v, Builder.schema_identity_or_demo row (Ok None) = Ok (s, v) /\ carried_text s /\ carried_text v).
  { unfold Builder.schema_identity_or_demo. case_match; do 2 eexists; (split; [done |]); (split; by apply carried_check). }
  destruct (negb _); [exact Hdemo |].
  pose proof (faults_identity_value the_registry type_name scheme) as Hf.
  destruct (identity_value_for_type the_registry type_name scheme) as [v | e |] eqn:Ev; [| exact Hdemo | done].
  cbn [obind Builder.schema_identity_or_demo]. exists scheme, v. split_and!; [done | done |]. by eapply identity_value_carried.
Qed.

(** What opening a channel puts in a message: an encodable value. *)
Definition sendable (message : V CborValue) : Prop := exists msg, message = Ok msg /\ typed msg = true.

Lemma open_topic_sendable correlation id kind topic type_name reliability depth domain_id row :
  open_ok correlation id topic type_name domain_id -> 0 <= kind <= 255 -> is_byte reliability -> is_u32 depth ->
  carried_text row ->
  sendable (Builder.open_topic correlation id kind topic type_name reliability depth domain_id row).
Proof.
  intros Hopen Hk Hr Hd Hrow. unfold Builder.open_topic. destruct (identity_resolves type_name row) as (s & v & E & Hs & Hv).
  rewrite E. cbn [obind]. eexists. split; [done |]. apply open_message_typed; [done | lia | done | done | | done].
  apply typed_entry; [lia |]. typed_message.
Qed.

Lemma open_service_sendable correlation id client name type_name domain_id row :
  open_ok correlation id name type_name domain_id -> carried_text row ->
  sendable (Builder.open_service correlation id client name type_name domain_id row).
Proof.
  intros Ho Hr. unfold Builder.open_service. cbv zeta. apply open_topic_sendable; [done | destruct client; lia | unfold is_byte; lia | | done].
  unfold is_u32, Builder.DEFAULT_QOS_DEPTH, u32_max. lia.
Qed.

Lemma open_action_sendable correlation id client name type_name domain_id row :
  open_ok correlation id name type_name domain_id -> carried_text row ->
  sendable (Builder.open_action correlation id client name type_name domain_id row).
Proof.
  intros Hopen Hrow. unfold Builder.open_action. destruct (identity_resolves type_name row) as (s & v & E & Hs & Hv).
  rewrite E. cbn [obind]. eexists. split; [done |]. apply open_message_typed; [done | destruct client; lia | done | done | | done].
  by vm_compute.
Qed.

(** ** Frames out *)

Section Frames.
Context `{Target}.

(** What the receiver of a frame reads of its header. *)
Definition header_fields (f : DecodedFrame) : Z * Z * Z * Z :=
  (df_opcode f, df_flags f, df_channel_id f, df_sequence f).
Definition frame_header_fields (fh : FrameHeader) : Z * Z * Z * Z :=
  (fh_opcode fh, fh_flags fh, fh_channel_id fh, fh_sequence fh).

Lemma sent_frame fh area payload :
  fields_typed fh -> bytes_ok area -> bytes_ok payload ->
  match encode_frame fh area payload with
  | Ok b => rust_slice b /\
      forall f, parse_frame b (Some default_options) = Ok f -> header_fields f = frame_header_fields fh
  | Err _ => True
  | Panic => False
  end.
Proof.
  intros Hf Ha Hp. pose proof (encode_frame_spec fh area payload) as Hs.
  destruct (encode_frame fh area payload) as [b | e |] eqn:E; [| done | done].
  destruct (encoded_frame fh area payload b Hf Ha Hp E) as (Hb & _ & Hh & _). split; [done |]. intros f Hparse.
  destruct (parse_frame_spec default_options b (blen b) Hb) as [_ Hpf].
  destruct (Hpf f Hparse) as (p & body & _ & _ & ->). by rewrite Hh.
Qed.

Lemma sequence_typed n : is_sequence n -> is_unsigned 64 n.
Proof. unfold is_sequence, is_unsigned, u64_max. lia. Qed.

Lemma u32_typed n : is_u32 n -> is_unsigned 32 n.
Proof. unfold is_u32, is_unsigned, u32_max. lia. Qed.

Lemma sent_control seq message :
  typed message = true -> is_sequence seq ->
  match encode_control_frame 0 seq message with
  | Ok b => rust_slice b /\
      forall f, parse_frame b (Some default_options) = Ok f -> df_opcode f = OPCODE_CONTROL_CBOR /\ df_sequence f = seq
  | Err _ => True
  | Panic => False
  end.
Proof.
  intros Ht Hs. unfold encode_control_frame. pose proof (encode_cbor_spec message Ht) as He.
  destruct (encode_deterministic_cbor message) as [payload | e |]; [| done | done]. destruct He as [Hok ->]. cbn [obind].
  pose proof (sent_frame {| fh_version := 0; fh_opcode := OPCODE_CONTROL_CBOR; fh_flags := 0; fh_channel_id := 0;
    fh_sequence := seq; fh_source_time_ns := 0; fh_priority := PRIORITY_CONTROL; fh_clock_id := 0 |} []
    (cbor_bytes (canon message))) as Hf.
  destruct (encode_frame _ _ _) as [b | e |]; [| done |].
  - destruct Hf as [Hb Hf]; [| constructor | by eapply cbor_bytes_ok |].
    { pose proof (sequence_typed _ Hs). by split_and!. }
    split; [done |]. intros f Hp. specialize (Hf f Hp). unfold header_fields, frame_header_fields in Hf. cbn in Hf. by simplify_eq.
  - apply Hf; [| constructor | by eapply cbor_bytes_ok]. pose proof (sequence_typed _ Hs). by split_and!.
Qed.

Lemma publish_header_typed id p : is_u32 id -> is_sequence (ap_seq_out p) -> fields_typed (publish_header id p).
Proof.
  intros Hi Hs. apply u32_typed in Hi. apply sequence_typed in Hs. unfold publish_header. split_and!; try done.
  cbn. by case_match.
Qed.

Lemma operation_header_typed id opcode seq reliable :
  is_u32 id -> is_byte opcode -> is_sequence seq -> fields_typed (operation_header id opcode seq reliable).
Proof.
  intros Hi Ho Hs. apply u32_typed in Hi. apply sequence_typed in Hs. unfold operation_header. split_and!; try done.
  cbn. by case_match.
Qed.

(** The extension area of an operation. *)
Definition operation_area (operation_id : bytes) : bytes := [OPERATION_ID_EXTENSION_TYPE; 1; 0; 16] ++ operation_id.

Lemma operation_area_encodes operation_id :
  id_bytes 16 operation_id ->
  encode_extension_area [operation_extension operation_id] = Ok (operation_area operation_id) /\
  bytes_ok (operation_area operation_id) /\ blen (operation_area operation_id) = 20.
Proof.
  intros [Hb Hl]. assert (Ha : area_bytes [operation_extension operation_id] = operation_area operation_id).
  { rewrite area_bytes_cons. change (area_bytes []) with (@nil Z). unfold tlv_bytes, operation_extension.
    cbn [ext_type_id ext_critical ext_value]. rewrite Hl. change (zeros (- (16) mod 4)) with (@nil Z).
    by rewrite !app_nil_r. }
  assert (Hlen : blen (operation_area operation_id) = 20) by (unfold operation_area; rewrite blen_app, Hl; done).
  pose proof (encode_area_spec [operation_extension operation_id]) as Hs. rewrite Ha in Hs.
  split_and!; [| apply bytes_ok_app; split; [by apply bytes_ok_check | done] | done].
  assert (Hok : types_ascend None [operation_extension operation_id] /\
    Forall (fun e => blen (ext_value e) <= u16_max) [operation_extension operation_id] /\
    blen (operation_area operation_id) <= EXTENSION_AREA_MAX_BYTES).
  { split; [done |]. split; [| rewrite Hlen; by vm_compute]. apply Forall_singleton. cbn. rewrite Hl. by vm_compute. }
  destruct (encode_extension_area _) as [area | e |]; [by destruct Hs as (_ & _ & _ & ->) | by destruct (Hs Hok) | done].
Qed.

(** ** Buffers in *)

(** The length a buffer is retained under. *)
Lemma retained_len b : rust_slice b -> exists n, retain_declared_len (E := unit) b = Ok n.
Proof.
  intros Hb. unfold retain_declared_len, frame_declared_total, FRAME_HEADER_LENGTH.
  destruct (Z.ltb_spec (blen b) 32); cbn [obind]; [by eexists |]. rewrite !slice_ok by lia. cbn [obind].
  set (t := match checked_add _ _ _ with Some _ => _ | None => _ end). destruct t as [total |]; [| by eexists].
  destruct (_ =? total); [by eexists |]. unfold read_u16_be. rewrite read_at_spec by (cbn; lia). cbn [obind].
  case_match; by eexists.
Qed.

(** What the handlers use of an inbound frame. *)
Record inbound_ok (b : bytes) (f : DecodedFrame) : Prop := {
  ib_control : forall m, df_payload f = Frame.Control m -> exists raw, rust_slice raw /\ decode_control_message raw = Ok m;
  ib_application : forall data, df_payload f = Application data -> bytes_ok data;
  ib_opcode : df_opcode f = OPCODE_CONTROL_CBOR <-> exists m, df_payload f = Frame.Control m;
  ib_lengths : 0 <= df_extension_len f /\ 0 <= df_payload_len f
}.

Lemma inbound_frame b declared f :
  rust_slice b -> parse_frame_declared b declared (Some default_options) = Ok f -> inbound_ok b f.
Proof.
  intros Hb Hp. destruct (parse_frame_spec default_options b declared Hb) as [Hc Hf]. rewrite Hp in Hc.
  pose proof (Hc 1 ltac:(lia)) as Hlen. pose proof (Hc 4 ltac:(lia)) as Hsize.
  destruct (Hf f Hp) as (p & body & Hpre & [Hext Hbody] & ->). cbn [frame_of df_payload df_opcode].
  unfold OPCODE_CONTROL_CBOR. split; cbn [frame_of df_payload df_opcode]; destruct (Z.eqb_spec (h_opcode (header_of b)) 1) as [Ho | Ho].
  - destruct Hbody as (m' & Hm & Hs). intros m Hm'. assert (m' = m) as -> by congruence.
    exists (payload_of b (header_of b)). split; [| done].
    apply (payload_slice default_options b declared p Hb Hlen Hsize Hpre). by right.
  - intros m Hm. congruence.
  - destruct Hbody as (m' & _ & Hs). intros data Hd. congruence.
  - intros data Hd. assert (data = if p then [] else payload_of b (header_of b)) as -> by congruence.
    destruct p; [constructor |]. apply bytes_ok_sub_list, Hb.
  - split; [intros _ | done]. destruct Hbody as (m & _ & Hs). by exists m.
  - split; [intros E; by destruct Ho | intros (m & Hm); congruence].
  - pose proof (header_of_typed b (proj1 Hb) Hlen) as [_ _ _ _ _ _ [Hpl _] [Hel _] _ _].
    exact (conj Hel Hpl).
  - pose proof (header_of_typed b (proj1 Hb) Hlen) as [_ _ _ _ _ _ [Hpl _] [Hel _] _ _].
    exact (conj Hel Hpl).
Qed.

Lemma parse_declared_total b declared : rust_slice b -> is_panic (parse_frame_declared b declared (Some default_options)) = false.
Proof.
  intros Hb. destruct (parse_frame_spec default_options b declared Hb) as [Hc _].
  by destruct (parse_frame_declared b declared (Some default_options)).
Qed.

Lemma parse_bootstrap_total b : rust_slice b -> is_panic (parse_bootstrap b) = false.
Proof. intros Hb. destruct (parse_bootstrap_spec b Hb) as [Hc _]. by destruct (parse_bootstrap b). Qed.

(** A text field of an inbound message. *)
Lemma message_text raw m k t :
  rust_slice raw -> decode_control_message raw = Ok m -> eng_field_text (cm_fields m) k = Some t -> carried_text t.
Proof.
  intros Hr Hm. unfold eng_field_text. destruct (cm_fields m !! k) as [v |] eqn:E; [| done].
  pose proof (decoded_value raw m k v Hr Hm E) as Hok. destruct v; try done. intros [= ->].
  apply cbor_okb_typed in Hok. cbn [typed] in Hok. by apply carried_check.
Qed.

End Frames.
