(* ===== verification/EngineProofs.v ===== *)
(** * The client engine: every turn is safe and follows the session

    [safe]: a handler started in a well-formed turn does not panic and ends in
    one, whatever path it takes.  The invariant relates what was sent to the
    history of the session, so the pass over the handlers that shows the engine
    total also shows that it puts on the wire exactly what its session recorded. *)

From stdpp Require Import gmap.
From S2P Require Import Prelude Utf8 ProtocolError Cbor Extension ControlSchema Control Frame Bootstrap Session SessionProofs.
From S2P Require Import Registry RegistryTheorems EngineTypes Engine EngineCodecs EngineSpec EngineMessages.
From S2P Require PointCloud HostValue BuilderProofs ConnectionSpec.
Import BuilderProofs(id_bytes).
Import ConnectionSpec(is_sequence).
Import ControlSchema.Schema(CONTROL_KIND_SESSION_READY, CONTROL_KIND_CHANNEL_READY, CONTROL_KIND_HEARTBEAT,
  CONTROL_KIND_GRAPH_SNAPSHOT, CONTROL_KIND_GRAPH_DELTA, CONTROL_KIND_ERROR).
#[local] Open Scope Z_scope.

Definition anything {A} (_ : A) : Prop := True.

(** The part of the engine the turn's history speaks of. *)
Definition core (e : ClientEngine) : SessionState * Z * Z := (en_session e, en_control_seq_out e, en_control_seq_in e).

(** A change of the engine that keeps it well formed and leaves that part alone. *)
Definition tweak `{Target} (f : ClientEngine -> ClientEngine) : Prop :=
  forall e, engine_ok e -> engine_ok (f e) /\ core (f e) = core e.

Lemma saturating_sequence n k : is_sequence n -> 0 <= k -> is_sequence (u64_saturating_add n k).
Proof. unfold is_sequence, u64_saturating_add, u64_max. lia. Qed.

(** ** Changes of the engine *)

Section Tweaks.
Context `{Target}.

Ltac tweak := intros e He; destruct He; destruct e; split; [split; cbn in *; try done | done].

Lemma tweak_started v : tweak (set_started v).
Proof. tweak. Qed.
Lemma tweak_closed v : tweak (set_closed v).
Proof. tweak. Qed.
Lemma tweak_timer v : tweak (set_last_timer_ms v).
Proof. tweak. Qed.
Lemma tweak_deadline v : tweak (set_next_heartbeat_ms v).
Proof. tweak. Qed.
Lemma tweak_heartbeat v : is_sequence v -> tweak (set_heartbeat_counter v).
Proof. intros Hv. tweak. Qed.
Lemma tweak_telemetry f : tweak (fun e => set_telemetry (f (en_telemetry e)) e).
Proof. tweak. Qed.
Lemma tweak_row v : carried_text v -> tweak (set_support_row_id v).
Proof. intros Hv. tweak. Qed.
Lemma tweak_pending f : tweak (fun e => set_pending_opens (f e) e).
Proof. tweak. Qed.
Lemma tweak_subscribes f : tweak (fun e => set_active_subscribes (f e) e).
Proof. tweak. Qed.
Lemma tweak_leases f : tweak (fun e => set_leases (f e) e).
Proof. tweak. Qed.
Lemma tweak_lease_id v : tweak (set_next_lease_id v).
Proof. tweak. Qed.
Lemma tweak_buffer_id f : tweak (fun e => set_next_buffer_id (f e) e).
Proof. tweak. Qed.
Lemma tweak_publishes f :
  (forall e, engine_ok e -> map_Forall (fun _ p => is_sequence (ap_seq_out p)) (f e)) ->
  tweak (fun e => set_active_publishes (f e) e).
Proof. intros Hf e He. specialize (Hf e He). destruct He. split; [| by destruct e]. destruct e. split; cbn in *; done. Qed.
Lemma tweak_services f :
  (forall e, engine_ok e -> map_Forall (fun _ p => is_sequence (as_next_seq p)) (f e)) ->
  tweak (fun e => set_active_services (f e) e).
Proof. intros Hf e He. specialize (Hf e He). destruct He. split; [| by destruct e]. destruct e. split; cbn in *; done. Qed.
Lemma tweak_actions f :
  (forall e, engine_ok e -> map_Forall (fun _ p => is_sequence (aa_next_seq p)) (f e)) ->
  tweak (fun e => set_active_actions (f e) e).
Proof. intros Hf e He. specialize (Hf e He). destruct He. split; [| by destruct e]. destruct e. split; cbn in *; done. Qed.
Lemma tweak_retained f :
  (forall e, engine_ok e -> map_Forall (fun _ p => rust_slice (rt_bytes p)) (f e)) ->
  tweak (fun e => set_retained (f e) e).
Proof. intros Hf e He. specialize (Hf e He). destruct He. split; [| by destruct e]. destruct e. split; cbn in *; done. Qed.

Lemma same_session e : set_session (en_session e) e = e.
Proof. by destruct e. Qed.

End Tweaks.

Create HintDb tweak.
#[export] Hint Resolve tweak_started tweak_closed tweak_timer tweak_deadline tweak_telemetry tweak_pending
  tweak_subscribes tweak_leases tweak_lease_id tweak_buffer_id : tweak.

(** ** Safe handlers *)

Section Safe.
Context `{Target}.
Variables (build : EngineBuild) (s0 : SessionState) (n0 : Z).
Implicit Types w : EngineWorld.

Abbreviation turn := (turn_ok build s0 n0).
Abbreviation Eng := (SM EngineWorld unit).

(** From a turn with room for [a] control frames in and [b] messages out, [m]
    answers a value satisfying [P] and leaves room for [a'] and [b']. *)
Definition safe (a b a' b' : Z) {A} (m : Eng A) (P : A -> Prop) : Prop :=
  forall w, turn a b w -> wp m (fun r w' => P r /\ turn a' b' w') (fun _ w' => turn a' b' w') w.

(** Sends nothing and takes no control frame in; sends at most one message. *)
Definition keeps {A} (m : Eng A) (P : A -> Prop) : Prop := forall a b, safe a b a b m P.
Definition spends {A} (m : Eng A) (P : A -> Prop) : Prop := forall a b, 0 <= b -> safe a (b + 1) a b m P.

Lemma turn_weaken a b a' b' w : a' <= a -> b' <= b -> turn a b w -> turn a' b' w.
Proof. intros Ha Hb [He Hi Hr Ht]. split; [done | intros E; specialize (Hi E); lia | lia | done]. Qed.

Lemma safe_bind {A B} a b a1 b1 a' b' (m : Eng A) (k : A -> Eng B) P Q :
  a' <= a1 -> b' <= b1 -> safe a b a1 b1 m P -> (forall r, P r -> safe a1 b1 a' b' (k r) Q) ->
  safe a b a' b' (bind m k) Q.
Proof.
  intros Ha Hb Hm Hk w Hw. apply wp_bind. eapply wp_mono; [by apply Hm | |].
  - intros r w' [Hr Hw']. by apply (Hk r Hr).
  - intros e w' Hw'. by eapply turn_weaken.
Qed.

Lemma keeps_seq {A B} (m : Eng A) (k : A -> Eng B) P Q :
  keeps m P -> (forall r, P r -> keeps (k r) Q) -> keeps (bind m k) Q.
Proof. intros Hm Hk a b. eapply (safe_bind a b a b); [lia | lia | apply Hm |]. intros r Hr. by apply Hk. Qed.

Lemma spends_bind {A B} (m : Eng A) (k : A -> Eng B) P Q :
  keeps m P -> (forall r, P r -> spends (k r) Q) -> spends (bind m k) Q.
Proof. intros Hm Hk a b Hb. eapply (safe_bind a (b + 1) a (b + 1)); [lia | lia | apply Hm |]. intros r Hr. by apply Hk. Qed.

Lemma spends_then {A B} (m : Eng A) (k : A -> Eng B) P Q :
  spends m P -> (forall r, P r -> keeps (k r) Q) -> spends (bind m k) Q.
Proof. intros Hm Hk a b Hb. eapply (safe_bind a (b + 1) a b); [lia | lia | by apply Hm |]. intros r Hr. by apply Hk. Qed.

Lemma keeps_spends {A} (m : Eng A) P : keeps m P -> spends m P.
Proof.
  intros Hm a b Hb w Hw. eapply wp_mono; [by apply (Hm a (b + 1)) | |].
  - intros r w' [Hr Hw']. split; [done |]. eapply turn_weaken; [| | exact Hw']; lia.
  - intros e w' Hw'. eapply turn_weaken; [| | exact Hw']; lia.
Qed.

Lemma keeps_mono {A} (m : Eng A) (P Q : A -> Prop) : (forall r, P r -> Q r) -> keeps m P -> keeps m Q.
Proof. intros HPQ Hm a b w Hw. eapply wp_mono; [by apply Hm | | done]. intros r w' [Hr Hw']. split; [by apply HPQ | done]. Qed.

Lemma keeps_ret {A} (r : A) (P : A -> Prop) : P r -> keeps (ret r) P.
Proof. by intros Hr a b w Hw. Qed.

Lemma keeps_return {A} (P : A -> Prop) : keeps eng_return P.
Proof. by intros a b w Hw. Qed.

Lemma keeps_eng {A} (f : ClientEngine -> A) (P : A -> Prop) : (forall e, engine_ok e -> P (f e)) -> keeps (eng f) P.
Proof. intros Hf a b w Hw. split; [apply Hf, (to_engine _ _ _ _ _ _ Hw) | done]. Qed.

Lemma keeps_on_eng f : tweak f -> keeps (on_eng f) anything.
Proof.
  intros Hf a b w [He Hi Hr Ht]. destruct (Hf _ He) as [He' Hc]. unfold core in Hc. injection Hc as E1 E2 E3. split; [done |].
  split; cbn [ew_engine ew_outcome]; rewrite ?E1, ?E2, ?E3; done.
Qed.

Lemma keeps_on_outcome f :
  (forall o, po_outbound (f o) = po_outbound o) -> keeps (on_outcome f) anything.
Proof. intros Hf a b w [He Hi Hr Ht]. split; [done |]. split; cbn [ew_engine ew_outcome]; rewrite ?Hf; done. Qed.

Lemma keeps_emit event : keeps (emit event) anything.
Proof. by apply keeps_on_outcome. Qed.

Lemma keeps_count f : keeps (count f) anything.
Proof. apply keeps_on_eng, tweak_telemetry. Qed.

Lemma keeps_fn (m : Eng unit) : keeps m anything -> keeps (eng_fn m) anything.
Proof.
  intros Hm a b w Hw. specialize (Hm a b w Hw). unfold wp, eng_fn in *. by destruct (m w) as [[[] | [] |] w'].
Qed.

Lemma spends_fn (m : Eng unit) : spends m anything -> spends (eng_fn m) anything.
Proof.
  intros Hm a b Hb w Hw. specialize (Hm a b Hb w Hw). unfold wp, eng_fn in *. by destruct (m w) as [[[] | [] |] w'].
Qed.

Lemma keeps_try {E A} (m : outcome E A) : m <> Panic -> keeps (try_ m) (fun r => forall x, r = Some x -> m = Ok x).
Proof. intros Hm. unfold try_. destruct m; [apply keeps_ret; congruence | by apply keeps_ret | done]. Qed.

(** *** Failing *)

Lemma keeps_fail code message : keeps (fail code message) anything.
Proof.
  unfold fail. eapply keeps_seq; [apply keeps_on_eng, tweak_closed | intros _ _].
  eapply keeps_seq; [apply keeps_emit | intros _ _]. eapply (keeps_seq _ _ anything); [by apply keeps_eng | intros phase _]. apply keeps_emit.
Qed.

Lemma keeps_fail_with {A} err (P : A -> Prop) : keeps (fail_with err) P.
Proof. unfold fail_with. eapply keeps_seq; [apply keeps_fail | intros _ _]. apply keeps_return. Qed.

(** *** Sending *)

(** The session recorded [b]; [e'] and [o'] are the engine and the outcome once
    it is queued. *)
Lemma turn_sent a b w bs ev s' eff seq e' o' id :
  turn a (b + 1) w -> event_accepts (en_session (ew_engine w)) Client ev s' eff -> sent_as bs ev ->
  number_after (en_control_seq_out (ew_engine w)) ev seq -> engine_ok e' -> core e' = (s', seq, en_control_seq_in (ew_engine w)) ->
  po_outbound o' = po_outbound (ew_outcome w) ++ [mk_outbound id bs] -> turn a b (mk_ew e' o').
Proof.
  intros [He Hi Hr (tr & Hrun & Hsent & Hnum)] Hev Has Hafter He' Hc Ho. unfold core in Hc. injection Hc as E1 E2 E3.
  split; cbn [ew_engine ew_outcome]; rewrite ?E1, ?E2, ?E3, ?Ho; [done | done | rewrite blen_app, blen_single; lia |].
  exists (tr ++ [(Client, ev, eff)]). split.
  - eapply run_accept; [exact Hrun |]. by apply event_complete.
  - rewrite sent_snoc, map_app. cbn. split; [by apply Forall2_app, Forall2_cons | by eapply numbered_snoc].
Qed.

Lemma accepted_keeps e ev sender s' eff :
  engine_ok e -> event_accepts (en_session e) sender ev s' eff -> engine_ok (set_session s' e).
Proof.
  intros He Hev. destruct (event_phase _ _ _ _ _ Hev) as [Hr _]. pose proof (event_wf _ _ _ _ _ (eo_session e He) Hev) as Hwf.
  rewrite (eo_role e He) in Hr. destruct He, e. split; cbn in *; done.
Qed.

(** The session's verdict on a message the engine is about to send. *)
Lemma wp_record b w Q X :
  rust_slice b -> engine_ok (ew_engine w) ->
  Q Unparsable w -> Q Unrecorded w ->
  (forall f s' eff, parse_frame b (Some default_options) = Ok f ->
     frame_accepts (en_session (ew_engine w)) Client f s' eff ->
     Q Sendable (mk_ew (set_session s' (ew_engine w)) (ew_outcome w))) ->
  wp (record_outbound_frame b) Q X w.
Proof.
  intros Hb He Hu Hn Hs. unfold record_outbound_frame, eng. wp_step. wp_step. rewrite (eo_options _ He).
  unfold parse_frame. pose proof (parse_declared_total b (blen b) Hb) as Ht. wp_step.
  destruct (parse_frame_declared b (blen b) (Some default_options)) as [f | e |] eqn:Ep; [| exact Hu | done]. cbn [try_]. wp_step.
  wp_step. unfold wp, eng_session, record_send_frame, bind, gets. rewrite (eo_role _ He).
  pose proof (event_implements (EvFrame f) Client (en_session (ew_engine w))) as Hi. unfold implements in Hi.
  cbn [apply_event event_accepts] in Hi. destruct (apply_frame f Client _) as [[eff | e |] s']; [by apply (Hs f s' eff) | | done].
  destruct Hi as [-> _]. rewrite same_session. by destruct w.
Qed.

Lemma wp_push_outbound bs w (Q : unit -> EngineWorld -> Prop) X :
  blen (po_outbound (ew_outcome w)) < MAX_OUTBOUND_PER_POLL ->
  Q tt (mk_ew (set_next_buffer_id (u32_saturating_add (en_next_buffer_id (ew_engine w)) 1) (ew_engine w))
          (mk_outcome (po_outbound (ew_outcome w) ++ [mk_outbound (en_next_buffer_id (ew_engine w)) bs])
             (po_events (ew_outcome w)) (po_released_buffers (ew_outcome w)) (po_next_deadline_ms (ew_outcome w)))) ->
  wp (push_outbound bs) Q X w.
Proof.
  intros Hl Hq. unfold push_outbound. wp_step. wp_step.
  destruct (Z.leb_spec MAX_OUTBOUND_PER_POLL (blen (po_outbound (ew_outcome w)))); [lia |].
  unfold eng, on_eng, on_outcome. by repeat wp_step.
Qed.

Lemma room_of a b w : 0 <= b -> turn a (b + 1) w -> blen (po_outbound (ew_outcome w)) < MAX_OUTBOUND_PER_POLL.
Proof. intros Hb [_ _ Hr _]. lia. Qed.

Lemma set_seq_out_ok e v : engine_ok e -> is_sequence v -> engine_ok (set_control_seq_out v e).
Proof. intros He Hv. destruct He, e. split; cbn in *; done. Qed.

Lemma buffer_id_ok e v : engine_ok e -> engine_ok (set_next_buffer_id v e).
Proof. intros He. by apply (tweak_buffer_id (fun _ => v)). Qed.

(** A control message: encoded under the next number, recorded, queued; when a
    step refuses nothing is sent. *)
Lemma spends_push_control message : typed message = true -> spends (eng_push_control message) anything.
Proof.
  intros Ht a b Hb w Hw. pose proof Hw as [He _ _ _]. unfold eng_push_control, eng. wp_step. wp_step.
  pose proof (sent_control (en_control_seq_out (ew_engine w)) message Ht (eo_out _ He)) as Hs. wp_step.
  assert (Hkeep : turn a b w) by (eapply turn_weaken, Hw; lia).
  destruct (encode_control_frame 0 _ message) as [bs | e |]; cbn [try_]; [| done | done]. wp_step.
  destruct Hs as [Hbs Hf]. wp_step. apply wp_record; [done | done | done | done |].
  intros f s' eff Hp Hacc. specialize (Hf f Hp) as [Hop Hseq]. unfold on_eng. wp_step. wp_step.
  assert (Hok : engine_ok (set_control_seq_out (u64_saturating_add (en_control_seq_out (ew_engine w)) 1)
    (set_session s' (ew_engine w)))).
  { apply set_seq_out_ok; [by eapply (accepted_keeps _ (EvFrame f)) |]. apply saturating_sequence; [apply He | lia]. }
  wp_step. apply wp_push_outbound; cbn [ew_engine ew_outcome]; [by eapply room_of |]. wp_step. split; [done |].
  eapply (turn_sent a b w bs (EvFrame f) s' eff); [done | done | done | | by apply buffer_id_ok | | done].
  - unfold number_after. cbn. rewrite Hop. by split.
  - by destruct (ew_engine w).
Qed.

(** The ClientHello. *)
Lemma spends_push_bootstrap bs : rust_slice bs -> spends (push_bootstrap_outbound bs) anything.
Proof.
  intros Hbs a b Hb w Hw. pose proof Hw as [He _ _ _]. unfold push_bootstrap_outbound. wp_step.
  assert (Hkeep : turn a b w) by (eapply turn_weaken, Hw; lia). pose proof (parse_bootstrap_total bs Hbs) as Htot.
  destruct (parse_bootstrap bs) as [record | e |] eqn:Ep; [| done | done]. cbn [try_]. wp_step. wp_step.
  unfold wp at 1, eng_session, record_send_bootstrap, bind at 1, gets. rewrite (eo_role _ He).
  pose proof (event_implements (EvBootstrap record) Client (en_session (ew_engine w))) as Hi. unfold implements in Hi.
  cbn [apply_event event_accepts] in Hi. destruct (apply_bootstrap record Client _) as [[eff | e |] s']; [| | done].
  2: { destruct Hi as [-> _]. rewrite same_session. split; [done |]. by destruct w. }
  wp_step. apply wp_push_outbound; cbn [ew_engine ew_outcome]; [by eapply room_of |]. wp_step. split; [done |].
  eapply (turn_sent a b w bs (EvBootstrap record) s' eff); [done | done | done | done | | | done].
  - by apply buffer_id_ok, (accepted_keeps _ (EvBootstrap record) Client s' eff).
  - by destruct (ew_engine w).
Qed.

(** A data frame: recorded and queued with a change of the engine. *)
Lemma turn_data a b w bs f s' eff e' o' id :
  turn a (b + 1) w -> frame_accepts (en_session (ew_engine w)) Client f s' eff ->
  parse_frame bs (Some default_options) = Ok f -> df_opcode f <> OPCODE_CONTROL_CBOR -> engine_ok e' ->
  core e' = core (set_session s' (ew_engine w)) -> po_outbound o' = po_outbound (ew_outcome w) ++ [mk_outbound id bs] ->
  turn a b (mk_ew e' o').
Proof.
  intros Hw Hacc Hp Hop He Hc Ho. eapply (turn_sent a b w bs (EvFrame f) s' eff); [done | done | done | | done | | done].
  - unfold number_after. cbn. by destruct (Z.eqb_spec (df_opcode f) OPCODE_CONTROL_CBOR).
  - rewrite Hc. by destruct (ew_engine w).
Qed.

(** *** Buffers and leases *)

Lemma keeps_new_retained b : rust_slice b -> keeps (new_retained b) (fun buf => rt_bytes buf = b).
Proof. intros Hb. unfold new_retained. destruct (retained_len b Hb) as (n & ->). by apply keeps_ret. Qed.

Lemma tweak_insert_retained id buf : rust_slice (rt_bytes buf) -> tweak (fun e => set_retained (<[id := buf]> (en_retained e)) e).
Proof. intros Hb. apply tweak_retained. intros e He. apply map_Forall_insert_2; [done | apply He]. Qed.

Lemma tweak_alter_retained id f :
  (forall buf, rt_bytes (f buf) = rt_bytes buf) -> tweak (fun e => set_retained (alter f id (en_retained e)) e).
Proof.
  intros Hf. apply tweak_retained. intros e He i buf Hb. apply lookup_alter_Some in Hb as [(-> & x & Hx & ->) | [_ Hx]].
  - rewrite Hf. by apply (eo_retained e He i x).
  - by apply (eo_retained e He i buf).
Qed.

Lemma keeps_alloc_buffer b : rust_slice b -> keeps (alloc_buffer b) anything.
Proof.
  intros Hb. unfold alloc_buffer. eapply (keeps_seq _ _ anything); [by apply keeps_eng | intros id _].
  eapply keeps_seq; [apply keeps_on_eng; apply (tweak_buffer_id (fun _ => _)) | intros _ _].
  eapply keeps_seq; [by apply keeps_new_retained | intros buf Hbuf].
  eapply keeps_seq; [apply keeps_on_eng, tweak_insert_retained; by rewrite Hbuf | intros _ _]. by apply keeps_ret.
Qed.

Lemma keeps_retain_buffer id b : rust_slice b -> keeps (retain_buffer id b) anything.
Proof.
  intros Hb. unfold retain_buffer. case_match; [by apply keeps_alloc_buffer |].
  eapply keeps_seq; [by apply keeps_new_retained | intros buf Hbuf].
  eapply keeps_seq; [apply keeps_on_eng, tweak_insert_retained; by rewrite Hbuf | intros _ _].
  eapply keeps_seq; [apply keeps_on_eng, tweak_buffer_id | intros _ _]. by apply keeps_ret.
Qed.

Lemma keeps_release_lease id : keeps (release_lease id) anything.
Proof.
  unfold release_lease. eapply (keeps_seq _ _ anything); [by apply keeps_eng | intros leases _].
  case_match; [| by apply keeps_ret].
  eapply keeps_seq; [apply keeps_on_eng; apply (tweak_leases (fun _ => _)) | intros _ _].
  eapply keeps_seq; [by apply keeps_on_eng, tweak_alter_retained | intros _ _]. apply keeps_count.
Qed.

Lemma keeps_issue_lease id offset len : keeps (issue_lease id offset len) anything.
Proof.
  unfold issue_lease. eapply (keeps_seq _ _ anything); [by apply keeps_eng | intros lease _].
  eapply keeps_seq; [apply keeps_on_eng, tweak_lease_id | intros _ _].
  eapply keeps_seq; [by apply keeps_on_eng, tweak_alter_retained | intros _ _].
  eapply keeps_seq; [apply keeps_on_eng, tweak_leases | intros _ _]. by apply keeps_ret.
Qed.

Lemma keeps_sweep : keeps sweep_released anything.
Proof.
  unfold sweep_released.
  eapply (keeps_seq _ _ (map_Forall (fun _ p => rust_slice (rt_bytes p)))); [apply keeps_eng; intros e He; apply He | intros retained Hr].
  eapply keeps_seq; [by apply keeps_on_outcome | intros _ _].
  apply keeps_on_eng. apply (tweak_retained (fun _ => _)). intros e _ i buf Hb. apply map_lookup_filter_Some in Hb as [Hb _].
  by apply (Hr i buf).
Qed.

(** *** Commands *)

Lemma keeps_schema_check type_name id kind : keeps (emit_schema_unavailable_if_needed type_name id kind) anything.
Proof.
  unfold emit_schema_unavailable_if_needed. eapply (keeps_seq _ _ anything); [by apply keeps_eng | intros row _].
  pose proof (open_faults type_name row Le) as Hf. destruct (lookup_phase1_root_for_open type_name row Le); [by apply keeps_ret | | done].
  eapply keeps_seq; [apply keeps_emit | intros _ _]. by apply keeps_ret.
Qed.

Lemma spends_push_open message reason : sendable message -> spends (push_open message reason) anything.
Proof.
  intros (msg & -> & Ht). unfold push_open. eapply (spends_bind _ _ (fun m => m = msg)); [by apply keeps_ret | intros m ->].
  eapply spends_then; [by apply spends_push_control | intros pushed _]. case_match; [by apply keeps_ret |].
  eapply keeps_seq; [apply keeps_fail | intros _ _]. apply keeps_return.
Qed.

Lemma keeps_insert_pending id p : keeps (insert_pending_open id p) anything.
Proof. apply keeps_on_eng, tweak_pending. Qed.

Lemma keeps_unless (c : bool) : keeps (if c then eng_return else ret tt) anything.
Proof. destruct c; [apply keeps_return | by apply keeps_ret]. Qed.

(** The three commands that open a channel: the schema check, the message, the pending open. *)
Lemma spends_open type_name id kind (message : bytes -> V CborValue) reason p :
  (forall row, carried_text row -> sendable (message row)) ->
  spends (eng_fn (
    unavailable <~ emit_schema_unavailable_if_needed type_name id kind ;;
    (if unavailable then eng_return else ret tt) ;;~
    row <~ eng en_support_row_id ;;
    push_open (message row) reason ;;~
    insert_pending_open id p)) anything.
Proof.
  intros Hm. apply spends_fn. eapply spends_bind; [apply keeps_schema_check | intros u _].
  eapply spends_bind; [apply keeps_unless | intros _ _].
  eapply (spends_bind _ _ carried_text); [apply keeps_eng; intros e He; apply He | intros row Hrow].
  eapply spends_then; [by apply spends_push_open, Hm | intros _ _]. apply keeps_insert_pending.
Qed.

Lemma spends_open_channel correlation id kind_code topic type_name reliability depth domain_id kind :
  open_ok correlation id topic type_name domain_id -> 0 <= kind_code <= 255 -> is_byte reliability -> is_u32 depth ->
  spends (open_channel_cmd correlation id kind_code topic type_name reliability depth domain_id kind) anything.
Proof.
  intros Ho Hk Hr Hd. unfold open_channel_cmd. cbv zeta. apply spends_open. intros row Hrow.
  apply open_topic_sendable; try done. case_match; [| done]. unfold is_u32, Builder.DEFAULT_QOS_DEPTH, u32_max. lia.
Qed.

Lemma spends_open_service correlation id name type_name domain_id client :
  open_ok correlation id name type_name domain_id ->
  spends (open_service_cmd correlation id name type_name domain_id client) anything.
Proof. intros Ho. unfold open_service_cmd. cbv zeta. apply spends_open. intros row Hrow. by apply open_service_sendable. Qed.

Lemma spends_open_action correlation id name type_name domain_id client :
  open_ok correlation id name type_name domain_id ->
  spends (open_action_cmd correlation id name type_name domain_id client) anything.
Proof. intros Ho. unfold open_action_cmd. cbv zeta. apply spends_open. intros row Hrow. by apply open_action_sendable. Qed.

(** *** Samples *)

Lemma insert_publish_ok id p e :
  engine_ok e -> is_sequence (ap_seq_out p) -> engine_ok (set_active_publishes (<[id := p]> (en_active_publishes e)) e).
Proof.
  intros He Hp. apply (tweak_publishes (fun e => <[id := p]> (en_active_publishes e))); [| done].
  intros e' He'. apply map_Forall_insert_2; [done | apply He'].
Qed.

Lemma telemetry_ok e v : engine_ok e -> engine_ok (set_telemetry v e).
Proof. intros He. by apply (tweak_telemetry (fun _ => v)). Qed.

Lemma spends_sample_payload id payload :
  is_u32 id -> bytes_ok payload -> spends (send_sample_payload id payload) anything.
Proof.
  intros Hid Hpay a b Hb w Hw. pose proof Hw as [He _ _ _]. unfold send_sample_payload, eng. wp_step. wp_step.
  assert (Hemit : forall code reason, wp (publish_failed id code reason) (fun r w' => anything r /\ turn a b w') (fun _ w' => turn a b w') w).
  { intros code reason. eapply (keeps_spends _ _ (keeps_emit _)); done. }
  destruct (en_active_publishes (ew_engine w) !! id) as [p |] eqn:Ep; [| apply Hemit].
  assert (Hseq : is_sequence (ap_seq_out p)) by apply (eo_publishes _ He id p Ep).
  pose proof (sent_frame (publish_header id p) [] payload (publish_header_typed _ _ Hid Hseq) (Forall_nil_2 _) Hpay) as Hs. wp_step.
  destruct (encode_frame _ _ _) as [bs | e |]; cbn [try_]; [| apply Hemit | done]. destruct Hs as [Hbs Hf]. wp_step. wp_step.
  apply wp_record; [done | done | apply Hemit | apply Hemit |]. intros f s' eff Hp Hacc.
  specialize (Hf f Hp). unfold header_fields, frame_header_fields in Hf. cbn in Hf. simplify_eq.
  unfold on_eng, count. wp_step. wp_step. wp_step. apply wp_push_outbound; cbn [ew_engine ew_outcome]; [by eapply room_of |].
  unfold on_eng. wp_step. split; [done |].
  eapply (turn_data a b w bs f s' eff); [done | done | done | | | | done].
  - unfold OPCODE_ROS_SAMPLE, OPCODE_CONTROL_CBOR in *. congruence.
  - apply telemetry_ok, buffer_id_ok, insert_publish_ok; [by apply (accepted_keeps _ (EvFrame f) Client s' eff) |].
    apply saturating_sequence; [done | lia].
  - by destruct (ew_engine w).
Qed.

(** A payload the encoders produce, or a failure event. *)
Lemma spends_encoded {E} (m : outcome E bytes) id reason :
  is_u32 id -> tame m ->
  spends (payload <~ try_ m ;;
          match payload with
          | Some payload => send_sample_payload id payload
          | None => publish_failed id 1 reason
          end) anything.
Proof.
  intros Hid Hm. eapply spends_bind; [apply keeps_try; by destruct m | intros [payload |] Hp].
  - specialize (Hp payload eq_refl). subst. by apply spends_sample_payload.
  - apply keeps_spends, keeps_emit.
Qed.

(** *** Operations *)

Lemma keeps_op_payload id op v : host_value_ok v -> keeps (encode_op_payload id op v) (fun r => forall b, r = Some b -> bytes_ok b).
Proof.
  intros [Hv Ht]. unfold encode_op_payload. eapply (keeps_seq _ _ anything); [by apply keeps_eng | intros services _].
  eapply (keeps_seq _ _ anything); [by apply keeps_eng | intros actions _]. cbv zeta.
  set (type_name := match services !! id with Some _ => _ | None => _ end). clearbody type_name.
  destruct type_name as [type_name |]; [| apply keeps_ret; by intros b [= <-]].
  destruct (HostValue.generated_op_type_name type_name op) as [section |]; [| apply keeps_ret; by intros b [= <-]].
  specialize (Ht section). destruct (transcode section v); cbn [try_].
  - apply keeps_ret. by intros b [= <-].
  - by apply keeps_ret.
  - done.
Qed.

Lemma keeps_take_sequence id opid : keeps (take_sequence id opid) is_sequence.
Proof.
  unfold take_sequence.
  eapply (keeps_seq _ _ (map_Forall (fun _ s => is_sequence (as_next_seq s)))); [apply keeps_eng; intros e He; apply He | intros services Hs].
  eapply (keeps_seq _ _ (map_Forall (fun _ a => is_sequence (aa_next_seq a)))); [apply keeps_eng; intros e He; apply He | intros actions Ha].
  destruct (services !! id) as [svc |] eqn:Es; [| destruct (actions !! id) as [act |] eqn:Ea].
  - specialize (Hs id svc Es) as Hsvc. cbv beta zeta in *. eapply keeps_seq; [| intros _ _; by apply keeps_ret].
    apply keeps_on_eng. apply (tweak_services (fun _ => _)). intros e _. apply map_Forall_insert_2; [| done].
    apply saturating_sequence; [done | lia].
  - specialize (Ha id act Ea) as Hact. cbv beta zeta in *. eapply keeps_seq; [| intros _ _; by apply keeps_ret].
    apply keeps_on_eng. apply (tweak_actions (fun _ => _)). intros e _. apply map_Forall_insert_2; [| done].
    apply saturating_sequence; [done | lia].
  - eapply (keeps_seq _ _ anything); [by apply keeps_eng | intros pending _].
    eapply keeps_seq; [| intros _ _; apply keeps_return]. unfold service_failed. repeat case_match; apply keeps_emit.
Qed.

Lemma spends_operation_frame id opcode opid payload reliable :
  is_u32 id -> 2 <= opcode <= 255 -> id_bytes 16 opid -> bytes_ok payload ->
  spends (send_service_action_frame id opcode opid payload reliable) anything.
Proof.
  intros Hid Hop Hopid Hpay. unfold send_service_action_frame. apply spends_fn.
  eapply spends_bind; [apply keeps_take_sequence | intros seq Hseq].
  destruct (operation_area_encodes opid Hopid) as (-> & Harea & _). cbn [try_].
  eapply (spends_bind _ _ (fun r => r = Some (operation_area opid))); [by apply keeps_ret | intros r ->].
  intros a b Hb w Hw. pose proof Hw as [He _ _ _].
  assert (Hemit : forall code reason, wp (service_failed id code reason) (fun r w' => anything r /\ turn a b w') (fun _ w' => turn a b w') w).
  { intros code reason. eapply (keeps_spends _ _ (keeps_emit _)); done. }
  pose proof (sent_frame (operation_header id opcode seq reliable) (operation_area opid) payload
    (operation_header_typed id opcode seq reliable Hid ltac:(unfold is_byte; lia) Hseq) Harea Hpay) as Hs. wp_step.
  destruct (encode_frame _ _ _) as [bs | e |]; cbn [try_]; [| apply Hemit | done]. destruct Hs as [Hbs Hf]. wp_step. wp_step.
  apply wp_record; [done | done | apply Hemit | apply Hemit |]. intros f s' eff Hp Hacc.
  specialize (Hf f Hp). unfold header_fields, frame_header_fields in Hf. cbn in Hf. simplify_eq.
  apply wp_push_outbound; cbn [ew_engine ew_outcome]; [by eapply room_of |]. split; [done |].
  eapply (turn_data a b w bs f s' eff); [done | done | done | | | | done].
  - unfold OPCODE_CONTROL_CBOR. lia.
  - apply buffer_id_ok. by apply (accepted_keeps _ (EvFrame f) Client s' eff).
  - by destruct (ew_engine w).
Qed.

Lemma spends_send_op id opcode op opid v reliable on_failure :
  operation_ok id opid v -> 2 <= opcode <= 255 -> keeps on_failure anything ->
  spends (send_op id opcode op opid v reliable on_failure) anything.
Proof.
  intros (Hid & Hopid & Hv) Hop Hfail. unfold send_op. eapply spends_bind; [by apply keeps_op_payload | intros [payload |] Hp].
  - apply spends_operation_frame; [done | done | done | by apply Hp].
  - by apply keeps_spends.
Qed.

(** *** All the commands *)

Lemma client_hello_record t wt : record_ok (RClientHello (client_hello t wt)).
Proof. cbn [record_ok client_hello]. unfold client_ok. cbn. split_and!; try done.
  - split; [done |]. split; [apply NoDup_singleton |]. apply Forall_singleton. unfold in_range. lia.
  - split; [done |]. split; constructor.
Qed.

Lemma spends_start t wt : spends (start t wt) anything.
Proof.
  unfold start. apply spends_fn. eapply (spends_bind _ _ anything); [by apply keeps_eng | intros started _].
  eapply spends_bind; [apply keeps_unless | intros _ _].
  eapply spends_bind; [apply keeps_on_eng, tweak_started | intros _ _].
  pose proof (encode_bootstrap_ok _ (client_hello_record t wt)) as He. cbn [encode_bootstrap] in He.
  pose proof (encoded_bootstrap_parses _ _ (client_hello_record t wt) He) as [Hb _]. rewrite He. cbn [try_].
  eapply (spends_bind _ _ (fun r => r = Some _)); [by apply keeps_ret | intros r ->].
  eapply spends_then; [by apply spends_push_bootstrap | intros pushed _]. case_match; [by apply keeps_ret | apply keeps_fail].
Qed.

Lemma keeps_forget id : keeps (forget_channel id) anything.
Proof.
  unfold forget_channel. eapply keeps_seq; [apply keeps_on_eng, tweak_pending | intros _ _].
  eapply keeps_seq; [apply keeps_on_eng, tweak_subscribes | intros _ _].
  eapply keeps_seq; [apply keeps_on_eng, tweak_publishes; intros e He; apply map_Forall_delete, He | intros _ _].
  eapply keeps_seq; [apply keeps_on_eng, tweak_services; intros e He; apply map_Forall_delete, He | intros _ _].
  apply keeps_on_eng, tweak_actions; intros e He; apply map_Forall_delete, He.
Qed.

Lemma spends_command cmd : command_ok cmd -> spends (handle_command cmd) anything.
Proof.
  destruct cmd; cbn [command_ok handle_command].
  - intros _. apply spends_start.
  - intros (Hc & Hs & Ht). eapply spends_then; [by apply spends_push_control, authenticate_typed | intros pushed _].
    case_match; [by apply keeps_ret | apply keeps_fail].
  - intros (Ho & Hr & Hd). by apply spends_open_channel.
  - intros (Ho & Hr & Hd). by apply spends_open_channel.
  - intros [Hid Hs]. by apply spends_encoded, tame_std_msgs_string.
  - intros [Hid Hs]. by apply spends_encoded, tame_point_cloud2.
  - intros [Hid Hs]. by apply spends_encoded.
  - intros Ho. by apply spends_open_service.
  - intros Ho. apply spends_send_op; [done | done | apply keeps_emit].
  - intros Ho. apply spends_send_op; [done | done | apply keeps_emit].
  - intros Ho. by apply spends_open_action.
  - intros Ho. apply spends_send_op; [done | done | apply keeps_emit].
  - intros [Hid Hopid]. apply spends_operation_frame; [done | done | done | constructor].
  - intros Ho. apply spends_send_op; [done | done | apply keeps_emit].
  - intros Ho. apply spends_send_op; [done | done | apply keeps_emit].
  - intros (Hid & Hopid & Hp). by apply spends_operation_frame.
  - intros [Hc Hid]. unfold unsubscribe. apply spends_fn.
    eapply spends_then; [by apply spends_push_control, close_channel_typed | intros pushed _].
    eapply (keeps_seq _ _ anything); [| intros _ _; apply keeps_forget].
    case_match; [by apply keeps_ret |]. eapply keeps_seq; [apply keeps_fail | intros _ _]. apply keeps_return.
  - intros _. apply keeps_spends. unfold close_command. eapply keeps_seq; [apply keeps_on_eng, tweak_closed | intros _ _].
    eapply (keeps_seq _ _ anything); [by apply keeps_eng | intros phase _]. apply keeps_emit.
Qed.

(** *** Inbound messages *)

(** The session accepts the peer's message, or the engine keeps its state. *)
Lemma keeps_ingest ev (m : SM SessionState ProtocolError SessionEffects) :
  (forall s, m s = apply_event ev (peer (ss_role s)) s) -> keeps (eng_session m) anything.
Proof.
  intros Hm a b w [He Hi Hr (tr & Hrun & Hsent & Hnum)]. unfold wp, eng_session. rewrite Hm, (eo_role _ He).
  cbn [peer]. pose proof (event_implements ev Server (en_session (ew_engine w))) as Himp. unfold implements in Himp.
  destruct (apply_event ev Server (en_session (ew_engine w))) as [[eff | e |] s'] eqn:Ea; [| | done].
  - split; [done |]. pose proof (accepted_keeps _ _ _ _ _ He Himp) as He'.
    destruct w as [e o]. cbn [ew_engine ew_outcome] in *. split; cbn [ew_engine ew_outcome]; [done | by destruct e | done |].
    exists (tr ++ [(Server, ev, eff)]). split; [| rewrite sent_snoc, app_nil_r; split; [done | by destruct e]].
    eapply run_accept; [exact Hrun |]. destruct e. exact Ea.
  - destruct Himp as [-> _]. rewrite same_session. split; [done |]. destruct w. split; try done. by exists tr.
Qed.

Lemma keeps_ingest_frame f : keeps (eng_session (ingest_frame f)) anything.
Proof. by apply (keeps_ingest (EvFrame f)). Qed.

Lemma keeps_ingest_bootstrap r : keeps (eng_session (ingest_bootstrap r)) anything.
Proof. by apply (keeps_ingest (EvBootstrap r)). Qed.

Lemma keeps_verdict {A} (r : A + ProtocolError) :
  keeps (match r with inl a => ret a | inr err => fail_with err end) anything.
Proof. destruct r; [by apply keeps_ret | apply keeps_fail_with]. Qed.

Lemma keeps_bootstrap id : keeps (handle_bootstrap id) anything.
Proof.
  unfold handle_bootstrap. apply keeps_fn.
  eapply (keeps_seq _ _ (map_Forall (fun _ b => rust_slice (rt_bytes b)))); [apply keeps_eng; intros e He; apply He | intros retained Hr].
  destruct (retained !! id) as [buf |] eqn:E; [| by apply keeps_ret].
  pose proof (parse_bootstrap_total (rt_bytes buf) (Hr id buf E)) as Ht.
  eapply (keeps_seq _ _ anything); [destruct (parse_bootstrap _); [by apply keeps_ret | apply keeps_fail_with | done] | intros record _].
  eapply keeps_seq; [apply keeps_ingest_bootstrap | intros ingested _].
  eapply keeps_seq; [apply keeps_verdict | intros effects _].
  eapply (keeps_seq _ _ anything); [| intros _ _].
  { case_match; [| by apply keeps_ret]. eapply keeps_seq; [apply keeps_fail | intros _ _]. apply keeps_return. }
  case_match; [| by apply keeps_ret]. eapply (keeps_seq _ _ anything); [by apply keeps_eng | intros v _]. apply keeps_emit.
Qed.

Lemma keeps_session_ready fields :
  (forall t, eng_field_text fields 8 = Some t -> carried_text t) -> keeps (session_ready_event fields) anything.
Proof.
  intros Ht. unfold session_ready_event. cbv zeta. eapply keeps_seq; [apply keeps_on_eng, tweak_row | intros _ _].
  - destruct (eng_field_text fields 8) as [t |]; [by apply Ht | by apply carried_check].
  - eapply keeps_seq; [apply keeps_emit | intros _ _]. eapply (keeps_seq _ _ anything); [by apply keeps_eng | intros now _].
    case_match; [apply keeps_on_eng, tweak_deadline | by apply keeps_ret].
Qed.

Lemma zero_sequence : is_sequence 0.
Proof. unfold is_sequence, u64_max. lia. Qed.

Lemma keeps_activate id p rel : keeps (activate id p rel) anything.
Proof.
  unfold activate. cbv zeta. case_match; eapply keeps_seq; try apply keeps_emit; intros _ _; apply keeps_on_eng;
    first [ apply tweak_subscribes | apply tweak_publishes | apply tweak_services | apply tweak_actions ];
    intros e He; (apply map_Forall_insert_2; [apply zero_sequence | apply He]).
Qed.

Lemma keeps_remove_pending id : keeps (remove_pending_open id) anything.
Proof.
  unfold remove_pending_open. eapply (keeps_seq _ _ anything); [by apply keeps_eng | intros pending _].
  eapply keeps_seq; [apply keeps_on_eng; apply (tweak_pending (fun _ => _)) | intros _ _]. by apply keeps_ret.
Qed.

Lemma keeps_channel_ready fields effects : keeps (channel_ready_event fields effects) anything.
Proof.
  unfold channel_ready_event. cbv zeta. eapply keeps_seq; [apply keeps_remove_pending | intros pending _].
  destruct (_ || _); [apply keeps_activate |]. destruct (channel_ready_error_body fields). apply keeps_emit.
Qed.

Lemma spends_heartbeat fields : spends (heartbeat_event fields) anything.
Proof.
  unfold heartbeat_event. eapply spends_bind; [apply keeps_emit | intros _ _].
  eapply (spends_bind _ _ is_sequence); [apply keeps_eng; intros e He; apply He | intros counter Hc]. cbv zeta.
  assert (Hc' : is_sequence (u64_saturating_add counter 1)) by (apply saturating_sequence; [done | lia]).
  eapply spends_bind; [by apply keeps_on_eng, tweak_heartbeat | intros _ _].
  eapply spends_then; [by apply spends_push_control, heartbeat_typed | intros pushed _]. by apply keeps_ret.
Qed.

Lemma keeps_error fields effects : keeps (error_event fields effects) anything.
Proof.
  unfold error_event. cbv zeta. case_match; [apply keeps_fail |]. repeat case_match; try apply keeps_emit; try by apply keeps_ret.
  eapply keeps_seq; [apply keeps_remove_pending | intros pending _]. apply keeps_emit.
Qed.

Lemma spends_control kind fields effects :
  (forall t, eng_field_text fields 8 = Some t -> carried_text t) -> spends (handle_control kind fields effects) anything.
Proof.
  intros Ht. unfold handle_control. case_match; [by apply keeps_spends, keeps_session_ready |].
  case_match; [apply keeps_spends, keeps_channel_ready |]. case_match; [apply spends_heartbeat |].
  case_match; [apply keeps_spends, keeps_emit |]. case_match; [apply keeps_spends, keeps_emit |].
  case_match; [apply keeps_spends, keeps_error | by apply keeps_spends, keeps_ret].
Qed.

Lemma keeps_fail_return code message (c : bool) :
  keeps (if c then fail code message ;;~ eng_return else ret tt) anything.
Proof. destruct c; [| by apply keeps_ret]. eapply keeps_seq; [apply keeps_fail | intros _ _]. apply keeps_return. Qed.

Lemma keeps_sample_text f payload len : bytes_ok payload -> keeps (sample_text f payload len) anything.
Proof.
  intros Hp. unfold sample_text. destruct the_target; [by apply keeps_ret |]. case_match; [| by apply keeps_ret].
  eapply (keeps_seq _ _ anything); [by apply keeps_eng | intros subscribes _]. cbv zeta. case_match; [| by apply keeps_ret].
  eapply keeps_mono; [| apply keeps_try, decode_string_total, Hp]. done.
Qed.

Lemma keeps_sample id f declared : (forall data, df_payload f = Application data -> bytes_ok data) ->
  keeps (handle_sample id f declared) anything.
Proof.
  intros Hd. unfold handle_sample. apply keeps_fn. destruct (df_payload f) as [data | m] eqn:E; [| by apply keeps_ret]. cbv zeta.
  eapply keeps_seq; [apply keeps_fail_return | intros _ _].
  eapply keeps_seq; [by apply keeps_sample_text, Hd | intros text _].
  eapply keeps_seq; [apply keeps_issue_lease | intros lease _].
  eapply keeps_seq; [apply keeps_emit | intros _ _]. apply keeps_count.
Qed.

Lemma keeps_operation id f declared : keeps (handle_service_action id f declared) anything.
Proof.
  unfold handle_service_action. apply keeps_fn. destruct (df_payload f); [| by apply keeps_ret]. cbv zeta.
  eapply keeps_seq; [apply keeps_fail_return | intros _ _].
  eapply keeps_seq; [apply keeps_unless | intros _ _].
  eapply (keeps_seq _ _ anything); [| intros opid _].
  { case_match; [by apply keeps_ret |]. case_match; [by apply keeps_ret |].
    eapply keeps_seq; [apply keeps_fail | intros _ _]. apply keeps_return. }
  eapply keeps_seq; [apply keeps_issue_lease | intros lease _]. case_match; [apply keeps_emit | apply keeps_release_lease].
Qed.

(** *** One event *)

(** Takes at most one control frame in and sends at most one message. *)
Definition handles {A} (m : Eng A) : Prop := forall a b, 0 <= a -> 0 <= b -> safe (a + 1) (b + 1) a b m anything.

Lemma spends_handles {A} (m : Eng A) P : spends m P -> handles m.
Proof.
  intros Hm a b Ha Hb w Hw. eapply wp_mono; [by apply (Hm (a + 1) b Hb) | |].
  - intros r w' [_ Hw']. split; [done |]. eapply turn_weaken; [| | exact Hw']; lia.
  - intros e w' Hw'. eapply turn_weaken; [| | exact Hw']; lia.
Qed.

Lemma keeps_handles {A} (m : Eng A) P : keeps m P -> handles m.
Proof. intros Hm. by eapply spends_handles, keeps_spends. Qed.

Lemma handles_bind {A B} (m : Eng A) (k : A -> Eng B) P :
  keeps m P -> (forall r, P r -> handles (k r)) -> handles (bind m k).
Proof. intros Hm Hk a b Ha Hb. eapply (safe_bind (a + 1) (b + 1) (a + 1) (b + 1)); [lia | lia | apply Hm |]. intros r Hr. by apply Hk. Qed.

Lemma handles_then {A B} (m : Eng A) (k : A -> Eng B) Q :
  handles m -> (forall r, keeps (k r) Q) -> handles (bind m k).
Proof.
  intros Hm Hk a b Ha Hb. eapply (safe_bind (a + 1) (b + 1) a b); [lia | lia | by apply Hm |]. intros r _.
  intros w Hw. eapply wp_mono; [by apply Hk | | done]. by intros r' w' [_ Hw'].
Qed.

Lemma handles_fn (m : Eng unit) : handles m -> handles (eng_fn m).
Proof.
  intros Hm a b Ha Hb w Hw. specialize (Hm a b Ha Hb w Hw). unfold wp, eng_fn in *. by destruct (m w) as [[[] | [] |] w'].
Qed.

(** The next inbound control number: a build that checks overflow has room for it. *)
Lemma handles_next_number (k : Eng unit) : spends k anything ->
  handles (expected <~ eng en_control_seq_in ;;
           next <~ eng_plus_one build expected ;; on_eng (set_control_seq_in next) ;;~ k).
Proof.
  intros Hk a b Ha Hb w Hw. pose proof Hw as [He Hin Hr Ht]. unfold eng. wp_step. wp_step. wp_step.
  set (seq := en_control_seq_in (ew_engine w)) in *.
  assert (Hstep : forall n, is_sequence n -> (build = Checked -> n + a <= u64_max) ->
    wp (on_eng (set_control_seq_in n) ;;~ k) (fun r w' => anything r /\ turn a b w') (fun _ w' => turn a b w') w).
  { intros n Hn Hroom. wp_step. unfold on_eng. wp_step. apply (Hk a b Hb). destruct w as [e o]. cbn [ew_engine ew_outcome] in *.
    split; cbn [ew_engine ew_outcome]; [destruct He, e; by split | by destruct e | done | by destruct e]. }
  pose proof (eo_in _ He) as Hs. fold seq in Hs. unfold is_sequence in Hs. unfold eng_plus_one.
  destruct (Z.eqb_spec seq u64_max) as [E | E].
  - destruct build; [specialize (Hin eq_refl); lia |]. wp_step. apply Hstep; [apply zero_sequence | done].
  - wp_step. apply Hstep; [unfold is_sequence; lia | intros Ec; specialize (Hin Ec); lia].
Qed.

Lemma fail_returns code message a b w :
  turn a b w -> wp (fail code message ;;~ eng_return) (fun (_ : unit) _ => False) (fun _ w' => turn a b w') w.
Proof. intros Hw. apply wp_bind. eapply wp_mono; [by apply keeps_fail | | done]. by intros r w' [_ Hw']. Qed.

Lemma handles_control_frame b f effects :
  inbound_ok b f -> handles (handle_control_frame build f effects).
Proof.
  intros Hf. unfold handle_control_frame.
  assert (Hk : spends (match df_payload f with
    | Application _ => fail 25 (lit "missing_control_payload") ;;~ eng_return
    | Frame.Control msg => handle_control (cm_kind msg) (cm_fields msg) effects end) anything).
  { destruct (df_payload f) as [data | m] eqn:E.
    - apply keeps_spends. eapply keeps_seq; [apply keeps_fail | intros _ _]. apply keeps_return.
    - apply spends_control. destruct (ib_control _ _ Hf m E) as (raw & Hraw & Hm). intros t. by apply (message_text raw m). }
  intros a a' Ha Ha' w Hw. pose proof (handles_next_number _ Hk a a' Ha Ha' w Hw) as Hn.
  unfold eng in *. apply wp_bind_inv in Hn. wp_step. wp_step. unfold wp at 1, gets in Hn. wp_step.
  destruct (negb _); [| wp_step; exact Hn].
  eapply wp_mono; [apply (fail_returns 25 (lit "control_sequence_mismatch") (a + 1) (a' + 1)), Hw | done |].
  intros e w' Hw'. eapply turn_weaken; [| | exact Hw']; lia.
Qed.

Lemma handles_frame id : handles (handle_frame build id).
Proof.
  unfold handle_frame. apply handles_fn.
  eapply (handles_bind _ _ (map_Forall (fun _ b => rust_slice (rt_bytes b)))); [apply keeps_eng; intros e He; apply He | intros retained Hr].
  destruct (retained !! id) as [buf |] eqn:E; [| eapply keeps_handles; by apply (keeps_ret _ anything)].
  specialize (Hr id buf E). cbv beta zeta in Hr.
  eapply (handles_bind _ _ (fun options => options = default_options)); [apply keeps_eng; intros e He; apply He | intros options ->].
  pose proof (parse_declared_total (rt_bytes buf) (rt_declared_len buf) Hr) as Ht.
  eapply (handles_bind _ _ (inbound_ok (rt_bytes buf))).
  { destruct (parse_frame_declared _ _ _) as [f | e |] eqn:Ep; [| apply keeps_fail_with | done].
    apply keeps_ret. by eapply inbound_frame. }
  intros f Hf. eapply handles_bind; [apply keeps_ingest_frame | intros ingested _].
  eapply handles_bind; [apply keeps_verdict | intros effects _].
  case_match; [by eapply handles_control_frame |].
  case_match; [eapply keeps_handles; apply keeps_sample, Hf |].
  case_match; [eapply keeps_handles; apply keeps_operation | eapply keeps_handles; by apply (keeps_ret _ anything)].
Qed.

Lemma handles_ws_bytes id b : rust_slice b -> handles (handle_ws_bytes build id b).
Proof.
  intros Hb. unfold handle_ws_bytes. eapply handles_bind; [apply keeps_count | intros _ _].
  eapply handles_bind; [by apply keeps_retain_buffer | intros id' _].
  eapply (handles_bind _ _ anything); [by apply keeps_eng | intros phase _].
  eapply handles_then; [case_match; [eapply keeps_handles, keeps_bootstrap | apply handles_frame] | intros _].
  by apply keeps_on_eng, tweak_alter_retained.
Qed.

Lemma spends_timer now_ms : spends (handle_timer now_ms) anything.
Proof.
  unfold handle_timer. apply spends_fn. eapply spends_bind; [apply keeps_on_eng, tweak_timer | intros _ _].
  eapply (spends_bind _ _ anything); [by apply keeps_eng | intros phase _].
  eapply (spends_bind _ _ anything); [case_match; [by apply keeps_ret | apply keeps_return] | intros _ _]. cbv zeta.
  eapply (spends_bind _ _ anything); [by apply keeps_eng | intros deadline _].
  destruct deadline as [deadline |]; [| apply keeps_spends, keeps_on_eng, tweak_deadline].
  case_match; [| by apply keeps_spends, keeps_ret].
  eapply (spends_bind _ _ is_sequence); [apply keeps_eng; intros e He; apply He | intros counter Hc].
  assert (Hc' : is_sequence (u64_saturating_add counter 1)) by (apply saturating_sequence; [done | lia]).
  eapply spends_bind; [by apply keeps_on_eng, tweak_heartbeat | intros _ _].
  eapply spends_then; [by apply spends_push_control, heartbeat_typed | intros pushed _]. apply keeps_on_eng, tweak_deadline.
Qed.

Lemma handles_event event : event_ok event -> handles (handle_event build event).
Proof.
  intros Hok. unfold handle_event. apply handles_fn. destruct event as [id b | now | cmd | lease]; cbn [event_ok] in Hok.
  - by apply handles_ws_bytes.
  - eapply spends_handles, spends_timer.
  - by eapply spends_handles, spends_command.
  - eapply keeps_handles, keeps_release_lease.
Qed.

(** A batch of events. *)
Lemma safe_events events : Forall event_ok events ->
  safe (blen events) (blen events) 0 0 (handle_events build events) anything.
Proof.
  induction 1 as [| event events Hev _ IH]; cbn [handle_events]; [apply (keeps_ret _ anything); done |].
  rewrite blen_cons. pose proof (blen_nonneg events).
  eapply (safe_bind _ _ (blen events) (blen events)); [lia | lia | | intros _ _].
  { replace (1 + blen events) with (blen events + 1) by lia. by apply handles_event. }
  eapply (safe_bind _ _ (blen events) (blen events)); [lia | lia | by apply (keeps_eng _ anything) | intros closed _].
  destruct closed; [| exact IH]. intros w Hw. apply wp_ret. split; [done |]. eapply turn_weaken; [| | exact Hw]; lia.
Qed.

(** *** A poll *)

Lemma safe_fn a b a' b' (m : Eng unit) : safe a b a' b' m anything -> safe a b a' b' (eng_fn m) anything.
Proof. intros Hm w Hw. specialize (Hm w Hw). unfold wp, eng_fn in *. by destruct (m w) as [[[] | [] |] w']. Qed.

Lemma safe_then {A B} a b a' b' (m : Eng A) (k : A -> Eng B) P Q :
  safe a b a' b' m P -> (forall r, P r -> keeps (k r) Q) -> safe a b a' b' (bind m k) Q.
Proof. intros Hm Hk. eapply (safe_bind a b a' b'); [lia | lia | exact Hm |]. intros r Hr. by apply Hk. Qed.

Lemma safe_after {A B} a b a' b' (m : Eng A) (k : A -> Eng B) P Q :
  a' <= a -> b' <= b -> keeps m P -> (forall r, P r -> safe a b a' b' (k r) Q) -> safe a b a' b' (bind m k) Q.
Proof. intros Ha Hb Hm Hk. eapply (safe_bind a b a b); [done | done | apply Hm | done]. Qed.

Lemma safe_keeps {A} a b a' b' (m : Eng A) P : a' <= a -> b' <= b -> keeps m P -> safe a b a' b' m P.
Proof.
  intros Ha Hb Hm w Hw. eapply wp_mono; [by apply (Hm a b) | |].
  - intros r w' [Hr Hw']. split; [done |]. by eapply turn_weaken.
  - intros e w' Hw'. by eapply turn_weaken.
Qed.

(** The closing lines of a poll around its body. *)
Lemma safe_turn n nanos (body : Eng unit) :
  0 <= n -> safe n n 0 0 body anything -> safe n n 0 0 (poll_turn nanos body) anything.
Proof.
  intros Hn Hb. unfold poll_turn. eapply (safe_after _ _ _ _ _ _ anything); [lia | lia | by apply keeps_eng | intros closed _].
  eapply (safe_then _ _ _ _ _ _ anything); [| intros ? ?; apply keeps_count]. destruct closed.
  - apply safe_keeps; [lia | lia |]. eapply (keeps_seq _ _ anything); [by apply keeps_eng | intros phase _]. apply keeps_emit.
  - eapply safe_then; [by apply safe_fn | intros _ _]. eapply keeps_seq; [apply keeps_sweep | intros _ _].
    eapply (keeps_seq _ _ anything); [by apply keeps_eng | intros deadline _]. by apply keeps_on_outcome.
Qed.

End Safe.

(** ** Polls *)

Section Polls.
Context `{Target}.
Variable build : EngineBuild.

(** What a poll from [e] hands to the host and leaves behind. *)
Record polled (e : ClientEngine) (o : PollOutcome) (e' : ClientEngine) : Prop := {
  pl_engine : engine_ok e';
  pl_bounded : blen (po_outbound o) <= MAX_OUTBOUND_PER_POLL;
  pl_trace : exists tr, run (en_session e) tr (en_session e') /\
    Forall2 sent_as (map om_bytes (po_outbound o)) (sent tr) /\
    numbered (en_control_seq_out e) (sent tr) (en_control_seq_out e')
}.

(** A turn always returns: its body is a function, the rest does not fail. *)
Definition returns {A} (m : SM EngineWorld unit A) : Prop := forall w, match m w with (Err _, _) => False | _ => True end.

Lemma returns_bind {A B} (m : SM EngineWorld unit A) (k : A -> SM EngineWorld unit B) :
  returns m -> (forall a, returns (k a)) -> returns (bind m k).
Proof. intros Hm Hk w. specialize (Hm w). unfold bind. destruct (m w) as [[a | |] w']; [apply Hk | done | done]. Qed.

Lemma returns_fn m : returns (eng_fn m).
Proof. intros w. unfold eng_fn. by destruct (m w) as [[| |] w']. Qed.

Lemma turn_returns nanos body : returns (poll_turn nanos body).
Proof.
  unfold poll_turn, sweep_released. apply returns_bind; [done | intros closed]. apply returns_bind; [| done]. destruct closed.
  - by repeat (apply returns_bind; [done | intros]).
  - apply returns_bind; [apply returns_fn | intros _]. by repeat (apply returns_bind; [| intros]).
Qed.

Lemma turn_starts n e :
  engine_ok e -> n <= MAX_OUTBOUND_PER_POLL -> (build = Checked -> en_control_seq_in e + n <= u64_max) ->
  turn_ok build (en_session e) (en_control_seq_out e) n n (mk_ew e default_outcome).
Proof.
  intros He Hn Hi. split; cbn [ew_engine ew_outcome]; [done | done | change (blen (po_outbound default_outcome)) with 0; lia |].
  exists []. split; [constructor | by split].
Qed.

Lemma turn_polled e b w : 0 <= b -> turn_ok build (en_session e) (en_control_seq_out e) 0 b w -> polled e (ew_outcome w) (ew_engine w).
Proof. intros Hb [He' Hi Hr Ht]. split; [done | lia | done]. Qed.

Lemma run_poll_safe nanos n body e :
  engine_ok e -> 0 <= n <= MAX_OUTBOUND_PER_POLL -> (build = Checked -> en_control_seq_in e + n <= u64_max) ->
  safe build (en_session e) (en_control_seq_out e) n n 0 0 body anything ->
  exists o e', run_poll nanos body e = (Ok o, e') /\ polled e o e'.
Proof.
  intros He Hn Hi Hb. pose proof (turn_starts n e He ltac:(lia) Hi) as Hw. set (w0 := mk_ew e default_outcome) in *.
  pose proof (safe_turn _ _ _ n nanos body ltac:(lia) Hb w0 Hw) as Ht. pose proof (turn_returns nanos body w0) as Hr.
  unfold run_poll. fold w0. unfold wp in Ht. destruct (poll_turn nanos body w0) as [[r | |] w]; [| done | done].
  exists (ew_outcome w), (ew_engine w). split; [done |]. apply (turn_polled e 0 w); [lia | apply Ht].
Qed.

Lemma poll_safe nanos events e :
  engine_ok e -> Forall event_ok events -> (build = Checked -> en_control_seq_in e + 64 <= u64_max) ->
  exists o e', poll build nanos events e = (Ok o, e') /\ polled e o e'.
Proof.
  intros He Hev Hi. set (batch := take MAX_HOST_EVENTS_PER_POLL events).
  assert (Hl : blen batch <= 64) by (unfold batch, blen; rewrite length_take; unfold MAX_HOST_EVENTS_PER_POLL; lia).
  pose proof (blen_nonneg batch). unfold poll. apply (run_poll_safe nanos (blen batch)); [done | | |].
  - unfold MAX_OUTBOUND_PER_POLL. lia.
  - intros Hc. specialize (Hi Hc). lia.
  - by apply safe_events, Forall_take.
Qed.

Lemma poll_ws_bytes_safe nanos id b e :
  engine_ok e -> rust_slice b -> (build = Checked -> en_control_seq_in e < u64_max) ->
  exists o e', poll_ws_bytes build nanos id b e = (Ok o, e') /\ polled e o e'.
Proof.
  intros He Hb Hi. unfold poll_ws_bytes. apply (run_poll_safe nanos 1); [done | unfold MAX_OUTBOUND_PER_POLL; lia | |].
  - intros Hc. specialize (Hi Hc). lia.
  - apply (handles_ws_bytes build _ _ id b Hb 0 0); lia.
Qed.

End Polls.
