(* ===== verification/EngineSlab.v ===== *)
(** * The client engine: retained buffers and leases

    The engine keeps every inbound buffer a lease still points into and hands it
    back when the last lease is released.  The invariant: a lease lies inside
    its buffer, a buffer counts exactly the leases on it, identifiers are never
    reused.  Most handlers do not touch any of it ([still]). *)

From stdpp Require Import gmap.
From S2P Require Import Prelude Utf8 ProtocolError Cbor Extension ControlSchema Control Frame Bootstrap Session SessionProofs.
From S2P Require Import Registry EngineTypes Engine EngineCodecs EngineSpec EngineMessages EngineProofs.
#[local] Open Scope Z_scope.

(** ** Counting leases *)

Definition on_buffer (id : Z) (p : Z * Lease) : Prop := le_buffer_id p.2 = id.
#[export] Instance on_buffer_dec id p : Decision (on_buffer id p).
Proof. unfold on_buffer. apply _. Defined.

(** The number of leases on a buffer. *)
Definition refs_on (id : Z) (leases : gmap Z Lease) : Z := Z.of_nat (size (filter (on_buffer id) leases)).

Lemma refs_insert id leases lease l :
  leases !! lease = None ->
  refs_on id (<[lease := l]> leases) = refs_on id leases + (if decide (le_buffer_id l = id) then 1 else 0).
Proof.
  intros Hn. unfold refs_on. rewrite map_filter_insert. destruct (decide (on_buffer id (lease, l))) as [E | E].
  - rewrite decide_True by exact E. rewrite map_size_insert_None; [lia |].
    apply map_lookup_filter_None. by left.
  - rewrite decide_False by exact E. by rewrite delete_id, Z.add_0_r by done.
Qed.

Lemma refs_delete id leases lease l :
  leases !! lease = Some l ->
  refs_on id (delete lease leases) = refs_on id leases - (if decide (le_buffer_id l = id) then 1 else 0).
Proof.
  intros Hl. pose proof (refs_insert id (delete lease leases) lease l (lookup_delete_eq _ _)) as H.
  rewrite insert_delete_id in H by done. lia.
Qed.

Lemma refs_zero id leases : refs_on id leases = 0 <-> forall lease l, leases !! lease = Some l -> le_buffer_id l <> id.
Proof.
  unfold refs_on. rewrite <- Nat2Z.inj_0, Nat2Z.inj_iff, map_size_empty_iff, map_empty_filter. split.
  - intros Hall lease l Hl. by apply (Hall lease l Hl).
  - intros Hall lease l Hl. by apply (Hall lease l Hl).
Qed.

Lemma refs_nonneg id leases : 0 <= refs_on id leases.
Proof. unfold refs_on. lia. Qed.

Lemma refs_pos id leases : 0 < refs_on id leases -> exists lease l, leases !! lease = Some l /\ le_buffer_id l = id.
Proof.
  unfold refs_on. intros Hpos. destruct (map_choose (filter (on_buffer id) leases)) as (lease & l & Hl).
  { intros E. rewrite E, map_size_empty in Hpos. lia. }
  apply map_lookup_filter_Some in Hl as [Hl Hid]. by exists lease, l.
Qed.

Lemma refs_le_size id leases : refs_on id leases <= Z.of_nat (size leases).
Proof. unfold refs_on. pose proof (map_size_filter (on_buffer id) leases). lia. Qed.

(** ** The invariant *)

(** The part of the engine that manages buffers. *)
Record Slab := mk_slab { sb_retained : gmap Z RetainedBuffer; sb_leases : gmap Z Lease; sb_next_lease : Z; sb_next_buffer : Z }.
Definition slab_of (e : ClientEngine) : Slab := mk_slab (en_retained e) (en_leases e) (en_next_lease_id e) (en_next_buffer_id e).

Record slab_ok (s : Slab) : Prop := {
  so_backed : forall lease l, sb_leases s !! lease = Some l -> exists buf, sb_retained s !! le_buffer_id l = Some buf /\
    0 <= le_payload_offset l /\ 0 <= le_payload_len l /\ le_payload_offset l + le_payload_len l <= rt_declared_len buf;
  so_refs : forall id buf, sb_retained s !! id = Some buf -> rt_lease_refs buf = refs_on id (sb_leases s);
  so_lease_ids : forall lease, is_Some (sb_leases s !! lease) -> 1 <= lease < sb_next_lease s;
  so_lease_count : Z.of_nat (size (sb_leases s)) < sb_next_lease s <= u32_max;
  so_buffer_ids : forall id, is_Some (sb_retained s !! id) -> 1 <= id /\ (id < sb_next_buffer s \/ sb_next_buffer s = u32_max);
  so_next_buffer : 1 <= sb_next_buffer s <= u32_max
}.

(** Between polls every retained buffer has been ingested and is leased. *)
Definition settled (s : Slab) : Prop :=
  forall id buf, sb_retained s !! id = Some buf -> rt_ingest_done buf = true /\ 0 < rt_lease_refs buf.

Lemma slab_new_ok : slab_ok (slab_of engine_new) /\ settled (slab_of engine_new).
Proof.
  split; [| done]. split; cbn; try done.
  - intros lease [? Hl]. done.
  - intros id [? Hb]. done.
Qed.

(** ** Handlers that leave buffers alone *)

Section Still.
Context `{Target}.
Abbreviation Eng := (SM EngineWorld unit).

(** The buffers and leases are as they were; a buffer id may have been taken for
    an outbound message. *)
Record unmoved (e e' : ClientEngine) : Prop := {
  um_retained : en_retained e' = en_retained e;
  um_leases : en_leases e' = en_leases e;
  um_next_lease : en_next_lease_id e' = en_next_lease_id e;
  um_options : en_frame_options e' = en_frame_options e;
  um_next_buffer : en_next_buffer_id e <= u32_max -> en_next_buffer_id e <= en_next_buffer_id e' <= u32_max
}.

(** And nothing was reported as released. *)
Definition still {A} (m : Eng A) : Prop := forall w,
  let w' := snd (m w) in
  unmoved (ew_engine w) (ew_engine w') /\ po_released_buffers (ew_outcome w') = po_released_buffers (ew_outcome w).

Lemma unmoved_refl e : unmoved e e.
Proof. split; (done || lia). Qed.

Lemma unmoved_trans e1 e2 e3 : unmoved e1 e2 -> unmoved e2 e3 -> unmoved e1 e3.
Proof. intros [? ? ? ? H1] [? ? ? ? H2]. split; [congruence | congruence | congruence | congruence |]. intros Hb. specialize (H1 Hb). lia. Qed.

Lemma still_bind {A B} (m : Eng A) (k : A -> Eng B) : still m -> (forall a, still (k a)) -> still (bind m k).
Proof.
  intros Hm Hk w. specialize (Hm w). unfold bind. destruct (m w) as [[a | e |] w1]; cbn [snd] in *; [| done | done].
  destruct Hm as [Hm1 Hm2], (Hk a w1) as [Hk1 Hk2]. split; [by eapply unmoved_trans | congruence].
Qed.

Lemma still_ret {A} (a : A) : still (ret a).
Proof. intros w. split; [apply unmoved_refl | done]. Qed.
Lemma still_return {A} : still (A := A) eng_return.
Proof. intros w. split; [apply unmoved_refl | done]. Qed.
Lemma still_panic {A} : still (A := A) eng_panic.
Proof. intros w. split; [apply unmoved_refl | done]. Qed.
Lemma still_gets {A} (f : EngineWorld -> A) : still (gets f).
Proof. intros w. split; [apply unmoved_refl | done]. Qed.
Lemma still_on_eng f : (forall e, unmoved e (f e)) -> still (on_eng f).
Proof. intros Hf w. split; [apply Hf | done]. Qed.
Lemma still_on_outcome f : (forall o, po_released_buffers (f o) = po_released_buffers o) -> still (on_outcome f).
Proof. intros Hf w. split; [apply unmoved_refl | apply Hf]. Qed.
Lemma still_fn (m : Eng unit) : still m -> still (eng_fn m).
Proof. intros Hm w. specialize (Hm w). unfold eng_fn. by destruct (m w) as [[[] | [] |] w']. Qed.
Lemma still_try {E A} (m : outcome E A) : still (try_ m).
Proof. destruct m; [apply still_ret | apply still_ret | apply still_panic]. Qed.
Lemma still_session {A} (m : SM SessionState ProtocolError A) : still (eng_session m).
Proof.
  intros [e o]. unfold eng_session. cbn [ew_engine ew_outcome]. destruct (m (en_session e)) as [[a | err |] s];
    (split; [destruct e; split; cbn; (done || lia) | done]).
Qed.
Lemma still_push_outbound b : still (push_outbound b).
Proof.
  unfold push_outbound. apply still_bind; [apply still_gets | intros outbound]. destruct (_ <=? _); [apply still_ret |].
  intros [e o]. destruct e. cbn. split; [| done]. split; [done | done | done | done |]. cbn. unfold u32_saturating_add, u32_max. lia.
Qed.

End Still.

Create HintDb still.
#[export] Hint Resolve still_ret still_return still_panic still_gets still_fn still_try still_session
  still_push_outbound : still.

(** A change of a field that is no part of the slab. *)
Ltac unmoved := intros []; split; cbn; (done || lia).
Ltac still :=
  repeat first
    [ progress intros
    | lazymatch goal with
      | |- still (bind _ _) => apply still_bind
      | |- still (eng_fn _) => apply still_fn
      | |- still (on_eng _) => apply still_on_eng; solve [unmoved]
      | |- still (count _) => apply still_on_eng; solve [unmoved]
      | |- still (emit _) => apply still_on_outcome; done
      | |- still (on_outcome _) => apply still_on_outcome; done
      | |- still (eng _) => apply still_gets
      | |- still (let _ := _ in _) => cbv zeta
      | |- still (match ?x with _ => _ end) => destruct x
      | |- still (if ?x then _ else _) => destruct x
      | |- still _ => solve [auto with still]
      end ].

Section StillHandlers.
Context `{Target}.

Lemma still_fail code message : still (fail code message).
Proof. unfold fail. still. Qed.
Lemma still_fail_with {A} err : still (A := A) (fail_with err).
Proof. pose proof still_fail. unfold fail_with. still. Qed.
Hint Resolve still_fail still_fail_with : still.

Lemma still_record b : still (record_outbound_frame b).
Proof. unfold record_outbound_frame. still. Qed.
Hint Resolve still_record : still.
Lemma still_push_control message : still (eng_push_control message).
Proof. unfold eng_push_control. still. Qed.
Hint Resolve still_push_control : still.
Lemma still_bootstrap_outbound b : still (push_bootstrap_outbound b).
Proof. unfold push_bootstrap_outbound. still. Qed.
Hint Resolve still_bootstrap_outbound : still.

Lemma still_schema_check type_name id kind : still (emit_schema_unavailable_if_needed type_name id kind).
Proof. unfold emit_schema_unavailable_if_needed. still. Qed.
Lemma still_push_open message reason : still (push_open message reason).
Proof. unfold push_open. still. Qed.
Lemma still_sample_payload id payload : still (send_sample_payload id payload).
Proof. unfold send_sample_payload, publish_failed. still. Qed.
Lemma still_take_sequence id opid : still (take_sequence id opid).
Proof. unfold take_sequence, service_failed. still. Qed.
Lemma still_op_payload id op b : still (encode_op_payload id op b).
Proof. unfold encode_op_payload. still. Qed.
Hint Resolve still_schema_check still_push_open still_sample_payload still_take_sequence still_op_payload : still.
Lemma still_operation id opcode opid payload reliable : still (send_service_action_frame id opcode opid payload reliable).
Proof. unfold send_service_action_frame, service_failed. still. Qed.
Hint Resolve still_operation : still.

Lemma still_command cmd : still (handle_command cmd).
Proof.
  destruct cmd; cbn [handle_command];
    unfold start, open_channel_cmd, open_service_cmd, open_action_cmd, insert_pending_open, send_sample, send_point_cloud2,
      send_generated, publish_failed, send_op, fail_service, service_failed, fail_action, unsubscribe, forget_channel, close_command;
    still.
Qed.

Lemma still_bootstrap id : still (handle_bootstrap id).
Proof. unfold handle_bootstrap. still. Qed.

Lemma still_control kind fields effects : still (handle_control kind fields effects).
Proof.
  unfold handle_control, session_ready_event, channel_ready_event, activate, heartbeat_event, error_event,
    remove_pending_open. still.
Qed.

Lemma still_timer now_ms : still (handle_timer now_ms).
Proof. unfold handle_timer. still. Qed.

Lemma still_sample_text f payload len : still (sample_text f payload len).
Proof. unfold sample_text. still. Qed.

End StillHandlers.

#[export] Hint Resolve still_fail still_fail_with still_bootstrap still_control still_command still_timer still_sample_text : still.

(** ** Transitions *)

Section Transitions.
Implicit Types s : Slab.

Lemma slab_retain s id b n next :
  slab_ok s -> sb_retained s !! id = None -> 1 <= id -> sb_next_buffer s <= next <= u32_max ->
  (id < next \/ next = u32_max) ->
  slab_ok (mk_slab (<[id := mk_retained b n 0 false]> (sb_retained s)) (sb_leases s) (sb_next_lease s) next).
Proof.
  intros [Hb Hr Hl Hc Hi Hn] Hf Hid Hnext Hlt. split; cbn [sb_retained sb_leases sb_next_lease sb_next_buffer]; try done.
  - intros lease l El. destruct (Hb lease l El) as (buf & Eb & Hbuf). exists buf. split; [| done].
    rewrite lookup_insert_ne; [done |]. congruence.
  - intros i buf. rewrite lookup_insert_Some. intros [[-> <-] | [Hne Ei]]; [| by apply Hr]. cbn. symmetry. apply refs_zero.
    intros lease l El E. destruct (Hb lease l El) as (buf' & Eb & _). congruence.
  - intros i [buf Ei]. apply lookup_insert_Some in Ei as [[-> <-] | [Hne Ei]]; [done |].
    destruct (Hi i (mk_is_Some _ _ Ei)) as [H1 H2]. split; [done | lia].
  - lia.
Qed.

(** A change of a buffer that keeps its lease count and its length. *)
Lemma slab_alter s id f :
  (forall buf, rt_lease_refs (f buf) = rt_lease_refs buf /\ rt_declared_len (f buf) = rt_declared_len buf) ->
  slab_ok s -> slab_ok (mk_slab (alter f id (sb_retained s)) (sb_leases s) (sb_next_lease s) (sb_next_buffer s)).
Proof.
  intros Hf [Hb Hr Hl Hc Hi Hn]. split; cbn [sb_retained sb_leases sb_next_lease sb_next_buffer]; try done.
  - intros lease l El. destruct (Hb lease l El) as (buf & Eb & Hbuf). destruct (decide (id = le_buffer_id l)) as [-> | Hne].
    + exists (f buf). rewrite lookup_alter_eq, Eb. cbn. destruct (Hf buf) as [_ ->]. done.
    + exists buf. by rewrite lookup_alter_ne.
  - intros i buf Ei. apply lookup_alter_Some in Ei as [(-> & x & Ex & ->) | [_ Ex]]; [| by apply Hr].
    destruct (Hf x) as [-> _]. by apply Hr.
  - intros i [buf Ei]. apply Hi. apply lookup_alter_Some in Ei as [(-> & x & Ex & _) | [_ Ex]]; by eexists.
Qed.

Lemma slab_issue s id buf offset len :
  slab_ok s -> sb_retained s !! id = Some buf -> sb_next_lease s < u32_max ->
  0 <= offset -> 0 <= len -> offset + len <= rt_declared_len buf ->
  slab_ok (mk_slab (alter (with_lease_refs (fun n => u32_saturating_add n 1)) id (sb_retained s))
             (<[sb_next_lease s := mk_lease id offset len]> (sb_leases s)) (sb_next_lease s + 1) (sb_next_buffer s)).
Proof.
  intros [Hb Hr Hl Hc Hi Hn] Eb Hnext Ho Hlen Hfit.
  assert (Hfresh : sb_leases s !! sb_next_lease s = None).
  { destruct (sb_leases s !! sb_next_lease s) eqn:E; [| done]. specialize (Hl _ (mk_is_Some _ _ E)). lia. }
  split; cbn [sb_retained sb_leases sb_next_lease sb_next_buffer]; try done.
  - intros lease l El. rewrite lookup_insert_Some in El.
    assert (Hback : exists b, sb_retained s !! le_buffer_id l = Some b /\ 0 <= le_payload_offset l /\
      0 <= le_payload_len l /\ le_payload_offset l + le_payload_len l <= rt_declared_len b).
    { destruct El as [[_ <-] | [_ El]]; [by exists buf | by apply (Hb lease)]. }
    destruct Hback as (b & E & Hbuf). destruct (decide (id = le_buffer_id l)) as [-> | Hne].
    + exists (with_lease_refs (fun n => u32_saturating_add n 1) b). by rewrite lookup_alter_eq, E.
    + exists b. by rewrite lookup_alter_ne.
  - intros i x Ex. rewrite refs_insert by done. cbn [le_buffer_id].
    apply lookup_alter_Some in Ex as [(-> & y & Ey & ->) | [Hne Ex]].
    + rewrite decide_True by done. cbn. rewrite (Hr _ _ Ey). pose proof (refs_le_size i (sb_leases s)). unfold u32_saturating_add. lia.
    + rewrite decide_False by done. rewrite (Hr _ _ Ex). lia.
  - intros lease [l El]. apply lookup_insert_Some in El as [[<- _] | [_ El]]; [lia |].
    specialize (Hl lease (mk_is_Some _ _ El)). lia.
  - rewrite map_size_insert_None by done. lia.
  - intros i [x Ex]. apply Hi. apply lookup_alter_Some in Ex as [(-> & y & Ey & _) | [_ Ex]]; by eexists.
Qed.

Lemma slab_release s lease l :
  slab_ok s -> sb_leases s !! lease = Some l ->
  slab_ok (mk_slab (alter (with_lease_refs (fun n => Z.max 0 (n - 1))) (le_buffer_id l) (sb_retained s))
             (delete lease (sb_leases s)) (sb_next_lease s) (sb_next_buffer s)).
Proof.
  intros [Hb Hr Hl Hc Hi Hn] El. split; cbn [sb_retained sb_leases sb_next_lease sb_next_buffer]; try done.
  - intros lease' l' E'. apply lookup_delete_Some in E' as [_ E']. destruct (Hb lease' l' E') as (b & E & Hbuf).
    destruct (decide (le_buffer_id l = le_buffer_id l')) as [-> | Hne].
    + exists (with_lease_refs (fun n => Z.max 0 (n - 1)) b). by rewrite lookup_alter_eq, E.
    + exists b. by rewrite lookup_alter_ne.
  - intros i x Ex. rewrite (refs_delete _ _ _ _ El).
    apply lookup_alter_Some in Ex as [(E & y & Ey & ->) | [Hne Ex]].
    + subst i. rewrite decide_True by done. cbn. rewrite (Hr _ _ Ey).
      assert (refs_on (le_buffer_id l) (sb_leases s) <> 0) by (rewrite refs_zero; intros Hz; by apply (Hz lease l El)).
      pose proof (refs_nonneg (le_buffer_id l) (sb_leases s)). lia.
    + rewrite decide_False by done. rewrite (Hr _ _ Ex). lia.
  - intros lease' [l' E']. apply lookup_delete_Some in E' as [_ E']. by apply Hl.
  - rewrite map_size_delete_Some by done. lia.
  - intros i [x Ex]. apply Hi. apply lookup_alter_Some in Ex as [(_ & y & Ey & _) | [_ Ex]]; by eexists.
Qed.

(** A leased buffer is not idle, so sweeping keeps it. *)
Lemma slab_sweep s :
  slab_ok s ->
  slab_ok (mk_slab (filter (fun p => idle p.2 = false) (sb_retained s)) (sb_leases s) (sb_next_lease s) (sb_next_buffer s)).
Proof.
  intros [Hb Hr Hl Hc Hi Hn]. split; cbn [sb_retained sb_leases sb_next_lease sb_next_buffer]; try done.
  - intros lease l El. destruct (Hb lease l El) as (buf & Eb & Hbuf). exists buf. split; [| done].
    apply map_lookup_filter_Some. split; [done |]. cbn. unfold idle. apply andb_false_iff. right. apply Z.eqb_neq.
    rewrite (Hr _ _ Eb), refs_zero. intros Hz. by apply (Hz lease l El).
  - intros i x Ex. apply map_lookup_filter_Some in Ex as [Ex _]. by apply Hr.
  - intros i [x Ex]. apply map_lookup_filter_Some in Ex as [Ex _]. apply Hi. by eexists.
Qed.

Lemma unmoved_slab e e' : unmoved e e' -> slab_ok (slab_of e) -> slab_ok (slab_of e').
Proof.
  intros [E1 E2 E3 _ E4] [Hb Hr Hl Hc Hi Hn]. unfold slab_of in *. cbn in *. specialize (E4 (proj2 Hn)).
  split; cbn; rewrite ?E1, ?E2, ?E3; try done; [| lia].
  intros id Hid. destruct (Hi id Hid) as [H1 H2]. split; [done | lia].
Qed.

End Transitions.

(** ** Handlers that lease *)

Section Leasing.
Context `{Target}.
Abbreviation Eng := (SM EngineWorld unit).

(** What a handler keeps of a buffer. *)
Definition content (buf : RetainedBuffer) : bytes * Z * bool := (rt_bytes buf, rt_declared_len buf, rt_ingest_done buf).

(** The buffers are the same up to their lease counts; leases may have been added. *)
Record leased (e e' : ClientEngine) : Prop := {
  ls_slab : slab_ok (slab_of e');
  ls_buffers : forall id, content <$> en_retained e' !! id = content <$> en_retained e !! id;
  ls_leases : forall lease l, en_leases e !! lease = Some l -> en_leases e' !! lease = Some l;
  ls_next_lease : en_next_lease_id e <= en_next_lease_id e';
  ls_next_buffer : en_next_buffer_id e <= en_next_buffer_id e'
}.

Lemma leased_trans e1 e2 e3 : leased e1 e2 -> leased e2 e3 -> leased e1 e3.
Proof.
  intros [? Hb1 Hl1 ? ?] [? Hb2 Hl2 ? ?]. split; [done | | by auto | lia | lia]. intros id. by rewrite Hb2, Hb1.
Qed.

Lemma unmoved_leased e e' : slab_ok (slab_of e) -> unmoved e e' -> leased e e'.
Proof.
  intros Hs Hu. pose proof (unmoved_slab _ _ Hu Hs) as Hs'. destruct Hu as [E1 E2 E3 _ E4].
  specialize (E4 (proj2 (so_next_buffer _ Hs))). split; [done | intros id; by rewrite E1 | by rewrite E2 | rewrite E3; lia | lia].
Qed.

(** The state a handler of an inbound data frame starts in: its buffer is
    retained under the declared length and a lease id is free. *)
Definition can_lease (id declared : Z) (e : ClientEngine) : Prop :=
  slab_ok (slab_of e) /\
  (exists buf, en_retained e !! id = Some buf /\ rt_declared_len buf = declared /\ rust_slice (rt_bytes buf)) /\
  en_next_lease_id e < u32_max /\ en_frame_options e = default_options.

(** From such a state only leases are added, and nothing is reported released. *)
Definition leasing (id declared : Z) {A} (m : Eng A) : Prop := forall w, can_lease id declared (ew_engine w) ->
  let w' := snd (m w) in
  leased (ew_engine w) (ew_engine w') /\ po_released_buffers (ew_outcome w') = po_released_buffers (ew_outcome w).

Lemma still_leasing id declared {A} (m : Eng A) : still m -> leasing id declared m.
Proof. intros Hm w (Hs & _). destruct (Hm w) as [Hu Hr]. split; [by apply unmoved_leased | done]. Qed.

Lemma can_lease_unmoved id declared e e' : unmoved e e' -> can_lease id declared e -> can_lease id declared e'.
Proof.
  intros Hu (Hs & Hb & Hn). split; [by eapply unmoved_slab |]. by destruct Hu as [-> _ -> -> _].
Qed.

Lemma leasing_after id declared {A B} (m : Eng A) (k : A -> Eng B) :
  still m -> (forall a, leasing id declared (k a)) -> leasing id declared (bind m k).
Proof.
  intros Hm Hk w Hc. pose proof Hc as (Hs & _). destruct (Hm w) as [Hu Hr]. unfold bind.
  destruct (m w) as [[a | e |] w1]; cbn [snd] in *; [| by split; [apply unmoved_leased |] ..].
  destruct (Hk a w1 (can_lease_unmoved _ _ _ _ Hu Hc)) as [Hl Hr']. split; [| congruence].
  eapply leased_trans; [by apply unmoved_leased | exact Hl].
Qed.

Lemma leasing_then id declared {A B} (m : Eng A) (k : A -> Eng B) :
  leasing id declared m -> (forall a, still (k a)) -> leasing id declared (bind m k).
Proof.
  intros Hm Hk w Hc. destruct (Hm w Hc) as [Hl Hr]. unfold bind.
  destruct (m w) as [[a | e |] w1]; cbn [snd] in *; [| done | done].
  destruct (Hk a w1) as [Hu Hr']. split; [| congruence]. eapply leased_trans; [exact Hl |]. apply unmoved_leased; [apply Hl | done].
Qed.

Lemma leasing_fn id declared (m : Eng unit) : leasing id declared m -> leasing id declared (eng_fn m).
Proof. intros Hm w Hc. specialize (Hm w Hc). unfold eng_fn. by destruct (m w) as [[[] | [] |] w']. Qed.

(** An early return leaves the rest out. *)
Lemma leasing_stop id declared {A B C} (m : Eng A) (k : B -> Eng C) :
  still m -> leasing id declared (bind (m ;;~ eng_return) k).
Proof.
  intros Hm w (Hs & _). destruct (Hm w) as [Hu Hr]. unfold bind. by destruct (m w) as [[a | e |] w1]; split; [apply unmoved_leased | | apply unmoved_leased | | apply unmoved_leased |].
Qed.

Lemma leasing_return id declared {A B} (k : A -> Eng B) : leasing id declared (bind eng_return k).
Proof. intros w (Hs & _). split; [apply unmoved_leased; [done | apply unmoved_refl] | done]. Qed.

(** Every operation opcode but the cancellation has its event. *)
Lemma operation_has_event f opid lease :
  is_operation_opcode (df_opcode f) = true -> df_opcode f <> OPCODE_ACTION_CANCEL ->
  exists event, operation_event f opid lease = Some event.
Proof.
  unfold is_operation_opcode, operation_event. cbn [existsb]. rewrite !orb_true_iff. intros Hop Hc.
  repeat (case_match; [by eexists |]). exfalso. apply Z.eqb_neq in Hc. destruct_or!; congruence.
Qed.

Lemma leasing_issue id declared offset len :
  0 <= offset -> 0 <= len -> offset + len <= declared -> leasing id declared (issue_lease id offset len).
Proof.
  intros Ho Hl Hfit [e o] (Hs & (buf & Eb & Hd & _) & Hn & _). subst declared. split; [| done].
  pose proof (slab_issue (slab_of e) id buf offset len Hs Eb Hn Ho Hl Hfit) as Hs'.
  assert (Hsat : u32_saturating_add (en_next_lease_id e) 1 = en_next_lease_id e + 1) by (unfold u32_saturating_add; cbn in Hn; lia).
  assert (Hfresh : en_leases e !! en_next_lease_id e = None).
  { destruct (en_leases e !! en_next_lease_id e) eqn:E; [| done].
    pose proof (so_lease_ids _ Hs (en_next_lease_id e) (mk_is_Some _ _ E)). cbn in *. lia. }
  destruct e. cbn in *. rewrite Hsat. split; cbn; [exact Hs' | | | lia | lia].
  - intros i. destruct (decide (id = i)) as [<- | Hne].
    + rewrite lookup_alter_eq. by destruct (_ !! _).
    + by rewrite lookup_alter_ne.
  - intros lease l El. rewrite lookup_insert_ne; [done |]. congruence.
Qed.

Lemma payload_fits offset len declared :
  payload_out_of_bounds offset len declared = false -> offset + len <= declared.
Proof. unfold payload_out_of_bounds, checked_add. case_match eqn:E; [| done]. case_match; [| done]. simplify_eq. lia. Qed.

Lemma leasing_sample id f declared :
  0 <= df_extension_len f -> 0 <= df_payload_len f -> leasing id declared (handle_sample id f declared).
Proof.
  intros He Hp. unfold handle_sample. apply leasing_fn. destruct (df_payload f); [| by apply still_leasing, still_ret]. cbv zeta.
  destruct (payload_out_of_bounds _ _ _) eqn:E; [apply leasing_stop, still_fail |]. apply payload_fits in E.
  apply leasing_after; [apply still_ret | intros _]. apply leasing_after; [apply still_sample_text | intros text].
  apply leasing_then; [apply leasing_issue; unfold FRAME_HEADER_LENGTH in *; lia | intros lease]. still.
Qed.

Lemma leasing_operation id f declared :
  0 <= df_extension_len f -> 0 <= df_payload_len f -> is_operation_opcode (df_opcode f) = true ->
  leasing id declared (handle_service_action id f declared).
Proof.
  intros He Hp Hop. unfold handle_service_action. apply leasing_fn.
  destruct (df_payload f); [| by apply still_leasing, still_ret]. cbv zeta.
  destruct (payload_out_of_bounds _ _ _) eqn:E; [apply leasing_stop, still_fail |]. apply payload_fits in E.
  apply leasing_after; [apply still_ret | intros _].
  destruct (Z.eqb_spec (df_opcode f) OPCODE_ACTION_CANCEL) as [Ec | Ec]; [apply leasing_return |].
  apply leasing_after; [apply still_ret | intros _].
  assert (Hk : forall opid, leasing id declared (
    lease_id <~ issue_lease id (FRAME_HEADER_LENGTH + df_extension_len f) (df_payload_len f) ;;
    match operation_event f opid lease_id with Some event => emit event | None => release_lease lease_id end)).
  { intros opid. apply leasing_then; [apply leasing_issue; unfold FRAME_HEADER_LENGTH in *; lia | intros lease].
    destruct (operation_has_event f opid lease Hop Ec) as [event ->]. still. }
  destruct (eng_operation_id f) as [opid |]; [apply leasing_after; [apply still_ret | exact Hk] |].
  destruct (_ =? _); [apply leasing_after; [apply still_ret | exact Hk] | apply leasing_stop, still_fail].
Qed.

(** ** Events *)

Lemma leasing_ret id declared {A B} (a : A) (k : A -> Eng B) : leasing id declared (k a) -> leasing id declared (bind (ret a) k).
Proof. intros Hk w Hc. exact (Hk w Hc). Qed.

(** A read of the engine, with what is known of it. *)
Lemma leasing_eng id declared {A B} (f : ClientEngine -> A) (k : A -> Eng B) :
  (forall e, can_lease id declared e -> leasing id declared (k (f e))) -> leasing id declared (bind (eng f) k).
Proof. intros Hk w Hc. exact (Hk _ Hc w Hc). Qed.

Lemma leasing_control_frame id declared f effects build : leasing id declared (handle_control_frame build f effects).
Proof. apply still_leasing. unfold handle_control_frame, eng_plus_one. still. Qed.

Lemma leasing_frame build id declared : leasing id declared (handle_frame build id).
Proof.
  unfold handle_frame. apply leasing_fn, leasing_eng. intros e (_ & (buf & Eb & Hd & Hslice) & _ & _). rewrite Eb.
  apply leasing_eng. intros e' (_ & _ & _ & ->). cbv zeta. rewrite Hd.
  destruct (parse_frame_declared (rt_bytes buf) declared (Some default_options)) as [f | err |] eqn:Ep.
  2: { apply leasing_stop, still_fail. }
  2: { apply still_leasing. intros w'. split; [apply unmoved_refl | done]. }
  destruct (ib_lengths _ _ (inbound_frame _ _ _ Hslice Ep)) as [Hel Hpl]. apply leasing_ret.
  apply leasing_after; [apply still_session | intros [effects | err]]; [| apply leasing_stop, still_fail]. apply leasing_ret.
  case_match; [apply leasing_control_frame |]. case_match; [by apply leasing_sample |].
  case_match; [by apply leasing_operation | apply still_leasing, still_ret].
Qed.

End Leasing.

(** ** Events and polls *)

Definition ingested (e : ClientEngine) : Prop := map_Forall (fun _ buf => rt_ingest_done buf = true) (en_retained e).

(** What is left of the buffers and leases of [e] once the leases [rel] are released. *)
Record follows (rel : list Z) (e e' : ClientEngine) : Prop := {
  fo_slab : slab_ok (slab_of e');
  fo_leases : forall lease l, en_leases e !! lease = Some l -> lease ∉ rel -> en_leases e' !! lease = Some l;
  fo_bytes : forall id buf, en_retained e !! id = Some buf -> exists buf', en_retained e' !! id = Some buf' /\
    rt_bytes buf' = rt_bytes buf;
  fo_ingested : ingested e -> ingested e'
}.

Definition event_released (event : HostEvent.t) : list Z :=
  match event with HostEvent.ReleaseLease lease => [lease] | _ => [] end.

(** The host's side: an inbound buffer has a fresh identifier (or 0, and the
    engine picks one), and the 32-bit identifiers have not run out. *)
Definition event_fits (event : HostEvent.t) (e : ClientEngine) : Prop :=
  match event with
  | HostEvent.WsBytes id _ =>
      en_next_lease_id e < u32_max /\
      (if id =? 0 then en_next_buffer_id e < u32_max else 1 <= id <= u32_max /\ en_retained e !! id = None)
  | _ => True
  end.

Lemma bind_ok {S E A B} (m : SM S E A) (k : A -> SM S E B) s b s' :
  bind m k s = (Ok b, s') -> exists a s1, m s = (Ok a, s1) /\ k a s1 = (Ok b, s').
Proof. unfold bind. destruct (m s) as [[a | e |] s1]; intros E1; [by exists a, s1 | done | done]. Qed.

Lemma follows_trans rel1 rel2 e1 e2 e3 : follows rel1 e1 e2 -> follows rel2 e2 e3 -> follows (rel1 ++ rel2) e1 e3.
Proof.
  intros [? Hl1 Hb1 Hi1] [? Hl2 Hb2 Hi2]. split; [done | | | auto].
  - intros lease l El Hn. rewrite not_elem_of_app in Hn. destruct Hn. auto.
  - intros id buf Eb. destruct (Hb1 id buf Eb) as (buf1 & E1 & <-). destruct (Hb2 id buf1 E1) as (buf2 & E2 & <-). by exists buf2.
Qed.

Lemma content_done buf buf' : content buf = content buf' -> rt_ingest_done buf = rt_ingest_done buf'.
Proof. unfold content. congruence. Qed.

Lemma leased_follows e e' : leased e e' -> follows [] e e'.
Proof.
  intros [Hs Hb Hl _ _]. split; [done | by intros lease l El _; apply Hl | |].
  - intros id buf Eb. specialize (Hb id). rewrite Eb in Hb. apply fmap_Some in Hb as (buf' & Eb' & Hc).
    exists buf'. split; [done |]. unfold content in Hc. congruence.
  - intros Hi id buf Eb. specialize (Hb id). rewrite Eb in Hb. symmetry in Hb. apply fmap_Some in Hb as (buf' & Eb' & Hc).
    rewrite (content_done _ _ Hc). by apply (Hi id buf').
Qed.

Section Events.
Context `{Target}.
Variable build : EngineBuild.

(** The bytes under their identifier. *)
Definition with_buffer (id : Z) (b : bytes) (n next : Z) (w : EngineWorld) : EngineWorld :=
  mk_ew (set_next_buffer_id next (set_retained (<[id := mk_retained b n 0 false]> (en_retained (ew_engine w))) (ew_engine w)))
    (ew_outcome w).

Lemma retain_spec id b w :
  slab_ok (slab_of (ew_engine w)) -> rust_slice b -> event_fits (HostEvent.WsBytes id b) (ew_engine w) ->
  exists id' n next, retain_buffer id b w = (Ok id', with_buffer id' b n next w) /\
    en_retained (ew_engine w) !! id' = None /\ 1 <= id' /\ en_next_buffer_id (ew_engine w) <= next <= u32_max /\
    (id' < next \/ next = u32_max) /\ retain_declared_len (E := unit) b = Ok n.
Proof.
  intros Hs Hb [_ Hid]. pose proof (so_next_buffer _ Hs) as Hn. pose proof (so_buffer_ids _ Hs) as Hids. cbn in Hn, Hids.
  destruct (retained_len b Hb) as (n & El). unfold retain_buffer, alloc_buffer, new_retained. rewrite El.
  destruct w as [e o]. cbn [ew_engine ew_outcome] in *. destruct (Z.eqb_spec id 0) as [-> | Hz].
  - exists (en_next_buffer_id e), n, (en_next_buffer_id e + 1).
    assert (Hsat : u32_saturating_add (en_next_buffer_id e) 1 = en_next_buffer_id e + 1) by (unfold u32_saturating_add; lia).
    split; [unfold with_buffer; cbn; rewrite Hsat; by destruct e |]. split_and!; try done; try lia.
    destruct (en_retained e !! en_next_buffer_id e) eqn:E; [| done]. destruct (Hids _ (mk_is_Some _ _ E)) as [_ ?]. lia.
  - destruct Hid as [Hid Hfree]. exists id, n, (Z.max (en_next_buffer_id e) (u32_saturating_add id 1)).
    split; [unfold with_buffer; cbn; by destruct e |]. unfold u32_saturating_add. split_and!; try done; lia.
Qed.

Lemma ingest_follows e1 e2 e3 id buf :
  en_retained e2 = <[id := buf]> (en_retained e1) -> en_leases e2 = en_leases e1 -> en_retained e1 !! id = None ->
  leased e2 e3 -> follows [] e1 (set_retained (alter mark_ingest_done id (en_retained e3)) e3).
Proof.
  intros Er El Hfree [Hs Hb Hl _ _].
  assert (Hret : en_retained (set_retained (alter mark_ingest_done id (en_retained e3)) e3) = alter mark_ingest_done id (en_retained e3))
    by by destruct e3.
  assert (Hother : forall i, i <> id -> content <$> en_retained e3 !! i = content <$> en_retained e1 !! i).
  { intros i Hi. by rewrite Hb, Er, lookup_insert_ne. }
  split.
  - pose proof (slab_alter (slab_of e3) id mark_ingest_done) as Ha. destruct e3. apply Ha; [done | exact Hs].
  - intros lease l E _. destruct e3. cbn in *. apply Hl. by rewrite El.
  - intros i b Eb. assert (Hne : i <> id) by congruence. specialize (Hother i Hne). rewrite Eb in Hother.
    apply fmap_Some in Hother as (b' & Eb' & Hc). exists b'. rewrite Hret, lookup_alter_ne by done. split; [done |].
    unfold content in Hc. congruence.
  - intros Hi i b. rewrite Hret. intros Eb. apply lookup_alter_Some in Eb as [(-> & x & _ & ->) | [Hne Eb]]; [done |].
    specialize (Hother i ltac:(done)). rewrite Eb in Hother. symmetry in Hother. apply fmap_Some in Hother as (b' & Eb' & Hc).
    rewrite (content_done _ _ Hc). by apply (Hi i b').
Qed.

(** Ingesting a buffer. *)
Lemma ws_bytes_follows id b w w' :
  engine_ok (ew_engine w) -> slab_ok (slab_of (ew_engine w)) -> rust_slice b ->
  event_fits (HostEvent.WsBytes id b) (ew_engine w) -> handle_ws_bytes build id b w = (Ok tt, w') ->
  follows [] (ew_engine w) (ew_engine w') /\ po_released_buffers (ew_outcome w') = po_released_buffers (ew_outcome w).
Proof.
  intros He Hs Hb Hfits Hrun. unfold handle_ws_bytes in Hrun.
  apply bind_ok in Hrun as ([] & w1 & E1 & Hrun). unfold count, on_eng, modify in E1. injection E1 as <-.
  set (w1 := mk_ew _ _) in Hrun. assert (Hu : unmoved (ew_engine w) (ew_engine w1)).
  { destruct w as [[] ?]. subst w1. split; cbn; (done || lia). }
  pose proof (unmoved_slab _ _ Hu Hs) as Hs1.
  assert (Hfits1 : event_fits (HostEvent.WsBytes id b) (ew_engine w1)) by (destruct w as [[] ?]; exact Hfits).
  assert (Ho1 : ew_outcome w1 = ew_outcome w) by done. clearbody w1.
  destruct (retain_spec id b w1 Hs1 Hb Hfits1) as (id' & n & next & Eret & Hfree & Hid & Hnext & Hlt & _).
  apply bind_ok in Hrun as (id2 & w2 & E2 & Hrun). rewrite Eret in E2. injection E2 as <- <-.
  set (w2 := with_buffer id' b n next w1) in Hrun.
  apply bind_ok in Hrun as (phase & w2' & E2 & Hrun). injection E2 as <- <-.
  apply bind_ok in Hrun as ([] & w3 & E3 & Hrun). unfold on_eng, modify in Hrun. injection Hrun as <-.
  assert (Hs2 : slab_ok (slab_of (ew_engine w2))).
  { pose proof (slab_retain (slab_of (ew_engine w1)) id' b n next Hs1 Hfree Hid Hnext Hlt) as Hr.
    subst w2. unfold with_buffer. destruct (ew_engine w1). exact Hr. }
  assert (Hc : can_lease id' n (ew_engine w2)).
  { split; [done |]. split_and!.
    - exists (mk_retained b n 0 false). split; [| by split].
      assert (Hret : en_retained (ew_engine w2) = <[id' := mk_retained b n 0 false]> (en_retained (ew_engine w1)))
        by (subst w2; unfold with_buffer; cbn; by destruct (ew_engine w1)). rewrite Hret. apply lookup_insert_eq.
    - destruct Hfits1 as [Hlease _]. revert Hlease. subst w2. unfold with_buffer. cbn. by destruct (ew_engine w1).
    - pose proof (eo_options _ He) as Ho. destruct Hu as [_ _ _ Hopt _]. rewrite <- Hopt in Ho. revert Ho. subst w2. unfold with_buffer. cbn.
      by destruct (ew_engine w1). }
  assert (Hleased : leased (ew_engine w2) (ew_engine w3) /\ po_released_buffers (ew_outcome w3) = po_released_buffers (ew_outcome w2)).
  { destruct (negb _).
    - pose proof (still_leasing id' n _ (still_bootstrap id') w2 Hc) as Hl. by rewrite E3 in Hl.
    - pose proof (leasing_frame build id' n w2 Hc) as Hl. by rewrite E3 in Hl. }
  destruct Hleased as [Hl Hrel]. split.
  - rewrite <- (app_nil_r []). eapply follows_trans; [by apply leased_follows, unmoved_leased, Hu |].
    apply (ingest_follows _ (ew_engine w2) _ _ (mk_retained b n 0 false)); [| | done | done];
      subst w2; unfold with_buffer; cbn; by destruct (ew_engine w1).
  - cbn. rewrite Hrel. subst w2. cbn. by rewrite Ho1.
Qed.

Definition released_engine (lease : Z) (l : Lease) (e : ClientEngine) : ClientEngine :=
  let e1 := set_leases (delete lease (en_leases e)) e in
  let e2 := set_retained (alter (with_lease_refs (fun n => Z.max 0 (n - 1))) (le_buffer_id l) (en_retained e1)) e1 in
  set_telemetry (count_lease_released (en_telemetry e2)) e2.

Lemma release_spec lease e o :
  release_lease lease (mk_ew e o) =
  (Ok tt, mk_ew (match en_leases e !! lease with Some l => released_engine lease l e | None => e end) o).
Proof. unfold release_lease, eng, bind, gets. cbn [ew_engine ew_outcome]. by destruct (en_leases e !! lease). Qed.

Lemma release_follows lease w :
  slab_ok (slab_of (ew_engine w)) ->
  let w' := snd (release_lease lease w) in
  follows [lease] (ew_engine w) (ew_engine w') /\ po_released_buffers (ew_outcome w') = po_released_buffers (ew_outcome w).
Proof.
  intros Hs. destruct w as [e o]. rewrite release_spec. cbn [ew_engine ew_outcome snd] in *. split; [| done].
  destruct (en_leases e !! lease) as [l |] eqn:El.
  2: { split; [done | done | naive_solver | done]. }
  unfold released_engine.
  pose proof (slab_release (slab_of e) lease l Hs El) as Hs'. destruct e. cbn -[alter delete with_lease_refs] in *.
  split; cbn -[alter delete with_lease_refs].
  - exact Hs'.
  - intros lease' l' E Hn. rewrite lookup_delete_ne; [done | set_solver].
  - intros id buf Eb. destruct (decide (le_buffer_id l = id)) as [<- | Hne].
    + exists (with_lease_refs (fun n => Z.max 0 (n - 1)) buf). by rewrite lookup_alter_eq, Eb.
    + exists buf. by rewrite lookup_alter_ne.
  - intros Hi id buf Eb. cbn -[alter] in Eb. apply lookup_alter_Some in Eb as [(<- & x & Ex & ->) | [_ Ex]]; [exact (Hi _ x Ex) | exact (Hi _ buf Ex)].
Qed.

Lemma ws_bytes_returns id b : rust_slice b -> returns (handle_ws_bytes build id b).
Proof.
  intros Hb. unfold handle_ws_bytes. apply returns_bind; [done | intros _]. apply returns_bind.
  - unfold retain_buffer, alloc_buffer, new_retained. destruct (retained_len b Hb) as (n & ->). by destruct (_ =? _).
  - intros id'. apply returns_bind; [done | intros phase]. apply returns_bind; [| done].
    destruct (negb _); apply returns_fn.
Qed.

Lemma event_follows event w w' :
  engine_ok (ew_engine w) -> slab_ok (slab_of (ew_engine w)) -> event_ok event -> event_fits event (ew_engine w) ->
  handle_event build event w = (Ok tt, w') ->
  follows (event_released event) (ew_engine w) (ew_engine w') /\
  po_released_buffers (ew_outcome w') = po_released_buffers (ew_outcome w).
Proof.
  intros He Hs Hok Hfits Hrun.
  assert (Hstill : forall m, still m -> eng_fn m w = (Ok tt, w') ->
    follows [] (ew_engine w) (ew_engine w') /\ po_released_buffers (ew_outcome w') = po_released_buffers (ew_outcome w)).
  { intros m Hm E. destruct (still_fn m Hm w) as [Hu Hr]. rewrite E in Hu, Hr. split; [| done].
    by apply leased_follows, unmoved_leased. }
  unfold handle_event in Hrun. destruct event as [id b | now | cmd | lease].
  - apply ws_bytes_follows with id b; try done. pose proof (ws_bytes_returns id b Hok w) as Hr. unfold eng_fn in Hrun.
    destruct (handle_ws_bytes build id b w) as [[[] | |] w1]; [done | done | done].
  - by apply (Hstill _ (still_timer now)).
  - by apply (Hstill _ (still_command cmd)).
  - pose proof (release_follows lease w Hs) as Hf. unfold eng_fn in Hrun.
    destruct (release_lease lease w) as [[[] | [] |] w1]; [by injection Hrun as <- | by injection Hrun as <- | done].
Qed.

(** Every event of a batch fits the state it is handled in. *)
Fixpoint orderly (events : list HostEvent.t) (w : EngineWorld) : Prop :=
  match events with
  | [] => True
  | event :: events' =>
      event_fits event (ew_engine w) /\
      (let w' := snd (handle_event build event w) in en_closed (ew_engine w') = false -> orderly events' w')
  end.

Lemma events_follow s0 n0 events w w' :
  turn_ok build s0 n0 (blen events) (blen events) w -> slab_ok (slab_of (ew_engine w)) -> Forall event_ok events ->
  orderly events w -> handle_events build events w = (Ok tt, w') ->
  exists rel, rel ⊆ concat (map event_released events) /\ follows rel (ew_engine w) (ew_engine w') /\
    po_released_buffers (ew_outcome w') = po_released_buffers (ew_outcome w).
Proof.
  intros Hw Hs Hok. revert w Hw Hs. induction Hok as [| event events Hev Hok IH]; intros w Hw Hs Hord Hrun.
  - injection Hrun as <-. exists []. split; [set_solver |]. split; [| done]. apply leased_follows, unmoved_leased; [done | apply unmoved_refl].
  - destruct Hord as [Hfits Hord]. cbn [handle_events] in Hrun. apply bind_ok in Hrun as ([] & w1 & E1 & Hrun).
    destruct (event_follows event w w1 (to_engine _ _ _ _ _ _ Hw) Hs Hev Hfits E1) as [Hf Hr].
    apply bind_ok in Hrun as (closed & w1' & E & Hrun). injection E as <- <-.
    destruct (en_closed (ew_engine w1)) eqn:Ec.
    + injection Hrun as <-. exists (event_released event). split; [set_solver | done].
    + rewrite blen_cons in Hw. pose proof (blen_nonneg events).
      assert (Hw1 : turn_ok build s0 n0 (blen events) (blen events) w1).
      { pose proof (handles_event build s0 n0 event Hev (blen events) (blen events) ltac:(lia) ltac:(lia) w) as Hh.
        rewrite (Z.add_comm (blen events) 1) in Hh. specialize (Hh Hw). unfold wp in Hh. rewrite E1 in Hh. apply Hh. }
      rewrite E1 in Hord. cbn [snd] in Hord.
      destruct (IH w1 Hw1 (fo_slab _ _ _ Hf) (Hord Ec) Hrun) as (rel & Hsub & Hf2 & Hr2).
      exists (event_released event ++ rel). split; [set_solver |]. split; [by eapply follows_trans | congruence].
Qed.

(** ** Sweeping *)

Definition swept (e : ClientEngine) : list ReleasedBuffer :=
  map (fun p => mk_released p.1 (as_unsigned 32 (blen (rt_bytes p.2))))
    (filter (fun p => idle p.2 = true) (map_to_list (en_retained e))).
Definition after_sweep (e : ClientEngine) : ClientEngine :=
  set_retained (filter (fun p => idle p.2 = false) (en_retained e)) e.

Lemma swept_spec e id n :
  mk_released id n ∈ swept e <->
  exists buf, en_retained e !! id = Some buf /\ idle buf = true /\ n = as_unsigned 32 (blen (rt_bytes buf)).
Proof.
  unfold swept. rewrite list_elem_of_fmap. split.
  - intros ([i buf] & [= -> ->] & Hin). apply list_elem_of_filter in Hin as [Hi Hin].
    apply elem_of_map_to_list in Hin. by exists buf.
  - intros (buf & Eb & Hi & ->). exists (id, buf). split; [done |]. apply list_elem_of_filter. split; [done |].
    by apply elem_of_map_to_list.
Qed.

Lemma swept_once e : NoDup (map rb_buffer_id (swept e)).
Proof.
  unfold swept. rewrite map_map. cbn. change (NoDup ((filter (fun p => idle p.2 = true) (map_to_list (en_retained e))).*1)).
  eapply sublist_NoDup; [apply (NoDup_fst_map_to_list (en_retained e)) |]. apply fmap_sublist, sublist_filter.
Qed.

(** What a poll does to buffers and leases when its events release [rel]. *)
Record accounted (rel : list Z) (e : ClientEngine) (o : PollOutcome) (e' : ClientEngine) : Prop := {
  ac_slab : slab_ok (slab_of e');
  ac_settled : settled (slab_of e');
  ac_leases : forall lease, is_Some (en_leases e !! lease) -> lease ∉ rel ->
    en_leases e' !! lease = en_leases e !! lease /\ lease_payload_view e' lease = lease_payload_view e lease;
  ac_returned : forall id buf, en_retained e !! id = Some buf -> en_retained e' !! id = None ->
    mk_released id (as_unsigned 32 (blen (rt_bytes buf))) ∈ po_released_buffers o;
  ac_once : NoDup (map rb_buffer_id (po_released_buffers o)) /\
    forall r, r ∈ po_released_buffers o -> en_retained e' !! rb_buffer_id r = None
}.

Lemma settled_ingested e : settled (slab_of e) -> ingested e.
Proof. intros Hs id buf Eb. by apply (Hs id buf). Qed.

Lemma sweep_settles e : slab_ok (slab_of e) -> ingested e -> settled (slab_of (after_sweep e)).
Proof.
  intros Hs Hi id buf. unfold after_sweep. assert (Hr : sb_retained (slab_of (set_retained (filter (fun p => idle p.2 = false) (en_retained e)) e)) =
    filter (fun p => idle p.2 = false) (en_retained e)) by by destruct e. rewrite Hr.
  intros Eb. apply map_lookup_filter_Some in Eb as [Eb Hidle]. cbn in Hidle. specialize (Hi id buf Eb). cbv beta in Hi.
  split; [done |]. unfold idle in Hidle. rewrite Hi in Hidle. cbn in Hidle. apply Z.eqb_neq in Hidle.
  pose proof (so_refs _ Hs id buf Eb) as Hrefs. pose proof (refs_nonneg id (sb_leases (slab_of e))). lia.
Qed.

Lemma sweep_accounted rel e1 e2 o e3 :
  slab_ok (slab_of e1) -> settled (slab_of e1) -> follows rel e1 e2 -> po_released_buffers o = swept e2 ->
  slab_of e3 = slab_of (after_sweep e2) -> accounted rel e1 o e3.
Proof.
  intros Hs1 Hset Hf Ho Hslab. destruct Hf as [Hs2 Hl Hb Hi]. specialize (Hi (settled_ingested _ Hset)).
  assert (Hret : en_retained e3 = filter (fun p => idle p.2 = false) (en_retained e2)).
  { apply (f_equal sb_retained) in Hslab. cbn in Hslab. rewrite Hslab. by destruct e2. }
  assert (Hles : en_leases e3 = en_leases e2).
  { apply (f_equal sb_leases) in Hslab. cbn in Hslab. rewrite Hslab. by destruct e2. }
  assert (Hs3 : slab_ok (slab_of e3)).
  { rewrite Hslab. pose proof (slab_sweep (slab_of e2) Hs2) as H2. unfold after_sweep. destruct e2. exact H2. }
  split.
  - done.
  - rewrite Hslab. by apply sweep_settles.
  - intros lease [l El] Hn. pose proof (Hl lease l El Hn) as El2. split; [congruence |].
    unfold lease_payload_view. rewrite Hles, El2, El.
    destruct (so_backed _ Hs1 lease l El) as (buf & Eb & _). cbn in Eb. rewrite Eb.
    destruct (Hb _ _ Eb) as (buf2 & Eb2 & Hbytes).
    assert (Hl3 : sb_leases (slab_of e3) !! lease = Some l) by (cbn; congruence).
    destruct (so_backed _ Hs3 lease l Hl3) as (buf3 & Eb3 & _). cbn in Eb3. rewrite Eb3.
    rewrite Hret in Eb3. apply map_lookup_filter_Some in Eb3 as [Eb3 _]. congruence.
  - intros id buf Eb Hnone. destruct (Hb _ _ Eb) as (buf2 & Eb2 & Hbytes). rewrite Ho. apply swept_spec. exists buf2.
    split; [done |]. split; [| by rewrite Hbytes]. destruct (idle buf2) eqn:E; [done |]. exfalso.
    rewrite Hret in Hnone. apply map_lookup_filter_None in Hnone as [Hnone | Hnone]; [congruence | by apply (Hnone buf2)].
  - rewrite Ho. split; [apply swept_once |]. intros [id n] Hin. apply swept_spec in Hin as (buf & Eb & Hidle & _). cbn.
    rewrite Hret. apply map_lookup_filter_None. right. intros x Ex. cbn. congruence.
Qed.

Lemma closed_accounted rel e o e' :
  slab_ok (slab_of e) -> settled (slab_of e) -> po_released_buffers o = [] -> slab_of e' = slab_of e -> accounted rel e o e'.
Proof.
  intros Hs Hset Ho Hslab.
  assert (Hret : en_retained e' = en_retained e) by (by apply (f_equal sb_retained) in Hslab).
  assert (Hles : en_leases e' = en_leases e) by (by apply (f_equal sb_leases) in Hslab).
  split.
  - by rewrite Hslab.
  - by rewrite Hslab.
  - intros lease _ _. split; [by rewrite Hles |]. unfold lease_payload_view. by rewrite Hles, Hret.
  - intros id buf Eb Hn. congruence.
  - rewrite Ho. split; [constructor | set_solver].
Qed.

Lemma events_return events : returns (handle_events build events).
Proof.
  induction events as [| event events IH]; cbn [handle_events]; [done |].
  apply returns_bind; [apply returns_fn | intros _]. apply returns_bind; [done | intros closed]. by destruct closed.
Qed.

Lemma accounted_mono rel rel' e o e' : rel ⊆ rel' -> accounted rel e o e' -> accounted rel' e o e'.
Proof. intros Hsub []. split; try done. intros lease Hl Hn. apply ac_leases0; [done | set_solver]. Qed.

Lemma released_batch events : concat (map event_released (take MAX_HOST_EVENTS_PER_POLL events)) ⊆ concat (map event_released events).
Proof.
  intros x Hx. rewrite <- (take_drop MAX_HOST_EVENTS_PER_POLL events). rewrite map_app, concat_app. set_solver.
Qed.

(** The end of a turn, after its body. *)
(** A poll accounts for its buffers. *)
Lemma poll_accounted nanos events e o e' :
  engine_ok e -> slab_ok (slab_of e) -> settled (slab_of e) -> Forall event_ok events ->
  (build = Checked -> en_control_seq_in e + 64 <= u64_max) ->
  orderly (take MAX_HOST_EVENTS_PER_POLL events) (mk_ew e default_outcome) ->
  poll build nanos events e = (Ok o, e') -> accounted (concat (map event_released events)) e o e'.
Proof.
  intros He Hs Hset Hok Hin Hord Hpoll. set (batch := take MAX_HOST_EVENTS_PER_POLL events) in *.
  assert (Hbatch : Forall event_ok batch) by by apply Forall_take.
  assert (Hl : blen batch <= 64) by (unfold batch, blen; rewrite length_take; unfold MAX_HOST_EVENTS_PER_POLL; lia).
  unfold poll, run_poll in Hpoll. fold batch in Hpoll. destruct (poll_turn _ _ _) as [[[] | |] w] eqn:Et; [| done | done].
  cbn in Hpoll. injection Hpoll as <- <-. unfold poll_turn in Et.
  apply bind_ok in Et as (closed & w0 & E & Et). injection E as <- <-. cbn [ew_engine] in Et.
  apply bind_ok in Et as ([] & w1 & E1 & Et). unfold count, on_eng, modify in Et. injection Et as <-. cbn [ew_engine ew_outcome].
  destruct (en_closed e) eqn:Ec.
  { unfold eng, emit, on_outcome, bind, gets, modify in E1. injection E1 as <-. cbn [ew_engine ew_outcome].
    apply closed_accounted; [done | done | done |]. by destruct e. }
  apply bind_ok in E1 as ([] & w2 & E2 & E1).
  assert (Hrun : handle_events build batch (mk_ew e default_outcome) = (Ok tt, w2)).
  { pose proof (events_return batch (mk_ew e default_outcome)) as Hr. unfold eng_fn in E2.
    destruct (handle_events build batch (mk_ew e default_outcome)) as [[[] | |] w']; [done | done | done]. }
  assert (Hw : turn_ok build (en_session e) (en_control_seq_out e) (blen batch) (blen batch) (mk_ew e default_outcome)).
  { apply turn_starts; [done | unfold MAX_OUTBOUND_PER_POLL; lia |]. intros Hc. specialize (Hin Hc). lia. }
  destruct (events_follow _ _ batch _ w2 Hw Hs Hbatch Hord Hrun) as (rel & Hsub & Hf & Hr).
  unfold sweep_released in E1. apply bind_ok in E1 as ([] & w3 & E3 & E1). unfold bind, eng, gets, on_outcome, on_eng, modify in E3, E1.
  injection E3 as <-. injection E1 as <-. cbn [ew_engine ew_outcome po_released_buffers] in *.
  eapply (accounted_mono rel); [intros x Hx; apply (released_batch events), Hsub, Hx |].
  apply (sweep_accounted rel e (ew_engine w2)); [done | done | done | by rewrite Hr | by destruct (ew_engine w2)].
Qed.

End Events.
