(* ===== verification/EngineBehaviour.v ===== *)
(** * The client engine: what its operations do

    Publishing a sample, delivering one to the application, the heartbeat timer
    and the refusal of what cannot be accepted, step by step: what is sent, what is
    reported and what changes. *)

From stdpp Require Import gmap.
From S2P Require Import Prelude Utf8 ProtocolError Cbor Extension ControlSchema Control Frame Bootstrap Session SessionProofs.
From S2P Require Import Registry EngineTypes Engine EngineCodecs EngineSpec EngineMessages EngineProofs EngineSlab.
From S2P Require BuilderProofs Builders ConnectionSpec ConnectionProofs.
Import ConnectionSpec(is_sequence, frame_ok, fo_payload, fo_parts, fo_size).
#[local] Open Scope Z_scope.

(** ** A poll of one event *)

Section Polls.
Context `{Target}.
Variable build : EngineBuild.

(** The sweep and the deadline, after the events. *)
Definition finished_outcome (w : EngineWorld) : PollOutcome :=
  let o := ew_outcome w in
  mk_outcome (po_outbound o) (po_events o) (po_released_buffers o ++ swept (ew_engine w)) (en_next_heartbeat_ms (ew_engine w)).
Definition finished_engine (nanos : Z) (w : EngineWorld) : ClientEngine :=
  let e := after_sweep (ew_engine w) in set_telemetry (count_poll (poll_nanos nanos) (en_telemetry e)) e.

Lemma run_poll_finishes nanos body e w :
  en_closed e = false -> body (mk_ew e default_outcome) = (Ok tt, w) ->
  run_poll nanos body e = (Ok (finished_outcome w), finished_engine nanos w).
Proof.
  intros Hc Hb. unfold run_poll, poll_turn, eng, bind at 1, gets. cbn [ew_engine]. rewrite Hc.
  unfold eng_fn, bind at 1, bind at 1. rewrite Hb. destruct w as [[] o]. reflexivity.
Qed.

Lemma handle_events_fold events event w w1 :
  handle_event build event w = (Ok tt, w1) -> en_closed (ew_engine w1) = false ->
  handle_events build (event :: events) w = handle_events build events w1.
Proof. intros Hh Hc. cbn [handle_events]. unfold bind at 1. rewrite Hh. unfold eng, bind, gets. by rewrite Hc. Qed.

Lemma fn_ok m w w1 : m w = (Ok tt, w1) -> eng_fn m w = (Ok tt, w1).
Proof. unfold eng_fn. by intros ->. Qed.

Lemma handle_one event w w1 :
  handle_event build event w = (Ok tt, w1) -> handle_events build [event] w = (Ok tt, w1).
Proof. intros Hh. cbn [handle_events]. unfold bind at 1. rewrite Hh. unfold eng, bind, gets. by destruct (en_closed _). Qed.

Lemma poll_one nanos event e w :
  en_closed e = false -> handle_event build event (mk_ew e default_outcome) = (Ok tt, w) ->
  poll build nanos [event] e = (Ok (finished_outcome w), finished_engine nanos w).
Proof. intros Hc Hh. unfold poll. apply run_poll_finishes; [done |]. by apply handle_one. Qed.

End Polls.

(** ** Recording a frame *)

Section Record.
Context `{Target}.

Lemma record_accepted b f s' eff w :
  parse_frame b (Some default_options) = Ok f -> engine_ok (ew_engine w) ->
  frame_accepts (en_session (ew_engine w)) Client f s' eff ->
  record_outbound_frame b w = (Ok Sendable, mk_ew (set_session s' (ew_engine w)) (ew_outcome w)).
Proof.
  intros Hp He Hacc. unfold record_outbound_frame, eng, bind at 1, gets. rewrite (eo_options _ He), Hp.
  unfold bind, try_, ret, eng_session, record_send_frame, gets. cbn [bind]. unfold bind. rewrite (eo_role _ He).
  change (apply_frame f Client) with (apply_event (EvFrame f) Client).
  by rewrite (event_complete (EvFrame f) _ _ _ _ Hacc).
Qed.

Lemma push_room b w :
  blen (po_outbound (ew_outcome w)) < MAX_OUTBOUND_PER_POLL ->
  push_outbound b w =
    (Ok tt, mk_ew (set_next_buffer_id (u32_saturating_add (en_next_buffer_id (ew_engine w)) 1) (ew_engine w))
       (mk_outcome (po_outbound (ew_outcome w) ++ [mk_outbound (en_next_buffer_id (ew_engine w)) b])
          (po_events (ew_outcome w)) (po_released_buffers (ew_outcome w)) (po_next_deadline_ms (ew_outcome w)))).
Proof.
  intros Hl. unfold push_outbound, bind at 1, gets. destruct (Z.leb_spec MAX_OUTBOUND_PER_POLL (blen (po_outbound (ew_outcome w)))); [lia |].
  reflexivity.
Qed.

(** *** Publishing *)

Definition publish_frame (id : Z) (p : ActivePublish) (payload : bytes) : bytes :=
  header_bytes (wire_header (publish_header id p) (blen payload) 0) ++ payload.
(** What its receiver reads. *)
Definition published (id : Z) (p : ActivePublish) (payload : bytes) : DecodedFrame :=
  frame_of (wire_header (publish_header id p) (blen payload) 0) ([], Application payload).

Lemma publish_encodes id p payload :
  blen payload <= FRAME_PAYLOAD_MAX_BYTES -> encode_frame (publish_header id p) [] payload = Ok (publish_frame id p payload).
Proof.
  intros Hl. pose proof (encode_frame_spec (publish_header id p) [] payload) as Hs. unfold FRAME_PAYLOAD_MAX_BYTES in Hl.
  destruct (encode_frame _ _ _) as [b | |]; [by destruct Hs as (-> & _) | | done].
  destruct Hs. split_and!; try done; by vm_compute.
Qed.

Lemma publish_parses id p payload :
  1 <= id <= u32_max -> is_sequence (ap_seq_out p) -> bytes_ok payload -> blen payload <= FRAME_PAYLOAD_MAX_BYTES ->
  parse_frame (publish_frame id p payload) (Some default_options) = Ok (published id p payload).
Proof.
  intros Hid Hs Hb Hl.
  apply (encoded_frame_parses default_options (publish_header id p) [] payload _ [] (Application payload)); try done.
  - apply publish_header_typed; [unfold is_u32; lia | done].
  - constructor.
  - by apply publish_encodes.
  - unfold check_header, publish_header, wire_header. cbn. destruct (ap_reliable p); cbn; by (destruct (Z.eqb_spec id 0); [lia |]).
  - cbn. by destruct (ap_reliable p).
Qed.

Lemma publish_slice id p payload :
  1 <= id <= u32_max -> is_sequence (ap_seq_out p) -> bytes_ok payload -> blen payload <= FRAME_PAYLOAD_MAX_BYTES ->
  rust_slice (publish_frame id p payload).
Proof.
  intros Hid Hs Hb Hl. pose proof (sent_frame (publish_header id p) [] payload) as Hf. rewrite publish_encodes in Hf by done.
  apply Hf; [apply publish_header_typed; [unfold is_u32; lia | done] | constructor | done].
Qed.

(** A publish channel the session has active. *)
Record publishing (id : Z) (p : ActivePublish) (e : ClientEngine) : Prop := {
  pb_id : 1 <= id <= u32_max;
  pb_ready : ss_phase (en_session e) = Ready;
  pb_entry : exists entry, ss_channels (en_session e) !! id = Some entry /\ ce_state entry = Active /\
    ce_operation_kind entry = TopicPublish;
  pb_publish : en_active_publishes e !! id = Some p
}.

Definition advanced (p : ActivePublish) : ActivePublish :=
  mk_publish (ap_topic p) (ap_type_name p) (ap_reliable p) (u64_saturating_add (ap_seq_out p) 1).

(** The engine once the sample is queued. *)
Definition sample_queued (id : Z) (p : ActivePublish) (e : ClientEngine) : ClientEngine :=
  let e1 := set_active_publishes (<[id := advanced p]> (en_active_publishes e)) e in
  let e2 := set_next_buffer_id (u32_saturating_add (en_next_buffer_id e1) 1) e1 in
  set_telemetry (count_sample_sent (en_telemetry e2)) e2.

Lemma sample_payload_sends id p payload e o :
  engine_ok e -> publishing id p e -> bytes_ok payload -> blen payload <= FRAME_PAYLOAD_MAX_BYTES ->
  blen (po_outbound o) < MAX_OUTBOUND_PER_POLL ->
  send_sample_payload id payload (mk_ew e o) =
    (Ok tt, mk_ew (sample_queued id p e)
       (mk_outcome (po_outbound o ++ [mk_outbound (en_next_buffer_id e) (publish_frame id p payload)]) (po_events o)
          (po_released_buffers o) (po_next_deadline_ms o))).
Proof.
  intros He [Hid Hr (entry & Ee & Hst & Hk) Hp] Hb Hl Hroom. unfold send_sample_payload, eng, bind at 1, gets.
  cbn [ew_engine]. rewrite Hp, publish_encodes by done. unfold bind at 1, try_, ret.
  assert (Hacc : frame_accepts (en_session e) Client (published id p payload) (en_session e) no_effects).
  { apply (acc_sample _ Client _ entry); try done. by rewrite Hk. }
  unfold bind at 1. rewrite (record_accepted _ (published id p payload) (en_session e) no_effects); [| | done | done].
  2: { apply publish_parses; try done. apply (eo_publishes _ He id p Hp). }
  cbn [ew_engine ew_outcome]. rewrite same_session. unfold on_eng at 1, bind at 1, modify. unfold bind at 1. cbn [ew_engine ew_outcome].
  rewrite push_room by done. destruct e. reflexivity.
Qed.

End Record.

(** ** Delivering a sample *)

Section Deliver.
Context `{Target}.
Variable build : EngineBuild.

(** A complete frame is retained under its own length. *)
Lemma complete_frame_len b f :
  rust_slice b -> parse_frame b (Some default_options) = Ok f -> retain_declared_len (E := unit) b = Ok (blen b).
Proof.
  intros Hb Hp. unfold parse_frame in Hp. destruct (parse_frame_spec default_options b (blen b) Hb) as [Hc _]. rewrite Hp in Hc.
  pose proof (Hc 1 ltac:(lia)) as Hlen. pose proof (Hc 4 ltac:(lia)) as Hsize. cbn [step_ok] in Hlen, Hsize.
  pose proof (proj2 Hb) as Hmax. pose proof isize_le_usize. pose proof isize_max_ge. unfold retain_declared_len, frame_declared_total, FRAME_HEADER_LENGTH.
  pose proof (header_of_typed b (proj1 Hb) Hlen) as [_ _ _ _ _ _ [Hpl _] [Hel _] _ _].
  destruct (Z.ltb_spec (blen b) 32); [lia |]. rewrite !slice_ok by lia. cbn [obind]. change (28 - 24) with 4. change (30 - 28) with 2.
  change (of_be (sub_list b 24 4)) with (h_payload_len (header_of b)).
  change (of_be (sub_list b 28 2)) with (h_extension_len (header_of b)).
  rewrite !checked_add_some by lia. destruct (Z.eqb_spec (blen b) (32 + h_extension_len (header_of b) + h_payload_len (header_of b))); [f_equal; lia |].
  lia.
Qed.

(** The text handed over with an inline string sample (none on wasm32). *)
Definition string_type (type_name : bytes) : bool :=
  text_is type_name STD_MSGS_STRING || text_is type_name (lit "std_msgs/String") || (blen type_name =? 0).
Definition delivered_text (e : ClientEngine) (f : DecodedFrame) (payload : bytes) : option bytes :=
  match the_target with
  | Wasm32 => None
  | Native64 =>
      if string_type (or_default (option_map pd_type_name (en_active_subscribes e !! df_channel_id f)) [])
      then match decode_std_msgs_string payload with Ok t => Some t | _ => None end
      else None
  end.

Lemma sample_text_delivers f payload w :
  bytes_ok payload -> blen payload = df_payload_len f ->
  sample_text f payload (df_payload_len f) w = (Ok (delivered_text (ew_engine w) f payload), w).
Proof.
  intros Hb Hl. unfold sample_text, delivered_text. destruct the_target; [done |]. rewrite Hl, Z.eqb_refl.
  unfold eng, bind, gets. fold (string_type (or_default (option_map pd_type_name (en_active_subscribes (ew_engine w) !! df_channel_id f)) [])).
  destruct (string_type _); [| done]. pose proof (decode_string_total payload Hb) as Ht. by destruct (decode_std_msgs_string payload).
Qed.

(** The engine with the payload of [f], retained under [id], leased out. *)
Definition sample_leased (id : Z) (f : DecodedFrame) (e : ClientEngine) : ClientEngine :=
  let lease := mk_lease id (32 + df_extension_len f) (df_payload_len f) in
  let e1 := set_next_lease_id (u32_saturating_add (en_next_lease_id e) 1) e in
  let e2 := set_retained (alter (with_lease_refs (fun n => u32_saturating_add n 1)) id (en_retained e1)) e1 in
  let e3 := set_leases (<[en_next_lease_id e := lease]> (en_leases e2)) e2 in
  set_telemetry (count_sample_emitted (en_telemetry e3)) e3.
Definition sample_event (e : ClientEngine) (f : DecodedFrame) (payload : bytes) : AppEvent.t :=
  AppEvent.Sample (df_channel_id f) (en_next_lease_id e) (df_sequence f) (df_source_time_ns f) (delivered_text e f payload).

Lemma handle_sample_delivers id b f payload e o :
  frame_ok b f -> rust_slice b -> df_payload f = Application payload ->
  handle_sample id f (blen b) (mk_ew e o) =
    (Ok tt, mk_ew (sample_leased id f e)
       (mk_outcome (po_outbound o) (po_events o ++ [sample_event e f payload]) (po_released_buffers o) (po_next_deadline_ms o))).
Proof.
  intros Hf Hb Hp. pose proof (fo_payload b f Hf) as Hpay. rewrite Hp in Hpay. destruct Hpay as [_ Hpay].
  pose proof (fo_parts b f Hf) as [Hel Hpl]. pose proof (fo_size b f Hf) as Hsize. pose proof (proj2 Hb) as Hmax. pose proof isize_le_usize. pose proof isize_max_ge.
  assert (Hlen : blen payload = df_payload_len f) by (rewrite Hpay; apply blen_sub_list; lia).
  unfold handle_sample, eng_fn. rewrite Hp. unfold payload_out_of_bounds, FRAME_HEADER_LENGTH. rewrite checked_add_some by lia.
  destruct (Z.ltb_spec (blen b) (32 + df_extension_len f + df_payload_len f)); [lia |]. cbv zeta. unfold bind at 1. cbn [ret].
  unfold bind at 1. rewrite sample_text_delivers; [| rewrite Hpay; apply bytes_ok_sub_list, Hb | done]. cbn [ew_engine ew_outcome].
  by destruct e.
Qed.

Lemma parse_declared_complete b : parse_frame_declared b (blen b) (Some default_options) = parse_frame b (Some default_options).
Proof. done. Qed.

(** An active topic the engine subscribes to. *)
Record subscribing (id : Z) (e : ClientEngine) : Prop := {
  sb_ready : ss_phase (en_session e) = Ready;
  sb_entry : exists entry, ss_channels (en_session e) !! id = Some entry /\ ce_state entry = Active /\
    ce_operation_kind entry = TopicSubscribe
}.

Lemma handle_frame_delivers id b f payload e o buf :
  engine_ok e -> rust_slice b -> parse_frame b (Some default_options) = Ok f -> df_opcode f = OPCODE_ROS_SAMPLE ->
  df_payload f = Application payload -> subscribing (df_channel_id f) e ->
  en_retained e !! id = Some buf -> rt_bytes buf = b -> rt_declared_len buf = blen b ->
  handle_frame build id (mk_ew e o) =
    (Ok tt, mk_ew (sample_leased id f e)
       (mk_outcome (po_outbound o) (po_events o ++ [sample_event e f payload]) (po_released_buffers o) (po_next_deadline_ms o))).
Proof.
  intros He Hb Hp Hop Hpay [Hr (entry & Ee & Hst & Hk)] Hbuf Eb El.
  unfold handle_frame, eng_fn, eng, bind at 1, gets. cbn [ew_engine]. rewrite Hbuf. unfold bind at 1. cbn [ew_engine].
  rewrite (eo_options _ He), Eb, El, parse_declared_complete, Hp. unfold bind at 1, ret. unfold bind at 1, eng_session.
  cbn [ew_engine ew_outcome].
  assert (Hacc : frame_accepts (en_session e) Server f (en_session e) no_effects).
  { apply (acc_sample _ Server _ entry); try done. by rewrite Hk. }
  unfold ingest_frame, bind at 1, gets. rewrite (eo_role _ He). change (peer Client) with Server.
  change (apply_frame f Server) with (apply_event (EvFrame f) Server).
  rewrite (event_complete (EvFrame f) _ _ _ _ Hacc). unfold bind at 1. rewrite Hop. change (OPCODE_ROS_SAMPLE =? OPCODE_CONTROL_CBOR) with false.
  rewrite Z.eqb_refl, same_session. cbn iota. cbn [ew_engine ew_outcome].
  rewrite (handle_sample_delivers id b f payload e o); [done | by apply (ConnectionSpec.parsed_frame b default_options) | done | done].
Qed.

(** The engine with a complete frame retained under [id], before it is handled. *)
Definition received (id next : Z) (b : bytes) (e : ClientEngine) : ClientEngine :=
  let e1 := set_telemetry (count_ingest (blen b) (en_telemetry e)) e in
  set_next_buffer_id next (set_retained (<[id := mk_retained b (blen b) 0 false]> (en_retained e1)) e1).
Definition delivered (id next : Z) (b : bytes) (f : DecodedFrame) (e : ClientEngine) : ClientEngine :=
  let e1 := sample_leased id f (received id next b e) in
  set_retained (alter mark_ingest_done id (en_retained e1)) e1.

Lemma received_ok id next b e : engine_ok e -> rust_slice b -> engine_ok (received id next b e).
Proof.
  intros He Hb. apply buffer_id_ok. apply (tweak_insert_retained id (mk_retained b (blen b) 0 false) Hb).
  by apply (tweak_telemetry (count_ingest (blen b))).
Qed.

Lemma ws_bytes_delivers id b f payload e o :
  engine_ok e -> slab_ok (slab_of e) -> event_fits (HostEvent.WsBytes id b) e -> rust_slice b ->
  parse_frame b (Some default_options) = Ok f -> df_opcode f = OPCODE_ROS_SAMPLE ->
  df_payload f = Application payload -> subscribing (df_channel_id f) e ->
  exists id' next, en_retained e !! id' = None /\
    handle_ws_bytes build id b (mk_ew e o) =
      (Ok tt, mk_ew (delivered id' next b f e)
         (mk_outcome (po_outbound o) (po_events o ++ [sample_event e f payload]) (po_released_buffers o) (po_next_deadline_ms o))).
Proof.
  intros He Hs Hfits Hb Hp Hop Hpay Hsub. set (e1 := set_telemetry (count_ingest (blen b) (en_telemetry e)) e).
  destruct (retain_spec id b (mk_ew e1 o)) as (id' & n & next & Er & Hfree & _ & _ & _ & En); [by destruct e | done | by destruct e |].
  rewrite (complete_frame_len b f) in En by done. injection En as <-.
  exists id', next. split; [by destruct e |]. unfold handle_ws_bytes, count, on_eng at 1, bind at 1, modify. cbn [ew_engine ew_outcome].
  fold e1. unfold bind at 1. rewrite Er. unfold with_buffer. cbn [ew_engine ew_outcome].
  unfold bind at 1, eng, gets. cbn [ew_engine]. unfold bind at 1.
  change (set_next_buffer_id next _) with (received id' next b e).
  assert (Hph : engine_phase (received id' next b e) = Ready) by (destruct Hsub as [Hr _]; by destruct e). rewrite Hph. cbn [negb in_selected_plane].
  rewrite (handle_frame_delivers id' b f payload (received id' next b e) o (mk_retained b (blen b) 0 false)); try done.
  - by destruct e.
  - by apply received_ok.
  - destruct Hsub as [Hr Hc]. by destruct e.
  - unfold received. destruct e. cbn. apply lookup_insert_eq.
Qed.

(** Nothing is returned to the host while every buffer is leased. *)
Lemma swept_nothing e : (forall id buf, en_retained e !! id = Some buf -> idle buf = false) -> swept e = [] /\ after_sweep e = e.
Proof.
  intros Hi. assert (Hs : swept e = []).
  { destruct (swept e) as [| [id n] l] eqn:E; [done |]. assert (Hin : mk_released id n ∈ swept e) by (rewrite E; constructor).
    apply swept_spec in Hin as (buf & Eb & Hidle & _). by rewrite (Hi id buf Eb) in Hidle. }
  split; [done |]. unfold after_sweep. rewrite map_filter_id; [by destruct e |]. intros id buf Eb. by apply (Hi id buf).
Qed.

Lemma delivered_idle id next b f e id' buf :
  settled (slab_of e) -> en_retained (delivered id next b f e) !! id' = Some buf -> idle buf = false.
Proof.
  intros Hs Eb. assert (Hr : en_retained (delivered id next b f e) =
    <[id := mk_retained b (blen b) 1 true]> (en_retained e)).
  { unfold delivered, sample_leased, received. destruct e. cbn. by rewrite !alter_insert_eq. }
  rewrite Hr in Eb. apply lookup_insert_Some in Eb as [[-> <-] | [_ Eb]]; [done |].
  destruct (Hs _ _ Eb) as [_ Hpos]. unfold idle. rewrite (proj2 (Z.eqb_neq _ 0)) by lia. apply andb_false_r.
Qed.

(** What the application reads under the sample's lease. *)
Lemma delivered_view id next b f e payload :
  frame_ok b f -> rust_slice b -> df_payload f = Application payload ->
  lease_payload_view (delivered id next b f e) (en_next_lease_id e) = Some payload.
Proof.
  intros Hf Hb Hp. pose proof (fo_payload b f Hf) as Hpay. rewrite Hp in Hpay. destruct Hpay as [_ ->].
  pose proof (fo_parts b f Hf) as [Hel Hpl]. pose proof (fo_size b f Hf) as Hsize.
  pose proof (proj2 Hb) as Hmax. pose proof isize_le_usize. pose proof isize_max_ge.
  unfold lease_payload_view, delivered, sample_leased, received. destruct e. cbn. rewrite lookup_insert_eq. cbn.
  rewrite !alter_insert_eq, lookup_insert_eq. cbn. rewrite usize_add_small by lia. unfold get_range.
  destruct (Z.leb_spec (32 + df_extension_len f) (32 + df_extension_len f + df_payload_len f)); [| lia].
  destruct (Z.leb_spec (32 + df_extension_len f + df_payload_len f) (blen b)); [| lia]. cbn [andb]. do 2 f_equal. lia.
Qed.

Lemma sample_arrives nanos id b f payload e :
  engine_ok e -> slab_ok (slab_of e) -> settled (slab_of e) -> en_closed e = false -> event_fits (HostEvent.WsBytes id b) e ->
  rust_slice b -> parse_frame b (Some default_options) = Ok f -> df_opcode f = OPCODE_ROS_SAMPLE ->
  df_payload f = Application payload -> subscribing (df_channel_id f) e ->
  exists e', poll build nanos [HostEvent.WsBytes id b] e =
      (Ok (mk_outcome [] [sample_event e f payload] [] (en_next_heartbeat_ms e)), e') /\
    lease_payload_view e' (en_next_lease_id e) = Some payload /\
    (forall lease, is_Some (en_leases e' !! lease) -> lease = en_next_lease_id e \/ is_Some (en_leases e !! lease)) /\
    core e' = core e /\ en_closed e' = false.
Proof.
  intros He Hs Hset Hc Hfits Hb Hp Hop Hpay Hsub.
  destruct (ws_bytes_delivers id b f payload e default_outcome He Hs Hfits Hb Hp Hop Hpay Hsub) as (id' & next & _ & Hrun).
  destruct (swept_nothing (delivered id' next b f e)) as [Hswept Hafter]; [intros ? ?; by apply delivered_idle |].
  apply fn_ok in Hrun. change (eng_fn (handle_ws_bytes build id b)) with (handle_event build (HostEvent.WsBytes id b)) in Hrun.
  eexists. split.
  - rewrite (poll_one build nanos _ _ _ Hc Hrun). unfold finished_outcome. cbn [ew_engine ew_outcome].
    rewrite Hswept. by destruct e.
  - unfold finished_engine. cbn [ew_engine]. rewrite Hafter.
    pose proof (delivered_view id' next b f e payload (ConnectionSpec.parsed_frame b default_options f Hb Hp) Hb Hpay) as Hv.
    split; [| split; [| by destruct e]].
    + revert Hv. unfold lease_payload_view. by destruct (delivered id' next b f e).
    + intros lease. destruct e. cbn. intros [l Hl]. apply lookup_insert_Some in Hl as [[<- _] | [_ Hl]]; [by left | right; by exists l].
Qed.

End Deliver.

(** ** The heartbeat timer *)

(** The heartbeat frame under a control number. *)
Definition heartbeat_frame `{Target} (seq counter : Z) : bytes :=
  match encode_control_frame 0 seq (Builder.heartbeat counter) with Ok b => b | _ => [] end.

(** The schedule the timer keeps: the readings at which a heartbeat is due, and
    the deadline after them. *)
Fixpoint beats (deadline : Z) (readings : list Z) : list Z :=
  match readings with
  | [] => []
  | t :: ts => if deadline <=? t then t :: beats (u64_saturating_add t HEARTBEAT_INTERVAL_MS) ts else beats deadline ts
  end.
Fixpoint next_beat (deadline : Z) (readings : list Z) : Z :=
  match readings with
  | [] => deadline
  | t :: ts => next_beat (if deadline <=? t then u64_saturating_add t HEARTBEAT_INTERVAL_MS else deadline) ts
  end.
(** The frames of [n] heartbeats after control number [seq] and counter [counter]. *)
Fixpoint beat_frames `{Target} (n : nat) (seq counter : Z) : list bytes :=
  match n with
  | O => []
  | S n =>
      let counter := u64_saturating_add counter 1 in
      heartbeat_frame seq counter :: beat_frames n (u64_saturating_add seq 1) counter
  end.

Lemma beats_due deadline readings :
  Exists (fun t => deadline <= t) readings -> beats deadline readings <> [].
Proof.
  induction 1 as [t ts Ht | t ts _ IH]; cbn [beats]; [by destruct (Z.leb_spec deadline t); [| lia] |].
  by destruct (Z.leb_spec deadline t).
Qed.

Lemma beats_now deadline t ts : deadline <= t ->
  beats deadline (t :: ts) = t :: beats (u64_saturating_add t HEARTBEAT_INTERVAL_MS) ts /\
  next_beat deadline (t :: ts) = next_beat (u64_saturating_add t HEARTBEAT_INTERVAL_MS) ts.
Proof. intros Hle. cbn [beats next_beat]. by destruct (Z.leb_spec deadline t); [| lia]. Qed.
Lemma beats_later deadline t ts : t < deadline ->
  beats deadline (t :: ts) = beats deadline ts /\ next_beat deadline (t :: ts) = next_beat deadline ts.
Proof. intros Hlt. cbn [beats next_beat]. by destruct (Z.leb_spec deadline t); [lia |]. Qed.

Section Heartbeat.
Context `{Target}.
Variable build : EngineBuild.

Lemma heartbeat_encodes seq counter : is_sequence seq -> is_sequence counter ->
  encode_control_frame 0 seq (Builder.heartbeat counter) = Ok (heartbeat_frame seq counter) /\
  exists n msg, cm_kind msg = Schema.CONTROL_KIND_HEARTBEAT /\
    parse_frame (heartbeat_frame seq counter) (Some default_options) = Ok (Frame.control_frame 0 seq n msg).
Proof.
  intros Hs Hc. destruct (BuilderProofs.heartbeat_accepted counter Hc) as (es & n & Ha & Hle).
  pose proof (ConnectionProofs.control_encodes 12 _ es n seq Ha Hs) as Hf.
  pose proof (BuilderProofs.accepted_size _ _ _ _ Ha) as Hsize. unfold heartbeat_frame.
  destruct (Z.leb_spec (BuilderProofs.payload_size (Builders.heartbeat counter)) CONTROL_PAYLOAD_MAX_BYTES); [| lia].
  destruct Hf as (b & Eb & Hp). change (Builders.heartbeat counter) with (Builder.heartbeat counter) in *. rewrite Eb.
  split; [done |]. eexists _, _. by split; [| exact Hp].
Qed.

(** The engine once a heartbeat due at [now] is queued. *)
Definition beaten (now : Z) (e : ClientEngine) : ClientEngine :=
  let e1 := set_last_timer_ms (Some now) e in
  let e2 := set_heartbeat_counter (u64_saturating_add (en_heartbeat_counter e1) 1) e1 in
  let e3 := set_control_seq_out (u64_saturating_add (en_control_seq_out e2) 1) e2 in
  let e4 := set_next_buffer_id (u32_saturating_add (en_next_buffer_id e3) 1) e3 in
  set_next_heartbeat_ms (Some (u64_saturating_add now HEARTBEAT_INTERVAL_MS)) e4.

Lemma timer_idle now_ms deadline e o :
  ss_phase (en_session e) = Ready -> en_next_heartbeat_ms e = Some deadline -> now_ms < deadline ->
  handle_timer now_ms (mk_ew e o) = (Ok tt, mk_ew (set_last_timer_ms (Some now_ms) e) o).
Proof.
  intros Hr Hd Hlt. unfold handle_timer, eng_fn, on_eng, eng, bind, gets, modify, engine_phase. cbn [ew_engine ew_outcome].
  assert (Hs : en_session (set_last_timer_ms (Some now_ms) e) = en_session e) by by destruct e.
  assert (Hn : en_next_heartbeat_ms (set_last_timer_ms (Some now_ms) e) = en_next_heartbeat_ms e) by by destruct e.
  rewrite Hs, Hr. cbn [is_ready ret ew_engine ew_outcome]. rewrite Hn, Hd. destruct (Z.leb_spec deadline now_ms); [lia | done].
Qed.

Lemma push_heartbeat counter e o :
  engine_ok e -> ss_phase (en_session e) = Ready -> is_sequence counter -> blen (po_outbound o) < MAX_OUTBOUND_PER_POLL ->
  eng_push_control (Builder.heartbeat counter) (mk_ew e o) =
    (Ok true, mk_ew (set_next_buffer_id (u32_saturating_add (en_next_buffer_id e) 1)
                       (set_control_seq_out (u64_saturating_add (en_control_seq_out e) 1) e))
       (mk_outcome (po_outbound o ++ [mk_outbound (en_next_buffer_id e) (heartbeat_frame (en_control_seq_out e) counter)])
          (po_events o) (po_released_buffers o) (po_next_deadline_ms o))).
Proof.
  intros He Hr Hc Hroom. destruct (heartbeat_encodes (en_control_seq_out e) counter (eo_out _ He) Hc) as (Henc & n & msg & Hk & Hp).
  unfold eng_push_control, eng, bind at 1, gets. cbn [ew_engine]. unfold bind at 1, try_, ret. rewrite Henc. unfold bind at 1.
  rewrite (record_accepted _ _ (en_session e) (with_heartbeat no_effects) _ Hp); [| done |].
  2: { eapply acc_control; [done | done | by apply acc_heartbeat]. }
  cbn [ew_engine ew_outcome]. rewrite same_session. unfold on_eng, modify, bind at 1. unfold bind at 1. cbn [ew_engine ew_outcome].
  rewrite push_room by done. cbn [ew_engine ew_outcome]. by destruct e.
Qed.

Lemma timer_beats now_ms deadline e o :
  engine_ok e -> ss_phase (en_session e) = Ready -> en_next_heartbeat_ms e = Some deadline -> deadline <= now_ms ->
  blen (po_outbound o) < MAX_OUTBOUND_PER_POLL ->
  handle_timer now_ms (mk_ew e o) =
    (Ok tt, mk_ew (beaten now_ms e)
       (mk_outcome (po_outbound o ++ [mk_outbound (en_next_buffer_id e)
            (heartbeat_frame (en_control_seq_out e) (u64_saturating_add (en_heartbeat_counter e) 1))])
          (po_events o) (po_released_buffers o) (po_next_deadline_ms o))).
Proof.
  intros He Hr Hd Hle Hroom. set (counter := u64_saturating_add (en_heartbeat_counter e) 1).
  assert (Hc : is_sequence counter) by (apply saturating_sequence; [apply (eo_heartbeat _ He) | lia]).
  set (e1 := set_heartbeat_counter counter (set_last_timer_ms (Some now_ms) e)).
  assert (He1 : engine_ok e1) by (apply tweak_heartbeat; [done |]; by apply tweak_timer).
  unfold handle_timer, eng_fn, on_eng, eng, gets, modify, engine_phase.
  unfold bind at 1. unfold bind at 1. unfold bind at 1. cbn [ew_engine ew_outcome].
  assert (Hs : en_session (set_last_timer_ms (Some now_ms) e) = en_session e) by by destruct e.
  assert (Hn : en_next_heartbeat_ms (set_last_timer_ms (Some now_ms) e) = en_next_heartbeat_ms e) by by destruct e.
  assert (Hh : en_heartbeat_counter (set_last_timer_ms (Some now_ms) e) = en_heartbeat_counter e) by by destruct e.
  rewrite Hs, Hr. cbn [is_ready ret]. unfold bind at 1. cbn [ew_engine ew_outcome]. rewrite Hn, Hd.
  destruct (Z.leb_spec deadline now_ms); [| lia]. unfold bind at 1. cbn [ew_engine ew_outcome]. rewrite Hh. fold counter.
  unfold bind at 1. cbn [ew_engine ew_outcome]. fold e1. unfold bind at 1.
  rewrite (push_heartbeat counter e1 o He1); [| by destruct e | done | done]. cbn [ew_engine ew_outcome]. by destruct e.
Qed.

(** What a batch of timer readings does to a ready engine. *)
Record ticked (deadline : Z) (readings : list Z) (w w' : EngineWorld) : Prop := {
  tk_frames : map om_bytes (po_outbound (ew_outcome w')) = map om_bytes (po_outbound (ew_outcome w)) ++
    beat_frames (length (beats deadline readings)) (en_control_seq_out (ew_engine w)) (en_heartbeat_counter (ew_engine w));
  tk_outcome : po_events (ew_outcome w') = po_events (ew_outcome w) /\
    po_released_buffers (ew_outcome w') = po_released_buffers (ew_outcome w);
  tk_deadline : en_next_heartbeat_ms (ew_engine w') = Some (next_beat deadline readings);
  tk_engine : en_session (ew_engine w') = en_session (ew_engine w) /\ en_retained (ew_engine w') = en_retained (ew_engine w) /\
    en_closed (ew_engine w') = en_closed (ew_engine w)
}.

Lemma beaten_ok now e : engine_ok e -> engine_ok (beaten now e).
Proof.
  intros He. unfold beaten. cbv zeta. apply tweak_deadline, buffer_id_ok, set_seq_out_ok.
  - apply tweak_heartbeat; [| by apply tweak_timer]. apply saturating_sequence; [| lia]. apply eo_heartbeat. by apply tweak_timer.
  - apply saturating_sequence; [| lia]. apply eo_out. apply tweak_heartbeat; [| by apply tweak_timer].
    apply saturating_sequence; [| lia]. apply eo_heartbeat. by apply tweak_timer.
Qed.

Lemma timers_beat readings : forall deadline e o,
  engine_ok e -> ss_phase (en_session e) = Ready -> en_next_heartbeat_ms e = Some deadline -> en_closed e = false ->
  blen (po_outbound o) + blen readings <= MAX_OUTBOUND_PER_POLL ->
  exists w', handle_events build (map HostEvent.Timer readings) (mk_ew e o) = (Ok tt, w') /\ ticked deadline readings (mk_ew e o) w'.
Proof.
  induction readings as [| t ts IH]; intros deadline e o He Hr Hd Hc Hroom.
  { eexists. split; [done |]. split; cbn; [by rewrite app_nil_r | done | done | done]. }
  rewrite blen_cons in Hroom. pose proof (blen_nonneg ts). pose proof (blen_nonneg (po_outbound o)). cbn [map].
  destruct (Z.le_gt_cases deadline t) as [Hdue | Hearly].
  - destruct (beats_now deadline t ts Hdue) as [Eb En]. pose proof (timer_beats t deadline e o He Hr Hd Hdue ltac:(lia)) as Hrun. set (o1 := mk_outcome _ _ _ _) in Hrun.
    assert (Hl1 : blen (po_outbound o1) = blen (po_outbound o) + 1) by (subst o1; cbn; by rewrite blen_app, blen_single).
    apply fn_ok in Hrun. change (eng_fn (handle_timer t)) with (handle_event build (HostEvent.Timer t)) in Hrun.
    rewrite (handle_events_fold build _ _ _ _ Hrun); [| by destruct e].
    destruct (IH (u64_saturating_add t HEARTBEAT_INTERVAL_MS) (beaten t e) o1) as (w' & Hrest & Ht);
      [by apply beaten_ok | by destruct e | by destruct e | by destruct e | lia |].
    exists w'. split; [done |]. destruct Ht as [Hf Ho Hdl He']. rewrite <- En in Hdl. split; [| exact Ho | exact Hdl | destruct e; exact He'].
    rewrite Hf, Eb. subst o1. cbn [ew_engine ew_outcome po_outbound length beat_frames]. rewrite map_app, <- app_assoc. by destruct e.
  - destruct (beats_later deadline t ts Hearly) as [Eb En]. pose proof (timer_idle t deadline e o Hr Hd Hearly) as Hrun.
    apply fn_ok in Hrun. change (eng_fn (handle_timer t)) with (handle_event build (HostEvent.Timer t)) in Hrun.
    rewrite (handle_events_fold build _ _ _ _ Hrun); [| by destruct e].
    destruct (IH deadline (set_last_timer_ms (Some t) e) o) as (w' & Hrest & Ht);
      [by apply tweak_timer | by destruct e | by destruct e | by destruct e | lia |].
    exists w'. split; [done |]. destruct Ht as [Hf Ho Hdl He']. rewrite <- En in Hdl. rewrite <- Eb in Hf. destruct e. split; [exact Hf | exact Ho | exact Hdl | exact He'].
Qed.

Lemma poll_timers nanos readings deadline e :
  engine_ok e -> settled (slab_of e) -> ss_phase (en_session e) = Ready -> en_next_heartbeat_ms e = Some deadline ->
  en_closed e = false -> (length readings <= MAX_HOST_EVENTS_PER_POLL)%nat ->
  exists o e', poll build nanos (map HostEvent.Timer readings) e = (Ok o, e') /\
    map om_bytes (po_outbound o) = beat_frames (length (beats deadline readings)) (en_control_seq_out e) (en_heartbeat_counter e) /\
    po_events o = [] /\ po_released_buffers o = [] /\ po_next_deadline_ms o = Some (next_beat deadline readings) /\
    en_session e' = en_session e /\ en_closed e' = false.
Proof.
  intros He Hs Hr Hd Hc Hl.
  destruct (timers_beat readings deadline e default_outcome He Hr Hd Hc) as (w' & Hrun & [Hf [Hev Hrel] Hdl (Hses & Hret & Hcl)]).
  { unfold MAX_HOST_EVENTS_PER_POLL in Hl. change (blen (po_outbound default_outcome)) with 0. unfold blen, MAX_OUTBOUND_PER_POLL. lia. }
  assert (Htake : take MAX_HOST_EVENTS_PER_POLL (map HostEvent.Timer readings) = map HostEvent.Timer readings)
    by (apply take_ge; by rewrite length_map).
  destruct (swept_nothing (ew_engine w')) as [Hsw Haf].
  { intros id buf Eb. rewrite Hret in Eb. destruct (Hs _ _ Eb) as [_ Hpos]. unfold idle. rewrite (proj2 (Z.eqb_neq _ 0)) by lia. apply andb_false_r. }
  exists (finished_outcome w'), (finished_engine nanos w'). split; [unfold poll; rewrite Htake; by apply run_poll_finishes |].
  unfold finished_outcome, finished_engine. cbn [po_outbound po_events po_released_buffers po_next_deadline_ms].
  rewrite Hsw, Haf, Hf, Hev, Hrel, Hdl. split_and!; try done; [destruct (ew_engine w'); exact Hses | cbn [ew_engine] in Hcl; rewrite Hc in Hcl; destruct (ew_engine w'); exact Hcl].
Qed.

End Heartbeat.

(** ** Refusing what arrives *)

Section Refuse.
Context `{Target}.
Variable build : EngineBuild.

(** What the engine makes of an inbound frame before it acts on it. *)
Definition frame_verdict (e : ClientEngine) (b : bytes) : outcome ProtocolError SessionEffects :=
  n <-- retain_declared_len b ;;
  f <-- parse_frame_declared b n (Some default_options) ;;
  fst (ingest_frame f (en_session e)).

Definition refusal_events (e : ClientEngine) (err : ProtocolError) : list AppEvent.t :=
  [AppEvent.Error (as_unsigned 8 (pe_code err)) (lit (pe_reason err)); AppEvent.Closed (engine_phase e)].

(** The engine that retained [b] and closed. *)
Definition refused (id next : Z) (b : bytes) (n : Z) (e : ClientEngine) : ClientEngine :=
  let e1 := set_telemetry (count_ingest (blen b) (en_telemetry e)) e in
  let e2 := set_closed true (set_next_buffer_id next (set_retained (<[id := mk_retained b n 0 false]> (en_retained e1)) e1)) in
  set_retained (<[id := mk_retained b n 0 true]> (en_retained e)) e2.

Lemma ingest_refused f e err : engine_ok e -> fst (ingest_frame f (en_session e)) = Err err ->
  ingest_frame f (en_session e) = (Err err, en_session e).
Proof.
  intros He Hf. unfold ingest_frame, bind, gets in *. rewrite (eo_role _ He) in *. change (peer Client) with Server in *.
  pose proof (event_implements (EvFrame f) Server (en_session e)) as Hi. unfold implements in Hi. cbn [apply_event] in Hi.
  destruct (apply_frame f Server (en_session e)) as [[eff | e' |] s']; cbn [fst] in Hf; [done | | done]. destruct Hi as [-> _]. congruence.
Qed.

Lemma handle_frame_refuses id e o buf err :
  engine_ok e -> en_retained e !! id = Some buf -> retain_declared_len (E := ProtocolError) (rt_bytes buf) = Ok (rt_declared_len buf) ->
  frame_verdict e (rt_bytes buf) = Err err ->
  handle_frame build id (mk_ew e o) =
    (Ok tt, mk_ew (set_closed true e)
       (mk_outcome (po_outbound o) (po_events o ++ refusal_events e err) (po_released_buffers o) (po_next_deadline_ms o))).
Proof.
  intros He Hbuf Hlen Hv. unfold frame_verdict in Hv. rewrite Hlen in Hv. cbn [obind] in Hv.
  assert (Hf : forall A, fail_with (A := A) err (mk_ew e o) =
    (Err tt, mk_ew (set_closed true e)
       (mk_outcome (po_outbound o) (po_events o ++ refusal_events e err) (po_released_buffers o) (po_next_deadline_ms o)))).
  { intros A. unfold bind, fail_with, fail, on_eng, emit, on_outcome, eng, gets, modify, eng_return, throw.
    cbn. unfold refusal_events, engine_phase. rewrite <- app_assoc. by destruct e. }
  unfold handle_frame, eng_fn, eng, bind at 1, gets. cbn [ew_engine]. rewrite Hbuf. unfold bind at 1. cbn [ew_engine].
  rewrite (eo_options _ He). destruct (parse_frame_declared (rt_bytes buf) (rt_declared_len buf) (Some default_options)) as [f | e' |] eqn:Ep;
    cbn [obind] in Hv; [| injection Hv as ->; unfold bind at 1; by rewrite Hf | done].
  unfold bind at 1, ret. unfold bind at 1, eng_session. cbn [ew_engine ew_outcome].
  rewrite (ingest_refused f e err He Hv), same_session. unfold bind at 1. by rewrite Hf.
Qed.

Lemma retain_len_any {E F} b n : retain_declared_len (E := E) b = Ok n -> retain_declared_len (E := F) b = Ok n.
Proof.
  unfold retain_declared_len, frame_declared_total, slice, read_u16_be. cbn [read_at]. unfold index.
  repeat (case_match; cbn [obind]; try congruence).
Qed.

Lemma ws_bytes_refuses id b e o err :
  engine_ok e -> slab_ok (slab_of e) -> event_fits (HostEvent.WsBytes id b) e -> rust_slice b ->
  in_selected_plane (engine_phase e) = true -> frame_verdict e b = Err err ->
  exists id' next n, en_retained e !! id' = None /\
    handle_ws_bytes build id b (mk_ew e o) =
      (Ok tt, mk_ew (refused id' next b n e)
         (mk_outcome (po_outbound o) (po_events o ++ refusal_events e err) (po_released_buffers o) (po_next_deadline_ms o))).
Proof.
  intros He Hs Hfits Hb Hph Hv. set (e1 := set_telemetry (count_ingest (blen b) (en_telemetry e)) e).
  destruct (retain_spec id b (mk_ew e1 o)) as (id' & n & next & Er & Hfree & _ & _ & _ & En); [by destruct e | done | by destruct e |].
  exists id', next, n. split; [by destruct e |]. unfold handle_ws_bytes, count, on_eng at 1, bind at 1, modify. cbn [ew_engine ew_outcome].
  fold e1. unfold bind at 1. rewrite Er. unfold with_buffer. cbn [ew_engine ew_outcome].
  set (e2 := set_next_buffer_id _ _). unfold bind at 1, eng, gets. cbn [ew_engine]. unfold bind at 1.
  assert (Hph2 : engine_phase e2 = engine_phase e) by by destruct e. rewrite Hph2, Hph. cbn [negb].
  assert (He2 : engine_ok e2).
  { apply buffer_id_ok. apply (tweak_insert_retained id' (mk_retained b n 0 false) Hb). by apply (tweak_telemetry (count_ingest (blen b))). }
  rewrite (handle_frame_refuses id' e2 o (mk_retained b n 0 false) err); try done.
  - unfold refusal_events. rewrite Hph2. cbn. unfold on_eng, modify, refused. cbn [ew_engine ew_outcome]. destruct e. cbn.
    by rewrite alter_insert_eq.
  - subst e2 e1. destruct e. cbn. apply lookup_insert_eq.
  - by apply (retain_len_any (E := unit)).
  - by destruct e.
Qed.

(** A closed engine only says so. *)
Lemma closed_poll nanos events e : en_closed e = true ->
  exists e', poll build nanos events e = (Ok (mk_outcome [] [AppEvent.Closed (engine_phase e)] [] None), e') /\
    en_closed e' = true /\ engine_phase e' = engine_phase e.
Proof. intros Hc. eexists. split; [unfold poll, run_poll, poll_turn, eng, bind at 1, gets; cbn [ew_engine]; by rewrite Hc |]. by destruct e. Qed.

Lemma swept_one e id buf :
  en_retained e !! id = Some buf -> idle buf = true -> (forall i b, en_retained e !! i = Some b -> i <> id -> idle b = false) ->
  swept e = [mk_released id (as_unsigned 32 (blen (rt_bytes buf)))].
Proof.
  intros Eb Hi Ho. apply Permutation_singleton_r. apply NoDup_Permutation.
  - pose proof (swept_once e) as Hn. by eapply NoDup_fmap_1.
  - apply NoDup_singleton.
  - intros [i n]. rewrite list_elem_of_singleton. split.
    + intros Hin. apply swept_spec in Hin as (b & Eb' & Hidle & ->).
      destruct (decide (i = id)) as [-> | Hne]; [congruence |]. by rewrite (Ho i b Eb' Hne) in Hidle.
    + intros [= -> ->]. apply swept_spec. by exists buf.
Qed.

Lemma poll_refuses nanos id b err e :
  engine_ok e -> slab_ok (slab_of e) -> settled (slab_of e) -> en_closed e = false ->
  event_fits (HostEvent.WsBytes id b) e -> rust_slice b ->
  in_selected_plane (engine_phase e) = true -> frame_verdict e b = Err err ->
  exists id' e', poll build nanos [HostEvent.WsBytes id b] e =
      (Ok (mk_outcome [] (refusal_events e err) [mk_released id' (as_unsigned 32 (blen b))] (en_next_heartbeat_ms e)), e') /\
    en_closed e' = true /\ en_session e' = en_session e /\ en_retained e' = en_retained e.
Proof.
  intros He Hs Hset Hc Hfits Hb Hph Hv.
  destruct (ws_bytes_refuses id b e default_outcome err He Hs Hfits Hb Hph Hv) as (id' & next & n & Hfree & Hrun).
  assert (Hret : en_retained (refused id' next b n e) = <[id' := mk_retained b n 0 true]> (en_retained e)) by by destruct e.
  assert (Hbusy : forall i buf, en_retained e !! i = Some buf -> idle buf = false).
  { intros i buf Eb. destruct (Hset _ _ Eb) as [_ Hpos]. unfold idle. rewrite (proj2 (Z.eqb_neq _ 0)) by lia. apply andb_false_r. }
  assert (Hsw : swept (refused id' next b n e) = [mk_released id' (as_unsigned 32 (blen b))]).
  { apply (swept_one _ id' (mk_retained b n 0 true)); [rewrite Hret; apply lookup_insert_eq | done |].
    intros i buf Eb Hne. rewrite Hret, lookup_insert_ne in Eb by done. by apply (Hbusy i). }
  apply fn_ok in Hrun. change (eng_fn (handle_ws_bytes build id b)) with (handle_event build (HostEvent.WsBytes id b)) in Hrun.
  exists id'. eexists. split.
  - rewrite (poll_one build nanos _ _ _ Hc Hrun). unfold finished_outcome. cbn [ew_engine ew_outcome]. rewrite Hsw. by destruct e.
  - unfold finished_engine, after_sweep. cbn [ew_engine]. rewrite Hret. split; [by destruct e |]. split; [by destruct e |].
    transitivity (filter (fun p => idle p.2 = false) (<[id' := mk_retained b n 0 true]> (en_retained e))); [by destruct e |].
    rewrite map_filter_insert_False by done. rewrite delete_id by done. apply map_filter_id. intros i buf Eb. by apply (Hbusy i).
Qed.

End Refuse.

(** ** Publishing a text *)

Section PublishText.
Context `{Target}.
Variable build : EngineBuild.

Lemma sample_queued_publishes id p e : publishing id p e -> publishing id (advanced p) (sample_queued id p e).
Proof.
  intros [Hid Hr He Hp]. split; [done | by destruct e | by destruct e |].
  unfold sample_queued. destruct e. cbn. apply lookup_insert_eq.
Qed.

(** The text goes out as one frame under the next number of the channel. *)
Lemma poll_publishes nanos id p text payload e :
  engine_ok e -> settled (slab_of e) -> en_closed e = false -> publishing id p e ->
  encode_std_msgs_string text = Ok payload -> bytes_ok payload -> blen payload <= FRAME_PAYLOAD_MAX_BYTES ->
  exists e', poll build nanos [HostEvent.Command (AppCommand.SendSample id text)] e =
      (Ok (mk_outcome [mk_outbound (en_next_buffer_id e) (publish_frame id p payload)] [] [] (en_next_heartbeat_ms e)), e') /\
    publishing id (advanced p) e' /\ core e' = core e /\ en_closed e' = false.
Proof.
  intros He Hs Hc Hpub Henc Hb Hl.
  assert (Hrun : handle_event build (HostEvent.Command (AppCommand.SendSample id text)) (mk_ew e default_outcome) =
    (Ok tt, mk_ew (sample_queued id p e)
       (mk_outcome [mk_outbound (en_next_buffer_id e) (publish_frame id p payload)] [] [] None))).
  { apply (fn_ok (send_sample id text)). unfold send_sample. unfold bind at 1, try_. rewrite Henc. unfold ret at 1.
    rewrite (sample_payload_sends id p payload e default_outcome); try done. }
  destruct (swept_nothing (sample_queued id p e)) as [Hsw Haf].
  { intros i buf Eb. replace (en_retained (sample_queued id p e)) with (en_retained e) in Eb by by destruct e.
    destruct (Hs _ _ Eb) as [_ Hpos]. unfold idle. rewrite (proj2 (Z.eqb_neq _ 0)) by lia. apply andb_false_r. }
  eexists. split; [rewrite (poll_one build nanos _ _ _ Hc Hrun); unfold finished_outcome; cbn [ew_engine ew_outcome];
    rewrite Hsw; by destruct e |].
  unfold finished_engine. cbn [ew_engine]. rewrite Haf. pose proof (sample_queued_publishes id p e Hpub) as [H1 H2 H3 H4].
  split; [| by destruct e]. split; [done | ..]; revert H2 H3 H4; by destruct (sample_queued id p e).
Qed.

End PublishText.
