(* ===== verification/System.v ===== *)
(** * Client engine and gateway together

    The two ends of a connection composed: what one engine puts on the wire is
    what the other one reads.  A sample the application publishes reaches the
    ROS side as the same payload under matching sequence numbers; a sample of
    the ROS side reaches the application's lease.  The last part runs both ends
    against each other on concrete inputs. *)

From stdpp Require Import gmap.
From S2P Require Import Prelude Utf8 ProtocolError Cbor Extension ControlSchema Control Frame Bootstrap Session SessionProofs.
From S2P Require Import Budgets Auth Policy Backend Builders BuilderProofs Accept Connection ConnectionSpec ConnectionProofs ConnectionTheorems.
From S2P Require Import Registry.
From S2P Require Import EngineTypes.
From S2P Require Engine EngineCodecs EngineSpec EngineMessages EngineProofs EngineSlab EngineBehaviour.
Import Engine(ClientEngine, EngineBuild, ActivePublish, en_active_publishes, ap_seq_out, ap_reliable, en_closed, en_session, poll,
  lease_payload_view, en_next_lease_id, encode_std_msgs_string).
Import EngineSpec(engine_ok).
Import EngineSlab(slab_of, slab_ok).
Import EngineBehaviour(publishing, subscribing, published, publish_frame, advanced).
#[local] Open Scope Z_scope.

Section Composition.
Context `{Target} {B : Type} `{!RosBackend B} {Hlaws : RosBackendLaws B} `{JwtLibrary} {Hjwt : JwtLaws}.
Variables (config : GatewayConfig) (auth_config : AuthConfig) (active : ActiveTransport) (clock : Z -> Z) (pid : Z).

(** The application's side of a topic and the gateway's runtime for it agree. *)
Record matched (id : Z) (p : ActivePublish) (r : ChannelRuntime) (w : World B) : Prop := {
  mt_runtime : cn_channels (w_conn w) !! id = Some r;
  mt_kind : cr_kind r = TopicPublish;
  mt_reliable : cr_reliable r = ap_reliable p;
  mt_sequence : cr_seq_in r = ap_seq_out p
}.

Lemma published_payload id p payload :
  sub_list (publish_frame id p payload) (32 + df_extension_len (published id p payload)) (df_payload_len (published id p payload)) = payload.
Proof.
  change (sub_list (header_bytes (wire_header (Engine.publish_header id p) (blen payload) 0) ++ payload) 32 (blen payload) = payload).
  rewrite sub_list_app_r by (rewrite header_bytes_len; lia). rewrite header_bytes_len. by apply sub_list_all.
Qed.

Lemma framed_slice id r buf :
  1 <= id <= u32_max -> runtime_ok r -> rust_slice buf -> 32 <= blen buf -> blen buf - 32 <= FRAME_PAYLOAD_MAX_BYTES ->
  rust_slice (framed id r buf).
Proof.
  intros Hid [Hpr Hso _ _ _] [Hb _] Hl Hmax. pose proof (blen_drop32 buf Hl) as Hd.
  pose proof (EngineMessages.sent_frame (forward_header id r) [] (drop 32 buf)) as Hf.
  pose proof (encode_frame_spec (forward_header id r) [] (drop 32 buf)) as Hs. unfold FRAME_PAYLOAD_MAX_BYTES in Hmax.
  destruct (encode_frame _ _ _) as [b | |]; [| exfalso; apply Hs; split_and!; try done; rewrite Hd; lia | done].
  destruct Hs as (-> & _). unfold framed. rewrite <- Hd. apply Hf; [| apply bytes_ok_nil | by apply Forall_drop].
  unfold fields_typed, is_byte, is_unsigned, is_signed, is_sequence, u32_max, u64_max, forward_header, FLAG_ROS_RELIABLE,
    OPCODE_ROS_SAMPLE in *. cbn. destruct (cr_reliable r); cbn; lia.
Qed.

(** The gateway publishes what a client put on the wire. *)
Lemma wp_published build id p r payload w :
  conn_wf (w_conn w) -> ss_phase (cn_session (w_conn w)) = Ready -> room build 1 w -> matched id p r w ->
  1 <= id <= u32_max -> is_sequence (ap_seq_out p) -> ap_seq_out p < u64_max ->
  bytes_ok payload -> blen payload <= FRAME_PAYLOAD_MAX_BYTES -> rust_slice (publish_frame id p payload) ->
  wp (handle_inbound build config auth_config active clock pid (publish_frame id p payload))
    (fun _ w' => w_backend w' = snd (publish (cr_entity r) payload (w_backend w)) /\ matched id (advanced p) (with_seq_in (cr_seq_in r + 1) r) w')
    (fun _ _ => False) w.
Proof using Hlaws.
  intros Hwf Hp Hroom [Hr Hk Hrel Hseq] Hid Hs Hlt Hb Hl Hsl.
  pose proof (EngineBehaviour.publish_parses id p payload Hid Hs Hb Hl) as Hparse.
  eapply wp_mono; [apply (wp_inbound_sample config auth_config active clock pid build _ _ r w Hwf Hsl Hroom Hp Hparse eq_refl Hr Hk) | | done].
  { intros _. exact Hlt. }
  cbv beta. intros _ w' [_ Hres].
  assert (Hflags : flags_agree r (df_flags (published id p payload)) = true).
  { unfold flags_agree. rewrite Hrel. cbn. by destruct (ap_reliable p). }
  assert (Hin : in_sequence r (ap_seq_out p) = true).
  { unfold in_sequence. rewrite Hseq, Z.eqb_refl. destruct (cr_reliable r); [done | apply Z.leb_refl]. }
  change (df_sequence (published id p payload)) with (ap_seq_out p) in Hres. rewrite Hflags, Hin in Hres. cbn [andb] in Hres.
  destruct Hres as [Hback Hch]. change (df_channel_id (published id p payload)) with id in Hch. split.
  - rewrite Hback. do 3 f_equal. apply published_payload.
  - split; rewrite ?Hch; try by destruct r.
    + unfold next. destruct (Z.eqb_spec (ap_seq_out p) u64_max); [lia | by rewrite Hseq].
    + destruct r, p. cbn in *. rewrite Hseq. unfold u64_saturating_add. lia.
Qed.

(** C3: a text the application publishes reaches the ROS side.  When engine and
    gateway agree on the channel (its runtime publishes, with the same
    reliability, and expects the engine's next number), the poll that takes the
    command sends one frame and reports nothing; the gateway, given that frame,
    publishes exactly the CDR of the text, once, on the channel's entity; and
    afterwards both sides agree on the channel again, one number further. *)
Theorem publish_end_to_end ebuild build nanos id p r text payload e w :
  engine_ok e -> EngineSlab.settled (slab_of e) -> en_closed e = false -> publishing id p e ->
  utf8_valid text = true -> encode_std_msgs_string text = Ok payload -> blen payload <= FRAME_PAYLOAD_MAX_BYTES ->
  conn_wf (w_conn w) -> ss_phase (cn_session (w_conn w)) = Ready -> room build 1 w ->
  matched id p r w -> ap_seq_out p < u64_max ->
  exists o e', poll ebuild nanos [HostEvent.Command (AppCommand.SendSample id text)] e = (Ok o, e') /\
    po_events o = [] /\ publishing id (advanced p) e' /\
    exists frame, map om_bytes (po_outbound o) = [frame] /\
      answers_with (handle_inbound build config auth_config active clock pid frame)
        (fun _ w' => w_backend w' = snd (publish (cr_entity r) payload (w_backend w)) /\
           matched id (advanced p) (with_seq_in (cr_seq_in r + 1) r) w') w.
Proof using Hlaws.
  intros He Hs Hc Hpub Htext Henc Hl Hwf Hp Hroom Hm Hlt.
  assert (Hb : bytes_ok payload).
  { pose proof (EngineCodecs.tame_std_msgs_string text (utf8_valid_bytes text Htext)) as Ht. by rewrite Henc in Ht. }
  destruct (EngineBehaviour.poll_publishes ebuild nanos id p text payload e He Hs Hc Hpub Henc Hb Hl) as (e' & Hpoll & Hpub' & _).
  pose proof (EngineBehaviour.pb_id _ _ _ Hpub) as Hid.
  pose proof (EngineSpec.eo_publishes _ He id p (EngineBehaviour.pb_publish _ _ _ Hpub)) as Hseq. cbn beta in Hseq.
  eexists _, e'. split; [exact Hpoll |]. split; [done |]. split; [done |]. eexists. split; [done |].
  apply wp_answers. apply wp_published; try done. by apply EngineBehaviour.publish_slice.
Qed.

(** C4: a sample of the ROS side reaches the application.  The gateway's turn
    sends one frame; the engine, polled with it, reports exactly one sample on
    that channel, with the number the gateway gave it, and the bytes behind the
    lease it hands out are the sample's; the engine sends nothing back, and the
    gateway's next sample on the channel takes the next number. *)
Theorem sample_end_to_end ebuild build nanos s r buffer e w :
  loop_wf w -> sample_ok s -> seq_out_room build (ss_channel_id s) w ->
  cn_channels (w_conn w) !! ss_channel_id s = Some r -> cr_kind r = TopicSubscribe ->
  blen (ss_frame_buf s) - 32 <= FRAME_PAYLOAD_MAX_BYTES -> blen (ss_frame_buf s) <= max_bytes (w_queue w) ->
  engine_ok e -> slab_ok (slab_of e) -> EngineSlab.settled (slab_of e) -> en_closed e = false ->
  (forall b, EngineSlab.event_fits (HostEvent.WsBytes buffer b) e) -> subscribing (ss_channel_id s) e ->
  answers_with (turn build config auth_config active clock pid (ESample s))
    (fun '(frames, go) w' => go = true /\
       exists frame, frames = [frame] /\
         exists e' text, poll ebuild nanos [HostEvent.WsBytes buffer frame] e =
             (Ok (mk_outcome [] [AppEvent.Sample (ss_channel_id s) (en_next_lease_id e) (cr_seq_out r) 0 text] []
                    (Engine.en_next_heartbeat_ms e)), e') /\
           lease_payload_view e' (en_next_lease_id e) = Some (drop 32 (ss_frame_buf s)) /\
           en_session e' = en_session e /\
           cn_channels (w_conn w') !! ss_channel_id s = Some (with_seq_out (next (cr_seq_out r)) r)) w.
Proof.
  intros Hw Hs Hroom Hr Hk Hmax Hqueue He Hslab Hset Hc Hfits Hsub. apply wp_answers.
  eapply wp_mono; [by apply (wp_forward_sample config auth_config active clock pid build s w) | | done].
  intros [frames go] w' (-> & Hframes & _ & Hall). split; [done |].
  destruct (cc_runtimes _ (proj1 (proj1 Hw)) _ _ Hr) as [Hid Hrt]. destruct Hs as [Hsl Hlen].
  assert (Hone : frames = [framed (ss_channel_id s) r (ss_frame_buf s)]).
  { rewrite Hframes. unfold sample_sent. rewrite Hr, Hk, bool_decide_eq_true_2 by done. cbn [negb orb].
    destruct (Z.ltb_spec FRAME_PAYLOAD_MAX_BYTES (blen (ss_frame_buf s) - 32)); [lia |].
    by destruct (Z.leb_spec (blen (ss_frame_buf s)) (max_bytes (w_queue w))); [| lia]. }
  eexists. split; [exact Hone |].
  pose proof (framed_parses _ r (ss_frame_buf s) Hid Hrt Hsl (proj1 Hlen) Hmax) as Hparse.
  destruct (EngineBehaviour.sample_arrives ebuild nanos buffer _ _ (drop 32 (ss_frame_buf s)) e He Hslab Hset Hc (Hfits _)
    (framed_slice _ r (ss_frame_buf s) Hid Hrt Hsl (proj1 Hlen) Hmax) Hparse eq_refl eq_refl Hsub) as (e' & Hpoll & Hview & _ & Hcore & _).
  exists e'. eexists. split; [exact Hpoll |]. split; [exact Hview |]. unfold EngineProofs.core in Hcore.
  split; [by injection Hcore |]. destruct (Hall (framed (ss_channel_id s) r (ss_frame_buf s))) as (r' & f & Hr' & _ & _ & _ & _ & _ & _ & _ & _ & Hnext);
    [rewrite Hone; by constructor |]. congruence.
Qed.

End Composition.

(** ** Both ends, run against each other *)

Section Relay.
Context `{Target} {B : Type} `{!RosBackend B} `{JwtLibrary}.

(** Both ends, what the application was told, and what each end was fed so far. *)
Record System := mk_system {
  sy_engine : ClientEngine;
  sy_gateway : World B;
  sy_reported : list AppEvent.t;
  sy_polls : list (list HostEvent.t);
  sy_turns : list Event
}.

Definition gateway_turn (event : Event) (s : System) : list bytes * System :=
  match turn ReleaseBuild demo_config demo_auth BinaryWebSocket (fun n => n) 42 event (sy_gateway s) with
  | (Ok (frames, _), w) => (frames, mk_system (sy_engine s) w (sy_reported s) (sy_polls s) (sy_turns s ++ [event]))
  | (_, w) => ([], mk_system (sy_engine s) w (sy_reported s) (sy_polls s) (sy_turns s ++ [event]))
  end.
Fixpoint gateway_turns (inbound : list bytes) (s : System) : list bytes * System :=
  match inbound with
  | [] => ([], s)
  | b :: inbound =>
      let '(frames, s) := gateway_turn (EInbound b) s in
      let '(frames', s) := gateway_turns inbound s in
      (frames ++ frames', s)
  end.
(** A poll of the engine; what it sends goes to the gateway, whose answers come back. *)
Definition host_turn (events : list HostEvent.t) (s : System) : list bytes * System :=
  match poll Engine.Wrapping 0 events (sy_engine s) with
  | (Ok o, e) =>
      gateway_turns (map om_bytes (po_outbound o))
        (mk_system e (sy_gateway s) (sy_reported s ++ po_events o) (sy_polls s ++ [events]) (sy_turns s))
  | (_, _) => ([], s)
  end.
(** At most [rounds] polls; it stops when neither end has anything to say. *)
Fixpoint relay (rounds : nat) (events : list HostEvent.t) (s : System) : System :=
  match rounds, events with
  | S rounds, _ :: _ =>
      let '(frames, s) := host_turn events s in relay rounds (map (HostEvent.WsBytes 0) frames) s
  | _, _ => s
  end.

Definition commands (cmds : list AppCommand.t) (s : System) : System := relay 8 (map HostEvent.Command cmds) s.
Definition power_on (b : B) : System := mk_system Engine.engine_new (connect demo_config no_telemetry 0 b) [] [] [].

End Relay.
Arguments System B : clear implicits.

#[local] Existing Instance gateway_target.

Definition no_correlation : bytes := zeros 16.
Definition chatter : bytes := lit "/chatter".
Definition string_type_name : bytes := lit "std_msgs/msg/String".

(** A client that starts, authenticates and opens a topic in each direction. *)
Definition talk_to {B} `{!RosBackend B} (b : B) : System B :=
  commands [AppCommand.Publish no_correlation 7 chatter string_type_name 1 5 0;
            AppCommand.Subscribe no_correlation 8 chatter string_type_name 1 5 0]
    (commands [AppCommand.Authenticate no_correlation (lit "dev") [1]]
       (commands [AppCommand.Start false false] (power_on b))).
Definition talk : System LogBackend := Eval vm_compute in talk_to (mk_log 1 [] []).

(** ** The demonstration engine satisfies the invariants *)

(** The engine after a list of polls, each of which returned. *)
Fixpoint polls (batches : list (list HostEvent.t)) (e : ClientEngine) : option ClientEngine :=
  match batches with
  | [] => Some e
  | events :: batches =>
      match poll Engine.Wrapping 0 events e with
      | (Ok _, e') => polls batches e'
      | _ => None
      end
  end.

Lemma polls_ok batches : forall e e',
  engine_ok e -> Forall (Forall EngineSpec.event_ok) batches -> polls batches e = Some e' -> engine_ok e'.
Proof.
  induction batches as [| events batches IH]; intros e e' He Hev; cbn [polls]; [by intros [= <-] |].
  inversion Hev as [| ? ? Hhd Htl]; subst.
  destruct (EngineProofs.poll_safe Engine.Wrapping 0 events e He Hhd) as (o & e1 & Hpoll & Hpolled); [done |].
  rewrite Hpoll. by apply IH; [apply Hpolled |].
Qed.

Definition slice_okb (b : bytes) : bool := forallb (fun x => (0 <=? x) && (x <? 256)) b && (blen b <=? isize_max).
Lemma slice_check b : slice_okb b = true -> rust_slice b.
Proof. unfold slice_okb. rewrite andb_true_iff, Z.leb_le. intros [Hb Hl]. split; [by apply bytes_ok_check | done]. Qed.

(** The commands the demonstrations give, and the frames they are answered with. *)
Definition text_okb (t : bytes) : bool := utf8_valid t && (blen t <=? MAX_SAFE_INTEGER).
Definition demo_event_okb (event : HostEvent.t) : bool :=
  match event with
  | HostEvent.WsBytes _ b => slice_okb b
  | HostEvent.Timer _ | HostEvent.ReleaseLease _ => true
  | HostEvent.Command (AppCommand.Start _ _) | HostEvent.Command AppCommand.Close => true
  | HostEvent.Command (AppCommand.Authenticate correlation scheme token) =>
      slice_okb correlation && (blen correlation =? 16) && text_okb scheme && slice_okb token && (blen token <=? MAX_SAFE_INTEGER)
  | HostEvent.Command (AppCommand.Subscribe correlation id topic type_name reliability depth domain_id)
  | HostEvent.Command (AppCommand.Publish correlation id topic type_name reliability depth domain_id) =>
      slice_okb correlation && (blen correlation =? 16) && (0 <=? id) && (id <=? u32_max) && text_okb topic && text_okb type_name &&
      (0 <=? domain_id) && (domain_id <? 256) && (0 <=? reliability) && (reliability <? 256) && (0 <=? depth) && (depth <=? u32_max)
  | _ => false
  end.

Lemma demo_event_check event : demo_event_okb event = true -> EngineSpec.event_ok event.
Proof.
  destruct event as [id b | t | cmd | lease]; cbn [demo_event_okb EngineSpec.event_ok]; [apply slice_check | done | | done].
  destruct cmd; cbn [EngineSpec.command_ok]; try done; unfold text_okb, EngineSpec.open_ok, EngineSpec.carried_text, EngineSpec.carried_bytes,
    EngineSpec.is_u32, id_bytes, is_byte; rewrite ?andb_true_iff, ?Z.leb_le, ?Z.ltb_lt, ?Z.eqb_eq; intros Hc;
    decompose [and] Hc; split_and!; try done; by apply slice_check.
Qed.

Lemma batches_check batches : forallb (forallb demo_event_okb) batches = true -> Forall (Forall EngineSpec.event_ok) batches.
Proof.
  intros Hc. apply Forall_forall. intros events Hin. rewrite forallb_forall in Hc.
  specialize (Hc events (proj1 (list_elem_of_In _ _) Hin)). rewrite forallb_forall in Hc. apply Forall_forall. intros event Hev.
  apply demo_event_check, Hc. by apply list_elem_of_In.
Qed.

Definition talk_engine : ClientEngine := Eval vm_compute in sy_engine talk.
Definition talk_gateway : World LogBackend := Eval vm_compute in sy_gateway talk.

(** Each end, replayed on its own. *)
Lemma talk_replays :
  polls (sy_polls talk) Engine.engine_new = Some talk_engine /\ turns (sy_turns talk) demo_start = Some talk_gateway.
Proof. split; vm_compute; reflexivity. Qed.

Lemma talk_engine_ok : engine_ok talk_engine.
Proof.
  apply (polls_ok (sy_polls talk) Engine.engine_new); [apply EngineSpec.engine_new_ok | | apply talk_replays].
  apply batches_check. vm_compute. reflexivity.
Qed.

Lemma talk_slab : slab_ok (slab_of talk_engine) /\ EngineSlab.settled (slab_of talk_engine).
Proof.
  assert (E : exists n m, slab_of talk_engine = EngineSlab.mk_slab ∅ ∅ n m /\ 1 <= n <= u32_max /\ 1 <= m <= u32_max)
    by (eexists _, _; split; [by vm_compute | by vm_compute]).
  destruct E as (n & m & -> & Hn & Hm). split; [| done]. split; cbn [EngineSlab.sb_retained EngineSlab.sb_leases EngineSlab.sb_next_lease EngineSlab.sb_next_buffer];
    try done; try lia.
  - intros lease [l Hl]. done.
  - rewrite map_size_empty. lia.
  - intros id [b Hb]. done.
Qed.

Lemma talk_gateway_wf : loop_wf talk_gateway.
Proof.
  apply (turns_wf (sy_turns talk) demo_start); [| apply connect_wf, demo_queue | apply talk_replays].
  apply input_check. vm_compute. reflexivity.
Qed.

(** ** Witnesses *)

Definition talk_runtime (id : Z) : ChannelRuntime :=
  or_else (cn_channels (w_conn talk_gateway) !! id) (demo_runtime id).
Definition talk_publish : ActivePublish := Engine.mk_publish chatter string_type_name true 0.
Definition hello : bytes := lit "hi".
Definition hello_cdr : bytes := [0; 1; 0; 0; 3; 0; 0; 0; 104; 105; 0].

Lemma talk_publishing : publishing 7 talk_publish talk_engine.
Proof.
  split; [by vm_compute | by vm_compute | | by vm_compute].
  exists (or_else (ss_channels (en_session talk_engine) !! 7) (mk_entry Unused TopicPublish [])).
  split_and!; by vm_compute.
Qed.

Lemma talk_subscribing : subscribing 8 talk_engine.
Proof.
  split; [by vm_compute |].
  exists (or_else (ss_channels (en_session talk_engine) !! 8) (mk_entry Unused TopicPublish [])).
  split_and!; by vm_compute.
Qed.

Lemma publish_end_to_end_witness :
  exists o e', poll Engine.Checked 0 [HostEvent.Command (AppCommand.SendSample 7 hello)] talk_engine = (Ok o, e') /\
    po_events o = [] /\ publishing 7 (advanced talk_publish) e' /\
    exists frame, map om_bytes (po_outbound o) = [frame] /\
      answers_with (handle_inbound ReleaseBuild demo_config demo_auth BinaryWebSocket (fun n => n) 42 frame)
        (fun _ w' => w_backend w' = snd (Backend.publish (cr_entity (talk_runtime 7)) hello_cdr (w_backend talk_gateway)) /\
           matched 7 (advanced talk_publish) (with_seq_in (cr_seq_in (talk_runtime 7) + 1) (talk_runtime 7)) w') talk_gateway.
Proof.
  apply (publish_end_to_end demo_config demo_auth BinaryWebSocket (fun n => n) 42 Engine.Checked ReleaseBuild 0 7 talk_publish
    (talk_runtime 7) hello hello_cdr talk_engine talk_gateway talk_engine_ok (proj2 talk_slab)).
  - by vm_compute.
  - exact talk_publishing.
  - by vm_compute.
  - by vm_compute.
  - by vm_compute.
  - exact (proj1 talk_gateway_wf).
  - by vm_compute.
  - intros Hd. discriminate Hd.
  - split; by vm_compute.
  - by vm_compute.
Defined.

Definition talk_sample : SubscriptionSample := sample_from_payload 8 hello_cdr.

Lemma sample_end_to_end_witness :
  answers_with (turn ReleaseBuild demo_config demo_auth BinaryWebSocket (fun n => n) 42 (ESample talk_sample))
    (fun '(frames, go) w' => go = true /\
       exists frame, frames = [frame] /\
         exists e' text, poll Engine.Checked 0 [HostEvent.WsBytes 0 frame] talk_engine =
             (Ok (mk_outcome [] [AppEvent.Sample 8 (en_next_lease_id talk_engine) (cr_seq_out (talk_runtime 8)) 0 text] []
                    (Engine.en_next_heartbeat_ms talk_engine)), e') /\
           lease_payload_view e' (en_next_lease_id talk_engine) = Some (drop 32 (ss_frame_buf talk_sample)) /\
           en_session e' = en_session talk_engine /\
           cn_channels (w_conn w') !! 8 = Some (with_seq_out (next (cr_seq_out (talk_runtime 8))) (talk_runtime 8))) talk_gateway.
Proof.
  apply (sample_end_to_end demo_config demo_auth BinaryWebSocket (fun n => n) 42 Engine.Checked ReleaseBuild 0 talk_sample (talk_runtime 8)
    0 talk_engine talk_gateway talk_gateway_wf).
  - exact (proj1 (Forall_singleton _ _) (input_check [ESample talk_sample] ltac:(by vm_compute))).
  - intros Hd. discriminate Hd.
  - by vm_compute.
  - by vm_compute.
  - by vm_compute.
  - by vm_compute.
  - exact talk_engine_ok.
  - exact (proj1 talk_slab).
  - exact (proj2 talk_slab).
  - by vm_compute.
  - intros b. split; by vm_compute.
  - exact talk_subscribing.
Defined.

(** ** Three conversations *)

(** What [cmds] make the application hear. *)
Definition heard {B} (before after : System B) : list AppEvent.t := drop (length (sy_reported before)) (sy_reported after).

(** A text published by the application is the CDR string the ROS side gets. *)
Example hello_reaches_ros :
  lb_published (w_backend (sy_gateway (commands [AppCommand.SendSample 7 hello] talk))) = [(1, hello_cdr)].
Proof. by vm_compute. Qed.

(** A sample that is on its way while the application unsubscribes ends the
    engine's whole session: it reports an error and closes, although only the
    one channel was to be closed. *)
Definition sample_while_unsubscribing : list AppEvent.t :=
  let sampled := gateway_turn (ESample talk_sample) talk in
  let events := HostEvent.Command (AppCommand.Unsubscribe no_correlation 8) :: map (HostEvent.WsBytes 0) (fst sampled) in
  heard talk (snd (host_turn events (snd sampled))).
Example unsubscribe_race_closes :
  sample_while_unsubscribing = [AppEvent.Error 7 (lit "data_on_inactive_channel"); AppEvent.Closed Ready].
Proof. by vm_compute. Qed.

(** One heartbeat is answered with a heartbeat, by either end, for ever: in
    [rounds] polls the engine hears [rounds - 1] of them. *)
Definition is_heartbeat (event : AppEvent.t) : bool := match event with AppEvent.Heartbeat _ => true | _ => false end.
Definition heartbeats_heard (rounds : nat) : nat :=
  length (List.filter is_heartbeat (heard talk (relay rounds [HostEvent.Timer 30000] (relay 1 [HostEvent.Timer 1] talk)))).
Example heartbeats_never_stop : map heartbeats_heard [1; 2; 4]%nat = [0; 1; 3]%nat.
Proof. by vm_compute. Qed.

(** A backend whose services answer every call. *)
Record CallBackend := mk_call { cb_log : LogBackend }.
Definition via_log {A} (m : Method LogBackend A) : Method CallBackend A := fun b =>
  let '(a, l) := m (cb_log b) in (a, mk_call l).
#[export] Instance call_backend : RosBackend CallBackend := {
  create_subscription s := via_log (create_subscription s); create_publisher s := via_log (create_publisher s);
  create_client s := via_log (create_client s); create_service s := via_log (create_service s);
  create_action_client s := via_log (create_action_client s); create_action_server s := via_log (create_action_server s);
  publish entity payload := via_log (Backend.publish entity payload);
  destroy entity b := mk_call (destroy entity (cb_log b));
  call _ _ _ := fun b => (inl [0; 1; 0; 0; 1; 1; 0; 0; 0; 0; 0; 0], b);
  send_action_goal _ _ _ := via_log log_fail; cancel_action _ _ _ := via_log log_fail;
  send_service_response entity opid payload := via_log (send_service_response entity opid payload);
  send_action_feedback entity opid payload := via_log (send_action_feedback entity opid payload);
  send_action_result entity opid payload := via_log (send_action_result entity opid payload);
  send_action_status entity opid payload := via_log (send_action_status entity opid payload);
  graph_view := via_log graph_view
}.
Definition operation (n : Z) : bytes := zeros 15 ++ [n].
(** Two calls of one service: the engine numbers the requests of a channel, the
    gateway expects the numbers of each operation to start at 0, so the second
    call ends the session. *)
Definition service_talk : System CallBackend := Eval vm_compute in
  commands [AppCommand.OpenService no_correlation 9 (lit "/trigger") (lit "std_srvs/srv/Trigger") 0 true]
    (talk_to (mk_call (mk_log 1 [] []))).
Definition two_calls : System CallBackend :=
  commands [AppCommand.CallService 9 (operation 2) []] (commands [AppCommand.CallService 9 (operation 1) []] service_talk).
Example second_call_ends_the_session :
  heard service_talk two_calls =
    [AppEvent.ServiceResponse 9 (operation 1) 1 0; AppEvent.Error 25 (lit "reliable_sequence_mismatch"); AppEvent.Closed Ready].
Proof. by vm_compute. Qed.
