(* ===== verification/EngineTheorems.v ===== *)
(** * The client engine: what it guarantees

    A poll always answers, whatever the host hands it; what it sends is what its
    session recorded, in order, and what a gateway session in step with it
    accepts; leases keep the host's views valid and every buffer comes back;
    heartbeats keep their schedule; what cannot be accepted closes it once and
    for all. *)

From stdpp Require Import gmap.
From S2P Require Import Prelude Utf8 ProtocolError Cbor Extension ControlSchema Control Frame Bootstrap Session SessionProofs.
From S2P Require Import Registry EngineTypes Engine EngineCodecs EngineSpec EngineMessages EngineProofs EngineSlab EngineBehaviour.
From S2P Require Import ConnectionTheorems System.
#[local] Open Scope Z_scope.

Section Theorems.
Context `{Target}.
Variable build : EngineBuild.


Lemma run_as_role r s tr s' : run s tr s' -> run (as_role r s) tr (as_role r s').
Proof.
  induction 1 as [| tr s1 sender ev eff s2 Hrun IH Hstep | tr s1 sender ev err s2 Hrun IH Hstep]; [constructor | |].
  - eapply run_accept; [exact IH |]. by rewrite apply_event_blind, Hstep.
  - eapply run_reject; [exact IH |]. by rewrite apply_event_blind, Hstep.
Qed.

(** C2: what a poll sends refines the session.  There is a history of accepted
    events from the session before to the session after such that the messages
    sent, in order and as their receiver parses them, are its client events and
    the control frames among them carry consecutive numbers; and a gateway
    session in the mirrored state accepts the whole history and ends in the
    mirrored state. *)
Theorem engine_refines_session nanos events e o e' :
  engine_ok e -> Forall event_ok events -> (build = Checked -> en_control_seq_in e + 64 <= u64_max) ->
  poll build nanos events e = (Ok o, e') ->
  exists history, run (en_session e) history (en_session e') /\
    Forall2 sent_as (map om_bytes (po_outbound o)) (sent history) /\
    numbered (en_control_seq_out e) (sent history) (en_control_seq_out e') /\
    run (as_role Server (en_session e)) history (as_role Server (en_session e')).
Proof.
  intros He Hev Hroom Hpoll. destruct (poll_safe build nanos events e He Hev Hroom) as (o1 & e1 & Hp & [_ _ (tr & Hrun & Hsent & Hnum)]).
  rewrite Hpoll in Hp. injection Hp as <- <-. exists tr. by pose proof (run_as_role Server _ _ _ Hrun).
Qed.

(** C11: leases are safe.  Between polls every lease is backed by a retained
    buffer that covers it; a poll keeps that, and a lease the batch does not
    release still names the same bytes afterwards: its view is neither freed nor
    changed, whatever else arrived. *)
Theorem leases_stay_valid nanos events e o e' :
  engine_ok e -> slab_ok (slab_of e) -> settled (slab_of e) -> Forall event_ok events ->
  (build = Checked -> en_control_seq_in e + 64 <= u64_max) ->
  orderly build (take MAX_HOST_EVENTS_PER_POLL events) (mk_ew e default_outcome) ->
  poll build nanos events e = (Ok o, e') ->
  slab_ok (slab_of e') /\ settled (slab_of e') /\
  forall lease, is_Some (en_leases e !! lease) -> lease ∉ concat (map event_released events) ->
    is_Some (en_leases e' !! lease) /\ lease_payload_view e' lease = lease_payload_view e lease.
Proof.
  intros He Hs Hset Hev Hroom Hord Hpoll.
  destruct (poll_accounted build nanos events e o e' He Hs Hset Hev Hroom Hord Hpoll) as [H1 H2 H3 _ _].
  split_and!; [done | done |]. intros lease Hl Hrel. destruct (H3 lease Hl Hrel) as [-> Hv]. done.
Qed.


(** C24: heartbeats keep their schedule.  On a ready engine with a deadline, a
    batch of clock readings sends one heartbeat for each reading at or past the
    deadline of its time (which the reading moves 15 seconds on) and none for
    the others, numbered and counted consecutively; in particular, once a
    reading reaches the deadline a heartbeat goes out. *)
Theorem heartbeats_on_schedule nanos readings deadline e :
  engine_ok e -> settled (slab_of e) -> ss_phase (en_session e) = Ready -> en_next_heartbeat_ms e = Some deadline ->
  en_closed e = false -> (length readings <= MAX_HOST_EVENTS_PER_POLL)%nat ->
  exists o e', poll build nanos (map HostEvent.Timer readings) e = (Ok o, e') /\
    map om_bytes (po_outbound o) = beat_frames (length (beats deadline readings)) (en_control_seq_out e) (en_heartbeat_counter e) /\
    po_next_deadline_ms o = Some (next_beat deadline readings) /\ po_events o = [] /\ en_closed e' = false /\
    (Exists (fun t => deadline <= t) readings -> exists frame, hd_error (map om_bytes (po_outbound o)) = Some frame /\
       exists n msg, cm_kind msg = Schema.CONTROL_KIND_HEARTBEAT /\
         parse_frame frame (Some default_options) = Ok (Frame.control_frame 0 (en_control_seq_out e) n msg)).
Proof.
  intros He Hs Hr Hd Hc Hl. destruct (poll_timers build nanos readings deadline e He Hs Hr Hd Hc Hl)
    as (o & e' & Hp & Hout & Hev & _ & Hnext & _ & Hc'). exists o, e'. split_and!; try done.
  intros Hdue. apply beats_due in Hdue. rewrite Hout. destruct (beats deadline readings) as [| t ts]; [done |].
  eexists. split; [done |]. apply heartbeat_encodes; [apply (eo_out _ He) |]. apply saturating_sequence; [apply (eo_heartbeat _ He) | lia].
Qed.

(** C25: what the engine refuses, it refuses for good.  A frame the parser or the
    session rejects (in the selected-version plane) is answered with nothing:
    the engine reports the error and that it closed, gives the buffer back and
    leaves session and leases as they were; every later poll, whatever it is
    given, sends nothing and only reports that the engine is closed. *)
Theorem refusal_closes nanos id b err e later :
  engine_ok e -> slab_ok (slab_of e) -> settled (slab_of e) -> en_closed e = false ->
  event_fits (HostEvent.WsBytes id b) e -> rust_slice b ->
  in_selected_plane (engine_phase e) = true -> frame_verdict e b = Err err ->
  exists id' e', poll build nanos [HostEvent.WsBytes id b] e =
      (Ok (mk_outcome [] (refusal_events e err) [mk_released id' (as_unsigned 32 (blen b))] (en_next_heartbeat_ms e)), e') /\
    en_session e' = en_session e /\ en_retained e' = en_retained e /\
    exists e'', poll build nanos later e' = (Ok (mk_outcome [] [AppEvent.Closed (engine_phase e)] [] None), e'') /\ en_closed e'' = true.
Proof.
  intros He Hs Hset Hc Hfits Hb Hph Hv.
  destruct (poll_refuses build nanos id b err e He Hs Hset Hc Hfits Hb Hph Hv) as (id' & e' & Hp & Hc' & Hs' & Hr').
  exists id', e'. split_and!; [done | done | done |].
  destruct (closed_poll build nanos later e' Hc') as (e'' & Hp' & Hc'' & _). exists e''. split; [| done].
  rewrite Hp'. unfold engine_phase. by rewrite Hs'.
Qed.

End Theorems.

(** ** Witnesses *)

#[local] Existing Instance gateway_target.

Definition talk_frame : bytes := Eval vm_compute in hd [] (fst (gateway_turn (Connection.ESample talk_sample) talk)).
Definition sample_event_in : HostEvent.t := HostEvent.WsBytes 0 talk_frame.
(** The engine once a sample is leased out. *)
Definition leased_engine : ClientEngine := Eval vm_compute in snd (poll Wrapping 0 [sample_event_in] talk_engine).

Lemma sample_event_ok : Forall event_ok [sample_event_in].
Proof. apply Forall_singleton, slice_check. by vm_compute. Qed.

Lemma leased_engine_invariants : engine_ok leased_engine /\ slab_ok (slab_of leased_engine) /\ settled (slab_of leased_engine).
Proof.
  destruct (poll_safe Wrapping 0 [sample_event_in] talk_engine talk_engine_ok sample_event_ok) as (o & e' & Hp & Hpolled); [intros E; discriminate E |].
  assert (Hl : snd (poll Wrapping 0 [sample_event_in] talk_engine) = leased_engine) by (vm_compute; reflexivity).
  rewrite Hp in Hl. cbn [snd] in Hl. rewrite <- Hl. split; [apply Hpolled |].
  assert (Ha : accounted [] talk_engine o e').
  { apply (poll_accounted Wrapping 0 [sample_event_in] talk_engine o e' talk_engine_ok (proj1 talk_slab) (proj2 talk_slab) sample_event_ok);
      [intros E; discriminate E | | exact Hp]. split; [split; vm_compute; reflexivity | intros ? _; exact I]. }
  split; apply Ha.
Qed.

(** A poll evaluated: its outcome and the engine after it. *)
Definition outcome_of (events : list HostEvent.t) (e : ClientEngine) : PollOutcome :=
  match fst (poll Checked 0 events e) with Ok o => o | _ => default_outcome end.
Definition engine_of (events : list HostEvent.t) (e : ClientEngine) : ClientEngine := snd (poll Checked 0 events e).

Definition talk_commands : list HostEvent.t :=
  [HostEvent.Timer 5; HostEvent.Command (AppCommand.SendSample 7 hello); sample_event_in; HostEvent.ReleaseLease 3].
Lemma talk_commands_ok : Forall event_ok talk_commands.
Proof.
  unfold talk_commands. repeat apply Forall_cons_2; [exact I | | | exact I | apply Forall_nil_2].
  - split; [unfold is_u32; vm_compute; by split | apply bytes_ok_check; by vm_compute].
  - apply slice_check. by vm_compute.
Qed.
Lemma room_check e : (en_control_seq_in e + 64 <=? u64_max) = true -> Checked = Checked -> en_control_seq_in e + 64 <= u64_max.
Proof. intros Hr _. by apply Z.leb_le. Qed.


Lemma engine_refines_session_witness :
  blen (po_outbound (outcome_of talk_commands talk_engine)) = 1 /\
  exists history, run (en_session talk_engine) history (en_session (engine_of talk_commands talk_engine)) /\
    Forall2 sent_as (map om_bytes (po_outbound (outcome_of talk_commands talk_engine))) (sent history) /\
    numbered (en_control_seq_out talk_engine) (sent history) (en_control_seq_out (engine_of talk_commands talk_engine)) /\
    run (as_role Server (en_session talk_engine)) history (as_role Server (en_session (engine_of talk_commands talk_engine))).
Proof.
  split; [vm_compute; reflexivity |].
  apply (engine_refines_session Checked 0 talk_commands talk_engine (outcome_of talk_commands talk_engine)
    (engine_of talk_commands talk_engine) talk_engine_ok talk_commands_ok (room_check talk_engine ltac:(vm_compute; reflexivity))).
  vm_compute. reflexivity.
Defined.

(** Another sample arrives: the lease on the first one stays. *)
Lemma leases_stay_valid_witness :
  lease_payload_view leased_engine 1 = Some hello_cdr /\
  forall lease, is_Some (en_leases leased_engine !! lease) -> lease ∉ concat (map event_released [sample_event_in]) ->
    is_Some (en_leases (engine_of [sample_event_in] leased_engine) !! lease) /\
    lease_payload_view (engine_of [sample_event_in] leased_engine) lease = lease_payload_view leased_engine lease.
Proof.
  split; [vm_compute; reflexivity |]. destruct leased_engine_invariants as (He & Hs & Hset).
  apply (leases_stay_valid Checked 0 [sample_event_in] leased_engine (outcome_of [sample_event_in] leased_engine)
    (engine_of [sample_event_in] leased_engine) He Hs Hset sample_event_ok (room_check leased_engine ltac:(vm_compute; reflexivity))).
  - split; [split; vm_compute; reflexivity | intros ? _; exact I].
  - vm_compute. reflexivity.
Defined.

(** The lease is released: the buffer comes back in the same poll. *)
Definition release_first : list HostEvent.t := [HostEvent.ReleaseLease 1].

(** The timer was armed when the session became ready. *)
Definition armed_engine : ClientEngine := Eval vm_compute in engine_of [HostEvent.Timer 1] talk_engine.
Lemma armed_engine_invariants : engine_ok armed_engine /\ settled (slab_of armed_engine).
Proof.
  assert (Hev : Forall event_ok [HostEvent.Timer 1]) by (apply Forall_singleton; exact I).
  assert (Hpoll : poll Checked 0 [HostEvent.Timer 1] talk_engine = (Ok (outcome_of [HostEvent.Timer 1] talk_engine), armed_engine))
    by (vm_compute; reflexivity).
  pose proof (room_check talk_engine ltac:(vm_compute; reflexivity)) as Hroom.
  destruct (poll_safe Checked 0 [HostEvent.Timer 1] talk_engine talk_engine_ok Hev Hroom) as (o & e' & Hp & Hpolled).
  rewrite Hpoll in Hp. apply pair_equal_spec in Hp as [_ E]. rewrite E. split; [apply Hpolled |]. rewrite <- E.
  apply (poll_accounted Checked 0 [HostEvent.Timer 1] talk_engine (outcome_of [HostEvent.Timer 1] talk_engine) armed_engine
    talk_engine_ok (proj1 talk_slab) (proj2 talk_slab) Hev Hroom); [| exact Hpoll].
  split; [exact I | intros ? _; exact I].
Qed.

(** Readings 5, 15001, 20000 and 31000 against the deadline 15001: two beats. *)
Lemma heartbeats_on_schedule_witness :
  beats 15001 [5; 15001; 20000; 31000] = [15001; 31000] /\
  exists o e', poll Checked 0 (map HostEvent.Timer [5; 15001; 20000; 31000]) armed_engine = (Ok o, e') /\
    map om_bytes (po_outbound o) = beat_frames 2 (en_control_seq_out armed_engine) (en_heartbeat_counter armed_engine) /\
    po_next_deadline_ms o = Some 46000 /\ po_events o = [] /\ en_closed e' = false /\
    (Exists (fun t => 15001 <= t) [5; 15001; 20000; 31000] -> exists frame, hd_error (map om_bytes (po_outbound o)) = Some frame /\
       exists n msg, cm_kind msg = Schema.CONTROL_KIND_HEARTBEAT /\
         parse_frame frame (Some default_options) = Ok (Frame.control_frame 0 (en_control_seq_out armed_engine) n msg)).
Proof.
  split; [vm_compute; reflexivity |]. destruct armed_engine_invariants as (He & Hset).
  apply (heartbeats_on_schedule Checked 0 [5; 15001; 20000; 31000] 15001 armed_engine He Hset).
  - vm_compute. reflexivity.
  - vm_compute. reflexivity.
  - vm_compute. reflexivity.
  - cbn. unfold MAX_HOST_EVENTS_PER_POLL. lia.
Defined.

(** A frame with a bad version closes the engine. *)
Definition bad_version : bytes := 9 :: drop 1 talk_frame.
Lemma refusal_closes_witness :
  exists err id' e', frame_verdict talk_engine bad_version = Err err /\
    poll Checked 0 [HostEvent.WsBytes 0 bad_version] talk_engine =
      (Ok (mk_outcome [] (refusal_events talk_engine err) [mk_released id' (as_unsigned 32 (blen bad_version))]
             (en_next_heartbeat_ms talk_engine)), e') /\
    en_session e' = en_session talk_engine /\ en_retained e' = en_retained talk_engine /\
    exists e'', poll Checked 0 talk_commands e' = (Ok (mk_outcome [] [AppEvent.Closed (engine_phase talk_engine)] [] None), e'') /\
      en_closed e'' = true.
Proof.
  assert (Hv : exists err, frame_verdict talk_engine bad_version = Err err) by (eexists; vm_compute; reflexivity).
  destruct Hv as [err Hv].
  destruct (refusal_closes Checked 0 0 bad_version err talk_engine talk_commands talk_engine_ok (proj1 talk_slab) (proj2 talk_slab))
    as (id' & e' & Hr).
  - vm_compute. reflexivity.
  - split; vm_compute; reflexivity.
  - apply slice_check. vm_compute. reflexivity.
  - vm_compute. reflexivity.
  - exact Hv.
  - exists err, id', e'. split; [exact Hv | exact Hr].
Defined.
