(* ===== verification/HostAbi.v ===== *)
(** * The exports of the WASM host

    [rclweb/src/host/abi.rs]: the table of engines behind the [extern "C"]
    functions, the batch that goes in and the result kept for the host.  Linear
    memory is a parameter: [memory ptr len] is what the host put there, [as_ptr]
    the address of a view.  A null pointer is address 0. *)

From stdpp Require Import gmap.
From S2P Require Import Prelude Utf8 CdrCore HostReader EngineTypes Engine Batch.
From S2P Require PointCloud HostValue.
#[local] Open Scope Z_scope.

(** The thread-local tables [ENGINES], [NEXT_HANDLE] and [SCRATCH]. *)
Record Abi := mk_abi { ab_engines : gmap Z ClientEngine; ab_next_handle : Z; ab_scratch : gmap Z bytes }.
Definition abi_start : Abi := mk_abi ∅ 1 ∅.

Definition map_batch_err (err : BatchError) : Z :=
  match err with
  | Truncated => -1
  | BadMagic => -2
  | BadVersion => -3
  | BadKind => -4
  | Limit => -5
  end.

Definition i32_max : Z := 2147483647.
(** [i32::try_from(n).unwrap_or(-3)]. *)
Definition i32_or_fault (n : Z) : Z := match try_from i32_max n with Some n => n | None => -3 end.

Section Abi.
Context `{Target} `{Sizes}.
Variable build : EngineBuild.
Context (memory : Z -> Z -> bytes) (as_ptr : bytes -> Z).

#[local] Abbreviation AbiM := (SM Abi unit).
Definition set_engines (v : gmap Z ClientEngine) (a : Abi) : Abi := mk_abi v (ab_next_handle a) (ab_scratch a).
Definition set_next_handle (v : Z) (a : Abi) : Abi := mk_abi (ab_engines a) v (ab_scratch a).
Definition set_scratch (v : gmap Z bytes) (a : Abi) : Abi := mk_abi (ab_engines a) (ab_next_handle a) v.

(** [Layout::array::<u8>(len).ok()] and the allocation of it; 0 is null. *)
Definition alloc_layout (len : Z) : option Z := if len <=? isize_max then Some len else None.
Definition rclweb_alloc (alloc : Z -> Z) (len : Z) : Z :=
  if len =? 0 then 0 else match alloc_layout len with None => 0 | Some layout => alloc layout end.

Definition rclweb_engine_new : AbiM Z :=
  handle <~ gets ab_next_handle ;;
  modify (set_next_handle (u32_saturating_add handle 1)) ;;~
  modify (fun a => set_engines (<[handle := engine_new]> (ab_engines a)) a) ;;~
  ret handle.

Definition rclweb_engine_free (handle : Z) : AbiM unit :=
  modify (fun a => set_engines (delete handle (ab_engines a)) a) ;;~
  modify (fun a => set_scratch (delete handle (ab_scratch a)) a).

Definition encode_outcome (handle : Z) (engine : ClientEngine) (outcome : PollOutcome) : AbiM Z :=
  let buf := encode_poll_result_into (lease_payload_abi as_ptr engine) [] outcome in
  modify (fun a => set_scratch (<[handle := buf]> (ab_scratch a)) a) ;;~
  ret (if i32_max <? blen buf then -5 else blen buf).

(** A turn of the engine behind a handle; an unknown handle is -6. *)
Definition with_engine (handle : Z) (turn : ClientEngine -> outcome unit PollOutcome * ClientEngine) : AbiM Z :=
  engines <~ gets ab_engines ;;
  match engines !! handle with
  | None => ret (-6)
  | Some engine =>
      modify (set_engines (<[handle := (turn engine).2]> engines)) ;;~
      outcome <~ lift (turn engine).1 ;;
      encode_outcome handle (turn engine).2 outcome
  end.

Definition abi_run_poll (nanos handle : Z) (events : list HostEvent.t) : AbiM Z :=
  with_engine handle (poll build nanos events).

(** The closure [rclweb_poll] gives to [decode_host_batch]. *)
Definition resolve_ws (buffer_id ptr len : Z) : outcome BatchError bytes :=
  if len =? 0 then Ok [] else if ptr =? 0 then Err Truncated else Ok (memory ptr len).

Definition rclweb_poll (nanos handle batch_ptr batch_len : Z) : AbiM Z :=
  if (batch_ptr =? 0) && negb (batch_len =? 0) then ret (-1)
  else
    match decode_host_batch resolve_ws (memory batch_ptr batch_len) with
    | Ok events => abi_run_poll nanos handle events
    | Err err => ret (map_batch_err err)
    | Panic => lift Panic
    end.

Definition rclweb_poll_ws (nanos handle buffer_id ptr len : Z) : AbiM Z :=
  if negb (len =? 0) && (ptr =? 0) then ret (-1)
  else with_engine handle (poll_ws_bytes build nanos buffer_id (if len =? 0 then [] else memory ptr len)).

Definition rclweb_last_result_len (a : Abi) (handle : Z) : Z :=
  match ab_scratch a !! handle with None => 0 | Some v => as_unsigned 32 (blen v) end.

Definition telemetry_fields (t : EngineTelemetry) : list Z :=
  [et_copies_into_engine t; et_bytes_copied_into_engine t; et_poll_turns t; et_poll_nanos_total t; et_samples_emitted t;
   et_leases_released t; et_samples_sent t].

(** The code returned and, when it is 0, the 56 bytes written. *)
Definition rclweb_telemetry (a : Abi) (handle out_ptr : Z) : Z * option bytes :=
  if out_ptr =? 0 then (-1, None)
  else match ab_engines a !! handle with
       | None => (-6, None)
       | Some engine => (0, Some (concat (map (to_le 8) (telemetry_fields (en_telemetry engine)))))
       end.

(** [out[..src.len()].copy_from_slice(src)] of a call that answers [rc]. *)
Definition write_out (rc : Z) (src out : bytes) : outcome unit (Z * bytes) :=
  out <-- PointCloud.copy_into out 0 src ;; Ok (rc, out).

(** The retry convention: the size needed, when four bytes fit. *)
Definition too_small (need : Z) (out : bytes) : outcome unit (Z * bytes) :=
  if 4 <=? blen out then write_out (-4) (to_le 4 (as_unsigned 32 need)) out else Ok (-4, out).

(** The result is the code and what the output region holds then ([None]: part of
    a record); [data_addr] and [payload_ptr] are the addresses of the cloud's data
    and of the payload. *)
Definition rclweb_point_cloud2_meta (data_addr payload_ptr payload_len out_ptr : Z) (out : bytes)
    : outcome unit (Z * option bytes) :=
  if (payload_ptr =? 0) || (out_ptr =? 0) then Ok (-1, Some out)
  else
    match PointCloud.decode_point_cloud2_le (memory payload_ptr payload_len) with
    | Err _ => Ok (-2, Some out)
    | Panic => Panic
    | Ok view =>
        let data_offset := Z.max 0 (data_addr - payload_ptr) in
        if (u32_max <? data_offset) || (u32_max <? blen (PointCloud.data view)) then Ok (-3, Some out)
        else
          let need := PointCloud.point_cloud2_host_meta_len view in
          if blen out <? need then Prelude.omap (fun r => (r.1, Some r.2)) (too_small need out)
          else
            match PointCloud.write_point_cloud2_host_meta view (as_unsigned 32 data_offset) out with
            | Ok (n, out') => Ok (i32_or_fault n, Some out')
            | Err _ => Ok (-3, None)
            | Panic => Panic
            end
    end.

Definition rclweb_decode_generated (type_ptr type_len payload_ptr payload_len out_ptr : Z) (out : bytes)
    : outcome unit (Z * bytes) :=
  if (type_ptr =? 0) || (payload_ptr =? 0) || (out_ptr =? 0) then Ok (-1, out)
  else
    let type_name := memory type_ptr type_len in
    if negb (utf8_valid type_name) then Ok (-2, out)
    else
      match HostValue.decode_generated_cdr type_name (memory payload_ptr payload_len) with
      | Err _ => Ok (-2, out)
      | Panic => Panic
      | Ok msg =>
          let encoded := HostValue.encode_host_value msg in
          if blen out <? blen encoded then too_small (blen encoded) out
          else write_out (i32_or_fault (blen encoded)) encoded out
      end.

End Abi.
