(* ===== verification/BatchTheorems.v ===== *)
(** * Poll batches: theorems

    What an encoder wrote is read back; on a 64-bit target any bytes decode to
    typed events or to an error, and the events can be polled.  The examples
    show what the decoder does not bound. *)

From stdpp Require Import gmap.
From S2P Require Import Prelude Utf8 Cbor HostReader Session Registry EngineTypes Engine EngineCodecs EngineSpec EngineProofs.
From S2P Require Import Batch BatchProofs Sdk SdkProofs HostAbi.
From S2P Require PointCloud BuilderProofs.
#[local] Open Scope Z_scope.

Lemma text16_carried s : text16 s -> carried_text s.
Proof. intros [Hu Hl]. split; [done | unfold MAX_SAFE_INTEGER; lia]. Qed.

Lemma unsigned_u32 v : is_unsigned 32 v -> is_u32 v.
Proof. unfold is_unsigned, is_u32, u32_max. lia. Qed.

Lemma short_u32 v : is_unsigned 16 v -> is_u32 v.
Proof. unfold is_unsigned, is_u32, u32_max. lia. Qed.

Lemma bytes16_carried b : bytes16 b -> carried_bytes b.
Proof. intros [Hb Hl]. split; [done | unfold MAX_SAFE_INTEGER; lia]. Qed.

Lemma text32_valid s : text32 s -> utf8_valid s = true.
Proof. by intros []. Qed.

Section Typed.
Context `{Target} `{Sizes}.
#[local] Set Default Proof Using "All".
Hypothesis Hwide : wide.

Lemma bytes32_native s : bytes32 s -> rust_slice s.
Proof.
  intros [Hb Hl]. split; [done |]. pose proof isize_le_usize. unfold wide, u64_max, u32_max in *. lia.
Qed.

(** On a 64-bit target a decoded event is one the engine's contract covers. *)
Lemma typed_event_ok event : event_typed event -> event_ok event.
Proof.
  destruct event as [id b | now_ms | cmd | lease_id]; cbn [event_typed event_ok]; [| done | | done].
  { intros [_ Hb]. by apply bytes32_native. }
  destruct cmd; cbn [command_typed command_ok]; unfold topic_typed, endpoint_typed, operation_typed, open_ok, operation_ok;
    intros Hc; destruct_and?; split_and?;
    try first [done | by apply text16_carried | by apply unsigned_u32 | by apply short_u32
      | by apply host_value_native; [apply Hwide | apply bytes32_native]].
  - by apply bytes16_carried.
  - by apply utf8_valid_bytes, text32_valid.
  - match goal with H : text16 (PointCloud.frame_id _), H' : bytes32 _, Hf : Forall field_typed _ |- _ =>
      split; [by apply utf8_valid_bytes, H | split; [by apply H' |]]; eapply Forall_impl; [exact Hf |] end.
    intros f [[Hu _] _ Hd _]. split; [by apply utf8_valid_bytes | done].
Qed.

End Typed.

Section Theorems.
Context `{Target} `{Sizes}.

(** C15: what the host writes, the engine reads.  A batch of events within the
    widths of the layout, encoded with inline payloads, decodes to exactly these
    events, on either target and whatever the host would resolve. *)
Theorem batch_round_trip resolve_ws events :
  Forall event_typed events -> vec_ok size_of_HostEvent events -> blen (encode_host_batch_inline events) <= isize_max ->
  decode_host_batch resolve_ws (encode_host_batch_inline events) = Ok events.
Proof. apply batch_read_back. Qed.

(** C14: any bytes are safe to decode and poll on a 64-bit target.  The decoder
    answers with an error or with events whose fields have the widths of their
    types, and these the engine's poll accepts. *)
Theorem any_batch_polls build nanos resolve_ws bs e :
  wide -> rust_slice bs -> small_sizes ->
  (forall id ptr len, match resolve_ws id ptr len with Ok b => bytes32 b | Err _ => True | Panic => False end) ->
  engine_ok e -> (build = Checked -> en_control_seq_in e + 64 <= u64_max) ->
  match decode_host_batch resolve_ws bs with
  | Ok events => Forall event_typed events /\ exists o e', poll build nanos events e = (Ok o, e') /\ engine_ok e'
  | Err _ => True
  | Panic => False
  end.
Proof.
  intros Hw Hbs Hs Hr He Hroom. pose proof (batch_typed (Hinput := {| input_slice := Hbs; input_wide := Hw |}) Hs resolve_ws Hr) as Ht.
  destruct (decode_host_batch resolve_ws bs) as [events | |]; [| done | done]. destruct Ht as [Ht _]. split; [done |].
  destruct (poll_safe build nanos events e He) as (o & e' & Hp & [Hok _ _]); [| done | by exists o, e'].
  eapply Forall_impl; [exact Ht | by apply typed_event_ok].
Qed.

(** C16: the SDK sees the poll.  A result within the widths of the layout, read by
    [decodePollResult], gives the messages, the released buffers, the deadline and
    the events of the poll, each text as [TextDecoder] shows it and each lease with
    the view of its payload. *)
Theorem sdk_reads_result decode_invalid view o :
  outcome_fits view o -> blen (encode_poll_result_into view [] o) <= isize_max ->
  decodePollResult decode_invalid (encode_poll_result_into view [] o) = Ok (sdk_result decode_invalid view o).
Proof. apply result_read_back. Qed.

(** The shortcut of [decodePollResult] is sound.  On any result for which it is
    taken, it gives what the loops give. *)
Theorem lone_sample_is_the_general_case decode_invalid bs outboundCount eventCount releasedCount :
  blen bs <= isize_max -> lone_sample bs outboundCount eventCount releasedCount = true ->
  (read_lone_sample bs 20).1 = (read_result_body decode_invalid outboundCount eventCount releasedCount bs 20).1.
Proof. apply shortcut_agrees. Qed.

(** *** The exports *)

Variable build : EngineBuild.
Context (memory : Z -> Z -> bytes) (as_ptr : bytes -> Z).

(** Every engine of the table is in its invariant, and its handle was given out. *)
Definition abi_ok (a : Abi) : Prop :=
  map_Forall (fun handle e => engine_ok e /\ 1 <= handle <= ab_next_handle a) (ab_engines a) /\
  1 <= ab_next_handle a <= u32_max.

Lemma abi_start_ok : abi_ok abi_start.
Proof. split; [apply map_Forall_empty | by vm_compute]. Qed.

Lemma engine_new_abi a :
  abi_ok a -> exists a', rclweb_engine_new a = (Ok (ab_next_handle a), a') /\ abi_ok a' /\
    ab_engines a' !! ab_next_handle a = Some engine_new.
Proof.
  intros [He Hn]. eexists. split; [reflexivity |]. split; [| apply lookup_insert_eq]. split; cbn.
  - apply map_Forall_insert_2.
    + split; [apply engine_new_ok | unfold u32_saturating_add; lia].
    + eapply map_Forall_impl; [exact He |]. cbn. unfold u32_saturating_add. intros h e [Hok Hh]. split; [done | lia].
  - unfold u32_saturating_add, u32_max in *. lia.
Qed.

(** The result kept for a handle and the code for it. *)
Definition result_of (e : ClientEngine) (o : PollOutcome) : bytes :=
  encode_poll_result_into (lease_payload_abi as_ptr e) [] o.
Definition code_of (buf : bytes) : Z := if i32_max <? blen buf then -5 else blen buf.

Lemma with_engine_answers handle turn a e o e' :
  ab_engines a !! handle = Some e -> turn e = (Ok o, e') ->
  with_engine as_ptr handle turn a =
    (Ok (code_of (result_of e' o)),
     mk_abi (<[handle := e']> (ab_engines a)) (ab_next_handle a) (<[handle := result_of e' o]> (ab_scratch a))).
Proof.
  intros He Ht. unfold with_engine, bind at 1, gets. rewrite He. by rewrite Ht.
Qed.

Lemma abi_ok_insert a handle e e' scratch :
  abi_ok a -> ab_engines a !! handle = Some e -> engine_ok e' ->
  abi_ok (mk_abi (<[handle := e']> (ab_engines a)) (ab_next_handle a) scratch).
Proof.
  intros [Hm Hn] He He'. split; [| done]. cbn. apply map_Forall_insert_2; [| done]. split; [done |]. apply (Hm handle e He).
Qed.


End Theorems.

(** ** Witnesses *)

#[local] Instance demo_sizes : Sizes := {| size_of_HostEvent := 176; size_of_PointField := 40 |}.
Definition no_ws (_ _ _ : Z) : outcome BatchError bytes := Err BadKind.

(** Every kind of event, a cloud among the commands. *)
Definition demo_cloud : AppCommand.t :=
  AppCommand.SendPointCloud2 9 {| PointCloud.stamp_sec := -3; PointCloud.stamp_nanosec := 4; PointCloud.frame_id := lit "map" |}
    1 1 [{| PointCloud.pf_name := lit "x"; PointCloud.pf_offset := 0; PointCloud.pf_datatype := 7; PointCloud.pf_count := 1 |}]
    4 4 false true [1; 2; 3; 4].
Definition demo_events : list HostEvent.t :=
  [HostEvent.Command (AppCommand.Start true false); HostEvent.WsBytes 9 (lit "hello"); HostEvent.Timer 42;
   HostEvent.Command demo_cloud;
   HostEvent.Command (AppCommand.Subscribe (zeros 16) 3 (lit "/a") (lit "std_msgs/msg/String") 1 10 0);
   HostEvent.Command (AppCommand.CallService 3 (zeros 16) [7]); HostEvent.ReleaseLease 3].

Ltac in_range :=
  repeat (first [split | constructor | by vm_compute | by apply bytes_ok_check]).

Lemma demo_events_typed : Forall (event_typed (H := Wasm32)) demo_events.
Proof. unfold demo_events, demo_cloud. repeat constructor; in_range. Qed.

Lemma batch_round_trip_witness :
  decode_host_batch (H := Wasm32) no_ws (encode_host_batch_inline demo_events) = Ok demo_events.
Proof.
  apply (batch_round_trip (H := Wasm32) no_ws demo_events).
  - exact demo_events_typed.
  - split; vm_compute; discriminate.
  - vm_compute. discriminate.
Defined.

Definition demo_batch : bytes := Eval vm_compute in encode_host_batch_inline demo_events.

Lemma any_batch_polls_witness :
  match decode_host_batch (H := Native64) no_ws demo_batch with
  | Ok events => Forall (event_typed (H := Native64)) events /\
      exists o e', poll (H := Native64) Checked 0 events engine_new = (Ok o, e') /\ engine_ok (H := Native64) e'
  | Err _ => True
  | Panic => False
  end.
Proof.
  apply (any_batch_polls (H := Native64) Checked 0 no_ws demo_batch engine_new).
  - reflexivity.
  - split; [by apply bytes_ok_check | vm_compute; discriminate].
  - split; split; vm_compute; discriminate.
  - intros id ptr len. exact I.
  - apply engine_new_ok.
  - intros _. vm_compute. discriminate.
Defined.

Definition demo_view (lease : Z) : Z * Z := (1024 + lease, 8).
Definition demo_outcome : PollOutcome :=
  mk_outcome [mk_outbound 1 [1; 2; 3]]
    [AppEvent.BootstrapComplete 1; AppEvent.Sample 3 4 5 (-6) (Some (lit "hi")); AppEvent.ServiceRequest 3 (zeros 16) 5 1;
     AppEvent.SubscribeFailed 7 22 (lit "denied"); AppEvent.Closed Failed] [mk_released 9 64] (Some 15000).

Lemma sdk_reads_result_witness :
  decodePollResult (H := Wasm32) id (encode_poll_result_into demo_view [] demo_outcome) =
    Ok (sdk_result id demo_view demo_outcome).
Proof.
  apply (sdk_reads_result (H := Wasm32) id demo_view demo_outcome); [| vm_compute; discriminate].
  split; [repeat constructor; in_range | | repeat constructor; in_range | | repeat constructor; in_range | | in_range];
    vm_compute; discriminate.
Defined.

Definition lone_outcome : PollOutcome := mk_outcome [] [AppEvent.Sample 3 4 5 (-6) None] [] None.
Definition lone_result : bytes := Eval vm_compute in encode_poll_result_into demo_view [] lone_outcome.

Lemma lone_sample_is_the_general_case_witness :
  (read_lone_sample (H := Wasm32) lone_result 20).1 = (read_result_body (H := Wasm32) id 0 1 0 lone_result 20).1.
Proof.
  apply (lone_sample_is_the_general_case (H := Wasm32) id lone_result 0 1 0); [vm_compute; discriminate | vm_compute; reflexivity].
Defined.

Definition demo_abi : Abi := mk_abi {[1 := engine_new]} 2 ∅.
Definition start_events : list HostEvent.t := [HostEvent.Command (AppCommand.Start true false)].
Definition start_memory (_ _ : Z) : bytes := encode_host_batch_inline start_events.

Lemma demo_abi_ok : abi_ok (H := Wasm32) demo_abi.
Proof.
  split; [| split; vm_compute; discriminate]. apply map_Forall_insert_2; [| apply map_Forall_empty].
  split; [apply engine_new_ok | split; vm_compute; discriminate].
Qed.


(** ** What the decoder does not bound *)

(** Twelve bytes that announce 2^32 - 1 events: the vector is reserved before any
    event is looked for, and the reservation panics on wasm32. *)
Definition hollow_batch : bytes := Eval vm_compute in write_u32 BATCH_MAGIC ++ write_u16 1 ++ write_u16 0 ++ write_u32 u32_max.
Example hollow_batch_panics : decode_host_batch (H := Wasm32) no_ws hollow_batch = Panic.
Proof. reflexivity. Qed.

(** A payload length near 2^32 wraps the end of the slice past the check on
    wasm32; a 64-bit target answers [Truncated]. *)
Definition wrapped_batch : bytes := Eval vm_compute in
  write_u32 BATCH_MAGIC ++ write_u16 1 ++ write_u16 1 ++ write_u32 1 ++ tag EVENT_WS_BYTES ++ write_u32 9 ++ write_u32 0 ++
  write_u32 u32_max.
Example wrapped_length_panics :
  decode_host_batch (H := Wasm32) no_ws wrapped_batch = Panic /\
  decode_host_batch (H := Native64) no_ws wrapped_batch = Err Truncated.
Proof. split; vm_compute; reflexivity. Qed.

(** The SDK loses a byte order mark at the start of a text. *)
Example bom_is_lost : td_decode id (BOM ++ lit "hi") = lit "hi".
Proof. reflexivity. Qed.

(** A depth over 16 bits is clamped on this side; the SDK's encoder keeps its low
    16 bits. *)
Example depth_is_clamped :
  encode_open_topic [] 1 [] [] 1 65536 0 = encode_open_topic [] 1 [] [] 1 65535 0.
Proof. reflexivity. Qed.

(** After 2^32 - 1 engines the last handle is given out again, and the engine
    behind it is replaced. *)
Example last_handle_is_reused a :
  ab_next_handle a = u32_max ->
  exists a1 a2, rclweb_engine_new a = (Ok u32_max, a1) /\ rclweb_engine_new a1 = (Ok u32_max, a2).
Proof. intros Hn. unfold rclweb_engine_new, bind, gets, modify, ret. cbn. rewrite Hn. by do 2 eexists. Qed.
